(* ===== verification/_CoqProject ===== *)
-Q . S2P
Prelude.v
GoStrings.v
Utf8Facts.v
Glob.v
Effects.v
Portal.v
Models.v
Schema.v
SqlFacts.v
TableFacts.v
Store.v
AcmeStore.v
Pki.v
Sealing.v
CaService.v
CaLifecycle.v
CaImport.v
CaTools.v
Downloads.v
SecretStore.v
Vault.v
K8s.v
CsiProvider.v
Webhooks.v
AcmePolicy.v
Setup.v
SchemaText.v
SchemaLock.v
AcmeService.v
AcmeAdmin.v
AcmeProtocol.v
Auth.v
Gate.v
Sessions.v
Directory.v
Config.v
ConfigYaml.v
ConfigYamlFacts.v
Api.v
Pages.v
Secrets.v
Apply.v
SslTool.v
Sample.v
CaFacts.v
AcmeFacts.v
AcmeScope.v
CrlFacts.v
PkiFacts.v
IssueFacts.v
LifecycleFacts.v
ImportFacts.v
ImportSpec.v
RevocationFacts.v
EabFacts.v
AdminFacts.v
AuthFacts.v
SessionFacts.v
AccountFacts.v
DirectoryFacts.v
ConfigFacts.v
AccessFacts.v
UserFacts.v
AuditFacts.v
VaultFacts.v
K8sFacts.v
ProviderFacts.v
SecretFacts.v
ApplyFacts.v
ApplyServer.v
SslFacts.v
HookFacts.v
