(* ===== verification/Prelude.v ===== *)
(** * goca: a verification library

    goca is a self-hosted certificate authority: one Go program that is a CA
    service, a web portal with a REST API, an ACME server for credentials bound
    in advance, a secret manager for Kubernetes, and the webhooks that tell
    others about all of it.  Replicas of it share one SQL database.  This
    library models its core and proves what the core is for.

    ** How the program is modelled

    A handler is a program of type [prog] (Effects): a tree of atomic actions on
    a [world], each one SQL statement or transaction, one reading of the clock
    or one draw of randomness.  The same tree runs alone ([run], [wp]) or
    interleaved statement by statement with any number of other handlers on any
    number of replicas ([pstep], [guar], [rely], [spends], [schedule]).  A [world]
    (Schema) is the shared database, the clock, the failures the driver is going
    to have and how far the random source has been read.  The database is the
    schema of internal/store/store.go as data: tables of rows, UNIQUE
    constraints, foreign keys with their cascades; a statement that would break
    a constraint is an error and has no effect.  An [error] is the Go error with
    what the code looks at: its text and the sentinels [errors.Is] finds.

    Names are the code's.  Where Rocq has the name already, or the same name is
    a method on several types, an underscore or the type is added: [Fail_],
    [Reset_], [List_], [Set_], [open_], [EABCred_Usable] for EABCred.Usable.
    Times are nanoseconds since Go's zero time, [0] is the zero time, a pointer
    is an [option], columns of JSON are held decoded.

    ** Files that model the program

    - Prelude, GoStrings, Glob: results, the list fragments of SQL, Go's
      strings, strconv and fmt on bytes, UTF-8, and path.Match.
    - Effects, Schema: programs and the database (above).
    - Portal: web/static/app.js over an explicit document, its listeners and
      timers.
    - Models: store/models.go, the rows and their methods.
    - Store, AcmeStore, SecretStore (modules SecretStore and K8sStore) and the
      module WebhookStore of Webhooks: the methods of store/store.go, acme.go,
      secrets.go, k8sauth.go and webhook.go with their SQL.
    - Pki: internal/pki, subjects, alternative names, serials, key types, Sign,
      CreateCA, CreateCRL.
    - Sealing: Box is internal/secret, Pqcrypt is internal/pqcrypt.
    - CaService: ca/service.go, authorities, issuance, chains, revocation,
      CRLs, audit records and the event sink.
    - CaLifecycle: ca/lifecycle.go, renewal, holds, bulk revocation, retirement.
    - CaImport: running underneath an outside authority; PkiImport is
      pki/import.go and inspect.go, CaImport is ca/import.go.
    - CaTools: generated requests, bundles and PKCS#12 archives of
      ca/service.go; Downloads: the public downloads of web/download.go and the
      answers handlers give (module Http).
    - AcmePolicy: acme/nonce.go, policy.go, domain.go, errors.go.
    - AcmeAdmin: administration of ACME; EabAdmin is acme/eab_admin.go with the
      REST handlers of web/acme_admin.go and the credential commands of
      cli/acme_cmd.go, AcmePages the portal handlers.
    - AcmeService, AcmeProtocol: acme/service.go and jws.go, and the HTTP
      handlers of web/acme_protocol.go.
    - Auth: auth/auth.go and web/ratelimit.go.
    - Gate: the way into the portal and the API, web/session.go, api.go,
      api_auth.go, oidc.go and clientIP of server.go.
    - Sessions: cookies, CSRF tokens, flash messages and the sign-in page of
      session.go and render.go, with a browser that keeps each cookie for as
      long as its MaxAge says; the janitor of server.go.
    - Directory: LdapAuth is ldapauth/ldap.go, OidcAuth is oidcauth/oidc.go, Sso
      the state cookie and the handlers of web/oidc.go.
    - Api: web/api.go and api_lifecycle.go; Pages: web/pages.go and
      pages_lifecycle.go.  In both, a handler reads its parsed input and a
      [Call] (the user the gate let in, the token, the path), [handler] maps a
      [route] to its handler and [serve] puts the gate before it.
    - Vault: vault/service.go.  Secrets: Labels reads and writes the labels of a
      secret, SecretsApi is web/api_secrets.go, SecretsPages
      web/pages_secrets.go.
    - SslTool: web/pages_ssl.go and the data its template writes.
    - Setup: opening a database; Rebind is store/pgrebind.go, Dsn the connection
      string and Migrate the added columns of store/store.go.  SchemaText holds
      the text of both schemas with a reader of it, SchemaLock
      [applyPostgresSchema]: replicas as a step relation [Turns.turn] around an
      advisory lock.
    - K8s: K8sAuth is internal/k8sauth; Csi is web/api_vault_fetch.go,
      api_eso.go, api_csi_auth.go and the trust domains of server.go.
    - CsiProvider: csi/provider.go, the other end of Csi on a node.
    - Config: config/config.go; NetUrl is url.Parse.  ConfigYaml: the struct
      tags of config.go, what they write and leave out and what they read.
    - Apply: rcli/apply_cmd.go, gocactl apply and diff, over a record [Remote] of
      the calls of gocaclient they make; [goca_remote] makes them to SecretsApi.
    - Webhooks: Dispatcher is internal/webhooks, Hooks is web/api_webhooks.go.
    - Sample: one concrete environment for the witnesses.

    ** How the parts interact

    Everything above the store goes through its methods, so any two handlers
    interact exactly by the statements they run.  AcmeService issues and revokes
    through CaService under a credential's scope; CaLifecycle retires what
    CaService issued; every operation of CaService ends in an audit record and
    calls the event sink, which is [Dispatcher.Emit].  Gate decides which user
    reaches a handler of Api and Pages, by Auth's sessions and tokens; Auth
    hands a password to LdapAuth and Sso an identity of OidcAuth to Auth.  Csi authenticates a
    workload with a verifier cached per process and rebuilt from the shared
    rows, and reads the Vault, which seals with Pqcrypt and reads certificate
    secrets through CaService; CsiProvider asks it over HTTP ([goca_server]).
    JSON is written with what is not UTF-8 replaced, as the library does; a
    theorem that reads something back asks for UTF-8 ([Utf8.text]).
    Config establishes what CaService, Auth and Directory read of a
    configuration.  Apply runs against any server that is an [ApplySpec.Keeper];
    its theorems are proved against that class, and SecretsApi is an instance.

    What is not goca's own is a parameter: the classes [Pki.Std] (X.509, PEM,
    URL and address parsing of the Go library), [Ciphers], [Auth.Passwords]
    (bcrypt and encodings), [Gate.Net], [AcmeService.Wire] (JOSE and the JSON of
    requests), [LdapAuth.Directory] (the LDAP client), [OidcAuth.Provider] (the
    OpenID provider), [Sso.StateCookie] (its sealed cookie), [CaTools.Pkcs12], [K8sAuth.Cluster] (OIDC and TokenReview), [Dispatcher.Network]
    (HTTP), [CsiProvider.Decoders] (JSON and YAML of a volume), [ConfigYaml.Scalars] and
    [ConfigYaml.Documents] (the syntax of YAML), [NetUrl.IpLiterals]
    and [Config.Addresses] (net.ParseCIDR and net.ParseIP), and [RowOrder], the order in which SQL returns rows when no ORDER BY
    fixes it.  Their laws say what their documentation says; each has a concrete
    instance for the witnesses, in Sample or where it is used.

    ** What is proved

    - AcmeFacts, AcmeScope, EabFacts: over all interleavings, an order yields at
      most one certificate, the certificates ACME adds name exactly the
      identifiers of an order in scope - of the credential of the order's own
      account, as the store has it -, a credential registers no more accounts
      than its cap; and the failed read-back that exceeds the cap.
    - AdminFacts: an account that is deactivated, or whose credential is
      disabled, gets nothing further under any interleaving; what a created
      credential holds and that its key opens it; and references that resolve
      to the wrong credential.
    - CaFacts, IssueFacts, CrlFacts, PkiFacts: what one issuance adds and under
      which authority, chains as lines of parents, CRL numbers handed out once,
      what a CRL lists, serial numbers and slugs; and the race of two
      reinstatements with a revocation.
    - LifecycleFacts: a renewal, a bulk revocation, the retirement of a
      hierarchy and its termination.  RevocationFacts: over every request that
      changes certificates or authorities, a revocation other than a hold is
      final until the row or its authority is deleted.
    - ImportFacts, ImportSpec: parents form a forest whatever is created,
      imported, completed and deleted (invariant [forest], what a request leaves
      of it [evolves]), so retirement terminates; what an import stores; and
      four ways it falls short, one of them a cycle made by overlapping
      completions.
    - AuthFacts: who reaches a guarded handler, how many guesses a throttled
      name admits, which address counts, how long a token lives; and three ways
      these fall short.
    - SessionFacts: the right password gets its owner in and keeps them in until
      the session's cookie runs out, signing out is final, the janitor
      is not noticed, a flash message is shown once; and sign-outs that fail and
      error pages whose cookies are lost.
    - AccountFacts, DirectoryFacts: a session opened with a password is that of
      the account whose password was checked, locally or by the directory with
      the groups it has; one opened by single sign-on that of the user the
      verified token describes; what userinfo cannot change; and groups matched
      by their common name.
    - AccessFacts, UserFacts, AuditFacts, over the handlers of Api and Pages
      with everything below them: a user who is no administrator leaves other
      users' certificates alone under any interleaving, by protocols between
      handlers ([always]); an enabled administrator remains; the audit log is
      read completely page by page.  And who is shown more than their own, a
      bulk revocation without a filter, administrators who vanish.
    - VaultFacts: the secret manager refines [VaultSpec], a map from names to
      numbered values ([secrets_behave_as_a_map]).
    - K8sFacts: an invariant of the verifier cache by induction on what a
      process can do, the verifier in use is the one the database describes,
      and a workload is handed only what it is bound to; and a trust domain that
      keeps the server from starting.
    - ProviderFacts: a volume is mounted whole or not at all, inside its mount
      point, when no two of its files share a path, and from provider to server
      holds only what the pod is entitled to by its token for the provider's
      audience; and two secrets mounted over each other.
    - ConfigYamlFacts, ConfigFacts: what [Validate] leaves ([ready]) and that it
      is idempotent where the base URL does not end in a space, a saved
      configuration loads again field by field, paths appended to a base URL
      stay paths; and configurations that are accepted and of no use.
    - Utf8Facts, SecretFacts: a secret's content leaves only for an
      administrator and, when no statement fails, on the record; labels of
      UTF-8 survive the form they are edited in, but for commas.
    - ApplyFacts, ApplyServer: apply converges against every keeper, and goca is
      one ([goca_keeps]); end to end, what a successful apply leaves
      ([apply_converges]) and what no apply does ([apply_is_confined]); and
      labels, expired bindings and types it never brings in step.
    - SslFacts: of the private keys it recognises the inspection page writes
      back nothing but what their public half and type say; and the keys it
      does not take for keys.
    - Setup, SchemaText, SchemaLock: placeholders are numbered outside quotes, a
      connection string reads back, the two schemas say the same and are what
      Schema models; migrations complete, once, on either database; replicas
      that create one schema take turns and none is locked out, by an invariant
      over the steps of any program that runs alone under the lock ([alone]);
      and the races without it.
    - HookFacts: the shape of delivery rows under any interleaving, exclusive
      claims, every delivery ends; and a batch sent twice, a delivery never
      attempted.
    - AcmePolicy, Glob, Sealing and Portal hold the theorems about themselves:
      identifier syntax and domain scopes against declarative definitions,
      path.Match, round trips of the envelopes, the state of a page.
    - SqlFacts and TableFacts are the shared rules: weakest preconditions of
      statements, what each statement guarantees the others ([guar], hint
      database and walker [guar_walk]), which tables it leaves alone ([keeps],
      [beside]), constraints after INSERT, UPDATE and DELETE, lookups, ORDER BY.

    ** Bounds and fuel

    Loops the code bounds keep their bounds: 16 authorities in a chain, 64
    renewals either way, 98 attempts at a slug, 100 deliveries in a claim.  Fuel
    stands only where the text being read gets shorter at each step (patterns,
    classes, PEM blocks, hexadecimal digits) and is then the length of the text,
    and in [CaLifecycle.RevokeCA], whose recursion the code leaves unbounded:
    there [None] is a call that has not returned, and [revoke_ca_terminates]
    gives the fuel that is enough, the depth of the hierarchy below, when no
    authority descends from itself; [hierarchy_stays_acyclic] shows that none
    does as long as requests do not overlap.  Integers are unbounded except where the code's width
    matters, where [int64] wraps (token lifetimes, webhook back-off).

    ** Not modelled

    Templates (but for the data of the SSL page) and the JSON encoding of answers, middleware and the description
    of the API, the commands other than apply and diff (they parse flags, call a
    service or the API and print), the HTTP of the remote client, the service wrapper,
    the syntax of YAML, metrics, the gRPC of the CSI provider, Swagger UI, files and
    connection pools of the store.  Strings are bytes and letter case
    is that of ASCII. *)

From stdpp Require Export base tactics numbers list gmap strings sorting.
From Stdlib Require Export ZArith Lia.

#[global] Set Default Goal Selector "!".

(** ** Results: the Go convention of returning a value or an [error] *)

Inductive result (E A : Type) : Type :=
| Ok (a : A)
| Err (e : E).
Arguments Ok {E A} a.
Arguments Err {E A} e.

Definition is_ok {E A} (r : result E A) : bool :=
  match r with Ok _ => true | Err _ => false end.

Definition result_bind {E A B} (r : result E A) (f : A -> result E B) : result E B :=
  match r with Ok a => f a | Err e => Err e end.

Declare Scope go_scope.
Delimit Scope go_scope with go.

Notation "'try' x ':=' r 'in' k" := (result_bind r (fun x => k))
  (at level 200, x name, r at level 100, k at level 200, right associativity) : go_scope.

Lemma result_bind_Ok {E A B} (r : result E A) (f : A -> result E B) b :
  result_bind r f = Ok b <-> exists a, r = Ok a /\ f a = Ok b.
Proof. destruct r; simpl; naive_solver. Qed.

(** ** Lists: the fragment of SQL and of Go's loops the components share *)

(** [update_where p f l]: UPDATE ... SET f WHERE p. *)
Definition update_where {A} (p : A -> bool) (f : A -> A) (l : list A) : list A :=
  map (fun r => if p r then f r else r) l.

(** [select_where p l]: SELECT ... WHERE p, in table order. *)
Definition select_where {A} (p : A -> bool) (l : list A) : list A := List.filter p l.

(** [delete_where p l]: DELETE ... WHERE p. *)
Definition delete_where {A} (p : A -> bool) (l : list A) : list A :=
  List.filter (fun r => negb (p r)) l.

(** Rows an UPDATE or DELETE with this WHERE affects. *)
Definition affected {A} (p : A -> bool) (l : list A) : nat := length (List.filter p l).

Section tables.
Context {A : Type}.
Implicit Types (p q : A -> bool) (f : A -> A) (l : list A).

Lemma elem_of_select_where p l x : x ∈ select_where p l <-> x ∈ l /\ p x = true.
Proof.
  unfold select_where. rewrite !list_elem_of_In, List.filter_In. done.
Qed.

Lemma elem_of_delete_where p l x : x ∈ delete_where p l <-> x ∈ l /\ p x = false.
Proof.
  unfold delete_where. rewrite !list_elem_of_In, List.filter_In, negb_true_iff. done.
Qed.

Lemma elem_of_update_where p f l x :
  x ∈ update_where p f l <-> exists y, y ∈ l /\ x = (if p y then f y else y).
Proof.
  unfold update_where. rewrite list_elem_of_fmap. naive_solver.
Qed.

Lemma map_update_where {B} (g : A -> B) p f l :
  (forall x, g (f x) = g x) -> map g (update_where p f l) = map g l.
Proof.
  intros Hg. unfold update_where. rewrite List.map_map. apply List.map_ext.
  intros a. destruct (p a); [apply Hg | done].
Qed.

Lemma length_update_where p f l : length (update_where p f l) = length l.
Proof. apply List.length_map. Qed.

Lemma update_where_app p f l1 l2 : update_where p f (l1 ++ l2) = update_where p f l1 ++ update_where p f l2.
Proof. apply List.map_app. Qed.

Lemma update_where_none p f l : (forall x, x ∈ l -> p x = false) -> update_where p f l = l.
Proof.
  intros Hp. unfold update_where. induction l as [| x l IH]; simpl; [done |].
  rewrite (Hp x) by left. f_equal. apply IH. intros y Hy. apply Hp. by right.
Qed.

Lemma affected_0 p l : affected p l = 0 <-> forall x, x ∈ l -> p x = false.
Proof.
  unfold affected. split.
  - intros H x Hx. destruct (p x) eqn:E; [| done].
    assert (In x (List.filter p l)) as Hin
      by (apply List.filter_In; split; [by apply list_elem_of_In | done]).
    destruct (List.filter p l); [done | simpl in H; lia].
  - intros H. induction l as [| a l IH]; [done |]. simpl.
    rewrite (H a) by constructor. apply IH. intros x Hx. apply H. by constructor.
Qed.

Lemma affected_app p l1 l2 : affected p (l1 ++ l2) = affected p l1 + affected p l2.
Proof. unfold affected. by rewrite List.filter_app, length_app. Qed.

Lemma affected_snoc p l x : affected p (l ++ [x]) = affected p l + Nat.b2n (p x).
Proof. rewrite affected_app. unfold affected. simpl. by destruct (p x). Qed.

Lemma affected_incl p q l : (forall x, x ∈ l -> p x = true -> q x = true) -> affected p l <= affected q l.
Proof.
  intros H. unfold affected. induction l as [| x l IH]; simpl; [lia |].
  specialize (H x ltac:(by left)) as Hx. specialize (IH (fun y Hy => H y ltac:(by right))).
  destruct (p x), (q x); simpl; lia || by specialize (Hx eq_refl).
Qed.

(** An UPDATE that brings no row into the count of [q]. *)
Lemma affected_update_le p q f l :
  (forall x, p x = true -> q (f x) = true -> q x = true) -> affected q (update_where p f l) <= affected q l.
Proof.
  intros H. unfold affected, update_where. induction l as [| x l IH]; simpl; [lia |].
  destruct (p x) eqn:Hp.
  - destruct (q (f x)) eqn:Hf; [rewrite (H x Hp Hf); simpl; lia |]. destruct (q x); simpl; lia.
  - destruct (q x); simpl; lia.
Qed.

(** An UPDATE that takes each row it affects out of the count of [q]. *)
Lemma affected_update_drop p q f l :
  (forall x, p x = true -> q x = true /\ q (f x) = false) ->
  affected q (update_where p f l) + affected p l = affected q l.
Proof.
  intros H. unfold affected, update_where. induction l as [| x l IH]; simpl; [done |].
  destruct (p x) eqn:Hp; simpl.
  - destruct (H x Hp) as [-> ->]. simpl. lia.
  - destruct (q x); simpl; lia.
Qed.

(** Rows an UPDATE affects are still there afterwards, among those of [q]. *)
Lemma affected_after_update p q f l :
  (forall x, p x = true -> q x = true /\ q (f x) = true) -> affected p l <= affected q (update_where p f l).
Proof.
  intros H. unfold affected, update_where. induction l as [| x l IH]; simpl; [lia |].
  destruct (p x) eqn:Hp.
  - destruct (H x Hp) as [_ Hf]. rewrite Hf. simpl. lia.
  - destruct (q x); simpl; lia.
Qed.

(** A DELETE of rows outside the count of [q]. *)
Lemma affected_delete_other p q l :
  (forall x, p x = true -> q x = false) -> affected q (delete_where p l) = affected q l.
Proof.
  intros H. unfold affected, delete_where. induction l as [| x l IH]; simpl; [done |].
  destruct (p x) eqn:Hp; simpl; [by rewrite (H x Hp) |]. destruct (q x); simpl; by rewrite IH.
Qed.

Lemma NoDup_map_inj {B} (g : A -> B) l x y :
  NoDup (map g l) -> x ∈ l -> y ∈ l -> g x = g y -> x = y.
Proof.
  intros Hnd Hx Hy Hg. induction l as [| a l IH]; [by apply not_elem_of_nil in Hx |].
  simpl in Hnd. apply NoDup_cons in Hnd as [Ha Hnd].
  assert (forall z, z ∈ l -> g a = g z -> False) as Hno.
  { intros z Hz Heq. apply Ha. rewrite Heq. by apply list_elem_of_fmap_2. }
  apply elem_of_cons in Hx as [-> | Hx]; apply elem_of_cons in Hy as [-> | Hy].
  - done.
  - exfalso. by eapply Hno.
  - exfalso. by eapply Hno.
  - by apply IH.
Qed.
End tables.

Create HintDb tables discriminated.
#[export] Hint Resolve <- elem_of_select_where elem_of_delete_where : tables.
