(* ===== verification/GoStrings.v ===== *)
(** * Go's strings, strconv, fmt and path packages

    The fragment of Go's standard library the modelled code calls on strings:
    [strings.TrimSpace], [ToLower], [HasPrefix], [Split], [Trim] and so on,
    [fmt.Sprintf] with the verbs the code uses, and [path.Match].  A Go string
    is a sequence of bytes and is a Rocq [string] here; its characters in UTF-8
    are read as range, utf8.ValidString and encoding/json read them.  The case and space
    functions are the ASCII part of Go's Unicode tables: a byte above 127 is
    left as it is. *)

From S2P Require Import Prelude.
From stdpp Require Export pretty.
From Stdlib Require Export Ascii String.
#[export] Set Default Goal Selector "!".
#[global] Arguments String.append !_ _ / : simpl nomatch.
Abbreviation length := Datatypes.length.
Open Scope string_scope.
Open Scope list_scope.

Notation "a =? b" := (String.eqb a b) : go_scope.
Infix "+:+" := String.append (at level 60, right associativity) : go_scope.

Module Str.

(** ** Characters *)

Definition code (c : ascii) : nat := nat_of_ascii c.

Definition is_space (c : ascii) : bool :=
  let n := code c in
  ((9 <=? n) && (n <=? 13) || (n =? 32))%nat.

Definition is_digit (c : ascii) : bool := ((48 <=? code c) && (code c <=? 57))%nat.
Definition is_lower (c : ascii) : bool := ((97 <=? code c) && (code c <=? 122))%nat.
Definition is_upper (c : ascii) : bool := ((65 <=? code c) && (code c <=? 90))%nat.

Definition lower_char (c : ascii) : ascii :=
  if is_upper c then ascii_of_nat (code c + 32) else c.
Definition upper_char (c : ascii) : ascii :=
  if is_lower c then ascii_of_nat (code c - 32) else c.

Fixpoint map_string (f : ascii -> ascii) (s : string) : string :=
  match s with
  | EmptyString => EmptyString
  | String c s' => String (f c) (map_string f s')
  end.

(** strings.ToLower, strings.ToUpper *)
Definition ToLower : string -> string := map_string lower_char.
Definition ToUpper : string -> string := map_string upper_char.

(** strings.EqualFold *)
Definition EqualFold (a b : string) : bool := String.eqb (ToLower a) (ToLower b).

(** ** Trimming *)

Fixpoint trim_left (p : ascii -> bool) (s : string) : string :=
  match s with
  | String c s' => if p c then trim_left p s' else s
  | EmptyString => EmptyString
  end.

Fixpoint trim_right (p : ascii -> bool) (s : string) : string :=
  match s with
  | EmptyString => EmptyString
  | String c s' =>
      match trim_right p s' with
      | EmptyString => if p c then EmptyString else String c EmptyString
      | r => String c r
      end
  end.

Definition trim_func (p : ascii -> bool) (s : string) : string := trim_right p (trim_left p s).

(** strings.TrimSpace *)
Definition TrimSpace : string -> string := trim_func is_space.

Fixpoint mem_char (c : ascii) (s : string) : bool :=
  match s with
  | EmptyString => false
  | String d s' => Ascii.eqb c d || mem_char c s'
  end.

(** strings.Trim(s, cutset), strings.TrimRight(s, cutset) *)
Definition Trim (s cutset : string) : string := trim_func (fun c => mem_char c cutset) s.
Definition TrimRight (s cutset : string) : string := trim_right (fun c => mem_char c cutset) s.

(** ** Prefixes, suffixes, search *)

(** strings.HasPrefix(s, p) *)
Fixpoint HasPrefix (s p : string) : bool :=
  match p, s with
  | EmptyString, _ => true
  | String c p', String d s' => Ascii.eqb c d && HasPrefix s' p'
  | String _ _, EmptyString => false
  end.

(** strings.CutPrefix(s, p) *)
Fixpoint CutPrefix (s p : string) : string * bool :=
  match p, s with
  | EmptyString, _ => (s, true)
  | String c p', String d s' =>
      if Ascii.eqb c d
      then let '(r, ok) := CutPrefix s' p' in if ok then (r, true) else (s, false)
      else (s, false)
  | String _ _, EmptyString => (s, false)
  end.

(** strings.TrimPrefix(s, p) *)
Definition TrimPrefix (s p : string) : string := fst (CutPrefix s p).

(** strings.HasSuffix(s, p) *)
Fixpoint HasSuffix (s p : string) : bool :=
  String.eqb s p ||
  match s with EmptyString => false | String _ s' => HasSuffix s' p end.

(** strings.TrimSuffix(s, p) *)
Definition TrimSuffix (s p : string) : string :=
  if HasSuffix s p then String.substring 0 (String.length s - String.length p) s else s.

(** strings.Contains(s, p) *)
Fixpoint Contains (s p : string) : bool :=
  HasPrefix s p ||
  match s with EmptyString => false | String _ s' => Contains s' p end.

(** strings.Count(s, c) for a single byte *)
Fixpoint count_char (c : ascii) (s : string) : nat :=
  match s with
  | EmptyString => 0
  | String d s' => (if Ascii.eqb c d then 1 else 0) + count_char c s'
  end.

(** ** Splitting and joining *)

(** strings.Split(s, sep) for a separator of one byte: never empty. *)
Fixpoint Split (s : string) (sep : ascii) : list string :=
  match s with
  | EmptyString => [EmptyString]
  | String c s' =>
      if Ascii.eqb c sep then EmptyString :: Split s' sep
      else match Split s' sep with
           | p :: ps => String c p :: ps
           | [] => [String c EmptyString]
           end
  end.

(** strings.Join(l, sep) *)
Fixpoint Join (l : list string) (sep : string) : string :=
  match l with
  | [] => EmptyString
  | [p] => p
  | p :: ps => (p +:+ sep +:+ Join ps sep)%go
  end.

(** strings.Index(s, p), [None] for -1 *)
Fixpoint Index (s p : string) : option nat :=
  if HasPrefix s p then Some 0
  else match s with EmptyString => None | String _ s' => S <$> Index s' p end.

(** strings.ReplaceAll(s, old, new) for a non-empty [old]: [skip] bytes of a
    replaced occurrence are still to be passed over. *)
Fixpoint replace_from (skip : nat) (s old new : string) : string :=
  match s with
  | EmptyString => EmptyString
  | String c s' =>
      match skip with
      | S skip => replace_from skip s' old new
      | O => if HasPrefix s old then (new +:+ replace_from (String.length old - 1) s' old new)%go
             else String c (replace_from 0 s' old new)
      end
  end.
Definition ReplaceAll : string -> string -> string -> string := replace_from 0.

(** strings.ReplaceAll(s, c, "") for a single byte *)
Fixpoint remove_char (c : ascii) (s : string) : string :=
  match s with
  | EmptyString => EmptyString
  | String d s' => if Ascii.eqb c d then remove_char c s' else String d (remove_char c s')
  end.

Definition dquote : ascii := ascii_of_nat 34.
Definition backslash : ascii := ascii_of_nat 92.

(** ** UTF-8 (unicode/utf8) *)

Definition within (lo hi : nat) (c : ascii) : bool := ((lo <=? code c) && (code c <=? hi))%nat.
Definition tail_byte (c : ascii) : bool := within 128 191 c.

(** A sequence of one, two, three, four bytes that encodes a character. *)
Definition seq1 (a : ascii) : bool := (code a <? 128)%nat.
Definition seq2 (a b : ascii) : bool := within 194 223 a && tail_byte b.
Definition seq3 (a b c : ascii) : bool :=
  ((code a =? 224)%nat && within 160 191 b || (within 225 236 a || within 238 239 a) && tail_byte b ||
   (code a =? 237)%nat && within 128 159 b) && tail_byte c.
Definition seq4 (a b c d : ascii) : bool :=
  ((code a =? 240)%nat && within 144 191 b || within 241 243 a && tail_byte b || (code a =? 244)%nat && within 128 143 b)
  && tail_byte c && tail_byte d.

(** The characters of a string as [for _, r := range s] meets them: a byte
    that begins no sequence is [None], and passed over alone. *)
Fixpoint runes (s : string) : list (option string) :=
  match s with
  | EmptyString => []
  | String a s1 =>
      if seq1 a then Some (String a EmptyString) :: runes s1
      else match s1 with
      | EmptyString => None :: runes s1
      | String b s2 =>
          if seq2 a b then Some (String a (String b EmptyString)) :: runes s2
          else match s2 with
          | EmptyString => None :: runes s1
          | String c s3 =>
              if seq3 a b c then Some (String a (String b (String c EmptyString))) :: runes s3
              else match s3 with
              | EmptyString => None :: runes s1
              | String d s4 =>
                  if seq4 a b c d then Some (String a (String b (String c (String d EmptyString)))) :: runes s4
                  else None :: runes s1
              end
          end
      end
  end.

Definition ValidString (s : string) : bool := forallb (fun r => match r with Some _ => true | None => false end) (runes s).

Fixpoint concat_all (l : list string) : string :=
  match l with [] => EmptyString | p :: l' => (p +:+ concat_all l')%go end.

(** Each byte that is not part of a sequence as U+FFFD. *)
Definition replacement : string := String (ascii_of_nat 239) (String (ascii_of_nat 191) (String (ascii_of_nat 189) EmptyString)).
Definition coerce (s : string) : string := concat_all (map (default replacement) (runes s)).

(** ** fmt.Sprintf *)

(** strconv.Itoa, and fmt's %d *)
Definition itoa (z : Z) : string := pretty z.

Inductive arg :=
| AStr (s : string)
| AInt (z : Z)
| ABool (b : bool).

Definition hex_digit (n : nat) : ascii :=
  ascii_of_nat (if (n <? 10)%nat then 48 + n else 87 + n).

(** One byte inside a %q literal (strconv.Quote on ASCII). *)
Definition quote_char (c : ascii) : string :=
  let n := code c in
  if Ascii.eqb c dquote || Ascii.eqb c backslash then String backslash (String c EmptyString)
  else if (n =? 10)%nat then String backslash "n"
  else if (n =? 13)%nat then String backslash "r"
  else if (n =? 9)%nat then String backslash "t"
  else if (n =? 7)%nat then String backslash "a"
  else if (n =? 8)%nat then String backslash "b"
  else if (n =? 12)%nat then String backslash "f"
  else if (n =? 11)%nat then String backslash "v"
  else if ((n <? 32) || (n =? 127))%nat
  then String backslash (String "x" (String (hex_digit (n / 16)) (String (hex_digit (n mod 16)) EmptyString)))
  else String c EmptyString.

Fixpoint quote_body (s : string) : string :=
  match s with
  | EmptyString => EmptyString
  | String c s' => (quote_char c +:+ quote_body s')%go
  end.

Definition Quote (s : string) : string :=
  (String dquote (quote_body s) +:+ String dquote EmptyString)%go.

Definition fmt_arg (verb : ascii) (a : arg) : string :=
  match a with
  | AStr s => if Ascii.eqb verb "q" then Quote s else s
  | AInt z => itoa z
  | ABool b => if b then "true" else "false"
  end.

Fixpoint Sprintf (f : string) (args : list arg) : string :=
  match f with
  | String "%" (String "%" f') => String "%" (Sprintf f' args)
  | String "%" (String v f') =>
      match args with
      | a :: rest => (fmt_arg v a +:+ Sprintf f' rest)%go
      | [] => ("%!" +:+ String v "(MISSING)" +:+ Sprintf f' [])%go
      end
  | String c f' => String c (Sprintf f' args)
  | EmptyString => EmptyString
  end.

End Str.
Export (notations) Str.

Lemma append_assoc (a b c : string) : ((a +:+ b) +:+ c = a +:+ b +:+ c)%go.
Proof. induction a as [| x a IH]; [done |]. simpl. by rewrite IH. Qed.

(** ** Trimming twice is trimming once *)

Lemma trim_right_head p x t : p x = false -> exists t', Str.trim_right p (String x t) = String x t'.
Proof. intros Hx. simpl. destruct (Str.trim_right p t); [rewrite Hx |]; eauto. Qed.

Lemma trim_right_idem p t : Str.trim_right p (Str.trim_right p t) = Str.trim_right p t.
Proof.
  induction t as [| x t IH]; [done |]. simpl. destruct (Str.trim_right p t) as [| y r] eqn:E.
  - destruct (p x) eqn:Hx; [done |]. simpl. by rewrite Hx.
  - cbn [Str.trim_right] in *. by rewrite IH.
Qed.

Lemma trim_left_head p t : Str.trim_left p t = EmptyString \/ exists x t', Str.trim_left p t = String x t' /\ p x = false.
Proof. induction t as [| x t IH]; [by left |]. simpl. destruct (p x) eqn:Hx; [exact IH | right; eauto]. Qed.

Lemma TrimSpace_idem t : Str.TrimSpace (Str.TrimSpace t) = Str.TrimSpace t.
Proof.
  unfold Str.TrimSpace, Str.trim_func. destruct (trim_left_head Str.is_space t) as [-> | (x & t' & -> & Hx)]; [done |].
  destruct (trim_right_head _ x t' Hx) as [r Hr]. rewrite Hr. cbn [Str.trim_left]. rewrite Hx, <- Hr. apply trim_right_idem.
Qed.

(** Example runs. *)
Example trim_space_ex : Str.TrimSpace "  a b	" = "a b".
Proof. reflexivity. Qed.
Example split_ex : Str.Split "a,b,,c" "," = ["a"; "b"; ""; "c"].
Proof. reflexivity. Qed.
Example sprintf_ex :
  Str.Sprintf "version=%d size=%d ok=%t %s" [Str.AInt 12; Str.AInt (-3); Str.ABool true; Str.AStr "x"]
  = "version=12 size=-3 ok=true x".
Proof. vm_compute. reflexivity. Qed.
