(* ===== verification/Utf8Facts.v ===== *)
(** * UTF-8

    Which byte sequences encode a character, and that replacing what is not
    UTF-8 gives UTF-8 and leaves UTF-8 alone. *)

From S2P Require Import Prelude GoStrings.

Module Utf8.
Lemma concat_all_app a b : Str.concat_all (a ++ b) = (Str.concat_all a +:+ Str.concat_all b)%go.
Proof. induction a as [| p a IH]; [done |]. simpl. by rewrite IH, append_assoc. Qed.

(** The sequences that encode a character. *)
Inductive sequence : string -> Prop :=
| sequence1 a : Str.seq1 a = true -> sequence (String a EmptyString)
| sequence2 a b : Str.seq2 a b = true -> sequence (String a (String b EmptyString))
| sequence3 a b c : Str.seq3 a b c = true -> sequence (String a (String b (String c EmptyString)))
| sequence4 a b c d : Str.seq4 a b c d = true -> sequence (String a (String b (String c (String d EmptyString)))).

Ltac bytes := unfold Str.seq1, Str.seq2, Str.seq3, Str.seq4, Str.tail_byte, Str.within in *;
  repeat first [rewrite andb_true_iff in * | rewrite orb_true_iff in *]; rewrite ?Nat.leb_le, ?Nat.eqb_eq, ?Nat.ltb_lt in *.
Ltac not_bytes := apply not_true_iff_false; intros ?; bytes; lia.

Lemma runes_sequence p s : sequence p -> Str.runes (p +:+ s)%go = Some p :: Str.runes s.
Proof.
  destruct 1 as [a Ha | a b Ha | a b c Ha | a b c d Ha]; simpl.
  - by rewrite Ha.
  - replace (Str.seq1 a) with false by (symmetry; not_bytes). by rewrite Ha.
  - replace (Str.seq1 a) with false by (symmetry; not_bytes). replace (Str.seq2 a b) with false by (symmetry; not_bytes). by rewrite Ha.
  - replace (Str.seq1 a) with false by (symmetry; not_bytes). replace (Str.seq2 a b) with false by (symmetry; not_bytes).
    replace (Str.seq3 a b c) with false by (symmetry; not_bytes). by rewrite Ha.
Qed.

Lemma runes_sequences s : Forall (fun r => match r with Some p => sequence p | None => True end) (Str.runes s).
Proof.
  enough (forall n s, String.length s <= n -> Forall (fun r => match r with Some p => sequence p | None => True end) (Str.runes s)) as Hn
    by by apply (Hn (String.length s)).
  clear s. intros n. induction n as [| n IH]; intros s Hlen; (destruct s as [| a s]; [constructor |]); simpl in Hlen; [lia |].
  assert (forall t, String.length t <= String.length s -> Forall (fun r => match r with Some p => sequence p | None => True end) (Str.runes t)) as Hrest
    by (intros t Ht; apply IH; lia).
  simpl. destruct (Str.seq1 a) eqn:E1; [constructor; [by constructor | by apply Hrest] |].
  destruct s as [| b s2]; [by repeat constructor |].
  destruct (Str.seq2 a b) eqn:E2; [constructor; [by constructor | apply Hrest; simpl; lia] |].
  destruct s2 as [| c s3]; [constructor; [done | by apply Hrest] |].
  destruct (Str.seq3 a b c) eqn:E3; [constructor; [by constructor | apply Hrest; simpl; lia] |].
  destruct s3 as [| d s4]; [constructor; [done | by apply Hrest] |].
  destruct (Str.seq4 a b c d) eqn:E4; constructor; [by constructor | apply Hrest; simpl; lia | done | by apply Hrest].
Qed.

Lemma runes_concat l : Forall sequence l -> Str.runes (Str.concat_all l) = map Some l.
Proof. induction 1 as [| p l Hp _ IH]; [done |]. simpl. by rewrite runes_sequence, IH. Qed.

Lemma valid_runes s : Str.ValidString s = true -> exists l, Forall sequence l /\ Str.runes s = map Some l.
Proof.
  unfold Str.ValidString. pose proof (runes_sequences s) as Hs. induction Hs as [| [p |] l Hp _ IH]; simpl; [by exists [] | | done].
  intros (ps & Hps & ->)%IH. exists (p :: ps). by split; [constructor |].
Qed.

Lemma concat_runes s l : Str.runes s = map Some l -> Str.concat_all l = s.
Proof.
  enough (forall n s l, String.length s <= n -> Str.runes s = map Some l -> Str.concat_all l = s) as Hn by by apply (Hn (String.length s)).
  clear s l. intros n. induction n as [| n IH]; intros s l Hlen; (destruct s as [| a s]; [by destruct l |]); simpl in Hlen; [lia |].
  simpl. destruct (Str.seq1 a); [destruct l as [| p l]; [done |]; intros [= <- Hl]; simpl; f_equal; apply IH; [lia | done] |].
  destruct s as [| b s2]; [by destruct l |].
  destruct (Str.seq2 a b); [destruct l as [| p l]; [done |]; intros [= <- Hl]; simpl; do 2 f_equal; apply IH; [simpl in *; lia | done] |].
  destruct s2 as [| c s3]; [by destruct l |].
  destruct (Str.seq3 a b c); [destruct l as [| p l]; [done |]; intros [= <- Hl]; simpl; do 3 f_equal; apply IH; [simpl in *; lia | done] |].
  destruct s3 as [| d s4]; [by destruct l |].
  destruct (Str.seq4 a b c d); [destruct l as [| p l]; [done |]; intros [= <- Hl]; simpl; do 4 f_equal; apply IH; [simpl in *; lia | done] | by destruct l].
Qed.

Lemma coerce_sequences s : Forall sequence (map (default Str.replacement) (Str.runes s)).
Proof.
  apply Forall_map. eapply Forall_impl; [apply runes_sequences |]. intros [p |]; [done |]. intros _. by constructor.
Qed.

Lemma valid_coerce s : Str.ValidString (Str.coerce s) = true.
Proof.
  unfold Str.ValidString, Str.coerce. rewrite runes_concat by apply coerce_sequences. induction (Str.runes s); simpl; auto.
Qed.

Lemma coerce_valid s : Str.ValidString s = true -> Str.coerce s = s.
Proof.
  intros (l & _ & Hl)%valid_runes. unfold Str.coerce. rewrite Hl, map_map. cbn. rewrite map_id. by apply concat_runes.
Qed.

(** ** Maps of UTF-8 text *)

Definition text (kv : string * string) : Prop := Str.ValidString (fst kv) = true /\ Str.ValidString (snd kv) = true.
Definition text_map (m : gmap string string) : Prop := Forall text (map_to_list m).

Lemma text_insert k v m : text (k, v) -> text_map m -> text_map (<[k := v]> m).
Proof.
  unfold text_map. rewrite !Forall_forall. intros Hkv Hm [k' v'] Hin%elem_of_map_to_list.
  apply lookup_insert_Some in Hin as [[<- <-] | [_ Hin]]; [done |]. by apply Hm, elem_of_map_to_list.
Qed.

Lemma text_empty : text_map ∅.
Proof. unfold text_map. by rewrite map_to_list_empty. Qed.
End Utf8.
