(* ===== verification/Glob.v ===== *)
(** * Go's [path.Match]

    [path.Match(pattern, name)] by its documented grammar: a pattern is parsed
    into terms ([parse]; [None] is [path.ErrBadPattern]) and the terms are
    matched against the whole of the name ([match_terms]).  [glob] is the same
    relation stated declaratively and [match_terms_spec] relates the two. *)

From S2P Require Import Prelude GoStrings.

Module Glob.

Inductive term :=
| Star                                       (* "*": any run without a slash *)
| Any                                        (* "?": one byte but a slash *)
| Class (neg : bool) (ranges : list (ascii * ascii))
| Lit (c : ascii).

#[export] Instance term_eq_dec : EqDecision term.
Proof. solve_decision. Defined.

Definition slash : ascii := "/"%char.

(** One character of a class: a byte other than '-' and ']', or an escaped
    one; more of the pattern must follow. *)
Definition get_esc (s : string) : option (ascii * string) :=
  match s with
  | EmptyString => None
  | String c s' =>
      if Ascii.eqb c "-" || Ascii.eqb c "]" then None
      else if Ascii.eqb c Str.backslash then
        match s' with
        | String d (String _ _ as r) => Some (d, r)
        | _ => None
        end
      else match s' with String _ _ => Some (c, s') | EmptyString => None end
  end.

(** The ranges of a class, up to its ']'; [first] while no range was read. *)
Fixpoint class_ranges (fuel : nat) (first : bool) (s : string)
    : option (list (ascii * ascii) * string) :=
  match fuel with
  | O => None
  | S fuel =>
      match s with
      | String c r =>
          if Ascii.eqb c "]" && negb first then Some ([], r)
          else
            match get_esc s with
            | None => None
            | Some (lo, r1) =>
                match r1 with
                | String "-" r2 =>
                    match get_esc r2 with
                    | None => None
                    | Some (hi, r3) =>
                        match class_ranges fuel false r3 with
                        | Some (rs, rest) => Some ((lo, hi) :: rs, rest)
                        | None => None
                        end
                    end
                | _ =>
                    match class_ranges fuel false r1 with
                    | Some (rs, rest) => Some ((lo, lo) :: rs, rest)
                    | None => None
                    end
                end
            end
      | EmptyString => None
      end
  end.

(** Terms of a pattern; the fuel is a bound on its length. *)
Fixpoint parse_fuel (fuel : nat) (s : string) : option (list term) :=
  match fuel with
  | O => match s with EmptyString => Some [] | _ => None end
  | S fuel =>
      match s with
      | EmptyString => Some []
      | String c s' =>
          if Ascii.eqb c "*" then cons Star <$> parse_fuel fuel s'
          else if Ascii.eqb c "?" then cons Any <$> parse_fuel fuel s'
          else if Ascii.eqb c "[" then
            let '(neg, s1) := match s' with
                              | String "^" r => (true, r)
                              | _ => (false, s')
                              end in
            match class_ranges (S (String.length s1)) true s1 with
            | Some (rs, rest) => cons (Class neg rs) <$> parse_fuel fuel rest
            | None => None
            end
          else if Ascii.eqb c Str.backslash then
            match s' with
            | String d r => cons (Lit d) <$> parse_fuel fuel r
            | EmptyString => None
            end
          else cons (Lit c) <$> parse_fuel fuel s'
      end
  end.

Definition parse (pattern : string) : option (list term) :=
  parse_fuel (String.length pattern) pattern.

Definition in_ranges (c : ascii) (rs : list (ascii * ascii)) : bool :=
  existsb (fun '(lo, hi) => ((Str.code lo <=? Str.code c) && (Str.code c <=? Str.code hi))%nat) rs.

(** A term other than [Star] against one byte. *)
Definition match_one (t : term) (c : ascii) : bool :=
  match t with
  | Star => false
  | Any => negb (Ascii.eqb c slash)
  | Class neg rs => negb (Bool.eqb (in_ranges c rs) neg)
  | Lit d => Ascii.eqb c d
  end.

(** "*" against the name: the rest of the pattern here, or after one more
    byte that is not a slash. *)
Fixpoint match_star (k : string -> bool) (name : string) : bool :=
  k name ||
  match name with
  | EmptyString => false
  | String c n => negb (Ascii.eqb c slash) && match_star k n
  end.

Fixpoint match_terms (ts : list term) (name : string) : bool :=
  match ts with
  | [] => String.eqb name EmptyString
  | Star :: ts' => match_star (match_terms ts') name
  | t :: ts' =>
      match name with
      | String c n => match_one t c && match_terms ts' n
      | EmptyString => false
      end
  end.

(** path.Match: [None] is ErrBadPattern. *)
Definition Match (pattern name : string) : option bool :=
  match parse pattern with
  | Some ts => Some (match_terms ts name)
  | None => None
  end.

(** ** Declarative semantics *)

Fixpoint no_slash (s : string) : Prop :=
  match s with
  | EmptyString => True
  | String c s' => c <> slash /\ no_slash s'
  end.

Inductive glob : list term -> string -> Prop :=
| glob_nil : glob [] EmptyString
| glob_star ts u v : no_slash u -> glob ts v -> glob (Star :: ts) (u +:+ v)%go
| glob_one t ts c v : t <> Star -> match_one t c = true -> glob ts v -> glob (t :: ts) (String c v).

Lemma match_star_spec k name :
  match_star k name = true <->
  exists u v, name = (u +:+ v)%go /\ no_slash u /\ k v = true.
Proof.
  induction name as [| c n IH]; simpl; rewrite orb_true_iff.
  - split.
    + intros [H | H]; [by exists EmptyString, EmptyString | done].
    + intros (u & v & Heq & _ & Hk). destruct u; [simpl in Heq; subst; left; done | done].
  - rewrite andb_true_iff, negb_true_iff, IH. split.
    + intros [H | [Hc (u & v & -> & Hu & Hk)]].
      * by exists EmptyString, (String c n).
      * exists (String c u), v. split; [done |]. split; [| done]. simpl. split; [| done].
        intros ->. by rewrite Ascii.eqb_refl in Hc.
    + intros ([| d u] & v & Heq & Hu & Hk); simpl in *.
      * subst. left; done.
      * injection Heq as -> ->. right. destruct Hu as [Hd Hu]. split; [| by eauto].
        destruct (Ascii.eqb_spec d slash); done.
Qed.

Lemma match_terms_spec ts name : match_terms ts name = true <-> glob ts name.
Proof.
  revert name. induction ts as [| t ts IH]; intros name; simpl.
  - rewrite String.eqb_eq. split; [intros ->; constructor | by inversion 1].
  - destruct (decide (t = Star)) as [-> | Ht].
    { rewrite match_star_spec. split.
      - intros (u & v & -> & Hu & Hk). constructor; [done | by apply IH].
      - inversion 1; subst; [| done]. eexists _, _. split; [done |]. split; [done | by apply IH]. }
    assert (match_terms (t :: ts) name =
            match name with String c n => match_one t c && match_terms ts n | EmptyString => false end) as Heq
      by (by destruct t).
    simpl in Heq. rewrite Heq. destruct name as [| c n].
    + split; [done |]. by inversion 1.
    + rewrite andb_true_iff, IH. split; [intros [??]; by constructor | by inversion 1].
Qed.

End Glob.

Example glob_ex1 : Glob.Match "*.svc.internal" "a.b.svc.internal" = Some true.
Proof. reflexivity. Qed.
Example glob_ex2 : Glob.Match "team-[a-c]?" "team-b1" = Some true.
Proof. reflexivity. Qed.
Example glob_ex3 : Glob.Match "x[" "x" = None.
Proof. reflexivity. Qed.
Example glob_ex4 : Glob.Match "[^a]" "a" = Some false.
Proof. reflexivity. Qed.
