(* ===== verification/Effects.v ===== *)
(** * Programs over a shared store

    A handler of the server is a [prog]: a tree of atomic actions on the shared
    state (one SQL statement, one reading of the clock, one draw of randomness)
    whose continuations choose the next action from the answer.  The same tree
    is executed alone ([run]) or interleaved, statement by statement, with the
    handlers of other requests and other replicas ([pstep]).

    Three ways to reason about a program are set up here: [wp] for one request
    executed alone, [guar] for what every single statement of it guarantees
    whatever the others do, and [spends] for counting arguments over all
    interleavings (a potential that the statements of the pool cannot raise). *)

From S2P Require Import Prelude.

Section prog.
Context {S : Type}.

Inductive prog (A : Type) : Type :=
| Ret (a : A)
| Act {X : Type} (f : S -> X * S) (k : X -> prog A).
Arguments Ret {A} a.
Arguments Act {A X} f k.

Fixpoint bind {A B} (p : prog A) (q : A -> prog B) : prog B :=
  match p with
  | Ret a => q a
  | Act f k => Act f (fun x => bind (k x) q)
  end.

Fixpoint run {A} (p : prog A) (s : S) : A * S :=
  match p with
  | Ret a => (a, s)
  | Act f k => let '(x, s') := f s in run (k x) s'
  end.

Definition act {X} (f : S -> X * S) : prog X := Act f Ret.

Lemma run_act {X} (f : S -> X * S) s : run (act f) s = f s.
Proof. simpl. by destruct (f s). Qed.

Lemma run_bind {A B} (p : prog A) (q : A -> prog B) s :
  run (bind p q) s = run (q (fst (run p s))) (snd (run p s)).
Proof.
  revert s. induction p as [a | X f k IH]; intros s; simpl; [done |].
  destruct (f s) as [x s']. apply IH.
Qed.

(** ** One request alone *)

Definition wp {A} (p : prog A) (Q : A -> S -> Prop) (s : S) : Prop :=
  Q (fst (run p s)) (snd (run p s)).

Lemma wp_Ret {A} (a : A) (Q : A -> S -> Prop) s : Q a s -> wp (Ret a) Q s.
Proof. done. Qed.

Lemma wp_bind {A B} (p : prog A) (q : A -> prog B) (Q : B -> S -> Prop) s :
  wp p (fun a => wp (q a) Q) s -> wp (bind p q) Q s.
Proof. unfold wp. by rewrite run_bind. Qed.

Lemma wp_act {X} (f : S -> X * S) (Q : X -> S -> Prop) s :
  Q (fst (f s)) (snd (f s)) -> wp (act f) Q s.
Proof. unfold wp, act. simpl. by destruct (f s). Qed.

Lemma wp_mono {A} (p : prog A) (Q R : A -> S -> Prop) s :
  wp p Q s -> (forall a s', Q a s' -> R a s') -> wp p R s.
Proof. unfold wp. eauto. Qed.

(** ** What every statement guarantees *)

Fixpoint guar (G : S -> S -> Prop) {A} (p : prog A) : Prop :=
  match p with
  | Ret _ => True
  | Act f k => (forall s, G s (snd (f s))) /\ (forall x, guar G (k x))
  end.

Lemma guar_Ret G {A} (a : A) : guar G (Ret a).
Proof. done. Qed.

Lemma guar_act G {X} (f : S -> X * S) : (forall s, G s (snd (f s))) -> guar G (act f).
Proof. done. Qed.

Lemma guar_bind G {A B} (p : prog A) (q : A -> prog B) :
  guar G p -> (forall a, guar G (q a)) -> guar G (bind p q).
Proof.
  intros Hp Hq. induction p as [a | X f k IH]; simpl in *; [done |].
  destruct Hp as [Hf Hk]. split; [done |]. intros x. by apply IH.
Qed.

Lemma guar_weaken (G H : S -> S -> Prop) {A} (p : prog A) :
  (forall s s', G s s' -> H s s') -> guar G p -> guar H p.
Proof.
  intros HGH. induction p as [a | X f k IH]; simpl; [done |].
  intros [Hf Hk]. split; [eauto |]. intros x. by apply IH.
Qed.

Lemma guar_run G {A} (p : prog A) s :
  Reflexive G -> Transitive G -> guar G p -> G s (snd (run p s)).
Proof.
  intros HR HT. revert s. induction p as [a | X f k IH]; intros s; simpl; [done |].
  intros [Hf Hk]. specialize (Hf s). destruct (f s) as [x s']. simpl in Hf.
  etrans; [exact Hf | by apply IH].
Qed.

(** ** What one request alone preserves *)

Definition preserves (I : S -> Prop) {A} (p : prog A) : Prop := forall s, I s -> wp p (fun _ s' => I s') s.

Lemma preserves_Ret I {A} (a : A) : preserves I (Ret a).
Proof. by intros s. Qed.

Lemma preserves_bind I {A B} (p : prog A) (q : A -> prog B) :
  preserves I p -> (forall a, preserves I (q a)) -> preserves I (bind p q).
Proof. intros Hp Hq s Hs. apply wp_bind. eapply wp_mono; [by apply Hp |]. intros a s'. apply Hq. Qed.

Lemma preserves_guar I {A} (p : prog A) : guar (fun s s' => I s -> I s') p -> preserves I p.
Proof.
  intros Hp s Hs. exact (guar_run _ p s (fun _ H => H) (fun _ _ _ H1 H2 H => H2 (H1 H)) Hp Hs).
Qed.

(** ** What every result satisfies, whatever the other requests do

    Each action may find any state at all that satisfies the invariant [I]. *)
Section returns.
Context (I : S -> Prop).

Fixpoint returns {A} (Q : A -> Prop) (p : prog A) : Prop :=
  match p with
  | Ret a => Q a
  | Act f k => forall s, I s -> returns Q (k (fst (f s)))
  end.

Lemma returns_Ret {A} (Q : A -> Prop) a : Q a -> returns Q (Ret a).
Proof. done. Qed.

Lemma returns_act {X} (f : S -> X * S) (Q : X -> Prop) : (forall s, I s -> Q (fst (f s))) -> returns Q (act f).
Proof. done. Qed.

Lemma returns_any {A} (p : prog A) : returns (fun _ => True) p.
Proof. induction p; simpl; eauto. Qed.

Lemma returns_mono {A} (Q R : A -> Prop) (p : prog A) :
  returns Q p -> (forall a, Q a -> R a) -> returns R p.
Proof. intros Hp HQR. induction p as [a | X f k IH]; simpl in *; eauto. Qed.

Lemma returns_bind {A B} (Q : A -> Prop) (R : B -> Prop) (p : prog A) (q : A -> prog B) :
  returns Q p -> (forall a, Q a -> returns R (q a)) -> returns R (bind p q).
Proof. intros Hp Hq. induction p as [a | X f k IH]; simpl in *; eauto. Qed.

Lemma returns_skip {A B} (R : B -> Prop) (p : prog A) (q : A -> prog B) :
  (forall a, returns R (q a)) -> returns R (bind p q).
Proof. intros Hq. eapply returns_bind; [apply returns_any |]. auto. Qed.
End returns.

Lemma wp_returns {A} (Q : A -> Prop) (p : prog A) s :
  returns (fun _ => True) Q p -> wp p (fun a _ => Q a) s.
Proof.
  unfold wp. revert s. induction p as [a | X f k IH]; intros s; simpl; [done |].
  intros Hp. specialize (Hp s Logic.I). destruct (f s) as [x s']. by apply IH.
Qed.

Lemma wp_returns_inv (I : S -> Prop) {A} (Q : A -> Prop) (p : prog A) s :
  guar (fun s s' => I s -> I s') p -> returns I Q p -> I s -> wp p (fun a _ => Q a) s.
Proof.
  unfold wp. revert s. induction p as [a | X f k IH]; intros s; simpl; [done |].
  intros [Hf Hk] Hp Hs. specialize (Hp s Hs). specialize (Hf s Hs). destruct (f s) as [x s']. by apply IH.
Qed.

(** ** What holds step by step under an invariant

    Every action found in a state of [I] leaves a state of [I], related by
    [G]; the continuation is the one for the answer it got. *)
Section always.
Context (I : S -> Prop) (G : S -> S -> Prop).

Fixpoint always {A} (p : prog A) : Prop :=
  match p with
  | Ret _ => True
  | Act f k => forall s, I s -> I (snd (f s)) /\ G s (snd (f s)) /\ always (k (fst (f s)))
  end.

Definition kept (s s' : S) : Prop := I s -> I s' /\ G s s'.

Lemma always_guar {A} (p : prog A) : guar kept p -> always p.
Proof.
  induction p as [a | X f k IH]; simpl; [done |]. intros [Hf Hk] s Hs.
  destruct (Hf s Hs). auto.
Qed.

Lemma always_bind {A B} (Q : A -> Prop) (p : prog A) (q : A -> prog B) :
  always p -> returns I Q p -> (forall a, Q a -> always (q a)) -> always (bind p q).
Proof.
  induction p as [a | X f k IH]; simpl; [eauto |]. intros Hp Hr Hq s Hs.
  destruct (Hp s Hs) as (HI & HG & Hk). eauto 10.
Qed.

Lemma always_then {A B} (p : prog A) (q : A -> prog B) :
  always p -> (forall a, always (q a)) -> always (bind p q).
Proof. intros Hp Hq. eapply always_bind; [exact Hp | apply returns_any | auto]. Qed.
End always.

(** ** Interleaving *)

(** One step of a pool of programs: one of them executes one action. *)
Inductive pstep {A} : S * list (prog A) -> S * list (prog A) -> Prop :=
| pstep_act s ps i X (f : S -> X * S) k :
    ps !! i = Some (Act f k) ->
    pstep (s, ps) (snd (f s), <[i := k (fst (f s))]> ps).

Lemma guar_pool G {A} (s s' : S) (ps ps' : list (prog A)) :
  Reflexive G -> Transitive G ->
  Forall (guar G) ps -> rtc pstep (s, ps) (s', ps') -> G s s' /\ Forall (guar G) ps'.
Proof.
  intros HR HT Hps Hsteps.
  remember (s, ps) as c eqn:Ec. remember (s', ps') as c' eqn:Ec'.
  revert s ps Ec Hps. induction Hsteps as [c | c1 c2 c3 Hstep Hsteps IH]; intros s ps -> Hps.
  - by simplify_eq.
  - inversion Hstep as [s0 ps0 i X f k Hi Es Ec2]; subst.
    assert (guar G (Act f k)) as [Hf Hk] by (eapply Forall_lookup_1; done).
    destruct (IH eq_refl _ _ eq_refl) as [HG Hps'].
    { apply Forall_insert; [done | apply Hk]. }
    split; [etrans; [apply Hf | exact HG] | done].
Qed.

Lemma always_pool I G {A} (s s' : S) (ps ps' : list (prog A)) :
  Reflexive G -> Transitive G ->
  I s -> Forall (always I G) ps -> rtc pstep (s, ps) (s', ps') -> I s' /\ G s s'.
Proof.
  intros HR HT HI Hps Hsteps.
  remember (s, ps) as c eqn:Ec. remember (s', ps') as c' eqn:Ec'.
  revert s ps Ec HI Hps. induction Hsteps as [c | c1 c2 c3 Hstep Hsteps IH]; intros s ps -> HI Hps.
  - by simplify_eq.
  - inversion Hstep as [s0 ps0 i X f k Hi Es Ec2]; subst.
    assert (always I G (Act f k)) as Hact by (eapply Forall_lookup_1; done).
    destruct (Hact s HI) as (HI1 & HG & Hk).
    destruct (IH eq_refl _ _ eq_refl HI1) as [HI' HG']; [by apply Forall_insert |].
    split; [done | by etrans].
Qed.

(** ** What a program knows, as long as the others keep to [R]

    Before each action the others may have moved on by [R] to a state of [I];
    what the program does itself is covered by [always I R]. *)
Section rely.
Context (I : S -> Prop) (R : S -> S -> Prop) `{!Reflexive R, !Transitive R}.

Fixpoint rely {A} (Q : A -> S -> Prop) (p : prog A) (s0 : S) : Prop :=
  match p with
  | Ret a => Q a s0
  | Act f k => forall s, R s0 s -> I s -> rely Q (k (fst (f s))) (snd (f s))
  end.

Lemma rely_bind {A B} (Q : B -> S -> Prop) (p : prog A) (q : A -> prog B) s0 :
  rely (fun a s => rely Q (q a) s) p s0 -> rely Q (bind p q) s0.
Proof. revert s0. induction p as [a | X f k IH]; simpl; eauto. Qed.

Lemma rely_mono {A} (Q Q' : A -> S -> Prop) (p : prog A) s0 :
  rely Q p s0 -> (forall a s, Q a s -> Q' a s) -> rely Q' p s0.
Proof. intros Hp HQ. revert s0 Hp. induction p as [a | X f k IH]; simpl; eauto. Qed.

Lemma rely_later {A} (Q : A -> S -> Prop) (p : prog A) s0 s1 :
  (forall a s s', R s s' -> Q a s -> Q a s') -> R s0 s1 -> rely Q p s0 -> rely Q p s1.
Proof. intros HQ H01. destruct p as [a | X f k]; simpl; [by apply HQ |]. intros Hp s H1s. apply Hp. by etrans. Qed.

Lemma rely_pool {A} (Q : A -> S -> Prop) (s s' : S) (ps ps' : list (prog A)) :
  (forall a s s', R s s' -> Q a s -> Q a s') ->
  I s -> Forall (always I R) ps -> Forall (fun p => rely Q p s) ps -> rtc pstep (s, ps) (s', ps') ->
  I s' /\ Forall (fun p => rely Q p s') ps'.
Proof.
  intros HQ HI Hps Hr Hsteps. remember (s, ps) as c eqn:Ec. remember (s', ps') as c' eqn:Ec'.
  revert s ps Ec HI Hps Hr. induction Hsteps as [c | c1 c2 c3 Hstep Hsteps IH]; intros s ps -> HI Hps Hr.
  - by simplify_eq.
  - inversion Hstep as [s0 ps0 i X f k Hi Es Ec2]; subst.
    assert (always I R (Act f k)) as Hact by (eapply Forall_lookup_1; done).
    assert (rely Q (Act f k) s) as Hrel by exact (Forall_lookup_1 (fun p => rely Q p s) _ _ _ Hr Hi).
    destruct (Hact s HI) as (HI1 & HG & Hk). apply (IH eq_refl _ _ eq_refl HI1); [by apply Forall_insert |].
    apply Forall_insert; [| by apply Hrel]. eapply Forall_impl; [exact Hr |]. intros p. by apply rely_later.
Qed.

Lemma rely_since {A} (Q : A -> S -> Prop) (p : prog A) s0 :
  always I R p -> rely Q p s0 -> rely (fun a s => Q a s /\ R s0 s) p s0.
Proof.
  revert s0. induction p as [a | X f k IH]; intros s0; simpl; [by split |]. intros Ha Hr s H0s Hs.
  destruct (Ha s Hs) as (HI & HG & Hk). eapply rely_mono; [apply IH; [apply Hk | by apply Hr] |].
  intros a s1 (HQ & H1). split; [done |]. etrans; [exact H0s |]. by etrans.
Qed.
End rely.

(** ** Steps that are allowed by what the program has learnt

    As [always], but an action need only be allowed in the states the others
    may have moved on to, by [R], from where the program stands: a fact that
    [R] keeps, once learnt, holds at all its later actions. *)
Section along.
Context (I : S -> Prop) (R : S -> S -> Prop) `{!Reflexive R, !Transitive R}.

Fixpoint along {A} (p : prog A) (s0 : S) : Prop :=
  match p with
  | Ret _ => True
  | Act f k => forall s, R s0 s -> I s -> I (snd (f s)) /\ R s (snd (f s)) /\ along (k (fst (f s))) (snd (f s))
  end.

Lemma along_later {A} (p : prog A) s0 s1 : R s0 s1 -> along p s0 -> along p s1.
Proof. intros H01. destruct p as [a | X f k]; simpl; [done |]. intros Hp s H1s. apply Hp. by etrans. Qed.

Lemma along_bind {A B} (p : prog A) (q : A -> prog B) s0 :
  along p s0 -> rely I R (fun a s => along (q a) s) p s0 -> along (bind p q) s0.
Proof.
  revert s0. induction p as [a | X f k IH]; intros s0; simpl; [done |].
  intros Hp Hr s H0s Hs. destruct (Hp s H0s Hs) as (HI & HR & Hk). auto.
Qed.

(** [F], once learnt, stays: what holds under [I] and [F] holds from here. *)
Lemma along_always (F : S -> Prop) {A} (p : prog A) s0 :
  (forall s s', R s s' -> F s -> F s') -> F s0 -> always (fun s => I s /\ F s) R p -> along p s0.
Proof.
  intros HF. revert s0. induction p as [a | X f k IH]; intros s0; simpl; [done |]. intros H0 Hp s H0s Hs.
  destruct (Hp s) as ([HI HF'] & HR & Hk); [by eauto |]. auto.
Qed.

Lemma along_guar {A} (p : prog A) s0 : guar (kept I R) p -> along p s0.
Proof.
  revert s0. induction p as [a | X f k IH]; intros s0; simpl; [done |]. intros [Hf Hk] s _ Hs.
  destruct (Hf s Hs). auto.
Qed.

Lemma rely_any {A} (Q : A -> S -> Prop) (p : prog A) s0 : (forall a s, Q a s) -> rely I R Q p s0.
Proof. intros HQ. revert s0. induction p as [a | X f k IH]; simpl; eauto. Qed.

Lemma rely_and {A} (Q Q' : A -> S -> Prop) (p : prog A) s0 :
  rely I R Q p s0 -> rely I R Q' p s0 -> rely I R (fun a s => Q a s /\ Q' a s) p s0.
Proof. revert s0. induction p as [a | X f k IH]; simpl; [by split | eauto]. Qed.

(** A program of such steps keeps what [R] keeps. *)
Lemma rely_keep (F : S -> Prop) {A} (Q : A -> S -> Prop) (p : prog A) s0 :
  (forall s s', R s s' -> F s -> F s') -> F s0 -> guar (kept I R) p ->
  rely I R Q p s0 -> rely I R (fun a s => F s /\ Q a s) p s0.
Proof.
  intros HF. revert s0. induction p as [a | X f k IH]; intros s0; simpl; [done |]. intros H0 [Hf Hk] Hr s H0s Hs.
  destruct (Hf s Hs). apply IH; eauto.
Qed.

Lemma rely_returns {A} (Q : A -> Prop) (p : prog A) s0 : returns I Q p -> rely I R (fun a _ => Q a) p s0.
Proof. revert s0. induction p as [a | X f k IH]; simpl; eauto. Qed.

Lemma along_pool {A} (s s' : S) (ps ps' : list (prog A)) :
  I s -> Forall (fun p => along p s) ps -> rtc pstep (s, ps) (s', ps') -> I s' /\ R s s'.
Proof.
  intros HI Hps Hsteps. remember (s, ps) as c eqn:Ec. remember (s', ps') as c' eqn:Ec'.
  revert s ps Ec HI Hps. induction Hsteps as [c | c1 c2 c3 Hstep Hsteps IH]; intros s ps -> HI Hps.
  - by simplify_eq.
  - inversion Hstep as [s0 ps0 i X f k Hi Es Ec2]; subst.
    assert (along (Act f k) s) as Hact by exact (Forall_lookup_1 (fun p => along p s) _ _ _ Hps Hi).
    destruct (Hact s) as (HI1 & HR & Hk); [done.. |].
    destruct (IH eq_refl _ _ eq_refl HI1) as [HI' HR'].
    { apply Forall_insert; [| exact Hk]. eapply Forall_impl; [exact Hps |]. intros p. by apply along_later. }
    split; [done | by etrans].
Qed.
End along.

(** ** A program that runs alone

    [I] holds after each of its actions, each of them is allowed by [G], and
    it ends with [Q]. *)
Section alone.
Context (I : S -> Prop) (G : S -> S -> Prop) `{!Reflexive G, !Transitive G}.

Fixpoint alone {A} (Q : A -> S -> Prop) (p : prog A) (s : S) : Prop :=
  match p with
  | Ret a => Q a s
  | Act f k => I (snd (f s)) /\ G s (snd (f s)) /\ alone Q (k (fst (f s))) (snd (f s))
  end.

Lemma alone_bind {A B} (Q : B -> S -> Prop) (p : prog A) (q : A -> prog B) s :
  alone (fun a s => alone Q (q a) s) p s -> alone Q (bind p q) s.
Proof. revert s. induction p as [a | X f k IH]; simpl; [done |]. intros s (HI & HG & Hk). auto. Qed.

Lemma alone_mono {A} (Q Q' : A -> S -> Prop) (p : prog A) s :
  alone Q p s -> (forall a s, Q a s -> Q' a s) -> alone Q' p s.
Proof. intros Hp HQ. revert s Hp. induction p as [a | X f k IH]; simpl; [auto |]. intros s (HI & HG & Hk). auto. Qed.

Lemma alone_since {A} (Q : A -> S -> Prop) (p : prog A) s : alone Q p s -> alone (fun a s' => Q a s' /\ G s s') p s.
Proof.
  revert s. induction p as [a | X f k IH]; simpl; [by split |]. intros s (HI & HG & Hk). split; [done |]. split; [done |].
  eapply alone_mono; [by apply IH |]. intros a s' (HQ & Hs'). split; [done |]. by etrans.
Qed.
End alone.

(** A given interleaving: at each turn the program with that index runs one
    action. *)
Fixpoint schedule {A} (turns : list nat) (c : S * list (prog A)) : S * list (prog A) :=
  match turns with
  | [] => c
  | i :: turns' =>
      schedule turns'
        (match snd c !! i with
         | Some (Act f k) => (snd (f (fst c)), <[i := k (fst (f (fst c)))]> (snd c))
         | _ => c
         end)
  end.

Lemma schedule_rtc {A} turns (c : S * list (prog A)) : rtc pstep c (schedule turns c).
Proof.
  revert c. induction turns as [| i turns IH]; intros [s ps]; simpl; [done |].
  destruct (ps !! i) as [[a | X f k] |] eqn:Hi; [apply IH | | apply IH].
  eapply rtc_l; [by apply pstep_act | apply IH].
Qed.

(** ** Counting over interleavings

    [spends φ wt e p]: holding [e] credits, no action of [p] can raise the
    potential [φ] by more than the credits it gives up, and the result [a]
    of [p] is worth at most the credits left ([wt a]).  The actions may rely
    on the invariant [I], which they preserve. *)
Section spends.
Context (I : S -> Prop) (phi : S -> nat).

Fixpoint spends {A} (wt : A -> nat) (e : nat) (p : prog A) : Prop :=
  match p with
  | Ret a => wt a <= e
  | Act f k =>
      forall s, I s ->
        I (snd (f s)) /\
        exists e', phi (snd (f s)) + e' <= phi s + e /\ spends wt e' (k (fst (f s)))
  end.

Lemma spends_mono {A} (wt : A -> nat) e e' (p : prog A) :
  e <= e' -> spends wt e p -> spends wt e' p.
Proof.
  intros He. destruct p as [a | X f k]; simpl; [lia |].
  intros H s Hs. destruct (H s Hs) as (HI & e1 & Hle & Hk).
  split; [done |]. exists e1. split; [lia | done].
Qed.

Lemma spends_bind {A B} (wt1 : A -> nat) (wt : B -> nat) e (p : prog A) (q : A -> prog B) :
  spends wt1 e p -> (forall a, spends wt (wt1 a) (q a)) -> spends wt e (bind p q).
Proof.
  revert e. induction p as [a | X f k IH]; intros e Hp Hq; simpl in *.
  - eapply spends_mono; [exact Hp | apply Hq].
  - intros s Hs. destruct (Hp s Hs) as (HI & e1 & Hle & Hk).
    split; [done |]. exists e1. split; [done | by apply IH].
Qed.

(** The continuation may rely on what every result satisfies. *)
Lemma spends_bind_returns {A B} (Q : A -> Prop) (wt1 : A -> nat) (wt : B -> nat) e (p : prog A) (q : A -> prog B) :
  spends wt1 e p -> returns I Q p -> (forall a, Q a -> spends wt (wt1 a) (q a)) -> spends wt e (bind p q).
Proof.
  revert e. induction p as [a | X f k IH]; intros e Hp Hr Hq; simpl in *.
  - eapply spends_mono; [exact Hp | by apply Hq].
  - intros s Hs. destruct (Hp s Hs) as (HI & e1 & Hle & Hk).
    split; [done |]. exists e1. split; [done |]. apply IH; auto.
Qed.

Definition neutral (s s' : S) : Prop := I s -> I s' /\ phi s' <= phi s.

(** A program of neutral statements keeps the credits it was given. *)
Lemma spends_neutral {A} (wt : A -> nat) e (p : prog A) :
  guar neutral p -> (forall a, wt a <= e) -> spends wt e p.
Proof.
  intros Hp Hwt. induction p as [a | X f k IH]; simpl; [done |].
  destruct Hp as [Hf Hk]. intros s Hs. destruct (Hf s Hs) as [HI Hle].
  split; [done |]. exists e. split; [lia | by apply IH].
Qed.

Definition total (es : list nat) : nat := sum_list es.

Definition worth {A} (wt : A -> nat) (p : prog A) : nat :=
  match p with Ret a => wt a | Act _ _ => 0 end.

Lemma total_insert es i e e' :
  es !! i = Some e -> total (<[i := e']> es) + e = total es + e'.
Proof.
  revert i. induction es as [| x es IH]; intros [| i] H; simplify_eq/=; [lia |].
  specialize (IH i H). unfold total in *. simpl. lia.
Qed.

(** However the statements of the pool interleave, the potential plus the
    worth of the results delivered never exceeds what was there at the
    start. *)
Theorem spends_pool {A} (wt : A -> nat) n s s' (ps ps' : list (prog A)) (es : list nat) :
  I s -> Forall2 (spends wt) es ps -> phi s + total es <= n ->
  rtc pstep (s, ps) (s', ps') ->
  I s' /\ phi s' + total (map (worth wt) ps') <= n.
Proof.
  intros HI Hes Hn Hsteps.
  remember (s, ps) as c eqn:Ec. remember (s', ps') as c' eqn:Ec'.
  revert s ps es Ec HI Hes Hn.
  induction Hsteps as [c | c1 c2 c3 Hstep Hsteps IH]; intros s ps es -> HI Hes Hn.
  - injection Ec' as <- <-. split; [done |].
    enough (total (map (worth wt) ps) <= total es) by lia.
    clear -Hes. induction Hes as [| e p es ps Hp Hes IH]; [done |].
    destruct p as [a | X f k]; simpl in *; unfold total in *; simpl; lia.
  - inversion Hstep as [s0 ps0 i X f k Hi Es Ec2]; subst.
    destruct (Forall2_lookup_r _ _ _ _ _ Hes Hi) as (e & He & Hsp).
    destruct (Hsp s HI) as (HI' & e' & Hle & Hk).
    apply (IH eq_refl _ _ (<[i := e']> es) eq_refl HI').
    + by apply Forall2_insert.
    + pose proof (total_insert es i e e' He). lia.
Qed.

Lemma Forall2_replicate_spends {A} (wt : A -> nat) (ps : list (prog A)) :
  Forall (spends wt 0) ps -> Forall2 (spends wt) (replicate (length ps) 0) ps.
Proof. induction 1; simpl; by constructor. Qed.

Lemma total_replicate_0 n : total (replicate n 0) = 0.
Proof. induction n; [done | by unfold total in *]. Qed.
End spends.
End prog.

Arguments prog : clear implicits.
Arguments Ret {S A} a.
Arguments Act {S A X} f k.

Declare Scope prog_scope.
Delimit Scope prog_scope with prog.
Notation "x <- p ;; k" := (bind p (fun x => k))
  (at level 100, p at next level, right associativity) : prog_scope.
Notation "p ;;; k" := (bind p (fun _ => k))
  (at level 100, right associativity) : prog_scope.

(** [x <-! p ;; k]: [x, err := p; if err != nil { return err }]. *)
Notation "x <-! p ;; k" :=
  (bind p (fun r => match r with Ok x => k | Err e => Ret (Err e) end))
  (at level 100, p at next level, right associativity) : prog_scope.

Create HintDb guar discriminated.
#[export] Hint Resolve guar_Ret guar_bind : guar.
