(* ===== verification/Portal.v ===== *)
(** * The portal's browser script (internal/web/static/app.js)

    A page is its elements in document order ([dom]) together with what the
    script leaves behind: registered listeners, pending timers, the clipboard
    and the focused element.  [script] is the body of the immediately invoked
    function, [dispatch] the browser delivering one event to the listeners the
    script registered.  The selector engine is modelled for the attribute
    selectors the script is written with; the selector a [data-copy] attribute
    holds is resolved by the parameter [css]. *)

From S2P Require Import Prelude GoStrings.

Module Portal.

(** ** The document *)

Record el := mkEl {
  el_id : nat;
  tag : string;
  attrs : list (string * string);
  ancestors : list nat;               (* proper ancestors, nearest first *)
  classes : list string;
  value : option string;              (* None: the element has no .value *)
  textContent : string;
  checked : bool;
  indeterminate : bool;
  hidden : bool;
  disabled : bool }.

Abbreviation dom := (list el).

Definition set_checked (b : bool) (e : el) : el :=
  mkEl (el_id e) (tag e) (attrs e) (ancestors e) (classes e) (value e) (textContent e)
       b (indeterminate e) (hidden e) (disabled e).
Definition set_indeterminate (b : bool) (e : el) : el :=
  mkEl (el_id e) (tag e) (attrs e) (ancestors e) (classes e) (value e) (textContent e)
       (checked e) b (hidden e) (disabled e).
Definition set_hidden (b : bool) (e : el) : el :=
  mkEl (el_id e) (tag e) (attrs e) (ancestors e) (classes e) (value e) (textContent e)
       (checked e) (indeterminate e) b (disabled e).
Definition set_disabled (b : bool) (e : el) : el :=
  mkEl (el_id e) (tag e) (attrs e) (ancestors e) (classes e) (value e) (textContent e)
       (checked e) (indeterminate e) (hidden e) b.
Definition set_text (t : string) (e : el) : el :=
  mkEl (el_id e) (tag e) (attrs e) (ancestors e) (classes e) (value e) t
       (checked e) (indeterminate e) (hidden e) (disabled e).
Definition set_classes (c : list string) (e : el) : el :=
  mkEl (el_id e) (tag e) (attrs e) (ancestors e) c (value e) (textContent e)
       (checked e) (indeterminate e) (hidden e) (disabled e).
Definition set_attr (k v : string) (e : el) : el :=
  mkEl (el_id e) (tag e) ((k, v) :: List.filter (fun p => negb (String.eqb (fst p) k)) (attrs e))
       (ancestors e) (classes e) (value e) (textContent e)
       (checked e) (indeterminate e) (hidden e) (disabled e).

Definition getAttribute (k : string) (e : el) : option string :=
  snd <$> List.find (fun p => String.eqb (fst p) k) (attrs e).

(** Selectors the script is written with. *)
Definition has_attr (k : string) (e : el) : bool :=
  match getAttribute k e with Some _ => true | None => false end.
Definition attr_is (k v : string) (e : el) : bool :=
  match getAttribute k e with Some w => String.eqb w v | None => false end.
Definition tag_is (t : string) (e : el) : bool := String.eqb (tag e) t.
(* "input, select, textarea" *)
Definition is_field (e : el) : bool := tag_is "input" e || tag_is "select" e || tag_is "textarea" e.
(* "input[name=n]" *)
Definition input_named (n : string) (e : el) : bool := tag_is "input" e && attr_is "name" n e.

Definition get (d : dom) (i : nat) : option el := List.find (fun e => Nat.eqb (el_id e) i) d.
Definition querySelectorAll (p : el -> bool) (d : dom) : list el := List.filter p d.
Definition querySelector (p : el -> bool) (d : dom) : option el := List.find p d.
Definition is_inside (i : nat) (e : el) : bool := existsb (Nat.eqb i) (ancestors e).

(** The element itself or its nearest ancestor that the selector matches. *)
Fixpoint first_match (p : el -> bool) (d : dom) (ids : list nat) : option el :=
  match ids with
  | [] => None
  | i :: ids' =>
      match get d i with
      | Some e => if p e then Some e else first_match p d ids'
      | None => first_match p d ids'
      end
  end.
Definition closest (p : el -> bool) (d : dom) (e : el) : option el :=
  first_match p d (el_id e :: ancestors e).

(** Mutating one element, or every element a selector matches. *)
Definition upd (i : nat) (f : el -> el) (d : dom) : dom :=
  update_where (fun e => Nat.eqb (el_id e) i) f d.
Definition upd_all (p : el -> bool) (f : el -> el) (d : dom) : dom := update_where p f d.

(** ["a b c".split(" ").indexOf(v) !== -1] *)
Definition in_words (v words : string) : bool := existsb (String.eqb v) (Str.Split words " ").

(** ** What the script leaves behind *)

Inductive handler :=
| HNavToggle
| HApplyShow (i : nat)        (* apply() of one [data-show-when] element *)
| HApplyMode
| HApplyKind
| HSelectAll
| HRefreshBulk
| HConfirmBulk (i : nat).

Record timer := mkTimer { t_due : Z; t_button : nat; t_old : string }.

Record page := mkPage {
  p_dom : dom;
  p_time : Z;                            (* milliseconds *)
  p_timers : list timer;
  p_clipboard : option string;
  p_focus : option nat;
  p_rowBoxes : list nat;                 (* the array captured at load *)
  p_on_change : list (nat * handler);    (* addEventListener("change", ...) *)
  p_on_click : list (nat * handler) }.   (* addEventListener("click", ...) on elements *)

Definition with_dom (d : dom) (p : page) : page :=
  mkPage d (p_time p) (p_timers p) (p_clipboard p) (p_focus p) (p_rowBoxes p)
         (p_on_change p) (p_on_click p).
Definition with_clipboard (c : option string) (p : page) : page :=
  mkPage (p_dom p) (p_time p) (p_timers p) c (p_focus p) (p_rowBoxes p)
         (p_on_change p) (p_on_click p).

(** ** Navigation toggle *)

Definition navToggle (d : dom) : option el := querySelector (has_attr "data-nav-toggle") d.

Definition add_class (c : string) (l : list string) : list string :=
  if existsb (String.eqb c) l then l else l ++ [c].

Definition toggle_class (c : string) (l : list string) : list string * bool :=
  if existsb (String.eqb c) l
  then (List.filter (fun x => negb (String.eqb x c)) l, false)
  else (l ++ [c], true).

(** The click listener; [None] is the TypeError of a toggle outside a
    ".topbar". *)
Definition nav_click (d : dom) : option dom :=
  match navToggle d with
  | None => Some d
  | Some b =>
      match closest (fun e => existsb (String.eqb "topbar") (classes e)) d b with
      | None => None
      | Some bar =>
          let '(cs, open) := toggle_class "nav-open" (classes bar) in
          Some (upd (el_id b) (set_attr "aria-expanded" (if open then "true" else "false"))
                  (upd (el_id bar) (set_classes cs) d))
      end
  end.

(** ** Copy to clipboard *)

(** What document.execCommand("copy") does: throws, or returns a boolean. *)
Inductive exec_result := ExecThrows | ExecReturns (ok : bool).

Record browser := mkBrowser {
  has_clipboard : bool;        (* navigator.clipboard is defined *)
  isSecureContext : bool;
  writeText_ok : bool;         (* the promise resolves *)
  exec_copy : exec_result;
  confirms : string -> bool }. (* the user's answer to window.confirm *)

(** [done]: the button says "copied" for 1400 ms. *)
Definition copy_done (i : nat) (p : page) : page :=
  match get (p_dom p) i with
  | None => p
  | Some btn =>
      mkPage (upd i (set_text "copied") (p_dom p)) (p_time p)
             (p_timers p ++ [mkTimer (p_time p + 1400) i (textContent btn)])
             (p_clipboard p) (p_focus p) (p_rowBoxes p) (p_on_change p) (p_on_click p)
  end.

(** [fallback]: copy through a temporary textarea.  The textarea is appended
    to the body and removed again, so the elements are the same afterwards. *)
Definition copy_fallback (br : browser) (text : string) (i : nat) (p : page) : page :=
  match exec_copy br with
  | ExecThrows => p
  | ExecReturns ok => copy_done i (if ok then with_clipboard (Some text) p else p)
  end.

Section copy.
Context (css : string -> dom -> option el).

(** The document click listener for [data-copy]; the boolean says whether
    the default action was prevented. *)
Definition copy_click (br : browser) (target : el) (p : page) : page * bool :=
  match closest (has_attr "data-copy") (p_dom p) target with
  | None => (p, false)
  | Some btn =>
      match getAttribute "data-copy" btn with
      | None => (p, true)
      | Some sel =>
          match css sel (p_dom p) with
          | None => (p, true)
          | Some e =>
              let text := match value e with Some v => v | None => textContent e end in
              if has_clipboard br && isSecureContext br then
                if writeText_ok br
                then (copy_done (el_id btn) (with_clipboard (Some text) p), true)
                else (copy_fallback br text (el_id btn) p, true)
              else (copy_fallback br text (el_id btn) p, true)
          end
      end
  end.
End copy.

(** Timers whose time has come run in order, restoring the saved label. *)
Definition fire (t : timer) (d : dom) : dom := upd (t_button t) (set_text (t_old t)) d.
Definition advance (dt : Z) (p : page) : page :=
  let now := (p_time p + dt)%Z in
  let due := List.filter (fun t => (t_due t <=? now)%Z) (p_timers p) in
  mkPage (fold_left (fun d t => fire t d) due (p_dom p)) now
         (List.filter (fun t => negb (t_due t <=? now)%Z) (p_timers p))
         (p_clipboard p) (p_focus p) (p_rowBoxes p) (p_on_change p) (p_on_click p).

(** ** Confirmation of destructive actions *)

(** The submit listener: true when the submission is prevented.  An empty
    [data-confirm] is falsy and asks nothing. *)
Definition confirm_submit (br : browser) (form : el) : bool :=
  match getAttribute "data-confirm" form with
  | Some msg => if String.eqb msg "" then false else negb (confirms br msg)
  | None => false
  end.

(** The click listener for links. *)
Definition confirm_link (br : browser) (d : dom) (target : el) : bool :=
  match closest (fun e => tag_is "a" e && has_attr "data-confirm" e) d target with
  | Some link =>
      match getAttribute "data-confirm" link with
      | Some msg => negb (confirms br msg)
      | None => false
      end
  | None => false
  end.

(** ** Sections that follow a control *)

(** [data-show-when="name=v1 v2"] split at "=". *)
Definition show_rule (e : el) : string * string :=
  match getAttribute "data-show-when" e with
  | Some s => match Str.Split s "=" with
              | n :: w :: _ => (n, w)
              | [n] => (n, EmptyString)
              | [] => (EmptyString, EmptyString)
              end
  | None => (EmptyString, EmptyString)
  end.

(** The elements of [el.closest("form") || document]. *)
Definition form_scope (d : dom) (e : el) : dom :=
  match closest (tag_is "form") d e with
  | Some f => querySelectorAll (is_inside (el_id f)) d
  | None => d
  end.

Definition show_controls (d : dom) (e : el) : list el :=
  querySelectorAll (attr_is "name" (fst (show_rule e))) (form_scope d e).

(** The control the rule reads: the checked one of that name, or else the
    first select or input of that name. *)
Definition show_current (d : dom) (e : el) : option el :=
  let n := fst (show_rule e) in
  match querySelector (fun c => attr_is "name" n c && checked c) (form_scope d e) with
  | Some c => Some c
  | None => querySelector (fun c => (tag_is "select" c || tag_is "input" c) && attr_is "name" n c)
                          (form_scope d e)
  end.

Definition val (e : el) : string := match value e with Some v => v | None => EmptyString end.

Definition show_wanted (d : dom) (e : el) : bool :=
  match show_current d e with
  | Some c => in_words (val c) (snd (show_rule e))
  | None => false
  end.

(** Hide or show one section and disable or enable every field in it. *)
Definition set_section (hide : bool) (i : nat) (d : dom) : dom :=
  upd_all (fun f => is_field f && is_inside i f) (set_disabled hide)
          (upd i (set_hidden hide) d).

(** [apply] of one [data-show-when] element. *)
Definition apply_show (i : nat) (d : dom) : dom :=
  match get d i with
  | Some e => set_section (negb (show_wanted d e)) i d
  | None => d
  end.

(** ** Mode and kind switches *)

Definition mode_hides (mode : string) (e : el) : bool :=
  match getAttribute "data-mode" e with
  | Some want => negb (in_words mode want)
  | None => false
  end.

Definition applyMode (d : dom) : dom :=
  match querySelector (fun e => input_named "mode" e && checked e) d with
  | None => d
  | Some mode =>
      fold_left (fun d e => set_section (mode_hides (val mode) e) (el_id e) d)
                (querySelectorAll (has_attr "data-mode") d) d
  end.

Definition kind_hides (kind : string) (e : el) : bool :=
  match getAttribute "data-kind" e with
  | Some want => negb (in_words kind want)
  | None => false
  end.

Definition applyKind (d : dom) : dom :=
  match querySelector (fun e => input_named "ca_kind" e && checked e) d with
  | None => d
  | Some kind =>
      fold_left (fun d e => upd (el_id e) (set_hidden (kind_hides (val kind) e)) d)
                (querySelectorAll (has_attr "data-kind") d) d
  end.

(** ** Bulk selection on the certificate list *)

Definition selectAll (d : dom) : option el := querySelector (has_attr "data-select-all") d.
Definition bulkBar (d : dom) : option el := querySelector (has_attr "data-bulk-bar") d.
Definition bulkCount (d : dom) : option el := querySelector (has_attr "data-bulk-count") d.

(** How many of the row boxes captured at load are checked. *)
Definition checked_rows (rows : list nat) (d : dom) : nat :=
  length (List.filter (fun i => match get d i with Some e => checked e | None => false end) rows).

Definition opt_upd (o : option el) (f : el -> el) (d : dom) : dom :=
  match o with Some e => upd (el_id e) f d | None => d end.

Definition refreshBulk (rows : list nat) (d : dom) : dom :=
  let n := checked_rows rows d in
  let d1 := opt_upd (bulkCount d) (set_text (Str.itoa (Z.of_nat n))) d in
  let d2 := opt_upd (bulkBar d) (set_hidden (Nat.eqb n 0)) d1 in
  opt_upd (selectAll d)
    (fun e => set_indeterminate ((0 <? n) && (n <? length rows))%nat
                (set_checked ((0 <? n) && (n =? length rows))%nat e)) d2.

Definition select_all_change (rows : list nat) (d : dom) : dom :=
  match selectAll d with
  | Some a =>
      refreshBulk rows
        (upd_all (fun e => existsb (Nat.eqb (el_id e)) rows) (set_checked (checked a)) d)
  | None => d
  end.

(** The click listener of a [data-confirm-bulk] button: true when prevented. *)
Definition newline : string := String (ascii_of_nat 10) EmptyString.
Definition bulk_message (rows : list nat) (d : dom) (btn : el) : string :=
  (match getAttribute "data-confirm-bulk" btn with Some m => m | None => "null" end
   +:+ newline +:+ newline +:+ Str.itoa (Z.of_nat (checked_rows rows d))
   +:+ " certificate(s) selected.")%go.
Definition confirm_bulk (br : browser) (rows : list nat) (d : dom) (btn : el) : bool :=
  negb (confirms br (bulk_message rows d btn)).

(** ** Loading the script, and events afterwards *)

Definition run_handler (rows : list nat) (h : handler) (d : dom) : dom :=
  match h with
  | HApplyShow i => apply_show i d
  | HApplyMode => applyMode d
  | HApplyKind => applyKind d
  | HSelectAll => select_all_change rows d
  | HRefreshBulk => refreshBulk rows d
  | HNavToggle => match nav_click d with Some d' => d' | None => d end
  | HConfirmBulk _ => d
  end.

Definition script (root : nat) (d0 : dom) : page :=
  let d1 := upd root (fun e => set_classes (add_class "js" (classes e)) e) d0 in
  let nav := match navToggle d1 with Some b => [(el_id b, HNavToggle)] | None => [] end in
  let shows := querySelectorAll (has_attr "data-show-when") d1 in
  let show_ls := flat_map (fun e => map (fun c => (el_id c, HApplyShow (el_id e))) (show_controls d1 e)) shows in
  let d2 := fold_left (fun d e => apply_show (el_id e) d) shows d1 in
  let modes := querySelectorAll (input_named "mode") d2 in
  let d3 := match modes with [] => d2 | _ => applyMode d2 end in
  let kinds := querySelectorAll (input_named "ca_kind") d3 in
  let d4 := match kinds with [] => d3 | _ => applyKind d3 end in
  let focus := el_id <$> querySelector (has_attr "data-autofocus") d4 in
  let rows := map el_id (querySelectorAll (has_attr "data-row-select") d4) in
  let all_ls := match selectAll d4 with Some a => [(el_id a, HSelectAll)] | None => [] end in
  let d5 := match rows with [] => d4 | _ => refreshBulk rows d4 end in
  let bulk_ls := map (fun b => (el_id b, HConfirmBulk (el_id b)))
                     (querySelectorAll (has_attr "data-confirm-bulk") d5) in
  mkPage d5 0 [] None focus rows
    (show_ls ++ map (fun e => (el_id e, HApplyMode)) modes
             ++ map (fun e => (el_id e, HApplyKind)) kinds
             ++ all_ls ++ map (fun i => (i, HRefreshBulk)) rows)
    (nav ++ bulk_ls).

(** What the user does.  For a control the browser first updates the control
    and then delivers "change". *)
Inductive event :=
| EToggle (i : nat)               (* tick or untick a checkbox *)
| EPick (i : nat)                 (* choose a radio button *)
| EClick (i : nat)
| ESubmit (i : nat)
| ETime (dt : Z).

(** Radio buttons of one name are exclusive. *)
Definition pick_radio (i : nat) (d : dom) : dom :=
  match get d i with
  | Some r =>
      update_where (fun e => match getAttribute "name" r with
                             | Some n => attr_is "name" n e && attr_is "type" "radio" e
                             | None => false end)
        (fun e => set_checked (Nat.eqb (el_id e) i) e) d
  | None => d
  end.

Definition change_handlers (i : nat) (ls : list (nat * handler)) : list handler :=
  map snd (List.filter (fun l => Nat.eqb (fst l) i) ls).

Definition fire_change (i : nat) (p : page) : page :=
  with_dom (fold_left (fun d h => run_handler (p_rowBoxes p) h d)
                      (change_handlers i (p_on_change p)) (p_dom p)) p.

Section dispatch.
Context (css : string -> dom -> option el).

Definition click_listener (br : browser) (target : el) (l : nat * handler) (p : page) (prev : bool)
    : page * bool :=
  if Nat.eqb (fst l) (el_id target) || is_inside (fst l) target then
    match snd l with
    | HConfirmBulk b =>
        match get (p_dom p) b with
        | Some btn => (p, prev || confirm_bulk br (p_rowBoxes p) (p_dom p) btn)
        | None => (p, prev)
        end
    | h => (with_dom (run_handler (p_rowBoxes p) h (p_dom p)) p, prev)
    end
  else (p, prev).

(** One event; the boolean says whether its default action was prevented. *)
Definition dispatch (br : browser) (ev : event) (p : page) : page * bool :=
  match ev with
  | EToggle i =>
      (fire_change i (with_dom (upd i (fun e => set_indeterminate false (set_checked (negb (checked e)) e)) (p_dom p)) p), false)
  | EPick i => (fire_change i (with_dom (pick_radio i (p_dom p)) p), false)
  | ESubmit i =>
      match get (p_dom p) i with
      | Some form => (p, confirm_submit br form)
      | None => (p, false)
      end
  | EClick i =>
      match get (p_dom p) i with
      | None => (p, false)
      | Some target =>
          let '(p1, prev) := fold_left (fun '(p, b) l => click_listener br target l p b)
                                       (p_on_click p) (p, false) in
          let '(p2, prev2) := copy_click css br target p1 in
          (p2, prev || prev2 || confirm_link br (p_dom p2) target)
      end
  | ETime dt => (advance dt p, false)
  end.

Fixpoint dispatch_all (br : browser) (evs : list event) (p : page) : page :=
  match evs with
  | [] => p
  | ev :: evs' => dispatch_all br evs' (fst (dispatch br ev p))
  end.
End dispatch.

(** ** Lemmas on the document *)

Section dom_facts.
Implicit Types (p q : el -> bool) (f : el -> el) (d : dom) (i : nat).

(** An update that leaves what a selector looks at alone. *)
Lemma find_update p q f d :
  (forall e, p (f e) = p e) ->
  List.find p (update_where q f d) = (fun e => if q e then f e else e) <$> List.find p d.
Proof.
  intros Hp. induction d as [| e d IH]; [done |]. simpl.
  destruct (q e) eqn:Eq; [rewrite Hp |]; (destruct (p e) eqn:Ep; [simpl; by rewrite Eq | exact IH]).
Qed.

Lemma filter_update p q f d :
  (forall e, p (f e) = p e) ->
  List.filter p (update_where q f d) = update_where q f (List.filter p d).
Proof.
  intros Hp. induction d as [| e d IH]; [done |]. simpl.
  destruct (q e) eqn:Eq; [rewrite Hp |]; (destruct (p e); simpl; rewrite ?Eq; by rewrite IH).
Qed.

Lemma get_Some d i e : get d i = Some e -> el_id e = i /\ e ∈ d.
Proof.
  intros H. apply List.find_some in H as [Hin Hid].
  split; [by apply Nat.eqb_eq | by apply list_elem_of_In].
Qed.

Lemma get_upd i f d :
  (forall e, el_id (f e) = el_id e) -> get (upd i f d) i = f <$> get d i.
Proof.
  intros Hf. unfold get, upd. rewrite find_update; [| intros e; by rewrite Hf].
  destruct (List.find _ d) as [e |] eqn:E; [| done]. simpl.
  apply List.find_some in E as [_ E]. by rewrite E.
Qed.

Lemma get_upd_ne i j f d :
  (forall e, el_id (f e) = el_id e) -> i <> j -> get (upd i f d) j = get d j.
Proof.
  intros Hf Hij. unfold get, upd. rewrite find_update; [| intros e; by rewrite Hf].
  destruct (List.find _ d) as [e |] eqn:E; [| done]. simpl.
  apply List.find_some in E as [_ E]. apply Nat.eqb_eq in E.
  destruct (Nat.eqb_spec (el_id e) i); [congruence | done].
Qed.

Lemma checked_rows_upd i f rows d :
  (forall e, el_id (f e) = el_id e) ->
  (forall e, checked (f e) = checked e) \/ i ∉ rows ->
  checked_rows rows (upd i f d) = checked_rows rows d.
Proof.
  intros Hf Hc. unfold checked_rows. f_equal. apply filter_ext_in. intros j Hj.
  destruct (decide (i = j)) as [-> | Hij]; [| by rewrite get_upd_ne].
  rewrite get_upd by done. destruct (get d j); [| done]. simpl.
  destruct Hc as [Hc | Hc]; [apply Hc |]. by apply list_elem_of_In in Hj.
Qed.
End dom_facts.

(** ** The bulk bar agrees with the boxes *)

Definition bulk_ok (rows : list nat) (d : dom) : Prop :=
  let n := checked_rows rows d in
  (forall e, bulkCount d = Some e -> textContent e = Str.itoa (Z.of_nat n)) /\
  (forall e, bulkBar d = Some e -> hidden e = Nat.eqb n 0) /\
  (forall e, selectAll d = Some e ->
     checked e = ((0 <? n) && (n =? length rows))%nat /\
     indeterminate e = ((0 <? n) && (n <? length rows))%nat).

Lemma selectAll_upd q f d :
  (forall e, attrs (f e) = attrs e) ->
  selectAll (update_where q f d) = (fun e => if q e then f e else e) <$> selectAll d.
Proof. intros Hf. apply find_update. intros e. unfold has_attr, getAttribute. by rewrite Hf. Qed.
Lemma bulkBar_upd q f d :
  (forall e, attrs (f e) = attrs e) ->
  bulkBar (update_where q f d) = (fun e => if q e then f e else e) <$> bulkBar d.
Proof. intros Hf. apply find_update. intros e. unfold has_attr, getAttribute. by rewrite Hf. Qed.
Lemma bulkCount_upd q f d :
  (forall e, attrs (f e) = attrs e) ->
  bulkCount (update_where q f d) = (fun e => if q e then f e else e) <$> bulkCount d.
Proof. intros Hf. apply find_update. intros e. unfold has_attr, getAttribute. by rewrite Hf. Qed.

Lemma refreshBulk_ok rows d :
  (forall e, selectAll d = Some e -> el_id e ∉ rows) -> bulk_ok rows (refreshBulk rows d).
Proof.
  intros Hsel. unfold bulk_ok.
  assert (checked_rows rows (refreshBulk rows d) = checked_rows rows d) as Hn.
  { unfold refreshBulk, opt_upd. destruct (selectAll d) as [a |] eqn:Ha.
    - rewrite checked_rows_upd; [| done | right; by apply Hsel].
      destruct (bulkBar d), (bulkCount d); rewrite ?checked_rows_upd; auto.
    - destruct (bulkBar d), (bulkCount d); rewrite ?checked_rows_upd; auto. }
  rewrite Hn. clear Hn. unfold refreshBulk, opt_upd.
  set (n := checked_rows rows d).
  split_and!; intros e.
  - destruct (selectAll d), (bulkBar d), (bulkCount d) eqn:Hc; unfold upd;
      rewrite ?bulkCount_upd, Hc by done; simpl; rewrite ?Nat.eqb_refl;
      intros [= <-]; repeat case_match; done.
  - destruct (selectAll d), (bulkCount d), (bulkBar d) eqn:Hc; unfold upd;
      rewrite ?bulkBar_upd, Hc by done; simpl; intros [= <-];
      repeat case_match; done || (rewrite ?Nat.eqb_refl in *; done).
  - destruct (bulkBar d), (bulkCount d), (selectAll d) eqn:Hc; unfold upd;
      rewrite ?selectAll_upd, Hc by done; simpl; intros [= <-];
      repeat case_match; done || (rewrite ?Nat.eqb_refl in *; done).
Qed.

Lemma selectAll_id_upd q f d :
  (forall e, attrs (f e) = attrs e) -> (forall e, el_id (f e) = el_id e) ->
  el_id <$> selectAll (update_where q f d) = el_id <$> selectAll d.
Proof.
  intros Ha Hi. rewrite selectAll_upd by done. destruct (selectAll d); simpl; [| done].
  by destruct (q e); rewrite ?Hi.
Qed.

Lemma selectAll_id_refresh rows d :
  el_id <$> selectAll (refreshBulk rows d) = el_id <$> selectAll d.
Proof.
  unfold refreshBulk, opt_upd, upd.
  destruct (selectAll d) eqn:Hs, (bulkBar d), (bulkCount d);
    rewrite ?selectAll_id_upd by done; by rewrite ?Hs.
Qed.

(** Handlers that only the bulk bar registers. *)
Definition bulk_handler (d : dom) (h : handler) : Prop :=
  h = HRefreshBulk \/ (h = HSelectAll /\ is_Some (selectAll d)).

Lemma bulk_handler_run rows d h :
  (forall e, selectAll d = Some e -> el_id e ∉ rows) -> bulk_handler d h ->
  bulk_ok rows (run_handler rows h d) /\
  el_id <$> selectAll (run_handler rows h d) = el_id <$> selectAll d.
Proof.
  intros Hsel [-> | [-> [a Ha]]]; simpl.
  { split; [by apply refreshBulk_ok | apply selectAll_id_refresh]. }
  unfold select_all_change. rewrite Ha. split.
  - apply refreshBulk_ok. intros e He. unfold upd_all in He. rewrite selectAll_upd, Ha in He by done.
    simpl in He. injection He as <-. specialize (Hsel a Ha).
    destruct (existsb _ rows); [exact Hsel | done].
  - rewrite selectAll_id_refresh. unfold upd_all. rewrite selectAll_id_upd by done. by rewrite Ha.
Qed.

Lemma selectAll_id_transfer (rows : list nat) (d d' : dom) :
  el_id <$> selectAll d' = el_id <$> selectAll d ->
  (forall e, selectAll d = Some e -> el_id e ∉ rows) ->
  (forall e, selectAll d' = Some e -> el_id e ∉ rows).
Proof.
  intros Heq Hd e He. rewrite He in Heq. destruct (selectAll d) as [a |] eqn:Ha; [| done].
  simpl in Heq. injection Heq as ->. by apply Hd.
Qed.

Lemma bulk_handler_transfer (d d' : dom) h :
  el_id <$> selectAll d' = el_id <$> selectAll d -> bulk_handler d h -> bulk_handler d' h.
Proof.
  intros Heq [-> | [-> [a Ha]]]; [by left | right; split; [done |]].
  rewrite Ha in Heq. destruct (selectAll d'); [eauto | done].
Qed.

Lemma bulk_handlers_run rows hs d :
  (forall e, selectAll d = Some e -> el_id e ∉ rows) -> Forall (bulk_handler d) hs ->
  let d' := fold_left (fun d h => run_handler rows h d) hs d in
  (hs <> [] \/ bulk_ok rows d -> bulk_ok rows d') /\ el_id <$> selectAll d' = el_id <$> selectAll d.
Proof.
  revert d. induction hs as [| h hs IH]; intros d Hsel Hhs; simpl; [naive_solver |].
  apply Forall_cons in Hhs as [Hh Hhs].
  destruct (bulk_handler_run rows d h Hsel Hh) as [Hok Hid].
  destruct (IH (run_handler rows h d)) as [IH1 IH2].
  - by eapply selectAll_id_transfer.
  - eapply Forall_impl; [exact Hhs |]. intros h' Hh'. by eapply bulk_handler_transfer.
  - split; [intros _; apply IH1; by right | congruence].
Qed.

(** A page such as the certificate list: row boxes, possibly a select-all box
    that is not itself a row, and no mode, kind or show-when control. *)
Definition list_page (d : dom) : Prop :=
  Forall (fun e => has_attr "data-show-when" e = false /\ input_named "mode" e = false /\
                   input_named "ca_kind" e = false) d /\
  querySelectorAll (has_attr "data-row-select") d <> [] /\
  (forall a, selectAll d = Some a ->
     el_id a ∉ map el_id (querySelectorAll (has_attr "data-row-select") d)).

Lemma filter_none {A} (q : A -> bool) l : Forall (fun x => q x = false) l -> List.filter q l = [].
Proof. induction 1 as [| x l Hx Hl IH]; simpl; [done | by rewrite Hx]. Qed.

(** What loading the script leaves on such a page. *)
Lemma script_list_page root d0 :
  list_page d0 ->
  let rows := map el_id (querySelectorAll (has_attr "data-row-select") d0) in
  let p := script root d0 in
  p_rowBoxes p = rows /\ bulk_ok rows (p_dom p) /\
  el_id <$> selectAll (p_dom p) = el_id <$> selectAll d0 /\
  p_on_change p = match selectAll d0 with Some a => [(el_id a, HSelectAll)] | None => [] end
                  ++ map (fun i => (i, HRefreshBulk)) rows.
Proof.
  intros (Hno & Hne & Hsel) rows p. unfold p, script, querySelectorAll. clear p.
  set (d1 := upd root _ d0).
  assert (forall q, (forall e c, q (set_classes c e) = q e) -> List.filter q d1 =
            update_where (fun e => Nat.eqb (el_id e) root)
              (fun e => set_classes (add_class "js" (classes e)) e) (List.filter q d0)) as Hf.
  { intros q Hq. unfold d1, upd. apply filter_update. intros e. apply Hq. }
  assert (el_id <$> selectAll d1 = el_id <$> selectAll d0) as Hid
    by (unfold d1, upd; by rewrite selectAll_id_upd).
  assert (forall q, (forall e c, q (set_classes c e) = q e) ->
            Forall (fun e => q e = false) d0 -> List.filter q d1 = []) as Hnone.
  { intros q Hq Hall. rewrite Hf, filter_none by done. done. }
  rewrite (Hnone (has_attr "data-show-when")) by
    (done || (eapply Forall_impl; [exact Hno | naive_solver])).
  cbn [flat_map map fold_left app].
  rewrite (Hnone (input_named "mode")) by
    (done || (eapply Forall_impl; [exact Hno | naive_solver])).
  cbn [flat_map map fold_left app].
  rewrite (Hnone (input_named "ca_kind")) by
    (done || (eapply Forall_impl; [exact Hno | naive_solver])).
  cbn [flat_map map fold_left app].
  rewrite !(Hf (has_attr "data-row-select")) by done.
  rewrite map_update_where by done. fold (querySelectorAll (has_attr "data-row-select") d0). fold rows.
  assert (forall A (x y : A), match rows with [] => x | _ => y end = y) as Hrows.
  { intros A x y. unfold rows. destruct (querySelectorAll _ d0); done. }
  rewrite Hrows. cbn [p_rowBoxes p_dom p_on_change]. split; [done |]. split; [| split].
  - apply refreshBulk_ok. by eapply selectAll_id_transfer.
  - by rewrite selectAll_id_refresh.
  - destruct (selectAll d1), (selectAll d0); simplify_eq/=; done || congruence.
Qed.

(** What holds of the list page between two events. *)
Definition list_inv (d0 : dom) (p : page) : Prop :=
  let rows := map el_id (querySelectorAll (has_attr "data-row-select") d0) in
  p_rowBoxes p = rows /\ bulk_ok rows (p_dom p) /\
  el_id <$> selectAll (p_dom p) = el_id <$> selectAll d0 /\
  p_on_change p = match selectAll d0 with Some a => [(el_id a, HSelectAll)] | None => [] end
                  ++ map (fun i => (i, HRefreshBulk)) rows.

Definition toggle (e : el) : el := set_indeterminate false (set_checked (negb (checked e)) e).

(** Ticking a box that no bulk listener watches. *)
Lemma bulk_ok_other rows i d :
  i ∉ rows -> Some i <> el_id <$> selectAll d -> bulk_ok rows d -> bulk_ok rows (upd i toggle d).
Proof.
  intros Hi Hsel (Hc & Hb & Hs). unfold bulk_ok.
  rewrite checked_rows_upd by (done || by right). unfold upd.
  rewrite bulkCount_upd, bulkBar_upd, selectAll_upd by done. split_and!; intros e He.
  - destruct (bulkCount d) as [e0 |]; [| done]. injection He as <-.
    specialize (Hc e0 eq_refl). by destruct (Nat.eqb (el_id e0) i).
  - destruct (bulkBar d) as [e0 |]; [| done]. injection He as <-.
    specialize (Hb e0 eq_refl). by destruct (Nat.eqb (el_id e0) i).
  - destruct (selectAll d) as [e0 |]; [| done]. injection He as <-.
    destruct (Nat.eqb_spec (el_id e0) i); [simpl in Hsel; congruence | by apply Hs].
Qed.

Lemma change_handlers_list d0 i p :
  list_page d0 -> list_inv d0 p ->
  Forall (bulk_handler d0) (change_handlers i (p_on_change p)) /\
  (change_handlers i (p_on_change p) = [] ->
   i ∉ p_rowBoxes p /\ Some i <> el_id <$> selectAll d0).
Proof.
  intros Hpage (Hrows & _ & _ & Hls). rewrite Hls, Hrows. clear Hls Hrows.
  set (rows := map el_id _). unfold change_handlers. split.
  - rewrite Forall_forall. intros h Hh. apply list_elem_of_fmap in Hh as ([j h'] & -> & Hin).
    apply list_elem_of_In, List.filter_In in Hin as [Hin _].
    apply list_elem_of_In in Hin. apply elem_of_app in Hin as [Hin | Hin].
    + destruct (selectAll d0) eqn:Ha; [| by apply not_elem_of_nil in Hin].
      apply list_elem_of_singleton in Hin as [= -> ->]. right. eauto.
    + apply list_elem_of_fmap in Hin as (? & [= -> ->] & _). by left.
  - intros Hnil. apply map_eq_nil in Hnil. rewrite List.filter_app in Hnil.
    apply app_eq_nil in Hnil as [H1 H2]. split.
    + intros Hin. assert ((i, HRefreshBulk) ∈ ([] : list (nat * handler))) as Hbad.
      { rewrite <- H2. apply list_elem_of_In, List.filter_In. simpl. rewrite Nat.eqb_refl.
        split; [| done]. apply List.in_map_iff. exists i. split; [done | by apply list_elem_of_In]. }
      by apply not_elem_of_nil in Hbad.
    + intros Heq. destruct (selectAll d0); [| done]. injection Heq as ->.
      simpl in H1. by rewrite Nat.eqb_refl in H1.
Qed.

Lemma list_inv_toggle css br d0 i p :
  list_page d0 -> list_inv d0 p -> list_inv d0 (fst (dispatch css br (EToggle i) p)).
Proof.
  intros Hpage Hinv. destruct (change_handlers_list d0 i p Hpage Hinv) as [Hhs Hnil].
  destruct Hinv as (Hrows & Hok & Hid & Hls). unfold list_inv. simpl.
  split; [done |]. split; [| split; [| done]].
  all: change (fun e => set_indeterminate false (set_checked (negb (checked e)) e)) with toggle.
  all: set (d1 := upd i toggle (p_dom p)).
  all: assert (el_id <$> selectAll d1 = el_id <$> selectAll d0) as Hid1
         by (unfold d1, upd; by rewrite selectAll_id_upd).
  all: destruct Hpage as (_ & _ & Hsel); rewrite Hrows; set (rows := map el_id _) in *.
  all: destruct (bulk_handlers_run rows (change_handlers i (p_on_change p)) d1) as [Hrun1 Hrun2];
         [by eapply selectAll_id_transfer
         | eapply Forall_impl; [exact Hhs |]; intros h Hh; by eapply bulk_handler_transfer |].
  - apply Hrun1. destruct (change_handlers i (p_on_change p)) eqn:E; [right | by left].
    destruct (Hnil eq_refl) as [Hn1 Hn2]. apply bulk_ok_other; [by rewrite <- Hrows | congruence | done].
  - congruence.
Qed.

(** C39. whatever boxes of the certificate list the user ticks or unticks, in
    any order, the bulk bar tells the truth: the count shown is the number of
    ticked rows, the bar is hidden exactly when there is none, and the
    select-all box is checked when all rows are and indeterminate when only
    some are. *)
Theorem bulk_bar_consistent css br root d0 boxes :
  list_page d0 ->
  bulk_ok (map el_id (querySelectorAll (has_attr "data-row-select") d0))
          (p_dom (dispatch_all css br (map EToggle boxes) (script root d0))).
Proof.
  intros Hpage.
  assert (list_inv d0 (script root d0)) as Hinv by (by apply script_list_page).
  revert Hinv. generalize (script root d0). induction boxes as [| i boxes IH]; intros p Hinv.
  - by apply Hinv.
  - cbn [dispatch_all map]. apply IH. by apply (list_inv_toggle css br).
Qed.

(** A certificate list with two rows, a select-all box and the bulk bar. *)
Definition plain (i : nat) (t : string) (ats : list (string * string)) : el :=
  mkEl i t ats [] [] None "" false false false false.
Definition sample_list : dom :=
  [plain 0 "html" []; plain 1 "div" [("data-bulk-bar", "")%string];
   plain 2 "span" [("data-bulk-count", "")%string]; plain 3 "input" [("data-select-all", "")%string];
   plain 4 "input" [("data-row-select", "")%string]; plain 5 "input" [("data-row-select", "")%string]].
Definition quiet_browser : browser := mkBrowser true true true (ExecReturns true) (fun _ => false).
Definition by_id (sel : string) (d : dom) : option el :=
  querySelector (fun e => attr_is "id" sel e) d.

Lemma sample_list_page : list_page sample_list.
Proof.
  split; [repeat constructor |]. split; [done |]. intros a [= <-]. set_solver.
Qed.

Lemma bulk_bar_consistent_witness :
  bulk_ok [4; 5] (p_dom (dispatch_all by_id quiet_browser (map EToggle [4; 5; 3; 4]) (script 0 sample_list))) /\
  checked_rows [4; 5] (p_dom (dispatch_all by_id quiet_browser (map EToggle [4; 5; 3; 4]) (script 0 sample_list))) = 1.
Proof.
  split; [| reflexivity].
  exact (bulk_bar_consistent by_id quiet_browser 0 sample_list [4; 5; 3; 4] sample_list_page).
Defined.

(** ** The mode switch *)

(** Document order puts outer sections before the sections they contain. *)
Definition tree_order (d : dom) : Prop :=
  ForallOrdPairs (fun s1 s2 => forall f, f ∈ d -> is_inside (el_id s1) f = true ->
                    is_inside (el_id s2) f = true -> is_inside (el_id s1) s2 = true) d.

(** A section nested in a hidden section is hidden in that mode as well. *)
Definition nesting_coherent (mode : string) (d : dom) : Prop :=
  forall s1 s2, s1 ∈ d -> s2 ∈ d -> has_attr "data-mode" s1 = true -> has_attr "data-mode" s2 = true ->
    is_inside (el_id s1) s2 = true -> mode_hides mode s1 = true -> mode_hides mode s2 = true.

(** What one section's turn does to one element. *)
Definition sec_effect (hide : bool) (i : nat) (f : el) : el :=
  let f1 := if Nat.eqb (el_id f) i then set_hidden hide f else f in
  if is_field f1 && is_inside i f1 then set_disabled hide f1 else f1.

Lemma set_section_map hide i d : set_section hide i d = map (sec_effect hide i) d.
Proof. unfold set_section, upd_all, upd, update_where. by rewrite List.map_map. Qed.

Lemma fold_sections (h : el -> bool) secs d :
  fold_left (fun d e => set_section (h e) (el_id e) d) secs d =
  map (fun f => fold_left (fun f e => sec_effect (h e) (el_id e) f) secs f) d.
Proof.
  revert d. induction secs as [| s secs IH]; intros d; simpl.
  - symmetry. apply List.map_id.
  - by rewrite IH, set_section_map, List.map_map.
Qed.

(** The value the last of the sections picked by [p] leaves. *)
Definition last_word (p h : el -> bool) (secs : list el) (b : bool) : bool :=
  fold_left (fun b e => if p e then h e else b) secs b.

Lemma sec_effects (h : el -> bool) secs f :
  let f' := fold_left (fun f e => sec_effect (h e) (el_id e) f) secs f in
  el_id f' = el_id f /\ attrs f' = attrs f /\ tag f' = tag f /\ ancestors f' = ancestors f /\
  hidden f' = last_word (fun e => Nat.eqb (el_id f) (el_id e)) h secs (hidden f) /\
  disabled f' = last_word (fun e => is_field f && is_inside (el_id e) f) h secs (disabled f).
Proof.
  induction secs as [| s secs IH] using rev_ind; [done |].
  unfold last_word in *. rewrite !fold_left_app. simpl in *.
  set (f0 := fold_left _ secs f) in *. destruct IH as (Hid & Hat & Htag & Han & Hh & Hd).
  unfold sec_effect, is_field, tag_is, is_inside. rewrite Hid.
  destruct (Nat.eqb (el_id f) (el_id s)) eqn:E; simpl; rewrite Htag, Han;
    destruct (_ && _) eqn:E2; simpl; by rewrite ?Hid, ?E, ?E2.
Qed.

Lemma last_word_coherent (p h : el -> bool) secs b :
  ForallOrdPairs (fun s1 s2 => p s1 = true -> p s2 = true -> h s1 = true -> h s2 = true) secs ->
  last_word p h secs b = if existsb p secs then existsb (fun e => p e && h e) secs else b.
Proof.
  revert b. induction secs as [| s secs IH]; intros b Hord; [done |].
  inversion Hord as [| ? ? Hs Hrest]; subst. unfold last_word in *. simpl. rewrite IH by done.
  destruct (p s) eqn:Hp; simpl; [| done].
  destruct (existsb p secs) eqn:Hex.
  - destruct (h s) eqn:Hh; [| done]. simpl. apply existsb_exists in Hex as (s2 & Hin & Hp2).
    apply existsb_exists. exists s2. split; [done |]. rewrite Hp2. simpl.
    rewrite List.Forall_forall in Hs. by apply Hs.
  - enough (existsb (fun e => p e && h e) secs = false) as -> by (by rewrite orb_false_r).
    apply not_true_is_false. intros Hc. apply existsb_exists in Hc as (s2 & Hin & Hp2).
    apply andb_true_iff in Hp2 as [Hp2 _]. rewrite <- not_true_iff_false in Hex. apply Hex.
    apply existsb_exists. eauto.
Qed.

Lemma ForallOrdPairs_filter {A} (R Q : A -> A -> Prop) (p : A -> bool) l :
  ForallOrdPairs R l ->
  (forall x y, x ∈ l -> y ∈ l -> p x = true -> p y = true -> R x y -> Q x y) ->
  ForallOrdPairs Q (List.filter p l).
Proof.
  induction 1 as [| x l Hx Hl IH]; intros HQ; [constructor |]. simpl.
  assert (ForallOrdPairs Q (List.filter p l)) as Hrest.
  { apply IH. intros y z Hy Hz. apply HQ; by constructor. }
  destruct (p x) eqn:Hp; [| done]. constructor; [| done].
  rewrite List.Forall_forall in Hx |- *. intros y Hy. apply List.filter_In in Hy as [Hy Hpy].
  apply HQ; [by constructor | constructor; by apply list_elem_of_In | done | done | by apply Hx].
Qed.

Lemma last_word_unique (p h : el -> bool) secs b :
  ForallOrdPairs (fun s1 s2 => p s1 = true -> p s2 = false) secs ->
  last_word p h secs b = if existsb p secs then existsb (fun e => p e && h e) secs else b.
Proof.
  intros H. apply last_word_coherent.
  induction H as [| s secs Hs Hsecs IH]; constructor; [| done].
  eapply Forall_impl; [exact Hs |]. simpl. intros s2 H12 H1 H2. specialize (H12 H1). congruence.
Qed.

Lemma NoDup_ordpairs {A B} (g : A -> B) l :
  NoDup (map g l) -> ForallOrdPairs (fun x y => g x <> g y) l.
Proof.
  induction l as [| x l IH]; intros H; [constructor |].
  simpl in H. apply NoDup_cons in H as [Hx Hl]. constructor; [| by apply IH].
  apply List.Forall_forall. intros y Hy Heq. apply Hx. rewrite Heq.
  by apply list_elem_of_fmap_2, list_elem_of_In.
Qed.

Lemma existsb_filter {A} (p q : A -> bool) l :
  existsb (fun x => p x && q x) l = existsb q (List.filter p l).
Proof. induction l as [| x l IH]; simpl; [done |]. rewrite IH. by destruct (p x). Qed.

Lemma existsb_nil {A} (p : A -> bool) l : existsb p l = negb (match List.filter p l with [] => true | _ => false end).
Proof. induction l as [| x l IH]; simpl; [done |]. destruct (p x); [done | exact IH]. Qed.

Lemma existsb_andb_true {A} (p : A -> bool) l : existsb (fun x => p x && true) l = existsb p l.
Proof. induction l as [| x l IH]; simpl; [done |]. by rewrite IH, andb_true_r. Qed.

(** The sections of the mode switch that contain an element. *)
Definition sections_of (d : dom) (f : el) : list el :=
  List.filter (fun s => is_inside (el_id s) f) (querySelectorAll (has_attr "data-mode") d).

Lemma hidden_word (mode : string) d f :
  NoDup (map el_id d) -> f ∈ d ->
  last_word (fun e => Nat.eqb (el_id f) (el_id e)) (mode_hides mode)
            (querySelectorAll (has_attr "data-mode") d) (hidden f) =
  if has_attr "data-mode" f then mode_hides mode f else hidden f.
Proof.
  intros Hnd Hf. rewrite last_word_unique.
  2:{ eapply ForallOrdPairs_filter; [by apply (NoDup_ordpairs el_id) |].
      intros x y _ _ _ _ Hne Hx. apply Nat.eqb_eq in Hx. apply Nat.eqb_neq. congruence. }
  assert (forall h : el -> bool,
    existsb (fun e => Nat.eqb (el_id f) (el_id e) && h e) (querySelectorAll (has_attr "data-mode") d) =
    has_attr "data-mode" f && h f) as Hex.
  { intros h. apply eq_true_iff_eq. rewrite existsb_exists, andb_true_iff. split.
    - intros (s & Hin & Hs). apply List.filter_In in Hin as [Hin Hat].
      apply andb_true_iff in Hs as [Hid Hh]. apply Nat.eqb_eq in Hid.
      assert (f = s) as ->; [| done].
      eapply (NoDup_map_inj el_id d); [done | done | by apply list_elem_of_In | done].
    - intros [Hat Hh]. exists f. rewrite Nat.eqb_refl. split; [| done].
      apply List.filter_In. split; [by apply list_elem_of_In | done]. }
  rewrite Hex. pose proof (Hex (fun _ => true)) as Hex1. rewrite andb_true_r in Hex1.
  rewrite existsb_andb_true in Hex1. rewrite Hex1. by destruct (has_attr "data-mode" f).
Qed.

Lemma disabled_word (mode : string) d f :
  tree_order d -> nesting_coherent mode d -> f ∈ d ->
  last_word (fun e => is_field f && is_inside (el_id e) f) (mode_hides mode)
            (querySelectorAll (has_attr "data-mode") d) (disabled f) =
  match sections_of d f with
  | [] => disabled f
  | secs => if is_field f then existsb (mode_hides mode) secs else disabled f
  end.
Proof.
  intros Htree Hcoh Hf. rewrite last_word_coherent.
  2:{ eapply ForallOrdPairs_filter; [exact Htree |].
      intros x y Hx Hy Hax Hay Hin Hpx Hpy.
      apply andb_true_iff in Hpx as [_ Hpx]. apply andb_true_iff in Hpy as [_ Hpy].
      apply (Hcoh x y); [done.. | by apply (Hin f)]. }
  unfold sections_of. destruct (is_field f); simpl.
  - rewrite existsb_filter, existsb_nil. by destruct (List.filter _ (querySelectorAll _ d)).
  - destruct (existsb (fun _ => false) _) eqn:Hc; [by apply existsb_exists in Hc as (? & _ & ?) |].
    by destruct (List.filter _ _).
Qed.

(** choosing a mode shows exactly the sections that name it, and a field
    inside such sections is disabled, so that the browser does not submit it,
    exactly when one of the sections around it is hidden.  The page's tree must
    be laid out in document order and an inner section of a hidden section must
    be hidden too; without the latter the innermost section decides. *)
Theorem applyMode_spec d m f :
  NoDup (map el_id d) -> tree_order d ->
  querySelector (fun e => input_named "mode" e && checked e) d = Some m ->
  nesting_coherent (val m) d -> f ∈ d ->
  exists f', get (applyMode d) (el_id f) = Some f' /\
    hidden f' = (if has_attr "data-mode" f then mode_hides (val m) f else hidden f) /\
    disabled f' = match sections_of d f with
                  | [] => disabled f
                  | secs => if is_field f then existsb (mode_hides (val m)) secs else disabled f
                  end.
Proof.
  intros Hnd Htree Hm Hcoh Hf. unfold applyMode. rewrite Hm, fold_sections.
  set (g := fun f0 => fold_left _ _ f0). exists (g f). split.
  - unfold get. assert (forall x, el_id (g x) = el_id x) as Hid by (intros x; apply sec_effects).
    clearbody g. clear -Hf Hnd Hid. induction d as [| e d IH]; [by apply not_elem_of_nil in Hf |].
    simpl in *. apply NoDup_cons in Hnd as [He Hnd]. rewrite Hid.
    apply elem_of_cons in Hf as [<- | Hf]; [by rewrite Nat.eqb_refl |].
    destruct (Nat.eqb_spec (el_id e) (el_id f)) as [Heq |]; [| by apply IH].
    exfalso. apply He. rewrite Heq. by apply list_elem_of_fmap_2.
  - destruct (sec_effects (mode_hides (val m)) (querySelectorAll (has_attr "data-mode") d) f)
      as (_ & _ & _ & _ & Hh & Hd).
    unfold g. rewrite Hh, Hd. split; [by apply hidden_word | by apply disabled_word].
Qed.

(** The upload form: two modes, one section nested in another. *)
Definition field (i : nat) (anc : list nat) : el :=
  mkEl i "input" [("name", "pem")%string] anc [] (Some "") "" false false false false.
Definition sample_import : dom :=
  [mkEl 1 "input" [("name", "mode"); ("type", "radio")]%string [] [] (Some "pem") "" true false false false;
   mkEl 2 "input" [("name", "mode"); ("type", "radio")]%string [] [] (Some "pfx") "" false false false false;
   plain 3 "div" [("data-mode", "pem pfx")%string];
   mkEl 4 "div" [("data-mode", "pfx")%string] [3] [] None "" false false false false;
   field 5 [4; 3]; field 6 [3]].

Lemma applyMode_spec_witness :
  exists f', get (applyMode sample_import) 5 = Some f' /\ hidden f' = false /\ disabled f' = true.
Proof.
  exact (applyMode_spec sample_import (nth 0 sample_import (plain 0 "" [])) (field 5 [4; 3])
    ltac:(by apply (bool_decide_unpack _); vm_compute)
    ltac:(repeat constructor; intros f Hf; repeat (apply elem_of_cons in Hf as [-> | Hf]; [done |]);
          by apply not_elem_of_nil in Hf)
    eq_refl
    ltac:(intros s1 s2 H1 H2; repeat (apply elem_of_cons in H1 as [-> | H1]; [
            repeat (apply elem_of_cons in H2 as [-> | H2]; [done |]); by apply not_elem_of_nil in H2 |]);
          by apply not_elem_of_nil in H1)
    ltac:(set_solver)).
Defined.

(** ** Sections that follow a control *)

Lemma get_map (g : el -> el) d i :
  (forall e, el_id (g e) = el_id e) -> get (map g d) i = g <$> get d i.
Proof.
  intros Hg. unfold get. induction d as [| e d IH]; [done |]. simpl. rewrite Hg.
  by destruct (Nat.eqb (el_id e) i).
Qed.

(** after the listener of a [data-show-when] section ran, the section is
    visible exactly when the control it names has one of the listed values,
    every field in it is disabled exactly when it is hidden, and no other
    element changed. *)
Theorem apply_show_spec d i s f :
  get d i = Some s -> get d (el_id f) = Some f ->
  exists f', get (apply_show i d) (el_id f) = Some f' /\
    hidden f' = (if Nat.eqb (el_id f) i then negb (show_wanted d s) else hidden f) /\
    disabled f' = (if is_field f && is_inside i f then negb (show_wanted d s) else disabled f) /\
    value f' = value f /\ checked f' = checked f.
Proof.
  intros Hs Hf. unfold apply_show. rewrite Hs, set_section_map.
  exists (sec_effect (negb (show_wanted d s)) i f).
  rewrite get_map, Hf; [split; [done |] |].
  - unfold sec_effect, is_field, tag_is, is_inside.
    destruct (Nat.eqb (el_id f) i); simpl; by destruct (_ && _).
  - intros e. unfold sec_effect. destruct (Nat.eqb (el_id e) i); by destruct (_ && _).
Qed.

(** The new-secret form: the certificate picker follows the type. *)
Definition sample_secret : dom :=
  [mkEl 1 "form" [] [] [] None "" false false false false;
   mkEl 2 "select" [("name", "type")%string] [1] [] (Some "opaque") "" false false false false;
   mkEl 3 "div" [("data-show-when", "type=certificate")%string] [1] [] None "" false false false false;
   mkEl 4 "select" [("name", "cert")%string] [3; 1] [] (Some "7") "" false false false false].

Lemma apply_show_spec_witness :
  exists f', get (apply_show 3 sample_secret) 4 = Some f' /\ hidden f' = false /\ disabled f' = true /\
    value f' = Some "7"%string /\ checked f' = false.
Proof.
  exact (apply_show_spec sample_secret 3 (nth 2 sample_secret (plain 0 "" []))
           (nth 3 sample_secret (plain 0 "" [])) eq_refl eq_refl).
Defined.

(** ** Copy buttons *)

Section copy_label.
Context (css : string -> dom -> option el) (br : browser).
Context (Hclip : has_clipboard br = true) (Hsec : isSecureContext br = true)
        (Hok : writeText_ok br = true).

Definition copyable (p : page) (b : el) : Prop :=
  forall sel, getAttribute "data-copy" b = Some sel -> is_Some (css sel (p_dom p)).

Lemma click_copies i b p :
  p_on_click p = [] -> get (p_dom p) i = Some b -> copyable p b ->
  is_Some (getAttribute "data-copy" b) ->
  exists text, fst (dispatch css br (EClick i) p) = copy_done i (with_clipboard (Some text) p).
Proof.
  intros Hl Hb Hcss [sel Hsel]. simpl. rewrite Hb, Hl. simpl.
  destruct (get_Some _ _ _ Hb) as [Hid _].
  unfold copy_click, closest, first_match. rewrite Hid, Hb.
  unfold has_attr. rewrite Hsel. simpl. rewrite Hsel.
  destruct (Hcss _ Hsel) as [e He]. rewrite He, Hclip, Hsec, Hok, Hid. simpl. eauto.
Qed.

Lemma copy_done_get i b p :
  get (p_dom p) i = Some b ->
  get (p_dom (copy_done i p)) i = Some (set_text "copied" b) /\
  p_timers (copy_done i p) = p_timers p ++ [mkTimer (p_time p + 1400) i (textContent b)] /\
  p_time (copy_done i p) = p_time p /\ p_on_click (copy_done i p) = p_on_click p.
Proof. intros Hb. unfold copy_done. rewrite Hb. simpl. by rewrite get_upd, Hb. Qed.

(** One click on a copy button says "copied", and once 1400 ms have
    passed the label is what it was. *)
Theorem copy_label_restored i b p dt :
  p_on_click p = [] -> p_timers p = [] -> get (p_dom p) i = Some b -> copyable p b ->
  is_Some (getAttribute "data-copy" b) -> (1400 <= dt)%Z ->
  let p1 := fst (dispatch css br (EClick i) p) in
  let p2 := fst (dispatch css br (ETime dt) p1) in
  textContent <$> get (p_dom p1) i = Some "copied"%string /\
  textContent <$> get (p_dom p2) i = Some (textContent b) /\ p_timers p2 = [].
Proof.
  intros Hl Ht Hb Hcss Hat Hdt.
  destruct (click_copies i b p Hl Hb Hcss Hat) as [text Hclick].
  cbv zeta. rewrite Hclick.
  destruct (copy_done_get i b (with_clipboard (Some text) p) Hb) as (Hg & Htm & Htime & _).
  unfold dispatch, advance. rewrite Hg, Htm, Htime. simpl. rewrite Ht. simpl.
  rewrite (proj2 (Z.leb_le _ _)) by lia. simpl. unfold fire. simpl.
  by rewrite get_upd, Hg.
Qed.

(** Two clicks less than 1400 ms apart leave the label at "copied" for good:
    the second listener saves the label the first one put there. *)
Lemma copy_label_stuck i b p dt1 dt2 :
  p_on_click p = [] -> p_timers p = [] -> get (p_dom p) i = Some b ->
  (forall d, is_Some (getAttribute "data-copy" b) -> is_Some (css (default "" (getAttribute "data-copy" b)) d)) ->
  is_Some (getAttribute "data-copy" b) -> (0 <= dt1 < 1400)%Z -> (1400 <= dt2)%Z ->
  let p1 := fst (dispatch css br (ETime dt1) (fst (dispatch css br (EClick i) p))) in
  let p2 := fst (dispatch css br (ETime dt2) (fst (dispatch css br (EClick i) p1))) in
  textContent <$> get (p_dom p2) i = Some "copied"%string /\ p_timers p2 = [].
Proof.
  intros Hl Ht Hb Hcss Hat Hdt1 Hdt2.
  assert (forall q, copyable q b) as Hc by (intros q sel Hs; specialize (Hcss (p_dom q) Hat); by rewrite Hs in Hcss).
  destruct (click_copies i b p Hl Hb (Hc _) Hat) as [text Hclick].
  destruct (copy_done_get i b (with_clipboard (Some text) p) Hb) as (Hg & Htm & Htime & Hlc).
  cbv zeta. rewrite Hclick. set (q := copy_done i _) in *.
  assert (fst (dispatch css br (ETime dt1) q) =
          mkPage (p_dom q) (p_time q + dt1) (p_timers q) (p_clipboard q) (p_focus q)
                 (p_rowBoxes q) (p_on_change q) (p_on_click q)) as ->.
  { simpl. unfold advance. rewrite Htm. simpl. rewrite Ht. simpl. rewrite Htime. simpl.
    by rewrite (proj2 (Z.leb_gt _ _)) by lia. }
  set (q1 := mkPage _ _ _ _ _ _ _ _).
  destruct (click_copies i (set_text "copied" b) q1) as [text2 Hclick2];
    [by rewrite <- Hl | done | exact (Hc q1) | done |].
  destruct (copy_done_get i (set_text "copied" b) (with_clipboard (Some text2) q1) Hg)
    as (Hg2 & Htm2 & Htime2 & _).
  rewrite Hclick2. set (q2 := copy_done i (with_clipboard (Some text2) q1)) in *.
  clearbody q2. unfold dispatch, advance. rewrite Htm2, Htime2. simpl.
  rewrite Htm. simpl. rewrite Ht. simpl. rewrite Htime. simpl.
  rewrite !(proj2 (Z.leb_le _ _)) by lia. simpl. unfold fire. simpl.
  rewrite !get_upd, Hg2 by done. done.
Qed.
End copy_label.

Definition sample_copy : page :=
  mkPage [mkEl 1 "button" [("data-copy", "cli")%string] [] [] (Some "") "copy" false false false false;
          mkEl 2 "pre" [("id", "cli")%string] [] [] None "goca get secret" false false false false]
         0 [] None None [] [] [].

Lemma copy_label_restored_witness :
  textContent <$> get (p_dom (fst (dispatch by_id quiet_browser (ETime 1400)
    (fst (dispatch by_id quiet_browser (EClick 1) sample_copy))))) 1 = Some "copy"%string.
Proof.
  refine (proj1 (proj2 (copy_label_restored by_id quiet_browser eq_refl eq_refl eq_refl 1
    (nth 0 (p_dom sample_copy) (plain 0 "" [])) sample_copy 1400 eq_refl eq_refl eq_refl
    _ ltac:(by eexists) ltac:(lia)))).
  intros sel [= <-]. by eexists.
Defined.

(** ** Confirmations *)

(** A destructive form is submitted, and a destructive link followed, only
    after the user said yes to its own message. *)
Lemma confirm_gates css br p i e msg :
  get (p_dom p) i = Some e -> getAttribute "data-confirm" e = Some msg -> msg <> EmptyString ->
  snd (dispatch css br (ESubmit i) p) = negb (confirms br msg) /\
  (tag e = "a"%string -> confirm_link br (p_dom p) e = negb (confirms br msg)).
Proof.
  intros He Hmsg Hne. simpl. rewrite He. split.
  - simpl. unfold confirm_submit. rewrite Hmsg. by destruct (String.eqb_spec msg "").
  - intros Htag. unfold confirm_link, closest, first_match.
    destruct (get_Some _ _ _ He) as [-> _]. rewrite He. unfold has_attr, tag_is.
    rewrite Htag, Hmsg. simpl. by rewrite Hmsg.
Qed.

End Portal.
