(* ===== verification/Models.v ===== *)
(** * The rows of the database (internal/store/models.go, acme.go)

    One module per struct, named as in Go, its fields named as in Go, so that
    [c.Status] reads [CA.Status c].  A [time.Time] is a [Z]: nanoseconds since
    Go's zero Time, so that [0] is the zero Time; a pointer is an [option].
    Columns that hold JSON (SANs, labels, identifiers, contacts, domain lists)
    are held decoded.  Rows the struct leaves out a column of (claimed_at of a
    delivery, the issuer of a CA revocation) have it here. *)

From S2P Require Import Prelude.

#[local] Set Primitive Projections.

(** models.go: CA *)
Module CA.
Record t := mk {
  ID : Z; Name : string; Slug : string; Subject : string; SubjectJSON : string;
  SerialHex : string; KeyType : string; CertPEM : string; KeyEnc : string; CSRPEM : string;
  IsRoot : bool; ParentID : option Z; PathLen : Z; NotBefore : Z; NotAfter : Z; Status : string;
  CRLNumber : Z; Fingerprint : string; IsDefault : bool; CreatedBy : string; CreatedAt : Z;
  LastCRLAt : option Z; External : bool; SubjectKeyID : string; AuthorityKeyID : string }.
Definition set_ID (v : Z) (c : t) : t :=
  mk v (Name c) (Slug c) (Subject c) (SubjectJSON c) (SerialHex c) (KeyType c) (CertPEM c)
  (KeyEnc c) (CSRPEM c) (IsRoot c) (ParentID c) (PathLen c) (NotBefore c) (NotAfter c) (Status c)
  (CRLNumber c) (Fingerprint c) (IsDefault c) (CreatedBy c) (CreatedAt c) (LastCRLAt c)
  (External c) (SubjectKeyID c) (AuthorityKeyID c).
Definition set_Name (v : string) (c : t) : t :=
  mk (ID c) v (Slug c) (Subject c) (SubjectJSON c) (SerialHex c) (KeyType c) (CertPEM c)
  (KeyEnc c) (CSRPEM c) (IsRoot c) (ParentID c) (PathLen c) (NotBefore c) (NotAfter c) (Status c)
  (CRLNumber c) (Fingerprint c) (IsDefault c) (CreatedBy c) (CreatedAt c) (LastCRLAt c)
  (External c) (SubjectKeyID c) (AuthorityKeyID c).
Definition set_Slug (v : string) (c : t) : t :=
  mk (ID c) (Name c) v (Subject c) (SubjectJSON c) (SerialHex c) (KeyType c) (CertPEM c)
  (KeyEnc c) (CSRPEM c) (IsRoot c) (ParentID c) (PathLen c) (NotBefore c) (NotAfter c) (Status c)
  (CRLNumber c) (Fingerprint c) (IsDefault c) (CreatedBy c) (CreatedAt c) (LastCRLAt c)
  (External c) (SubjectKeyID c) (AuthorityKeyID c).
Definition set_IsRoot (v : bool) (c : t) : t :=
  mk (ID c) (Name c) (Slug c) (Subject c) (SubjectJSON c) (SerialHex c) (KeyType c) (CertPEM c)
  (KeyEnc c) (CSRPEM c) v (ParentID c) (PathLen c) (NotBefore c) (NotAfter c) (Status c)
  (CRLNumber c) (Fingerprint c) (IsDefault c) (CreatedBy c) (CreatedAt c) (LastCRLAt c)
  (External c) (SubjectKeyID c) (AuthorityKeyID c).
Definition set_ParentID (v : option Z) (c : t) : t :=
  mk (ID c) (Name c) (Slug c) (Subject c) (SubjectJSON c) (SerialHex c) (KeyType c) (CertPEM c)
  (KeyEnc c) (CSRPEM c) (IsRoot c) v (PathLen c) (NotBefore c) (NotAfter c) (Status c)
  (CRLNumber c) (Fingerprint c) (IsDefault c) (CreatedBy c) (CreatedAt c) (LastCRLAt c)
  (External c) (SubjectKeyID c) (AuthorityKeyID c).
Definition set_NotBefore (v : Z) (c : t) : t :=
  mk (ID c) (Name c) (Slug c) (Subject c) (SubjectJSON c) (SerialHex c) (KeyType c) (CertPEM c)
  (KeyEnc c) (CSRPEM c) (IsRoot c) (ParentID c) (PathLen c) v (NotAfter c) (Status c)
  (CRLNumber c) (Fingerprint c) (IsDefault c) (CreatedBy c) (CreatedAt c) (LastCRLAt c)
  (External c) (SubjectKeyID c) (AuthorityKeyID c).
Definition set_NotAfter (v : Z) (c : t) : t :=
  mk (ID c) (Name c) (Slug c) (Subject c) (SubjectJSON c) (SerialHex c) (KeyType c) (CertPEM c)
  (KeyEnc c) (CSRPEM c) (IsRoot c) (ParentID c) (PathLen c) (NotBefore c) v (Status c)
  (CRLNumber c) (Fingerprint c) (IsDefault c) (CreatedBy c) (CreatedAt c) (LastCRLAt c)
  (External c) (SubjectKeyID c) (AuthorityKeyID c).
Definition set_Status (v : string) (c : t) : t :=
  mk (ID c) (Name c) (Slug c) (Subject c) (SubjectJSON c) (SerialHex c) (KeyType c) (CertPEM c)
  (KeyEnc c) (CSRPEM c) (IsRoot c) (ParentID c) (PathLen c) (NotBefore c) (NotAfter c) v
  (CRLNumber c) (Fingerprint c) (IsDefault c) (CreatedBy c) (CreatedAt c) (LastCRLAt c)
  (External c) (SubjectKeyID c) (AuthorityKeyID c).
Definition set_IsDefault (v : bool) (c : t) : t :=
  mk (ID c) (Name c) (Slug c) (Subject c) (SubjectJSON c) (SerialHex c) (KeyType c) (CertPEM c)
  (KeyEnc c) (CSRPEM c) (IsRoot c) (ParentID c) (PathLen c) (NotBefore c) (NotAfter c) (Status c)
  (CRLNumber c) (Fingerprint c) v (CreatedBy c) (CreatedAt c) (LastCRLAt c) (External c)
  (SubjectKeyID c) (AuthorityKeyID c).
Definition set_CreatedAt (v : Z) (c : t) : t :=
  mk (ID c) (Name c) (Slug c) (Subject c) (SubjectJSON c) (SerialHex c) (KeyType c) (CertPEM c)
  (KeyEnc c) (CSRPEM c) (IsRoot c) (ParentID c) (PathLen c) (NotBefore c) (NotAfter c) (Status c)
  (CRLNumber c) (Fingerprint c) (IsDefault c) (CreatedBy c) v (LastCRLAt c) (External c)
  (SubjectKeyID c) (AuthorityKeyID c).
End CA.

(** models.go: Certificate *)
Module Certificate.
Record t := mk {
  ID : Z; CAID : Z; CAName : string; SerialHex : string; CommonName : string; Subject : string;
  SANs_ : list string; Profile : string; KeyType : string; CertPEM : string; KeyEnc : string;
  CSRPEM : string; HasKey : bool; Fingerprint : string; NotBefore : Z; NotAfter : Z;
  Status : string; RevokedAt : option Z; RevokeCode : Z; RequestedBy : string; Note : string;
  CreatedAt : Z; RenewedFrom : option Z }.
Definition set_CAName (v : string) (c : t) : t :=
  mk (ID c) (CAID c) v (SerialHex c) (CommonName c) (Subject c) (SANs_ c) (Profile c) (KeyType c)
  (CertPEM c) (KeyEnc c) (CSRPEM c) (HasKey c) (Fingerprint c) (NotBefore c) (NotAfter c)
  (Status c) (RevokedAt c) (RevokeCode c) (RequestedBy c) (Note c) (CreatedAt c) (RenewedFrom c).
Definition set_HasKey (v : bool) (c : t) : t :=
  mk (ID c) (CAID c) (CAName c) (SerialHex c) (CommonName c) (Subject c) (SANs_ c) (Profile c)
  (KeyType c) (CertPEM c) (KeyEnc c) (CSRPEM c) v (Fingerprint c) (NotBefore c) (NotAfter c)
  (Status c) (RevokedAt c) (RevokeCode c) (RequestedBy c) (Note c) (CreatedAt c) (RenewedFrom c).
Definition set_KeyEnc (v : string) (c : t) : t :=
  mk (ID c) (CAID c) (CAName c) (SerialHex c) (CommonName c) (Subject c) (SANs_ c) (Profile c)
  (KeyType c) (CertPEM c) v (CSRPEM c) (HasKey c) (Fingerprint c) (NotBefore c) (NotAfter c)
  (Status c) (RevokedAt c) (RevokeCode c) (RequestedBy c) (Note c) (CreatedAt c) (RenewedFrom c).
Definition set_RenewedFrom (v : option Z) (c : t) : t :=
  mk (ID c) (CAID c) (CAName c) (SerialHex c) (CommonName c) (Subject c) (SANs_ c) (Profile c)
  (KeyType c) (CertPEM c) (KeyEnc c) (CSRPEM c) (HasKey c) (Fingerprint c) (NotBefore c)
  (NotAfter c) (Status c) (RevokedAt c) (RevokeCode c) (RequestedBy c) (Note c) (CreatedAt c) v.
End Certificate.

(** store.go: CARevocation, with the issuer's id *)
Module CARevocation.
Record t := mk {
  ID : Z; CAID : Z; SerialHex : string; Subject : string; RevokedAt : Z; Reason : Z }.
End CARevocation.

(** models.go: User *)
Module User.
Record t := mk {
  ID : Z; Username : string; Source : string; DisplayName : string; Email : string;
  Role : string; Disabled : bool; PassHash : string; CreatedAt : Z; LastLogin : option Z }.
Definition set_Role (v : string) (c : t) : t :=
  mk (ID c) (Username c) (Source c) (DisplayName c) (Email c) v (Disabled c) (PassHash c)
  (CreatedAt c) (LastLogin c).
Definition set_Disabled (v : bool) (c : t) : t :=
  mk (ID c) (Username c) (Source c) (DisplayName c) (Email c) (Role c) v (PassHash c)
  (CreatedAt c) (LastLogin c).
Definition set_PassHash (v : string) (c : t) : t :=
  mk (ID c) (Username c) (Source c) (DisplayName c) (Email c) (Role c) (Disabled c) v
  (CreatedAt c) (LastLogin c).
Definition set_LastLogin (v : option Z) (c : t) : t :=
  mk (ID c) (Username c) (Source c) (DisplayName c) (Email c) (Role c) (Disabled c) (PassHash c)
  (CreatedAt c) v.
End User.

(** models.go: Session *)
Module Session.
Record t := mk {
  ID : Z; UserID : Z; TokenHash : string; ExpiresAt : Z; CreatedAt : Z; IP : string;
  UserAgent : string }.
End Session.

(** models.go: APIToken *)
Module APIToken.
Record t := mk {
  ID : Z; UserID : Z; Username : string; Name : string; Prefix : string; TokenHash : string;
  Role : string; ExpiresAt : option Z; CreatedAt : Z; LastUsedAt : option Z; Revoked : bool }.
Definition set_Username (v : string) (c : t) : t :=
  mk (ID c) (UserID c) v (Name c) (Prefix c) (TokenHash c) (Role c) (ExpiresAt c) (CreatedAt c)
  (LastUsedAt c) (Revoked c).
Definition set_LastUsedAt (v : option Z) (c : t) : t :=
  mk (ID c) (UserID c) (Username c) (Name c) (Prefix c) (TokenHash c) (Role c) (ExpiresAt c)
  (CreatedAt c) v (Revoked c).
Definition set_Revoked (v : bool) (c : t) : t :=
  mk (ID c) (UserID c) (Username c) (Name c) (Prefix c) (TokenHash c) (Role c) (ExpiresAt c)
  (CreatedAt c) (LastUsedAt c) v.
End APIToken.

(** models.go: AuditEntry *)
Module AuditEntry.
Record t := mk {
  ID : Z; TS : Z; Actor : string; Action : string; Target : string; Detail : string; IP : string }.
End AuditEntry.

(** a row of settings *)
Module Setting.
Record t := mk {
  key : string; value : string }.
End Setting.

(** acme.go: EABCred *)
Module EABCred.
Record t := mk {
  ID : Z; KeyID : string; HMACKeyEnc : string; Name : string; CAID : option Z; Profile : string;
  Days : Z; AllowedDomains : list string; MaxAccounts : Z; AccountCount : Z; Disabled : bool;
  ExpiresAt : option Z; CreatedBy : string; CreatedAt : Z; LastUsedAt : option Z }.
Definition set_AccountCount (v : Z) (c : t) : t :=
  mk (ID c) (KeyID c) (HMACKeyEnc c) (Name c) (CAID c) (Profile c) (Days c) (AllowedDomains c)
  (MaxAccounts c) v (Disabled c) (ExpiresAt c) (CreatedBy c) (CreatedAt c) (LastUsedAt c).
Definition set_Disabled (v : bool) (c : t) : t :=
  mk (ID c) (KeyID c) (HMACKeyEnc c) (Name c) (CAID c) (Profile c) (Days c) (AllowedDomains c)
  (MaxAccounts c) (AccountCount c) v (ExpiresAt c) (CreatedBy c) (CreatedAt c) (LastUsedAt c).
Definition set_LastUsedAt (v : option Z) (c : t) : t :=
  mk (ID c) (KeyID c) (HMACKeyEnc c) (Name c) (CAID c) (Profile c) (Days c) (AllowedDomains c)
  (MaxAccounts c) (AccountCount c) (Disabled c) (ExpiresAt c) (CreatedBy c) (CreatedAt c) v.
End EABCred.

(** acme.go: AcmeAccount *)
Module AcmeAccount.
Record t := mk {
  ID : Z; EABID : Z; JWKJSON : string; JWKThumbprint : string; Contact : list string;
  Status : string; CreatedAt : Z; LastUsedAt : option Z; EABName : string }.
Definition set_Contact (v : list string) (c : t) : t :=
  mk (ID c) (EABID c) (JWKJSON c) (JWKThumbprint c) v (Status c) (CreatedAt c) (LastUsedAt c)
  (EABName c).
Definition set_Status (v : string) (c : t) : t :=
  mk (ID c) (EABID c) (JWKJSON c) (JWKThumbprint c) (Contact c) v (CreatedAt c) (LastUsedAt c)
  (EABName c).
Definition set_LastUsedAt (v : option Z) (c : t) : t :=
  mk (ID c) (EABID c) (JWKJSON c) (JWKThumbprint c) (Contact c) (Status c) (CreatedAt c) v
  (EABName c).
Definition set_EABName (v : string) (c : t) : t :=
  mk (ID c) (EABID c) (JWKJSON c) (JWKThumbprint c) (Contact c) (Status c) (CreatedAt c)
  (LastUsedAt c) v.
End AcmeAccount.

(** acme.go: AcmeIdentifier *)
Module AcmeIdentifier.
Record t := mk {
  Type_ : string; Value : string }.
End AcmeIdentifier.

(** acme.go: AcmeOrder *)
Module AcmeOrder.
Record t := mk {
  ID : Z; AccountID : Z; Status : string; Identifiers : list AcmeIdentifier.t;
  CertificateID : option Z; Error : string; ExpiresAt : Z; CreatedAt : Z; NotAfter : option Z }.
Definition set_Status (v : string) (c : t) : t :=
  mk (ID c) (AccountID c) v (Identifiers c) (CertificateID c) (Error c) (ExpiresAt c)
  (CreatedAt c) (NotAfter c).
Definition set_CertificateID (v : option Z) (c : t) : t :=
  mk (ID c) (AccountID c) (Status c) (Identifiers c) v (Error c) (ExpiresAt c) (CreatedAt c)
  (NotAfter c).
Definition set_Error (v : string) (c : t) : t :=
  mk (ID c) (AccountID c) (Status c) (Identifiers c) (CertificateID c) v (ExpiresAt c)
  (CreatedAt c) (NotAfter c).
End AcmeOrder.

(** a row of acme_nonces *)
Module AcmeNonce.
Record t := mk {
  nonce : string; expires_at : Z }.
End AcmeNonce.

(** a row of auth_failures *)
Module AuthFailure.
Record t := mk {
  ID : Z; key : string; at_ : Z }.
End AuthFailure.

(** acme.go: AcmeAuthorization *)
Module AcmeAuthorization.
Record t := mk {
  ID : Z; OrderID : Z; IdentifierType : string; IdentifierValue : string; Wildcard : bool;
  Status : string; ExpiresAt : Z; CreatedAt : Z }.
End AcmeAuthorization.

(** acme.go: AcmeChallenge *)
Module AcmeChallenge.
Record t := mk {
  ID : Z; AuthorizationID : Z; Type_ : string; Token : string; Status : string;
  ValidatedAt : option Z; CreatedAt : Z }.
End AcmeChallenge.

(** models.go: Secret *)
Module Secret.
Record t := mk {
  ID : Z; Name : string; Type_ : string; Description : string; LabelsJSON : string;
  CertID : option Z; CurrentVersion : Z; RotationDays : Z; Disabled : bool; CreatedBy : string;
  CreatedAt : Z; UpdatedAt : Z }.
Definition set_CurrentVersion (v : Z) (c : t) : t :=
  mk (ID c) (Name c) (Type_ c) (Description c) (LabelsJSON c) (CertID c) v (RotationDays c)
  (Disabled c) (CreatedBy c) (CreatedAt c) (UpdatedAt c).
Definition set_Disabled (v : bool) (c : t) : t :=
  mk (ID c) (Name c) (Type_ c) (Description c) (LabelsJSON c) (CertID c) (CurrentVersion c)
  (RotationDays c) v (CreatedBy c) (CreatedAt c) (UpdatedAt c).
Definition set_UpdatedAt (v : Z) (c : t) : t :=
  mk (ID c) (Name c) (Type_ c) (Description c) (LabelsJSON c) (CertID c) (CurrentVersion c)
  (RotationDays c) (Disabled c) (CreatedBy c) (CreatedAt c) v.
Definition set_Meta (description labels : string) (days updated : Z) (c : t) : t :=
  mk (ID c) (Name c) (Type_ c) description labels (CertID c) (CurrentVersion c) days
  (Disabled c) (CreatedBy c) (CreatedAt c) updated.
End Secret.

(** models.go: SecretVersion *)
Module SecretVersion.
Record t := mk {
  ID : Z; SecretID : Z; Version : Z; PayloadEnc : string; PayloadSHA256 : string; SizeBytes : Z;
  ContentType : string; Destroyed : bool; CreatedBy : string; CreatedAt : Z }.
Definition set_PayloadEnc (v : string) (c : t) : t :=
  mk (ID c) (SecretID c) (Version c) v (PayloadSHA256 c) (SizeBytes c) (ContentType c)
  (Destroyed c) (CreatedBy c) (CreatedAt c).
Definition set_Destroyed (v : bool) (c : t) : t :=
  mk (ID c) (SecretID c) (Version c) (PayloadEnc c) (PayloadSHA256 c) (SizeBytes c)
  (ContentType c) v (CreatedBy c) (CreatedAt c).
End SecretVersion.

(** models.go: SecretBinding *)
Module SecretBinding.
Record t := mk {
  ID : Z; SecretID : Z; SecretName : string; K8sNamespace : string; K8sServiceAccount : string;
  K8sAuthMethod_ : string; ExpiresAt : option Z; CreatedBy : string; CreatedAt : Z }.
Definition set_SecretName (v : string) (c : t) : t :=
  mk (ID c) (SecretID c) v (K8sNamespace c) (K8sServiceAccount c) (K8sAuthMethod_ c)
  (ExpiresAt c) (CreatedBy c) (CreatedAt c).
End SecretBinding.

(** models.go: K8sAuthMethod *)
Module K8sAuthMethod.
Record t := mk {
  ID : Z; Name : string; Audience : string; IssuerURL : string; APIServerURL : string;
  CACert : string; ReviewerTokenEnc : string; InsecureSkipVerify : bool; Disabled : bool;
  CreatedBy : string; CreatedAt : Z; UpdatedAt : Z }.
Definition set_Disabled (v : bool) (updated : Z) (c : t) : t :=
  mk (ID c) (Name c) (Audience c) (IssuerURL c) (APIServerURL c) (CACert c) (ReviewerTokenEnc c)
  (InsecureSkipVerify c) v (CreatedBy c) (CreatedAt c) updated.
End K8sAuthMethod.

(** models.go: Webhook *)
Module Webhook.
Record t := mk {
  ID : Z; Name : string; URL : string; Events : string; SecretEnc : string; Disabled : bool;
  CreatedBy : string; CreatedAt : Z; UpdatedAt : Z }.
Definition set_Disabled (v : bool) (c : t) : t :=
  mk (ID c) (Name c) (URL c) (Events c) (SecretEnc c) v (CreatedBy c) (CreatedAt c) (UpdatedAt c).
Definition set_UpdatedAt (v : Z) (c : t) : t :=
  mk (ID c) (Name c) (URL c) (Events c) (SecretEnc c) (Disabled c) (CreatedBy c) (CreatedAt c) v.
End Webhook.

(** models.go: WebhookDelivery, with the claimed_at column *)
Module WebhookDelivery.
Record t := mk {
  ID : Z; WebhookID : Z; Event : string; Payload : string; Status : string; Attempts : Z;
  LastStatus : Z; LastError : string; NextAttempt : option Z; ClaimedAt : option Z;
  CreatedAt : Z; UpdatedAt : Z }.
Definition set_ClaimedAt (v : option Z) (c : t) : t :=
  mk (ID c) (WebhookID c) (Event c) (Payload c) (Status c) (Attempts c) (LastStatus c)
  (LastError c) (NextAttempt c) v (CreatedAt c) (UpdatedAt c).
End WebhookDelivery.

(** ** Status and role values *)

Definition StatusActive : string := "active".
Definition StatusRevoked : string := "revoked".
Definition StatusExpired : string := "expired".
Definition StatusDisabled : string := "disabled".
Definition StatusPending : string := "pending".

Definition RoleAdmin : string := "admin".
Definition RoleUser : string := "user".

Definition SourceLocal : string := "local".
Definition SourceLDAP : string := "ldap".
Definition SourceOIDC : string := "oidc".

Definition SecretTypeKV : string := "kv".
Definition SecretTypeFile : string := "file".
Definition SecretTypeCertificate : string := "certificate".

Definition WebhookStatusPending : string := "pending".
Definition WebhookStatusDelivered : string := "delivered".
Definition WebhookStatusFailed : string := "failed".
Definition WebhookStatusDead : string := "dead".

Definition AcmeStatusPending : string := "pending".
Definition AcmeStatusProcessing : string := "processing".
Definition AcmeStatusValid : string := "valid".
Definition AcmeStatusInvalid : string := "invalid".
Definition AcmeStatusReady : string := "ready".
Definition AcmeStatusDeactivated : string := "deactivated".
Definition AcmeStatusRevoked : string := "revoked".
Definition AcmeStatusExpired : string := "expired".

(** An int64 wraps around. *)
Definition int64 (n : Z) : Z := (n + 2 ^ 63) mod 2 ^ 64 - 2 ^ 63.

(** ** Times and durations, in nanoseconds *)

Definition Microsecond : Z := 1000.
Definition Millisecond : Z := 1000000.
Definition Second : Z := 1000000000.
Definition Minute : Z := 60 * Second.
Definition Hour : Z := 60 * Minute.
(** [t.AddDate(0, 0, n)] on a UTC time. *)
Definition AddDays (n : Z) (t : Z) : Z := t + n * 24 * Hour.

(** ** Methods of the rows; [now] is [time.Now()] *)

Definition str_is (a b : string) : bool := String.eqb a b.
Definition nonempty (a : string) : bool := negb (String.eqb a "").

Section methods.
Context (now : Z).

Definition CA_Expired (c : CA.t) : bool := (CA.NotAfter c <? now)%Z.
Definition CA_HasKey (c : CA.t) : bool := nonempty (CA.KeyEnc c).
Definition CA_CanIssue (c : CA.t) : bool :=
  CA_HasKey c && str_is (CA.Status c) StatusActive && negb (CA_Expired c) && nonempty (CA.CertPEM c).
Definition CA_Pending (c : CA.t) : bool := str_is (CA.Status c) StatusPending.
Definition CA_Kind (c : CA.t) : string :=
  if CA_Pending c then "pending signature"
  else if negb (CA_HasKey c) then "trust anchor"
  else if CA.IsRoot c then "root"
  else "intermediate".
Definition CA_Origin (c : CA.t) : string := if CA.External c then "imported" else "goca".

Definition OnHold (c : Certificate.t) : bool :=
  str_is (Certificate.Status c) StatusRevoked && (Certificate.RevokeCode c =? 6)%Z.
Definition EffectiveStatus (c : Certificate.t) : string :=
  if str_is (Certificate.Status c) StatusRevoked then StatusRevoked
  else if (Certificate.NotAfter c <? now)%Z then StatusExpired
  else StatusActive.

(** [time.Time.After] and [Before] on a pointer that may be nil. *)
Definition expired_at (o : option Z) : bool :=
  match o with Some e => (e <? now)%Z | None => false end.

Definition IsAdmin (u : option User.t) : bool :=
  match u with Some u => str_is (User.Role u) RoleAdmin | None => false end.

Definition RotationDue (s : Secret.t) : bool :=
  if (Secret.RotationDays s <=? 0)%Z then false
  else (Secret.RotationDays s * 24 * Hour <? now - Secret.UpdatedAt s)%Z.

Definition SecretBinding_Usable (b : SecretBinding.t) : bool :=
  match SecretBinding.ExpiresAt b with None => true | Some e => (now <? e)%Z end.

Definition EABCred_Usable (e : EABCred.t) : bool :=
  if EABCred.Disabled e then false
  else if expired_at (EABCred.ExpiresAt e) then false
  else if (0 <? EABCred.MaxAccounts e)%Z && (EABCred.MaxAccounts e <=? EABCred.AccountCount e)%Z then false
  else true.
End methods.
