(* ===== verification/Schema.v ===== *)
(** * The database and the statements the store runs against it

    [schema] of internal/store/store.go as data: the tables, their UNIQUE
    constraints and their foreign keys.  A [world] is the database shared by
    every replica together with what the server reads from its surroundings:
    the clock, randomness, and which statements the driver fails.  One SQL
    statement, or one transaction, is one action of a program ([sql], [query],
    [tx]): it takes effect as a whole or, when the driver fails it or a
    constraint of the schema would be broken, not at all. *)

From S2P Require Import Prelude GoStrings Effects Models.

(** ** Errors *)

(** A Go error: a sentinel value, a driver error, a constraint violation, a
    formatted message, or another error wrapped with [%w]. *)
Inductive error :=
| Sentinel (name : string)
| Driver (msg : string)
| Constraint (name : string)
| Errorf (msg : string)
| Wrapf (pre : string) (e : error).

Definition ErrNotFound : error := Sentinel "not found".

Fixpoint Error (e : error) : string :=
  match e with
  | Sentinel n => n
  | Driver m => m
  | Constraint c => c
  | Errorf m => m
  | Wrapf pre e => (pre +:+ ": " +:+ Error e)%go
  end.

(** [errors.Is] against a sentinel. *)
Fixpoint errors_Is (e : error) (target : string) : bool :=
  match e with
  | Sentinel n => String.eqb n target
  | Wrapf _ e => errors_Is e target
  | _ => false
  end.
Definition is_not_found (e : error) : bool := errors_Is e "not found".

(** ** Tables *)

Inductive table_name :=
| Cas | Certificates | CaRevocations | Users | Sessions | ApiTokens | AuditLog | Settings
| AcmeEabCreds | AcmeAccounts | AcmeOrders | AcmeNonces | AuthFailures
| AcmeAuthorizations | AcmeChallenges | Secrets | SecretVersions | SecretBindings
| K8sAuthMethods | Webhooks | WebhookDeliveries.

#[export] Instance table_name_eq_dec : EqDecision table_name.
Proof. solve_decision. Defined.

Definition row (t : table_name) : Type :=
  match t with
  | Cas => CA.t | Certificates => Certificate.t | CaRevocations => CARevocation.t
  | Users => User.t | Sessions => Session.t | ApiTokens => APIToken.t
  | AuditLog => AuditEntry.t | Settings => Setting.t
  | AcmeEabCreds => EABCred.t | AcmeAccounts => AcmeAccount.t | AcmeOrders => AcmeOrder.t
  | AcmeNonces => AcmeNonce.t | AuthFailures => AuthFailure.t
  | AcmeAuthorizations => AcmeAuthorization.t | AcmeChallenges => AcmeChallenge.t
  | Secrets => Secret.t | SecretVersions => SecretVersion.t | SecretBindings => SecretBinding.t
  | K8sAuthMethods => K8sAuthMethod.t | Webhooks => Webhook.t
  | WebhookDeliveries => WebhookDelivery.t
  end.

Record table (A : Type) := mkTable { rows : list A; seq : Z }.
Arguments mkTable {A}. Arguments rows {A}. Arguments seq {A}.

Definition db : Type := forall t, table (row t).

Definition empty_db : db := fun _ => mkTable [] 0.

Definition set_table (t : table_name) (v : table (row t)) (d : db) : db :=
  fun t' => match decide (t = t') with
            | left e => eq_rect t (fun t => table (row t)) v t' e
            | right _ => d t'
            end.

Lemma set_table_eq t v d : set_table t v d t = v.
Proof.
  unfold set_table. destruct (decide (t = t)) as [e |]; [| done].
  by rewrite (proof_irrel e eq_refl).
Qed.

Lemma set_table_ne t t' v d : t <> t' -> set_table t v d t' = d t'.
Proof. intros H. unfold set_table. by destruct (decide (t = t')). Qed.

(** ** Constraints *)

Definition row_id (t : table_name) : row t -> Z :=
  match t with
  | Cas => CA.ID | Certificates => Certificate.ID | CaRevocations => CARevocation.ID
  | Users => User.ID | Sessions => Session.ID | ApiTokens => APIToken.ID
  | AuditLog => AuditEntry.ID | Settings => fun _ => 0%Z
  | AcmeEabCreds => EABCred.ID | AcmeAccounts => AcmeAccount.ID | AcmeOrders => AcmeOrder.ID
  | AcmeNonces => fun _ => 0%Z | AuthFailures => AuthFailure.ID
  | AcmeAuthorizations => AcmeAuthorization.ID | AcmeChallenges => AcmeChallenge.ID
  | Secrets => Secret.ID | SecretVersions => SecretVersion.ID | SecretBindings => SecretBinding.ID
  | K8sAuthMethods => K8sAuthMethod.ID | Webhooks => Webhook.ID
  | WebhookDeliveries => WebhookDelivery.ID
  end.

(** Two rows that a UNIQUE or PRIMARY KEY constraint does not let coexist. *)
Definition clash (t : table_name) : row t -> row t -> bool :=
  match t with
  | Cas => fun a b => (CA.ID a =? CA.ID b)%Z || str_is (CA.Name a) (CA.Name b) || str_is (CA.Slug a) (CA.Slug b)
  | Certificates => fun a b =>
      (Certificate.ID a =? Certificate.ID b)%Z ||
      ((Certificate.CAID a =? Certificate.CAID b)%Z && str_is (Certificate.SerialHex a) (Certificate.SerialHex b))
  | CaRevocations => fun a b =>
      (CARevocation.ID a =? CARevocation.ID b)%Z ||
      ((CARevocation.CAID a =? CARevocation.CAID b)%Z && str_is (CARevocation.SerialHex a) (CARevocation.SerialHex b))
  | Users => fun a b => (User.ID a =? User.ID b)%Z || str_is (User.Username a) (User.Username b)
  | Sessions => fun a b => (Session.ID a =? Session.ID b)%Z || str_is (Session.TokenHash a) (Session.TokenHash b)
  | ApiTokens => fun a b => (APIToken.ID a =? APIToken.ID b)%Z || str_is (APIToken.TokenHash a) (APIToken.TokenHash b)
  | AuditLog => fun a b => (AuditEntry.ID a =? AuditEntry.ID b)%Z
  | Settings => fun a b => str_is (Setting.key a) (Setting.key b)
  | AcmeEabCreds => fun a b => (EABCred.ID a =? EABCred.ID b)%Z || str_is (EABCred.KeyID a) (EABCred.KeyID b)
  | AcmeAccounts => fun a b =>
      (AcmeAccount.ID a =? AcmeAccount.ID b)%Z || str_is (AcmeAccount.JWKThumbprint a) (AcmeAccount.JWKThumbprint b)
  | AcmeOrders => fun a b => (AcmeOrder.ID a =? AcmeOrder.ID b)%Z
  | AcmeNonces => fun a b => str_is (AcmeNonce.nonce a) (AcmeNonce.nonce b)
  | AuthFailures => fun a b => (AuthFailure.ID a =? AuthFailure.ID b)%Z
  | AcmeAuthorizations => fun a b => (AcmeAuthorization.ID a =? AcmeAuthorization.ID b)%Z
  | AcmeChallenges => fun a b => (AcmeChallenge.ID a =? AcmeChallenge.ID b)%Z
  | Secrets => fun a b => (Secret.ID a =? Secret.ID b)%Z || str_is (Secret.Name a) (Secret.Name b)
  | SecretVersions => fun a b =>
      (SecretVersion.ID a =? SecretVersion.ID b)%Z ||
      ((SecretVersion.SecretID a =? SecretVersion.SecretID b)%Z && (SecretVersion.Version a =? SecretVersion.Version b)%Z)
  | SecretBindings => fun a b => (SecretBinding.ID a =? SecretBinding.ID b)%Z
  | K8sAuthMethods => fun a b => (K8sAuthMethod.ID a =? K8sAuthMethod.ID b)%Z || str_is (K8sAuthMethod.Name a) (K8sAuthMethod.Name b)
  | Webhooks => fun a b => (Webhook.ID a =? Webhook.ID b)%Z || str_is (Webhook.Name a) (Webhook.Name b)
  | WebhookDeliveries => fun a b => (WebhookDelivery.ID a =? WebhookDelivery.ID b)%Z
  end.

Fixpoint clashes {A} (c : A -> A -> bool) (l : list A) : bool :=
  match l with
  | [] => false
  | x :: l' => existsb (c x) l' || clashes c l'
  end.

(** A column that REFERENCES another table, and its ON DELETE action. *)
Record fkey := FKey {
  child : table_name;
  column : row child -> option Z;
  parent : table_name;
  cascade : bool }.

Definition fkeys : list fkey :=
  [FKey Cas CA.ParentID Cas false;
   FKey Certificates (fun c => Some (Certificate.CAID c)) Cas true;
   FKey CaRevocations (fun r => Some (CARevocation.CAID r)) Cas true;
   FKey Sessions (fun s => Some (Session.UserID s)) Users true;
   FKey ApiTokens (fun a => Some (APIToken.UserID a)) Users true;
   FKey AcmeEabCreds EABCred.CAID Cas false;
   FKey AcmeAccounts (fun a => Some (AcmeAccount.EABID a)) AcmeEabCreds false;
   FKey AcmeOrders (fun o => Some (AcmeOrder.AccountID o)) AcmeAccounts true;
   FKey AcmeOrders AcmeOrder.CertificateID Certificates false;
   FKey AcmeAuthorizations (fun a => Some (AcmeAuthorization.OrderID a)) AcmeOrders true;
   FKey AcmeChallenges (fun c => Some (AcmeChallenge.AuthorizationID c)) AcmeAuthorizations true;
   FKey Secrets Secret.CertID Certificates false;
   FKey SecretVersions (fun v => Some (SecretVersion.SecretID v)) Secrets true;
   FKey SecretBindings (fun b => Some (SecretBinding.SecretID b)) Secrets true;
   FKey WebhookDeliveries (fun w => Some (WebhookDelivery.WebhookID w)) Webhooks true].

Definition has_id (t : table_name) (i : Z) (d : db) : bool :=
  existsb (fun r => Z.eqb (row_id t r) i) (rows (d t)).

Definition dangling (k : fkey) (d : db) : bool :=
  existsb (fun r => match column k r with Some i => negb (has_id (parent k) i d) | None => false end)
          (rows (d (child k))).

Definition all_tables : list table_name :=
  [Cas; Certificates; CaRevocations; Users; Sessions; ApiTokens; AuditLog; Settings; AcmeEabCreds;
   AcmeAccounts; AcmeOrders; AcmeNonces; AuthFailures; AcmeAuthorizations; AcmeChallenges; Secrets;
   SecretVersions; SecretBindings; K8sAuthMethods; Webhooks; WebhookDeliveries].

(** The constraint a database breaks, if any. *)
Definition violated (d : db) : option string :=
  if existsb (fun t => clashes (clash t) (rows (d t))) all_tables
  then Some "UNIQUE constraint failed"%string
  else if existsb (fun k => dangling k d) fkeys then Some "FOREIGN KEY constraint failed"%string
  else None.

(** ** The effect of a statement on the tables *)

(** INSERT: the new row gets the next value of the sequence. *)
Definition insert (t : table_name) (mk : Z -> row t) (d : db) : Z * db :=
  let id := (seq (d t) + 1)%Z in
  (id, set_table t (mkTable (rows (d t) ++ [mk id]) id) d).

Definition update (t : table_name) (p : row t -> bool) (f : row t -> row t) (d : db) : nat * db :=
  (affected p (rows (d t)), set_table t (mkTable (update_where p f (rows (d t))) (seq (d t))) d).

Definition drop_rows (t : table_name) (p : row t -> bool) (d : db) : db :=
  set_table t (mkTable (delete_where p (rows (d t))) (seq (d t))) d.

(** DELETE with its cascades; the schema is three levels deep. *)
Fixpoint delete_cascade (depth : nat) (t : table_name) (p : row t -> bool) (d : db) : db :=
  match depth with
  | 0 => drop_rows t p d
  | S depth' =>
      let ids := map (row_id t) (select_where p (rows (d t))) in
      fold_left
        (fun d k =>
           if bool_decide (parent k = t) && cascade k
           then delete_cascade depth' (child k)
                  (fun r => match column k r with Some i => existsb (Z.eqb i) ids | None => false end) d
           else d)
        fkeys (drop_rows t p d)
  end.

Definition delete (t : table_name) (p : row t -> bool) (d : db) : nat * db :=
  (affected p (rows (d t)), delete_cascade 4 t p d).

Definition select (t : table_name) (p : row t -> bool) (d : db) : list (row t) :=
  select_where p (rows (d t)).
Definition select1 (t : table_name) (p : row t -> bool) (d : db) : option (row t) :=
  List.find p (rows (d t)).

(** ORDER BY: a stable sort, so rows that compare equal keep table order. *)
Fixpoint insert_sorted {A} (le : A -> A -> bool) (x : A) (l : list A) : list A :=
  match l with
  | [] => [x]
  | y :: l' => if le x y then x :: l else y :: insert_sorted le x l'
  end.
Definition order_by {A} (le : A -> A -> bool) (l : list A) : list A :=
  fold_right (insert_sorted le) [] l.

(** Where SQL leaves the order of the rows open, or picks one row of several,
    the model takes them in an order it knows nothing about. *)
Class RowOrder := {
  scan : forall {A}, list A -> list A;
  scan_perm : forall {A} (l : list A), scan l ≡ₚ l }.

(** ** The world *)

Record world := mkWorld {
  w_db : db;
  w_clock : Z;
  w_ticks : list Z;                (* how much time passes at each reading of the clock *)
  w_faults : list (option string); (* per statement: the driver's error, if it fails *)
  w_draws : nat }.                 (* how many times randomness was drawn *)

Definition with_db (d : db) (w : world) : world :=
  mkWorld d (w_clock w) (w_ticks w) (w_faults w) (w_draws w).
Definition with_faults (fs : list (option string)) (w : world) : world :=
  mkWorld (w_db w) (w_clock w) (w_ticks w) fs (w_draws w).

Abbreviation M A := (prog world (result error A)).

(** [time.Now()]: the clock never goes backwards. *)
Definition time_Now : prog world Z :=
  act (fun w => match w_ticks w with
                | [] => (w_clock w, w)
                | t :: ts => let c := (w_clock w + Z.max 0 t)%Z in
                             (c, mkWorld (w_db w) c ts (w_faults w) (w_draws w))
                end).

(** The next driver failure, if this statement is to fail. *)
Definition next_fault (w : world) : option string * world :=
  match w_faults w with
  | [] => (None, w)
  | f :: fs => (f, with_faults fs w)
  end.

(** A transaction: [f] computes its result and the database it would commit,
    or rolls back with an error. *)
Definition tx {X} (f : world -> result error (X * db) * nat) : M X :=
  act (fun w =>
    match next_fault w with
    | (Some m, w1) => (Err (Driver m), w1)
    | (None, w1) =>
        let '(r, n) := f w1 in
        let w2 := mkWorld (w_db w1) (w_clock w1) (w_ticks w1) (w_faults w1) (w_draws w1 + n) in
        match r with
        | Err e => (Err e, w2)
        | Ok (x, d') => match violated d' with
                        | Some c => (Err (Constraint c), w2)
                        | None => (Ok x, with_db d' w2)
                        end
        end
    end).

(** One statement. *)
Definition sql {X} (f : db -> X * db) : M X := tx (fun w => (Ok (f (w_db w)), 0)).

(** One SELECT. *)
Definition query {X} (f : db -> X) : M X :=
  act (fun w => match next_fault w with
                | (Some m, w1) => (Err (Driver m), w1)
                | (None, w1) => (Ok (f (w_db w1)), w1)
                end).

Open Scope prog_scope.

(** A SELECT of one row; [sql.ErrNoRows] becomes [ErrNotFound]. *)
Definition query_row {X} (f : db -> option X) : M X :=
  x <-! query f ;;
  match x with Some x => Ret (Ok x) | None => Ret (Err ErrNotFound) end.

(** An UPDATE or DELETE whose caller reports zero affected rows as
    [ErrNotFound]. *)
Definition exec_found (f : db -> nat * db) : M unit :=
  n <-! sql f ;;
  Ret (if Nat.eqb n 0 then Err ErrNotFound else Ok tt).

(** An UPDATE or DELETE whose caller ignores the count. *)
Definition exec (f : db -> nat * db) : M unit :=
  n <-! sql f ;; Ret (Ok tt).

(** [nz]: v, or def when v is empty. *)
Definition nz (v def : string) : string := if nonempty (Str.TrimSpace v) then v else def.
