(* ===== verification/SqlFacts.v ===== *)
(** * Reasoning about statements

    Weakest-precondition rules for the primitive actions ([wp_*]), the rules
    that say what each of them guarantees to concurrent requests ([guar_*], in
    the hint database [guar]), what INSERT, UPDATE and DELETE leave alone, and
    the runs in a world whose driver fails nothing ([run_*]). *)

From S2P Require Import Prelude GoStrings Effects Models Schema.

(** ** Tables after a statement *)

#[local] Opaque fkeys.

Section tables_after.
Implicit Types (t : table_name) (d : db).

Lemma insert_id t mk d : fst (insert t mk d) = (seq (d t) + 1)%Z.
Proof. done. Qed.
Lemma insert_eq t mk d :
  snd (insert t mk d) t = mkTable (rows (d t) ++ [mk (seq (d t) + 1)%Z]) (seq (d t) + 1).
Proof. apply set_table_eq. Qed.
Lemma insert_ne t t' mk d : t <> t' -> snd (insert t mk d) t' = d t'.
Proof. apply set_table_ne. Qed.
Lemma update_count t p f d : fst (update t p f d) = affected p (rows (d t)).
Proof. done. Qed.
Lemma update_eq t p f d :
  snd (update t p f d) t = mkTable (update_where p f (rows (d t))) (seq (d t)).
Proof. apply set_table_eq. Qed.
Lemma update_ne t t' p f d : t <> t' -> snd (update t p f d) t' = d t'.
Proof. apply set_table_ne. Qed.

(** The tables a DELETE on [t] can reach through its cascades. *)
Fixpoint reaches (depth : nat) (t t' : table_name) : bool :=
  bool_decide (t = t') ||
  match depth with
  | 0 => false
  | S depth' => existsb (fun k => bool_decide (parent k = t) && cascade k && reaches depth' (child k) t') fkeys
  end.

Lemma fold_left_inv {A B} (I : A -> Prop) (f : A -> B -> A) (l : list B) a :
  I a -> (forall a b, b ∈ l -> I a -> I (f a b)) -> I (fold_left f l a).
Proof.
  revert a. induction l as [| b l IH]; intros a Ha Hf; simpl; [done |].
  apply IH; [apply Hf; [constructor | done] |]. intros a' b' Hb'. apply Hf. by constructor.
Qed.

Lemma delete_cascade_frame n t p d t' :
  reaches n t t' = false -> delete_cascade n t p d t' = d t'.
Proof.
  revert t p d. induction n as [| n IH]; intros t p d Hr; simpl in *.
  - apply orb_false_iff in Hr as [Hne _]. apply bool_decide_eq_false in Hne. by apply set_table_ne.
  - apply orb_false_iff in Hr as [Hne Hk]. apply bool_decide_eq_false in Hne.
    apply (fold_left_inv (fun d' => d' t' = d t')); [by apply set_table_ne |].
    intros d' k Hin Hd'. destruct (_ && cascade k) eqn:E; [| done].
    rewrite IH; [done |]. apply not_true_iff_false in Hk. apply not_true_iff_false.
    intros Hr. apply Hk. apply existsb_exists. exists k. split; [by apply list_elem_of_In |].
    by rewrite E, Hr.
Qed.

Lemma delete_ne t t' p d : reaches 4 t t' = false -> snd (delete t p d) t' = d t'.
Proof. apply delete_cascade_frame. Qed.

(** A DELETE only removes rows, and never moves a sequence. *)

Lemma delete_cascade_sub n t p d t' :
  (forall r, r ∈ rows (delete_cascade n t p d t') -> r ∈ rows (d t')) /\
  seq (delete_cascade n t p d t') = seq (d t').
Proof.
  revert t p d. induction n as [| n IH]; intros t p d; simpl.
  - unfold drop_rows. destruct (decide (t = t')) as [<- | Hne].
    + rewrite set_table_eq. simpl. split; [| done]. intros r Hr. by apply elem_of_delete_where in Hr as [].
    + by rewrite set_table_ne.
  - apply (fold_left_inv (fun d' => (forall r, r ∈ rows (d' t') -> r ∈ rows (d t')) /\ seq (d' t') = seq (d t'))).
    + unfold drop_rows. destruct (decide (t = t')) as [<- | Hne].
      * rewrite set_table_eq. simpl. split; [| done]. intros r Hr. by apply elem_of_delete_where in Hr as [].
      * by rewrite set_table_ne.
    + intros d' k _ [Hsub Hseq]. destruct (_ && cascade k); [| done].
      destruct (IH (child k) (fun r => match column k r with
                                       | Some i => existsb (Z.eqb i) (map (row_id t) (select_where p (rows (d t))))
                                       | None => false end) d') as [Hsub' Hseq'].
      split; [eauto | congruence].
Qed.

Lemma delete_sub t p d t' r : r ∈ rows (snd (delete t p d) t') -> r ∈ rows (d t').
Proof. unfold delete. cbn [snd]. apply delete_cascade_sub. Qed.

(** A table nothing refers to with a cascade. *)
Lemma delete_leaf t p d :
  existsb (fun k => bool_decide (parent k = t) && cascade k) fkeys = false ->
  snd (delete t p d) t = mkTable (delete_where p (rows (d t))) (seq (d t)).
Proof.
  intros Hleaf. unfold delete. cbn [snd]. generalize 3. intros n. simpl.
  apply (fold_left_inv (fun d' => d' t = mkTable (delete_where p (rows (d t))) (seq (d t)))).
  - apply set_table_eq.
  - intros d' k Hin Hd'. destruct (_ && cascade k) eqn:E; [| done].
    apply not_true_iff_false in Hleaf. exfalso. apply Hleaf. apply existsb_exists.
    exists k. split; [by apply list_elem_of_In | done].
Qed.
End tables_after.

Lemma order_by_perm {A} (le : A -> A -> bool) l : order_by le l ≡ₚ l.
Proof.
  induction l as [| x l IH]; simpl; [done |]. rewrite <- IH at 2. generalize (order_by le l). clear.
  induction l as [| y l IH]; simpl; [done |]. destruct (le x y); [done |].
  rewrite IH. constructor.
Qed.

Lemma elem_of_order_by {A} (le : A -> A -> bool) l x : x ∈ order_by le l <-> x ∈ l.
Proof. by rewrite order_by_perm. Qed.

Lemma elem_of_scan `{RowOrder} {A} (l : list A) x : x ∈ scan l <-> x ∈ l.
Proof. by rewrite scan_perm. Qed.

(** ** Rules for one request *)

Section wp_rules.
Implicit Types (w : world).

Lemma wp_now (Q : Z -> world -> Prop) w :
  (forall c ts, (w_clock w <= c)%Z -> Q c (mkWorld (w_db w) c ts (w_faults w) (w_draws w))) ->
  wp time_Now Q w.
Proof.
  intros H. apply wp_act. destruct w as [d c [| t ts] fs n]; simpl in *; apply H; lia.
Qed.

Lemma wp_query {X} (f : db -> X) (Q : result error X -> world -> Prop) w :
  (forall m fs, Q (Err (Driver m)) (with_faults fs w)) ->
  (forall fs, Q (Ok (f (w_db w))) (with_faults fs w)) ->
  wp (query f) Q w.
Proof.
  intros He Hok. apply wp_act. destruct w as [d c ts fs n]. unfold next_fault. simpl.
  destruct fs as [| [m |] fs]; simpl; [apply (Hok []) | apply (He m fs) | apply (Hok fs)].
Qed.

Lemma wp_sql {X} (f : db -> X * db) (Q : result error X -> world -> Prop) w :
  (forall e fs, Q (Err e) (with_faults fs w)) ->
  (forall fs, violated (snd (f (w_db w))) = None ->
     Q (Ok (fst (f (w_db w)))) (with_db (snd (f (w_db w))) (with_faults fs w))) ->
  wp (sql f) Q w.
Proof.
  intros He Hok. apply wp_act. destruct w as [d c ts fs n]. unfold next_fault. simpl in *.
  destruct fs as [| [m |] fs]; simpl; [| apply (He (Driver m) fs) |].
  - rewrite Nat.add_0_r. destruct (f d) as [x d'] eqn:E. simpl in *.
    destruct (violated d') eqn:V; simpl; [apply (He _ []) | by apply (Hok [])].
  - rewrite Nat.add_0_r. destruct (f d) as [x d'] eqn:E. simpl in *.
    destruct (violated d') eqn:V; simpl; [apply (He _ fs) | by apply (Hok fs)].
Qed.

Lemma wp_bind_err {A B} (p : M A) (k : A -> M B) (Q : result error B -> world -> Prop) w :
  wp p (fun r w' => match r with Ok a => wp (k a) Q w' | Err e => Q (Err e) w' end) w ->
  wp (x <-! p ;; k x) Q w.
Proof.
  intros H. apply wp_bind. eapply wp_mono; [exact H |]. intros [a | e] w'; done.
Qed.

Lemma wp_query_row {X} (f : db -> option X) (Q : result error X -> world -> Prop) w :
  (forall m fs, Q (Err (Driver m)) (with_faults fs w)) ->
  (forall fs, f (w_db w) = None -> Q (Err ErrNotFound) (with_faults fs w)) ->
  (forall fs x, f (w_db w) = Some x -> Q (Ok x) (with_faults fs w)) ->
  wp (query_row f) Q w.
Proof.
  intros He Hn Hs. apply wp_bind_err. apply wp_query; [done |].
  intros fs. destruct (f (w_db w)) eqn:E; apply wp_Ret; eauto.
Qed.

Lemma wp_exec_found (f : db -> nat * db) (Q : result error unit -> world -> Prop) w :
  (forall e fs, Q (Err e) (with_faults fs w)) ->
  (forall fs, violated (snd (f (w_db w))) = None ->
     Q (if Nat.eqb (fst (f (w_db w))) 0 then Err ErrNotFound else Ok tt)
       (with_db (snd (f (w_db w))) (with_faults fs w))) ->
  wp (exec_found f) Q w.
Proof.
  intros He Hok. apply wp_bind_err. apply wp_sql; [done |]. intros fs V. apply wp_Ret. by apply Hok.
Qed.

Lemma wp_exec (f : db -> nat * db) (Q : result error unit -> world -> Prop) w :
  (forall e fs, Q (Err e) (with_faults fs w)) ->
  (forall fs, violated (snd (f (w_db w))) = None ->
     Q (Ok tt) (with_db (snd (f (w_db w))) (with_faults fs w))) ->
  wp (exec f) Q w.
Proof.
  intros He Hok. apply wp_bind_err. apply wp_sql; [done |]. intros fs V. apply wp_Ret. by apply Hok.
Qed.
End wp_rules.

(** ** What one statement guarantees *)

Definition on_db (R : db -> db -> Prop) (w w' : world) : Prop := R (w_db w) (w_db w').

#[export] Instance on_db_refl R : Reflexive R -> Reflexive (on_db R).
Proof. intros H w. apply H. Qed.
#[export] Instance on_db_trans R : Transitive R -> Transitive (on_db R).
Proof. intros H w1 w2 w3. apply H. Qed.

Section guar_rules.
Context (R : db -> db -> Prop) `{HR : Reflexive _ R}.

Lemma guar_now : guar (on_db R) time_Now.
Proof. apply guar_act. intros [d c [| t ts] fs n]; apply HR. Qed.

Lemma guar_query {X} (f : db -> X) : guar (on_db R) (query f).
Proof. apply guar_act. intros [d c ts [| [m |] fs] n]; apply HR. Qed.

Lemma guar_tx {X} (f : world -> result error (X * db) * nat) :
  (forall w x d', fst (f w) = Ok (x, d') -> violated d' = None -> R (w_db w) d') ->
  guar (on_db R) (tx f).
Proof.
  intros H. apply guar_act. intros w. unfold next_fault, on_db.
  destruct (w_faults w) as [| [m |] fs] eqn:Ef; cbn [fst snd]; [| apply HR |].
  - destruct (f w) as [[[x d'] | e] n] eqn:E; [| apply HR]. destruct (violated d') eqn:V; [apply HR |].
    simpl. apply (H w x d'); [by rewrite E | done].
  - destruct (f _) as [[[x d'] | e] n] eqn:E; [| apply HR]. destruct (violated d') eqn:V; [apply HR |].
    simpl. apply (H (with_faults fs w) x d'); [by rewrite E | done].
Qed.

Lemma guar_sql {X} (f : db -> X * db) :
  (forall d, violated (snd (f d)) = None -> R d (snd (f d))) -> guar (on_db R) (sql f).
Proof. intros H. apply guar_tx. intros w x d' [= E] V. specialize (H (w_db w)). rewrite E in H. by apply H. Qed.

Lemma guar_query_row {X} (f : db -> option X) : guar (on_db R) (query_row f).
Proof.
  apply guar_bind; [apply guar_query |]. intros [[x |] | e]; done.
Qed.

Lemma guar_exec_found (f : db -> nat * db) :
  (forall d, violated (snd (f d)) = None -> R d (snd (f d))) -> guar (on_db R) (exec_found f).
Proof. intros H. apply guar_bind; [by apply guar_sql |]. by intros [n | e]. Qed.

Lemma guar_exec (f : db -> nat * db) :
  (forall d, violated (snd (f d)) = None -> R d (snd (f d))) -> guar (on_db R) (exec f).
Proof. intros H. apply guar_bind; [by apply guar_sql |]. by intros [n | e]. Qed.

Lemma guar_bind_err {A B} (p : M A) (k : A -> M B) :
  guar (on_db R) p -> (forall a, guar (on_db R) (k a)) -> guar (on_db R) (x <-! p ;; k x).
Proof. intros Hp Hk. apply guar_bind; [done |]. by intros [a | e]. Qed.
End guar_rules.

#[export] Hint Resolve guar_now guar_query guar_query_row guar_bind_err : guar.

(** ** A world whose driver fails nothing *)

Definition healthy (w : world) : Prop := w_faults w = [].

Lemma run_query {X} (f : db -> X) w : healthy w -> run (query f) w = (Ok (f (w_db w)), w).
Proof. unfold healthy. destruct w as [d c ts fs n]. simpl. by intros ->. Qed.

Lemma run_sql {X} (f : db -> X * db) w :
  healthy w -> violated (snd (f (w_db w))) = None ->
  run (sql f) w = (Ok (fst (f (w_db w))), with_db (snd (f (w_db w))) w).
Proof.
  unfold healthy. destruct w as [d c ts fs n]. simpl. intros -> V. simpl. rewrite Nat.add_0_r.
  destruct (f d) as [x d']. simpl in *. by rewrite V.
Qed.

(** A valid database, and no failure of the driver to come. *)
Definition sound (w : world) : Prop := healthy w /\ violated (w_db w) = None.

(** Statements keep the world sound, and the clock does not go back. *)
Definition stays_sound (w w' : world) : Prop := (sound w -> sound w') /\ (w_clock w <= w_clock w')%Z.

#[export] Instance stays_sound_refl : Reflexive stays_sound.
Proof. intros w. split; [exact (fun H => H) | lia]. Qed.
#[export] Instance stays_sound_trans : Transitive stays_sound.
Proof. intros w1 w2 w3 [H12 L12] [H23 L23]. split; [auto | lia]. Qed.

Lemma sound_now : guar stays_sound time_Now.
Proof. apply guar_act. intros [d c [| t ts] fs n]; (split; [exact (fun H => H) | simpl; lia]). Qed.

Lemma sound_query {X} (f : db -> X) : guar stays_sound (query f).
Proof.
  apply guar_act. intros [d c ts [| [m |] fs] n]; (split; [| simpl; lia]); [exact (fun H => H) | by intros [Hf Hv] ..].
Qed.

(** A statement commits valid databases only. *)
Lemma sound_tx {X} (f : world -> result error (X * db) * nat) : guar stays_sound (tx f).
Proof.
  apply guar_act. intros [d c ts fs n]. split.
  - intros [Hf Hv]. unfold healthy in Hf. simpl in *. subst fs. simpl.
    destruct (f _) as [[[x d'] | e] m]; [| done]. by destruct (violated d') eqn:V.
  - unfold next_fault. destruct fs as [| [m |] fs]; simpl; [| lia |];
      (destruct (f _) as [[[x d'] | e] k]; simpl; [destruct (violated d'); simpl; lia | lia]).
Qed.

Lemma sound_sql {X} (f : db -> X * db) : guar stays_sound (sql f).
Proof. apply sound_tx. Qed.

Lemma wp_sound {A} (p : prog world A) w : guar stays_sound p -> sound w -> wp p (fun _ w' => sound w') w.
Proof. intros Hp Hw. exact (proj1 (guar_run stays_sound p w _ _ Hp) Hw). Qed.

Lemma wp_clock {A} (p : prog world A) w : guar stays_sound p -> wp p (fun _ w' => (w_clock w <= w_clock w')%Z) w.
Proof. intros Hp. exact (proj2 (guar_run stays_sound p w _ _ Hp)). Qed.

Lemma wp_and {A} (p : prog world A) (Q R : A -> world -> Prop) w :
  wp p Q w -> wp p R w -> wp p (fun a w' => Q a w' /\ R a w') w.
Proof. done. Qed.

(** In a sound world a SELECT answers, and a statement that keeps the
    constraints is executed. *)
Lemma wp_query_sound {X} (f : db -> X) (Q : result error X -> world -> Prop) w :
  sound w -> Q (Ok (f (w_db w))) w -> wp (query f) Q w.
Proof. intros [Hf _] HQ. unfold wp. by rewrite run_query. Qed.

Lemma wp_sql_sound {X} (f : db -> X * db) (Q : result error X -> world -> Prop) w :
  sound w -> violated (snd (f (w_db w))) = None ->
  (let w' := with_db (snd (f (w_db w))) w in sound w' -> Q (Ok (fst (f (w_db w)))) w') -> wp (sql f) Q w.
Proof. intros [Hf _] Hv HQ. unfold wp. rewrite run_sql by done. by apply HQ. Qed.

(** ** Counting over interleavings, statement by statement *)

Definition on_world {X} (f : db -> X) (w : world) : X := f (w_db w).

Section spends_rules.
Context (I : db -> Prop) (phi : db -> nat).

Lemma spends_now {A} (wt : A -> nat) e (k : Z -> prog world A) :
  (forall t, spends (on_world I) (on_world phi) wt e (k t)) -> spends (on_world I) (on_world phi) wt e (bind time_Now k).
Proof.
  intros Hk w HI. unfold on_world in *. destruct w as [d c [| t ts] fs n]; simpl in *;
    (split; [done |]; exists e; split; [lia | apply Hk]).
Qed.

Lemma spends_query {A X} (wt : A -> nat) e (f : db -> X) (k : result error X -> prog world A) :
  (forall r, spends (on_world I) (on_world phi) wt e (k r)) -> spends (on_world I) (on_world phi) wt e (bind (query f) k).
Proof.
  intros Hk w HI. unfold on_world in *. destruct w as [d c ts [| [m |] fs] n]; simpl in *;
    (split; [done |]; exists e; split; [lia | apply Hk]).
Qed.

(** A statement that fails costs nothing; one that succeeds may hand its
    continuation what it took off the potential. *)
Lemma spends_sql {A X} (wt : A -> nat) e (f : db -> X * db) (k : result error X -> prog world A) :
  (forall err, spends (on_world I) (on_world phi) wt e (k (Err err))) ->
  (forall d, I d -> violated (snd (f d)) = None ->
     I (snd (f d)) /\ exists e', phi (snd (f d)) + e' <= phi d + e /\ spends (on_world I) (on_world phi) wt e' (k (Ok (fst (f d))))) ->
  spends (on_world I) (on_world phi) wt e (bind (sql f) k).
Proof.
  intros Herr Hok.
  intros w HI. simpl. unfold next_fault.
  destruct w as [d c ts fs n]. unfold on_world in *. simpl in *. specialize (Hok d HI).
  destruct fs as [| [m |] fs]; simpl; [| split; [done |]; exists e; split; [lia | apply Herr] |];
    (destruct (f d) as [x d'] eqn:E; simpl in *; destruct (violated d') eqn:V; simpl;
     [split; [done |]; exists e; split; [lia | apply Herr] | by apply Hok]).
Qed.
End spends_rules.

Lemma b2n_eqb_1 a : Nat.b2n (Nat.eqb a 1) <= a.
Proof. destruct (Nat.eqb_spec a 1); simpl; lia. Qed.

Lemma affected_delete {A} (p : A -> bool) l : length (delete_where p l) + affected p l = length l.
Proof.
  unfold delete_where, affected. induction l as [| x l IH]; simpl; [done |]. destruct (p x); simpl; lia.
Qed.

(** Deleting rows that all satisfy [q] takes that many off the count of [q]. *)
Lemma affected_delete_sub {A} (p q : A -> bool) l :
  (forall x, p x = true -> q x = true) -> affected q (delete_where p l) + affected p l = affected q l.
Proof.
  intros Hpq. unfold delete_where, affected. induction l as [| x l IH]; simpl; [done |].
  destruct (p x) eqn:Hp; simpl.
  - rewrite (Hpq x Hp). simpl. lia.
  - destruct (q x); simpl; lia.
Qed.

(** ** UNIQUE constraints *)

Lemma violated_clashes d t : violated d = None -> clashes (clash t) (rows (d t)) = false.
Proof.
  unfold violated. destruct (existsb (fun t => clashes (clash t) (rows (d t))) all_tables) eqn:E; [done |].
  intros _. apply not_true_is_false. intros Hc. apply not_true_iff_false in E. apply E.
  apply existsb_exists. exists t. split; [| done]. destruct t; cbn; tauto.
Qed.

(** Columns the constraints look at. *)
Definition same_key (t : table_name) : row t -> row t -> Prop :=
  match t with
  | Cas => fun a b => CA.ID a = CA.ID b /\ CA.Name a = CA.Name b /\ CA.Slug a = CA.Slug b /\ CA.ParentID a = CA.ParentID b
  | Certificates => fun a b => Certificate.ID a = Certificate.ID b /\ Certificate.CAID a = Certificate.CAID b /\
      Certificate.SerialHex a = Certificate.SerialHex b
  | Secrets => fun a b => Secret.ID a = Secret.ID b /\ Secret.Name a = Secret.Name b /\ Secret.CertID a = Secret.CertID b
  | SecretVersions => fun a b => SecretVersion.ID a = SecretVersion.ID b /\
      SecretVersion.SecretID a = SecretVersion.SecretID b /\ SecretVersion.Version a = SecretVersion.Version b
  | WebhookDeliveries => fun a b => WebhookDelivery.ID a = WebhookDelivery.ID b /\
      WebhookDelivery.WebhookID a = WebhookDelivery.WebhookID b
  | _ => eq
  end.
Definition same_keys (d d' : db) : Prop := forall t, Forall2 (same_key t) (rows (d t)) (rows (d' t)).

#[export] Instance same_key_refl t : Reflexive (same_key t).
Proof. by destruct t; intros x; simpl. Qed.

Lemma same_key_clash t a a' b b' : same_key t a a' -> same_key t b b' -> clash t a b = clash t a' b'.
Proof.
  destruct t; try by intros -> ->.
  all: simpl; intros; intuition congruence.
Qed.

Lemma same_key_id t a b : same_key t a b -> row_id t a = row_id t b.
Proof. destruct t; simpl; intros; intuition congruence. Qed.

#[local] Transparent fkeys.
Lemma same_key_columns : Forall (fun k => forall a b, same_key (child k) a b -> column k a = column k b) fkeys.
Proof.
  unfold fkeys. repeat (apply List.Forall_cons; [simpl; intros a b; intuition congruence |]). constructor.
Qed.
#[local] Opaque fkeys.

Lemma existsb_Forall2 {A} (R : A -> A -> Prop) (p q : A -> bool) l l' :
  Forall2 R l l' -> (forall x y, R x y -> p x = q y) -> existsb p l = existsb q l'.
Proof. intros Hl Hpq. induction Hl as [| x y l l' Hxy Hl IH]; simpl; [done |]. by rewrite (Hpq x y), IH. Qed.

Lemma clashes_Forall2 {A} (R : A -> A -> Prop) (c : A -> A -> bool) l l' :
  Forall2 R l l' -> (forall a a' b b', R a a' -> R b b' -> c a b = c a' b') -> clashes c l = clashes c l'.
Proof.
  intros Hl Hc. induction Hl as [| x y l l' Hxy Hl IH]; simpl; [done |].
  rewrite IH. f_equal. eapply existsb_Forall2; [done |]. intros a b Hab. by apply Hc.
Qed.

Lemma violated_same_keys d d' : same_keys d d' -> violated d' = violated d.
Proof.
  intros Hk. unfold violated.
  assert (forall t, clashes (clash t) (rows (d' t)) = clashes (clash t) (rows (d t))) as Hclash.
  { intros t. symmetry. eapply clashes_Forall2; [apply Hk |]. intros. by apply same_key_clash. }
  replace (existsb (fun t => clashes (clash t) (rows (d' t))) all_tables)
    with (existsb (fun t => clashes (clash t) (rows (d t))) all_tables).
  2: { induction all_tables as [| t l IH]; simpl; [done |]. by rewrite Hclash, IH. }
  replace (existsb (fun k => dangling k d') fkeys) with (existsb (fun k => dangling k d) fkeys); [done |].
  pose proof same_key_columns as Hcol. induction Hcol as [| k ks Hk1 Hks IH]; [done |]. simpl. rewrite IH. f_equal.
  unfold dangling. eapply existsb_Forall2; [apply Hk |]. intros a b Hab. rewrite <- (Hk1 a b Hab).
  destruct (column k a) as [i |]; [| done]. f_equal. unfold has_id.
  eapply existsb_Forall2; [apply Hk |]. intros x y Hxy. by rewrite (same_key_id _ _ _ Hxy).
Qed.

Lemma Forall2_update_where {A} (R : A -> A -> Prop) `{Reflexive A R} p (f : A -> A) l :
  (forall x, p x = true -> R x (f x)) -> Forall2 R l (update_where p f l).
Proof.
  intros Hf. unfold update_where. induction l as [| x l IH]; simpl; constructor; [| done].
  destruct (p x) eqn:Hp; [by apply Hf | done].
Qed.

(** An UPDATE of columns no constraint looks at. *)
Lemma violated_update t p f d :
  (forall x, same_key t x (f x)) -> violated (snd (update t p f d)) = violated d.
Proof.
  intros Hf. apply violated_same_keys. intros t'. destruct (decide (t = t')) as [<- | Hne].
  - rewrite update_eq. apply Forall2_update_where; [apply same_key_refl | auto].
  - rewrite update_ne by done. reflexivity.
Qed.

(** An INSERT into a table no foreign key involves, with an id of its own. *)
Definition unrelated (t : table_name) : bool :=
  forallb (fun k => negb (bool_decide (child k = t)) && negb (bool_decide (parent k = t))) fkeys.

Lemma clashes_snoc {A} (c : A -> A -> bool) l x :
  clashes c l = false -> (forall y, y ∈ l -> c y x = false) -> clashes c (l ++ [x]) = false.
Proof.
  induction l as [| a l IH]; [done |]. simpl. intros [Ha Hl]%orb_false_iff Hx. apply orb_false_iff. split.
  - rewrite existsb_app, Ha. simpl. rewrite Hx by left. done.
  - apply IH; [done |]. intros y Hy. apply Hx. by right.
Qed.

Lemma violated_unrelated t T d :
  unrelated t = true -> violated d = None -> clashes (clash t) (rows T) = false -> violated (set_table t T d) = None.
Proof.
  intros Ht Hv HT. unfold violated.
  replace (existsb (fun t' => clashes (clash t') (rows (set_table t T d t'))) all_tables) with false.
  - replace (existsb (fun k => dangling k (set_table t T d)) fkeys) with (existsb (fun k => dangling k d) fkeys).
    + unfold violated in Hv. destruct (existsb _ all_tables); [done |]. by destruct (existsb _ fkeys).
    + unfold unrelated in Ht. rewrite forallb_forall in Ht.
      induction fkeys as [| k ks IH]; [done |]. simpl. f_equal; [| apply IH; intros x Hx; apply Ht; by right].
      destruct (proj1 (andb_true_iff _ _) (Ht k (or_introl eq_refl))) as [Hc%negb_true_iff%bool_decide_eq_false Hp%negb_true_iff%bool_decide_eq_false].
      unfold dangling, has_id. by rewrite !set_table_ne by done.
  - symmetry. apply not_true_iff_false. intros (t' & _ & Hc)%existsb_exists.
    destruct (decide (t = t')) as [<- | Hne].
    + rewrite set_table_eq in Hc. congruence.
    + rewrite set_table_ne in Hc by done. by rewrite violated_clashes in Hc.
Qed.

Lemma violated_insert t mk d :
  unrelated t = true -> violated d = None ->
  (forall y, y ∈ rows (d t) -> clash t y (mk (seq (d t) + 1)%Z) = false) ->
  violated (snd (insert t mk d)) = None.
Proof. intros Ht Hv Hnew. apply violated_unrelated; [done | done |]. apply clashes_snoc; [by apply violated_clashes | done]. Qed.

Lemma clashes_delete_where {A} (c : A -> A -> bool) p l : clashes c l = false -> clashes c (delete_where p l) = false.
Proof.
  induction l as [| a l IH]; [done |]. simpl. intros [Ha Hl]%orb_false_iff. unfold delete_where. simpl.
  destruct (negb (p a)); [| by apply IH]. simpl. apply orb_false_iff. split; [| by apply IH].
  apply not_true_iff_false. intros (x & Hx & Hc)%existsb_exists. apply not_true_iff_false in Ha. apply Ha, existsb_exists.
  exists x. split; [| done]. by apply List.filter_In in Hx as [Hx _].
Qed.

Lemma delete_unrelated t p d :
  unrelated t = true -> snd (delete t p d) = set_table t (mkTable (delete_where p (rows (d t))) (seq (d t))) d.
Proof.
  intros Ht. unfold delete. cbn [snd]. generalize 3. intros n. simpl.
  apply (fold_left_inv (fun d' => d' = set_table t (mkTable (delete_where p (rows (d t))) (seq (d t))) d)); [done |].
  intros d' k Hin ->. destruct (_ && cascade k) eqn:E; [| done]. exfalso.
  unfold unrelated in Ht. rewrite forallb_forall in Ht. apply list_elem_of_In in Hin. specialize (Ht k Hin).
  apply andb_true_iff in Ht as [_ Ht%negb_true_iff%bool_decide_eq_false]. by apply andb_true_iff in E as [E%bool_decide_eq_true _].
Qed.

Lemma violated_delete t p d : unrelated t = true -> violated d = None -> violated (snd (delete t p d)) = None.
Proof.
  intros Ht Hv. rewrite delete_unrelated by done. apply violated_unrelated; [done | done |]. cbn [rows].
  apply clashes_delete_where. by apply violated_clashes.
Qed.

(** Ids are not shared. *)
Lemma clashes_inj {A B} (c : A -> A -> bool) (g : A -> B) l x y :
  (forall a b, g a = g b -> c a b = true) -> clashes c l = false -> x ∈ l -> y ∈ l -> g x = g y -> x = y.
Proof.
  intros Hg. induction l as [| a l IH]; simpl; [by intros _ Hx%not_elem_of_nil |].
  intros [Ha Hl]%orb_false_iff. specialize (IH Hl).
  assert (forall z, z ∈ l -> g a = g z -> False) as Hno.
  { intros z Hz Heq. apply not_true_iff_false in Ha. apply Ha, existsb_exists. exists z.
    split; [by apply list_elem_of_In | by apply Hg]. }
  intros [-> | Hx]%elem_of_cons [-> | Hy]%elem_of_cons Heq; [done | | | auto]; exfalso; eauto.
Qed.

Lemma clashes_NoDup {A B} (c : A -> A -> bool) (g : A -> B) l :
  (forall a b, g a = g b -> c a b = true) -> clashes c l = false -> NoDup (map g l).
Proof.
  intros Hg. induction l as [| a l IH]; simpl; [constructor |]. intros [Ha Hl]%orb_false_iff.
  apply NoDup_cons. split; [| auto]. intros (b & Hab & Hb)%list_elem_of_fmap.
  apply not_true_iff_false in Ha. apply Ha, existsb_exists. exists b. split; [by apply list_elem_of_In | by apply Hg].
Qed.

Lemma certificate_ids_NoDup d : violated d = None -> NoDup (map Certificate.ID (rows (d Certificates))).
Proof.
  intros Hv. apply (clashes_NoDup (clash Certificates)); [| by apply violated_clashes].
  intros a b Hab. apply orb_true_iff. left. by apply Z.eqb_eq.
Qed.

Lemma certificate_id_inj d x y :
  violated d = None -> x ∈ rows (d Certificates) -> y ∈ rows (d Certificates) ->
  Certificate.ID x = Certificate.ID y -> x = y.
Proof.
  intros Hv. apply (clashes_inj (clash Certificates) Certificate.ID); [| by apply violated_clashes].
  intros a b Hab. apply orb_true_iff. left. by apply Z.eqb_eq.
Qed.

Lemma ca_id_inj d x y :
  violated d = None -> x ∈ rows (d Cas) -> y ∈ rows (d Cas) -> CA.ID x = CA.ID y -> x = y.
Proof.
  intros Hv. apply (clashes_inj (clash Cas) CA.ID); [| by apply violated_clashes].
  intros a b Hab. apply orb_true_iff. left. apply orb_true_iff. left. by apply Z.eqb_eq.
Qed.

(** Rows that pairwise clash: at most one of them is there. *)
Lemma clashes_count {A} (c : A -> A -> bool) (q : A -> bool) l :
  (forall x y, q x = true -> q y = true -> c x y = true) -> clashes c l = false -> affected q l <= 1.
Proof.
  intros Hq. unfold affected. induction l as [| x l IH]; simpl; [lia |].
  intros Hc. apply orb_false_iff in Hc as [Hx Hl]. specialize (IH Hl).
  destruct (q x) eqn:Hqx; [| done]. simpl. enough (List.filter q l = []) as -> by (simpl; lia).
  clear -Hx Hqx Hq. induction l as [| y l IH]; simpl in *; [done |].
  apply orb_false_iff in Hx as [Hy Hl]. destruct (q y) eqn:Hqy; [| by apply IH].
  by rewrite (Hq x y) in Hy.
Qed.

(** ** Statements that leave tables alone *)

(** [keeps ts]: the tables [ts] are not touched. *)
Definition keeps (ts : list table_name) (d d' : db) : Prop := forall t, t ∈ ts -> d' t = d t.

#[export] Instance keeps_refl ts : Reflexive (keeps ts).
Proof. by intros d t _. Qed.
#[export] Instance keeps_trans ts : Transitive (keeps ts).
Proof. intros d1 d2 d3 H12 H23 t Ht. by rewrite H23, H12. Qed.

Definition out_of (t : table_name) (ts : list table_name) : bool := negb (bool_decide (t ∈ ts)).
Definition unreached (t : table_name) (ts : list table_name) : bool := forallb (fun t' => negb (reaches 4 t t')) ts.

Lemma keeps_insert ts t mk d : out_of t ts = true -> keeps ts d (snd (insert t mk d)).
Proof.
  intros H%negb_true_iff%bool_decide_eq_false t' Ht'. apply insert_ne. by intros ->.
Qed.

Lemma keeps_update ts t p f d : out_of t ts = true -> keeps ts d (snd (update t p f d)).
Proof.
  intros H%negb_true_iff%bool_decide_eq_false t' Ht'. apply update_ne. by intros ->.
Qed.

(** INSERT ... ON CONFLICT DO UPDATE *)
Lemma keeps_upsert ts t (b : bool) p f mk d :
  out_of t ts = true ->
  keeps ts d (snd (if b then update t p f d else let '(_, d') := insert t mk d in (1, d'))).
Proof. intros H. destruct b; [by apply keeps_update | exact (keeps_insert ts t mk d H)]. Qed.

Lemma keeps_delete ts t p d : unreached t ts = true -> keeps ts d (snd (delete t p d)).
Proof.
  intros H t' Ht'. apply delete_ne. unfold unreached in H. rewrite forallb_forall in H.
  apply negb_true_iff, H. by apply list_elem_of_In.
Qed.

#[local] Transparent fkeys.

(** A statement on other tables. *)
Ltac frame :=
  first [ apply keeps_insert; vm_compute; reflexivity
        | apply keeps_update; vm_compute; reflexivity
        | apply keeps_upsert; vm_compute; reflexivity
        | apply keeps_delete; vm_compute; reflexivity ].

Ltac head_of t := lazymatch t with ?f _ => head_of f | _ => t end.

(** Walks through a program down to its statements, unfolding the operations
    it calls; [leaf] settles each statement that writes. *)
Ltac guar_step leaf :=
  cbv zeta;
  lazymatch goal with
  | |- guar _ (Ret _) => exact Logic.I
  | |- guar _ (match ?x with _ => _ end) => destruct x
  | |- guar _ (bind _ _) => apply guar_bind; [| intro]
  | |- guar stays_sound time_Now => apply sound_now
  | |- guar stays_sound (query _) => apply sound_query
  | |- guar stays_sound (sql _) => apply sound_sql
  | |- guar stays_sound (query_row _) => unfold query_row
  | |- guar stays_sound (exec _) => unfold exec
  | |- guar stays_sound (exec_found _) => unfold exec_found
  | |- guar _ time_Now => apply guar_now; apply _
  | |- guar _ (query _) => apply guar_query; apply _
  | |- guar _ (query_row _) => apply guar_query_row; apply _
  | |- guar _ (sql _) => apply guar_sql; [apply _ | intros ? ?; leaf]
  | |- guar _ (exec _) => apply guar_exec; [apply _ | intros ? ?; leaf]
  | |- guar _ (exec_found _) => apply guar_exec_found; [apply _ | intros ? ?; leaf]
  | |- guar _ ?p =>
      first [ solve [eauto 3 with guar nocore] | let h := head_of p in unfold h ]
  end.
Ltac guar_walk leaf := repeat guar_step leaf.

(** ** What every result of a statement satisfies *)

Section returns_rules.
Context (I : world -> Prop).

Lemma returns_query {X} (f : db -> X) (Q : result error X -> Prop) :
  (forall m, Q (Err (Driver m))) -> (forall w, I w -> Q (Ok (f (w_db w)))) -> returns I Q (query f).
Proof.
  intros He Hok. apply returns_act. intros w Hw. specialize (Hok w Hw).
  destruct w as [d c ts [| [m |] fs] n]; simpl in *; auto.
Qed.

Lemma returns_query_row {X} (f : db -> option X) (Q : result error X -> Prop) :
  (forall e, Q (Err e)) -> (forall w x, I w -> f (w_db w) = Some x -> Q (Ok x)) -> returns I Q (query_row f).
Proof.
  intros He Hok.
  apply returns_bind with (fun r => match r with Ok x => exists w, I w /\ f (w_db w) = x | Err _ => True end).
  - apply returns_query; eauto.
  - intros [[x |] | e]; simpl; [intros (w & Hw & Hd); eauto | auto | auto].
Qed.

Lemma returns_bind_err {E A B} (Q : A -> Prop) (R : result E B -> Prop) (p : prog world (result E A))
    (k : A -> prog world (result E B)) :
  returns I (fun r => match r with Ok a => Q a | Err _ => True end) p ->
  (forall e, R (Err e)) -> (forall a, Q a -> returns I (R) (k a)) -> returns I R (x <-! p ;; k x).
Proof.
  intros Hp He Hk. eapply returns_bind; [exact Hp |]. intros [a | e] Ha; simpl; auto.
Qed.
End returns_rules.

#[export] Hint Extern 1 (Reflexive _) => apply _ : guar.

(** ** One request, from what its statements guarantee *)

Lemma wp_guar (R : db -> db -> Prop) {A} (p : prog world A) w :
  Reflexive R -> Transitive R -> guar (on_db R) p -> wp p (fun _ w' => R (w_db w) (w_db w')) w.
Proof. intros HR HT Hp. exact (guar_run (on_db R) p w _ _ Hp). Qed.

(** A program that writes nothing, and what its result satisfies. *)
Lemma wp_reads {A} (Q : A -> Prop) (p : prog world A) (R : A -> world -> Prop) w :
  guar (on_db eq) p -> returns (fun w' => w_db w' = w_db w) Q p ->
  (forall a w', Q a -> w_db w' = w_db w -> R a w') -> wp p R w.
Proof.
  intros Hp Hr HR. unfold wp. assert (w_db w = w_db w) as Heq by done. revert Heq Hr HR.
  generalize (w_db w) at 1 3 4 as d. intros d Heq Hr HR. revert w Heq Hp Hr. induction p as [a | X f k IH]; intros w Heq Hp Hr; simpl.
  - by apply HR.
  - destruct Hp as [Hf Hk]. specialize (Hf w). specialize (Hr w (eq_sym Heq)). destruct (f w) as [x w'].
    apply IH; [by rewrite Heq | apply Hk | exact Hr].
Qed.
