(* ===== verification/TableFacts.v ===== *)
(** * Tables: constraints, lookups and order

    When an INSERT or a cascading DELETE keeps the constraints, what a lookup
    finds after a statement, and that ORDER BY sorts. *)

From S2P Require Import Prelude GoStrings Effects Models Schema SqlFacts.

(** ** Constraints *)

Section constraints.
Implicit Types (d : db).

#[local] Opaque fkeys.

(** The row of every reference exists. *)
Definition refers (d : db) : Prop :=
  forall k, k ∈ fkeys -> forall r i, r ∈ rows (d (child k)) -> column k r = Some i ->
  exists x, x ∈ rows (d (parent k)) /\ row_id (parent k) x = i.

Lemma has_id_spec t i d : has_id t i d = true <-> exists x, x ∈ rows (d t) /\ row_id t x = i.
Proof.
  unfold has_id. rewrite existsb_exists. setoid_rewrite <- list_elem_of_In.
  split; intros (x & Hx & Hi); exists x; (split; [done |]); by apply Z.eqb_eq.
Qed.

Lemma dangling_false k d :
  dangling k d = false <-> forall r i, r ∈ rows (d (child k)) -> column k r = Some i -> has_id (parent k) i d = true.
Proof.
  unfold dangling. rewrite <- not_true_iff_false, existsb_exists. split.
  - intros Hn r i Hr Hi. destruct (has_id (parent k) i d) eqn:E; [done |]. destruct Hn. exists r.
    split; [by apply list_elem_of_In |]. by rewrite Hi, E.
  - intros Hall (r & Hr & Hd). destruct (column k r) as [i |] eqn:Hi; [| done].
    rewrite (Hall r i) in Hd; [done | by apply list_elem_of_In | done].
Qed.

Lemma violated_None d : violated d = None <-> (forall t, clashes (clash t) (rows (d t)) = false) /\ refers d.
Proof.
  split.
  - intros Hv. split; [intros t; by apply violated_clashes |]. intros k Hk r i Hr Hi.
    unfold violated in Hv. destruct (existsb _ all_tables); [done |]. destruct (existsb _ fkeys) eqn:E; [done |].
    apply has_id_spec. assert (dangling k d = false) as Hd.
    { apply not_true_iff_false. intros Hd. apply not_true_iff_false in E. apply E, existsb_exists. exists k.
      split; [by apply list_elem_of_In | done]. }
    by apply (proj1 (dangling_false k d) Hd r i).
  - intros [Hc Hr]. unfold violated.
    replace (existsb _ all_tables) with false; [replace (existsb _ fkeys) with false; [done |] |]; symmetry; apply not_true_iff_false.
    + intros (k & Hk & Hd)%existsb_exists. apply not_false_iff_true in Hd. apply Hd, dangling_false.
      intros r i Hin Hi. apply has_id_spec. eapply Hr; [by apply list_elem_of_In | done | done].
    + intros (t & _ & Ht)%existsb_exists. by rewrite Hc in Ht.
Qed.

(** Every id of a table came out of its sequence. *)
Definition drawn (t : table_name) (d : db) : Prop := forall x, x ∈ rows (d t) -> (row_id t x <= seq (d t))%Z.

(** The references of a row to insert. *)
Definition links (t : table_name) (x : row t) (d : db) : bool :=
  forallb (fun k => match decide (child k = t) with
                    | left e => match column k (eq_rect_r row x e) with Some i => has_id (parent k) i d | None => true end
                    | right _ => true
                    end) fkeys.

(** An INSERT whose references exist and that clashes with no row. *)
Lemma violated_insert_linked t mk d :
  let x := mk (seq (d t) + 1)%Z in
  violated d = None -> (forall y, y ∈ rows (d t) -> clash t y x = false) -> links t x d = true ->
  violated (snd (insert t mk d)) = None.
Proof.
  intros x [Hc Hr]%violated_None Hnew Hlink. apply violated_None.
  assert (forall t' y, y ∈ rows (d t') -> y ∈ rows (snd (insert t mk d) t')) as Hsub.
  { intros t' y Hy. destruct (decide (t = t')) as [<- | Hne]; [| by rewrite insert_ne].
    rewrite insert_eq. apply elem_of_app. by left. }
  split.
  - intros t'. destruct (decide (t = t')) as [<- | Hne]; [| by rewrite insert_ne]. rewrite insert_eq. by apply clashes_snoc.
  - unfold links in Hlink. rewrite forallb_forall in Hlink. intros k Hk r i Hin Hi.
    assert (exists y, y ∈ rows (d (parent k)) /\ row_id (parent k) y = i) as (y & Hy & Hid); [| eauto].
    specialize (Hlink k ltac:(by apply list_elem_of_In)). destruct (decide (child k = t)) as [e | Hne].
    + destruct k as [ch col pa ca]. cbn [child column parent] in *. subst ch. rewrite insert_eq in Hin. cbn [rows] in Hin.
      apply elem_of_app in Hin as [Hin | ->%list_elem_of_singleton]; [exact (Hr _ Hk r i Hin Hi) |].
      apply has_id_spec. unfold eq_rect_r in Hlink. simpl in Hlink. unfold x in Hlink. by rewrite Hi in Hlink.
    + rewrite insert_ne in Hin by done. exact (Hr k Hk r i Hin Hi).
Qed.

(** An INSERT of a row that clashes is refused. *)
Lemma violated_insert_clash t mk d y :
  y ∈ rows (d t) -> clash t y (mk (seq (d t) + 1)%Z) = true -> violated (snd (insert t mk d)) <> None.
Proof.
  intros Hy Hc [Hv _]%violated_None. specialize (Hv t). rewrite insert_eq in Hv. cbn [rows] in Hv.
  induction (rows (d t)) as [| a l IH]; [by apply not_elem_of_nil in Hy |]. simpl in Hv.
  apply orb_false_iff in Hv as [Ha Hl]. apply elem_of_cons in Hy as [-> | Hy]; [| by apply IH].
  apply not_true_iff_false in Ha. apply Ha, existsb_exists. exists (mk (seq (d t) + 1)%Z).
  split; [apply in_or_app; right; by left | done].
Qed.

(** Rows are dropped, and no reference with them. *)
Lemma violated_drops d d' :
  (forall t, exists q, rows (d' t) = delete_where q (rows (d t))) -> refers d' -> violated d = None -> violated d' = None.
Proof.
  intros Hd Hr [Hc _]%violated_None. apply violated_None. split; [| done].
  intros t. destruct (Hd t) as [q ->]. by apply clashes_delete_where.
Qed.
End constraints.

(** ** Lookups *)

Section finds.
Context {A : Type}.
Implicit Types (p q : A -> bool) (f : A -> A) (l : list A).

Lemma find_update_where p q f l :
  (forall x, p x = true -> q (f x) = q x) ->
  List.find q (update_where p f l) = option_map (fun x => if p x then f x else x) (List.find q l).
Proof.
  intros Hq. unfold update_where. induction l as [| x l IH]; simpl; [done |]. destruct (p x) eqn:Hp.
  - rewrite Hq by done. destruct (q x); simpl; [by rewrite Hp | done].
  - destruct (q x); simpl; [by rewrite Hp | done].
Qed.

Lemma find_snoc q l x :
  List.find q (l ++ [x]) = match List.find q l with Some y => Some y | None => if q x then Some x else None end.
Proof. induction l as [| y l IH]; simpl; [done |]. by destruct (q y). Qed.

Lemma find_delete_where p q l :
  (forall x y, x ∈ l -> y ∈ l -> q x = true -> q y = true -> x = y) ->
  List.find q (delete_where p l) = match List.find q l with Some x => if p x then None else Some x | None => None end.
Proof.
  unfold delete_where. induction l as [| x l IH]; intros Hu; simpl; [done |].
  specialize (IH (fun a b Ha Hb => Hu a b (list_elem_of_further a x l Ha) (list_elem_of_further b x l Hb))).
  destruct (p x) eqn:Hp; simpl; [| destruct (q x); [by rewrite Hp | done]]. rewrite IH. destruct (q x) eqn:Hq; [| done].
  rewrite Hp. destruct (List.find q l) as [y |] eqn:Hf; [| done]. apply List.find_some in Hf as [Hy Hqy].
  rewrite (Hu y x) by (first [by left | right; by apply list_elem_of_In | done]). by rewrite Hp.
Qed.

Lemma find_ext_in p q l : (forall x, x ∈ l -> p x = q x) -> List.find p l = List.find q l.
Proof.
  induction l as [| x l IH]; intros Hpq; simpl; [done |]. rewrite (Hpq x) by left.
  rewrite IH; [done |]. intros y Hy. apply Hpq. by right.
Qed.

Lemma find_Some q l x : List.find q l = Some x -> x ∈ l /\ q x = true.
Proof. intros [Hx Hq]%List.find_some. split; [by apply list_elem_of_In | done]. Qed.

Lemma find_None q l : List.find q l = None -> forall x, x ∈ l -> q x = false.
Proof. intros Hn x Hx. eapply List.find_none; [done | by apply list_elem_of_In]. Qed.

Lemma find_elem q l x : x ∈ l -> q x = true -> exists y, List.find q l = Some y.
Proof.
  intros Hx Hq. destruct (List.find q l) eqn:E; [eauto |]. by rewrite (find_None _ _ E x Hx) in Hq.
Qed.
End finds.

(** ** ORDER BY *)

Section sorted.
Context {A : Type} (le : A -> A -> bool).
Context (Htotal : forall a b, le a b = true \/ le b a = true) (Htrans : forall a b c, le a b = true -> le b c = true -> le a c = true).

Lemma insert_sorted_Sorted x l : StronglySorted (fun a b => le a b = true) l -> StronglySorted (fun a b => le a b = true) (insert_sorted le x l).
Proof.
  induction 1 as [| y l Hl IH Hy]; simpl; [repeat constructor |]. destruct (le x y) eqn:E.
  - constructor; [by constructor |]. constructor; [done |]. eapply Forall_impl; [done |]. eauto.
  - constructor; [done |]. apply Forall_forall. intros z Hz.
    assert (z ∈ x :: l) as Hz'.
    { clear -Hz. induction l as [| w l IH]; simpl in Hz; [done |]. destruct (le x w); [done |].
      apply elem_of_cons in Hz as [-> | Hz]; [set_solver |]. specialize (IH Hz). set_solver. }
    apply elem_of_cons in Hz' as [-> | Hz'].
    + destruct (Htotal x y); [congruence | done].
    + rewrite Forall_forall in Hy. auto.
Qed.

Lemma order_by_Sorted l : StronglySorted (fun a b => le a b = true) (order_by le l).
Proof. induction l as [| x l IH]; simpl; [constructor | by apply insert_sorted_Sorted]. Qed.

(** The first row is least. *)
Lemma head_order_by l x : head (order_by le l) = Some x -> x ∈ l /\ forall y, y ∈ l -> le x y = true.
Proof.
  pose proof (order_by_Sorted l) as Hs. intros Hh. destruct (order_by le l) as [| z l'] eqn:E; [done |].
  injection Hh as ->. assert (forall y, y ∈ l <-> y ∈ x :: l') as Hin by (intros y; by rewrite <- E, elem_of_order_by).
  split; [apply Hin; by left |]. intros y [-> | Hy]%Hin%elem_of_cons; [by destruct (Htotal x x) |].
  apply StronglySorted_inv in Hs as [_ Hs]. rewrite Forall_forall in Hs. auto.
Qed.

Lemma head_order_by_None l : head (order_by le l) = None -> l = [].
Proof.
  intros Hh. destruct (order_by le l) as [| z l'] eqn:E; [| done]. apply Permutation_nil_r.
  rewrite <- (order_by_perm le l), E. done.
Qed.
End sorted.

(** A table that no other refers to loses rows, and nothing else happens. *)
Definition childless (t : table_name) : bool := forallb (fun k => negb (bool_decide (parent k = t))) fkeys.

Lemma delete_childless t p d :
  childless t = true -> snd (delete t p d) = set_table t (mkTable (delete_where p (rows (d t))) (seq (d t))) d.
Proof.
  intros Ht. unfold delete. cbn [snd]. generalize 3. intros n. cbn [delete_cascade].
  apply (fold_left_inv (fun d' => d' = set_table t (mkTable (delete_where p (rows (d t))) (seq (d t))) d)); [done |].
  intros d' k Hin ->. destruct (_ && cascade k) eqn:E; [| done]. exfalso. unfold childless in Ht. rewrite forallb_forall in Ht.
  apply list_elem_of_In in Hin. specialize (Ht k Hin). apply negb_true_iff, bool_decide_eq_false in Ht.
  by apply andb_true_iff in E as [E%bool_decide_eq_true _].
Qed.

Lemma violated_delete_childless t p d : childless t = true -> violated d = None -> violated (snd (delete t p d)) = None.
Proof.
  intros Ht Hv. pose proof (delete_childless t p d Ht) as Hdel. apply (violated_drops d); [| | done].
  - intros t'. rewrite Hdel. destruct (decide (t' = t)) as [-> |]; [exists p; by rewrite set_table_eq |].
    exists (fun _ => false). rewrite set_table_ne by done. unfold delete_where. cbn [negb]. by rewrite filter_true.
  - intros k Hk r i Hin Hi. pose proof (delete_sub t p d (child k) r Hin) as Hr.
    destruct (proj2 (proj1 (violated_None d) Hv) k Hk r i Hr Hi) as (y & Hy & Hid). exists y. split; [| done].
    rewrite Hdel, set_table_ne; [done |]. unfold childless in Ht. rewrite forallb_forall in Ht. apply list_elem_of_In in Hk. specialize (Ht k Hk).
    apply negb_true_iff, bool_decide_eq_false in Ht. congruence.
Qed.

(** ** Statements in a sound world *)

Lemma wp_sql_any {X} (f : db -> X * db) (Q : result error X -> world -> Prop) w :
  sound w ->
  (violated (snd (f (w_db w))) = None -> sound (with_db (snd (f (w_db w))) w) ->
     Q (Ok (fst (f (w_db w)))) (with_db (snd (f (w_db w))) w)) ->
  (forall c, violated (snd (f (w_db w))) = Some c -> Q (Err (Constraint c)) w) ->
  wp (sql f) Q w.
Proof.
  intros Hw Hok Herr. destruct (violated (snd (f (w_db w)))) as [c |] eqn:V.
  - specialize (Herr c eq_refl). unfold wp, sql, tx. destruct w as [d cl ts fs n]. destruct Hw as [Hf Hv].
    unfold healthy in Hf. simpl in *. subst fs. simpl. destruct (f d) as [x d']. simpl in V. rewrite V. simpl.
    replace (n + 0) with n by lia. exact Herr.
  - apply wp_sql_sound; [done | done |]. intros w' Hs. by apply Hok.
Qed.

(** A transaction that returns, or is rolled back. *)
Lemma wp_tx_any {X} (f : world -> result error (X * db) * nat) (Q : result error X -> world -> Prop) w :
  sound w ->
  (forall e n, fst (f w) = Err e -> Q (Err e) (mkWorld (w_db w) (w_clock w) (w_ticks w) (w_faults w) (w_draws w + n))) ->
  (forall x d' n, fst (f w) = Ok (x, d') -> violated d' = None ->
     Q (Ok x) (mkWorld d' (w_clock w) (w_ticks w) (w_faults w) (w_draws w + n))) ->
  (forall x d' c n, fst (f w) = Ok (x, d') -> violated d' = Some c ->
     Q (Err (Constraint c)) (mkWorld (w_db w) (w_clock w) (w_ticks w) (w_faults w) (w_draws w + n))) ->
  wp (tx f) Q w.
Proof.
  intros [Hf Hv] He Hok Hc. apply wp_act. destruct w as [d cl ts fs n]. unfold healthy in Hf. simpl in Hf. subst fs. simpl.
  destruct (f (mkWorld d cl ts [] n)) as [[[x d'] | e] m] eqn:E; simpl.
  - destruct (violated d') as [c |] eqn:V; [by eapply Hc | by apply Hok].
  - by apply He.
Qed.

(** What leaves some tables alone and the world sound. *)
Definition beside (ts : list table_name) {A} (p : prog world A) : Prop :=
  guar (on_db (keeps ts)) p /\ guar stays_sound p.

Lemma wp_beside ts {A} (p : prog world A) (Q : A -> world -> Prop) w :
  beside ts p -> sound w ->
  (forall a w', sound w' -> (w_clock w <= w_clock w')%Z -> keeps ts (w_db w) (w_db w') -> Q a w') -> wp p Q w.
Proof.
  intros [Kp Ks] Hw HQ.
  eapply wp_mono; [apply wp_and; [apply wp_and; [by apply wp_sound | by apply wp_clock]
                                 | apply (wp_guar (keeps ts)); [apply _ | apply _ | exact Kp]] |].
  intros a w' [[Hw' Hc] Hk]. by apply HQ.
Qed.

(** A SELECT of one row, and an UPDATE or DELETE that reports what it found. *)
Lemma wp_row_sound {X} (f : db -> option X) (Q : result error X -> world -> Prop) w :
  sound w -> Q (match f (w_db w) with Some x => Ok x | None => Err ErrNotFound end) w -> wp (query_row f) Q w.
Proof.
  intros Hw HQ. apply wp_bind. apply wp_query_sound; [done |]. destruct (f (w_db w)); by apply wp_Ret.
Qed.

Lemma wp_exec_found_sound (f : db -> nat * db) (Q : result error unit -> world -> Prop) w :
  sound w -> violated (snd (f (w_db w))) = None ->
  (sound (with_db (snd (f (w_db w))) w) ->
     Q (if Nat.eqb (fst (f (w_db w))) 0 then Err ErrNotFound else Ok tt) (with_db (snd (f (w_db w))) w)) ->
  wp (exec_found f) Q w.
Proof.
  intros Hw Hv HQ. apply wp_bind. apply wp_sql_sound; [done | done |]. intros w' Hs. by apply wp_Ret, HQ.
Qed.

Lemma affected_pos {A} (p : A -> bool) l x : x ∈ l -> p x = true -> affected p l <> 0.
Proof. intros Hx Hp H0. by rewrite (proj1 (affected_0 p l) H0 x Hx) in Hp. Qed.

Lemma find_delete_other {A} (p q : A -> bool) l :
  (forall x, q x = true -> p x = false) -> List.find q (delete_where p l) = List.find q l.
Proof.
  intros Hpq. unfold delete_where. induction l as [| x l IH]; simpl; [done |]. destruct (q x) eqn:Hq.
  - rewrite (Hpq x Hq). simpl. by rewrite Hq.
  - destruct (p x); simpl; [done |]. by rewrite Hq.
Qed.

(** ... that finds a row. *)
Lemma wp_update_hit t p f x (Q : result error unit -> world -> Prop) w :
  sound w -> x ∈ rows (w_db w t) -> p x = true -> violated (snd (update t p f (w_db w))) = None ->
  (sound (with_db (snd (update t p f (w_db w))) w) -> Q (Ok tt) (with_db (snd (update t p f (w_db w))) w)) ->
  wp (exec_found (update t p f)) Q w.
Proof.
  intros Hw Hx Hp Hv HQ. apply wp_exec_found_sound; [done | done |]. intros Hs. rewrite update_count.
  destruct (Nat.eqb_spec (affected p (rows (w_db w t))) 0) as [H0 | _]; [destruct (affected_pos _ _ x Hx Hp H0) | by apply HQ].
Qed.

Lemma wp_delete_hit t p x (Q : result error unit -> world -> Prop) w :
  sound w -> x ∈ rows (w_db w t) -> p x = true -> violated (snd (delete t p (w_db w))) = None ->
  (sound (with_db (snd (delete t p (w_db w))) w) -> Q (Ok tt) (with_db (snd (delete t p (w_db w))) w)) ->
  wp (exec_found (delete t p)) Q w.
Proof.
  intros Hw Hx Hp Hv HQ. apply wp_exec_found_sound; [done | done |]. intros Hs. cbn [delete fst].
  destruct (Nat.eqb_spec (affected p (rows (w_db w t))) 0) as [H0 | _]; [destruct (affected_pos _ _ x Hx Hp H0) | by apply HQ].
Qed.

(** Programs that write nothing. *)
Lemma wp_calmly {A} (p : prog world A) (Q : A -> world -> Prop) w :
  guar (on_db eq) p -> guar stays_sound p -> sound w ->
  (forall a w', sound w' -> w_db w' = w_db w -> (w_clock w <= w_clock w')%Z -> Q a w') -> wp p Q w.
Proof.
  intros Hp Hs Hw HQ. eapply wp_mono; [apply wp_and; [apply wp_and; [by apply wp_sound | by apply wp_clock] |
    apply (wp_guar eq); [apply _ | apply _ | exact Hp]] |].
  intros a w' [[Hs' Hc] He]. by apply HQ.
Qed.

Lemma wp_now_sound (Q : Z -> world -> Prop) w :
  sound w -> (forall t w', sound w' -> w_db w' = w_db w -> (w_clock w <= t)%Z -> Q t w') -> wp time_Now Q w.
Proof.
  intros [Hf Hv] HQ. apply wp_now. intros c ts Hc. apply HQ; [by split | done | done].
Qed.

(** An INSERT and the SELECT that reads the row back. *)
Lemma wp_insert_back t mk (wrapped : error -> error) (Q : result error (row t) -> world -> Prop) w :
  sound w ->
  (forall a b, (row_id t a =? row_id t b)%Z = true -> clash t a b = true) ->
  (forall id, row_id t (mk id) = id) ->
  (forall e, Q (Err e) w) ->
  (forall id w', sound w' -> rows (w_db w' t) = rows (w_db w t) ++ [mk id] -> Q (Ok (mk id)) w') ->
  wp (r <- sql (insert t mk) ;;
      match r with Ok id => query_row (select1 t (fun x => row_id t x =? id)%Z) | Err e => Ret (Err (wrapped e)) end)%prog Q w.
Proof.
  intros Hw Hclash Hid He Hok. apply wp_bind. apply wp_sql_any; [done | | intros m _; by apply wp_Ret].
  intros Hv Hw'. cbn [insert fst snd w_db with_db]. set (id := (seq (w_db w t) + 1)%Z).
  set (d' := snd (insert t mk (w_db w))) in *. change (set_table _ _ _) with d'.
  assert (rows (d' t) = rows (w_db w t) ++ [mk id]) as Hrows by (unfold d'; by rewrite insert_eq).
  apply wp_row_sound; [exact Hw' |]. cbn [w_db with_db]. unfold select1.
  assert (mk id ∈ rows (d' t)) as Hin by (rewrite Hrows; apply elem_of_app; right; by left).
  destruct (find_elem (fun x => row_id t x =? id)%Z (rows (d' t)) _ Hin) as [y Hy]; [by rewrite Hid, Z.eqb_refl |].
  destruct (find_Some _ _ _ Hy) as [Hyin Hyid%Z.eqb_eq].
  assert (y = mk id) as ->.
  { apply (clashes_inj (clash t) (row_id t) (rows (d' t)));
      [intros a b Hab; by apply Hclash, Z.eqb_eq | by apply violated_clashes | done | done | by rewrite Hid]. }
  rewrite Hy. by apply Hok.
Qed.
