(* ===== verification/Store.v ===== *)
(** * The store: authorities, certificates, identities, audit, throttling
    (internal/store/store.go)

    One definition per method of [Store], with the SQL it runs.  Errors that
    the code turns into [ErrNotFound] or a message are values of [error];
    anything the driver reports comes from the world.  Listings that leave the
    order of the rows to the database take it from [RowOrder]. *)

From S2P Require Import Prelude GoStrings Effects Models Schema.

Module Store.

Open Scope prog_scope.

(** ** Authorities *)

Definition issuing (c : CA.t) : bool := CA_HasKey c && str_is (CA.Status c) StatusActive.

(** ORDER BY is_default DESC, id ASC *)
Definition default_first (a b : CA.t) : bool :=
  match CA.IsDefault a, CA.IsDefault b with
  | true, false => true
  | false, true => false
  | _, _ => (CA.ID a <=? CA.ID b)%Z
  end.

Section authorities.
Context `{RowOrder}.

Definition GetCA (id : Z) : M CA.t :=
  query_row (select1 Cas (fun c => CA.ID c =? id)%Z).

Definition GetCABySlug (slug : string) : M CA.t :=
  query_row (select1 Cas (fun c => str_is (CA.Slug c) slug)).

Definition CountIssuingCAs : M Z :=
  query (fun d => Z.of_nat (length (select Cas issuing d))).

Definition DefaultCA : M CA.t :=
  query_row (fun d => head (order_by default_first (select Cas issuing d))).

Definition GetCAByRef (ref : string) : M CA.t :=
  let ref := Str.TrimSpace ref in
  if str_is ref "" then DefaultCA
  else query_row (fun d => head (scan (select Cas (fun c =>
         str_is (CA.Slug c) ref || str_is (CA.Name c) ref || str_is (Str.itoa (CA.ID c)) ref) d))).

(** The row INSERT INTO cas writes for the struct [c]: last_crl_at is left
    NULL. *)
Definition ca_row (c : CA.t) (created_at : Z) (is_default : bool) (id : Z) : CA.t :=
  CA.mk id (CA.Name c) (CA.Slug c) (CA.Subject c) (nz (CA.SubjectJSON c) "{}") (CA.SerialHex c)
    (CA.KeyType c) (CA.CertPEM c) (CA.KeyEnc c) (CA.CSRPEM c) (CA.IsRoot c) (CA.ParentID c)
    (CA.PathLen c) (CA.NotBefore c) (CA.NotAfter c) (nz (CA.Status c) StatusActive) (CA.CRLNumber c)
    (CA.Fingerprint c) is_default (CA.CreatedBy c) created_at None (CA.External c)
    (CA.SubjectKeyID c) (CA.AuthorityKeyID c).

Definition zero_or_now (t : Z) : prog world Z := if (t =? 0)%Z then time_Now else Ret t.

(** Is this the first CA that can issue?  A failing count leaves the struct's
    own marker. *)
Definition takes_default (c : CA.t) : prog world bool :=
  if CA_HasKey c && str_is (nz (CA.Status c) StatusActive) StatusActive then
    n <- CountIssuingCAs ;;
    Ret (match n with Ok n => if (n =? 0)%Z then true else CA.IsDefault c | Err _ => CA.IsDefault c end)
  else Ret (CA.IsDefault c).

Definition CreateCA (c : CA.t) : M CA.t :=
  created <- zero_or_now (CA.CreatedAt c) ;;
  is_default <- takes_default c ;;
  r <- sql (insert Cas (ca_row c created is_default)) ;;
  match r with
  | Err e => Ret (Err (Wrapf "insert CA" e))
  | Ok id => GetCA id
  end.

Definition ClearDefaultCA : M unit := exec (update Cas (fun _ => true) (CA.set_IsDefault false)).

Definition PendingCAs : M (list CA.t) :=
  query (fun d => order_by (fun a b => CA.CreatedAt a <=? CA.CreatedAt b)%Z
                    (scan (select Cas (fun c => str_is (CA.Status c) StatusPending) d))).

Definition ListCAs : M (list CA.t) := query (fun d => order_by default_first (rows (d Cas))).

Definition CountCAs : M Z := query (fun d => Z.of_nat (length (rows (d Cas)))).

(** Both updates of the transaction. *)
Definition SetDefaultCA (id : Z) : M unit :=
  exec (fun d => update Cas (fun c => CA.ID c =? id)%Z (CA.set_IsDefault true)
                   (snd (update Cas (fun _ => true) (CA.set_IsDefault false) d))).

Definition SetCAStatus (id : Z) (status : string) : M unit :=
  exec (update Cas (fun c => CA.ID c =? id)%Z (CA.set_Status status)).

(** UPDATE ... SET crl_number = crl_number + 1, last_crl_at = ? ... RETURNING *)
Definition bump_crl (now : Z) (c : CA.t) : CA.t :=
  CA.mk (CA.ID c) (CA.Name c) (CA.Slug c) (CA.Subject c) (CA.SubjectJSON c) (CA.SerialHex c)
    (CA.KeyType c) (CA.CertPEM c) (CA.KeyEnc c) (CA.CSRPEM c) (CA.IsRoot c) (CA.ParentID c)
    (CA.PathLen c) (CA.NotBefore c) (CA.NotAfter c) (CA.Status c) (CA.CRLNumber c + 1)
    (CA.Fingerprint c) (CA.IsDefault c) (CA.CreatedBy c) (CA.CreatedAt c) (Some now) (CA.External c)
    (CA.SubjectKeyID c) (CA.AuthorityKeyID c).

Definition NextCRLNumber (caID : Z) : M Z :=
  now <- time_Now ;;
  r <-! sql (X := option Z) (fun d => let d' := snd (update Cas (fun c => CA.ID c =? caID)%Z (bump_crl now) d) in
                      (CA.CRLNumber <$> select1 Cas (fun c => CA.ID c =? caID)%Z d', d')) ;;
  Ret (match r with Some n => Ok n | None => Err ErrNotFound end).

(** UPDATE cas SET cert_pem = ?, ... WHERE id = ? *)
Definition completed (c row : CA.t) : CA.t :=
  CA.mk (CA.ID row) (CA.Name row) (CA.Slug row) (CA.Subject c) (CA.SubjectJSON row) (CA.SerialHex c)
    (CA.KeyType row) (CA.CertPEM c) (CA.KeyEnc row) (CA.CSRPEM row) (CA.IsRoot c) (CA.ParentID c)
    (CA.PathLen c) (CA.NotBefore c) (CA.NotAfter c) (nz (CA.Status c) StatusActive) (CA.CRLNumber row)
    (CA.Fingerprint c) (CA.IsDefault row) (CA.CreatedBy row) (CA.CreatedAt row) (CA.LastCRLAt row)
    (CA.External c) (CA.SubjectKeyID c) (CA.AuthorityKeyID c).

Definition CompleteCA (id : Z) (c : CA.t) : M unit :=
  exec_found (update Cas (fun r => CA.ID r =? id)%Z (completed c)).

Definition SetCAParent (id parentID : Z) : M unit :=
  exec (update Cas (fun c => CA.ID c =? id)%Z
          (fun c => CA.set_IsRoot false (CA.set_ParentID (Some parentID) c))).

Definition FindCABySubjectKeyID (ski : string) : M CA.t :=
  if str_is ski "" then Ret (Err ErrNotFound)
  else query_row (fun d => head (scan (select Cas (fun c =>
         str_is (CA.SubjectKeyID c) ski && nonempty (CA.SubjectKeyID c)) d))).

Definition FindCABySubject (subject : string) : M CA.t :=
  query_row (fun d => head (scan (select Cas (fun c => str_is (CA.Subject c) subject) d))).

Definition FindCAByFingerprint (fp : string) : M CA.t :=
  query_row (fun d => head (scan (select Cas (fun c => str_is (CA.Fingerprint c) fp) d))).

Definition ChildCAs (parentID : Z) : M (list CA.t) :=
  query (fun d => scan (select Cas (fun c => match CA.ParentID c with
                                             | Some p => (p =? parentID)%Z
                                             | None => false end) d)).

Definition DeleteCA (id : Z) : M unit := exec_found (delete Cas (fun c => CA.ID c =? id)%Z).
End authorities.

(** ** Certificates *)

(** LEFT JOIN cas a ON a.id = c.ca_id, and [HasKey] from the stored key. *)
Definition scanCert (d : db) (c : Certificate.t) : Certificate.t :=
  Certificate.set_HasKey (nonempty (Certificate.KeyEnc c))
    (Certificate.set_CAName (match select1 Cas (fun a => CA.ID a =? Certificate.CAID c)%Z d with
                             | Some a => CA.Name a | None => EmptyString end) c).

Section certificates.
Context `{RowOrder}.

Definition GetCertificate (id : Z) : M Certificate.t :=
  query_row (fun d => scanCert d <$> select1 Certificates (fun c => Certificate.ID c =? id)%Z d).

(** revoked_at and revoke_code take their column defaults. *)
Definition cert_row (c : Certificate.t) (created_at id : Z) : Certificate.t :=
  Certificate.mk id (Certificate.CAID c) (Certificate.CAName c) (Certificate.SerialHex c)
    (Certificate.CommonName c) (Certificate.Subject c) (Certificate.SANs_ c)
    (nz (Certificate.Profile c) "server") (Certificate.KeyType c) (Certificate.CertPEM c)
    (Certificate.KeyEnc c) (Certificate.CSRPEM c) (Certificate.HasKey c) (Certificate.Fingerprint c)
    (Certificate.NotBefore c) (Certificate.NotAfter c) (nz (Certificate.Status c) StatusActive) None 0
    (Certificate.RequestedBy c) (Certificate.Note c) created_at (Certificate.RenewedFrom c).

Definition CreateCertificate (c : Certificate.t) : M Certificate.t :=
  created <- zero_or_now (Certificate.CreatedAt c) ;;
  r <- sql (insert Certificates (cert_row c created)) ;;
  match r with
  | Err e => Ret (Err (Wrapf "insert certificate" e))
  | Ok id => GetCertificate id
  end.

Definition GetCertificateBySerial (serial : string) : M Certificate.t :=
  let serial := Str.ToUpper (Str.remove_char ":" (Str.TrimSpace serial)) in
  query_row (fun d => scanCert d <$>
    head (scan (select Certificates (fun c => str_is (Str.ToUpper (Certificate.SerialHex c)) serial) d))).

(** SET status = 'revoked', revoked_at = ?, revoke_code = ? *)
Definition set_revocation (status : string) (at_ : option Z) (code : Z) (c : Certificate.t) : Certificate.t :=
  Certificate.mk (Certificate.ID c) (Certificate.CAID c) (Certificate.CAName c) (Certificate.SerialHex c)
    (Certificate.CommonName c) (Certificate.Subject c) (Certificate.SANs_ c) (Certificate.Profile c)
    (Certificate.KeyType c) (Certificate.CertPEM c) (Certificate.KeyEnc c) (Certificate.CSRPEM c)
    (Certificate.HasKey c) (Certificate.Fingerprint c) (Certificate.NotBefore c) (Certificate.NotAfter c)
    status at_ code (Certificate.RequestedBy c) (Certificate.Note c) (Certificate.CreatedAt c)
    (Certificate.RenewedFrom c).

Definition RevokeCertificate (id reason : Z) : M unit :=
  now <- time_Now ;;
  n <-! sql (update Certificates
               (fun c => (Certificate.ID c =? id)%Z && negb (str_is (Certificate.Status c) StatusRevoked))
               (set_revocation StatusRevoked (Some now) reason)) ;;
  Ret (if Nat.eqb n 0
       then Err (Errorf (Str.Sprintf "certificate %d not found or already revoked" [Str.AInt id]))
       else Ok tt).

Definition revokeReasonName (code : Z) : string :=
  match code with
  | 0%Z => "unspecified" | 1%Z => "key compromise" | 2%Z => "CA compromise"
  | 3%Z => "affiliation changed" | 4%Z => "superseded" | 5%Z => "cessation of operation"
  | 6%Z => "certificate hold" | 9%Z => "privilege withdrawn" | 10%Z => "AA compromise"
  | _ => Str.Sprintf "code %d" [Str.AInt code]
  end.

(** A SELECT of the status followed by an unconditional UPDATE. *)
Definition UnrevokeCertificate (id : Z) : M unit :=
  sc <-! query_row (fun d => (fun c => (Certificate.Status c, Certificate.RevokeCode c)) <$>
                              select1 Certificates (fun c => Certificate.ID c =? id)%Z d) ;;
  let '(status, code) := sc in
  if negb (str_is status StatusRevoked)
  then Ret (Err (Errorf (Str.Sprintf "certificate %d is not revoked" [Str.AInt id])))
  else if negb (code =? 6)%Z
  then Ret (Err (Errorf (Str.Sprintf
         "only certificates on hold can be reinstated; this one was revoked as %q"
         [Str.AStr (revokeReasonName code)])))
  else exec (update Certificates (fun c => Certificate.ID c =? id)%Z (set_revocation StatusActive None 0)).

Definition revoked_for (caID : Z) (c : Certificate.t) : bool :=
  (Certificate.CAID c =? caID)%Z && str_is (Certificate.Status c) StatusRevoked.

(** NULLs first, as SQLite orders them. *)
Definition opt_le (a b : option Z) : bool :=
  match a, b with None, _ => true | Some _, None => false | Some x, Some y => (x <=? y)%Z end.

Definition RevokedCertificates (caID : Z) : M (list Certificate.t) :=
  query (fun d => map (scanCert d)
    (order_by (fun a b => opt_le (Certificate.RevokedAt a) (Certificate.RevokedAt b))
              (scan (select Certificates (revoked_for caID) d)))).

Definition SetRenewedFrom (id predecessorID : Z) : M unit :=
  exec (update Certificates (fun c => Certificate.ID c =? id)%Z
          (Certificate.set_RenewedFrom (Some predecessorID))).

Definition renews (id : Z) (c : Certificate.t) : bool :=
  match Certificate.RenewedFrom c with Some p => (p =? id)%Z | None => false end.

(** The first replacement, or nil. *)
Definition CertificateRenewedFrom (id : Z) : M (option Certificate.t) :=
  query (fun d => option_map (scanCert d)
    (head (order_by (fun a b => Certificate.ID a <=? Certificate.ID b)%Z (select Certificates (renews id) d)))).

Definition DeleteCertificate (id : Z) : M unit :=
  exec_found (delete Certificates (fun c => Certificate.ID c =? id)%Z).

Definition SerialExists (caID : Z) (serial : string) : M bool :=
  query (fun d => negb (Nat.eqb (length (select Certificates (fun c =>
    (Certificate.CAID c =? caID)%Z && str_is (Certificate.SerialHex c) serial) d)) 0)).

(** INSERT ... ON CONFLICT(ca_id, serial_hex) DO UPDATE *)
Definition RecordCARevocation (issuerCAID : Z) (serial : string) (reason : Z) : M unit :=
  now <- time_Now ;;
  let same r := (CARevocation.CAID r =? issuerCAID)%Z && str_is (CARevocation.SerialHex r) serial in
  exec (fun d =>
    if existsb same (rows (d CaRevocations))
    then update CaRevocations same
           (fun r => CARevocation.mk (CARevocation.ID r) (CARevocation.CAID r) (CARevocation.SerialHex r)
                       (CARevocation.Subject r) now reason) d
    else let '(_, d') := insert CaRevocations
               (fun id => CARevocation.mk id issuerCAID serial "" now reason) d in (1, d')).

Definition CARevocations_ (issuerCAID : Z) : M (list CARevocation.t) :=
  query (fun d => order_by (fun a b => CARevocation.RevokedAt a <=? CARevocation.RevokedAt b)%Z
    (scan (select CaRevocations (fun r => CARevocation.CAID r =? issuerCAID)%Z d))).
End certificates.

(** ** Searching certificates *)

(** A JSON string literal as encoding/json writes it: an ASCII character
    escaped where it must be, a byte that is not part of a UTF-8 sequence as
    the replacement character, U+2028 and U+2029 escaped. *)
Definition json_char (c : ascii) : string :=
  let n := Str.code c in
  let u := String Str.backslash (String "u" (String "0" (String "0"
             (String (Str.hex_digit (n / 16)) (String (Str.hex_digit (n mod 16)) EmptyString))))) in
  if Ascii.eqb c Str.dquote || Ascii.eqb c Str.backslash then String Str.backslash (String c EmptyString)
  else if (n =? 10)%nat then String Str.backslash "n"
  else if (n =? 13)%nat then String Str.backslash "r"
  else if (n =? 9)%nat then String Str.backslash "t"
  else if (n =? 8)%nat then String Str.backslash "b"
  else if (n =? 12)%nat then String Str.backslash "f"
  else if ((n <? 32) || (n =? 60) || (n =? 62) || (n =? 38))%nat then u
  else String c EmptyString.
Definition json_rune (r : option string) : string :=
  match r with
  | None => "\ufffd"
  | Some (String c EmptyString) => json_char c
  | Some r => if str_is r (String "226" (String "128" (String "168" EmptyString))) then "\u2028"
              else if str_is r (String "226" (String "128" (String "169" EmptyString))) then "\u2029"
              else r
  end.
Definition json_body (s : string) : string := Str.concat_all (map json_rune (Str.runes s)).
Definition json_string (s : string) : string :=
  (String Str.dquote (json_body s) +:+ String Str.dquote EmptyString)%go.
Definition EncodeSANs (sans : list string) : string :=
  ("[" +:+ Str.Join (map json_string sans) "," +:+ "]")%go.

(** SQL's LIKE on lower-cased text: [%] any run, [_] any character. *)
Fixpoint like (p s : string) : bool :=
  match p with
  | EmptyString => str_is s ""
  | String "%" p' =>
      (fix skip (s : string) : bool :=
         like p' s || match s with EmptyString => false | String _ s' => skip s' end) s
  | String c p' =>
      match s with
      | EmptyString => false
      | String d s' => (Ascii.eqb c "_" || Ascii.eqb c d) && like p' s'
      end
  end.

(** models.go: CertFilter *)
Record CertFilter := mkFilter {
  f_Query : string; f_CAID : Z; f_Status : string; f_Profile : string; f_RequestedBy : string;
  f_ExpiringIn : Z; f_Limit : Z; f_Offset : Z; f_SortBy : string; f_SortDesc : bool }.

(** The WHERE clause, its terms in the code's order. *)
Definition search_matches (now : Z) (f : CertFilter) (c : Certificate.t) : bool :=
  let q := Str.TrimSpace (f_Query f) in
  let has pat text := like ("%" +:+ pat +:+ "%")%go text in
  let low := Str.ToLower q in
  let bare := Str.ToUpper (Str.remove_char ":" q) in
  (str_is q "" ||
     (has low (Str.ToLower (Certificate.CommonName c)) || has low (Str.ToLower (Certificate.Subject c)) ||
      has low (Str.ToLower (EncodeSANs (Certificate.SANs_ c))) || has low (Str.ToLower (Certificate.RequestedBy c)) ||
      has bare (Str.ToUpper (Certificate.SerialHex c)) || has bare (Str.ToUpper (Certificate.Fingerprint c)))) &&
  (if (0 <? f_CAID f)%Z then (Certificate.CAID c =? f_CAID f)%Z else true) &&
  (if nonempty (f_Profile f) then str_is (Certificate.Profile c) (f_Profile f) else true) &&
  (if nonempty (f_RequestedBy f) then str_is (Certificate.RequestedBy c) (f_RequestedBy f) else true) &&
  (if str_is (f_Status f) StatusActive
   then str_is (Certificate.Status c) StatusActive && (now <? Certificate.NotAfter c)%Z
   else if str_is (f_Status f) StatusExpired
   then negb (str_is (Certificate.Status c) StatusRevoked) && (Certificate.NotAfter c <=? now)%Z
   else if str_is (f_Status f) StatusRevoked then str_is (Certificate.Status c) StatusRevoked
   else true) &&
  (if (0 <? f_ExpiringIn f)%Z
   then str_is (Certificate.Status c) StatusActive && (now <? Certificate.NotAfter c)%Z &&
        (Certificate.NotAfter c <=? AddDays (f_ExpiringIn f) now)%Z
   else true).

Definition str_le (a b : string) : bool := match String.compare a b with Gt => false | _ => true end.

(** ORDER BY the column, then the id, both in the same direction. *)
Definition search_order (f : CertFilter) (a b : Certificate.t) : bool :=
  let le (a b : Certificate.t) :=
    let ids := (Certificate.ID a <=? Certificate.ID b)%Z in
    let byZ x y := if (x =? y)%Z then ids else (x <=? y)%Z in
    let byS x y := if str_is x y then ids else str_le x y in
    if str_is (f_SortBy f) "not_after" || str_is (f_SortBy f) "expiry"
    then byZ (Certificate.NotAfter a) (Certificate.NotAfter b)
    else if str_is (f_SortBy f) "common_name" || str_is (f_SortBy f) "cn"
    then byS (Certificate.CommonName a) (Certificate.CommonName b)
    else if str_is (f_SortBy f) "serial"
    then byS (Certificate.SerialHex a) (Certificate.SerialHex b)
    else byZ (Certificate.CreatedAt a) (Certificate.CreatedAt b) in
  if f_SortDesc f then le b a else le a b.

(** The page and the number of matches: two statements. *)
Definition SearchCertificates (f : CertFilter) : M (list Certificate.t * Z) :=
  now <- time_Now ;;
  total <-! query (fun d => Z.of_nat (length (select Certificates (search_matches now f) d))) ;;
  let limit := if (f_Limit f <=? 0)%Z then 50%Z else f_Limit f in
  page <-! query (fun d => map (scanCert d)
             (take (Z.to_nat limit) (drop (Z.to_nat (f_Offset f))
                (order_by (search_order f) (select Certificates (search_matches now f) d))))) ;;
  Ret (Ok (page, total)).

(** ** Users *)

Definition GetUser (id : Z) : M User.t := query_row (select1 Users (fun u => User.ID u =? id)%Z).

Section users.
Context `{RowOrder}.

Definition GetUserByName (name : string) : M User.t :=
  query_row (fun d => head (scan (select Users
    (fun u => str_is (Str.ToLower (User.Username u)) (Str.ToLower name)) d))).

Definition refreshed (u existing row : User.t) : User.t :=
  User.mk (User.ID row) (User.Username row) (nz (User.Source u) (User.Source existing))
    (nz (User.DisplayName u) (User.DisplayName existing)) (nz (User.Email u) (User.Email existing))
    (nz (User.Role u) (User.Role existing)) (User.Disabled row) (User.PassHash row)
    (User.CreatedAt row) (User.LastLogin row).

Definition upsertUserOnce (u : User.t) : M User.t :=
  existing <- GetUserByName (User.Username u) ;;
  match existing with
  | Ok ex =>
      _ <-! exec (update Users (fun r => User.ID r =? User.ID ex)%Z (refreshed u ex)) ;;
      GetUser (User.ID ex)
  | Err e =>
      if is_not_found e then
        now <- time_Now ;;
        id <-! sql (insert Users (fun id =>
                 User.mk id (User.Username u) (nz (User.Source u) SourceLocal) (User.DisplayName u)
                   (User.Email u) (nz (User.Role u) RoleUser) (User.Disabled u) (User.PassHash u) now None)) ;;
        GetUser id
      else Ret (Err e)
  end.

Definition UpsertUser (u : User.t) : M User.t :=
  out <- upsertUserOnce u ;;
  match out with
  | Ok _ => Ret out
  | Err _ =>
      again <- GetUserByName (User.Username u) ;;
      match again with Ok _ => upsertUserOnce u | Err _ => Ret out end
  end.
End users.

Definition ListUsers : M (list User.t) :=
  query (fun d => order_by (fun a b => str_le (User.Username a) (User.Username b)) (rows (d Users))).
Definition SetUserRole (id : Z) (role : string) : M unit :=
  exec (update Users (fun u => User.ID u =? id)%Z (User.set_Role role)).
Definition SetUserDisabled (id : Z) (disabled : bool) : M unit :=
  exec (update Users (fun u => User.ID u =? id)%Z (User.set_Disabled disabled)).
Definition SetUserPassword (id : Z) (hash : string) : M unit :=
  exec (update Users (fun u => User.ID u =? id)%Z (User.set_PassHash hash)).
Definition DeleteUser (id : Z) : M unit := exec_found (delete Users (fun u => User.ID u =? id)%Z).
Definition TouchLogin (id : Z) : M unit :=
  now <- time_Now ;; exec (update Users (fun u => User.ID u =? id)%Z (User.set_LastLogin (Some now))).

(** ** Sessions *)

Definition CreateSession (s : Session.t) : M unit :=
  now <- time_Now ;;
  _ <-! sql (insert Sessions (fun id => Session.mk id (Session.UserID s) (Session.TokenHash s)
               (Session.ExpiresAt s) now (Session.IP s) (Session.UserAgent s))) ;;
  Ret (Ok tt).

Definition SessionUser (tokenHash : string) : M User.t :=
  now <- time_Now ;;
  query_row (fun d =>
    s ← select1 Sessions (fun s => str_is (Session.TokenHash s) tokenHash && (now <? Session.ExpiresAt s)%Z) d;
    select1 Users (fun u => User.ID u =? Session.UserID s)%Z d).

Definition DeleteSession (tokenHash : string) : M unit :=
  exec (delete Sessions (fun s => str_is (Session.TokenHash s) tokenHash)).
Definition DeleteUserSessions (userID : Z) : M unit :=
  exec (delete Sessions (fun s => Session.UserID s =? userID)%Z).
Definition PurgeExpiredSessions : M nat :=
  now <- time_Now ;; sql (delete Sessions (fun s => Session.ExpiresAt s <=? now)%Z).

(** ** API tokens *)

Definition scanToken (d : db) (t : APIToken.t) : APIToken.t :=
  APIToken.set_Username (match select1 Users (fun u => User.ID u =? APIToken.UserID t)%Z d with
                         | Some u => User.Username u | None => EmptyString end) t.

(** The reading back of the row reports a missing row with the driver's own
    error, not with [ErrNotFound]. *)
Definition CreateAPIToken (t : APIToken.t) : M APIToken.t :=
  now <- time_Now ;;
  id <-! sql (insert ApiTokens (fun id =>
           APIToken.mk id (APIToken.UserID t) (APIToken.Username t) (APIToken.Name t) (APIToken.Prefix t)
             (APIToken.TokenHash t) (nz (APIToken.Role t) RoleUser) (APIToken.ExpiresAt t) now None false)) ;;
  r <-! query (fun d => option_map (scanToken d) (select1 ApiTokens (fun t => APIToken.ID t =? id)%Z d)) ;;
  Ret (match r with Some t => Ok t | None => Err (Driver "sql: no rows in result set") end).

Definition LookupAPIToken (hash : string) : M (APIToken.t * User.t) :=
  t <-! query_row (fun d => scanToken d <$>
          select1 ApiTokens (fun t => str_is (APIToken.TokenHash t) hash && negb (APIToken.Revoked t)) d) ;;
  now <- (match APIToken.ExpiresAt t with Some _ => time_Now | None => Ret 0%Z end) ;;
  if expired_at now (APIToken.ExpiresAt t) then Ret (Err ErrNotFound)
  else
    u <-! GetUser (APIToken.UserID t) ;;
    used <- time_Now ;;
    _ <- exec (update ApiTokens (fun r => APIToken.ID r =? APIToken.ID t)%Z (APIToken.set_LastUsedAt (Some used))) ;;
    Ret (Ok (t, u)).

Definition ListAPITokens `{RowOrder} (userID : Z) : M (list APIToken.t) :=
  query (fun d => map (scanToken d)
    (order_by (fun a b => APIToken.CreatedAt b <=? APIToken.CreatedAt a)%Z
      (scan (select ApiTokens (fun t => if (0 <? userID)%Z then (APIToken.UserID t =? userID)%Z else true) d)))).

Definition RevokeAPIToken (id : Z) : M unit :=
  exec_found (update ApiTokens (fun t => APIToken.ID t =? id)%Z (APIToken.set_Revoked true)).

(** ** Audit *)

Definition Audit (actor action target detail ip : string) : M unit :=
  now <- time_Now ;;
  _ <-! sql (insert AuditLog (fun id => AuditEntry.mk id now actor action target detail ip)) ;;
  Ret (Ok tt).

Definition ListAudit (limit : Z) : M (list AuditEntry.t) :=
  let limit := if (limit <=? 0)%Z then 100%Z else limit in
  query (fun d => take (Z.to_nat limit)
    (order_by (fun a b => (AuditEntry.TS b <? AuditEntry.TS a)%Z ||
                          ((AuditEntry.TS a =? AuditEntry.TS b)%Z && (AuditEntry.ID b <=? AuditEntry.ID a)%Z))
              (rows (d AuditLog)))).

Definition ListAuditPage (beforeID limit : Z) : M (list AuditEntry.t) :=
  let limit := if (limit <=? 0)%Z then 100%Z else limit in
  let limit := if (1000 <? limit)%Z then 1000%Z else limit in
  query (fun d => take (Z.to_nat limit)
    (order_by (fun a b => AuditEntry.ID b <=? AuditEntry.ID a)%Z
      (select AuditLog (fun a => if (0 <? beforeID)%Z then (AuditEntry.ID a <? beforeID)%Z else true) d))).

(** ** Settings *)

(** An absent key reads as "". *)
Definition GetSetting (key : string) : M string :=
  v <-! query (select1 Settings (fun s => str_is (Setting.key s) key)) ;;
  Ret (Ok (match v with Some s => Setting.value s | None => EmptyString end)).

Definition SetSetting (key value : string) : M unit :=
  exec (fun d =>
    if existsb (fun s => str_is (Setting.key s) key) (rows (d Settings))
    then update Settings (fun s => str_is (Setting.key s) key) (fun _ => Setting.mk key value) d
    else let '(_, d') := insert Settings (fun _ => Setting.mk key value) d in (1, d')).

(** ** Sign-in throttling *)

Definition RecordAuthFailure (key : string) (at_ : Z) : M unit :=
  _ <-! sql (insert AuthFailures (fun id => AuthFailure.mk id key at_)) ;; Ret (Ok tt).

Definition RecentAuthFailures (key : string) (since limit : Z) : M (list Z) :=
  query (fun d => map AuthFailure.at_
    (take (Z.to_nat limit)
       (order_by (fun a b => AuthFailure.at_ a <=? AuthFailure.at_ b)%Z
          (select AuthFailures (fun f => str_is (AuthFailure.key f) key && (since <? AuthFailure.at_ f)%Z) d)))).

Definition ClearAuthFailures (key : string) : M unit :=
  exec (delete AuthFailures (fun f => str_is (AuthFailure.key f) key)).

Definition PurgeAuthFailures (before : Z) : M nat :=
  sql (delete AuthFailures (fun f => AuthFailure.at_ f <=? before)%Z).

(** ** Figures for the dashboard: a statement each *)

Record StatsRow := mkStats {
  st_CAs : Z; st_Certificates : Z; st_Active : Z; st_Revoked : Z; st_Expired : Z; st_ExpiringSoon : Z;
  st_Users : Z; st_IssuedLast30Day : Z }.

Definition count_rows (t : table_name) (p : row t -> bool) : M Z :=
  query (fun d => Z.of_nat (length (select t p d))).

Definition Stats : M StatsRow :=
  now <- time_Now ;;
  let certs (p : Certificate.t -> bool) := count_rows Certificates p in
  let active c := str_is (Certificate.Status c) StatusActive && (now <? Certificate.NotAfter c)%Z in
  cas <-! count_rows Cas (fun _ => true) ;;
  all <-! certs (fun _ => true) ;;
  act <-! certs active ;;
  revoked <-! certs (fun c => str_is (Certificate.Status c) StatusRevoked) ;;
  expired <-! certs (fun c => negb (str_is (Certificate.Status c) StatusRevoked) && (Certificate.NotAfter c <=? now)%Z) ;;
  soon <-! certs (fun c => active c && (Certificate.NotAfter c <=? AddDays 30 now)%Z) ;;
  users <-! count_rows Users (fun _ => true) ;;
  issued <-! certs (fun c => AddDays (-30) now <=? Certificate.CreatedAt c)%Z ;;
  Ret (Ok (mkStats cas all act revoked expired soon users issued)).

End Store.
