(* ===== verification/AcmeStore.v ===== *)
(** * The store: ACME credentials, accounts, orders, nonces
    (internal/store/acme.go) *)

From S2P Require Import Prelude GoStrings Effects Models Schema.

Module AcmeStore.

Open Scope prog_scope.

(** ** EAB credentials *)

Definition eab_id (id : Z) (e : EABCred.t) : bool := (EABCred.ID e =? id)%Z.

Definition GetEABCred (id : Z) : M EABCred.t := query_row (select1 AcmeEabCreds (eab_id id)).

Definition GetEABCredByKeyID (keyID : string) : M EABCred.t :=
  query_row (select1 AcmeEabCreds (fun e => str_is (EABCred.KeyID e) keyID)).

(** account_count and last_used_at take their column defaults. *)
Definition eab_row (e : EABCred.t) (id : Z) : EABCred.t :=
  EABCred.mk id (EABCred.KeyID e) (EABCred.HMACKeyEnc e) (EABCred.Name e) (EABCred.CAID e)
    (nz (EABCred.Profile e) "server") (EABCred.Days e) (EABCred.AllowedDomains e) (EABCred.MaxAccounts e)
    0 (EABCred.Disabled e) (EABCred.ExpiresAt e) (EABCred.CreatedBy e) (EABCred.CreatedAt e) None.

Definition CreateEABCred (e : EABCred.t) : M EABCred.t :=
  id <-! sql (insert AcmeEabCreds (eab_row e)) ;; GetEABCred id.

Definition ListEABCreds : M (list EABCred.t) :=
  query (fun d => order_by (fun a b => EABCred.ID b <=? EABCred.ID a)%Z (rows (d AcmeEabCreds))).

Definition SetEABCredDisabled (id : Z) (disabled : bool) : M unit :=
  exec_found (update AcmeEabCreds (eab_id id) (EABCred.set_Disabled disabled)).

Definition DeleteEABCred (id : Z) : M unit := exec_found (delete AcmeEabCreds (eab_id id)).

(** max_accounts = 0 OR account_count < max_accounts *)
Definition has_slot (e : EABCred.t) : bool :=
  (EABCred.MaxAccounts e =? 0)%Z || (EABCred.AccountCount e <? EABCred.MaxAccounts e)%Z.

Definition ReserveEABAccountSlot (id : Z) : M bool :=
  now <- time_Now ;;
  n <-! sql (update AcmeEabCreds (fun e => eab_id id e && has_slot e)
               (fun e => EABCred.set_LastUsedAt (Some now)
                           (EABCred.set_AccountCount (EABCred.AccountCount e + 1) e))) ;;
  Ret (Ok (Nat.eqb n 1)).

Definition ReleaseEABAccountSlot (id : Z) : M unit :=
  exec (update AcmeEabCreds (fun e => eab_id id e && (0 <? EABCred.AccountCount e)%Z)
          (fun e => EABCred.set_AccountCount (EABCred.AccountCount e - 1) e)).

(** ** Accounts *)

(** LEFT JOIN acme_eab_creds e ON e.id = a.eab_id *)
Definition scanAcmeAccount (d : db) (a : AcmeAccount.t) : AcmeAccount.t :=
  AcmeAccount.set_EABName (match select1 AcmeEabCreds (eab_id (AcmeAccount.EABID a)) d with
                           | Some e => EABCred.Name e | None => EmptyString end) a.

Definition GetAcmeAccount (id : Z) : M AcmeAccount.t :=
  query_row (fun d => option_map (scanAcmeAccount d) (select1 AcmeAccounts (fun a => AcmeAccount.ID a =? id)%Z d)).

Definition GetAcmeAccountByThumbprint (thumbprint : string) : M AcmeAccount.t :=
  query_row (fun d => option_map (scanAcmeAccount d)
    (select1 AcmeAccounts (fun a => str_is (AcmeAccount.JWKThumbprint a) thumbprint) d)).

Definition account_row (a : AcmeAccount.t) (id : Z) : AcmeAccount.t :=
  AcmeAccount.mk id (AcmeAccount.EABID a) (AcmeAccount.JWKJSON a) (AcmeAccount.JWKThumbprint a)
    (AcmeAccount.Contact a) (nz (AcmeAccount.Status a) AcmeStatusValid) (AcmeAccount.CreatedAt a) None "".

Definition CreateAcmeAccount (a : AcmeAccount.t) : M AcmeAccount.t :=
  id <-! sql (insert AcmeAccounts (account_row a)) ;; GetAcmeAccount id.

Definition newest_accounts (p : AcmeAccount.t -> bool) (d : db) : list AcmeAccount.t :=
  map (scanAcmeAccount d)
    (order_by (fun a b => AcmeAccount.ID b <=? AcmeAccount.ID a)%Z (select AcmeAccounts p d)).

Definition ListAcmeAccounts : M (list AcmeAccount.t) := query (newest_accounts (fun _ => true)).

Definition ListAcmeAccountsByEAB (eabID : Z) : M (list AcmeAccount.t) :=
  query (newest_accounts (fun a => AcmeAccount.EABID a =? eabID)%Z).

Definition SetAcmeAccountStatus (id : Z) (status : string) : M unit :=
  exec_found (update AcmeAccounts (fun a => AcmeAccount.ID a =? id)%Z (AcmeAccount.set_Status status)).

Definition SetAcmeAccountContact (id : Z) (contact : list string) : M unit :=
  exec (update AcmeAccounts (fun a => AcmeAccount.ID a =? id)%Z (AcmeAccount.set_Contact contact)).

Definition TouchAcmeAccountUsed (id : Z) : M unit :=
  now <- time_Now ;;
  exec (update AcmeAccounts (fun a => AcmeAccount.ID a =? id)%Z (AcmeAccount.set_LastUsedAt (Some now))).

(** ** Orders *)

Definition order_id (id : Z) (o : AcmeOrder.t) : bool := (AcmeOrder.ID o =? id)%Z.

Definition GetAcmeOrder (id : Z) : M AcmeOrder.t := query_row (select1 AcmeOrders (order_id id)).

Definition order_row (o : AcmeOrder.t) (id : Z) : AcmeOrder.t :=
  AcmeOrder.mk id (AcmeOrder.AccountID o) (nz (AcmeOrder.Status o) AcmeStatusPending)
    (AcmeOrder.Identifiers o) None "" (AcmeOrder.ExpiresAt o) (AcmeOrder.CreatedAt o) (AcmeOrder.NotAfter o).

Definition CreateAcmeOrder (o : AcmeOrder.t) : M AcmeOrder.t :=
  id <-! sql (insert AcmeOrders (order_row o)) ;; GetAcmeOrder id.

Definition newest_order (a b : AcmeOrder.t) : bool := (AcmeOrder.ID b <=? AcmeOrder.ID a)%Z.

Definition for_certificate (certID : Z) (o : AcmeOrder.t) : bool :=
  match AcmeOrder.CertificateID o with Some c => (c =? certID)%Z | None => false end.

Definition GetAcmeOrderByCertificate (certID : Z) : M AcmeOrder.t :=
  query_row (fun d => head (order_by newest_order (select AcmeOrders (for_certificate certID) d))).

Definition ListAcmeOrdersByAccount (accountID : Z) : M (list AcmeOrder.t) :=
  query (fun d => order_by newest_order (select AcmeOrders (fun o => AcmeOrder.AccountID o =? accountID)%Z d)).

Definition SetAcmeOrderStatus (id : Z) (status : string) : M unit :=
  exec_found (update AcmeOrders (order_id id) (AcmeOrder.set_Status status)).

Definition SetAcmeOrderError (id : Z) (problemJSON : string) : M unit :=
  exec (update AcmeOrders (fun o => order_id id o && negb (str_is (AcmeOrder.Status o) AcmeStatusValid))
          (fun o => AcmeOrder.set_Error problemJSON (AcmeOrder.set_Status AcmeStatusInvalid o))).

Definition ClaimAcmeOrderForFinalize (id : Z) : M bool :=
  n <-! sql (update AcmeOrders (fun o => order_id id o && str_is (AcmeOrder.Status o) AcmeStatusReady)
               (AcmeOrder.set_Status AcmeStatusProcessing)) ;;
  Ret (Ok (Nat.eqb n 1)).

Definition SetAcmeOrderCertificate (id certID : Z) : M unit :=
  exec (update AcmeOrders (order_id id)
          (fun o => AcmeOrder.set_CertificateID (Some certID) (AcmeOrder.set_Status AcmeStatusValid o))).

(** ** Authorizations and challenges *)

Definition GetAcmeAuthorization (id : Z) : M AcmeAuthorization.t :=
  query_row (select1 AcmeAuthorizations (fun a => AcmeAuthorization.ID a =? id)%Z).

Definition CreateAcmeAuthorization (a : AcmeAuthorization.t) : M AcmeAuthorization.t :=
  id <-! sql (insert AcmeAuthorizations (fun id =>
           AcmeAuthorization.mk id (AcmeAuthorization.OrderID a) (nz (AcmeAuthorization.IdentifierType a) "dns")
             (AcmeAuthorization.IdentifierValue a) (AcmeAuthorization.Wildcard a)
             (nz (AcmeAuthorization.Status a) AcmeStatusValid) (AcmeAuthorization.ExpiresAt a)
             (AcmeAuthorization.CreatedAt a))) ;;
  GetAcmeAuthorization id.

Definition ListAcmeAuthorizationsByOrder (orderID : Z) : M (list AcmeAuthorization.t) :=
  query (fun d => order_by (fun a b => AcmeAuthorization.ID a <=? AcmeAuthorization.ID b)%Z
    (select AcmeAuthorizations (fun a => AcmeAuthorization.OrderID a =? orderID)%Z d)).

Definition GetAcmeChallenge (id : Z) : M AcmeChallenge.t :=
  query_row (select1 AcmeChallenges (fun c => AcmeChallenge.ID c =? id)%Z).

Definition CreateAcmeChallenge (c : AcmeChallenge.t) : M AcmeChallenge.t :=
  id <-! sql (insert AcmeChallenges (fun id =>
           AcmeChallenge.mk id (AcmeChallenge.AuthorizationID c) (nz (AcmeChallenge.Type_ c) "http-01")
             (AcmeChallenge.Token c) (nz (AcmeChallenge.Status c) AcmeStatusValid)
             (AcmeChallenge.ValidatedAt c) (AcmeChallenge.CreatedAt c))) ;;
  GetAcmeChallenge id.

Definition ListAcmeChallengesByAuthorization (authzID : Z) : M (list AcmeChallenge.t) :=
  query (fun d => order_by (fun a b => AcmeChallenge.ID a <=? AcmeChallenge.ID b)%Z
    (select AcmeChallenges (fun c => AcmeChallenge.AuthorizationID c =? authzID)%Z d)).

(** ** Replay nonces *)

Definition CreateAcmeNonce (nonce : string) (expires : Z) : M unit :=
  _ <-! sql (insert AcmeNonces (fun _ => AcmeNonce.mk nonce expires)) ;; Ret (Ok tt).

Definition redeemable (nonce : string) (now : Z) (r : AcmeNonce.t) : bool :=
  str_is (AcmeNonce.nonce r) nonce && (now <? AcmeNonce.expires_at r)%Z.

Definition ConsumeAcmeNonce (nonce : string) (now : Z) : M bool :=
  n <-! sql (delete AcmeNonces (redeemable nonce now)) ;; Ret (Ok (Nat.eqb n 1)).

Definition PurgeExpiredAcmeNonces (now : Z) : M nat :=
  sql (delete AcmeNonces (fun r => AcmeNonce.expires_at r <=? now)%Z).

End AcmeStore.
