(* ===== verification/Pki.v ===== *)
(** * The PKI engine (internal/pki)

    Subjects, subject alternative names, profiles, key types, serials,
    revocation reasons, and the three signing operations: [CreateCA], [Sign]
    and [CreateCRL].  The Go standard library's X.509, PEM, URL, address and
    hash functions are the class [Std]; its laws say that a certificate made by
    [x509.CreateCertificate] parses back with the fields of its template. *)

From S2P Require Import Prelude GoStrings Effects Models Schema.

Module Pki.

Open Scope prog_scope.

(** ** Data *)

(** pki.Subject *)
Record Subject := mkSubject {
  CommonName : string; Organization : string; OrganizationalUnit : string; Country : string;
  Province : string; Locality : string; StreetAddress : string; PostalCode : string;
  EmailAddress : string }.

(** pkix.Name, the attributes goca sets *)
Record Name := mkName {
  CN : string; O : list string; OU : list string; C : list string; ST : list string;
  L : list string; STREET : list string; PC : list string }.

(** url.URL, the parts goca reads *)
Record URL := mkURL { Scheme : string; Opaque : string; RawQuery : string; url_String : string }.

(** pki.SANSet; an IP is held in its canonical text form *)
Record SANSet := mkSANs {
  DNS : list string; IPs : list string; Emails : list string; URIs : list URL }.

(** What goca distinguishes in a key. *)
Inductive key_desc := RSA (bits : Z) | EC (curve : string) | Ed25519 | OtherKey.

(** x509.Certificate, used both as template and as parsed certificate *)
Record Cert (Pub : Type) := mkCert {
  Raw : string; SerialNumber : Z; cert_Subject : Name; Issuer : Name;
  cert_NotBefore : Z; cert_NotAfter : Z; KeyUsage : Z; ExtKeyUsage : list string;
  BasicConstraintsValid : bool; IsCA : bool; MaxPathLen : Z; MaxPathLenZero : bool;
  DNSNames : list string; IPAddresses : list string; EmailAddresses : list string; cert_URIs : list URL;
  PermittedDNSDomains : list string; CRLDistributionPoints : list string; OCSPServer : list string;
  SignatureAlgorithm : string; SubjectKeyId : string; AuthorityKeyId : string; cert_PublicKey : Pub }.
Arguments mkCert {Pub}. Arguments Raw {Pub}. Arguments SerialNumber {Pub}. Arguments cert_Subject {Pub}.
Arguments Issuer {Pub}. Arguments cert_NotBefore {Pub}. Arguments cert_NotAfter {Pub}.
Arguments KeyUsage {Pub}. Arguments ExtKeyUsage {Pub}. Arguments BasicConstraintsValid {Pub}.
Arguments IsCA {Pub}. Arguments MaxPathLen {Pub}. Arguments MaxPathLenZero {Pub}. Arguments DNSNames {Pub}. Arguments IPAddresses {Pub}.
Arguments EmailAddresses {Pub}. Arguments cert_URIs {Pub}. Arguments PermittedDNSDomains {Pub}.
Arguments CRLDistributionPoints {Pub}. Arguments OCSPServer {Pub}. Arguments SignatureAlgorithm {Pub}.
Arguments SubjectKeyId {Pub}. Arguments AuthorityKeyId {Pub}. Arguments cert_PublicKey {Pub}.

(** pkix.Extension; an object identifier is held as its arcs *)
Record Extension := mkExtension { Id : list Z; Critical : bool; Value : string }.

(** x509.CertificateRequest *)
Record CSR (Pub : Type) := mkCSR {
  csr_Raw : string; csr_Subject : Name; csr_DNSNames : list string; csr_IPAddresses : list string;
  csr_EmailAddresses : list string; csr_URIs : list URL; csr_PublicKey : Pub;
  csr_SignatureAlgorithm : string; csr_ExtraExtensions : list Extension }.
Arguments mkCSR {Pub}. Arguments csr_Raw {Pub}. Arguments csr_Subject {Pub}. Arguments csr_DNSNames {Pub}.
Arguments csr_IPAddresses {Pub}. Arguments csr_EmailAddresses {Pub}. Arguments csr_URIs {Pub}.
Arguments csr_PublicKey {Pub}. Arguments csr_SignatureAlgorithm {Pub}. Arguments csr_ExtraExtensions {Pub}.

(** An entry of x509.RevocationList *)
Record CRLEntry := mkCRLEntry { entry_Serial : Z; entry_Time : Z; entry_Reason : Z }.
Record CRLTemplate := mkCRL {
  crl_Number : Z; ThisUpdate : Z; NextUpdate : Z; RevokedCertificateEntries : list CRLEntry;
  crl_SignatureAlgorithm : string }.

Record PEMBlock := mkPEM { pem_Type : string; pem_Bytes : string; pem_Rest : string }.

(** ** The standard library *)

Class Std := {
  PrivateKey : Type;
  PublicKey : Type;
  net_ParseIP : string -> option string;
  url_Parse : string -> result string URL;
  mail_ParseAddress_ok : string -> bool;
  pem_Decode : string -> option PEMBlock;
  pem_EncodeToMemory : string -> string -> string;
  x509_ParseCertificate : string -> result error (Cert PublicKey);
  x509_ParseCertificateRequest : string -> result error (CSR PublicKey);
  x509_CheckSignature : CSR PublicKey -> option error;
  x509_CheckSignatureFrom : Cert PublicKey -> Cert PublicKey -> option error;   (* child, parent *)
  pkix_String : Name -> string;
  (** the first argument is the reading of the random source *)
  x509_CreateCertificate : nat -> Cert PublicKey -> Cert PublicKey -> PublicKey -> PrivateKey -> result error string;
  x509_CreateCertificateRequest : nat -> CSR PublicKey -> PrivateKey -> result error string;
  x509_CreateRevocationList : nat -> CRLTemplate -> Cert PublicKey -> PrivateKey -> result error string;
  x509_ParsePrivateKey : string -> string -> result error PrivateKey;  (* PEM type, bytes *)
  x509_MarshalPKCS8PrivateKey : PrivateKey -> result error string;
  generate_key : nat -> key_desc -> result error PrivateKey;
  public_key : PrivateKey -> result error PublicKey;
  is_signer : PrivateKey -> bool;
  describe_public : PublicKey -> key_desc;
  public_eqb : PublicKey -> PublicKey -> bool;
  key_identifier : PublicKey -> result error string;   (* SHA-1 of the SubjectPublicKey bits *)
  sha256 : string -> string;
  rand_Int : nat -> Z -> result error Z;
  format_date : Z -> string;
  (** no block is found in no input *)
  pem_Decode_empty : pem_Decode "" = None;
  (** CreateCertificate writes the template's fields, ParseCertificate reads them back *)
  create_parse_certificate : forall n tmpl parent pub key der c,
    x509_CreateCertificate n tmpl parent pub key = Ok der -> x509_ParseCertificate der = Ok c ->
    SerialNumber c = SerialNumber tmpl /\ cert_Subject c = cert_Subject tmpl /\
    DNSNames c = DNSNames tmpl /\ IPAddresses c = IPAddresses tmpl /\
    EmailAddresses c = EmailAddresses tmpl /\ cert_URIs c = cert_URIs tmpl /\ IsCA c = IsCA tmpl }.

(** One reading of the random source. *)
Definition draw {X} (f : nat -> X) : prog world X :=
  act (fun w => (f (w_draws w), mkWorld (w_db w) (w_clock w) (w_ticks w) (w_faults w) (w_draws w + 1))).

(** ** Hexadecimal *)

Definition hex_upper (n : Z) : ascii := Str.upper_char (Str.hex_digit (Z.to_nat n)).

(** big.Int's Text(16) in upper case; [fuel] bounds the number of digits. *)
Fixpoint hex_digits (fuel : nat) (n : Z) (acc : string) : string :=
  match fuel with
  | 0 => acc
  | S fuel' =>
      let acc' := String (hex_upper (n mod 16)) acc in
      if (n <? 16)%Z then acc' else hex_digits fuel' (n / 16) acc'
  end.
Definition hex_text (n : Z) : string := hex_digits (S (Z.to_nat (Z.log2 n))) n "".

Definition SerialHex (n : Z) : string :=
  let s := hex_text n in
  if Nat.odd (String.length s) then String "0" s else s.

Definition hex_value (c : ascii) : option Z :=
  let n := Z.of_nat (Str.code c) in
  if Str.is_digit c then Some (n - 48)%Z
  else if ((97 <=? n) && (n <=? 102))%Z then Some (n - 87)%Z
  else if ((65 <=? n) && (n <=? 70))%Z then Some (n - 55)%Z
  else None.

Fixpoint hex_parse (s : string) (acc : Z) : option Z :=
  match s with
  | EmptyString => Some acc
  | String c s' => v ← hex_value c; hex_parse s' (acc * 16 + v)
  end.

(** big.Int.SetString(s, 16): an optional sign and at least one digit. *)
Definition big_SetString16 (s : string) : option Z :=
  match s with
  | EmptyString => None
  | String "-" EmptyString | String "+" EmptyString => None
  | String "-" s' => Z.opp <$> hex_parse s' 0
  | String "+" s' => hex_parse s' 0
  | _ => hex_parse s 0
  end.

Definition SerialFromHex (s : string) : option Z :=
  let s := Str.TrimPrefix (Str.ToLower (Str.TrimSpace s)) "0x" in
  big_SetString16 (Str.remove_char ":" s).

(** ** Subjects *)

Definition attr (v : string) : list string :=
  let v := Str.TrimSpace v in if str_is v "" then [] else [v].

Definition PKIX (s : Subject) : Name :=
  mkName (Str.TrimSpace (CommonName s)) (attr (Organization s)) (attr (OrganizationalUnit s))
    (attr (Str.ToUpper (Country s))) (attr (Province s)) (attr (Locality s))
    (attr (StreetAddress s)) (attr (PostalCode s)).

Definition first (v : list string) : string := match v with x :: _ => x | [] => EmptyString end.
Definition SubjectFromPKIX (n : Name) : Subject :=
  mkSubject (CN n) (first (O n)) (first (OU n)) (first (C n)) (first (ST n)) (first (L n))
    (first (STREET n)) (first (PC n)) "".

Definition DNString (n : Name) : string :=
  let parts := (if nonempty (CN n) then [("CN=" +:+ CN n)%go] else [])
    ++ map (fun v => ("OU=" +:+ v)%go) (OU n) ++ map (fun v => ("O=" +:+ v)%go) (O n)
    ++ map (fun v => ("L=" +:+ v)%go) (L n) ++ map (fun v => ("ST=" +:+ v)%go) (ST n)
    ++ map (fun v => ("STREET=" +:+ v)%go) (STREET n)
    ++ map (fun v => ("postalCode=" +:+ v)%go) (PC n) ++ map (fun v => ("C=" +:+ v)%go) (C n) in
  match parts with [] => "(empty subject)" | _ => Str.Join parts ", " end.

(** ** Profiles and key types *)

Definition ProfileServer : string := "server".
Definition ProfileClient : string := "client".
Definition ProfileServerCli : string := "server-client".
Definition ProfileCodeSign : string := "code-signing".
Definition ProfileEmail : string := "email".
Definition ProfileIntermCA : string := "intermediate-ca".

Definition one_of (s : string) (l : list string) : bool := existsb (str_is s) l.

Definition ParseProfile (s : string) : result error string :=
  let p := Str.ToLower (Str.TrimSpace s) in
  if str_is p "" then Ok ProfileServer
  else if one_of p [ProfileServer; ProfileClient; ProfileServerCli; ProfileCodeSign; ProfileEmail; ProfileIntermCA]
  then Ok p
  else if one_of p ["both"; "server+client"; "serverclient"]%string then Ok ProfileServerCli
  else Err (Errorf (Str.Sprintf "unknown profile %q" [Str.AStr s])).

(** x509.KeyUsage bits. *)
Definition KeyUsageDigitalSignature : Z := 1.
Definition KeyUsageKeyEncipherment : Z := 4.
Definition KeyUsageCertSign : Z := 32.
Definition KeyUsageCRLSign : Z := 64.

Definition usages (p : string) : Z * list string :=
  let sig_enc := Z.lor KeyUsageDigitalSignature KeyUsageKeyEncipherment in
  if str_is p ProfileClient then (sig_enc, ["clientAuth"]%string)
  else if str_is p ProfileServerCli then (sig_enc, ["serverAuth"; "clientAuth"]%string)
  else if str_is p ProfileCodeSign then (KeyUsageDigitalSignature, ["codeSigning"]%string)
  else if str_is p ProfileEmail then (sig_enc, ["emailProtection"]%string)
  else (sig_enc, ["serverAuth"]%string).

Definition KeyRSA2048 : string := "rsa-2048".
Definition KeyRSA3072 : string := "rsa-3072".
Definition KeyRSA4096 : string := "rsa-4096".
Definition KeyECP256 : string := "ec-p256".
Definition KeyECP384 : string := "ec-p384".
Definition KeyECP521 : string := "ec-p521".
Definition KeyEd25519 : string := "ed25519".
Definition KeyTypes : list string :=
  [KeyRSA2048; KeyRSA3072; KeyRSA4096; KeyECP256; KeyECP384; KeyECP521; KeyEd25519].

(** strings.NewReplacer(" ", "-", "_", "-") *)
Definition dashes (s : string) : string :=
  Str.map_string (fun c => if Ascii.eqb c " " || Ascii.eqb c "_" then "-"%char else c) s.

Definition ParseKeyType (s : string) : result error string :=
  let n := dashes (Str.ToLower (Str.TrimSpace s)) in
  if one_of n [""; "default"]%string then Ok KeyRSA2048
  else if one_of n ["rsa"; "rsa-2048"; "rsa2048"]%string then Ok KeyRSA2048
  else if one_of n ["rsa-3072"; "rsa3072"]%string then Ok KeyRSA3072
  else if one_of n ["rsa-4096"; "rsa4096"]%string then Ok KeyRSA4096
  else if one_of n ["ec"; "ecdsa"; "ec-p256"; "ecp256"; "p-256"; "p256"; "prime256v1"; "secp256r1"]%string then Ok KeyECP256
  else if one_of n ["ec-p384"; "ecp384"; "p-384"; "p384"; "secp384r1"]%string then Ok KeyECP384
  else if one_of n ["ec-p521"; "ecp521"; "p-521"; "p521"; "secp521r1"]%string then Ok KeyECP521
  else if one_of n ["ed25519"; "ed-25519"]%string then Ok KeyEd25519
  else Err (Errorf (Str.Sprintf "unsupported key type %q (valid: %s)"
                      [Str.AStr s; Str.AStr (Str.Join KeyTypes ", ")])).

Definition key_type_of (k : key_desc) : string :=
  match k with
  | RSA bits => if (4096 <=? bits)%Z then KeyRSA4096 else if (3072 <=? bits)%Z then KeyRSA3072
                else Str.Sprintf "rsa-%d" [Str.AInt bits]
  | EC curve => if str_is curve "P-256" then KeyECP256 else if str_is curve "P-384" then KeyECP384
                else if str_is curve "P-521" then KeyECP521 else "ec-unknown"
  | Ed25519 => KeyEd25519
  | OtherKey => "unknown"
  end.

Definition key_spec (kt : string) : option key_desc :=
  if str_is kt KeyRSA2048 then Some (RSA 2048) else if str_is kt KeyRSA3072 then Some (RSA 3072)
  else if str_is kt KeyRSA4096 then Some (RSA 4096) else if str_is kt KeyECP256 then Some (EC "P-256")
  else if str_is kt KeyECP384 then Some (EC "P-384") else if str_is kt KeyECP521 then Some (EC "P-521")
  else if str_is kt KeyEd25519 then Some Ed25519 else None.

Definition algorithm_for (k : key_desc) : string :=
  match k with
  | RSA bits => if (4096 <=? bits)%Z then "SHA512-RSA" else if (3072 <=? bits)%Z then "SHA384-RSA" else "SHA256-RSA"
  | EC curve => if str_is curve "P-521" then "ECDSA-SHA512" else if str_is curve "P-384" then "ECDSA-SHA384"
                else "ECDSA-SHA256"
  | Ed25519 => "Ed25519"
  | OtherKey => "0"
  end.

(** ** Revocation reasons *)

Definition ReasonUnspecified : Z := 0.
Definition ReasonSuperseded : Z := 4.
Definition ReasonCessationOfOperation : Z := 5.
Definition ReasonCertificateHold : Z := 6.
Definition ReasonName (code : Z) : string :=
  match code with
  | 0%Z => "unspecified" | 1%Z => "key compromise" | 2%Z => "CA compromise"
  | 3%Z => "affiliation changed" | 4%Z => "superseded" | 5%Z => "cessation of operation"
  | 6%Z => "certificate hold" | 9%Z => "privilege withdrawn" | 10%Z => "AA compromise"
  | _ => Str.Sprintf "code %d" [Str.AInt code]
  end.

(** normalise: trimmed, without spaces and underscores, lower case *)
Definition normalise (s : string) : string :=
  Str.ToLower (Str.remove_char "_" (Str.remove_char " " (Str.TrimSpace s))).

Definition ParseReason (s : string) : result error Z :=
  let n := normalise s in
  if one_of n [""; "unspecified"]%string then Ok 0%Z
  else if one_of n ["keycompromise"; "key-compromise"; "1"]%string then Ok 1%Z
  else if one_of n ["cacompromise"; "ca-compromise"; "2"]%string then Ok 2%Z
  else if one_of n ["affiliationchanged"; "affiliation-changed"; "3"]%string then Ok 3%Z
  else if one_of n ["superseded"; "4"]%string then Ok 4%Z
  else if one_of n ["cessationofoperation"; "cessation-of-operation"; "5"]%string then Ok 5%Z
  else if one_of n ["certificatehold"; "certificate-hold"; "hold"; "6"]%string then Ok 6%Z
  else if one_of n ["privilegewithdrawn"; "privilege-withdrawn"; "9"]%string then Ok 9%Z
  else if one_of n ["aacompromise"; "aa-compromise"; "10"]%string then Ok 10%Z
  else if str_is n "0" then Ok 0%Z
  else Err (Errorf (Str.Sprintf "unknown revocation reason %q" [Str.AStr s])).

(** ** Subject alternative names *)

Definition Empty (s : SANSet) : bool :=
  match DNS s, IPs s, Emails s, URIs s with [], [], [], [] => true | _, _, _, _ => false end.

Definition Strings (s : SANSet) : list string :=
  map (fun d => ("DNS:" +:+ d)%go) (DNS s) ++ map (fun i => ("IP:" +:+ i)%go) (IPs s)
  ++ map (fun e => ("EMAIL:" +:+ e)%go) (Emails s) ++ map (fun u => ("URI:" +:+ url_String u)%go) (URIs s).

Definition is_sep (c : ascii) : bool :=
  existsb (Ascii.eqb c) [","%char; ascii_of_nat 10; ascii_of_nat 13; " "%char; ascii_of_nat 9; ";"%char].

(** strings.FieldsFunc *)
Fixpoint fields (s : string) (cur : string) : list string :=
  match s with
  | EmptyString => if str_is cur "" then [] else [cur]
  | String c s' =>
      if is_sep c then (if str_is cur "" then [] else [cur]) ++ fields s' ""
      else fields s' (cur +:+ String c "")%go
  end.

Definition splitList (l : list string) : list string :=
  flat_map (fun s => List.filter nonempty (map Str.TrimSpace (fields s ""))) l.

Definition from (n : nat) (s : string) : string := String.substring n (String.length s - n) s.

Section std.
Context `{Std}.

Definition Validate (s : Subject) : result error unit :=
  if str_is (Str.TrimSpace (CommonName s)) "" then Err (Errorf "common name (CN) is required")
  else
    let c := Str.TrimSpace (Country s) in
    if nonempty c && negb (Nat.eqb (String.length c) 2)
    then Err (Errorf (Str.Sprintf "country must be a 2-letter code, got %q" [Str.AStr c]))
    else
      let e := Str.TrimSpace (EmailAddress s) in
      if nonempty e && negb (mail_ParseAddress_ok e)
      then Err (Errorf (Str.Sprintf "invalid email address %q" [Str.AStr e]))
      else Ok tt.

Definition add_dns (v : string) (s : SANSet) := mkSANs (DNS s ++ [v]) (IPs s) (Emails s) (URIs s).
Definition add_ip (v : string) (s : SANSet) := mkSANs (DNS s) (IPs s ++ [v]) (Emails s) (URIs s).
Definition add_email (v : string) (s : SANSet) := mkSANs (DNS s) (IPs s) (Emails s ++ [v]) (URIs s).
Definition add_uri (v : URL) (s : SANSet) := mkSANs (DNS s) (IPs s) (Emails s) (URIs s ++ [v]).

Definition add_url_text (item v : string) (s : SANSet) : result error SANSet :=
  match url_Parse v with
  | Ok u => Ok (add_uri u s)
  | Err m => Err (Wrapf (Str.Sprintf "invalid URI SAN %q" [Str.AStr item]) (Errorf m))
  end.

(** One turn of the loop of ParseSANs. *)
Definition add_san (item : string) (s : SANSet) : result error SANSet :=
  let lower := Str.ToLower item in
  if Str.HasPrefix lower "dns:" then Ok (add_dns (Str.TrimSpace (from 4 item)) s)
  else if Str.HasPrefix lower "ip:" then
    let v := Str.TrimSpace (from 3 item) in
    match net_ParseIP v with
    | Some ip => Ok (add_ip ip s)
    | None => Err (Errorf (Str.Sprintf "invalid IP SAN %q" [Str.AStr v]))
    end
  else if Str.HasPrefix lower "email:" then Ok (add_email (Str.TrimSpace (from 6 item)) s)
  else if Str.HasPrefix lower "uri:" then add_url_text item (Str.TrimSpace (from 4 item)) s
  else match net_ParseIP item with
    | Some ip => Ok (add_ip ip s)
    | None =>
        if Str.Contains item "@" then Ok (add_email item s)
        else if Str.Contains item "://" then add_url_text item item s
        else Ok (add_dns item s)
    end.

Definition ParseSANs (entries : list string) : result error SANSet :=
  fold_left (fun acc raw =>
    result_bind acc (fun s => let item := Str.TrimSpace raw in
      if str_is item "" then Ok s else add_san item s))
    (splitList entries) (Ok (mkSANs [] [] [] [])).

(** ** Keys, PEM, fingerprints *)

Definition KeyTypeOf (k : PublicKey) : string := key_type_of (describe_public k).

Definition signatureAlgorithmFor (k : PrivateKey) : string :=
  match public_key k with Ok p => algorithm_for (describe_public p) | Err _ => "0" end.

Definition GenerateKey (kt : string) : M PrivateKey :=
  match key_spec kt with
  | Some k => draw (fun n => generate_key n k)
  | None => Ret (Err (Errorf (Str.Sprintf "unsupported key type %q" [Str.AStr kt])))
  end.

Definition EncodePrivateKeyPEM (key : PrivateKey) : result error string :=
  match x509_MarshalPKCS8PrivateKey key with
  | Ok der => Ok (pem_EncodeToMemory "PRIVATE KEY" der)
  | Err e => Err (Wrapf "marshal private key" e)
  end.

(** The blocks of a PEM text; [fuel] bounds them by the length of the text. *)
Fixpoint pem_blocks (fuel : nat) (data : string) : list PEMBlock :=
  match fuel with
  | 0 => []
  | S fuel' => match pem_Decode data with
               | None => []
               | Some b => b :: pem_blocks fuel' (pem_Rest b)
               end
  end.
Definition blocks (data : string) : list PEMBlock := pem_blocks (S (String.length data)) data.

Definition ParsePrivateKeyPEM (data : string) : result error PrivateKey :=
  match List.find (fun b => one_of (pem_Type b)
          ["PRIVATE KEY"; "RSA PRIVATE KEY"; "EC PRIVATE KEY"; "ENCRYPTED PRIVATE KEY"]%string) (blocks data) with
  | None => Err (Errorf "no private key found in PEM input")
  | Some b =>
      if str_is (pem_Type b) "ENCRYPTED PRIVATE KEY"
      then Err (Errorf "encrypted private keys are not supported; decrypt it first (openssl pkcs8 -topk8 -nocrypt -in enc.key -out plain.key)")
      else x509_ParsePrivateKey (pem_Type b) (pem_Bytes b)
  end.

Definition EncodeCertPEM (der : string) : string := pem_EncodeToMemory "CERTIFICATE" der.

Definition ParseCertPEM (data : string) : result error (Cert PublicKey) :=
  match List.find (fun b => str_is (pem_Type b) "CERTIFICATE") (blocks data) with
  | Some b => x509_ParseCertificate (pem_Bytes b)
  | None => Err (Errorf "no CERTIFICATE block found in PEM input")
  end.

Fixpoint colons (s : string) : string :=
  match s with
  | String a (String b ((String _ _) as r)) => String a (String b (String ":" (colons r)))
  | _ => s
  end.
Fixpoint hex_bytes (s : string) : string :=
  match s with
  | EmptyString => EmptyString
  | String c s' => String (hex_upper (Z.of_nat (Str.code c) / 16))
                     (String (hex_upper (Z.of_nat (Str.code c) mod 16)) (hex_bytes s'))
  end.
Definition FingerprintSHA256 (der : string) : string := colons (hex_bytes (sha256 der)).

Definition ParseCSR (data : string) : result error (CSR PublicKey) :=
  let parse der :=
    match x509_ParseCertificateRequest der with
    | Err e => Err (Wrapf "parse CSR" e)
    | Ok csr => match x509_CheckSignature csr with
                | Some e => Err (Wrapf "CSR signature is invalid" e)
                | None => Ok csr
                end
    end in
  match pem_Decode data with
  | Some b =>
      if one_of (pem_Type b) ["CERTIFICATE REQUEST"; "NEW CERTIFICATE REQUEST"]%string then parse (pem_Bytes b)
      else Err (Errorf (Str.Sprintf "expected a CERTIFICATE REQUEST PEM block, got %q" [Str.AStr (pem_Type b)]))
  | None => parse data
  end.

Definition samePublicKey (a b : PublicKey) : result error unit :=
  if public_eqb a b then Ok tt else Err (Errorf "private key does not match the public key").
Definition KeyMatchesCSR (key : PrivateKey) (csr : CSR PublicKey) : result error unit :=
  result_bind (public_key key) (fun pub => samePublicKey pub (csr_PublicKey csr)).
Definition KeyMatchesCert (key : PrivateKey) (cert : Cert PublicKey) : result error unit :=
  result_bind (public_key key) (fun pub => samePublicKey pub (cert_PublicKey cert)).

(** ** Generating requests *)

Definition appendUnique (l : list string) (v : string) : list string :=
  if existsb (str_is v) l then l else l ++ [v].

Definition CSRFromKey (key : PrivateKey) (subject : Subject) (sans : SANSet) : M string :=
  if negb (is_signer key) then Ret (Err (Errorf "private key does not implement crypto.Signer"))
  else match public_key key with
    | Err e => Ret (Err e)
    | Ok pub =>
        let emails := if nonempty (EmailAddress subject)
                      then appendUnique (Emails sans) (EmailAddress subject) else Emails sans in
        let tmpl := mkCSR "" (PKIX subject) (DNS sans) (IPs sans) emails (URIs sans) pub
                          (signatureAlgorithmFor key) [] in
        r <- draw (fun n => x509_CreateCertificateRequest n tmpl key) ;;
        Ret (match r with
             | Ok der => Ok (pem_EncodeToMemory "CERTIFICATE REQUEST" der)
             | Err e => Err (Wrapf "create CSR" e)
             end)
    end.

(** The CSR, the private key in PEM form and the key type. *)
Definition GenerateCSR (subject : Subject) (sans : SANSet) (kt : string) : M (string * string * string) :=
  match Validate subject with
  | Err e => Ret (Err e)
  | Ok _ =>
      let kt := if str_is kt "" then KeyRSA2048 else kt in
      k <- GenerateKey kt ;;
      match k with
      | Err e => Ret (Err (Wrapf "generate key" e))
      | Ok key =>
          csr <-! CSRFromKey key subject sans ;;
          Ret (match EncodePrivateKeyPEM key with
               | Ok pem => Ok (csr, pem, kt)
               | Err e => Err e
               end)
      end
  end.

(** ** Serials *)

Definition NewSerial : M Z :=
  r <- draw (fun n => rand_Int n (2 ^ 127)) ;;
  Ret (match r with
       | Ok n => Ok (n + 1)%Z
       | Err e => Err (Wrapf "generate serial" e)
       end).

(** ** Signing a request *)

Record SignParams := mkSign {
  sp_CSR : CSR PublicKey; sp_Issuer : Cert PublicKey; sp_IssuerKey : PrivateKey;
  sp_Profile : string; sp_Days : Z; sp_SANOverride : option SANSet;
  sp_SubjectOverride : option Subject; sp_CRLDistPoints : list string; sp_OCSPServers : list string;
  sp_PathLen : Z }.

Record SignResult := mkSigned {
  sr_Certificate : Cert PublicKey; sr_CertPEM : string; sr_SerialHex : string; sr_Fingerprint : string }.

(** The subject and the names the certificate will carry. *)
Definition sign_subject (p : SignParams) : Name :=
  match sp_SubjectOverride p with Some s => PKIX s | None => csr_Subject (sp_CSR p) end.

Definition sign_sans (p : SignParams) (profile : string) : SANSet :=
  let sans := match sp_SANOverride p with
              | Some s => s
              | None => mkSANs (csr_DNSNames (sp_CSR p)) (csr_IPAddresses (sp_CSR p))
                               (csr_EmailAddresses (sp_CSR p)) (csr_URIs (sp_CSR p))
              end in
  if Empty sans && nonempty (CN (sign_subject p)) && one_of profile [ProfileServer; ProfileServerCli]
  then match ParseSANs [CN (sign_subject p)] with Ok promoted => promoted | Err _ => sans end
  else sans.

Definition identifier (pub : PublicKey) : string :=
  match key_identifier pub with Ok ski => ski | Err _ => EmptyString end.

(** The template handed to x509.CreateCertificate at time [now]. *)
Definition sign_template (p : SignParams) (profile : string) (serial now notAfter : Z) : Cert PublicKey :=
  let sans := sign_sans p profile in
  let interm := str_is profile ProfileIntermCA in
  let ku := if interm then Z.lor (Z.lor KeyUsageCertSign KeyUsageCRLSign) KeyUsageDigitalSignature
            else fst (usages profile) in
  let eku := if interm then [] else snd (usages profile) in
  mkCert "" serial (sign_subject p) (mkName "" [] [] [] [] [] [] [])
    (now - 5 * Minute) notAfter ku eku true interm (if interm then sp_PathLen p else 0)
    (interm && (sp_PathLen p =? 0)%Z)
    (DNS sans) (IPs sans) (Emails sans) (URIs sans) [] (sp_CRLDistPoints p) (sp_OCSPServers p)
    (signatureAlgorithmFor (sp_IssuerKey p)) (identifier (csr_PublicKey (sp_CSR p))) ""
    (csr_PublicKey (sp_CSR p)).

(** Creating, then parsing back, a certificate. *)
Definition create_certificate (what : string) (tmpl issuer : Cert PublicKey) (pub : PublicKey)
    (key : PrivateKey) (serial : Z) : M SignResult :=
  r <- draw (fun n => x509_CreateCertificate n tmpl issuer pub key) ;;
  Ret (match r with
       | Err e => Err (Wrapf what e)
       | Ok der => match x509_ParseCertificate der with
                   | Err e => Err e
                   | Ok cert => Ok (mkSigned cert (EncodeCertPEM der) (SerialHex serial) (FingerprintSHA256 der))
                   end
       end).

Definition Sign (p : SignParams) : M SignResult :=
  if negb (IsCA (sp_Issuer p)) then Ret (Err (Errorf "issuer certificate is not a CA"))
  else
    t0 <- time_Now ;;
    if (cert_NotAfter (sp_Issuer p) <? t0)%Z
    then Ret (Err (Errorf (Str.Sprintf "issuing CA expired on %s" [Str.AStr (format_date (cert_NotAfter (sp_Issuer p)))])))
    else
      let days := if (sp_Days p <=? 0)%Z then 397%Z else sp_Days p in
      let profile := if str_is (sp_Profile p) "" then ProfileServer else sp_Profile p in
      serial <-! NewSerial ;;
      now <- time_Now ;;
      let notAfter := AddDays days now in
      if (cert_NotAfter (sp_Issuer p) <? notAfter)%Z
      then Ret (Err (Errorf (Str.Sprintf
             "requested validity ends %s but the issuing CA expires %s; choose a shorter lifetime"
             [Str.AStr (format_date notAfter); Str.AStr (format_date (cert_NotAfter (sp_Issuer p)))])))
      else if negb (is_signer (sp_IssuerKey p))
      then Ret (Err (Errorf "issuer key does not implement crypto.Signer"))
      else create_certificate "sign certificate" (sign_template p profile serial now notAfter)
             (sp_Issuer p) (csr_PublicKey (sp_CSR p)) (sp_IssuerKey p) serial.

(** ** Creating an authority *)

Record CAParams := mkCAParams {
  cp_Subject : Subject; cp_KeyType : string; cp_Days : Z; cp_PathLen : Z;
  cp_Parent : option (Cert PublicKey * PrivateKey);
  cp_CRLDistPoints : list string; cp_OCSPServers : list string; cp_PermittedDNS : list string }.

Definition ca_template (p : CAParams) (pub : PublicKey) (sigalg : string) (serial now notAfter : Z) : Cert PublicKey :=
  mkCert "" serial (PKIX (cp_Subject p)) (mkName "" [] [] [] [] [] [] [])
    (now - 5 * Minute) notAfter
    (Z.lor (Z.lor KeyUsageCertSign KeyUsageCRLSign) KeyUsageDigitalSignature) [] true true
    (if (0 <=? cp_PathLen p)%Z then cp_PathLen p else 0) (cp_PathLen p =? 0)%Z
    [] [] [] [] (cp_PermittedDNS p) (cp_CRLDistPoints p) (cp_OCSPServers p) sigalg (identifier pub) "" pub.

(** The signed authority, its key in PEM form and the key type. *)
Definition CreateCA (p : CAParams) : M (SignResult * string * string) :=
  match Validate (cp_Subject p) with
  | Err e => Ret (Err e)
  | Ok _ =>
      let days := if (cp_Days p <=? 0)%Z then 3650%Z else cp_Days p in
      let kt := if str_is (cp_KeyType p) "" then KeyRSA4096 else cp_KeyType p in
      k <- GenerateKey kt ;;
      match k with
      | Err e => Ret (Err (Wrapf "generate CA key" e))
      | Ok key =>
          match public_key key with
          | Err e => Ret (Err e)
          | Ok pub =>
              serial <-! NewSerial ;;
              now <- time_Now ;;
              let notAfter := AddDays days now in
              let issuerKey := match cp_Parent p with Some (_, pk) => pk | None => key end in
              let tmpl := ca_template p pub (signatureAlgorithmFor issuerKey) serial now notAfter in
              let issuer := match cp_Parent p with Some (pc, _) => pc | None => tmpl end in
              if match cp_Parent p with Some (pc, _) => (cert_NotAfter pc <? notAfter)%Z | None => false end
              then Ret (Err (Errorf (Str.Sprintf
                     "requested validity (%s) outruns the parent CA, which expires %s"
                     [Str.AStr (format_date notAfter); Str.AStr (format_date (cert_NotAfter issuer))])))
              else if negb (is_signer issuerKey)
              then Ret (Err (Errorf "issuer key does not implement crypto.Signer"))
              else
                res <-! create_certificate "create CA certificate" tmpl issuer pub issuerKey serial ;;
                Ret (match EncodePrivateKeyPEM key with
                     | Ok pem => Ok (res, pem, kt)
                     | Err e => Err e
                     end)
          end
      end
  end.

(** ** Revocation lists *)

Record RevokedEntry := mkRevoked { re_SerialHex : string; re_RevokedAt : Z; re_Reason : Z }.

Fixpoint crl_entries (now : Z) (l : list RevokedEntry) : result error (list CRLEntry) :=
  match l with
  | [] => Ok []
  | r :: l' =>
      match SerialFromHex (re_SerialHex r) with
      | None => Err (Errorf (Str.Sprintf "bad serial %q in revocation list" [Str.AStr (re_SerialHex r)]))
      | Some serial =>
          result_bind (crl_entries now l') (fun es =>
            Ok (mkCRLEntry serial (if (re_RevokedAt r =? 0)%Z then now else re_RevokedAt r) (re_Reason r) :: es))
      end
  end.

(** The template is returned with its encodings. *)
Definition CreateCRL (issuer : Cert PublicKey) (key : PrivateKey) (number validDays : Z)
    (revoked : list RevokedEntry) : M (CRLTemplate * string * string) :=
  if negb (is_signer key) then Ret (Err (Errorf "issuer key does not implement crypto.Signer"))
  else
    let validDays := if (validDays <=? 0)%Z then 7%Z else validDays in
    now <- time_Now ;;
    match crl_entries now revoked with
    | Err e => Ret (Err e)
    | Ok entries =>
        let tmpl := mkCRL number now (AddDays validDays now) entries (signatureAlgorithmFor key) in
        r <- draw (fun n => x509_CreateRevocationList n tmpl issuer key) ;;
        Ret (match r with
             | Ok der => Ok (tmpl, der, pem_EncodeToMemory "X509 CRL" der)
             | Err e => Err (Wrapf "create CRL" e)
             end)
    end.
End std.

End Pki.
