(* ===== verification/Sealing.v ===== *)
(** * Encryption at rest (internal/secret, internal/pqcrypt)

    [Box] is the AES-GCM box keyed by the master key; [Pqcrypt] the hybrid
    X25519 + ML-KEM-768 envelope of the secret manager.  The primitives are the
    class [Ciphers], with the laws the code relies on: an AEAD opens what it
    sealed, a decapsulation returns the encapsulated secret, both ends of an
    X25519 exchange agree, base64 decodes what it encoded.  A Go slice
    expression out of bounds panics: [Open] has that outcome. *)

From S2P Require Import Prelude GoStrings Effects Models Schema.

(** ** Byte strings: s[:n] and s[n:] *)

Fixpoint take_s (n : nat) (s : string) : string :=
  match n, s with
  | S n', String c s' => String c (take_s n' s')
  | _, _ => EmptyString
  end.
Fixpoint drop_s (n : nat) (s : string) : string :=
  match n, s with
  | S n', String _ s' => drop_s n' s'
  | _, _ => s
  end.
Fixpoint repeat_char (n : nat) (c : ascii) : string :=
  match n with 0 => EmptyString | S n' => String c (repeat_char n' c) end.

Class Ciphers := {
  gcm_Seal : string -> string -> string -> string -> string;          (* key nonce plaintext aad *)
  gcm_Open : string -> string -> string -> string -> option string;   (* key nonce ciphertext aad *)
  gcm_open_seal : forall k n p a, gcm_Open k n (gcm_Seal k n p a) a = Some p;
  gcm_seal_length : forall k n p a, String.length (gcm_Seal k n p a) = String.length p + 16;
  base64_Encode : string -> string;
  base64_Decode : string -> option string;
  base64_law : forall s, base64_Decode (base64_Encode s) = Some s;
  hkdf_Key : string -> string -> string -> nat -> option string;       (* secret salt info length *)
  mlkem_new : string -> option string;                                (* seed -> decapsulation key *)
  mlkem_Encapsulate : nat -> string -> string * string;               (* draw, key -> shared, ciphertext *)
  mlkem_Decapsulate : string -> string -> option string;
  mlkem_law : forall n dk, mlkem_Decapsulate dk (snd (mlkem_Encapsulate n dk)) = Some (fst (mlkem_Encapsulate n dk));
  mlkem_ct_length : forall n dk, String.length (snd (mlkem_Encapsulate n dk)) = 1088;
  x25519_new : string -> option string;                               (* seed -> private key *)
  x25519_generate : nat -> option string;
  x25519_public : string -> string;                                   (* private -> public bytes *)
  x25519_parse : string -> option string;
  x25519_ECDH : string -> string -> option string;                    (* private, public *)
  x25519_public_length : forall k, String.length (x25519_public k) = 32;
  x25519_parse_public : forall k, x25519_parse (x25519_public k) = Some (x25519_public k);
  x25519_agree : forall a b, x25519_ECDH a (x25519_public b) = x25519_ECDH b (x25519_public a);
  rand_Read : nat -> nat -> option string;                            (* draw, length *)
  rand_length : forall n k s, rand_Read n k = Some s -> String.length s = k }.

Module Box.
Section box.
Context `{Ciphers} (key : string).

Definition Prefix : string := "enc:v1:".
Definition NonceSize : nat := 12.

(** [draw] is the reading of the random source. *)
Definition Encrypt (draw : nat) (plaintext : string) : result error string :=
  if str_is plaintext "" then Ok EmptyString
  else match rand_Read draw NonceSize with
    | None => Err (Driver "rand")
    | Some nonce => Ok (Prefix +:+ base64_Encode (nonce +:+ gcm_Seal key nonce plaintext ""))%go
    end.

Definition Decrypt (value : string) : result error string :=
  if str_is value "" then Ok EmptyString
  else if negb (Str.HasPrefix value Prefix) then Ok value
  else match base64_Decode (Str.TrimPrefix value Prefix) with
    | None => Err (Wrapf "decode ciphertext" (Driver "illegal base64 data"))
    | Some raw =>
        if (String.length raw <? NonceSize)%nat then Err (Errorf "ciphertext too short")
        else match gcm_Open key (take_s NonceSize raw) (drop_s NonceSize raw) "" with
          | None => Err (Wrapf "decrypt failed (wrong master key?)" (Driver "cipher: message authentication failed"))
          | Some pt => Ok pt
          end
    end.
End box.
End Box.

Module Pqcrypt.

(** The outcome of [Open]: a value, an error, or a run-time panic. *)
Inductive outcome (A : Type) := Returns (a : A) | Fails (e : error) | Panics.
Arguments Returns {A}. Arguments Fails {A}. Arguments Panics {A}.

Section pq.
Context `{Ciphers}.

Definition Prefix : string := "pqenc:v1:".
Definition algHybrid : ascii := ascii_of_nat 1.
Definition saltSize : nat := 32.
Definition kemCTSize : nat := 1088.
Definition x25519PubSize : nat := 32.
Definition gcmNonceSize : nat := 12.
Definition dekSize : nat := 32.
Definition wrappedDEKSize : nat := dekSize + 16.
Definition headerSize : nat :=
  1 + saltSize + kemCTSize + x25519PubSize + gcmNonceSize + wrappedDEKSize.

Record Vault := mkVault { mlkemDK : string; x25519Priv : string }.

Definition pq_err (m : string) : error := Errorf m.

Definition DeriveVault (masterKey : string) : result error Vault :=
  if negb (Nat.eqb (String.length masterKey) 32)
  then Err (pq_err (Str.Sprintf "pqcrypt: master key must be 32 bytes, got %d"
                      [Str.AInt (Z.of_nat (String.length masterKey))]))
  else match hkdf_Key masterKey "goca/pq/vault/v1" "mlkem768-seed" 64 with
    | None => Err (pq_err "pqcrypt: derive ML-KEM seed")
    | Some seed => match mlkem_new seed with
      | None => Err (pq_err "pqcrypt: derive ML-KEM key")
      | Some dk => match hkdf_Key masterKey "goca/pq/vault/v1" "x25519-priv" 32 with
        | None => Err (pq_err "pqcrypt: derive X25519 seed")
        | Some xseed => match x25519_new xseed with
          | None => Err (pq_err "pqcrypt: derive X25519 key")
          | Some x => Ok (mkVault dk x)
          end
        end
      end
    end.

Definition wrapKey (mlkemShared x25519Shared salt : string) : option string :=
  hkdf_Key (mlkemShared +:+ x25519Shared)%go salt "dek-wrap" 32.

(** [draw] is the reading of the random source Seal starts from. *)
Definition Seal (v : Vault) (draw : nat) (plaintext aad : string) : result error string :=
  let '(mlkemShared, mlkemCT) := mlkem_Encapsulate draw (mlkemDK v) in
  match x25519_generate draw with
  | None => Err (pq_err "pqcrypt: generate ephemeral X25519 key")
  | Some xEphPriv =>
  match x25519_ECDH xEphPriv (x25519_public (x25519Priv v)) with
  | None => Err (pq_err "pqcrypt: X25519 exchange")
  | Some x25519Shared =>
  match rand_Read draw saltSize with
  | None => Err (pq_err "pqcrypt: generate salt")
  | Some salt =>
  match wrapKey mlkemShared x25519Shared salt with
  | None => Err (pq_err "pqcrypt: derive wrapping key")
  | Some kek =>
  match rand_Read (draw + 1) dekSize with
  | None => Err (pq_err "pqcrypt: generate data key")
  | Some dek =>
  match rand_Read (draw + 2) gcmNonceSize with
  | None => Err (pq_err "pqcrypt: generate nonce")
  | Some wrapNonce =>
  match rand_Read (draw + 3) gcmNonceSize with
  | None => Err (pq_err "pqcrypt: generate nonce")
  | Some payloadNonce =>
      let wrappedDEK := gcm_Seal kek wrapNonce dek aad in
      let payloadCT := gcm_Seal dek payloadNonce plaintext aad in
      Ok (Prefix +:+ base64_Encode
            (String algHybrid (salt +:+ mlkemCT +:+ x25519_public xEphPriv +:+ wrapNonce
               +:+ wrappedDEK +:+ payloadNonce +:+ payloadCT)))%go
  end end end end end end end.

Definition Open (v : Vault) (envelope aad : string) : outcome string :=
  if negb (Str.HasPrefix envelope Prefix) then Fails (pq_err "pqcrypt: not a pqenc:v1: envelope")
  else match base64_Decode (Str.TrimPrefix envelope Prefix) with
  | None => Fails (pq_err "pqcrypt: decode envelope")
  | Some raw =>
  if (String.length raw <? headerSize)%nat then Fails (pq_err "pqcrypt: envelope too short")
  else match raw with
  | EmptyString => Panics
  | String alg rest =>
  if negb (Ascii.eqb alg algHybrid) then Fails (pq_err "pqcrypt: unsupported algorithm")
  else
    let salt := take_s saltSize rest in let r1 := drop_s saltSize rest in
    let mlkemCT := take_s kemCTSize r1 in let r2 := drop_s kemCTSize r1 in
    let xEphPub := take_s x25519PubSize r2 in let r3 := drop_s x25519PubSize r2 in
    let wrapNonce := take_s gcmNonceSize r3 in let r4 := drop_s gcmNonceSize r3 in
    let wrappedDEK := take_s wrappedDEKSize r4 in let r5 := drop_s wrappedDEKSize r4 in
    (* raw[off:off+12], raw[off+12:]: out of range when fewer bytes are left *)
    if (String.length r5 <? gcmNonceSize)%nat then Panics
    else
      let payloadNonce := take_s gcmNonceSize r5 in
      let payloadCT := drop_s gcmNonceSize r5 in
      match mlkem_Decapsulate (mlkemDK v) mlkemCT with
      | None => Fails (pq_err "pqcrypt: ML-KEM decapsulate")
      | Some mlkemShared =>
      match x25519_parse xEphPub with
      | None => Fails (pq_err "pqcrypt: parse ephemeral X25519 key")
      | Some xPub =>
      match x25519_ECDH (x25519Priv v) xPub with
      | None => Fails (pq_err "pqcrypt: X25519 exchange")
      | Some x25519Shared =>
      match wrapKey mlkemShared x25519Shared salt with
      | None => Fails (pq_err "pqcrypt: derive wrapping key")
      | Some kek =>
      match gcm_Open kek wrapNonce wrappedDEK aad with
      | None => Fails (pq_err "pqcrypt: unwrap data key failed")
      | Some dek =>
      match gcm_Open dek payloadNonce payloadCT aad with
      | None => Fails (pq_err "pqcrypt: decrypt failed")
      | Some plaintext => Returns plaintext
      end end end end end end
  end
  end.
End pq.
End Pqcrypt.

(** ** Facts on byte strings *)

Section bytes.
Lemma take_app (a b : string) : take_s (String.length a) (a +:+ b)%go = a.
Proof. induction a as [| c a IH]; simpl; [by destruct b | by rewrite IH]. Qed.
Lemma drop_app (a b : string) : drop_s (String.length a) (a +:+ b)%go = b.
Proof. induction a as [| c a IH]; simpl; [by destruct b | done]. Qed.
Lemma take_app_n n (a b : string) : String.length a = n -> take_s n (a +:+ b)%go = a.
Proof. intros <-. apply take_app. Qed.
Lemma drop_app_n n (a b : string) : String.length a = n -> drop_s n (a +:+ b)%go = b.
Proof. intros <-. apply drop_app. Qed.
Lemma length_append (a b : string) :
  String.length (a +:+ b)%go = String.length a + String.length b.
Proof. induction a as [| c a IH]; simpl; [done | by rewrite IH]. Qed.
Lemma HasPrefix_app (a b : string) : Str.HasPrefix (a +:+ b)%go a = true.
Proof. induction a as [| c a IH]; simpl; [by destruct b | by rewrite Ascii.eqb_refl, IH]. Qed.

Lemma HasPrefix_drop s p : Str.HasPrefix s p = true -> s = (p +:+ drop_s (String.length p) s)%go.
Proof.
  revert s. induction p as [| c p IH]; intros s; [by destruct s |]. destruct s as [| d s]; [done |].
  simpl. intros [->%Ascii.eqb_eq Hs]%andb_true_iff. f_equal. by apply IH.
Qed.
Lemma TrimPrefix_app (a b : string) : Str.TrimPrefix (a +:+ b)%go a = b.
Proof.
  unfold Str.TrimPrefix. assert (Str.CutPrefix (a +:+ b)%go a = (b, true)) as ->; [| done].
  induction a as [| c a IH]; simpl; [by destruct b | by rewrite Ascii.eqb_refl, IH].
Qed.
Lemma str_is_refl a : str_is a a = true.
Proof. apply String.eqb_refl. Qed.
Lemma str_is_eq a b : str_is a b = true <-> a = b.
Proof. apply String.eqb_eq. Qed.
Lemma str_is_ne a b : str_is a b = false <-> a <> b.
Proof. apply String.eqb_neq. Qed.
End bytes.

#[local] Arguments String.append : simpl never.

Section roundtrips.
Context `{Ciphers}.

(** What the box encrypts under a master key it decrypts under the same
    key, the empty value included. *)
Lemma box_opens key draw plaintext value :
  Box.Encrypt key draw plaintext = Ok value -> Box.Decrypt key value = Ok plaintext.
Proof.
  unfold Box.Encrypt. destruct (str_is plaintext "") eqn:E.
  { intros [= <-]. apply str_is_eq in E. by subst. }
  destruct (rand_Read draw Box.NonceSize) as [nonce |] eqn:R; [| done].
  intros [= <-]. unfold Box.Decrypt.
  rewrite HasPrefix_app, TrimPrefix_app, base64_law. cbn [negb str_is].
  pose proof (rand_length _ _ _ R) as Hn.
  rewrite take_app_n, drop_app_n, gcm_open_seal, length_append by done.
  destruct (Nat.ltb_spec (String.length nonce + String.length (gcm_Seal key nonce plaintext "")) Box.NonceSize) as [Hlt | _];
    [lia | done].
Qed.

(** What was sealed is opened. *)
Lemma seal_opens v draw plaintext aad envelope :
  Pqcrypt.Seal v draw plaintext aad = Ok envelope ->
  Pqcrypt.Open v envelope aad = Pqcrypt.Returns plaintext.
Proof.
  unfold Pqcrypt.Seal. pose proof (mlkem_law draw (Pqcrypt.mlkemDK v)) as Hkem.
  pose proof (mlkem_ct_length draw (Pqcrypt.mlkemDK v)) as Hct.
  destruct (mlkem_Encapsulate draw (Pqcrypt.mlkemDK v)) as [shared ct]. cbn [fst snd] in *.
  destruct (x25519_generate draw) as [xeph |]; [| done].
  destruct (x25519_ECDH xeph _) as [xshared |] eqn:Hx; [| done].
  destruct (rand_Read draw _) as [salt |] eqn:R0; [| done].
  destruct (Pqcrypt.wrapKey _ _ _) as [kek |] eqn:Hkek; [| done].
  destruct (rand_Read (draw + 1) _) as [dek |] eqn:R1; [| done].
  destruct (rand_Read (draw + 2) _) as [wnonce |] eqn:R2; [| done].
  destruct (rand_Read (draw + 3) _) as [pnonce |] eqn:R3; [| done].
  apply rand_length in R0, R1, R2, R3. intros [= <-]. unfold Pqcrypt.Open.
  rewrite HasPrefix_app, TrimPrefix_app, base64_law. cbn [negb].
  pose proof (x25519_public_length xeph) as Hxl.
  pose proof (gcm_seal_length kek wnonce dek aad) as Hw. rewrite R1 in Hw.
  set (raw := String _ _). assert (Pqcrypt.headerSize <= String.length raw) as Hlen.
  { unfold raw. simpl String.length. rewrite !length_append, R0, Hct, Hxl, R2, Hw.
    unfold Pqcrypt.headerSize, Pqcrypt.wrappedDEKSize, Pqcrypt.dekSize, Pqcrypt.kemCTSize, Pqcrypt.x25519PubSize,
      Pqcrypt.saltSize, Pqcrypt.gcmNonceSize. lia. }
  destruct (Nat.ltb_spec (String.length raw) Pqcrypt.headerSize) as [Hlt | _]; [lia |]. unfold raw.
  rewrite Ascii.eqb_refl. cbn [negb]. cbv zeta.
  rewrite !(take_app_n Pqcrypt.saltSize), !(drop_app_n Pqcrypt.saltSize) by done.
  rewrite !(take_app_n Pqcrypt.kemCTSize), !(drop_app_n Pqcrypt.kemCTSize) by done.
  rewrite !(take_app_n Pqcrypt.x25519PubSize), !(drop_app_n Pqcrypt.x25519PubSize) by done.
  rewrite !(take_app_n Pqcrypt.gcmNonceSize wnonce), !(drop_app_n Pqcrypt.gcmNonceSize wnonce) by done.
  rewrite !(take_app_n Pqcrypt.wrappedDEKSize), !(drop_app_n Pqcrypt.wrappedDEKSize) by done.
  rewrite length_append, R3.
  destruct (Nat.ltb_spec (Pqcrypt.gcmNonceSize + String.length (gcm_Seal dek pnonce plaintext aad)) Pqcrypt.gcmNonceSize)
    as [Hlt | _]; [lia |].
  rewrite !(take_app_n Pqcrypt.gcmNonceSize pnonce), !(drop_app_n Pqcrypt.gcmNonceSize pnonce) by done.
  by rewrite Hkem, x25519_parse_public, x25519_agree, Hx, Hkek, !gcm_open_seal.
Qed.

(** The vault opens every envelope it sealed, given the same
    additional data. *)
Theorem pqcrypt_roundtrip v draw plaintext aad envelope :
  Pqcrypt.Seal v draw plaintext aad = Ok envelope ->
  Pqcrypt.Open v envelope aad = Pqcrypt.Returns plaintext.
Proof. apply seal_opens. Qed.

(** An envelope cut inside the payload nonce passes the length check and makes
    Open panic instead of failing. *)
Theorem open_truncated_panics v raw aad envelope :
  Pqcrypt.headerSize <= String.length raw < Pqcrypt.headerSize + Pqcrypt.gcmNonceSize ->
  take_s 1 raw = String Pqcrypt.algHybrid "" ->
  envelope = (Pqcrypt.Prefix +:+ base64_Encode raw)%go ->
  Pqcrypt.Open v envelope aad = Pqcrypt.Panics.
Proof.
  intros [Hlo Hhi] Halg ->. unfold Pqcrypt.Open. rewrite HasPrefix_app, TrimPrefix_app, base64_law. cbn [negb].
  destruct (Nat.ltb_spec (String.length raw) Pqcrypt.headerSize) as [? | _]; [lia |].
  destruct raw as [| alg rest]; [done |]. simpl in Halg.
  injection Halg as ->. rewrite Ascii.eqb_refl. cbn [negb]. cbv zeta.
  assert (forall n s, String.length (drop_s n s) = String.length s - n) as Hd.
  { induction n as [| n IH]; intros [| c s]; simpl; done || apply IH. }
  rewrite !Hd. simpl String.length in Hhi.
  destruct (Nat.ltb_spec (String.length rest - Pqcrypt.saltSize - Pqcrypt.kemCTSize - Pqcrypt.x25519PubSize
     - Pqcrypt.gcmNonceSize - Pqcrypt.wrappedDEKSize) Pqcrypt.gcmNonceSize) as [_ | Hge]; [done |].
  unfold Pqcrypt.headerSize, Pqcrypt.wrappedDEKSize, Pqcrypt.dekSize, Pqcrypt.kemCTSize,
    Pqcrypt.x25519PubSize, Pqcrypt.saltSize, Pqcrypt.gcmNonceSize in *. lia.
Qed.
End roundtrips.

(** ** A concrete instance *)

(** Not a cipher: the nonce, key and data are in the clear and the tag is a
    constant, which is enough for the laws. *)
Definition toy_tag : string := "0123456789abcdef".
Definition toy_open (k n c a : string) : option string :=
  let len := String.length c - 16 in
  if str_is (drop_s len c) toy_tag then Some (take_s len c) else None.
Definition toy_rand (n k : nat) : option string := Some (repeat_char k "r").

Lemma repeat_char_length n c : String.length (repeat_char n c) = n.
Proof. induction n; simpl; congruence. Qed.

Definition pad32 (s : string) : string := take_s 32 (s +:+ repeat_char 32 "0")%go.

Lemma take_length n s : n <= String.length s -> String.length (take_s n s) = n.
Proof.
  revert s. induction n as [| n IH]; intros [| c s] Hn; simpl in *; try lia. rewrite IH; lia.
Qed.

#[export, refine] Instance toy_ciphers : Ciphers := {|
  gcm_Seal k n p a := (p +:+ toy_tag)%go;
  gcm_Open := toy_open;
  base64_Encode s := s;
  base64_Decode := Some;
  hkdf_Key secret salt info n := Some (repeat_char n "k");
  mlkem_new s := Some s;
  mlkem_Encapsulate n dk := (dk, repeat_char 1088 "c");
  mlkem_Decapsulate dk ct := Some dk;
  x25519_new s := Some s;
  x25519_generate n := Some EmptyString;
  x25519_public k := pad32 k;
  x25519_parse := Some;
  x25519_ECDH a b := Some EmptyString;
  rand_Read := toy_rand |}.
Proof.
  - intros k n p a. unfold toy_open. rewrite length_append. simpl String.length.
    replace (String.length p + 16 - 16) with (String.length p) by lia.
    by rewrite drop_app, str_is_refl, take_app.
  - intros k n p a. by rewrite length_append.
  - done.
  - done.
  - intros n dk. apply repeat_char_length.
  - intros k. apply take_length. rewrite length_append, repeat_char_length. lia.
  - done.
  - done.
  - intros n k s [= <-]. apply repeat_char_length.
Defined.

Definition sample_vault : Pqcrypt.Vault := Pqcrypt.mkVault "dk" "xp".

Lemma pqcrypt_roundtrip_witness :
  exists envelope, Pqcrypt.Seal sample_vault 0 "hunter2" "goca/secret/v1|1|1" = Ok envelope /\
    Pqcrypt.Open sample_vault envelope "goca/secret/v1|1|1" = Pqcrypt.Returns "hunter2"%string.
Proof.
  eexists. split; [reflexivity |].
  exact (pqcrypt_roundtrip sample_vault 0 "hunter2" "goca/secret/v1|1|1" _ eq_refl).
Defined.

Lemma open_truncated_panics_witness :
  Pqcrypt.Open sample_vault
    (Pqcrypt.Prefix +:+ String Pqcrypt.algHybrid (repeat_char 1212 "x"))%go "" = Pqcrypt.Panics.
Proof.
  refine (open_truncated_panics sample_vault (String Pqcrypt.algHybrid (repeat_char 1212 "x")) "" _ _ eq_refl eq_refl).
  vm_compute. lia.
Defined.
