(* ===== verification/CaService.v ===== *)
(** * The certificate service (internal/ca/service.go)

    Everything the CLI, the portal, the REST API and the ACME server do to
    authorities and certificates goes through these operations.  The section's
    variables are what [ca.Service] holds: the configuration, the master key
    behind its encryption box, and the event sink notified after every audit
    record.  Metrics counters are not modelled. *)

From S2P Require Import Prelude GoStrings Effects Models Schema Store Pki Sealing.

Module CaService.

Open Scope prog_scope.

(** The part of config.Config the service reads. *)
Record Config := mkConfig {
  DefaultKeyType : string; DefaultCADays : Z; DefaultCertDays : Z; CRLDays : Z;
  CRLDistPoints : list string; OCSPServers : list string; BaseURL : string }.

Definition ModeGenerate : string := "generate".
Definition ModeCSR : string := "csr".

Record IssueInput := mkIssue {
  CARef : string; Mode : string; in_Subject : Pki.Subject; SANs : list string; in_KeyType : string;
  in_Profile : string; Days : Z; in_CSRPEM : string; KeyPEM : string; StoreKey : option bool;
  in_Note : string; Actor : string; AllowSubordinateCA : bool }.

Record IssueResult := mkIssued {
  res_Certificate : Certificate.t; PrivateKeyPEM : string; res_CSRPEM : string; ChainPEM : string }.

Record CreateCAInput := mkCreateCA {
  ci_Name : string; ci_Subject : Pki.Subject; ci_KeyType : string; ci_Days : Z; ParentRef : string;
  ci_PathLen : Z; ci_CRLDistPoints : list string; ci_OCSPServers : list string;
  PermittedDNS : list string; MakeDefault : bool; ci_Actor : string }.

Definition ErrSubordinateCANotAllowed : error := Sentinel "subordinate CA not allowed".

(** ** Helpers *)

Definition firstNonEmpty (vals : list string) : string :=
  match List.find (fun v => nonempty (Str.TrimSpace v)) vals with Some v => v | None => EmptyString end.

Definition firstNonEmptySlice (vals : list (list string)) : list string :=
  match List.find (fun v => match v with [] => false | _ => true end) vals with Some v => v | None => [] end.

Definition newline : string := String (ascii_of_nat 10) EmptyString.

Definition normalizePEM (s : string) : string :=
  let s := Str.TrimSpace s in if str_is s "" then EmptyString else (s +:+ newline)%go.

(** Subject.JSON: every field but the common name is omitted when empty. *)
Definition subject_json (s : Pki.Subject) : string :=
  let field k v := (Store.json_string k +:+ ":" +:+ Store.json_string v)%go in
  let opt k v := if str_is v "" then [] else [field k v] in
  ("{" +:+ Str.Join
     ([field "common_name" (Pki.CommonName s)] ++ opt "organization" (Pki.Organization s)
      ++ opt "organizational_unit" (Pki.OrganizationalUnit s) ++ opt "country" (Pki.Country s)
      ++ opt "province" (Pki.Province s) ++ opt "locality" (Pki.Locality s)
      ++ opt "street_address" (Pki.StreetAddress s) ++ opt "postal_code" (Pki.PostalCode s)
      ++ opt "email" (Pki.EmailAddress s)) "," +:+ "}")%go.

(** slugRE.ReplaceAllString(s, "-"): each run of other characters becomes one
    dash. *)
Definition slug_char (c : ascii) : bool := Str.is_lower c || Str.is_digit c.
Fixpoint dash_runs (s : string) (in_run : bool) : string :=
  match s with
  | EmptyString => EmptyString
  | String c s' =>
      if slug_char c then String c (dash_runs s' false)
      else if in_run then dash_runs s' true else String "-" (dash_runs s' true)
  end.

Definition Slugify (s : string) : string :=
  let out := Str.Trim (dash_runs (Str.ToLower (Str.TrimSpace s)) false) "-" in
  let out := if str_is out "" then "ca"%string else out in
  if (60 <? String.length out)%nat then take_s 60 out else out.

(** A plain decimal integer that prints back as itself. *)
Fixpoint digits_value (s : string) (acc : Z) : option Z :=
  match s with
  | EmptyString => Some acc
  | String c s' => if Str.is_digit c then digits_value s' (acc * 10 + (Z.of_nat (Str.code c) - 48)) else None
  end.
Definition parseInt64 (s : string) : option Z :=
  let v := match s with
           | EmptyString => None
           | String "-" EmptyString => None
           | String "-" s' => Z.opp <$> digits_value s' 0
           | _ => digits_value s 0
           end in
  match v with
  | Some n => if str_is (Str.itoa n) s && (- 2 ^ 63 <=? n)%Z && (n <? 2 ^ 63)%Z then Some n else None
  | None => None
  end.

Section service.
Context `{Std : Pki.Std} `{Ciphers} `{RowOrder}.
Context (cfg : Config) (master : string).
Context (sink : string -> string -> string -> string -> string -> prog world unit).

(** ** Auditing *)

Definition recordAudit (actor action target detail ip : string) : prog world unit :=
  let actor := if str_is actor "" then "system"%string else actor in
  _ <- Store.Audit actor action target detail ip ;;
  sink actor action target detail ip.

Definition audit (actor action target detail : string) : prog world unit :=
  recordAudit actor action target detail "".
Definition AuditWithIP := recordAudit.

(** ** Keys *)

Definition box_Encrypt (plaintext : string) : M string := Pki.draw (fun n => Box.Encrypt master n plaintext).
Definition box_Decrypt (value : string) : result error string := Box.Decrypt master value.

Definition decryptKey (enc : string) : result error Pki.PrivateKey :=
  result_bind (box_Decrypt enc) Pki.ParsePrivateKeyPEM.

(** ** Authorities *)

(** Why an authority cannot sign at time [now], if it cannot. *)
Definition checkCanIssue (now : Z) (c : CA.t) : option error :=
  if str_is (CA.Status c) StatusPending
  then Some (Errorf (Str.Sprintf "authority %q is still waiting for its signed certificate. Send its CSR to the external authority, then import the result with `goca ca import-signed %s --cert signed.crt`" [Str.AStr (CA.Name c); Str.AStr (CA.Slug c)]))
  else if negb (CA_HasKey c)
  then Some (Errorf (Str.Sprintf "authority %q is a trust anchor: goca holds its certificate but not its private key, so it cannot sign. Issue from a CA that has a key" [Str.AStr (CA.Name c)]))
  else if negb (str_is (CA.Status c) StatusActive)
  then Some (Errorf (Str.Sprintf "authority %q is %s and cannot issue certificates" [Str.AStr (CA.Name c); Str.AStr (CA.Status c)]))
  else if CA_Expired now c
  then Some (Errorf (Str.Sprintf "authority %q expired on %s" [Str.AStr (CA.Name c); Str.AStr (Pki.format_date (CA.NotAfter c))]))
  else None.

Fixpoint omap_list {A B} (f : A -> option B) (l : list A) : list B :=
  match l with
  | [] => []
  | x :: l' => match f x with Some y => y :: omap_list f l' | None => omap_list f l' end
  end.

Definition noIssuerError (ref : string) : prog world error :=
  if nonempty (Str.TrimSpace ref)
  then Ret (Errorf (Str.Sprintf "no certificate authority matches %q" [Str.AStr ref]))
  else
    let none := Errorf "no CA available; create one first with `goca ca create --wizard`, the web wizard, or import an existing one with `goca ca import`" in
    all <- Store.ListCAs ;;
    match all with
    | Err _ | Ok [] => Ret none
    | Ok all =>
        now <- time_Now ;;
        let reasons := map Error (omap_list (checkCanIssue now) all) in
        Ret (match reasons with
             | [r] => Errorf r
             | _ => Errorf (Str.Sprintf "no authority can issue right now:%s"
                      [Str.AStr (newline +:+ "  - " +:+ Str.Join reasons (newline +:+ "  - "))%go])
             end)
    end.

(** The loop over numbered suffixes: [left] more candidates, the next one
    being number [i]. *)
Fixpoint slug_loop (left : nat) (base slug : string) (i : Z) : prog world string :=
  match left with
  | 0 => now <- time_Now ;; Ret (Str.Sprintf "%s-%d" [Str.AStr base; Str.AInt (now / Second)%Z])
  | S left' =>
      r <- Store.GetCABySlug slug ;;
      match r with
      | Err e => if is_not_found e then Ret slug
                 else slug_loop left' base (Str.Sprintf "%s-%d" [Str.AStr base; Str.AInt i]) (i + 1)
      | Ok _ => slug_loop left' base (Str.Sprintf "%s-%d" [Str.AStr base; Str.AInt i]) (i + 1)
      end
  end.
Definition uniqueSlug (name : string) : prog world string :=
  let base := Slugify name in slug_loop 98 base base 2.

(** The signing parent a new authority names. *)
Definition resolve_parent (ref : string) : M (option (CA.t * (Pki.Cert Pki.PublicKey * Pki.PrivateKey))) :=
  let ref := Str.TrimSpace ref in
  if str_is ref "" || str_is ref "none" then Ret (Ok None)
  else
    p <- Store.GetCAByRef ref ;;
    Ret (match p with
         | Err e => Err (Wrapf (Str.Sprintf "parent CA %q" [Str.AStr ref]) e)
         | Ok parent =>
             match Pki.ParseCertPEM (CA.CertPEM parent) with
             | Err e => Err (Wrapf "parse parent CA certificate" e)
             | Ok cert =>
                 match decryptKey (CA.KeyEnc parent) with
                 | Err e => Err (Wrapf "unlock parent CA key" e)
                 | Ok key => Ok (Some (parent, (cert, key)))
                 end
             end
         end).

Definition ca_record (in_ : CreateCAInput) (name slug keyEnc : string) (parent : option CA.t)
    (res : Pki.SignResult * string * string) : CA.t :=
  let '(signed, _, kt) := res in
  CA.mk 0 name slug (Pki.DNString (Pki.PKIX (ci_Subject in_))) (subject_json (ci_Subject in_)) (Pki.sr_SerialHex signed) kt
    (Pki.sr_CertPEM signed) keyEnc "" (match parent with None => true | Some _ => false end)
    (CA.ID <$> parent) (ci_PathLen in_) (Pki.cert_NotBefore (Pki.sr_Certificate signed))
    (Pki.cert_NotAfter (Pki.sr_Certificate signed)) StatusActive 0 (Pki.sr_Fingerprint signed) false
    (ci_Actor in_) 0 None false "" "".

Definition ca_name (in_ : CreateCAInput) : string :=
  let n := Str.TrimSpace (ci_Name in_) in if str_is n "" then Pki.CommonName (ci_Subject in_) else n.

Definition CreateCA (in_ : CreateCAInput) : M CA.t :=
  let name := ca_name in_ in
  if str_is name "" then Ret (Err (Errorf "a CA name is required"))
  else match Pki.Validate (ci_Subject in_) with
  | Err e => Ret (Err e)
  | Ok _ =>
  match Pki.ParseKeyType (firstNonEmpty [ci_KeyType in_; DefaultKeyType cfg; Pki.KeyRSA4096]) with
  | Err e => Ret (Err e)
  | Ok kt =>
      let days := if (ci_Days in_ <=? 0)%Z then DefaultCADays cfg else ci_Days in_ in
      parent <-! resolve_parent (ParentRef in_) ;;
      res <-! Pki.CreateCA (Pki.mkCAParams (ci_Subject in_) kt days (ci_PathLen in_) (snd <$> parent)
                (firstNonEmptySlice [ci_CRLDistPoints in_; CRLDistPoints cfg])
                (firstNonEmptySlice [ci_OCSPServers in_; OCSPServers cfg]) (PermittedDNS in_)) ;;
      enc <- box_Encrypt (snd (fst res)) ;;
      match enc with
      | Err e => Ret (Err (Wrapf "encrypt CA key" e))
      | Ok keyEnc =>
          slug <- uniqueSlug name ;;
          saved <-! Store.CreateCA (ca_record in_ name slug keyEnc (fst <$> parent) res) ;;
          made <-! (if MakeDefault in_ then Store.SetDefaultCA (CA.ID saved) else Ret (Ok tt)) ;;
          let saved := if MakeDefault in_ then CA.set_IsDefault true saved else saved in
          audit (ci_Actor in_) "ca.create" (CA.Name saved)
            (Str.Sprintf "serial=%s key=%s days=%d root=%t"
               [Str.AStr (CA.SerialHex saved); Str.AStr (CA.KeyType saved); Str.AInt days; Str.ABool (CA.IsRoot saved)]) ;;;
          Ret (Ok saved)
      end
  end
  end.

Definition ResolveCA (ref : string) : M CA.t := Store.GetCAByRef ref.

Definition SetDefaultCA (id : Z) (actor : string) : M unit :=
  _ <-! Store.SetDefaultCA id ;;
  audit actor "ca.set_default" (Str.itoa id) "" ;;; Ret (Ok tt).

Definition SetCAStatus (id : Z) (status actor : string) : M unit :=
  if negb (str_is status StatusActive) && negb (str_is status StatusDisabled)
  then Ret (Err (Errorf (Str.Sprintf "status must be %q or %q" [Str.AStr StatusActive; Str.AStr StatusDisabled])))
  else
    _ <-! Store.SetCAStatus id status ;;
    audit actor "ca.status" (Str.itoa id) status ;;; Ret (Ok tt).

Definition DeleteCA (id : Z) (actor : string) : M unit :=
  c <-! Store.GetCA id ;;
  _ <-! Store.DeleteCA id ;;
  audit actor "ca.delete" (CA.Name c) "cascade delete of issued certificates" ;;; Ret (Ok tt).

Definition CAKeyPEM (c : CA.t) : result error string := box_Decrypt (CA.KeyEnc c).

(** The loop of CAChain with [left] turns to go. *)
Fixpoint chain_loop (left : nat) (cur : CA.t) (chain : list (Pki.Cert Pki.PublicKey))
    : M (list (Pki.Cert Pki.PublicKey)) :=
  match left with
  | 0 => Ret (Ok chain)
  | S left' =>
      match Pki.ParseCertPEM (CA.CertPEM cur) with
      | Err e => Ret (Err e)
      | Ok cert =>
          let chain := chain ++ [cert] in
          match CA.ParentID cur with
          | None => Ret (Ok chain)
          | Some pid =>
              p <- Store.GetCA pid ;;
              match p with
              | Err _ => Ret (Ok chain)
              | Ok parent => chain_loop left' parent chain
              end
          end
      end
  end.
Definition CAChain (c : CA.t) : M (list (Pki.Cert Pki.PublicKey)) := chain_loop 16 c [].

Fixpoint concat_strings (l : list string) : string :=
  match l with [] => EmptyString | s :: l' => (s +:+ concat_strings l')%go end.

Definition CAChainPEM (c : CA.t) : M string :=
  chain <-! CAChain c ;;
  Ret (Ok (concat_strings (map (fun cert => Pki.EncodeCertPEM (Pki.Raw cert)) chain))).

(** ** Issuance *)

(** What the mode switch yields: the request, its PEM text, the private key
    in PEM form if there is one, and the key type. *)
Record material := mkMaterial {
  m_csr : Pki.CSR Pki.PublicKey; m_csrPEM : string; m_keyPEM : string; m_keyType : string }.

Definition effective_mode (in_ : IssueInput) : string :=
  if str_is (Mode in_) ""
  then (if nonempty (Str.TrimSpace (in_CSRPEM in_)) then ModeCSR else ModeGenerate)
  else Mode in_.

Definition material_csr (in_ : IssueInput) : result error material :=
  if str_is (Str.TrimSpace (in_CSRPEM in_)) ""
  then Err (Errorf (Str.Sprintf "csr_pem is required when mode is %q" [Str.AStr ModeCSR]))
  else result_bind (Pki.ParseCSR (in_CSRPEM in_)) (fun csr =>
    let csrPEM := normalizePEM (in_CSRPEM in_) in
    let kt := Pki.KeyTypeOf (Pki.csr_PublicKey csr) in
    let kp := Str.TrimSpace (KeyPEM in_) in
    if str_is kp "" then Ok (mkMaterial csr csrPEM "" kt)
    else match Pki.ParsePrivateKeyPEM kp with
      | Err e => Err (Wrapf "parse supplied private key" e)
      | Ok key => match Pki.KeyMatchesCSR key csr with
                  | Err e => Err (Wrapf "supplied key does not match the CSR" e)
                  | Ok _ => Ok (mkMaterial csr csrPEM (normalizePEM kp) kt)
                  end
      end).

Definition material_generate (in_ : IssueInput) : M material :=
  match Pki.Validate (in_Subject in_) with
  | Err e => Ret (Err e)
  | Ok _ =>
  match Pki.ParseKeyType (firstNonEmpty [in_KeyType in_; DefaultKeyType cfg]) with
  | Err e => Ret (Err e)
  | Ok kt =>
  match Pki.ParseSANs (SANs in_) with
  | Err e => Ret (Err e)
  | Ok sans =>
      gen <-! Pki.GenerateCSR (in_Subject in_) sans kt ;;
      let '(csrPEM, keyPEM, kt) := gen in
      Ret (result_bind (Pki.ParseCSR csrPEM) (fun csr => Ok (mkMaterial csr csrPEM keyPEM kt)))
  end end end.

Definition issue_material (in_ : IssueInput) : M material :=
  let mode := effective_mode in_ in
  if str_is mode ModeCSR then Ret (material_csr in_)
  else if str_is mode ModeGenerate then material_generate in_
  else Ret (Err (Errorf (Str.Sprintf "unknown issue mode %q (use %q or %q)"
         [Str.AStr (Mode in_); Str.AStr ModeGenerate; Str.AStr ModeCSR]))).

(** SANs and a subject supplied alongside a CSR override the CSR's. *)
Definition san_override (in_ : IssueInput) : result error (option Pki.SANSet) :=
  if str_is (effective_mode in_) ModeCSR && match SANs in_ with [] => false | _ => true end
  then result_bind (Pki.ParseSANs (SANs in_)) (fun s => Ok (Some s))
  else Ok None.

Definition subject_override (in_ : IssueInput) : option Pki.Subject :=
  if str_is (effective_mode in_) ModeCSR && nonempty (Str.TrimSpace (Pki.CommonName (in_Subject in_)))
  then Some (in_Subject in_) else None.

Definition cert_sans (c : Pki.Cert Pki.PublicKey) : list string :=
  Pki.Strings (Pki.mkSANs (Pki.DNSNames c) (Pki.IPAddresses c) (Pki.EmailAddresses c) (Pki.cert_URIs c)).

(** The row stored for an issued certificate. *)
Definition issue_record (in_ : IssueInput) (caID : Z) (profile keyEnc : string) (m : material)
    (res : Pki.SignResult) : Certificate.t :=
  let cert := Pki.sr_Certificate res in
  Certificate.mk 0 caID "" (Pki.sr_SerialHex res) (Pki.CN (Pki.cert_Subject cert))
    (Pki.DNString (Pki.cert_Subject cert)) (cert_sans cert) profile (m_keyType m) (Pki.sr_CertPEM res)
    keyEnc (m_csrPEM m) false (Pki.sr_Fingerprint res) (Pki.cert_NotBefore cert) (Pki.cert_NotAfter cert)
    StatusActive None 0 (Actor in_) (in_Note in_) 0 None.

Definition store_key (in_ : IssueInput) (keyPEM : string) : M string :=
  if (match StoreKey in_ with Some b => b | None => true end) && nonempty keyPEM
  then enc <- box_Encrypt keyPEM ;;
       Ret (match enc with Ok e => Ok e | Err e => Err (Wrapf "encrypt private key" e) end)
  else Ret (Ok EmptyString).

(** The issuer of a request: resolved, able to sign, unlocked, and allowed
    the requested profile. *)
Definition issuer_of (in_ : IssueInput) : M (CA.t * Pki.Cert Pki.PublicKey * Pki.PrivateKey * string) :=
  r <- Store.GetCAByRef (CARef in_) ;;
  match r with
  | Err e => if is_not_found e then e' <- noIssuerError (CARef in_) ;; Ret (Err e') else Ret (Err e)
  | Ok ca =>
      now <- time_Now ;;
      match checkCanIssue now ca with
      | Some e => Ret (Err e)
      | None =>
      match Pki.ParseCertPEM (CA.CertPEM ca) with
      | Err e => Ret (Err (Wrapf "parse CA certificate" e))
      | Ok cert =>
      match decryptKey (CA.KeyEnc ca) with
      | Err e => Ret (Err (Wrapf "unlock CA key" e))
      | Ok key =>
      match Pki.ParseProfile (in_Profile in_) with
      | Err e => Ret (Err e)
      | Ok profile =>
          if str_is profile Pki.ProfileIntermCA && negb (AllowSubordinateCA in_)
          then Ret (Err ErrSubordinateCANotAllowed)
          else Ret (Ok (ca, cert, key, profile))
      end end end end
  end.

Definition Issue (in_ : IssueInput) : M IssueResult :=
  iss <-! issuer_of in_ ;;
  let '(ca, issuerCert, issuerKey, profile) := iss in
  let days := if (Days in_ <=? 0)%Z then DefaultCertDays cfg else Days in_ in
  m <-! issue_material in_ ;;
  match san_override in_ with
  | Err e => Ret (Err e)
  | Ok sans =>
      res <-! Pki.Sign (Pki.mkSign (m_csr m) issuerCert issuerKey profile days sans (subject_override in_)
                          (CRLDistPoints cfg) (OCSPServers cfg) 0) ;;
      keyEnc <-! store_key in_ (m_keyPEM m) ;;
      saved <-! Store.CreateCertificate (issue_record in_ (CA.ID ca) profile keyEnc m res) ;;
      audit (Actor in_) "cert.issue" (Certificate.CommonName saved)
        (Str.Sprintf "serial=%s ca=%s profile=%s days=%d mode=%s key_stored=%t"
           [Str.AStr (Certificate.SerialHex saved); Str.AStr (CA.Name ca); Str.AStr profile; Str.AInt days;
            Str.AStr (effective_mode in_); Str.ABool (nonempty keyEnc)]) ;;;
      chain <- CAChainPEM ca ;;
      Ret (Ok (mkIssued saved
             (if nonempty (m_keyPEM m) && str_is (effective_mode in_) ModeGenerate then m_keyPEM m else EmptyString)
             (m_csrPEM m) (match chain with Ok c => c | Err _ => EmptyString end)))
  end.

(** ** Retrieval *)

Definition FindCertificate (ref : string) : M Certificate.t :=
  let ref := Str.TrimSpace ref in
  if str_is ref "" then Ret (Err (Errorf "a certificate id or serial is required"))
  else match parseInt64 ref with
    | Some id =>
        c <- Store.GetCertificate id ;;
        match c with Ok c => Ret (Ok c) | Err _ => Store.GetCertificateBySerial ref end
    | None => Store.GetCertificateBySerial ref
    end.

Definition CertKeyPEM (c : Certificate.t) : result error string :=
  if str_is (Certificate.KeyEnc c) ""
  then Err (Errorf "no private key is stored for this certificate (it was issued from a CSR, or key storage was disabled)")
  else box_Decrypt (Certificate.KeyEnc c).

Definition CertChainPEM (c : Certificate.t) : M string :=
  ca <-! Store.GetCA (Certificate.CAID c) ;;
  chain <-! CAChainPEM ca ;;
  Ret (Ok (Certificate.CertPEM c +:+ chain)%go).

(** ** Revocation and CRLs *)

Definition Revoke (id reason : Z) (actor : string) : M unit :=
  c <-! Store.GetCertificate id ;;
  _ <-! Store.RevokeCertificate id reason ;;
  audit actor "cert.revoke" (Certificate.CommonName c)
    (Str.Sprintf "serial=%s reason=%s" [Str.AStr (Certificate.SerialHex c); Str.AStr (Pki.ReasonName reason)]) ;;;
  Ret (Ok tt).

(** The list entries of the revoked certificates; one without a revocation
    time is dated now. *)
Fixpoint cert_entries (l : list Certificate.t) : prog world (list Pki.RevokedEntry) :=
  match l with
  | [] => Ret []
  | r :: l' =>
      now <- time_Now ;;
      es <- cert_entries l' ;;
      Ret (Pki.mkRevoked (Certificate.SerialHex r)
             (match Certificate.RevokedAt r with Some t => t | None => now end) (Certificate.RevokeCode r) :: es)
  end.
Definition ca_entry (r : CARevocation.t) : Pki.RevokedEntry :=
  Pki.mkRevoked (CARevocation.SerialHex r) (CARevocation.RevokedAt r) (CARevocation.Reason r).

Definition GenerateCRL (caID : Z) (actor : string) : M (Pki.CRLTemplate * string * string) :=
  ca <-! Store.GetCA caID ;;
  if CA_Pending ca
  then Ret (Err (Errorf (Str.Sprintf "authority %q has no certificate yet, so it has no CRL" [Str.AStr (CA.Name ca)])))
  else if negb (CA_HasKey ca)
  then Ret (Err (Errorf (Str.Sprintf "goca holds no private key for %q, so it cannot sign a CRL. Publish that authority's CRL from wherever it is operated" [Str.AStr (CA.Name ca)])))
  else match Pki.ParseCertPEM (CA.CertPEM ca) with
  | Err e => Ret (Err e)
  | Ok cert =>
  match decryptKey (CA.KeyEnc ca) with
  | Err e => Ret (Err e)
  | Ok key =>
      revoked <-! Store.RevokedCertificates caID ;;
      entries <- cert_entries revoked ;;
      caRevs <-! Store.CARevocations_ caID ;;
      let entries := entries ++ map ca_entry caRevs in
      number <-! Store.NextCRLNumber caID ;;
      crl <-! Pki.CreateCRL cert key number (CRLDays cfg) entries ;;
      audit actor "crl.generate" (CA.Name ca)
        (Str.Sprintf "number=%d entries=%d" [Str.AInt number; Str.AInt (Z.of_nat (length entries))]) ;;;
      Ret (Ok crl)
  end
  end.
End service.

End CaService.
