(* ===== verification/CaLifecycle.v ===== *)
(** * After issuance (internal/ca/lifecycle.go)

    Renewal and the history it leaves, certificate holds, bulk revocation, and
    the retirement of authorities.  [RevokeCA] calls itself on every child
    authority without a guard against cycles of parents; the model bounds the
    depth of that recursion with fuel, and [None] is a call that has not come
    back within it, never an answer. *)

From S2P Require Import Prelude GoStrings Effects Models Schema Store Pki Sealing CaService.

Module CaLifecycle.

Open Scope prog_scope.

(** ** Renewal *)

Record RenewInput := mkRenew {
  rn_Days : Z; SameKey : bool; rn_CARef : string; rn_KeyType : string; RevokeOld : bool;
  rn_StoreKey : option bool; rn_Note : string; rn_Actor : string; rn_AllowSubordinateCA : bool }.

Record RenewResult := mkRenewed {
  rr_Certificate : Certificate.t; Previous : Certificate.t; rr_PrivateKeyPEM : string;
  rr_ChainPEM : string; RevokedOld : bool }.

(** [int(d.Hours() / 24)] of the difference of two times, which saturates at
    the range of an int64. *)
Definition whole_days (until since : Z) : Z :=
  Z.quot (Z.max (- 2 ^ 63) (Z.min (2 ^ 63 - 1) (until - since))) (24 * Hour).

Section service.
Context `{Std : Pki.Std} `{Ciphers} `{RowOrder}.
Context (cfg : CaService.Config) (master : string).
Context (sink : string -> string -> string -> string -> string -> prog world unit).

#[local] Notation audit := (CaService.audit sink).

Definition subjectOf (c : Certificate.t) : result error Pki.Subject :=
  match Pki.ParseCertPEM (Certificate.CertPEM c) with
  | Err e => Err (Wrapf "parse the certificate being renewed" e)
  | Ok cert => Ok (Pki.SubjectFromPKIX (Pki.cert_Subject cert))
  end.

(** The authority the replacement asks for: the one named, else the original
    issuer while it can still sign, else none in particular. *)
Definition renew_issuer (in_ : RenewInput) (old : Certificate.t) : prog world string :=
  let ref := Str.TrimSpace (rn_CARef in_) in
  if nonempty ref then Ret ref
  else
    issuer <- Store.GetCA (Certificate.CAID old) ;;
    match issuer with
    | Err _ => Ret EmptyString
    | Ok issuer =>
        now <- time_Now ;;
        Ret (match CaService.checkCanIssue now issuer with
             | None => Str.itoa (CA.ID issuer)
             | Some _ => EmptyString
             end)
    end.

Definition renew_days (in_ : RenewInput) (old : Certificate.t) : Z :=
  if (0 <? rn_Days in_)%Z then rn_Days in_
  else let span := whole_days (Certificate.NotAfter old) (Certificate.NotBefore old) in
       if (0 <? span)%Z then span else CaService.DefaultCertDays cfg.

(** The request made for the replacement: its mode, SANs, key type, CSR and
    key are what the two branches on [SameKey] differ in. *)
Definition renew_request (in_ : RenewInput) (old : Certificate.t) (caRef : string) (subject : Pki.Subject)
    (mode keyType csrPEM keyPEM : string) (sans : list string) : CaService.IssueInput :=
  CaService.mkIssue caRef mode subject sans keyType (Certificate.Profile old) (renew_days in_ old) csrPEM keyPEM
    (Some (match rn_StoreKey in_ with Some b => b | None => Certificate.HasKey old end))
    (CaService.firstNonEmpty [rn_Note in_; Certificate.Note old]) (rn_Actor in_) (rn_AllowSubordinateCA in_).

Definition renew_issue (in_ : RenewInput) (old : Certificate.t) (caRef : string) (subject : Pki.Subject)
    : M CaService.IssueInput :=
  if SameKey in_ then
    match CaService.CertKeyPEM master old with
    | Err e => Ret (Err (Wrapf "cannot reuse the existing key" e))
    | Ok keyPEM =>
        match Pki.ParsePrivateKeyPEM keyPEM with
        | Err e => Ret (Err e)
        | Ok key =>
            match Pki.ParseSANs (Certificate.SANs_ old) with
            | Err e => Ret (Err e)
            | Ok sans =>
                csr <- Pki.CSRFromKey key subject sans ;;
                Ret (match csr with
                     | Err e => Err (Wrapf "build a request for the existing key" e)
                     | Ok csrPEM => Ok (renew_request in_ old caRef subject CaService.ModeCSR "" csrPEM keyPEM [])
                     end)
            end
        end
    end
  else
    Ret (Ok (renew_request in_ old caRef subject CaService.ModeGenerate
               (CaService.firstNonEmpty [rn_KeyType in_; Certificate.KeyType old; CaService.DefaultKeyType cfg])
               "" "" (Certificate.SANs_ old))).

(** Retiring the predecessor, when that was asked for. *)
Definition revoke_old (in_ : RenewInput) (old : Certificate.t) (serial : string) : M bool :=
  if RevokeOld in_ && negb (str_is (Certificate.Status old) StatusRevoked) then
    r <- Store.RevokeCertificate (Certificate.ID old) Pki.ReasonSuperseded ;;
    Ret (match r with
         | Err e => Err (Wrapf (Str.Sprintf "the replacement was issued (serial %s) but revoking the old certificate failed" [Str.AStr serial]) e)
         | Ok _ => Ok true
         end)
  else Ret (Ok false).

Definition Renew (id : Z) (in_ : RenewInput) : M RenewResult :=
  old <-! Store.GetCertificate id ;;
  caRef <- renew_issuer in_ old ;;
  match subjectOf old with
  | Err e => Ret (Err e)
  | Ok subject =>
      issue <-! renew_issue in_ old caRef subject ;;
      res <-! CaService.Issue cfg master sink issue ;;
      let new := CaService.res_Certificate res in
      _ <-! Store.SetRenewedFrom (Certificate.ID new) (Certificate.ID old) ;;
      revoked <-! revoke_old in_ old (Certificate.SerialHex new) ;;
      audit (rn_Actor in_) "cert.renew" (Certificate.CommonName old)
        (Str.Sprintf "old_serial=%s new_serial=%s same_key=%t revoked_old=%t days=%d"
           [Str.AStr (Certificate.SerialHex old); Str.AStr (Certificate.SerialHex new);
            Str.ABool (SameKey in_); Str.ABool revoked; Str.AInt (renew_days in_ old)]) ;;;
      Ret (Ok (mkRenewed (Certificate.set_RenewedFrom (Some (Certificate.ID old)) new) old
                 (CaService.PrivateKeyPEM res) (CaService.ChainPEM res) revoked))
  end.

(** The batch: what succeeded, and the errors of what did not. *)
Fixpoint renew_each (due : list Certificate.t) (in_ : RenewInput) (out : list RenewResult) (errs : list error)
    : prog world (list RenewResult * list error) :=
  match due with
  | [] => Ret (out, errs)
  | c :: due' =>
      res <- Renew (Certificate.ID c) in_ ;;
      match res with
      | Err e => renew_each due' in_ out
                   (errs ++ [Wrapf (Str.Sprintf "%s (serial %s)" [Str.AStr (Certificate.CommonName c); Str.AStr (Certificate.SerialHex c)]) e])
      | Ok r => renew_each due' in_ (out ++ [r]) errs
      end
  end.

Definition RenewExpiring (withinDays : Z) (in_ : RenewInput) : prog world (list RenewResult * list error) :=
  let withinDays := if (withinDays <=? 0)%Z then 30%Z else withinDays in
  due <- Store.SearchCertificates (Store.mkFilter "" 0 "" "" "" withinDays 1000 0 "not_after" false) ;;
  match due with
  | Err e => Ret ([], [e])
  | Ok (due, _) => renew_each due in_ [] []
  end.

(** Predecessors, nearest last, [left] links to go. *)
Fixpoint history_back (left : nat) (cur : Certificate.t) (back : list Certificate.t) : prog world (list Certificate.t) :=
  match left, Certificate.RenewedFrom cur with
  | S left', Some id =>
      prev <- Store.GetCertificate id ;;
      match prev with
      | Err _ => Ret back
      | Ok prev => history_back left' prev (prev :: back)
      end
  | _, _ => Ret back
  end.

(** Successors, nearest first. *)
Fixpoint history_forward (left : nat) (next : Certificate.t) (chain : list Certificate.t) : prog world (list Certificate.t) :=
  match left with
  | 0 => Ret chain
  | S left' =>
      successor <- Store.CertificateRenewedFrom (Certificate.ID next) ;;
      match successor with
      | Ok (Some s) => history_forward left' s (chain ++ [s])
      | _ => Ret chain
      end
  end.

Definition RenewalHistory (c : Certificate.t) : M (list Certificate.t) :=
  back <- history_back 64 c [] ;;
  chain <- history_forward 64 c (back ++ [c]) ;;
  Ret (Ok chain).

(** ** Holds *)

Definition Hold (id : Z) (actor : string) : M unit :=
  c <-! Store.GetCertificate id ;;
  if str_is (Certificate.Status c) StatusRevoked then
    Ret (Err (Errorf (if OnHold c
      then Str.Sprintf "%s is already on hold" [Str.AStr (Certificate.CommonName c)]
      else Str.Sprintf "%s is permanently revoked (%s) and cannot be put on hold"
             [Str.AStr (Certificate.CommonName c); Str.AStr (Pki.ReasonName (Certificate.RevokeCode c))])))
  else
    _ <-! Store.RevokeCertificate id Pki.ReasonCertificateHold ;;
    audit actor "cert.hold" (Certificate.CommonName c) ("serial=" +:+ Certificate.SerialHex c)%go ;;;
    Ret (Ok tt).

Definition Release (id : Z) (actor : string) : M unit :=
  c <-! Store.GetCertificate id ;;
  _ <-! Store.UnrevokeCertificate id ;;
  audit actor "cert.release" (Certificate.CommonName c) ("serial=" +:+ Certificate.SerialHex c)%go ;;;
  Ret (Ok tt).

(** ** Bulk revocation *)

Record BulkRevokeInput := mkBulk {
  bi_IDs : list Z; bi_Filter : option Store.CertFilter; bi_Reason : Z; bi_Actor : string }.
Record BulkRevokeResult := mkBulked {
  Revoked : list Certificate.t; Skipped : list string; Errors : list string; CAIDs : list Z }.

Fixpoint bulk_listed (ids : list Z) (targets : list Certificate.t) : M (list Certificate.t) :=
  match ids with
  | [] => Ret (Ok targets)
  | id :: ids' =>
      c <- Store.GetCertificate id ;;
      match c with
      | Err e => Ret (Err (Wrapf (Str.Sprintf "certificate %d" [Str.AInt id]) e))
      | Ok c => bulk_listed ids' (targets ++ [c])
      end
  end.

(** What the filter finds, without what was listed already. *)
Definition bulk_found (filter : option Store.CertFilter) (targets : list Certificate.t) : M (list Certificate.t) :=
  match filter with
  | None => Ret (Ok targets)
  | Some f =>
      let f := if (Store.f_Limit f <=? 0)%Z
               then Store.mkFilter (Store.f_Query f) (Store.f_CAID f) (Store.f_Status f) (Store.f_Profile f)
                      (Store.f_RequestedBy f) (Store.f_ExpiringIn f) 1000 (Store.f_Offset f) (Store.f_SortBy f)
                      (Store.f_SortDesc f)
               else f in
      found <-! Store.SearchCertificates f ;;
      let seen c := existsb (fun t => Certificate.ID t =? Certificate.ID c)%Z targets in
      Ret (Ok (targets ++ List.filter (fun c => negb (seen c)) (fst found)))
  end.

Definition bulk_one (reason : Z) (c : Certificate.t) (out : BulkRevokeResult) : prog world BulkRevokeResult :=
  if str_is (Certificate.Status c) StatusRevoked then
    Ret (mkBulked (Revoked out)
           (Skipped out ++ [Str.Sprintf "%s (serial %s) was already revoked"
                              [Str.AStr (Certificate.CommonName c); Str.AStr (Certificate.SerialHex c)]])
           (Errors out) (CAIDs out))
  else
    r <- Store.RevokeCertificate (Certificate.ID c) reason ;;
    Ret (match r with
         | Err e => mkBulked (Revoked out) (Skipped out)
                      (Errors out ++ [Str.Sprintf "%s: %v" [Str.AStr (Certificate.CommonName c); Str.AStr (Error e)]]) (CAIDs out)
         | Ok _ => mkBulked (Revoked out ++ [c]) (Skipped out) (Errors out)
                     (if existsb (Z.eqb (Certificate.CAID c)) (CAIDs out) then CAIDs out else CAIDs out ++ [Certificate.CAID c])
         end).

Fixpoint bulk_each (reason : Z) (targets : list Certificate.t) (out : BulkRevokeResult) : prog world BulkRevokeResult :=
  match targets with
  | [] => Ret out
  | c :: targets' => out <- bulk_one reason c out ;; bulk_each reason targets' out
  end.

(** The authorities affected come out of a Go map, in no particular order. *)
Definition BulkRevoke (in_ : BulkRevokeInput) : M BulkRevokeResult :=
  listed <-! bulk_listed (bi_IDs in_) [] ;;
  targets <-! bulk_found (bi_Filter in_) listed ;;
  match targets with
  | [] => Ret (Err (Errorf "nothing matched; refusing to revoke an empty selection"))
  | _ =>
      out <- bulk_each (bi_Reason in_) targets (mkBulked [] [] [] []) ;;
      let count {A} (l : list A) := Str.AInt (Z.of_nat (length l)) in
      audit (bi_Actor in_) "cert.bulk_revoke" (Str.Sprintf "%d certificates" [count (Revoked out)])
        (Str.Sprintf "reason=%s skipped=%d errors=%d"
           [Str.AStr (Pki.ReasonName (bi_Reason in_)); count (Skipped out); count (Errors out)]) ;;;
      Ret (Ok (mkBulked (Revoked out) (Skipped out) (Errors out) (scan (CAIDs out))))
  end.

(** ** Retiring an authority *)

Record RevokeCAResult := mkRetired {
  rc_CA : CA.t; RevokedInParent : bool; ParentName : string; rc_Certificates : Z;
  rc_ChildCAs : list string; Warnings : list string }.

Definition warn (w : string) (out : RevokeCAResult) : RevokeCAResult :=
  mkRetired (rc_CA out) (RevokedInParent out) (ParentName out) (rc_Certificates out) (rc_ChildCAs out)
    (Warnings out ++ [w]).

Definition sweep_one (reason : Z) (cert : Certificate.t) (out : RevokeCAResult) : prog world RevokeCAResult :=
  if str_is (Certificate.Status cert) StatusRevoked then Ret out
  else
    r <- Store.RevokeCertificate (Certificate.ID cert) reason ;;
    Ret (match r with
         | Err e => warn (Str.Sprintf "could not revoke %s: %v" [Str.AStr (Certificate.CommonName cert); Str.AStr (Error e)]) out
         | Ok _ => mkRetired (rc_CA out) (RevokedInParent out) (ParentName out) (rc_Certificates out + 1)
                     (rc_ChildCAs out) (Warnings out)
         end).

Fixpoint sweep_certs (reason : Z) (certs : list Certificate.t) (out : RevokeCAResult) : prog world RevokeCAResult :=
  match certs with
  | [] => Ret out
  | c :: certs' => out <- sweep_one reason c out ;; sweep_certs reason certs' out
  end.

(** The children, each retired by [rec]. *)
Fixpoint sweep_children (rec : Z -> prog world (option (result error RevokeCAResult))) (children : list CA.t)
    (out : RevokeCAResult) : prog world (option RevokeCAResult) :=
  match children with
  | [] => Ret (Some out)
  | child :: children' =>
      sub <- rec (CA.ID child) ;;
      match sub with
      | None => Ret None
      | Some (Err e) => sweep_children rec children'
          (warn (Str.Sprintf "could not retire subordinate %s: %v" [Str.AStr (CA.Name child); Str.AStr (Error e)]) out)
      | Some (Ok sub) => sweep_children rec children'
          (mkRetired (rc_CA out) (RevokedInParent out) (ParentName out) (rc_Certificates out + rc_Certificates sub)
             (rc_ChildCAs out ++ [CA.Name child] ++ rc_ChildCAs sub) (Warnings out))
      end
  end.

(** Listing the authority on its parent's CRL, when goca can. *)
Definition tell_parent (c : CA.t) (reason : Z) (out : RevokeCAResult) : prog world RevokeCAResult :=
  match CA.ParentID c with
  | None =>
      Ret (warn (if CA.IsRoot c
                 then "this is a root authority: nothing can revoke it, so remove it from your trust stores"
                 else "this authority's issuer is not known to goca; revoke it on the external authority too")%string out)
  | Some pid =>
      parent <- Store.GetCA pid ;;
      match parent with
      | Err _ => Ret out
      | Ok parent =>
          let out := mkRetired (rc_CA out) (RevokedInParent out) (CA.Name parent) (rc_Certificates out)
                       (rc_ChildCAs out) (Warnings out) in
          if CA_HasKey parent then
            r <- Store.RecordCARevocation (CA.ID parent) (CA.SerialHex c) reason ;;
            Ret (match r with
                 | Err e => warn (Str.Sprintf "could not add %s to the CRL of %s: %v"
                                    [Str.AStr (CA.Name c); Str.AStr (CA.Name parent); Str.AStr (Error e)]) out
                 | Ok _ => mkRetired (rc_CA out) true (ParentName out) (rc_Certificates out) (rc_ChildCAs out) (Warnings out)
                 end)
          else Ret (warn (Str.Sprintf "goca holds no private key for the issuer %q, so it cannot publish a CRL listing this authority. Revoke it on the external authority as well"
                            [Str.AStr (CA.Name parent)]) out)
      end
  end.

(** The filter of the sweep: everything the authority issued, ten thousand at
    most. *)
Definition issued_by (id : Z) : Store.CertFilter := Store.mkFilter "" id "" "" "" 0 10000 0 "" false.

Fixpoint RevokeCA (fuel : nat) (id reason : Z) (cascade : bool) (actor : string)
    : prog world (option (result error RevokeCAResult)) :=
  match fuel with
  | 0 => Ret None
  | S fuel' =>
      c <- Store.GetCA id ;;
      match c with
      | Err e => Ret (Some (Err e))
      | Ok c =>
      disabled <- Store.SetCAStatus id StatusDisabled ;;
      match disabled with
      | Err e => Ret (Some (Err e))
      | Ok _ =>
      let finish (out : RevokeCAResult) :=
        out <- tell_parent c reason out ;;
        audit actor "ca.revoke" (CA.Name c)
          (Str.Sprintf "reason=%s cascade=%t certificates=%d in_parent_crl=%t"
             [Str.AStr (Pki.ReasonName reason); Str.ABool cascade; Str.AInt (rc_Certificates out);
              Str.ABool (RevokedInParent out)]) ;;;
        Ret (Some (Ok out)) in
      let out := mkRetired c false "" 0 [] [] in
      if cascade then
        certs <- Store.SearchCertificates (issued_by id) ;;
        match certs with
        | Err e => Ret (Some (Err e))
        | Ok (certs, _) =>
            out <- sweep_certs reason certs out ;;
            children <- Store.ChildCAs id ;;
            match children with
            | Err _ => finish out
            | Ok children =>
                out <- sweep_children (fun child => RevokeCA fuel' child reason true actor) children out ;;
                match out with None => Ret None | Some out => finish out end
            end
        end
      else finish out
      end
      end
  end.
End service.

End CaLifecycle.
