(* ===== verification/CaImport.v ===== *)
(** * Running underneath an outside authority (internal/ca/import.go,
    internal/pki/import.go and inspect.go)

    [PkiImport]: reading certificate chains, checking that a certificate can
    sign, the request a subordinate authority sends out, and the summary of a
    certificate.  [CaImport]: the three ways in - a request completed later, an
    authority imported with its key, a trust anchor imported without one - and
    how an imported certificate is tied to its issuer. *)

From S2P Require Import Prelude GoStrings Effects Models Schema Store Pki CaService CaLifecycle Sealing.

Module PkiImport.

Open Scope prog_scope.

(** ** DER: encoding/asn1 on the two values a request carries *)

(** Tag, length, contents of less than 128 bytes. *)
Definition asn1_tlv (tag : nat) (contents : string) : string :=
  String (ascii_of_nat tag) (String (ascii_of_nat (String.length contents)) contents).

Definition asn1_bool (b : bool) : string := asn1_tlv 1 (String (ascii_of_nat (if b then 255 else 0)) "").
Definition asn1_sequence (fields : list string) : string := asn1_tlv 48 (CaService.concat_strings fields).

(** A BIT STRING: how many bits of its last byte are unused, then the bytes. *)
Definition asn1_bits (bytes : string) (bit_length : nat) : string :=
  asn1_tlv 3 (String (ascii_of_nat (8 * String.length bytes - bit_length)) bytes).

Definition oidBasicConstraints : list Z := [2; 5; 29; 19]%Z.
Definition oidKeyUsage : list Z := [2; 5; 29; 15]%Z.

Definition caExtensionRequests : list Pki.Extension :=
  [Pki.mkExtension oidBasicConstraints true (asn1_sequence [asn1_bool true]);
   Pki.mkExtension oidKeyUsage true (asn1_bits (String (ascii_of_nat 6) "") 7)].

(** ** Summaries *)

Record CertInfo := mkCertInfo {
  info_Subject : string; info_Issuer : string; info_CommonName : string; info_Serial : string;
  info_SANs : list string; info_NotBefore : Z; info_NotAfter : Z; info_IsCA : bool; info_KeyType : string;
  info_SignatureAlgorithm : string; info_KeyUsage : list string; info_ExtKeyUsage : list string;
  info_FingerprintSHA256 : string; info_SubjectKeyID : string; info_AuthorityKeyID : string;
  info_CRLDistPoints : list string; info_OCSPServers : list string; info_DaysRemaining : Z }.

Record CSRInfo := mkCSRInfo {
  ci_Subject : string; ci_CommonName : string; ci_SANs : list string; ci_KeyType : string;
  ci_SignatureAlgorithm : string }.

Definition keyUsageNames (u : Z) : list string :=
  map snd (List.filter (fun n => negb (Z.land u (fst n) =? 0)%Z)
    [(1, "digitalSignature"); (2, "contentCommitment"); (4, "keyEncipherment"); (8, "dataEncipherment");
     (16, "keyAgreement"); (32, "keyCertSign"); (64, "cRLSign"); (128, "encipherOnly"); (256, "decipherOnly")]%Z%string).

(** Bytes in upper-case hexadecimal, separated by colons. *)
Fixpoint hex_pairs (b : string) : list string :=
  match b with
  | EmptyString => []
  | String c b' => Pki.hex_bytes (String c "") :: hex_pairs b'
  end.
Definition hexColons (b : string) : string := Str.Join (hex_pairs b) ":".

Section std.
Context `{Pki.Std}.

(** An extended key usage is held by its name. *)
Definition Describe (c : Pki.Cert Pki.PublicKey) : prog world CertInfo :=
  now <- time_Now ;;
  Ret (mkCertInfo (Pki.DNString (Pki.cert_Subject c)) (Pki.DNString (Pki.Issuer c)) (Pki.CN (Pki.cert_Subject c))
    (Pki.SerialHex (Pki.SerialNumber c)) (CaService.cert_sans c) (Pki.cert_NotBefore c) (Pki.cert_NotAfter c)
    (Pki.IsCA c) (Pki.KeyTypeOf (Pki.cert_PublicKey c)) (Pki.SignatureAlgorithm c) (keyUsageNames (Pki.KeyUsage c))
    (Pki.ExtKeyUsage c) (Pki.FingerprintSHA256 (Pki.Raw c)) (hexColons (Pki.SubjectKeyId c))
    (hexColons (Pki.AuthorityKeyId c)) (Pki.CRLDistributionPoints c) (Pki.OCSPServer c)
    (CaLifecycle.whole_days (Pki.cert_NotAfter c) now)).

Definition DescribeCSR (csr : Pki.CSR Pki.PublicKey) : CSRInfo :=
  mkCSRInfo (Pki.DNString (Pki.csr_Subject csr)) (Pki.CN (Pki.csr_Subject csr))
    (Pki.Strings (Pki.mkSANs (Pki.csr_DNSNames csr) (Pki.csr_IPAddresses csr) (Pki.csr_EmailAddresses csr) (Pki.csr_URIs csr)))
    (Pki.KeyTypeOf (Pki.csr_PublicKey csr)) (Pki.csr_SignatureAlgorithm csr).

(** ** Reading and checking certificates *)

(** The loop over the blocks of a chain. *)
Fixpoint chain_blocks (bs : list Pki.PEMBlock) (out : list (Pki.Cert Pki.PublicKey))
    : result error (list (Pki.Cert Pki.PublicKey)) :=
  match bs with
  | [] => Ok out
  | b :: bs' =>
      if negb (str_is (Pki.pem_Type b) "CERTIFICATE") then chain_blocks bs' out
      else match Pki.x509_ParseCertificate (Pki.pem_Bytes b) with
        | Err e => Err (Wrapf "parse certificate in chain" e)
        | Ok cert => chain_blocks bs' (out ++ [cert])
        end
  end.

(** A text without certificates may be one in DER. *)
Definition ParseCertChainPEM (data : string) : result error (list (Pki.Cert Pki.PublicKey)) :=
  result_bind (chain_blocks (Pki.blocks data) []) (fun out =>
    match out with
    | [] => match Pki.x509_ParseCertificate data with
            | Ok cert => Ok [cert]
            | Err _ => Err (Errorf "no certificates found; expected PEM CERTIFICATE blocks or DER")
            end
    | _ => Ok out
    end).

Definition ValidateCACertificate (cert : Pki.Cert Pki.PublicKey) : M unit :=
  if negb (Pki.IsCA cert)
  then Ret (Err (Errorf "this certificate is not a CA: its basic constraints say CA:FALSE. Import the CA certificate, not an end-entity certificate"))
  else if negb (Pki.KeyUsage cert =? 0)%Z && (Z.land (Pki.KeyUsage cert) Pki.KeyUsageCertSign =? 0)%Z
  then Ret (Err (Errorf "this CA certificate does not carry the keyCertSign usage, so it cannot sign certificates"))
  else
    now <- time_Now ;;
    Ret (if (Pki.cert_NotAfter cert <? now)%Z
         then Err (Errorf (Str.Sprintf "this CA certificate expired on %s" [Str.AStr (Pki.format_date (Pki.cert_NotAfter cert))]))
         else Ok tt).

Definition IsSelfSigned (cert : Pki.Cert Pki.PublicKey) : bool :=
  if negb (str_is (Pki.pkix_String (Pki.cert_Subject cert)) (Pki.pkix_String (Pki.Issuer cert))) then false
  else match Pki.x509_CheckSignatureFrom cert cert with None => true | Some _ => false end.

Definition VerifyIssuedBy (child parent : Pki.Cert Pki.PublicKey) : result error unit :=
  match Pki.x509_CheckSignatureFrom child parent with
  | Some e => Err (Wrapf (Str.Sprintf "%q was not signed by %q"
      [Str.AStr (Pki.DNString (Pki.cert_Subject child)); Str.AStr (Pki.DNString (Pki.cert_Subject parent))]) e)
  | None => Ok tt
  end.

Definition MatchKeyToCertificate (key : Pki.PrivateKey) (cert : Pki.Cert Pki.PublicKey) : result error unit :=
  match Pki.KeyMatchesCert key cert with
  | Err e => Err (Wrapf "the private key does not belong to this certificate" e)
  | Ok _ => Ok tt
  end.

Definition PathLenOf (cert : Pki.Cert Pki.PublicKey) : Z :=
  if negb (Pki.BasicConstraintsValid cert) then -1
  else if Pki.MaxPathLenZero cert then 0
  else if (Pki.MaxPathLen cert <=? 0)%Z then -1
  else Pki.MaxPathLen cert.

(** pki.KeyTypeOf of a private key *)
Definition private_key_type (key : Pki.PrivateKey) : string :=
  match Pki.public_key key with Ok pub => Pki.KeyTypeOf pub | Err _ => "unknown" end.

(** ** The request of a subordinate authority *)

Record SubordinateCSRParams := mkSubParams { sub_Subject : Pki.Subject; sub_KeyType : string }.

Definition subordinate_template (p : SubordinateCSRParams) (key : Pki.PrivateKey) (pub : Pki.PublicKey) : Pki.CSR Pki.PublicKey :=
  Pki.mkCSR "" (Pki.PKIX (sub_Subject p)) [] [] [] [] pub (Pki.signatureAlgorithmFor key) caExtensionRequests.

(** The CSR, the private key in PEM form and the key type. *)
Definition CreateSubordinateCSR (p : SubordinateCSRParams) : M (string * string * string) :=
  match Pki.Validate (sub_Subject p) with
  | Err e => Ret (Err e)
  | Ok _ =>
      let kt := if str_is (sub_KeyType p) "" then Pki.KeyRSA4096 else sub_KeyType p in
      k <- Pki.GenerateKey kt ;;
      match k with
      | Err e => Ret (Err (Wrapf "generate subordinate CA key" e))
      | Ok key =>
          if negb (Pki.is_signer key) then Ret (Err (Errorf "generated key does not implement crypto.Signer"))
          else match Pki.public_key key with
          | Err e => Ret (Err e)
          | Ok pub =>
              r <- Pki.draw (fun n => Pki.x509_CreateCertificateRequest n (subordinate_template p key pub) key) ;;
              Ret (match r with
                   | Err e => Err (Wrapf "create subordinate CA CSR" e)
                   | Ok der => result_bind (Pki.EncodePrivateKeyPEM key) (fun keyPEM =>
                       Ok (Pki.pem_EncodeToMemory "CERTIFICATE REQUEST" der, keyPEM, kt))
                   end)
          end
      end
  end.
End std.

End PkiImport.

Module CaImport.
Import PkiImport.

Open Scope prog_scope.

Record SubordinateCSRInput := mkSubInput {
  sci_Name : string; sci_Subject : Pki.Subject; sci_KeyType : string; sci_ParentRef : string; sci_Actor : string }.
Record SubordinateCSRResult := mkSubResult { scr_CA : CA.t; scr_CSRPEM : string; scr_Info : CSRInfo }.
Record CompleteSubordinateInput := mkComplete {
  cs_CARef : string; cs_CertPEM : string; cs_ChainPEM : string; cs_MakeDefault : bool; cs_Actor : string }.
Record ImportCAInput := mkImport {
  ii_Name : string; ii_CertPEM : string; ii_KeyPEM : string; ii_ChainPEM : string; ii_MakeDefault : bool;
  ii_Actor : string }.

(** A key identifier in the form [Describe] gives it. *)
Definition hexColonsOf (b : string) : string := if str_is b "" then EmptyString else hexColons b.

Section service.
Context `{Std : Pki.Std} `{Ciphers} `{RowOrder}.
Context (cfg : CaService.Config) (master : string).
Context (sink : string -> string -> string -> string -> string -> prog world unit).

#[local] Notation audit := (CaService.audit sink).

(** ** Names *)

(** The loop over numbered names: [left] more candidates. *)
Fixpoint name_loop (left : nat) (name candidate : string) (i : Z) : prog world string :=
  match left with
  | 0 => Ret name
  | S left' =>
      r <- Store.GetCAByRef candidate ;;
      let next := name_loop left' name (Str.Sprintf "%s (%d)" [Str.AStr name; Str.AInt i]) (i + 1) in
      match r with
      | Err e => if is_not_found e then Ret candidate else next
      | Ok _ => next
      end
  end.
Definition uniqueName (name : string) : prog world string := name_loop 98 name name 2.

(** ** The issuer of a certificate *)

(** The candidate's id, when its certificate verifies. *)
Definition issued_by_row (cert : Pki.Cert Pki.PublicKey) (candidate : CA.t) : option Z :=
  match Pki.ParseCertPEM (CA.CertPEM candidate) with
  | Err _ => None
  | Ok parsed => match VerifyIssuedBy cert parsed with Ok _ => Some (CA.ID candidate) | Err _ => None end
  end.

Definition issued_by_found (cert : Pki.Cert Pki.PublicKey) (r : result error CA.t) : option Z :=
  match r with Ok c => issued_by_row cert c | Err _ => None end.

Fixpoint first_issuer (cert : Pki.Cert Pki.PublicKey) (all : list CA.t) : option Z :=
  match all with
  | [] => None
  | c :: all' =>
      if str_is (CA.CertPEM c) "" then first_issuer cert all'
      else match issued_by_row cert c with Some id => Some id | None => first_issuer cert all' end
  end.

Definition by_key_identifier (cert : Pki.Cert Pki.PublicKey) : prog world (option Z) :=
  let aki := hexColonsOf (Pki.AuthorityKeyId cert) in
  if str_is aki "" then Ret None
  else c <- Store.FindCABySubjectKeyID aki ;; Ret (issued_by_found cert c).

Definition findIssuerID (cert : Pki.Cert Pki.PublicKey) : prog world (option Z) :=
  by_aki <- by_key_identifier cert ;;
  match by_aki with
  | Some id => Ret (Some id)
  | None =>
      c <- Store.FindCABySubject (Pki.DNString (Pki.Issuer cert)) ;;
      match issued_by_found cert c with
      | Some id => Ret (Some id)
      | None =>
          all <- Store.ListCAs ;;
          Ret (match all with Ok all => first_issuer cert all | Err _ => None end)
      end
  end.

(** ** Storing what came along *)

(** The row of an imported certificate. *)
Definition imported_record (name slug keyType keyEnc actor : string) (parent : option Z) (info : CertInfo)
    (cert : Pki.Cert Pki.PublicKey) : CA.t :=
  CA.mk 0 name slug (info_Subject info) (CaService.subject_json (Pki.SubjectFromPKIX (Pki.cert_Subject cert)))
    (Pki.SerialHex (Pki.SerialNumber cert)) keyType (Pki.EncodeCertPEM (Pki.Raw cert)) keyEnc ""
    (IsSelfSigned cert) parent (PathLenOf cert) (Pki.cert_NotBefore cert) (Pki.cert_NotAfter cert) StatusActive 0
    (info_FingerprintSHA256 info) false actor 0 None true (info_SubjectKeyID info) (info_AuthorityKeyID info).

(** One certificate of the supplied chain. *)
Definition import_anchor (actor : string) (anchor : Pki.Cert Pki.PublicKey) : M unit :=
  info <- Describe anchor ;;
  known <- Store.FindCAByFingerprint (info_FingerprintSHA256 info) ;;
  if is_ok known then Ret (Ok tt)
  else if negb (Pki.IsCA anchor) then Ret (Ok tt)
  else
    parent <- findIssuerID anchor ;;
    let name := if str_is (Pki.CN (Pki.cert_Subject anchor)) "" then "Imported anchor"%string
                else Pki.CN (Pki.cert_Subject anchor) in
    unique <- uniqueName name ;;
    slug <- CaService.uniqueSlug name ;;
    r <- Store.CreateCA (imported_record unique slug (info_KeyType info) "" actor parent info anchor) ;;
    match r with
    | Err e => Ret (Err (Wrapf (Str.Sprintf "import chain certificate %q" [Str.AStr (info_Subject info)]) e))
    | Ok _ => audit actor "ca.import_anchor" (info_Subject info) "from supplied chain" ;;; Ret (Ok tt)
    end.

Fixpoint import_anchors (actor : string) (anchors : list (Pki.Cert Pki.PublicKey)) : M unit :=
  match anchors with
  | [] => Ret (Ok tt)
  | a :: anchors' => _ <-! import_anchor actor a ;; import_anchors actor anchors'
  end.

(** The chain is imported from its last certificate to its first. *)
Definition linkIssuer (cert : Pki.Cert Pki.PublicKey) (chainPEM actor : string) : M (option Z) :=
  if IsSelfSigned cert then Ret (Ok None)
  else
    stored <- findIssuerID cert ;;
    match stored with
    | Some id => Ret (Ok (Some id))
    | None =>
        if str_is (Str.TrimSpace chainPEM) "" then Ret (Ok None)
        else match ParseCertChainPEM chainPEM with
          | Err e => Ret (Err (Wrapf "parse the issuer chain" e))
          | Ok chain =>
              _ <-! import_anchors actor (rev chain) ;;
              found <- findIssuerID cert ;;
              Ret (Ok found)
          end
    end.

(** ** A request for an outside authority to sign *)

Definition pending_parent (ref : string) : M (option Z) :=
  let ref := Str.TrimSpace ref in
  if str_is ref "" || str_is ref "none" then Ret (Ok None)
  else
    parent <- Store.GetCAByRef ref ;;
    Ret (match parent with
         | Err e => Err (Wrapf (Str.Sprintf "parent authority %q" [Str.AStr ref]) e)
         | Ok p => Ok (Some (CA.ID p))
         end).

Definition pending_record (in_ : SubordinateCSRInput) (name slug kt keyEnc csrPEM : string) (parent : option Z) : CA.t :=
  CA.mk 0 name slug (Pki.DNString (Pki.PKIX (sci_Subject in_))) (CaService.subject_json (sci_Subject in_)) "" kt "" keyEnc
    csrPEM false parent 0 0 0 StatusPending 0 "" false (sci_Actor in_) 0 None true "" "".

Definition CreateSubordinateCSR (in_ : SubordinateCSRInput) : M SubordinateCSRResult :=
  match Pki.Validate (sci_Subject in_) with
  | Err e => Ret (Err e)
  | Ok _ =>
  let name := let n := Str.TrimSpace (sci_Name in_) in if str_is n "" then Pki.CommonName (sci_Subject in_) else n in
  match Pki.ParseKeyType (CaService.firstNonEmpty [sci_KeyType in_; CaService.DefaultKeyType cfg; Pki.KeyRSA4096]) with
  | Err e => Ret (Err e)
  | Ok kt =>
      parent <-! pending_parent (sci_ParentRef in_) ;;
      gen <-! PkiImport.CreateSubordinateCSR (mkSubParams (sci_Subject in_) kt) ;;
      let '(csrPEM, keyPEM, _) := gen in
      enc <- CaService.box_Encrypt master keyPEM ;;
      match enc with
      | Err e => Ret (Err (Wrapf "encrypt subordinate CA key" e))
      | Ok keyEnc =>
      match Pki.ParseCSR csrPEM with
      | Err e => Ret (Err e)
      | Ok parsed =>
          slug <- CaService.uniqueSlug name ;;
          saved <-! Store.CreateCA (pending_record in_ name slug kt keyEnc csrPEM parent) ;;
          audit (sci_Actor in_) "ca.csr_created" (CA.Name saved)
            (Str.Sprintf "key=%s awaiting external signature" [Str.AStr kt]) ;;;
          Ret (Ok (mkSubResult saved csrPEM (DescribeCSR parsed)))
      end end
  end end.

(** ** The signed certificate comes back *)

(** The first certificate of the text, and the chain with the others added. *)
Definition leaf_and_chain (certPEM chainPEM : string) : result error (Pki.Cert Pki.PublicKey * string) :=
  result_bind (ParseCertChainPEM certPEM) (fun certs =>
    match certs with
    | [] => Err (Errorf "index out of range")
    | cert :: extras =>
        Ok (cert, (chainPEM +:+ CaService.concat_strings (map (fun c => Pki.EncodeCertPEM (Pki.Raw c)) extras))%go)
    end).

Definition completed_record (parent : option Z) (info : CertInfo) (cert : Pki.Cert Pki.PublicKey) : CA.t :=
  CA.mk 0 "" "" (info_Subject info) "" (Pki.SerialHex (Pki.SerialNumber cert)) "" (Pki.EncodeCertPEM (Pki.Raw cert)) "" ""
    (IsSelfSigned cert) parent (PathLenOf cert) (Pki.cert_NotBefore cert) (Pki.cert_NotAfter cert) StatusActive 0
    (info_FingerprintSHA256 info) false "" 0 None true (info_SubjectKeyID info) (info_AuthorityKeyID info).

(** The certificate belongs to the key the pending authority kept. *)
Definition matches_pending (rec : CA.t) (cert : Pki.Cert Pki.PublicKey) : result error unit :=
  match CaService.decryptKey master (CA.KeyEnc rec) with
  | Err e => Err (Wrapf "unlock the pending CA key" e)
  | Ok key =>
      match MatchKeyToCertificate key cert with
      | Err e => Err (Errorf (Str.Sprintf "%s. This certificate was signed for a different request; re-submit %s and import the certificate issued for it"
                                [Str.AStr (Error e); Str.AStr (CA.Name rec)]))
      | Ok _ => Ok tt
      end
  end.

(** ... for the pending authority that was found. *)
Definition complete_with (in_ : CompleteSubordinateInput) (rec : CA.t) : M CA.t :=
  if str_is (Str.TrimSpace (cs_CertPEM in_)) "" then Ret (Err (Errorf "the signed certificate is required"))
  else match leaf_and_chain (cs_CertPEM in_) (cs_ChainPEM in_) with
  | Err e => Ret (Err (Wrapf "parse the signed certificate" e))
  | Ok (cert, chainPEM) =>
      _ <-! ValidateCACertificate cert ;;
      match matches_pending rec cert with
      | Err e => Ret (Err e)
      | Ok _ =>
          parent <-! linkIssuer cert chainPEM (cs_Actor in_) ;;
          info <- Describe cert ;;
          _ <-! Store.CompleteCA (CA.ID rec) (completed_record parent info cert) ;;
          _ <-! (if cs_MakeDefault in_ then Store.SetDefaultCA (CA.ID rec) else Ret (Ok tt)) ;;
          audit (cs_Actor in_) "ca.completed" (CA.Name rec)
            (Str.Sprintf "serial=%s issuer=%q valid_until=%s"
               [Str.AStr (Pki.SerialHex (Pki.SerialNumber cert)); Str.AStr (info_Issuer info);
                Str.AStr (Pki.format_date (Pki.cert_NotAfter cert))]) ;;;
          Store.GetCA (CA.ID rec)
      end
  end.

Definition CompleteSubordinate (in_ : CompleteSubordinateInput) : M CA.t :=
  r <- Store.GetCAByRef (cs_CARef in_) ;;
  match r with
  | Err e => Ret (Err (Wrapf (Str.Sprintf "authority %q" [Str.AStr (cs_CARef in_)]) e))
  | Ok rec =>
      if negb (str_is (CA.Status rec) StatusPending)
      then Ret (Err (Errorf (Str.Sprintf "authority %q is not waiting for a signature (status: %s)" [Str.AStr (CA.Name rec); Str.AStr (CA.Status rec)])))
      else complete_with in_ rec
  end.

(** ** An authority made elsewhere *)

(** The key supplied with a certificate: sealed, with its type; none seals to
    nothing. *)
Definition supplied_key (keyPEM keyType : string) (cert : Pki.Cert Pki.PublicKey) : M (string * string) :=
  let kp := Str.TrimSpace keyPEM in
  if str_is kp "" then Ret (Ok (EmptyString, keyType))
  else match Pki.ParsePrivateKeyPEM kp with
    | Err e => Ret (Err (Wrapf "parse the CA private key" e))
    | Ok key =>
        match MatchKeyToCertificate key cert with
        | Err e => Ret (Err e)
        | Ok _ =>
            enc <- CaService.box_Encrypt master (CaService.normalizePEM kp) ;;
            Ret (match enc with
                 | Err e => Err (Wrapf "encrypt the imported CA key" e)
                 | Ok keyEnc => Ok (keyEnc, private_key_type key)
                 end)
        end
    end.

Definition import_name (in_ : ImportCAInput) (cert : Pki.Cert Pki.PublicKey) : string :=
  let n := Str.TrimSpace (ii_Name in_) in
  if nonempty n then n
  else if nonempty (Pki.CN (Pki.cert_Subject cert)) then Pki.CN (Pki.cert_Subject cert) else "Imported CA".

Definition ImportCA (in_ : ImportCAInput) : M CA.t :=
  if str_is (Str.TrimSpace (ii_CertPEM in_)) "" then Ret (Err (Errorf "a CA certificate is required"))
  else match leaf_and_chain (ii_CertPEM in_) (ii_ChainPEM in_) with
  | Err e => Ret (Err e)
  | Ok (cert, chainPEM) =>
      _ <-! ValidateCACertificate cert ;;
      info <- Describe cert ;;
      known <- Store.FindCAByFingerprint (info_FingerprintSHA256 info) ;;
      match known with
      | Ok existing => Ret (Err (Errorf (Str.Sprintf "this certificate is already present as %q (id %d)"
                                           [Str.AStr (CA.Name existing); Str.AInt (CA.ID existing)])))
      | Err _ =>
          key <-! supplied_key (ii_KeyPEM in_) (info_KeyType info) cert ;;
          let '(keyEnc, keyType) := key in
          parent <-! linkIssuer cert chainPEM (ii_Actor in_) ;;
          let name := import_name in_ cert in
          unique <- uniqueName name ;;
          slug <- CaService.uniqueSlug name ;;
          saved <-! Store.CreateCA (imported_record unique slug keyType keyEnc (ii_Actor in_) parent info cert) ;;
          if ii_MakeDefault in_ && str_is keyEnc ""
          then Ret (Err (Errorf "a trust anchor has no private key and cannot be the default issuer"))
          else
            _ <-! (if ii_MakeDefault in_ then Store.SetDefaultCA (CA.ID saved) else Ret (Ok tt)) ;;
            let saved := if ii_MakeDefault in_ then CA.set_IsDefault true saved else saved in
            audit (ii_Actor in_) "ca.import" (CA.Name saved)
              (Str.Sprintf "%s serial=%s issuer=%q"
                 [Str.AStr (if nonempty keyEnc then "issuing CA" else "trust anchor"); Str.AStr (CA.SerialHex saved);
                  Str.AStr (info_Issuer info)]) ;;;
            Ret (Ok saved)
      end
  end.

(** Does the chain of an authority end in a root goca holds? *)
Definition ChainComplete (c : CA.t) : prog world bool :=
  chain <- CaService.CAChain c ;;
  Ret (match chain with
       | Ok chain => match last chain with Some root => IsSelfSigned root | None => false end
       | Err _ => false
       end).
End service.

End CaImport.
