(* ===== verification/CaTools.v ===== *)
(** * What is made of certificates without storing anything
    (internal/ca/service.go, internal/pki/inspect.go)

    Requests generated for signing elsewhere, PKCS#12 bundles and descriptions.
    They read the store at most. *)

From S2P Require Import Prelude GoStrings Effects Models Schema Store Pki Sealing CaService CaImport.

Module CaTools.

Open Scope prog_scope.

(** software.sslmate.com/src/go-pkcs12, with the draw of its salt. *)
Class Pkcs12 `{Pki.Std} := {
  pkcs12_Encode : nat -> Pki.PrivateKey -> Pki.Cert Pki.PublicKey -> list (Pki.Cert Pki.PublicKey) -> string -> result error string }.

Record GenerateCSRInput := mkGenerateCSR { gi_Subject : Pki.Subject; gi_SANs : list string; gi_KeyType : string }.
Record GenerateCSRResult := mkGeneratedCSR {
  gr_CSRPEM : string; gr_PrivateKeyPEM : string; gr_KeyType : string; gr_Info : PkiImport.CSRInfo }.

Section service.
Context `{Std : Pki.Std} `{Ciphers} `{!Pkcs12} `{RowOrder}.
Context (cfg : CaService.Config) (master : string).

Definition GenerateCSR (in_ : GenerateCSRInput) : M GenerateCSRResult :=
  match Pki.Validate (gi_Subject in_) with
  | Err e => Ret (Err e)
  | Ok _ =>
  match Pki.ParseKeyType (CaService.firstNonEmpty [gi_KeyType in_; CaService.DefaultKeyType cfg]) with
  | Err e => Ret (Err e)
  | Ok kt =>
  match Pki.ParseSANs (gi_SANs in_) with
  | Err e => Ret (Err e)
  | Ok sans =>
      gen <-! Pki.GenerateCSR (gi_Subject in_) sans kt ;;
      let '(csrPEM, keyPEM, kt) := gen in
      Ret (match Pki.ParseCSR csrPEM with
           | Err e => Err e
           | Ok parsed => Ok (mkGeneratedCSR csrPEM keyPEM kt (PkiImport.DescribeCSR parsed))
           end)
  end
  end
  end.

Definition CAKey (c : CA.t) : result error Pki.PrivateKey := CaService.decryptKey master (CA.KeyEnc c).

(** No key is the nil interface of the code. *)
Definition BuildPKCS12 (key : option Pki.PrivateKey) (leaf : Pki.Cert Pki.PublicKey)
    (chain : list (Pki.Cert Pki.PublicKey)) (password : string) : M string :=
  match key with
  | None => Ret (Err (Errorf "a private key is required to build a PKCS#12 bundle"))
  | Some key => Pki.draw (fun n => pkcs12_Encode n key leaf chain password)
  end.

Definition CertBundleP12 (c : Certificate.t) (password : string) : M string :=
  match CaService.CertKeyPEM master c with
  | Err e => Ret (Err e)
  | Ok keyPEM =>
  match Pki.ParsePrivateKeyPEM keyPEM with
  | Err e => Ret (Err e)
  | Ok key =>
  match Pki.ParseCertPEM (Certificate.CertPEM c) with
  | Err e => Ret (Err e)
  | Ok leaf =>
      caRec <-! Store.GetCA (Certificate.CAID c) ;;
      chain <-! CaService.CAChain caRec ;;
      BuildPKCS12 (Some key) leaf chain password
  end
  end
  end.

Definition Describe (c : Certificate.t) : M PkiImport.CertInfo :=
  match Pki.ParseCertPEM (Certificate.CertPEM c) with
  | Err e => Ret (Err e)
  | Ok cert => info <- PkiImport.Describe cert ;; Ret (Ok info)
  end.
End service.
End CaTools.
