(* ===== verification/Downloads.v ===== *)
(** * What the server answers, and the files it hands out
    (internal/web/download.go, api.go, render.go)

    [reply] is what a handler of the portal or of the REST API writes: a JSON
    body, an error, a page, a redirect with its flash message, a file or an
    archive of files.  The module Downloads has the artefacts of authorities
    and certificates, shared by portal and API, and the two anonymous
    distribution endpoints. *)

From S2P Require Import Prelude GoStrings Effects Models Schema Store Pki Sealing CaService CaLifecycle CaImport CaTools.

(** ** Answers *)

Module Http.

(** The JSON view of an authority: the row, its certificate's description and
    the fields computed from what the row does not serialise. *)
Record ca_view := mkCaView {
  cv_CA : CA.t; cv_Info : option PkiImport.CertInfo; cv_HasKey : bool; cv_CanIssue : bool;
  cv_Kind : string; cv_Origin : string; cv_Expired : bool; cv_DaysLeft : Z }.

Record cert_view := mkCertView { xv_Certificate : Certificate.t; xv_Info : option PkiImport.CertInfo }.

(** A secret with the fields computed from what its row does not serialise. *)
Record secret_view := mkSecretView { zv_Secret : Secret.t; zv_Labels : gmap string string; zv_RotationDue : bool }.

(** The bodies of the REST API. *)
Inductive json :=
| JMe (u : User.t) (token : option APIToken.t) (role account_role : string)
| JStats (s : Store.StatsRow)
| JCAs (l : list ca_view)
| JPending (l : list (ca_view * string))
| JCA (v : ca_view)
| JImported (v : ca_view) (chain_complete : bool)
| JRequested (r : CaImport.SubordinateCSRResult)
| JCRL (pem : string)
| JCSR (pem name : string)
| JRetired (r : CaLifecycle.RevokeCAResult)
| JCerts (l : list Certificate.t) (total limit offset : Z)
| JCert (v : cert_view)
| JIssued (c : Certificate.t) (private_key csr chain : string)
| JRenewed (c previous : Certificate.t) (private_key chain : string) (revoked_old : bool)
| JRotated (l : list CaLifecycle.RenewResult) (errors : list error)
| JHistory (l : list Certificate.t) (current : Z)
| JRevoked (reason : Z)
| JHeld (serial : string) (status : string)
| JBulk (r : CaLifecycle.BulkRevokeResult) (reason : Z)
| JGenerated (r : CaTools.GenerateCSRResult)
| JInspectedCSR (i : PkiImport.CSRInfo)
| JInspectedCert (i : PkiImport.CertInfo)
| JTokens (l : list APIToken.t)
| JToken (plaintext : string) (rec : APIToken.t)
| JUsers (l : list User.t)
| JUser (u : User.t)
| JAudit (l : list AuditEntry.t) (next_cursor : string)
| JStatus (s : string)
| JSecrets (l : list secret_view)
| JSecret (v : secret_view)
| JDisabled (disabled : bool)
| JMaterialized (v : secret_view) (version : string) (files : list (string * string))
| JVersions (l : list SecretVersion.t)
| JVersion (v : SecretVersion.t)
| JVersionValue (v : secret_view) (version : Z) (value_base64 : string)
| JBindings (l : list SecretBinding.t)
| JBinding (b : SecretBinding.t).

(** The pages of the portal the handlers of pages.go and pages_secrets.go
    render. *)
Inductive page :=
| PDashboard (s : Store.StatsRow) (cas : list CA.t) (recent expiring : list Certificate.t)
| PCAs (cas : list CA.t) (counts : list (Z * Z)) (pending : list CA.t)
| PCANew (cas : list CA.t) (error : string)
| PCAImport (pending : list CA.t) (error : string)
| PCA (c : CA.t) (info : option PkiImport.CertInfo) (certs : list Certificate.t) (issued revoked : Z)
      (parent : option CA.t) (can_issue : bool) (blocked : string) (chain_complete : bool)
| PCerts (l : list Certificate.t) (total : Z) (cas : list CA.t) (page pages : Z)
| PCertNew (cas : list CA.t) (ca : string) (error : string)
| PCert (c : Certificate.t) (info : PkiImport.CertInfo) (history : list Certificate.t) (renew_days : Z) (key_once : string)
| PCSRTool (error : string) (result : option CaTools.GenerateCSRResult)
| PSettings (tokens : list APIToken.t) (users : list User.t) (new_token : string)
| PAudit (l : list AuditEntry.t)
| PSecrets (l : list Secret.t) (certs : list Certificate.t) (filter_type : string) (csi_enabled : bool)
| PSecret (s : Secret.t) (labels : gmap string string) (labels_form : string) (bindings : list SecretBinding.t)
          (cert : option Certificate.t) (versions : list SecretVersion.t) (download : string).

Inductive reply :=
| Json (status : Z) (body : json)
| Failed (status : Z) (msg : string)                  (* a JSON error *)
| HttpError (status : Z) (msg : string)               (* http.Error *)
| ErrorPage (status : Z) (title detail : string)      (* renderError *)
| Rendered (p : page)
| Redirect (flash : option (string * string)) (to : string)
| Flashed (kind text : string) (a : reply)             (* with a message for the next page *)
| File (name content_type data : string)
| Zip (name : string) (entries : list (string * string))
| Inline (content_type name data : string)            (* the anonymous endpoints *)
| NoAnswer.                                           (* the handler has not returned *)

(** renderAPIError *)
Definition api_failure (e : error) : reply :=
  if is_not_found e then Failed 404 "not found" else Failed 400 (Error e).

(** badRequestFrom *)
Definition badRequestFrom (e : error) : reply :=
  if errors_Is e "subordinate CA not allowed" then Failed 403 (Error e) else Failed 400 (Error e).

End Http.

(** ** Files *)

Module Downloads.
Import Http.

Open Scope prog_scope.

Definition newline : string := CaService.newline.

(** writeZip leaves empty entries out. *)
Definition writeZip (name : string) (entries : list (string * string)) : reply :=
  Zip name (List.filter (fun e => nonempty (snd e)) entries).

(** unsafeFileChars.ReplaceAllString(s, "_") *)
Definition safe_char (c : ascii) : bool := Str.is_upper c || Str.is_lower c || Str.is_digit c || Str.mem_char c "._-".
Fixpoint unsafe_runs (s : string) (in_run : bool) : string :=
  match s with
  | EmptyString => EmptyString
  | String c s' =>
      if safe_char c then String c (unsafe_runs s' false)
      else if in_run then unsafe_runs s' true else String "_" (unsafe_runs s' true)
  end.

Definition safeFileName (s : string) : string :=
  let s := Str.Trim (unsafe_runs (Str.TrimSpace s) false) "._-" in
  let s := if str_is s "" then "certificate"%string else s in
  if (64 <? String.length s)%nat then take_s 64 s else s.

(** The PKCS#12 password: the header, the posted form, the query. *)
Definition bundlePassword (header form query : string) : string :=
  if nonempty header then header else if nonempty form then form else query.

(** publicSlug: the last dot, unless it comes first. *)
Fixpoint last_dot (s : string) : option nat :=
  match s with
  | EmptyString => None
  | String c s' =>
      match last_dot s' with
      | Some i => Some (S i)
      | None => if Ascii.eqb c "." then Some 0 else None
      end
  end.
Definition publicSlug (file : string) : string * string :=
  match last_dot file with
  | Some (S i) => (take_s (S i) file, Str.ToLower (drop_s (S (S i)) file))
  | _ => (file, EmptyString)
  end.

Definition is_file (file : string) (names : list string) : bool := existsb (str_is file) names.

Section downloads.
Context `{Std : Pki.Std} `{Ciphers} `{!CaTools.Pkcs12} `{RowOrder}.
Context (cfg : CaService.Config) (master : string).
Context (sink : string -> string -> string -> string -> string -> prog world unit).

#[local] Notation auditIP := (CaService.AuditWithIP sink).

Definition derFromPEM (pem : string) : string :=
  match Pki.pem_Decode pem with Some b => Pki.pem_Bytes b | None => EmptyString end.

Definition lines (l : list string) : string := CaService.concat_strings (map (fun s => (s +:+ newline)%go) l).

Definition caReadme (c : CA.t) : string :=
  let f s := Str.Sprintf s [Str.AStr (CA.Slug c)] in
  let live s := Str.Sprintf s [Str.AStr (CaService.BaseURL cfg); Str.AStr (CA.Slug c)] in
  lines
    ([CA.Name c; repeat_char (String.length (CA.Name c)) "="; EmptyString;
      "Subject      : " +:+ CA.Subject c; "Serial       : " +:+ CA.SerialHex c; "Key type     : " +:+ CA.KeyType c;
      "Valid        : " +:+ Pki.format_date (CA.NotBefore c) +:+ " to " +:+ Pki.format_date (CA.NotAfter c);
      "SHA-256      : " +:+ CA.Fingerprint c; EmptyString; "Files"; "-----";
      f "  %s.crt        CA certificate (PEM)"; f "  %s-chain.pem  CA certificate plus its issuers";
      f "  %s.crl.pem    Current certificate revocation list";
      f "  %s.key        CA private key (present only for administrators)"; EmptyString]%go
     ++ (if nonempty (CaService.BaseURL cfg)
         then ["Live distribution URLs"; "----------------------"; live "  %s/public/ca/%s.crt";
               live "  %s/public/crl/%s.crl"; EmptyString]%string else [])
     ++ ["Trusting this CA on Linux"; "-------------------------";
         f "  sudo cp %s.crt /usr/local/share/ca-certificates/"; "  sudo update-ca-certificates"]%string).

Definition is_ca_key (file : string) : bool := is_file file ["ca.key"; "key.pem"]%string.

(** [None] for an unknown file name. *)
Definition serveCADownload (c : CA.t) (file : string) (isAdmin : bool) (actor ip : string) : prog world (option reply) :=
  let base := CA.Slug c in
  let pem := "application/x-pem-file"%string in
  let oops e := Some (HttpError 500 (Error e)) in
  if is_file file ["ca.crt"; "ca.pem"; "cert.pem"; "certificate.pem"]%string then
    Ret (Some (File (base +:+ ".crt")%go pem (CA.CertPEM c)))
  else if is_file file ["ca.der"; "cert.der"]%string then
    Ret (Some (File (base +:+ ".der")%go "application/pkix-cert" (derFromPEM (CA.CertPEM c))))
  else if is_file file ["chain.pem"; "ca-chain.pem"]%string then
    chain <- CaService.CAChainPEM c ;;
    Ret (match chain with Err e => oops e | Ok chain => Some (File (base +:+ "-chain.pem")%go pem chain) end)
  else if is_ca_key file then
    if negb isAdmin then
      Ret (Some (ErrorPage 403 "Administrator access required" "Only administrators may download a CA private key."))
    else match CaService.CAKeyPEM master c with
    | Err e => Ret (oops e)
    | Ok key => auditIP actor "ca.key_download" (CA.Name c) "" ip ;;; Ret (Some (File (base +:+ ".key")%go pem key))
    end
  else if is_file file ["crl.pem"; "crl.crl"; "crl.der"]%string then
    crl <- CaService.GenerateCRL cfg master sink (CA.ID c) actor ;;
    Ret (match crl with
         | Err e => Some (HttpError 500 ("CRL generation failed: " +:+ Error e)%go)
         | Ok (_, der, pemBytes) =>
             if str_is file "crl.pem" then Some (File (base +:+ ".crl.pem")%go pem pemBytes)
             else Some (File (base +:+ ".crl")%go "application/pkix-crl" der)
         end)
  else if is_file file ["request.csr"; "csr.pem"]%string then
    Ret (Some (if str_is (CA.CSRPEM c) ""
               then ErrorPage 404 "No signing request stored" "This authority was not created from a request goca generated."
               else File (base +:+ ".csr")%go "application/pkcs10" (CA.CSRPEM c)))
  else if str_is file "bundle.zip" then
    chain <- CaService.CAChainPEM c ;;
    crl <- CaService.GenerateCRL cfg master sink (CA.ID c) actor ;;
    let entries :=
      [((base +:+ ".crt")%go, CA.CertPEM c);
       ((base +:+ "-chain.pem")%go, match chain with Ok chain => chain | Err _ => EmptyString end);
       ((base +:+ ".crl.pem")%go, match crl with Ok (_, _, pemBytes) => pemBytes | Err _ => EmptyString end);
       ("README.txt"%string, caReadme c)] in
    if isAdmin then
      let key := match CaService.CAKeyPEM master c with Ok key => [((base +:+ ".key")%go, key)] | Err _ => [] end in
      auditIP actor "ca.key_download" (CA.Name c) "in bundle.zip" ip ;;;
      Ret (Some (writeZip (base +:+ "-bundle.zip")%go (entries ++ key)))
    else Ret (Some (writeZip (base +:+ "-bundle.zip")%go entries))
  else Ret None.

(** ** Certificates *)

Definition certReadme (c : Certificate.t) : string :=
  let base := safeFileName (Certificate.CommonName c) in
  let f s := Str.Sprintf s [Str.AStr base] in
  lines
    [Certificate.CommonName c; repeat_char (String.length (Certificate.CommonName c)) "="; EmptyString;
     "Subject     : " +:+ Certificate.Subject c; "SANs        : " +:+ Str.Join (Certificate.SANs_ c) ", ";
     "Serial      : " +:+ Certificate.SerialHex c; "Issuer      : " +:+ Certificate.CAName c;
     "Profile     : " +:+ Certificate.Profile c; "Key type    : " +:+ Certificate.KeyType c;
     "Valid       : " +:+ Pki.format_date (Certificate.NotBefore c) +:+ " to " +:+ Pki.format_date (Certificate.NotAfter c);
     "SHA-256     : " +:+ Certificate.Fingerprint c; EmptyString; "Files"; "-----";
     f "  %s.crt            leaf certificate"; f "  %s.key            private key (only if goca stored it)";
     f "  %s-chain.pem      issuing CA chain"; f "  %s-fullchain.pem  leaf + chain, for nginx/haproxy"; EmptyString;
     "nginx"; "-----"; f "  ssl_certificate     %s-fullchain.pem;"; f "  ssl_certificate_key %s.key;"; EmptyString;
     "Verify"; "------"; Str.Sprintf "  openssl verify -CAfile %s-chain.pem %s.crt" [Str.AStr base; Str.AStr base]]%go.

(** The chain of the issuing authority, for the archive. *)
Definition archived_chain (c : Certificate.t) : prog world string :=
  ca <- Store.GetCA (Certificate.CAID c) ;;
  match ca with
  | Err _ => Ret EmptyString
  | Ok ca => chain <- CaService.CAChainPEM ca ;; Ret (match chain with Ok chain => chain | Err _ => EmptyString end)
  end.

(** [password] is [bundlePassword] of the request. *)
Definition serveCertDownload (c : Certificate.t) (file password actor ip : string) : prog world (option reply) :=
  let base := safeFileName (Certificate.CommonName c) in
  let pem := "application/x-pem-file"%string in
  let oops e := Some (HttpError 500 (Error e)) in
  if is_file file ["cert.pem"; "cert.crt"; "certificate.pem"]%string then
    Ret (Some (File (base +:+ (if str_is file "cert.crt" then ".crt" else ".pem"))%go pem (Certificate.CertPEM c)))
  else if str_is file "cert.der" then
    Ret (Some (File (base +:+ ".der")%go "application/pkix-cert" (derFromPEM (Certificate.CertPEM c))))
  else if is_file file ["key.pem"; "key"]%string then
    match CaService.CertKeyPEM master c with
    | Err e => Ret (Some (ErrorPage 404 "No stored private key" (Error e)))
    | Ok key =>
        auditIP actor "cert.key_download" (Certificate.CommonName c) ("serial=" +:+ Certificate.SerialHex c)%go ip ;;;
        Ret (Some (File (base +:+ ".key")%go pem key))
    end
  else if str_is file "chain.pem" then
    ca <- Store.GetCA (Certificate.CAID c) ;;
    match ca with
    | Err e => Ret (oops e)
    | Ok ca =>
        chain <- CaService.CAChainPEM ca ;;
        Ret (match chain with Err e => oops e | Ok chain => Some (File (base +:+ "-chain.pem")%go pem chain) end)
    end
  else if str_is file "fullchain.pem" then
    full <- CaService.CertChainPEM c ;;
    Ret (match full with Err e => oops e | Ok full => Some (File (base +:+ "-fullchain.pem")%go pem full) end)
  else if is_file file ["request.csr"; "csr.pem"]%string then
    Ret (Some (if str_is (Certificate.CSRPEM c) ""
               then ErrorPage 404 "No CSR stored" "This certificate has no stored signing request."
               else File (base +:+ ".csr")%go "application/pkcs10" (Certificate.CSRPEM c)))
  else if is_file file ["bundle.p12"; "bundle.pfx"]%string then
    p12 <- CaTools.CertBundleP12 master c password ;;
    match p12 with
    | Err e => Ret (Some (ErrorPage 400 "Cannot build PKCS#12 bundle" (Error e)))
    | Ok p12 =>
        auditIP actor "cert.key_download" (Certificate.CommonName c) ("pkcs12 serial=" +:+ Certificate.SerialHex c)%go ip ;;;
        Ret (Some (File (base +:+ ".p12")%go "application/x-pkcs12" p12))
    end
  else if str_is file "bundle.zip" then
    full <- CaService.CertChainPEM c ;;
    chain <- archived_chain c ;;
    let entries :=
      [((base +:+ ".crt")%go, Certificate.CertPEM c); ((base +:+ "-chain.pem")%go, chain);
       ((base +:+ "-fullchain.pem")%go, match full with Ok full => full | Err _ => EmptyString end)]
      ++ (if nonempty (Certificate.CSRPEM c) then [((base +:+ ".csr")%go, Certificate.CSRPEM c)] else []) in
    let readme := [("README.txt"%string, certReadme c)] in
    match CaService.CertKeyPEM master c with
    | Err _ => Ret (Some (writeZip (base +:+ "-bundle.zip")%go (entries ++ readme)))
    | Ok key =>
        auditIP actor "cert.key_download" (Certificate.CommonName c) ("in bundle.zip serial=" +:+ Certificate.SerialHex c)%go ip ;;;
        Ret (Some (writeZip (base +:+ "-bundle.zip")%go (entries ++ [((base +:+ ".key")%go, key)] ++ readme)))
    end
  else Ret None.

(** ** Anonymous distribution *)

Definition handlePublicCACert (file : string) : prog world reply :=
  let '(slug, ext) := publicSlug file in
  c <- Store.GetCABySlug slug ;;
  Ret (match c with
       | Err _ => HttpError 404 "no such certificate authority"
       | Ok c =>
           if is_file ext ["der"; "cer"]%string
           then Inline "application/pkix-cert" (CA.Slug c +:+ ".der")%go (derFromPEM (CA.CertPEM c))
           else Inline "application/x-pem-file" (CA.Slug c +:+ ".crt")%go (CA.CertPEM c)
       end).

Definition handlePublicCRL (file : string) : prog world reply :=
  let '(slug, ext) := publicSlug file in
  c <- Store.GetCABySlug slug ;;
  match c with
  | Err _ => Ret (HttpError 404 "no such certificate authority")
  | Ok c =>
      crl <- CaService.GenerateCRL cfg master sink (CA.ID c) "public" ;;
      Ret (match crl with
           | Err _ => HttpError 500 "CRL generation failed"
           | Ok (_, der, pemBytes) =>
               if str_is ext "pem" then Inline "application/x-pem-file" (CA.Slug c +:+ ".crl.pem")%go pemBytes
               else Inline "application/pkix-crl" (CA.Slug c +:+ ".crl")%go der
           end)
  end.

(** describeOrNil *)
Definition describeOrNil (pem : string) : prog world (option PkiImport.CertInfo) :=
  match Pki.ParseCertPEM pem with
  | Err _ => Ret None
  | Ok cert => info <- PkiImport.Describe cert ;; Ret (Some info)
  end.

(** newCAResponse, at the times its methods read. *)
Definition newCAResponse (c : CA.t) (info : option PkiImport.CertInfo) : prog world ca_view :=
  t1 <- time_Now ;; t2 <- time_Now ;; t3 <- time_Now ;;
  Ret (mkCaView c info (CA_HasKey c) (CA_CanIssue t1 c) (CA_Kind c) (CA_Origin c) (CA_Expired t2 c)
         (CaLifecycle.whole_days (CA.NotAfter c) t3)).

Definition described (c : CA.t) : prog world ca_view :=
  info <- describeOrNil (CA.CertPEM c) ;; newCAResponse c info.
End downloads.
End Downloads.
