(* ===== verification/SecretStore.v ===== *)
(** * The store: secrets, their versions and bindings, trust domains
    (internal/store/secrets.go, internal/store/k8sauth.go)

    [SecretStore] is the tables of the secret manager; [K8sStore] the named
    Kubernetes trust domains.  A version is written in one transaction that
    reserves its number, has the payload sealed for that number and inserts
    it. *)

From S2P Require Import Prelude GoStrings Effects Models Schema Store.

Module SecretStore.

Open Scope prog_scope.

Definition secret_id (id : Z) (s : Secret.t) : bool := (Secret.ID s =? id)%Z.

(** ** Secrets *)

Definition GetSecret (id : Z) : M Secret.t := query_row (select1 Secrets (secret_id id)).
Definition GetSecretByName (name : string) : M Secret.t :=
  query_row (select1 Secrets (fun s => str_is (Secret.Name s) name)).

Definition secret_row (s : Secret.t) (created updated id : Z) : Secret.t :=
  Secret.mk id (Secret.Name s) (nz (Secret.Type_ s) SecretTypeKV) (Secret.Description s)
    (nz (Secret.LabelsJSON s) "{}") (Secret.CertID s) (Secret.CurrentVersion s) (Secret.RotationDays s)
    (Secret.Disabled s) (Secret.CreatedBy s) created updated.

Definition CreateSecret (s : Secret.t) : M Secret.t :=
  created <- Store.zero_or_now (Secret.CreatedAt s) ;;
  let updated := if (Secret.UpdatedAt s =? 0)%Z then created else Secret.UpdatedAt s in
  id <-! sql (insert Secrets (secret_row s created updated)) ;;
  GetSecret id.

Definition ListSecrets (typ : string) : M (list Secret.t) :=
  query (fun d => order_by (fun a b => Store.str_le (Secret.Name a) (Secret.Name b))
    (select Secrets (fun s => str_is typ "" || str_is (Secret.Type_ s) typ) d)).

Definition UpdateSecretMeta (id : Z) (description labelsJSON : string) (rotationDays : Z) : M unit :=
  now <- time_Now ;;
  exec_found (update Secrets (secret_id id) (Secret.set_Meta description (nz labelsJSON "{}") rotationDays now)).

Definition SetSecretDisabled (id : Z) (disabled : bool) : M unit :=
  exec_found (update Secrets (secret_id id) (Secret.set_Disabled disabled)).

Definition DeleteSecret (id : Z) : M unit := exec_found (delete Secrets (secret_id id)).

(** ** Versions *)

Record SealedVersion := mkSealed { PayloadEnc : string; PayloadSHA256 : string; SizeBytes : Z }.

(** What seals a payload for one secret and version: it gets the next draw of
    the random source and says how many it took. *)
Definition SealFunc : Type := nat -> Z -> Z -> result error SealedVersion * nat.

Definition version_of (secretID version : Z) (v : SecretVersion.t) : bool :=
  (SecretVersion.SecretID v =? secretID)%Z && (SecretVersion.Version v =? version)%Z.

Definition GetSecretVersion (secretID version : Z) : M SecretVersion.t :=
  query_row (select1 SecretVersions (version_of secretID version)).

(** The next version number is reserved, taken. *)
Definition reserve (now secretID : Z) (d : db) : option Z * db :=
  let d1 := snd (update Secrets (secret_id secretID)
                   (fun s => Secret.set_UpdatedAt now (Secret.set_CurrentVersion (Secret.CurrentVersion s + 1) s)) d) in
  (option_map Secret.CurrentVersion (select1 Secrets (secret_id secretID) d1), d1).

Definition version_row (secretID next : Z) (v : SealedVersion) (contentType createdBy : string) (now id : Z) : SecretVersion.t :=
  SecretVersion.mk id secretID next (PayloadEnc v) (PayloadSHA256 v) (SizeBytes v) contentType false createdBy now.

Definition write_version (now secretID : Z) (contentType createdBy : string) (seal : SealFunc) (w : world)
    : result error (Z * db) * nat :=
  let '(next, d1) := reserve now secretID (w_db w) in
  match next with
  | None => (Err ErrNotFound, 0)
  | Some next =>
      let '(sealed, n) := seal (w_draws w) secretID next in
      (match sealed with
       | Err e => Err e
       | Ok v => Ok (next, snd (insert SecretVersions (version_row secretID next v contentType createdBy now) d1))
       end, n)
  end.

Definition CreateSecretVersion (secretID : Z) (contentType createdBy : string) (seal : SealFunc) : M SecretVersion.t :=
  now <- time_Now ;;
  next <-! tx (write_version now secretID contentType createdBy seal) ;;
  GetSecretVersion secretID next.

Definition newest (a b : SecretVersion.t) : bool := (SecretVersion.Version b <=? SecretVersion.Version a)%Z.

Definition GetLatestSecretVersion (secretID : Z) : M SecretVersion.t :=
  query_row (fun d => head (order_by newest (select SecretVersions
    (fun v => (SecretVersion.SecretID v =? secretID)%Z && negb (SecretVersion.Destroyed v)) d))).

Definition ListSecretVersions (secretID : Z) : M (list SecretVersion.t) :=
  query (fun d => order_by newest (select SecretVersions (fun v => (SecretVersion.SecretID v =? secretID)%Z) d)).

Definition DestroySecretVersion (id : Z) : M unit :=
  exec_found (update SecretVersions (fun v => SecretVersion.ID v =? id)%Z
                (fun v => SecretVersion.set_PayloadEnc "" (SecretVersion.set_Destroyed true v))).

(** ** Bindings, with the joined name of their secret *)

Definition scanSecretBinding (d : db) (b : SecretBinding.t) : SecretBinding.t :=
  SecretBinding.set_SecretName
    (match select1 Secrets (secret_id (SecretBinding.SecretID b)) d with Some s => Secret.Name s | None => ""%string end) b.

Definition binding_row (b : SecretBinding.t) (created id : Z) : SecretBinding.t :=
  SecretBinding.mk id (SecretBinding.SecretID b) "" (nz (SecretBinding.K8sNamespace b) "*")
    (nz (SecretBinding.K8sServiceAccount b) "*") (nz (SecretBinding.K8sAuthMethod_ b) "*")
    (SecretBinding.ExpiresAt b) (SecretBinding.CreatedBy b) created.

Definition CreateSecretBinding (b : SecretBinding.t) : M SecretBinding.t :=
  created <- Store.zero_or_now (SecretBinding.CreatedAt b) ;;
  id <-! sql (insert SecretBindings (binding_row b created)) ;;
  r <-! query (fun d => option_map (scanSecretBinding d) (select1 SecretBindings (fun b => SecretBinding.ID b =? id)%Z d)) ;;
  Ret (match r with Some b => Ok b | None => Err (Sentinel "sql: no rows in result set") end).

Definition oldest_binding (a b : SecretBinding.t) : bool := (SecretBinding.ID a <=? SecretBinding.ID b)%Z.

Definition ListSecretBindings (secretID : Z) : M (list SecretBinding.t) :=
  query (fun d => map (scanSecretBinding d) (order_by oldest_binding
    (select SecretBindings (fun b => SecretBinding.SecretID b =? secretID)%Z d))).

Definition ListAllSecretBindings : M (list SecretBinding.t) :=
  query (fun d => map (scanSecretBinding d) (order_by oldest_binding (rows (d SecretBindings)))).

Definition DeleteSecretBinding (id : Z) : M unit :=
  exec_found (delete SecretBindings (fun b => SecretBinding.ID b =? id)%Z).

End SecretStore.

(** ** Trust domains *)

Module K8sStore.

Open Scope prog_scope.

Definition method_id (id : Z) (m : K8sAuthMethod.t) : bool := (K8sAuthMethod.ID m =? id)%Z.

Definition GetK8sAuthMethod (id : Z) : M K8sAuthMethod.t := query_row (select1 K8sAuthMethods (method_id id)).
Definition GetK8sAuthMethodByName (name : string) : M K8sAuthMethod.t :=
  query_row (select1 K8sAuthMethods (fun m => str_is (K8sAuthMethod.Name m) name)).

Definition method_row (m : K8sAuthMethod.t) (created now id : Z) : K8sAuthMethod.t :=
  K8sAuthMethod.mk id (K8sAuthMethod.Name m) (nz (K8sAuthMethod.Audience m) "goca-csi") (K8sAuthMethod.IssuerURL m)
    (K8sAuthMethod.APIServerURL m) (K8sAuthMethod.CACert m) (K8sAuthMethod.ReviewerTokenEnc m)
    (K8sAuthMethod.InsecureSkipVerify m) (K8sAuthMethod.Disabled m) (K8sAuthMethod.CreatedBy m) created now.

Definition CreateK8sAuthMethod (m : K8sAuthMethod.t) : M K8sAuthMethod.t :=
  now <- time_Now ;;
  let created := if (K8sAuthMethod.CreatedAt m =? 0)%Z then now else K8sAuthMethod.CreatedAt m in
  id <-! sql (insert K8sAuthMethods (method_row m created now)) ;;
  GetK8sAuthMethod id.

Definition oldest_method (a b : K8sAuthMethod.t) : bool := (K8sAuthMethod.ID a <=? K8sAuthMethod.ID b)%Z.
Definition without_token (m : K8sAuthMethod.t) : K8sAuthMethod.t :=
  K8sAuthMethod.mk (K8sAuthMethod.ID m) (K8sAuthMethod.Name m) (K8sAuthMethod.Audience m) (K8sAuthMethod.IssuerURL m)
    (K8sAuthMethod.APIServerURL m) (K8sAuthMethod.CACert m) "" (K8sAuthMethod.InsecureSkipVerify m)
    (K8sAuthMethod.Disabled m) (K8sAuthMethod.CreatedBy m) (K8sAuthMethod.CreatedAt m) (K8sAuthMethod.UpdatedAt m).

Definition ListK8sAuthMethodsWithToken : M (list K8sAuthMethod.t) :=
  query (fun d => order_by oldest_method (rows (d K8sAuthMethods))).
Definition ListK8sAuthMethods : M (list K8sAuthMethod.t) :=
  query (fun d => map without_token (order_by oldest_method (rows (d K8sAuthMethods)))).

Definition updated_method (m : K8sAuthMethod.t) (token : string) (now : Z) (r : K8sAuthMethod.t) : K8sAuthMethod.t :=
  K8sAuthMethod.mk (K8sAuthMethod.ID r) (K8sAuthMethod.Name r) (nz (K8sAuthMethod.Audience m) "goca-csi")
    (K8sAuthMethod.IssuerURL m) (K8sAuthMethod.APIServerURL m) (K8sAuthMethod.CACert m) token
    (K8sAuthMethod.InsecureSkipVerify m) (K8sAuthMethod.Disabled m) (K8sAuthMethod.CreatedBy r)
    (K8sAuthMethod.CreatedAt r) now.

Definition UpdateK8sAuthMethod (m : K8sAuthMethod.t) : M K8sAuthMethod.t :=
  token <-! (if str_is (K8sAuthMethod.ReviewerTokenEnc m) "" then
               existing <-! GetK8sAuthMethod (K8sAuthMethod.ID m) ;; Ret (Ok (K8sAuthMethod.ReviewerTokenEnc existing))
             else Ret (Ok (K8sAuthMethod.ReviewerTokenEnc m))) ;;
  now <- time_Now ;;
  _ <-! exec_found (update K8sAuthMethods (method_id (K8sAuthMethod.ID m)) (updated_method m token now)) ;;
  GetK8sAuthMethod (K8sAuthMethod.ID m).

Definition SetK8sAuthMethodDisabled (id : Z) (disabled : bool) : M unit :=
  now <- time_Now ;;
  exec_found (update K8sAuthMethods (method_id id) (K8sAuthMethod.set_Disabled disabled now)).

Definition DeleteK8sAuthMethod (id : Z) : M unit := exec_found (delete K8sAuthMethods (method_id id)).

Definition CountSecretBindingsByAuthMethod (name : string) : M Z :=
  query (fun d => Z.of_nat (affected (fun b => str_is (SecretBinding.K8sAuthMethod_ b) name) (rows (d SecretBindings)))).

End K8sStore.
