(* ===== verification/Vault.v ===== *)
(** * The secret manager (internal/vault/service.go)

    Named secrets with sealed versions, certificate secrets that are read from
    their certificate, and bindings that let Kubernetes workloads fetch them.
    A payload is sealed for exactly one secret and version.  A panic of
    [Pqcrypt.Open] ends the request: no statement follows it. *)

From S2P Require Import Prelude GoStrings Glob Effects Models Schema Store Pki Sealing CaService SecretStore.

Module Vault.
Import SecretStore.

Open Scope prog_scope.

Definition aadPrefix : string := "goca/secret/v1".
Definition aad (secretID version : Z) : string :=
  Str.Sprintf "%s|%d|%d" [Str.AStr aadPrefix; Str.AInt secretID; Str.AInt version].

Record File := mkFile { file_Name : string; Data : string }.

Record CreateInput := mkCreate {
  in_Name : string; in_Type : string; in_Description : string; in_Labels : gmap string string;
  in_RotationDays : Z; in_CertID : option Z; in_Actor : string }.

Definition normalizeName (name : string) : string := Str.TrimSpace name.
Definition nzGlob (v : string) : string := let v := Str.TrimSpace v in if str_is v "" then "*"%string else v.

(** json.Marshal of a map writes its keys in order. *)
Definition EncodeLabels (labels : gmap string string) : string :=
  if bool_decide (labels = ∅) then "{}"%string
  else ("{" +:+ Str.Join (map (fun '(k, v) => (Store.json_string k +:+ ":" +:+ Store.json_string v)%go)
          (order_by (fun a b => Store.str_le (fst a) (fst b)) (map_to_list labels))) "," +:+ "}")%go.

(** [MatchesBinding]: a pattern that is malformed matches nothing. *)
Definition path_matches (pattern name : string) : bool :=
  match Glob.Match pattern name with Some b => b | None => false end.
Definition MatchesBinding (now : Z) (b : SecretBinding.t) (namespace serviceAccount authMethod : string) : bool :=
  SecretBinding_Usable now b &&
  path_matches (SecretBinding.K8sNamespace b) namespace &&
  path_matches (SecretBinding.K8sServiceAccount b) serviceAccount &&
  (str_is (SecretBinding.K8sAuthMethod_ b) "*" || path_matches (SecretBinding.K8sAuthMethod_ b) authMethod).

Section service.
Context `{Std : Pki.Std} `{Ciphers} `{RowOrder}.
Context (vault : Pqcrypt.Vault) (master : string).
(** Whether a CA service was handed to [New]. *)
Context (has_ca : bool).

Definition audit (actor action target detail : string) : prog world unit :=
  let actor := if str_is actor "" then "system"%string else actor in
  Store.Audit actor action target detail "" ;;; Ret tt.
Definition AuditWithIP (actor action target detail ip : string) : prog world unit :=
  Store.Audit actor action target detail ip ;;; Ret tt.

Definition no_ca : error := Errorf "certificate secrets are unavailable: no CA service is configured".
Definition disabled_error (s : Secret.t) : error := Errorf (Str.Sprintf "secret %q is disabled" [Str.AStr (Secret.Name s)]).

(** ** Secrets *)

(** The input is in order for its type. *)
Definition check_type (typ : string) (certID : option Z) : M unit :=
  if str_is typ SecretTypeKV || str_is typ SecretTypeFile then
    Ret (match certID with
         | Some _ => Err (Errorf (Str.Sprintf "cert_id is only valid for %s secrets" [Str.AStr SecretTypeCertificate]))
         | None => Ok tt
         end)
  else if str_is typ SecretTypeCertificate then
    match certID with
    | None => Ret (Err (Errorf "a certificate secret requires cert_id"))
    | Some id =>
        if negb has_ca then Ret (Err no_ca)
        else
          c <- Store.GetCertificate id ;;
          Ret (match c with
               | Err e => Err (Wrapf (Str.Sprintf "resolve certificate %d" [Str.AInt id]) e)
               | Ok _ => Ok tt
               end)
    end
  else Ret (Err (Errorf (Str.Sprintf "unknown secret type %q (want kv, file or certificate)" [Str.AStr typ]))).

Definition new_secret (in_ : CreateInput) (name typ : string) : Secret.t :=
  Secret.mk 0 name typ (in_Description in_) (EncodeLabels (in_Labels in_)) (in_CertID in_) 0 (in_RotationDays in_)
    false (in_Actor in_) 0 0.

Definition Create (in_ : CreateInput) : M Secret.t :=
  let name := normalizeName (in_Name in_) in
  if str_is name "" then Ret (Err (Errorf "a secret name is required"))
  else
    let typ := if str_is (in_Type in_) "" then SecretTypeKV else in_Type in_ in
    _ <-! check_type typ (in_CertID in_) ;;
    sec <-! CreateSecret (new_secret in_ name typ) ;;
    audit (in_Actor in_) "secret.create" name ("type=" +:+ typ)%go ;;;
    Ret (Ok sec).

Definition Get (name : string) : M Secret.t := GetSecretByName (normalizeName name).
Definition GetByID (id : Z) : M Secret.t := GetSecret id.
Definition List_ (typ : string) : M (list Secret.t) := ListSecrets typ.

Definition UpdateMeta (name description : string) (labels : gmap string string) (rotationDays : Z) (actor : string) : M Secret.t :=
  sec <-! GetSecretByName (normalizeName name) ;;
  _ <-! UpdateSecretMeta (Secret.ID sec) description (EncodeLabels labels) rotationDays ;;
  audit actor "secret.update" (Secret.Name sec) "" ;;;
  GetSecret (Secret.ID sec).

Definition SetDisabled (name : string) (disabled : bool) (actor : string) : M unit :=
  sec <-! GetSecretByName (normalizeName name) ;;
  _ <-! SetSecretDisabled (Secret.ID sec) disabled ;;
  audit actor (if disabled then "secret.disable" else "secret.enable")%string (Secret.Name sec) "" ;;;
  Ret (Ok tt).

Definition Delete (name actor : string) : M unit :=
  sec <-! GetSecretByName (normalizeName name) ;;
  _ <-! DeleteSecret (Secret.ID sec) ;;
  audit actor "secret.delete" (Secret.Name sec)
    (Str.Sprintf "type=%s versions=%d" [Str.AStr (Secret.Type_ sec); Str.AInt (Secret.CurrentVersion sec)]) ;;;
  Ret (Ok tt).

(** ** Payloads *)

(** [Pqcrypt.Seal] draws four times. *)
Definition seal_value (value : string) : SealFunc := fun draw secretID version =>
  (match Pqcrypt.Seal vault draw value (aad secretID version) with
   | Err e => Err (Wrapf "seal secret" e)
   | Ok env => Ok (mkSealed env (Str.ToLower (Pki.hex_bytes (Pki.sha256 value))) (Z.of_nat (String.length value)))
   end, 4).

Definition Put (name value contentType actor : string) : M SecretVersion.t :=
  sec <-! GetSecretByName (normalizeName name) ;;
  if str_is (Secret.Type_ sec) SecretTypeCertificate
  then Ret (Err (Errorf "certificate secrets are materialized from their linked certificate, not written directly"))
  else if Secret.Disabled sec then Ret (Err (disabled_error sec))
  else
    v <-! CreateSecretVersion (Secret.ID sec) contentType actor (seal_value value) ;;
    audit actor "secret.put" (Secret.Name sec)
      (Str.Sprintf "version=%d size=%d" [Str.AInt (SecretVersion.Version v); Str.AInt (Z.of_nat (String.length value))]) ;;;
    Ret (Ok v).

Definition resolveOpenable (name : string) : M Secret.t :=
  sec <-! GetSecretByName (normalizeName name) ;;
  Ret (if str_is (Secret.Type_ sec) SecretTypeCertificate
       then Err (Errorf (Str.Sprintf "%q is a certificate secret; use Materialize" [Str.AStr (Secret.Name sec)]))
       else if Secret.Disabled sec then Err (disabled_error sec) else Ok sec).

Definition panicked : error := Driver "panic: slice bounds out of range".
Definition open_ (sec : Secret.t) (v : SecretVersion.t) : result error string :=
  if SecretVersion.Destroyed v
  then Err (Errorf (Str.Sprintf "version %d of %q has been destroyed" [Str.AInt (SecretVersion.Version v); Str.AStr (Secret.Name sec)]))
  else match Pqcrypt.Open vault (SecretVersion.PayloadEnc v) (aad (Secret.ID sec) (SecretVersion.Version v)) with
  | Pqcrypt.Returns pt => Ok pt
  | Pqcrypt.Fails e => Err (Wrapf "open secret" e)
  | Pqcrypt.Panics => Err panicked
  end.

Definition GetLatest (name : string) : M (Secret.t * string) :=
  sec <-! resolveOpenable name ;;
  v <-! GetLatestSecretVersion (Secret.ID sec) ;;
  Ret (match open_ sec v with Ok pt => Ok (sec, pt) | Err e => Err e end).

Definition GetVersion (name : string) (version : Z) : M (Secret.t * string) :=
  sec <-! resolveOpenable name ;;
  v <-! GetSecretVersion (Secret.ID sec) version ;;
  Ret (match open_ sec v with Ok pt => Ok (sec, pt) | Err e => Err e end).

Definition Versions (name : string) : M (Secret.t * list SecretVersion.t) :=
  sec <-! GetSecretByName (normalizeName name) ;;
  vs <-! ListSecretVersions (Secret.ID sec) ;;
  Ret (Ok (sec, vs)).

Definition DestroyVersion (name : string) (version : Z) (actor : string) : M unit :=
  sec <-! GetSecretByName (normalizeName name) ;;
  v <-! GetSecretVersion (Secret.ID sec) version ;;
  _ <-! DestroySecretVersion (SecretVersion.ID v) ;;
  audit actor "secret.version_destroy" (Secret.Name sec) (Str.Sprintf "version=%d" [Str.AInt version]) ;;;
  Ret (Ok tt).

(** ** Materialization *)

Definition materializeCertificate (sec : Secret.t) : M (list File * string) :=
  if negb has_ca then Ret (Err no_ca)
  else match Secret.CertID sec with
  | None => Ret (Err (Errorf (Str.Sprintf "secret %q has no linked certificate" [Str.AStr (Secret.Name sec)])))
  | Some id =>
      let wrap {A} (m : string) (p : M A) : M A :=
        r <- p ;; Ret (match r with Err e => Err (Wrapf m e) | Ok a => Ok a end) in
      cert <-! wrap (Str.Sprintf "resolve certificate %d" [Str.AInt id]) (Store.GetCertificate id) ;;
      full <-! wrap "build full chain"%string (CaService.CertChainPEM cert) ;;
      key <-! wrap "decrypt private key"%string (Ret (CaService.CertKeyPEM master cert)) ;;
      caRec <-! wrap "resolve issuing CA"%string (Store.GetCA (Certificate.CAID cert)) ;;
      chain <-! wrap "build issuer chain"%string (CaService.CAChainPEM caRec) ;;
      Ret (Ok ([mkFile "tls.crt" full; mkFile "tls.key" key; mkFile "ca.crt" chain],
               ("cert:" +:+ Certificate.SerialHex cert)%go))
  end.

Definition materializeVersion (sec : Secret.t) : M (list File * string) :=
  v <-! GetLatestSecretVersion (Secret.ID sec) ;;
  Ret (match open_ sec v with
       | Err e => Err e
       | Ok pt =>
           let fname := Str.TrimSpace (SecretVersion.ContentType v) in
           Ok ([mkFile (if str_is fname "" then "value"%string else fname) pt], SecretVersion.PayloadSHA256 v)
       end).

Definition Materialize (name : string) : M (Secret.t * list File * string) :=
  sec <-! GetSecretByName (normalizeName name) ;;
  if Secret.Disabled sec then Ret (Err (disabled_error sec))
  else
    r <-! (if str_is (Secret.Type_ sec) SecretTypeCertificate then materializeCertificate sec else materializeVersion sec) ;;
    Ret (Ok (sec, fst r, snd r)).

(** ** Bindings *)

Definition bad_pattern (what p : string) : option error :=
  match Glob.Match p "probe" with
  | Some _ => None
  | None => Some (Wrapf (Str.Sprintf ("invalid " +:+ what +:+ " pattern %q")%go [Str.AStr p]) (Driver "syntax error in pattern"))
  end.

Definition Bind (name namespace serviceAccount authMethod : string) (expiresAt : option Z) (actor : string) : M SecretBinding.t :=
  sec <-! GetSecretByName (normalizeName name) ;;
  let ns := nzGlob namespace in
  let sa := nzGlob serviceAccount in
  let method := nzGlob authMethod in
  match bad_pattern "namespace" ns, bad_pattern "service account" sa, bad_pattern "auth method" method with
  | Some e, _, _ | None, Some e, _ | None, None, Some e => Ret (Err e)
  | None, None, None =>
      b <-! CreateSecretBinding (SecretBinding.mk 0 (Secret.ID sec) "" ns sa method expiresAt actor 0) ;;
      audit actor "secret.bind" (Secret.Name sec)
        (Str.Sprintf "namespace=%s sa=%s auth_method=%s" [Str.AStr ns; Str.AStr sa; Str.AStr method]) ;;;
      Ret (Ok b)
  end.

Definition Unbind (bindingID : Z) (actor : string) : M unit :=
  _ <-! DeleteSecretBinding bindingID ;;
  audit actor "secret.unbind" (Str.itoa bindingID) "" ;;;
  Ret (Ok tt).

Definition Bindings (name : string) : M (list SecretBinding.t) :=
  sec <-! GetSecretByName (normalizeName name) ;;
  ListSecretBindings (Secret.ID sec).

End service.
End Vault.
