(* ===== verification/K8s.v ===== *)
(** * Kubernetes workloads fetching secrets
    (internal/k8sauth, internal/web/api_vault_fetch.go, api_eso.go, api_csi_auth.go)

    [K8sAuth] verifies a ServiceAccount token for one trust domain: OIDC
    discovery and signature, or a TokenReview by the cluster, are parameters;
    what is made of their answer is the code's.  [Csi] keeps a cache of
    verifiers per process next to the shared database, authenticates a request
    under the trust domain it names, and hands out the secrets it is bound to. *)

From S2P Require Import Prelude GoStrings Glob Effects Models Schema Store Pki Sealing CaService SecretStore Vault.

Module K8sAuth.

Open Scope prog_scope.

Record Identity := mkIdentity {
  Namespace : string; ServiceAccount : string; PodName : string; PodUID : string; AuthMethod : string }.
Definition identity_string (id : Identity) : string :=
  Str.Sprintf "system:serviceaccount:%s:%s" [Str.AStr (Namespace id); Str.AStr (ServiceAccount id)].

Record Config := mkConfig {
  IssuerURL : string; Audience : string; InsecureSkipVerify : bool; APIServerURL : string; CACertPEM : string;
  ReviewerToken : string }.

(** A Verifier, and whether its issuer has been discovered: that happens when
    it is first needed and is tried again as long as it fails. *)
Record Verifier := mkVerifier { cfg : Config; discovered : bool }.

Definition tokenReviewConfigured (c : Config) : bool := nonempty (APIServerURL c) && nonempty (ReviewerToken c).

(** What a verified OIDC token claims, and what a TokenReview answers. *)
Record Claims := mkClaims { sub : string; k8s_namespace : string; k8s_serviceaccount : string; k8s_pod : string; k8s_pod_uid : string }.
Record Review := mkReview { authenticated : bool; review_error : string; username : string; extra_pod : list string; extra_uid : list string }.

(** The discovery of an issuer, which may be reachable now; go-oidc's check of
    signature, issuer, expiry and audience, and the decoding of the claims; the
    API server's answer to a TokenReview for an audience, or what went wrong
    with the exchange. *)
Class Cluster := {
  append_certs : string -> bool;
  oidc_discover : string -> bool -> prog world (result error unit);
  oidc_Verify : string -> string -> string -> prog world (result error (result error Claims));      (* issuer, audience, token *)
  token_review : Config -> string -> prog world (result error Review) }.

Definition parseServiceAccountSubject (s : string) : option (string * string) :=
  match Str.Split s ":" with
  | [p0; p1; ns; name] =>
      if str_is p0 "system" && str_is p1 "serviceaccount" && nonempty ns && nonempty name then Some (ns, name) else None
  | _ => None
  end.

Definition claims_identity (c : Claims) : result error Identity :=
  if nonempty (k8s_namespace c) && nonempty (k8s_serviceaccount c)
  then Ok (mkIdentity (k8s_namespace c) (k8s_serviceaccount c) (k8s_pod c) (k8s_pod_uid c) "")
  else match parseServiceAccountSubject (sub c) with
  | Some (ns, sa) => Ok (mkIdentity ns sa "" "" "")
  | None => Err (Errorf (Str.Sprintf "k8sauth: token has neither a kubernetes.io claim nor a recognizable ServiceAccount subject: %q" [Str.AStr (sub c)]))
  end.

Definition first_extra (l : list string) : string := match l with x :: _ => x | [] => ""%string end.

Definition review_identity (r : Review) : result error Identity :=
  if negb (authenticated r)
  then Err (Errorf ("k8sauth: " +:+ (if str_is (review_error r) "" then "token rejected" else review_error r))%go)
  else match parseServiceAccountSubject (username r) with
  | Some (ns, sa) => Ok (mkIdentity ns sa (first_extra (extra_pod r)) (first_extra (extra_uid r)) "")
  | None => Err (Errorf (Str.Sprintf "k8sauth: TokenReview authenticated a non-ServiceAccount identity %q" [Str.AStr (username r)]))
  end.

Section verify.
Context `{Cluster}.

Definition New (c : Config) : result error Verifier :=
  if str_is (Str.TrimSpace (Audience c)) "" then Err (Errorf "k8sauth: an audience is required")
  else if str_is (IssuerURL c) "" && negb (tokenReviewConfigured c)
  then Err (Errorf "k8sauth: configure an issuer URL, a TokenReview API server, or both")
  else if tokenReviewConfigured c && nonempty (CACertPEM c) && negb (append_certs (CACertPEM c))
  then Err (Errorf "k8sauth: no certificates found in the supplied CA bundle")
  else Ok (mkVerifier c false).

(** What is wrong with the issuer, if anything, and the verifier as the call
    leaves it. *)
Definition ready (v : Verifier) : prog world (option error * Verifier) :=
  let c := cfg v in
  if str_is (IssuerURL c) "" then Ret (Some (Errorf ""), v)
  else if discovered v then Ret (None, v)
  else
    r <- oidc_discover (IssuerURL c) (InsecureSkipVerify c) ;;
    Ret (match r with
         | Ok _ => (None, mkVerifier c true)
         | Err e => (Some (Wrapf ("discover issuer " +:+ IssuerURL c)%go e), v)
         end).

Definition verifyOIDC (c : Config) (token : string) : M Identity :=
  r <- oidc_Verify (IssuerURL c) (Audience c) token ;;
  Ret (match r with
       | Err e => Err (Wrapf "k8sauth: verify token" e)
       | Ok (Err e) => Err (Wrapf "k8sauth: decode token claims" e)
       | Ok (Ok claims) => claims_identity claims
       end).

Definition verifyTokenReview (c : Config) (token : string) : M Identity :=
  r <- token_review c token ;;
  Ret (match r with Err e => Err e | Ok r => review_identity r end).

Definition Verify (v : Verifier) (token : string) : prog world (result error Identity * Verifier) :=
  let token := Str.TrimSpace token in
  if str_is token "" then Ret (Err (Errorf "k8sauth: empty token"), v)
  else
    r <- ready v ;;
    let '(e, v) := r in
    id <- match e with
          | None => verifyOIDC (cfg v) token
          | Some e =>
              if tokenReviewConfigured (cfg v) then verifyTokenReview (cfg v) token
              else Ret (Err (Wrapf "k8sauth: OIDC issuer unreachable and no TokenReview fallback is configured" e))
          end ;;
    Ret (id, v).
End verify.

(** ** The cache of verifiers *)

Abbreviation Registry := (gmap string (Verifier * string)).

Definition SetWithFingerprint (name : string) (v : Verifier) (fp : string) (r : Registry) : Registry := <[name := (v, fp)]> r.
Definition GetWithFingerprint (name : string) (r : Registry) : option (Verifier * string) := r !! name.
(** The verifier an entry points to, as a call on it has left it. *)
Definition keep (name : string) (v : Verifier) (r : Registry) : Registry := alter (fun e => (v, snd e)) name r.
Definition Set_ (name : string) (v : Verifier) (r : Registry) : Registry := <[name := (v, ""%string)]> r.
Definition Remove (name : string) (r : Registry) : Registry := base.delete name r.
Definition Get (name : string) (r : Registry) : option Verifier := fst <$> r !! name.
Definition Has (name : string) (r : Registry) : bool := bool_decide (is_Some (r !! name)).
Definition Names (r : Registry) : list string := order_by Store.str_le (map fst (map_to_list r)).
Definition Len (r : Registry) : nat := size r.

End K8sAuth.

(** ** The endpoints *)

Module Csi.
Import K8sAuth SecretStore.

Open Scope prog_scope.

Definition defaultCSIAudience : string := "goca-csi".
Definition legacyConfigFingerprint : string := "legacy-csi-config".

(** The row's part of what a Verifier is built from, each field ended by a
    zero byte. *)
Definition nul : string := String (ascii_of_nat 0) EmptyString.
Fixpoint fields (l : list string) : string :=
  match l with [] => EmptyString | f :: l' => (f +:+ nul +:+ fields l')%go end.
Definition row_fields (m : K8sAuthMethod.t) : list string :=
  [K8sAuthMethod.Audience m; K8sAuthMethod.IssuerURL m; K8sAuthMethod.APIServerURL m; K8sAuthMethod.CACert m;
   K8sAuthMethod.ReviewerTokenEnc m; (if K8sAuthMethod.InsecureSkipVerify m then "true" else "false")%string].

(** What a handler answers: a JSON body, or a status and a message. *)
Inductive answer (A : Type) := Status (code : Z) (msg : string) | Answer (a : A).
Arguments Status {A}. Arguments Answer {A}.

Section csi.
Context `{Std : Pki.Std} `{Ciphers} `{RowOrder} `{Cluster}.
Context (vault : Pqcrypt.Vault) (master : string) (has_ca : bool).

Definition k8sRowFingerprint (m : K8sAuthMethod.t) : string :=
  Str.ToLower (Pki.hex_bytes (Pki.sha256 (fields (row_fields m)))).

Definition IsEncrypted (v : string) : bool := Str.HasPrefix v Box.Prefix.

Definition verifierFromRow (m : K8sAuthMethod.t) : result error Verifier :=
  let token := K8sAuthMethod.ReviewerTokenEnc m in
  match (if IsEncrypted token then Box.Decrypt master token else Ok token) with
  | Err e => Err (Wrapf (Str.Sprintf "decrypt reviewer token for trust domain %q" [Str.AStr (K8sAuthMethod.Name m)]) e)
  | Ok reviewerToken =>
      let audience := if str_is (K8sAuthMethod.Audience m) "" then defaultCSIAudience else K8sAuthMethod.Audience m in
      if str_is (K8sAuthMethod.IssuerURL m) "" && str_is (K8sAuthMethod.APIServerURL m) ""
      then Err (Errorf (Str.Sprintf "trust domain %q has neither issuer_url nor api_server_url set" [Str.AStr (K8sAuthMethod.Name m)]))
      else if str_is (K8sAuthMethod.IssuerURL m) "" && str_is reviewerToken ""
      then Err (Errorf (Str.Sprintf "trust domain %q has api_server_url set but no reviewer token" [Str.AStr (K8sAuthMethod.Name m)]))
      else
        New (mkConfig (K8sAuthMethod.IssuerURL m) audience (K8sAuthMethod.InsecureSkipVerify m) (K8sAuthMethod.APIServerURL m)
               (K8sAuthMethod.CACert m) reviewerToken)
  end.

(** The verifier for a trust domain and the cache it leaves: [Ok None] is an
    unknown or disabled domain. *)
Definition verifierFor (name : string) (reg : Registry) : prog world (result error (option Verifier) * Registry) :=
  row <- K8sStore.GetK8sAuthMethodByName name ;;
  Ret (match row with
       | Ok m =>
           if K8sAuthMethod.Disabled m then (Ok None, Remove name reg)
           else
             let fp := k8sRowFingerprint m in
             let rebuild :=
               match verifierFromRow m with
               | Err _ => (Ok None, Remove name reg)
               | Ok built => (Ok (Some built), SetWithFingerprint name built fp reg)
               end in
             match GetWithFingerprint name reg with
             | Some (cached, cachedFP) => if str_is cachedFP fp then (Ok (Some cached), reg) else rebuild
             | None => rebuild
             end
       | Err e =>
           if is_not_found e then
             match GetWithFingerprint name reg with
             | Some (cached, fp) => if str_is fp legacyConfigFingerprint then (Ok (Some cached), reg) else (Ok None, Remove name reg)
             | None => (Ok None, Remove name reg)
             end
           else (Err e, reg)
       end).

(** ** Authentication *)

Definition domain_name (header : string) : string :=
  let m := Str.TrimSpace header in if str_is m "" then "default"%string else m.

Definition with_method (method : string) (id : Identity) : Identity :=
  mkIdentity (Namespace id) (ServiceAccount id) (PodName id) (PodUID id) method.

(** [header] is X-Goca-Auth-Method, [authz] Authorization; [h] the handler. *)
Definition apiAuthK8s {A} (header authz : string) (h : Identity -> prog world (answer A)) (reg : Registry)
    : prog world (answer A * Registry) :=
  let method := domain_name header in
  v <- verifierFor method reg ;;
  let '(v, reg) := v in
  match v with
  | Err _ => Ret (Status 503 "could not look up the CSI trust domain; try again", reg)
  | Ok None => Ret (Status 401 ("unknown CSI trust domain " +:+ method +:+ ": no such k8s auth method is configured on this server")%go, reg)
  | Ok (Some v) =>
      if negb (Str.HasPrefix (Str.ToLower authz) "bearer ")
      then Ret (Status 401 "a Kubernetes ServiceAccount bearer token is required", reg)
      else
        r <- Verify v (Str.TrimSpace (drop_s 7 authz)) ;;
        let '(id, v) := r in
        let reg := keep method v reg in
        match id with
        | Err e => Ret (Status 401 ("token rejected: " +:+ Error e)%go, reg)
        | Ok id => a <- h (with_method method id) ;; Ret (a, reg)
        end
  end.

(** ** Fetching *)

Record FetchResult := mkFetched { SecretName : string; fetched_Version : string; Files : list (string * string); fetch_Error : string }.

Definition errNotFoundOrNotAuthorized : string := "not found or not authorized".

Fixpoint any_binding (id : Identity) (l : list SecretBinding.t) : prog world bool :=
  match l with
  | [] => Ret false
  | b :: l' =>
      now <- time_Now ;;
      if Vault.MatchesBinding now b (Namespace id) (ServiceAccount id) (AuthMethod id) then Ret true else any_binding id l'
  end.

Definition fetchOneVaultSecret (ip : string) (id : Identity) (name : string) : prog world FetchResult :=
  let refuse m := Ret (mkFetched name "" [] m) in
  sec <- Vault.Get name ;;
  match sec with
  | Err _ => refuse errNotFoundOrNotAuthorized
  | Ok sec =>
      bindings <- Vault.Bindings (Secret.Name sec) ;;
      match bindings with
      | Err _ => refuse "internal error resolving bindings"%string
      | Ok bindings =>
          authorized <- any_binding id bindings ;;
          if negb authorized then refuse errNotFoundOrNotAuthorized
          else
            m <- Vault.Materialize vault master has_ca (Secret.Name sec) ;;
            match m with
            | Err e => refuse (Error e)
            | Ok (_, files, version) =>
                Vault.AuditWithIP (identity_string id) "secret.csi_fetch" (Secret.Name sec)
                  ("pod=" +:+ PodName id +:+ " auth_method=" +:+ AuthMethod id)%go ip ;;;
                Ret (mkFetched name version (map (fun f => (Vault.file_Name f, base64_Encode (Vault.Data f))) files) "")
            end
      end
  end.

Fixpoint fetch_each (ip : string) (id : Identity) (names : list string) : prog world (list FetchResult) :=
  match names with
  | [] => Ret []
  | n :: names' => r <- fetchOneVaultSecret ip id n ;; rs <- fetch_each ip id names' ;; Ret (r :: rs)
  end.

Definition apiVaultFetch (ip : string) (names : list string) (id : Identity) : prog world (answer (list FetchResult)) :=
  match names with
  | [] => Ret (Status 400 "secrets must list at least one secret name")
  | _ => rs <- fetch_each ip id names ;; Ret (Answer rs)
  end.

(** ** External Secrets Operator *)

Inductive eso_answer := EsoAll (name version : string) (files : list (string * string)) | EsoOne (name property version value_base64 : string).

(** A []string printed with %v. *)
Definition show_names (files : list Vault.File) : string := ("[" +:+ Str.Join (map Vault.file_Name files) " " +:+ "]")%go.

Definition eso_select (key property : string) (files : list Vault.File) : result string Vault.File :=
  if nonempty property then
    match List.find (fun f => str_is (Vault.file_Name f) property) files with
    | Some f => Ok f
    | None => Err (Str.Sprintf "secret %q has no part named %q; available: %v" [Str.AStr key; Str.AStr property; Str.AStr (show_names files)])
    end
  else match files with
  | [f] => Ok f
  | _ => Err (Str.Sprintf "secret %q has %d parts; add ?property= to select one, or ?all=true for all of them (e.g. %v)"
                 [Str.AStr key; Str.AInt (Z.of_nat (length files)); Str.AStr (show_names files)])
  end.

Definition apiESOFetchSecret (ip key property : string) (all : bool) (id : Identity) : prog world (answer eso_answer) :=
  if str_is key "" then Ret (Status 400 (Str.Sprintf "query parameter %q is required (ESO: template it from {{ .remoteRef.key }})" [Str.AStr "key"]))
  else
    sec <- Vault.Get key ;;
    match sec with
    | Err _ => Ret (Status 404 errNotFoundOrNotAuthorized)
    | Ok sec =>
        bindings <- Vault.Bindings (Secret.Name sec) ;;
        match bindings with
        | Err e => Ret (Status 400 ("resolve bindings: " +:+ Error e)%go)
        | Ok bindings =>
            authorized <- any_binding id bindings ;;
            if negb authorized then Ret (Status 404 errNotFoundOrNotAuthorized)
            else
              m <- Vault.Materialize vault master has_ca (Secret.Name sec) ;;
              match m with
              | Err e => Ret (Status 400 (Error e))
              | Ok (_, files, version) =>
                  if all then
                    Vault.AuditWithIP (identity_string id) "secret.eso_fetch" (Secret.Name sec)
                      (Str.Sprintf "property=* (%d files) auth_method=%s" [Str.AInt (Z.of_nat (length files)); Str.AStr (AuthMethod id)]) ip ;;;
                    Ret (Answer (EsoAll (Secret.Name sec) version (map (fun f => (Vault.file_Name f, base64_Encode (Vault.Data f))) files)))
                  else match eso_select key property files with
                  | Err m => Ret (Status 400 m)
                  | Ok f =>
                      Vault.AuditWithIP (identity_string id) "secret.eso_fetch" (Secret.Name sec)
                        ("property=" +:+ Vault.file_Name f +:+ " auth_method=" +:+ AuthMethod id)%go ip ;;;
                      Ret (Answer (EsoOne (Secret.Name sec) (Vault.file_Name f) version (base64_Encode (Vault.Data f))))
                  end
              end
        end
    end.

(** ** Administration of trust domains *)

Record MethodInput := mkMethod {
  m_Name : string; m_Audience : string; m_IssuerURL : string; m_APIServerURL : string; m_CACert : string;
  m_ReviewerToken : string; m_InsecureSkipVerify : bool; m_Disabled : bool }.

Definition encryptReviewerToken (token : string) : M string :=
  if str_is token "" || IsEncrypted token then Ret (Ok token) else CaService.box_Encrypt master token.

Definition refreshK8sRegistry (name : string) (reg : Registry) : prog world Registry :=
  r <- verifierFor name reg ;; Ret (snd r).

Definition method_of (id : Z) (in_ : MethodInput) (name token createdBy : string) : K8sAuthMethod.t :=
  K8sAuthMethod.mk id name (m_Audience in_) (m_IssuerURL in_) (m_APIServerURL in_) (m_CACert in_) token
    (m_InsecureSkipVerify in_) (m_Disabled in_) createdBy 0 0.

(** What a handler answers: the stored row, or a status. *)
Definition method_answer : Type := answer K8sAuthMethod.t.
Definition failed (e : error) : method_answer := if is_not_found e then Status 404 "not found" else Status 400 (Error e).

Definition apiCsiAuthMethodCreate (in_ : MethodInput) (actor : string) (reg : Registry) : prog world (method_answer * Registry) :=
  if str_is (m_Name in_) "" then Ret (Status 400 "name is required", reg)
  else
    token <- encryptReviewerToken (m_ReviewerToken in_) ;;
    match token with
    | Err e => Ret (Status 400 ("encrypt reviewer token: " +:+ Error e)%go, reg)
    | Ok token =>
        row <- K8sStore.CreateK8sAuthMethod (method_of 0 in_ (m_Name in_) token actor) ;;
        match row with
        | Err e => Ret (Status 400 (Error e), reg)
        | Ok row => reg <- refreshK8sRegistry (m_Name in_) reg ;; Ret (Answer row, reg)
        end
    end.

Definition apiCsiAuthMethodUpdate (id : Z) (in_ : MethodInput) (reg : Registry) : prog world (method_answer * Registry) :=
  existing <- K8sStore.GetK8sAuthMethod id ;;
  match existing with
  | Err e => Ret (failed e, reg)
  | Ok existing =>
      token <- encryptReviewerToken (m_ReviewerToken in_) ;;
      match token with
      | Err e => Ret (Status 400 ("encrypt reviewer token: " +:+ Error e)%go, reg)
      | Ok token =>
          row <- K8sStore.UpdateK8sAuthMethod (method_of id in_ (K8sAuthMethod.Name existing) token "") ;;
          match row with
          | Err e => Ret (Status 400 (Error e), reg)
          | Ok row => reg <- refreshK8sRegistry (K8sAuthMethod.Name existing) reg ;; Ret (Answer row, reg)
          end
      end
  end.

Definition apiCsiAuthMethodDisable (id : Z) (disabled : bool) (reg : Registry) : prog world (answer bool * Registry) :=
  row <- K8sStore.GetK8sAuthMethod id ;;
  match row with
  | Err e => Ret (if is_not_found e then Status 404 "not found" else Status 400 (Error e), reg)
  | Ok row =>
      r <- K8sStore.SetK8sAuthMethodDisabled id disabled ;;
      match r with
      | Err e => Ret (Status 400 (Error e), reg)
      | Ok _ => reg <- refreshK8sRegistry (K8sAuthMethod.Name row) reg ;; Ret (Answer disabled, reg)
      end
  end.

Definition apiCsiAuthMethodDelete (id : Z) (reg : Registry) : prog world (answer unit * Registry) :=
  row <- K8sStore.GetK8sAuthMethod id ;;
  match row with
  | Err e => Ret (if is_not_found e then Status 404 "not found" else Status 400 (Error e), reg)
  | Ok row =>
      n <- K8sStore.CountSecretBindingsByAuthMethod (K8sAuthMethod.Name row) ;;
      let n := match n with Ok n => n | Err _ => 0%Z end in
      if (0 <? n)%Z
      then Ret (Status 400 (Str.Sprintf "trust domain %q is referenced by %d secret binding(s); rebind or delete them first"
                              [Str.AStr (K8sAuthMethod.Name row); Str.AInt n]), reg)
      else
        r <- K8sStore.DeleteK8sAuthMethod id ;;
        match r with
        | Err e => Ret (Status 400 (Error e), reg)
        | Ok _ => reg <- refreshK8sRegistry (K8sAuthMethod.Name row) reg ;; Ret (Answer tt, reg)
        end
  end.
(** ** Start-up (server.go) *)

(** The csi block of the configuration file. *)
Record CSIConfig := mkCSI { Enabled : bool; csi : Config }.

Definition csi_unconfigured : error := Errorf
  ("csi.enabled is true but no way to verify ServiceAccount tokens is configured. " +:+
   "Set csi.issuer_url to the cluster's ServiceAccount issuer (EKS/GKE/AKS, or any " +:+
   "cluster whose issuer is publicly reachable), or csi.api_server_url plus " +:+
   "csi.reviewer_token and csi.ca_cert to use the TokenReview API instead (kind, " +:+
   "most on-prem clusters). Find the issuer with: " +:+
   "kubectl get --raw /.well-known/openid-configuration. " +:+
   "Full walkthrough: docs/kubernetes/csi.md")%go.
Definition csi_no_reviewer : error := Errorf
  ("csi.api_server_url is set but csi.reviewer_token is empty, so goca cannot call " +:+
   "the TokenReview API. The token belongs to a ServiceAccount bound to " +:+
   "system:auth-delegator; k8s-demo/csi/rbac.yaml creates one. Get it with: " +:+
   "kubectl create token goca-server-token-reviewer -n goca-csi --duration=8760h. " +:+
   "Full walkthrough: docs/kubernetes/csi.md")%go.

Definition verifierFromLegacyConfig (c : Config) : result error Verifier :=
  let token := ReviewerToken c in
  match (if IsEncrypted token then Box.Decrypt master token else Ok token) with
  | Err e => Err (Wrapf "decrypt csi.reviewer_token" e)
  | Ok reviewerToken =>
      let audience := if str_is (Audience c) "" then defaultCSIAudience else Audience c in
      if str_is (IssuerURL c) "" && str_is (APIServerURL c) "" then Err csi_unconfigured
      else if str_is (IssuerURL c) "" && str_is reviewerToken "" then Err csi_no_reviewer
      else New (mkConfig (IssuerURL c) audience (InsecureSkipVerify c) (APIServerURL c) (CACertPEM c) reviewerToken)
  end.

Definition legacyCSIVerifier (c : CSIConfig) : result error (option Verifier) :=
  if negb (Enabled c) then Ok None
  else match verifierFromLegacyConfig (csi c) with Ok v => Ok (Some v) | Err e => Err e end.

Fixpoint register_rows (l : list K8sAuthMethod.t) (reg : Registry) : result error Registry :=
  match l with
  | [] => Ok reg
  | row :: l' =>
      if K8sAuthMethod.Disabled row then register_rows l' reg
      else match verifierFromRow row with
      | Err e => Err e
      | Ok v => register_rows l' (SetWithFingerprint (K8sAuthMethod.Name row) v (k8sRowFingerprint row) reg)
      end
  end.

Definition buildK8sRegistry (c : CSIConfig) : M Registry :=
  rows <- K8sStore.ListK8sAuthMethodsWithToken ;;
  Ret (match rows with
       | Err e => Err (Wrapf "list k8s auth methods" e)
       | Ok rows =>
           match register_rows rows ∅ with
           | Err e => Err e
           | Ok reg =>
               if Nat.eqb (Len reg) 0 then
                 match legacyCSIVerifier c with
                 | Err e => Err e
                 | Ok (Some v) => Ok (SetWithFingerprint "default" v legacyConfigFingerprint reg)
                 | Ok None => Ok reg
                 end
               else Ok reg
           end
       end).

Definition migrateLegacyCSIToRow (c : CSIConfig) : M unit :=
  if negb (Enabled c) then Ret (Ok tt)
  else
    rows <- K8sStore.ListK8sAuthMethods ;;
    match rows with
    | Err e => Ret (Err (Wrapf "list k8s auth methods" e))
    | Ok (_ :: _) => Ret (Ok tt)
    | Ok [] =>
        let cfg := csi c in
        if str_is (IssuerURL cfg) "" && str_is (APIServerURL cfg) "" then Ret (Ok tt)
        else if nonempty (APIServerURL cfg) && str_is (IssuerURL cfg) "" && str_is (ReviewerToken cfg) "" then Ret (Ok tt)
        else
          let audience := if str_is (Audience cfg) "" then defaultCSIAudience else Audience cfg in
          token <- encryptReviewerToken (ReviewerToken cfg) ;;
          match token with
          | Err e => Ret (Err (Wrapf "encrypt legacy reviewer token" e))
          | Ok token =>
              row <- K8sStore.CreateK8sAuthMethod (K8sAuthMethod.mk 0 "default" audience (IssuerURL cfg) (APIServerURL cfg)
                       (CACertPEM cfg) token (InsecureSkipVerify cfg) false "migration" 0 0) ;;
              Ret (match row with Err e => Err (Wrapf "create default trust domain row" e) | Ok _ => Ok tt end)
          end
    end.

(** What [NewServer] does about trust domains. *)
Definition start_csi (c : CSIConfig) : M Registry :=
  m <- migrateLegacyCSIToRow c ;;
  match m with
  | Err e => Ret (Err (Wrapf "migrate legacy CSI config" e))
  | Ok _ =>
      reg <- buildK8sRegistry c ;;
      Ret (match reg with Err e => Err (Wrapf "build Kubernetes ServiceAccount token verifiers" e) | Ok reg => Ok reg end)
  end.
End csi.
End Csi.
