(* ===== verification/CsiProvider.v ===== *)
(** * The provider of the Secrets Store CSI driver (internal/csi/provider.go)

    [Mount] on a node: it reads the parameters of a volume, takes the token the
    driver put there for its audience, asks the goca server for the secrets
    listed and turns the answer into the files of the volume.  JSON of the
    driver, YAML of the volume and the exchange with the server are parameters;
    [Path] is path.Clean of the Go library. *)

From S2P Require Import Prelude GoStrings Effects Models Schema Pki Sealing K8s.

(** ** path.Clean *)

Module Path.
Open Scope string_scope.

(** One element after another, on the stack of those kept, the last on top: an
    empty one and a dot go away, two dots take the element before with them
    and stay only where there is none. *)
Definition step (rooted : bool) (kept : list string) (e : string) : list string :=
  if str_is e "" || str_is e "." then kept
  else if str_is e ".." then
    match kept with
    | k :: kept' => if str_is k ".." then e :: kept else kept'
    | [] => if rooted then [] else [e]
    end
  else e :: kept.
Definition IsAbs (path : string) : bool := Str.HasPrefix path "/".
Definition Clean (path : string) : string :=
  let rooted := IsAbs path in
  let text := Str.Join (rev (fold_left (step rooted) (Str.Split path "/") [])) "/" in
  if rooted then ("/" +:+ text)%go else if str_is text "" then "." else text.

Example clean_doc : map Clean ["a/c"; "a//c"; "a/c/."; "a/c/b/.."; "/../a/c"; "/../a/b/../././/c"; ""; "../../a"; "a/../.."]
  = ["a/c"; "a/c"; "a/c"; "a/c"; "/a/c"; "/a/c"; "."; "../../a"; ".."].
Proof. reflexivity. Qed.
End Path.

(** ** The provider *)

Module CsiProvider.

Open Scope prog_scope.

Record Provider := mkProvider { Audience : string; AuthMethod : string; DefaultGocaAddress : string; RuntimeVersion : string }.

Definition Version_ (p : Provider) : string * string * string := ("v1alpha1", "goca", RuntimeVersion p)%string.

Record objectSpec := mkObject { SecretName : string; FileName : string; Items : gmap string string }.

(** What the driver's JSON and the volume's YAML hold. *)
Class Decoders := {
  json_attributes : string -> result error (gmap string string);
  json_tokens : string -> result error (gmap string string);           (* audience -> token *)
  yaml_objects : string -> result error (list objectSpec) }.

Definition certFileSemantics (name : string) : option string :=
  if str_is name "tls.crt" then Some "cert"%string
  else if str_is name "tls.key" then Some "key"%string
  else if str_is name "ca.crt" then Some "ca"%string
  else None.

(** m[k] of a map of strings *)
Definition at_ (m : gmap string string) (k : string) : string := default EmptyString (m !! k).

Definition targetFileName (o : objectSpec) (materializedName : string) : result error string :=
  let name :=
    if bool_decide (Items o <> ∅) then
      match certFileSemantics materializedName with
      | Some semantic => let renamed := at_ (Items o) semantic in if nonempty renamed then renamed else materializedName
      | None => materializedName
      end
    else if nonempty (FileName o) then FileName o else materializedName in
  let clean := Path.Clean name in
  if str_is clean "." || str_is clean ".." || Str.HasPrefix clean "../" || Path.IsAbs clean
  then Err (Errorf (Str.Sprintf "mount file name %q is not a safe relative path" [Str.AStr name]))
  else Ok clean.

(** *** The exchange with the server *)

Definition fetchResult : Type := Csi.FetchResult.
Record request := mkRequest { url : string; authorization : string; auth_method : string; secrets : list string }.
Inductive response :=
| Unreachable (e : error)
| Responded (status : Z) (body : string) (decoded : result error (list fetchResult)).

Definition fetch (p : Provider) (exchange : request -> prog world response) (gocaAddress token : string) (secretNames : list string)
    : prog world (result error (list fetchResult)) :=
  r <- exchange (mkRequest (Str.TrimRight gocaAddress "/" +:+ "/api/v1/vault/fetch")%go ("Bearer " +:+ token)%go (AuthMethod p) secretNames) ;;
  Ret (match r with
       | Unreachable e => Err e
       | Responded status body decoded =>
           if negb (status =? 200)%Z then
             Err (Errorf (Str.Sprintf "HTTP %d: %s" [Str.AInt status; Str.AStr (Str.TrimSpace (take_s 4096 body))]))
           else match decoded with Ok rs => Ok rs | Err e => Err (Wrapf "decode response" e) end
       end).

(** *** Mounting *)

Record file := mkFile { file_Path : string; Mode : Z; Contents : string }.
Record volume := mkVolume { Files : list file; ObjectVersion : list (string * string) }.

Section mount.
Context `{Decoders} `{Ciphers}.

Definition podToken (p : Provider) (attrs : gmap string string) : result error string :=
  let raw := at_ attrs "csi.storage.k8s.io/serviceAccount.tokens" in
  if str_is raw "" then
    Err (Errorf "no ServiceAccount token was provided by the driver - is CSIDriver.spec.tokenRequests configured with this provider's audience?")
  else match json_tokens raw with
  | Err e => Err (Wrapf "parse serviceAccount.tokens" e)
  | Ok tokens =>
      if nonempty (at_ tokens (Audience p)) then Ok (at_ tokens (Audience p))
      else Err (Errorf (Str.Sprintf "no token was issued for audience %q" [Str.AStr (Audience p)]))
  end.

Fixpoint object_names (i : Z) (objects : list objectSpec) : result error (list string) :=
  match objects with
  | [] => Ok []
  | o :: objects' =>
      if str_is (Str.TrimSpace (SecretName o)) "" then Err (Errorf (Str.Sprintf "csi: objects[%d] has no secretName" [Str.AInt i]))
      else try names := object_names (i + 1) objects' in Ok (SecretName o :: names)
  end%go.

(** The results by name: a later one replaces an earlier one. *)
Definition byName (results : list fetchResult) (name : string) : option fetchResult :=
  fold_left (fun found r => if str_is (Csi.SecretName r) name then Some r else found) results None.

Definition about (o : objectSpec) (e : error) : error := Wrapf (Str.Sprintf "csi: secret %q" [Str.AStr (SecretName o)]) e.

Fixpoint mount_files (o : objectSpec) (files : list (string * string)) : result error (list file) :=
  match files with
  | [] => Ok []
  | (name, data64) :: files' =>
      match targetFileName o name with
      | Err e => Err (about o e)
      | Ok mountName =>
          match base64_Decode data64 with
          | None => Err (Wrapf (Str.Sprintf "csi: secret %q file %q: invalid base64 from server" [Str.AStr (SecretName o); Str.AStr name]) (Driver "illegal base64 data"))
          | Some data => try rest := mount_files o files' in Ok (mkFile mountName 384 data :: rest)
          end
      end
  end%go.

Definition mount_object (results : list fetchResult) (o : objectSpec) : result error (list file * (string * string)) :=
  match byName results (SecretName o) with
  | None => Err (Errorf (Str.Sprintf "csi: server returned no result for secret %q" [Str.AStr (SecretName o)]))
  | Some r =>
      if nonempty (Csi.fetch_Error r) then
        Err (Errorf (Str.Sprintf "csi: secret %q: %s" [Str.AStr (SecretName o); Str.AStr (Csi.fetch_Error r)]))
      else if (1 <? length (Csi.Files r))%nat && nonempty (FileName o) then
        Err (Errorf (Str.Sprintf "csi: secret %q resolved to %d files (it is likely a certificate secret); use %q to rename them, not %q"
               [Str.AStr (SecretName o); Str.AInt (Z.of_nat (length (Csi.Files r))); Str.AStr "items"; Str.AStr "fileName"]))
      else try files := mount_files o (Csi.Files r) in Ok (files, (SecretName o, Csi.fetched_Version r))
  end%go.

Fixpoint mount_objects (results : list fetchResult) (objects : list objectSpec) : result error volume :=
  match objects with
  | [] => Ok (mkVolume [] [])
  | o :: objects' =>
      try m := mount_object results o in
      try v := mount_objects results objects' in
      Ok (mkVolume (fst m ++ Files v) (snd m :: ObjectVersion v))
  end%go.

Definition gocaAddress (p : Provider) (attrs : gmap string string) : string :=
  let a := Str.TrimSpace (at_ attrs "gocaAddress") in if nonempty a then a else DefaultGocaAddress p.

(** The first part of [Mount]: what to ask, where and as whom. *)
Definition mount_request (p : Provider) (attributes : string) : result error (list objectSpec * string * string * list string) :=
  match json_attributes attributes with
  | Err e => Err (Wrapf "csi: parse mount attributes" e)
  | Ok attrs =>
      match yaml_objects (at_ attrs "objects") with
      | Err e => Err (Wrapf "csi: parse SecretProviderClass objects" e)
      | Ok [] => Err (Errorf "csi: SecretProviderClass has no objects listed")
      | Ok objects =>
          match podToken p attrs with
          | Err e => Err (Errorf (Str.Sprintf "csi: %v (pod %s/%s, ServiceAccount %s)"
                       [Str.AStr (Error e); Str.AStr (at_ attrs "csi.storage.k8s.io/pod.namespace"); Str.AStr (at_ attrs "csi.storage.k8s.io/pod.name");
                        Str.AStr (at_ attrs "csi.storage.k8s.io/serviceAccount.name")]))
          | Ok token =>
              if str_is (gocaAddress p attrs) "" then
                Err (Errorf "csi: no gocaAddress in the SecretProviderClass parameters and no default configured")
              else try names := object_names 0 objects in Ok (objects, gocaAddress p attrs, token, names)
          end
      end
  end%go.

Definition Mount (p : Provider) (exchange : request -> prog world response) (attributes : string) : prog world (result error volume) :=
  match mount_request p attributes with
  | Err e => Ret (Err e)
  | Ok (objects, address, token, names) =>
      results <- fetch p exchange address token names ;;
      Ret (match results with
           | Err e => Err (Wrapf ("csi: fetch secrets from " +:+ address)%go e)
           | Ok results => mount_objects results objects
           end)
  end.
End mount.

(** The goca server as what the provider talks to; [error_body] is the JSON of
    an error. *)
Definition goca_server `{Pki.Std} `{Ciphers} `{RowOrder} `{K8sAuth.Cluster} (vault : Sealing.Pqcrypt.Vault) (master : string) (has_ca : bool)
    (error_body : string -> string) (ip : string) (reg : K8sAuth.Registry) (q : request) : prog world response :=
  r <- Csi.apiAuthK8s master (auth_method q) (authorization q) (Csi.apiVaultFetch vault master has_ca ip (secrets q)) reg ;;
  Ret (match fst r with
       | Csi.Status code msg => Responded code (error_body msg) (Err (Errorf msg))
       | Csi.Answer rs => Responded 200 EmptyString (Ok rs)
       end).
End CsiProvider.
