(* ===== verification/Webhooks.v ===== *)
(** * Webhooks (internal/store/webhook.go, internal/webhooks,
    internal/web/api_webhooks.go)

    [WebhookStore] is the tables; a claim is one UPDATE that returns the rows it
    changed.  [Dispatcher] enqueues a delivery per matching webhook after each
    audit record and, tick by tick, claims what is due and posts it.  [Hooks]
    is the administration.  The HTTP exchange is a parameter, a program of its
    own because it takes time. *)

From S2P Require Import Prelude GoStrings Effects Models Schema Store Pki Sealing CaService K8s.

Module WebhookStore.

Open Scope prog_scope.

Definition hook_id (id : Z) (h : Webhook.t) : bool := (Webhook.ID h =? id)%Z.
Definition delivery_id (id : Z) (d : WebhookDelivery.t) : bool := (WebhookDelivery.ID d =? id)%Z.

(** ** Webhooks *)

Definition GetWebhook (id : Z) : M Webhook.t := query_row (select1 Webhooks (hook_id id)).
Definition GetWebhookByName (name : string) : M Webhook.t :=
  query_row (select1 Webhooks (fun h => str_is (Webhook.Name h) name)).

Definition any_event (events : string) : string := if str_is events "" then "*"%string else events.

Definition webhook_row (h : Webhook.t) (created now id : Z) : Webhook.t :=
  Webhook.mk id (Webhook.Name h) (Webhook.URL h) (any_event (Webhook.Events h)) (Webhook.SecretEnc h)
    (Webhook.Disabled h) (Webhook.CreatedBy h) created now.

Definition CreateWebhook (h : Webhook.t) : M Webhook.t :=
  now <- time_Now ;;
  let created := if (Webhook.CreatedAt h =? 0)%Z then now else Webhook.CreatedAt h in
  id <-! sql (insert Webhooks (webhook_row h created now)) ;;
  GetWebhook id.

Definition oldest_hook (a b : Webhook.t) : bool := (Webhook.ID a <=? Webhook.ID b)%Z.
Definition without_key (h : Webhook.t) : Webhook.t :=
  Webhook.mk (Webhook.ID h) (Webhook.Name h) (Webhook.URL h) (Webhook.Events h) "" (Webhook.Disabled h)
    (Webhook.CreatedBy h) (Webhook.CreatedAt h) (Webhook.UpdatedAt h).

Definition ListWebhooksWithSecret : M (list Webhook.t) := query (fun d => order_by oldest_hook (rows (d Webhooks))).
Definition ListWebhooks : M (list Webhook.t) :=
  query (fun d => map without_key (order_by oldest_hook (rows (d Webhooks)))).

Definition updated_hook (h : Webhook.t) (key : string) (now : Z) (r : Webhook.t) : Webhook.t :=
  Webhook.mk (Webhook.ID r) (Webhook.Name r) (Webhook.URL h) (any_event (Webhook.Events h)) key (Webhook.Disabled h)
    (Webhook.CreatedBy r) (Webhook.CreatedAt r) now.

Definition UpdateWebhook (h : Webhook.t) : M Webhook.t :=
  key <-! (if str_is (Webhook.SecretEnc h) "" then
             existing <-! GetWebhook (Webhook.ID h) ;; Ret (Ok (Webhook.SecretEnc existing))
           else Ret (Ok (Webhook.SecretEnc h))) ;;
  now <- time_Now ;;
  _ <-! exec_found (update Webhooks (hook_id (Webhook.ID h)) (updated_hook h key now)) ;;
  GetWebhook (Webhook.ID h).

Definition SetWebhookDisabled (id : Z) (disabled : bool) : M unit :=
  now <- time_Now ;;
  exec_found (update Webhooks (hook_id id) (fun h => Webhook.set_UpdatedAt now (Webhook.set_Disabled disabled h))).

Definition DeleteWebhook (id : Z) : M unit := exec_found (delete Webhooks (hook_id id)).

(** ** Deliveries; a row that is read carries no claim *)

Definition scanWebhookDelivery (d : WebhookDelivery.t) : WebhookDelivery.t := WebhookDelivery.set_ClaimedAt None d.

Definition GetWebhookDelivery (id : Z) : M WebhookDelivery.t :=
  query_row (fun d => option_map scanWebhookDelivery (select1 WebhookDeliveries (delivery_id id) d)).

Definition new_delivery (webhookID : Z) (event payload : string) (now id : Z) : WebhookDelivery.t :=
  WebhookDelivery.mk id webhookID event payload WebhookStatusPending 0 0 "" (Some now) None now now.

Definition CreateWebhookDelivery (webhookID : Z) (event payload : string) : M WebhookDelivery.t :=
  now <- time_Now ;;
  id <-! sql (insert WebhookDeliveries (new_delivery webhookID event payload now)) ;;
  GetWebhookDelivery id.

Definition newest_delivery (a b : WebhookDelivery.t) : bool := (WebhookDelivery.ID b <=? WebhookDelivery.ID a)%Z.
Definition oldest_delivery (a b : WebhookDelivery.t) : bool := (WebhookDelivery.ID a <=? WebhookDelivery.ID b)%Z.

Definition ListWebhookDeliveries (webhookID limit : Z) : M (list WebhookDelivery.t) :=
  let limit := if (limit <=? 0)%Z then 50%Z else limit in
  query (fun d => take (Z.to_nat limit) (map scanWebhookDelivery (order_by newest_delivery
    (select WebhookDeliveries (fun x => (WebhookDelivery.WebhookID x =? webhookID)%Z) d)))).

(** Due at [now], and not claimed since [stale]. *)
Definition is_due (now stale : Z) (d : WebhookDelivery.t) : bool :=
  (str_is (WebhookDelivery.Status d) WebhookStatusPending ||
   (str_is (WebhookDelivery.Status d) WebhookStatusFailed &&
    match WebhookDelivery.NextAttempt d with Some t => (t <=? now)%Z | None => false end)) &&
  match WebhookDelivery.ClaimedAt d with Some t => (t <=? stale)%Z | None => true end.

Section claim.
Context `{RowOrder}.

(** The rows the subquery picks, and those the UPDATE then claims. *)
Definition picked (now stale : Z) (limit : nat) (d : db) : list Z :=
  map WebhookDelivery.ID (take limit (order_by oldest_delivery (select WebhookDeliveries (is_due now stale) d))).
Definition claimable (now stale : Z) (limit : nat) (d : db) (x : WebhookDelivery.t) : bool :=
  existsb (Z.eqb (WebhookDelivery.ID x)) (picked now stale limit d) && is_due now stale x.

Definition claim (now stale : Z) (limit : nat) (d : db) : list WebhookDelivery.t * db :=
  let p := claimable now stale limit d in
  (scan (map scanWebhookDelivery (select WebhookDeliveries p d)),
   snd (update WebhookDeliveries p (WebhookDelivery.set_ClaimedAt (Some now)) d)).

Definition ClaimDueWebhookDeliveries (now staleAfter limit : Z) : M (list WebhookDelivery.t) :=
  let limit := if (limit <=? 0)%Z then 100%Z else limit in
  sql (claim now (now - staleAfter) (Z.to_nat limit)).
End claim.

Definition delivered_row (httpStatus now : Z) (d : WebhookDelivery.t) : WebhookDelivery.t :=
  WebhookDelivery.mk (WebhookDelivery.ID d) (WebhookDelivery.WebhookID d) (WebhookDelivery.Event d)
    (WebhookDelivery.Payload d) WebhookStatusDelivered (WebhookDelivery.Attempts d) httpStatus ""
    (WebhookDelivery.NextAttempt d) None (WebhookDelivery.CreatedAt d) now.

Definition failed_row (httpStatus : Z) (errMsg : string) (nextAttempt : option Z) (now : Z) (d : WebhookDelivery.t) : WebhookDelivery.t :=
  WebhookDelivery.mk (WebhookDelivery.ID d) (WebhookDelivery.WebhookID d) (WebhookDelivery.Event d)
    (WebhookDelivery.Payload d) (match nextAttempt with Some _ => WebhookStatusFailed | None => WebhookStatusDead end)
    (WebhookDelivery.Attempts d + 1) httpStatus errMsg nextAttempt None (WebhookDelivery.CreatedAt d) now.

Definition RecordWebhookDeliveryResult (id : Z) (delivered : bool) (httpStatus : Z) (errMsg : string) (nextAttempt : option Z) : M unit :=
  now <- time_Now ;;
  exec (update WebhookDeliveries (delivery_id id)
          (if delivered then delivered_row httpStatus now else failed_row httpStatus errMsg nextAttempt now)).

End WebhookStore.

(** ** Delivery *)

Module Dispatcher.
Import WebhookStore.

Open Scope prog_scope.

Record Event := mkEvent {
  e_ID : string; e_TS : Z; e_Actor : string; e_Action : string; e_Target : string; e_Detail : string; e_IP : string }.

(** What is posted: the address, the headers that vary and the body. *)
Record Request := mkRequest {
  r_URL : string; X_Goca_Event : string; X_Goca_Delivery : string; X_Goca_Signature : string; r_Body : string }.

Record Options := mkOptions { MaxAttempts : Z; Backoff : Z; Interval : Z; Timeout : Z; ClaimStale : Z }.

Definition withDefaults (o : Options) : Options :=
  let or_else (v def : Z) := if (v <=? 0)%Z then def else v in
  (mkOptions (or_else (MaxAttempts o) 5) (or_else (Backoff o) (30 * Second)) (or_else (Interval o) (5 * Second))
    (or_else (Timeout o) (10 * Second)) (or_else (ClaimStale o) (2 * Minute)))%Z.

(** The network: url.Parse down to scheme and host name, net.ParseIP down to
    sixteen bytes and back, net.SplitHostPort down to the host, the errors of
    http.NewRequest, the exchange with a receiver and its status. *)
Class Network := {
  url_parts : string -> result string (string * string);
  ip_bytes : string -> option (list Z);
  ip_String : list Z -> string;
  split_host : string -> result error string;
  request_error : string -> option string;
  http_Do : Request -> prog world (result error Z);
  hmac_sha256 : string -> string -> string;
  json_time : Z -> string }.

(** encoding/json writes the fields in order. *)
Definition json_event `{Network} (e : Event) : string :=
  let field k v := (Store.json_string k +:+ ":" +:+ v)%go in
  ("{" +:+ Str.Join [field "id" (Store.json_string (e_ID e)); field "ts" (Store.json_string (json_time (e_TS e)));
     field "actor" (Store.json_string (e_Actor e)); field "action" (Store.json_string (e_Action e));
     field "target" (Store.json_string (e_Target e)); field "detail" (Store.json_string (e_Detail e));
     field "ip" (Store.json_string (e_IP e))]%string "," +:+ "}")%go.

Fixpoint any_token (action : string) (toks : list string) : bool :=
  match toks with
  | [] => false
  | tok :: toks' =>
      let tok := Str.TrimSpace tok in
      if str_is tok "" then any_token action toks'
      else if str_is tok action || Str.HasPrefix action (tok +:+ ".")%go then true
      else any_token action toks'
  end.

Definition matches (filter action : string) : bool :=
  let filter := Str.TrimSpace filter in
  if str_is filter "" || str_is filter "*" then true else any_token action (Str.Split filter ",").

Section dispatcher.
Context `{Std : Pki.Std} `{Ciphers} `{RowOrder} `{Network}.
Context (master : string) (opts : Options).

Definition sign (key body : string) : string := ("sha256=" +:+ Str.ToLower (Pki.hex_bytes (hmac_sha256 key body)))%go.

(** *** Enqueueing *)

Fixpoint emit_each (actor action target detail ip : string) (hooks : list Webhook.t) : prog world unit :=
  match hooks with
  | [] => Ret tt
  | h :: hooks' =>
      if Webhook.Disabled h || negb (matches (Webhook.Events h) action) then emit_each actor action target detail ip hooks'
      else
        nano <- time_Now ;;
        ts <- time_Now ;;
        CreateWebhookDelivery (Webhook.ID h) action
          (json_event (mkEvent ("evt-" +:+ Str.itoa nano)%go ts actor action target detail ip)) ;;;
        emit_each actor action target detail ip hooks'
  end.

Definition Emit (actor action target detail ip : string) : prog world unit :=
  hooks <- ListWebhooksWithSecret ;;
  match hooks with Err _ => Ret tt | Ok hooks => emit_each actor action target detail ip hooks end.

(** *** Posting; the answer of [deliver] is the request it made *)

Definition delay (attempts : Z) : Z :=
  let d := int64 (Z.shiftl (Backoff opts) (attempts - 1)) in
  if (15 * Minute <? d)%Z then (15 * Minute)%Z else d.

Definition recordFailure (del : WebhookDelivery.t) (httpStatus : Z) (errMsg : string) : prog world unit :=
  let attempts := (WebhookDelivery.Attempts del + 1)%Z in
  next <- (if (attempts <? MaxAttempts opts)%Z then now <- time_Now ;; Ret (Some (now + delay attempts)%Z) else Ret None) ;;
  RecordWebhookDeliveryResult (WebhookDelivery.ID del) false httpStatus errMsg next ;;; Ret tt.

Definition request (h : Webhook.t) (key : string) (del : WebhookDelivery.t) : Request :=
  mkRequest (Webhook.URL h) (WebhookDelivery.Event del) (Str.itoa (WebhookDelivery.ID del))
    (if nonempty key then sign key (WebhookDelivery.Payload del) else ""%string) (WebhookDelivery.Payload del).

Definition deliver (del : WebhookDelivery.t) : prog world (option Request) :=
  h <- GetWebhook (WebhookDelivery.WebhookID del) ;;
  match h with
  | Err _ => Ret None
  | Ok h =>
      match (if nonempty (Webhook.SecretEnc h) then Box.Decrypt master (Webhook.SecretEnc h) else Ok ""%string) with
      | Err _ => Ret None
      | Ok key =>
          match request_error (Webhook.URL h) with
          | Some m => recordFailure del 0 m ;;; Ret None
          | None =>
              let req := request h key del in
              resp <- http_Do req ;;
              match resp with
              | Err e => recordFailure del 0 (Error e)
              | Ok code =>
                  if (200 <=? code)%Z && (code <? 300)%Z
                  then RecordWebhookDeliveryResult (WebhookDelivery.ID del) true code "" None ;;; Ret tt
                  else recordFailure del code (Str.Sprintf "unexpected status %d" [Str.AInt code])
              end ;;;
              Ret (Some req)
          end
      end
  end.

Fixpoint deliver_each (due : list WebhookDelivery.t) : prog world (list Request) :=
  match due with
  | [] => Ret []
  | del :: due' =>
      r <- deliver del ;;
      rs <- deliver_each due' ;;
      Ret (match r with Some r => r :: rs | None => rs end)
  end.

Definition tick : prog world (list Request) :=
  now <- time_Now ;;
  due <- ClaimDueWebhookDeliveries now (ClaimStale opts) 100 ;;
  match due with Err _ => Ret [] | Ok due => deliver_each due end.

End dispatcher.

(** *** Addresses that are never delivered to *)

(** net.IP.To4 of sixteen bytes. *)
Definition To4 (ip : list Z) : option (list Z) :=
  match ip with
  | [_; _; _; _] => Some ip
  | [0; 0; 0; 0; 0; 0; 0; 0; 0; 0; 255; 255; a; b; c; d]%Z => Some [a; b; c; d]
  | _ => None
  end.
Definition byte_at (i : nat) (ip : list Z) : Z := nth i ip 0%Z.
Definition IPv6loopback : list Z := repeat 0%Z 15 ++ [1%Z].
Definition IPv6unspecified : list Z := repeat 0%Z 16.

Definition IsLoopback (ip : list Z) : bool :=
  match To4 ip with Some v4 => (byte_at 0 v4 =? 127)%Z | None => bool_decide (ip = IPv6loopback) end.
Definition IsLinkLocalUnicast (ip : list Z) : bool :=
  match To4 ip with
  | Some v4 => (byte_at 0 v4 =? 169)%Z && (byte_at 1 v4 =? 254)%Z
  | None => Nat.eqb (length ip) 16 && (byte_at 0 ip =? 254)%Z && (Z.land (byte_at 1 ip) 192 =? 128)%Z
  end.
Definition IsLinkLocalMulticast (ip : list Z) : bool :=
  match To4 ip with
  | Some v4 => (byte_at 0 v4 =? 224)%Z && (byte_at 1 v4 =? 0)%Z && (byte_at 2 v4 =? 0)%Z
  | None => Nat.eqb (length ip) 16 && (byte_at 0 ip =? 255)%Z && (Z.land (byte_at 1 ip) 15 =? 2)%Z
  end.
Definition IsUnspecified (ip : list Z) : bool :=
  match To4 ip with Some v4 => bool_decide (v4 = [0; 0; 0; 0]%Z) | None => bool_decide (ip = IPv6unspecified) end.

Definition isBlockedIP (ip : list Z) : bool :=
  IsLoopback ip || IsLinkLocalUnicast ip || IsLinkLocalMulticast ip || IsUnspecified ip.

Definition refusal (prefix ip : string) : error :=
  Errorf (prefix +:+ ip +:+ ": this address can never be a legitimate webhook receiver")%go.

(** [None] is no error. *)
Definition ValidateWebhookURL `{Network} (raw : string) : option error :=
  match url_parts (Str.TrimSpace raw) with
  | Err m => Some (Errorf ("not a valid URL: " +:+ m)%go)
  | Ok (scheme, host) =>
      if negb (str_is scheme "http") && negb (str_is scheme "https")
      then Some (Errorf (Str.Sprintf "scheme must be http or https, got %q" [Str.AStr scheme]))
      else if str_is host "" then Some (Errorf "URL has no host")
      else match ip_bytes host with
      | Some ip => if isBlockedIP ip then Some (refusal "refusing to deliver to " (ip_String ip)) else None
      | None => None
      end
  end.

Definition dialerControl `{Network} (address : string) : option error :=
  match split_host address with
  | Err e => Some e
  | Ok host =>
      match ip_bytes host with
      | None => Some (Errorf (Str.Sprintf "webhook dial: could not parse resolved address %q" [Str.AStr address]))
      | Some ip => if isBlockedIP ip then Some (refusal "webhook dial: refusing to connect to " (ip_String ip)) else None
      end
  end.

End Dispatcher.

(** ** Administration *)

Module Hooks.
Import WebhookStore Dispatcher.

Open Scope prog_scope.

Record webhookInput := mkHook { h_Name : string; h_URL : string; h_Events : string; h_Secret : string; h_Disabled : bool }.

Section hooks.
Context `{Std : Pki.Std} `{Ciphers} `{RowOrder} `{Network}.
Context (master : string).

Notation answer := Csi.answer.
Notation Status := Csi.Status.
Notation Answer := Csi.Answer.

(** The statuses renderAPIError gives an error. *)
Definition refused {A} (e : error) : answer A := if is_not_found e then Status 404 "not found" else Status 400 (Error e).
Definition bad_url {A} (e : error) : answer A := Status 400 ("url: " +:+ Error e)%go.

Definition encryptWebhookSecret (key : string) : M string :=
  if str_is key "" || Csi.IsEncrypted key then Ret (Ok key) else CaService.box_Encrypt master key.

Definition hook_of (id : Z) (in_ : webhookInput) (name url key createdBy : string) : Webhook.t :=
  Webhook.mk id name url (h_Events in_) key (h_Disabled in_) createdBy 0 0.

Definition apiWebhookCreate (in_ : webhookInput) (actor : string) : prog world (answer Webhook.t) :=
  if str_is (h_Name in_) "" then Ret (Status 400 "name is required")
  else if str_is (h_URL in_) "" then Ret (Status 400 "url is required")
  else match ValidateWebhookURL (h_URL in_) with
  | Some e => Ret (bad_url e)
  | None =>
      key <- encryptWebhookSecret (h_Secret in_) ;;
      match key with
      | Err e => Ret (Status 400 ("encrypt webhook secret: " +:+ Error e)%go)
      | Ok key =>
          row <- CreateWebhook (hook_of 0 in_ (h_Name in_) (h_URL in_) key actor) ;;
          Ret (match row with Err e => Status 400 (Error e) | Ok row => Answer row end)
      end
  end.

Definition apiWebhookUpdate (id : Z) (in_ : webhookInput) : prog world (answer Webhook.t) :=
  existing <- GetWebhook id ;;
  match existing with
  | Err e => Ret (refused e)
  | Ok existing =>
      let url := if str_is (h_URL in_) "" then Webhook.URL existing else h_URL in_ in
      match ValidateWebhookURL url with
      | Some e => Ret (bad_url e)
      | None =>
          key <- encryptWebhookSecret (h_Secret in_) ;;
          match key with
          | Err e => Ret (Status 400 ("encrypt webhook secret: " +:+ Error e)%go)
          | Ok key =>
              row <- UpdateWebhook (hook_of id in_ (Webhook.Name existing) url key "") ;;
              Ret (match row with Err e => Status 400 (Error e) | Ok row => Answer row end)
          end
      end
  end.

Definition apiWebhookDisable (id : Z) (disabled : option bool) : prog world (answer bool) :=
  let disabled := default true disabled in
  row <- GetWebhook id ;;
  match row with
  | Err e => Ret (refused e)
  | Ok _ =>
      r <- SetWebhookDisabled id disabled ;;
      Ret (match r with Err e => Status 400 (Error e) | Ok _ => Answer disabled end)
  end.

Definition apiWebhookDelete (id : Z) : prog world (answer unit) :=
  row <- GetWebhook id ;;
  match row with
  | Err e => Ret (refused e)
  | Ok _ =>
      r <- DeleteWebhook id ;;
      Ret (match r with Err e => Status 400 (Error e) | Ok _ => Answer tt end)
  end.

Definition apiWebhookDeliveries (id limit : Z) : prog world (answer (list WebhookDelivery.t)) :=
  row <- GetWebhook id ;;
  match row with
  | Err e => Ret (refused e)
  | Ok _ =>
      r <- ListWebhookDeliveries id limit ;;
      Ret (match r with Err e => refused e | Ok l => Answer l end)
  end.

End hooks.
End Hooks.
