(* ===== verification/AcmePolicy.v ===== *)
(** * ACME policy: nonces, identifiers, domain scopes
    (internal/acme/nonce.go, policy.go, domain.go, errors.go) *)

From S2P Require Import Prelude GoStrings Glob Effects Models Schema SqlFacts AcmeStore Pki Sealing.

(** ** Problems *)

Module Problem.

(** An RFC 7807 problem document. *)
Record t := mk { Type_ : string; Detail : string; Status : Z }.

Definition errNS : string := "urn:ietf:params:acme:error:".
Definition problem (kind : string) (status : Z) (detail : string) : t :=
  mk (errNS +:+ kind)%go detail status.

Definition BadNonce (d : string) : t := problem "badNonce" 400 d.
Definition Malformed (d : string) : t := problem "malformed" 400 d.
Definition Unauthorized (d : string) : t := problem "unauthorized" 401 d.
Definition AccountDoesNotExist (d : string) : t := problem "accountDoesNotExist" 400 d.
Definition RejectedIdentifier (d : string) : t := problem "rejectedIdentifier" 400 d.
Definition UnsupportedIdentifier (d : string) : t := problem "unsupportedIdentifier" 400 d.
Definition OrderNotReady (d : string) : t := problem "orderNotReady" 403 d.
Definition BadCSR (d : string) : t := problem "badCSR" 400 d.
Definition BadRevocationReason (d : string) : t := problem "badRevocationReason" 400 d.
Definition AlreadyRevoked (d : string) : t := problem "alreadyRevoked" 400 d.
Definition ExternalAccountRequired (d : string) : t := problem "externalAccountRequired" 400 d.
Definition InvalidContact (d : string) : t := problem "invalidContact" 400 d.
Definition UnsupportedContact (d : string) : t := problem "unsupportedContact" 400 d.
Definition ServerInternal (d : string) : t := problem "serverInternal" 500 d.
Definition NotFound (d : string) : t := problem "malformed" 404 d.

End Problem.

(** ** Replay nonces *)

Module NonceManager.
Open Scope prog_scope.

Section nonces.
Context `{Ciphers}.
(** base64.RawURLEncoding *)
Context (rawurl_Encode : string -> string).

Definition nonceTTL : Z := 10 * Minute.

(** A failing random source panics: the request ends with nothing issued. *)
Definition New : M string :=
  b <- Pki.draw (fun n => rand_Read n 24) ;;
  match b with
  | None => Ret (Err (Driver "panic: acme: crypto/rand.Read failed"))
  | Some b =>
      let n := rawurl_Encode b in
      now <- time_Now ;;
      _ <-! AcmeStore.CreateAcmeNonce n (now + nonceTTL) ;;
      Ret (Ok n)
  end.
End nonces.

Definition Consume (n : string) : prog world bool :=
  if str_is n "" then Ret false
  else
    now <- time_Now ;;
    r <- AcmeStore.ConsumeAcmeNonce n now ;;
    Ret (match r with Ok ok => ok | Err _ => false end).

Definition Purge : M nat := now <- time_Now ;; AcmeStore.PurgeExpiredAcmeNonces now.

End NonceManager.

(** ** Identifiers and domain scopes *)

Module Policy.

Definition label_char (c : ascii) : bool := Str.is_lower c || Str.is_digit c || Ascii.eqb c "-".

Fixpoint all_chars (p : ascii -> bool) (s : string) : bool :=
  match s with EmptyString => true | String c s' => p c && all_chars p s' end.

Definition first_char (s : string) : ascii := match s with String c _ => c | EmptyString => zero end.
Fixpoint last_char (s : string) : ascii :=
  match s with
  | EmptyString => zero
  | String c EmptyString => c
  | String _ s' => last_char s'
  end.

Definition validLabel (l : string) : option string :=
  if str_is l "" then Some "has an empty label"%string
  else if (63 <? String.length l)%nat
  then Some (Str.Sprintf "has a label longer than 63 characters (%q)" [Str.AStr l])
  else if Ascii.eqb (first_char l) "-" || Ascii.eqb (last_char l) "-"
  then Some (Str.Sprintf "has a label that starts or ends with a hyphen (%q)" [Str.AStr l])
  else if negb (all_chars label_char l)
  then Some (Str.Sprintf "has a label with a character outside a-z, 0-9 and '-' (%q)" [Str.AStr l])
  else None.

(** The first complaint of the loop over the labels. *)
Fixpoint first_error {A} (f : A -> option string) (l : list A) : option string :=
  match l with
  | [] => None
  | x :: l' => match f x with Some e => Some e | None => first_error f l' end
  end.

Section identifiers.
Context `{Pki.Std}.

(** What is wrong with an identifier, if anything. *)
Definition validDNSIdentifier (v : string) : option string :=
  if (253 <? String.length v)%nat then Some "is longer than 253 characters"%string
  else match Pki.net_ParseIP v with
  | Some _ => Some (Str.Sprintf "is an IP address; only %q identifiers are supported" [Str.AStr "dns"])
  | None =>
      let '(name, wildcard) := Str.CutPrefix v "*." in
      if Str.Contains name "*" then Some (Str.Sprintf "may only use %q as the entire leftmost label" [Str.AStr "*"])
      else
        let labels := Str.Split name "." in
        if wildcard && (length labels <? 2)%nat
        then Some "is a wildcard over a single-label name, which would cover a whole top-level domain"%string
        else first_error validLabel labels
  end.

(** The contacts of an account: single mailto: addresses without headers. *)
Definition bad_contact (c : string) : option Problem.t :=
  let invalid := Problem.InvalidContact
        (Str.Sprintf "contact %q must be a single mailto: address with no header fields" [Str.AStr c]) in
  match Pki.url_Parse c with
  | Err _ => Some (Problem.InvalidContact (Str.Sprintf "contact %q is not a URL" [Str.AStr c]))
  | Ok u =>
      if str_is (Pki.Scheme u) "" then Some (Problem.InvalidContact (Str.Sprintf "contact %q is not a URL" [Str.AStr c]))
      else if negb (Str.EqualFold (Pki.Scheme u) "mailto")
      then Some (Problem.UnsupportedContact (Str.Sprintf "contact %q: only mailto: contacts are supported" [Str.AStr c]))
      else
        let addr := Pki.Opaque u in
        if nonempty (Pki.RawQuery u) || Str.Contains addr "," || negb (Nat.eqb (Str.count_char "@" addr) 1)
           || Str.HasPrefix addr "@" || Str.HasSuffix addr "@"
        then Some invalid else None
  end.
Fixpoint validContacts (contacts : list string) : option Problem.t :=
  match contacts with
  | [] => None
  | c :: l => match bad_contact c with Some p => Some p | None => validContacts l end
  end.
End identifiers.

(** [path.Match] says yes without an error. *)
Definition path_matches (pat name : string) : bool :=
  match Glob.Match pat name with Some b => b | None => false end.

Definition domainAllowed (patterns : list string) (identifier : string) : bool :=
  match patterns with
  | [] => true
  | _ =>
      let name := Str.ToLower (Str.TrimSuffix identifier ".") in
      existsb (fun p => let pat := Str.ToLower (Str.TrimSpace p) in
                        if str_is pat "" then false else path_matches pat name) patterns
  end.

Definition normal_pattern (raw : string) : string :=
  Str.ToLower (Str.TrimSuffix (Str.TrimSpace raw) ".").

(** The loop of normalizeDomainPatterns; [out] doubles as the set seen. *)
Fixpoint normalize_loop (l out : list string) : result error (list string) :=
  match l with
  | [] => Ok out
  | raw :: l' =>
      let p := normal_pattern raw in
      if str_is p "" || existsb (str_is p) out then normalize_loop l' out
      else match Glob.Match p "" with
        | None => Err (Wrapf (Str.Sprintf "allowed domain %q is not a valid pattern" [Str.AStr raw]) (Sentinel "syntax error in pattern"))
        | Some _ =>
            if str_is (Str.Trim p "*?.") ""
            then Err (Errorf (Str.Sprintf "allowed domain %q matches every hostname; to allow any domain, say so explicitly instead" [Str.AStr raw]))
            else normalize_loop l' (out ++ [p])
        end
  end.
Definition normalizeDomainPatterns (l : list string) : result error (list string) := normalize_loop l [].

Definition describeDomains (domains : list string) : string :=
  match domains with [] => "ANY (unrestricted)" | _ => Str.Join domains "," end.

(** ** What a valid identifier is *)

(** A hostname label. *)
Definition good_label (l : string) : Prop :=
  1 <= String.length l <= 63 /\ first_char l <> "-"%char /\ last_char l <> "-"%char /\
  all_chars label_char l = true.

Definition dotted (labels : list string) : string := Str.Join labels ".".

(** A hostname of good labels, or "*." before one of at least two labels. *)
Inductive dns_name : string -> Prop :=
| dns_plain labels : labels <> [] -> Forall good_label labels -> dns_name (dotted labels)
| dns_wildcard labels : 2 <= length labels -> Forall good_label labels ->
    dns_name ("*." +:+ dotted labels)%go.

End Policy.

(** ** Facts on strings *)

Section string_facts.
Lemma Join_Split s c : Str.Join (Str.Split s c) (String c "") = s.
Proof.
  induction s as [| d s IH]; [done |]. simpl. destruct (Ascii.eqb_spec d c) as [-> | Hd].
  - destruct (Str.Split s c) as [| p ps] eqn:E; [by destruct s; simpl in E; repeat case_match |].
    simpl in *. by rewrite IH.
  - destruct (Str.Split s c) as [| p ps] eqn:E; [by destruct s; simpl in E; repeat case_match |].
    destruct ps; simpl in *; by rewrite <- IH.
Qed.

Lemma Split_nonempty s c : Str.Split s c <> [].
Proof. destruct s as [| d s]; simpl; [done |]. repeat case_match; done. Qed.

Definition no_char (c : ascii) (s : string) : bool := Policy.all_chars (fun d => negb (Ascii.eqb d c)) s.

Lemma Split_app_sep l c s :
  no_char c l = true -> Str.Split (l +:+ String c s)%go c = l :: Str.Split s c.
Proof.
  induction l as [| d l IH]; intros Hl; simpl in *; [by rewrite Ascii.eqb_refl |].
  apply andb_true_iff in Hl as [Hd Hl]. apply negb_true_iff in Hd. by rewrite Hd, (IH Hl).
Qed.

Lemma Split_no_sep l c : no_char c l = true -> Str.Split l c = [l].
Proof.
  induction l as [| d l IH]; intros Hl; simpl in *; [done |].
  apply andb_true_iff in Hl as [Hd Hl]. apply negb_true_iff in Hd. by rewrite Hd, (IH Hl).
Qed.

Lemma Split_Join labels c :
  labels <> [] -> Forall (fun l => no_char c l = true) labels ->
  Str.Split (Str.Join labels (String c "")) c = labels.
Proof.
  intros Hne Hl. induction Hl as [| l labels Hl Hls IH]; [done |].
  destruct labels as [| l2 labels]; [by apply Split_no_sep |].
  change (Str.Join (l :: l2 :: labels) (String c "")) with (l +:+ String c (Str.Join (l2 :: labels) (String c "")))%go.
  rewrite Split_app_sep by done. by rewrite IH.
Qed.

Lemma CutPrefix_spec s p r ok :
  Str.CutPrefix s p = (r, ok) -> (ok = true /\ s = (p +:+ r)%go) \/ (ok = false /\ r = s).
Proof.
  revert s r ok. induction p as [| c p IH]; intros s r ok; destruct s as [| d s]; simpl.
  - intros [= <- <-]. by left.
  - intros [= <- <-]. by left.
  - intros [= <- <-]. by right.
  - destruct (Ascii.eqb_spec c d) as [-> | _]; [| intros [= <- <-]; by right].
    destruct (Str.CutPrefix s p) as [r' ok'] eqn:E. destruct (IH _ _ _ E) as [[-> ->] | [-> _]].
    + intros [= <- <-]. by left.
    + intros [= <- <-]. by right.
Qed.

Lemma CutPrefix_app p s : Str.CutPrefix (p +:+ s)%go p = (s, true).
Proof. induction p as [| c p IH]; simpl; [by destruct s | by rewrite Ascii.eqb_refl, IH]. Qed.

Lemma Contains_char s c : Str.Contains s (String c "") = negb (no_char c s).
Proof.
  unfold no_char. induction s as [| d s IH]; [done |]. simpl. rewrite IH, (Ascii.eqb_sym c d).
  destruct (Ascii.eqb d c); simpl; by destruct s.
Qed.

Lemma all_chars_weaken (p q : ascii -> bool) s :
  (forall c, p c = true -> q c = true) -> Policy.all_chars p s = true -> Policy.all_chars q s = true.
Proof.
  intros Hpq. induction s as [| c s IH]; simpl; [done |]. rewrite !andb_true_iff. intros [Hc Hs]. auto.
Qed.

Lemma no_char_app c a b : no_char c (a +:+ b)%go = no_char c a && no_char c b.
Proof. unfold no_char. induction a as [| d a IH]; simpl; [done |]. by rewrite IH, andb_assoc. Qed.

Lemma no_char_Join c labels sep :
  no_char c sep = true -> Forall (fun l => no_char c l = true) labels -> no_char c (Str.Join labels sep) = true.
Proof.
  intros Hsep. induction 1 as [| l labels Hl Hls IH]; [done |]. destruct labels as [| l2 labels]; [done |].
  change (Str.Join (l :: l2 :: labels) sep) with (l +:+ sep +:+ Str.Join (l2 :: labels) sep)%go.
  by rewrite !no_char_app, Hl, Hsep, IH.
Qed.
End string_facts.

Section policy_facts.
Context `{Pki.Std}.
Import Policy.

Lemma validLabel_ok l : validLabel l = None <-> good_label l.
Proof.
  unfold validLabel, good_label. destruct (str_is l "") eqn:E0.
  { apply str_is_eq in E0 as ->. split; [done | simpl; lia]. }
  assert (1 <= String.length l) as Hlen by (destruct l; simpl; [by rewrite str_is_refl in E0 | lia]).
  destruct (Nat.ltb_spec 63 (String.length l)) as [? | ?]; [split; [done | lia] |].
  destruct (Ascii.eqb_spec (first_char l) "-") as [? | ?]; simpl; [split; [done | tauto] |].
  destruct (Ascii.eqb_spec (last_char l) "-") as [? | ?]; simpl; [split; [done | tauto] |].
  destruct (all_chars label_char l); simpl; split; try done; try tauto. intros (_ & _ & _ & ?). done.
Qed.

Lemma first_error_None {A} (f : A -> option string) l :
  first_error f l = None <-> Forall (fun x => f x = None) l.
Proof.
  induction l as [| x l IH]; simpl; [done |]. rewrite Forall_cons, <- IH. destruct (f x); naive_solver.
Qed.

Lemma good_labels_no c labels :
  label_char c = false -> Forall good_label labels -> Forall (fun l => no_char c l = true) labels.
Proof.
  intros Hc Hls. eapply Forall_impl; [exact Hls |]. intros l (_ & _ & _ & Hl). eapply all_chars_weaken; [| exact Hl].
  intros d Hd. apply negb_true_iff, Ascii.eqb_neq. congruence.
Qed.

Lemma Split_dotted labels : labels <> [] -> Forall good_label labels -> Str.Split (dotted labels) "." = labels.
Proof. intros Hne Hl. apply Split_Join; [done |]. by apply good_labels_no. Qed.

Lemma labels_valid v : first_error validLabel (Str.Split v ".") = None <-> Forall good_label (Str.Split v ".").
Proof. rewrite first_error_None. apply Forall_iff. apply validLabel_ok. Qed.

Lemma good_labels_valid labels : Forall good_label labels -> first_error validLabel labels = None.
Proof.
  rewrite first_error_None. intros Hl. eapply Forall_impl; [exact Hl |]. intros l. apply validLabel_ok.
Qed.

Lemma dotted_no_star labels : Forall good_label labels -> no_char "*" (dotted labels) = true.
Proof. intros Hl. apply no_char_Join; [done |]. by apply good_labels_no. Qed.

Lemma valid_is_dns v :
  validDNSIdentifier v = None -> String.length v <= 253 /\ Pki.net_ParseIP v = None /\ dns_name v.
Proof.
  unfold validDNSIdentifier. destruct (Nat.ltb_spec 253 (String.length v)) as [? | Hlen]; [done |].
  destruct (Pki.net_ParseIP v) as [ip |] eqn:Hip; [done |].
  destruct (Str.CutPrefix v "*.") as [name wildcard] eqn:Hcut. rewrite Contains_char.
  destruct (no_char "*" name) eqn:Hstar; [| done]. cbn [negb].
  pose proof (Join_Split name ".") as Hjoin. pose proof (Split_nonempty name ".") as Hne.
  destruct (CutPrefix_spec _ _ _ _ Hcut) as [[-> ->] | [-> ->]]; cbn [andb].
  - destruct (Nat.ltb_spec (length (Str.Split name ".")) 2) as [? | ?]; [done |].
    rewrite labels_valid. intros Hl. repeat split; [done |].
    rewrite <- Hjoin. by apply (dns_wildcard (Str.Split name ".")).
  - rewrite labels_valid. intros Hl. repeat split; [done |].
    rewrite <- Hjoin. by apply (dns_plain (Str.Split v ".")).
Qed.

Lemma dns_is_valid v :
  String.length v <= 253 -> Pki.net_ParseIP v = None -> dns_name v -> validDNSIdentifier v = None.
Proof.
  intros Hlen Hip Hdns. unfold validDNSIdentifier.
  destruct (Nat.ltb_spec 253 (String.length v)) as [? | _]; [lia |]. rewrite Hip.
  destruct Hdns as [labels Hne Hl | labels Hn Hl].
  - destruct (Str.CutPrefix (dotted labels) "*.") as [name wildcard] eqn:Hcut.
    pose proof (dotted_no_star labels Hl) as Hs.
    destruct (CutPrefix_spec _ _ _ _ Hcut) as [[_ Heq] | [-> ->]]; [by rewrite Heq in Hs |].
    rewrite Contains_char, Hs. cbn [negb andb]. rewrite Split_dotted by done. by apply good_labels_valid.
  - rewrite CutPrefix_app, Contains_char, dotted_no_star by done. cbn [negb andb].
    rewrite Split_dotted; [| intros ->; simpl in *; lia | done].
    destruct (Nat.ltb_spec (length labels) 2) as [? | ?]; [lia | by apply good_labels_valid].
Qed.

(** an ACME identifier is accepted exactly when it is a hostname of at
    most 253 characters, of 1-63 character labels of lower-case letters,
    digits and inner hyphens, optionally below one leading "*." with at least
    two labels, and not an IP address. *)
Theorem validDNSIdentifier_spec v :
  validDNSIdentifier v = None <->
  String.length v <= 253 /\ Pki.net_ParseIP v = None /\ dns_name v.
Proof.
  split; [apply valid_is_dns |]. intros (Hlen & Hip & Hdns). by apply dns_is_valid.
Qed.

(** Nothing of a valid identifier is a space. *)
Definition dns_char (c : ascii) : bool := label_char c || Ascii.eqb c "." || Ascii.eqb c "*".

Lemma all_chars_app p a b : all_chars p (a +:+ b)%go = all_chars p a && all_chars p b.
Proof. induction a as [| c a IH]; simpl; [done |]. by rewrite IH, andb_assoc. Qed.

Lemma dotted_chars labels : Forall good_label labels -> all_chars dns_char (dotted labels) = true.
Proof.
  induction 1 as [| l labels Hl Hls IH]; [done |].
  assert (all_chars dns_char l = true) as Hc.
  { destruct Hl as (_ & _ & _ & Hl). eapply all_chars_weaken; [| exact Hl]. unfold dns_char. by intros c ->. }
  destruct labels as [| l2 labels]; [done |].
  change (dotted (l :: l2 :: labels)) with (l +:+ "." +:+ dotted (l2 :: labels))%go.
  by rewrite !all_chars_app, Hc, IH.
Qed.

Lemma dns_name_chars v : dns_name v -> all_chars dns_char v = true.
Proof.
  destruct 1 as [labels Hne Hl | labels Hn Hl]; [by apply dotted_chars |].
  rewrite all_chars_app, dotted_chars; done.
Qed.

Lemma dns_name_nonempty v : dns_name v -> v <> EmptyString.
Proof.
  destruct 1 as [labels Hne Hl | labels Hn Hl]; [| done].
  destruct Hl as [| l labels Hl Hls]; [done |]. destruct Hl as (Hlen & _).
  destruct l as [| c l]; [simpl in *; lia |]. by destruct labels.
Qed.

Lemma TrimSpace_id v : all_chars (fun c => negb (Str.is_space c)) v = true -> Str.TrimSpace v = v.
Proof.
  unfold Str.TrimSpace, Str.trim_func. intros Hv.
  replace (Str.trim_left Str.is_space v) with v.
  2: { destruct v as [| c v]; [done |]. simpl in *. by destruct (Str.is_space c). }
  induction v as [| c v IH]; [done |]. simpl in *. apply andb_true_iff in Hv as [Hc Hv].
  rewrite IH by done. destruct v; [| done]. by destruct (Str.is_space c).
Qed.

Lemma dns_char_no_space c : dns_char c = true -> negb (Str.is_space c) = true.
Proof. destruct c as [[] [] [] [] [] [] [] []]; vm_compute; done. Qed.

Lemma valid_trimmed v : validDNSIdentifier v = None -> Str.TrimSpace v = v /\ v <> EmptyString.
Proof.
  intros (_ & _ & Hd)%valid_is_dns. split; [| by apply dns_name_nonempty].
  apply TrimSpace_id. eapply all_chars_weaken; [apply dns_char_no_space | by apply dns_name_chars].
Qed.
End policy_facts.

(** ** A nonce is redeemed once *)

Section nonce_once.
Context (n : string).

(** The rows an issued nonce has. *)
Definition nonce_rows (d : db) : nat :=
  affected (fun r => str_is (AcmeNonce.nonce r) n) (rows (d AcmeNonces)).

(** What the replicas run: redemptions of [n], and any other handler that
    does not itself store [n] again. *)
Inductive replica_request :=
| Redeem
| Other {A} (q : prog world A)
    (Hq : guar (on_db (fun d d' => nonce_rows d' <= nonce_rows d)) q).

Definition serve (r : replica_request) : prog world bool :=
  match r with
  | Redeem => NonceManager.Consume n
  | Other q _ => bind q (fun _ => Ret false)
  end.

Definition won (p : prog world bool) : bool :=
  match p with Ret b => b | Act _ _ => false end.

Lemma consume_spends :
  spends (on_world (fun _ => True)) (on_world nonce_rows) Nat.b2n 0 (NonceManager.Consume n).
Proof.
  unfold NonceManager.Consume. destruct (str_is n ""); [simpl; lia |].
  apply spends_now. intros now. unfold AcmeStore.ConsumeAcmeNonce.
  apply (spends_sql (fun _ => True) nonce_rows Nat.b2n 0
    (delete AcmeNonces (AcmeStore.redeemable n now))
    (fun r => bind (match r with Ok n => Ret (Ok (Nat.eqb n 1)) | Err e => Ret (Err e) end)
                (fun r => Ret (match r with Ok ok => ok | Err _ => false end)))); [simpl; lia |].
  intros d _ _. split; [done |]. unfold nonce_rows at 1.
  rewrite delete_leaf by reflexivity. cbn [rows].
  pose proof (affected_delete_sub (AcmeStore.redeemable n now)
                (fun r => str_is (AcmeNonce.nonce r) n) (rows (d AcmeNonces))) as Hcount.
  exists (affected (AcmeStore.redeemable n now) (rows (d AcmeNonces))).
  split; [rewrite Nat.add_0_r; apply Nat.eq_le_incl, Hcount; intros x Hx; by apply andb_true_iff in Hx as [? _] |].
  cbn [fst delete].
  apply b2n_eqb_1.
Qed.

Lemma serve_spends r : spends (on_world (fun _ => True)) (on_world nonce_rows) Nat.b2n 0 (serve r).
Proof.
  destruct r as [| A q Hq]; [apply consume_spends |]. apply (spends_bind _ _ (fun _ => 0)); [| simpl; lia].
  apply spends_neutral; [| done]. eapply guar_weaken; [| exact Hq]. done.
Qed.

Lemma nonce_rows_le d : violated d = None -> nonce_rows d <= 1.
Proof.
  intros V. apply (clashes_count (clash AcmeNonces)); [| by apply violated_clashes].
  intros x y Hx Hy. apply str_is_eq in Hx, Hy. simpl. rewrite Hx, Hy. apply str_is_refl.
Qed.

(** C37. however the statements of all replicas interleave, and whatever else
    they run meanwhile, an issued nonce is redeemed by at most one request. *)
Theorem nonce_redeemed_once w w' reqs ps' :
  violated (w_db w) = None ->
  rtc pstep (w, map serve reqs) (w', ps') -> length (List.filter won ps') <= 1.
Proof.
  intros V Hrun.
  destruct (spends_pool (on_world (fun _ => True)) (on_world nonce_rows) Nat.b2n 1 w w' (map serve reqs) ps'
              (replicate (length (map serve reqs)) 0)) as [_ Hle]; [done | | | done |].
  - apply Forall2_replicate_spends. apply Forall_forall. intros p Hp.
    apply list_elem_of_fmap in Hp as (r & -> & _). apply serve_spends.
  - rewrite total_replicate_0. pose proof (nonce_rows_le _ V). unfold on_world. lia.
  - enough (length (List.filter won ps') = total (map (worth Nat.b2n) ps')) as -> by lia.
    clear. unfold total. induction ps' as [| [[|] | X f k] ps IH]; simpl; lia.
Qed.
End nonce_once.

Lemma purge_keeps n :
  guar (on_db (fun d d' => nonce_rows n d' <= nonce_rows n d)) NonceManager.Purge.
Proof.
  assert (Reflexive (fun d d' => nonce_rows n d' <= nonce_rows n d)) as HR by (intros d; lia).
  apply guar_bind; [by apply guar_now |]. intros now. apply guar_sql; [done |]. intros d _.
  unfold nonce_rows. rewrite delete_leaf by reflexivity. cbn [rows].
  unfold affected, delete_where. generalize (rows (d AcmeNonces)). intros l.
  induction l as [| r l IH]; simpl in *; [lia |].
  destruct (_ <=? now)%Z, (str_is (AcmeNonce.nonce r) n) eqn:E; simpl; rewrite ?E; simpl; lia.
Qed.

Definition one_nonce : world :=
  mkWorld (set_table AcmeNonces (mkTable [AcmeNonce.mk "abc" 100] 1) empty_db) 5 [] [] 0.
Definition two_redemptions : list (replica_request "abc") :=
  [Redeem "abc"; Redeem "abc"; Other "abc" NonceManager.Purge (purge_keeps "abc")].

(** The second request reads the clock first; the first redeems. *)
Lemma nonce_redeemed_once_witness :
  let final := schedule [1; 0; 0; 2; 1; 2] (one_nonce, map (serve "abc") two_redemptions) in
  length (List.filter won (snd final)) <= 1 /\ length (List.filter won (snd final)) = 1.
Proof.
  split; [| vm_compute; reflexivity].
  apply (nonce_redeemed_once "abc" one_nonce (fst (schedule [1; 0; 0; 2; 1; 2]
           (one_nonce, map (serve "abc") two_redemptions))) two_redemptions); [reflexivity |].
  rewrite <- surjective_pairing. apply schedule_rtc.
Defined.

(** ** Domain scopes *)

Section domain_facts.
Import Policy.

(** a credential with patterns permits exactly the names one of its
    patterns matches as a glob, in any case and with or without a final dot;
    malformed and blank patterns permit nothing. *)
Theorem domainAllowed_spec patterns identifier :
  domainAllowed patterns identifier = true <->
  patterns = [] \/
  exists p terms, p ∈ patterns /\ Str.ToLower (Str.TrimSpace p) <> EmptyString /\
    Glob.parse (Str.ToLower (Str.TrimSpace p)) = Some terms /\
    Glob.glob terms (Str.ToLower (Str.TrimSuffix identifier ".")).
Proof.
  unfold domainAllowed. destruct patterns as [| p0 ps]; [split; [by left | done] |].
  cbv zeta. rewrite existsb_exists. split.
  - intros (p & Hin & Hp). right. apply list_elem_of_In in Hin.
    destruct (str_is _ "") eqn:E; [done |]. apply str_is_ne in E.
    unfold path_matches, Glob.Match in Hp. destruct (Glob.parse _) as [ts |] eqn:Hts; [| done].
    apply Glob.match_terms_spec in Hp. by exists p, ts.
  - intros [Hnil | (p & ts & Hin & Hne & Hts & Hglob)]; [done |]. exists p.
    split; [by apply list_elem_of_In |]. rewrite (proj2 (str_is_ne _ _)) by done.
    unfold path_matches, Glob.Match. rewrite Hts. by apply Glob.match_terms_spec.
Qed.

(** What a stored pattern satisfies. *)
Definition good_pattern (p : string) : Prop :=
  p <> EmptyString /\ is_Some (Glob.parse p) /\ Str.Trim p "*?." <> EmptyString.

Lemma normalize_loop_spec l out res :
  NoDup out -> Forall good_pattern out -> normalize_loop l out = Ok res ->
  NoDup res /\ Forall good_pattern res /\ (forall p, p ∈ out -> p ∈ res) /\
  (forall raw, raw ∈ l -> normal_pattern raw = EmptyString \/ normal_pattern raw ∈ res) /\
  (forall p, p ∈ res -> p ∈ out \/ exists raw, raw ∈ l /\ p = normal_pattern raw).
Proof.
  revert out. induction l as [| raw l IH]; intros out Hnd Hgood; simpl.
  { intros [= <-]. repeat split; [done | done | done | by intros ? ?%not_elem_of_nil | by left]. }
  destruct (str_is (normal_pattern raw) "") eqn:E0.
  { intros Hres. destruct (IH out Hnd Hgood Hres) as (H1 & H2 & H3 & H4 & H5).
    apply str_is_eq in E0. repeat split; [done | done | done | |].
    - intros r [-> | Hr]%elem_of_cons; [by left | by apply H4].
    - intros p Hp. destruct (H5 p Hp) as [? | (r & Hr & ->)]; [by left | right; exists r; split; [by right | done]]. }
  simpl. destruct (existsb (str_is (normal_pattern raw)) out) eqn:E1.
  { intros Hres. destruct (IH out Hnd Hgood Hres) as (H1 & H2 & H3 & H4 & H5).
    apply existsb_exists in E1 as (q & Hq & E1). apply str_is_eq in E1. apply list_elem_of_In in Hq.
    repeat split; [done | done | done | |].
    - intros r [-> | Hr]%elem_of_cons; [right; rewrite E1; by apply H3 | by apply H4].
    - intros p Hp. destruct (H5 p Hp) as [? | (r & Hr & ->)]; [by left | right; exists r; split; [by right | done]]. }
  destruct (Glob.Match (normal_pattern raw) "") as [b |] eqn:E2; [| done].
  destruct (str_is (Str.Trim (normal_pattern raw) "*?.") "") eqn:E3; [done |].
  intros Hres. destruct (IH (out ++ [normal_pattern raw])) as (H1 & H2 & H3 & H4 & H5); [| | exact Hres |].
  - apply NoDup_app. split; [done |]. split; [| apply NoDup_singleton].
    intros x Hx ->%list_elem_of_singleton. apply not_true_iff_false in E1. apply E1.
    apply existsb_exists. eexists. split; [by apply list_elem_of_In | apply str_is_refl].
  - apply Forall_app. split; [done |]. constructor; [| done]. apply str_is_ne in E0, E3.
    split; [done |]. split; [| done]. unfold Glob.Match in E2. destruct (Glob.parse _); [eauto | done].
  - repeat split; [done | done | intros p Hp; apply H3, elem_of_app; by left | |].
    + intros r [-> | Hr]%elem_of_cons; [right; apply H3, elem_of_app; right; set_solver | by apply H4].
    + intros p Hp. destruct (H5 p Hp) as [[? | ->%list_elem_of_singleton]%elem_of_app | (r & Hr & ->)];
        [by left | right; exists raw; split; [by left | done] | right; exists r; split; [by right | done]].
Qed.

(** the domain patterns a credential is stored with are exactly the
    trimmed, lower-cased, non-blank patterns asked for, each once, every one
    of them a well-formed glob that is not made of wildcards and dots only. *)
Theorem normalizeDomainPatterns_spec l res :
  normalizeDomainPatterns l = Ok res ->
  NoDup res /\ Forall good_pattern res /\
  forall p, p ∈ res <-> p <> EmptyString /\ exists raw, raw ∈ l /\ p = normal_pattern raw.
Proof.
  intros Hres. destruct (normalize_loop_spec l [] res) as (H1 & H2 & _ & H4 & H5);
    [constructor | constructor | exact Hres |]. split; [done |]. split; [done |]. intros p. split.
  - intros Hp. split.
    + rewrite Forall_forall in H2. by destruct (H2 p Hp).
    + destruct (H5 p Hp) as [?%not_elem_of_nil | ?]; done.
  - intros [Hne (raw & Hraw & ->)]. by destruct (H4 raw Hraw).
Qed.

Lemma normalizeDomainPatterns_spec_witness :
  NoDup ["*.a.internal"; "b"]%string /\ Forall good_pattern ["*.a.internal"; "b"]%string /\
  forall p, p ∈ ["*.a.internal"; "b"]%string <->
    p <> EmptyString /\ exists raw, raw ∈ [" *.A.internal. "; "b"; ""; "B"]%string /\ p = normal_pattern raw.
Proof. exact (normalizeDomainPatterns_spec [" *.A.internal. "; "b"; ""; "B"]%string _ eq_refl). Defined.
End domain_facts.
