(* ===== verification/Setup.v ===== *)
(** * Opening the database
    (internal/store/pgrebind.go, and Open, OpenPostgres and the migrations of store.go)

    Rebind is the driver that turns "?" placeholders into PostgreSQL's numbered
    ones, Dsn the connection string, Migrate the columns an older database
    lacks.  A database is here what the migrations see of it: its tables with
    the names of their columns.  As DDL, a statement is atomic; SQLite refuses
    a column that exists, PostgreSQL's ADD COLUMN IF NOT EXISTS does nothing
    then. *)

From S2P Require Import Prelude GoStrings Effects Models Schema Sealing AcmePolicy.

Module Rebind.

Definition squote : ascii := ascii_of_nat 39.

(** The loop of rebindQuery: [n] placeholders so far. *)
Fixpoint rebind (n : Z) (inSingle inDouble : bool) (query : string) : string :=
  match query with
  | EmptyString => EmptyString
  | String ch query' =>
      if inSingle then String ch (rebind n (negb (Ascii.eqb ch squote)) inDouble query')
      else if inDouble then String ch (rebind n inSingle (negb (Ascii.eqb ch Str.dquote)) query')
      else if Ascii.eqb ch squote then String ch (rebind n true inDouble query')
      else if Ascii.eqb ch Str.dquote then String ch (rebind n inSingle true query')
      else if Ascii.eqb ch "?" then ("$" +:+ Str.itoa (n + 1) +:+ rebind (n + 1) inSingle inDouble query')%go
      else String ch (rebind n inSingle inDouble query')
  end.
Definition rebindQuery (query : string) : string :=
  if negb (Str.Contains query "?") then query else rebind 0 false false query.

(** A driver.NamedValue's value. *)
Inductive value := VBool (b : bool) | VInt64 (n : Z) | VFloat64 (text : string) | VBytes (s : string) | VString (s : string) | VTime (t : Z) | VNull.
Definition normalizeBool (v : value) : value :=
  match v with VBool b => VInt64 (if b then 1 else 0) | v => v end.
Definition normalizeBoolArgs (args : list value) : list value := map normalizeBool args.

(** rebindingConn over a connection: what is prepared, executed, queried. *)
Section conn.
Context {A B : Type} (prepare : string -> A) (exec : string -> list value -> B).
Definition Prepare (query : string) : A := prepare (rebindQuery query).
Definition ExecContext (query : string) (args : list value) : B := exec (rebindQuery query) (normalizeBoolArgs args).
End conn.

(** ** Queries as sequences of pieces *)

Inductive piece :=
| Plain (s : string)                    (* keywords, names, operators *)
| Literal (body : string)               (* between single quotes *)
| Identifier (body : string)            (* between double quotes *)
| Placeholder.

Definition wrap (q : ascii) (s : string) : string := String q (s +:+ String q "")%go.
Definition source (p : piece) : string :=
  match p with Plain s => s | Literal b => wrap squote b | Identifier b => wrap Str.dquote b | Placeholder => "?" end.
Definition well_formed (p : piece) : Prop :=
  match p with
  | Plain s => no_char squote s = true /\ no_char Str.dquote s = true /\ no_char "?" s = true
  | Literal b => no_char squote b = true
  | Identifier b => no_char Str.dquote b = true
  | Placeholder => True
  end.
Fixpoint query_of (ps : list piece) : string :=
  match ps with [] => EmptyString | p :: ps' => (source p +:+ query_of ps')%go end.
(** The placeholders numbered from [n + 1]. *)
Fixpoint numbered (n : Z) (ps : list piece) : string :=
  match ps with
  | [] => EmptyString
  | Placeholder :: ps' => ("$" +:+ Str.itoa (n + 1) +:+ numbered (n + 1) ps')%go
  | p :: ps' => (source p +:+ numbered n ps')%go
  end.

(** Every quote of the query is closed. *)
Fixpoint closed (inSingle inDouble : bool) (query : string) : bool :=
  match query with
  | EmptyString => negb inSingle && negb inDouble
  | String ch query' =>
      if inSingle then closed (negb (Ascii.eqb ch squote)) inDouble query'
      else if inDouble then closed inSingle (negb (Ascii.eqb ch Str.dquote)) query'
      else closed (Ascii.eqb ch squote) (negb (Ascii.eqb ch squote) && Ascii.eqb ch Str.dquote) query'
  end.

Lemma rebind_single n b rest : no_char squote b = true ->
  rebind n true false (b +:+ String squote rest)%go = (b +:+ String squote (rebind n false false rest))%go.
Proof.
  induction b as [| c b IH]; intros Hb; simpl in *; [done |].
  apply andb_true_iff in Hb as [Hc Hb]. rewrite Hc. by rewrite IH.
Qed.
Lemma rebind_double n b rest : no_char Str.dquote b = true ->
  rebind n false true (b +:+ String Str.dquote rest)%go = (b +:+ String Str.dquote (rebind n false false rest))%go.
Proof.
  induction b as [| c b IH]; intros Hb; simpl in *; [done |].
  apply andb_true_iff in Hb as [Hc Hb]. rewrite Hc. by rewrite IH.
Qed.
Lemma rebind_plain n s rest : no_char squote s = true -> no_char Str.dquote s = true -> no_char "?" s = true ->
  rebind n false false (s +:+ rest)%go = (s +:+ rebind n false false rest)%go.
Proof.
  induction s as [| c s IH]; intros H1 H2 H3; simpl in *; [done |].
  apply andb_true_iff in H1 as [C1 H1], H2 as [C2 H2], H3 as [C3 H3]. apply negb_true_iff in C1, C2, C3.
  rewrite C1, C2, C3. by rewrite IH.
Qed.

Lemma rebind_pieces ps n : Forall well_formed ps -> rebind n false false (query_of ps) = numbered n ps.
Proof.
  intros Hps. revert n. induction Hps as [| p ps Hp Hps IH]; intros n; [done |]. destruct p as [s | b | b |]; cbn [query_of numbered source].
  - destruct Hp as (H1 & H2 & H3). by rewrite rebind_plain, IH.
  - unfold wrap. simpl. rewrite append_assoc. simpl. by rewrite rebind_single, IH, append_assoc.
  - unfold wrap. simpl. rewrite append_assoc. simpl. by rewrite rebind_double, IH, append_assoc.
  - simpl. by rewrite IH.
Qed.

(** Without a "?" nothing is rewritten. *)
Lemma rebind_none q : no_char "?" q = true -> forall n s d, rebind n s d q = q.
Proof.
  induction q as [| c q IH]; intros Hq n s d; [done |]. simpl in *. apply andb_true_iff in Hq as [Hc Hq]. apply negb_true_iff in Hc.
  specialize (IH Hq). destruct s; [by rewrite IH |]. destruct d; [by rewrite IH |].
  destruct (Ascii.eqb c squote); [by rewrite IH |]. destruct (Ascii.eqb c Str.dquote); [by rewrite IH |]. rewrite Hc. by rewrite IH.
Qed.

Lemma rebindQuery_loop q : rebindQuery q = rebind 0 false false q.
Proof.
  unfold rebindQuery. rewrite Contains_char. destruct (no_char "?" q) eqn:E; [| done]. simpl. by rewrite rebind_none.
Qed.

Lemma pieces_of q :
  (closed false false q = true -> exists ps, Forall well_formed ps /\ query_of ps = q) /\
  (closed true false q = true -> exists b ps, no_char squote b = true /\ Forall well_formed ps /\ q = (b +:+ String squote (query_of ps))%go) /\
  (closed false true q = true -> exists b ps, no_char Str.dquote b = true /\ Forall well_formed ps /\ q = (b +:+ String Str.dquote (query_of ps))%go).
Proof.
  induction q as [| c q (IH0 & IH1 & IH2)].
  { split; [intros _; by exists [] | done]. }
  split; [| split]; intros Hc.
  - cbn [closed] in Hc. destruct (Ascii.eqb c squote) eqn:E1; [| destruct (Ascii.eqb c Str.dquote) eqn:E2]; cbn [negb andb] in Hc.
    + apply Ascii.eqb_eq in E1 as ->. destruct (IH1 Hc) as (b & ps & Hb & Hps & ->). exists (Literal b :: ps).
      split; [by apply List.Forall_cons |]. simpl. by rewrite append_assoc.
    + apply Ascii.eqb_eq in E2 as ->. destruct (IH2 Hc) as (b & ps & Hb & Hps & ->). exists (Identifier b :: ps).
      split; [by apply List.Forall_cons |]. simpl. by rewrite append_assoc.
    + destruct (IH0 Hc) as (ps & Hps & <-). destruct (Ascii.eqb c "?") eqn:E3.
      * apply Ascii.eqb_eq in E3 as ->. exists (Placeholder :: ps). by split; [apply List.Forall_cons |].
      * exists (Plain (String c "") :: ps). split; [| done]. apply List.Forall_cons; [| done]. unfold well_formed, no_char. simpl. by rewrite E1, E2, E3.
  - cbn [closed] in Hc. destruct (Ascii.eqb c squote) eqn:E1; cbn [negb] in Hc.
    + apply Ascii.eqb_eq in E1 as ->. destruct (IH0 Hc) as (ps & Hps & <-). by exists EmptyString, ps.
    + destruct (IH1 Hc) as (b & ps & Hb & Hps & ->). exists (String c b), ps. unfold no_char in *. simpl. by rewrite E1, Hb.
  - cbn [closed] in Hc. destruct (Ascii.eqb c Str.dquote) eqn:E1; cbn [negb] in Hc.
    + apply Ascii.eqb_eq in E1 as ->. destruct (IH0 Hc) as (ps & Hps & <-). by exists EmptyString, ps.
    + destruct (IH2 Hc) as (b & ps & Hb & Hps & ->). exists (String c b), ps. unfold no_char in *. simpl. by rewrite E1, Hb.
Qed.

(** C29.  A query whose quotes are closed is a sequence of pieces, literals and
    quoted names among them, and what PostgreSQL is sent is that sequence with
    the k-th placeholder, and nothing else, replaced by $k. *)
Theorem rebind_numbers_placeholders q :
  closed false false q = true ->
  exists ps, Forall well_formed ps /\ query_of ps = q /\ rebindQuery q = numbered 0 ps.
Proof.
  intros Hq. destruct (proj1 (pieces_of q) Hq) as (ps & Hps & <-). exists ps. split; [done |]. split; [done |].
  by rewrite rebindQuery_loop, rebind_pieces.
Qed.

Definition sample_query : string := "UPDATE users SET role = ? WHERE username = 'it''s ?' AND id = ?".
Lemma rebind_numbers_placeholders_witness :
  rebindQuery sample_query = "UPDATE users SET role = $1 WHERE username = 'it''s ?' AND id = $2"%string /\
  exists ps, Forall well_formed ps /\ query_of ps = sample_query /\ rebindQuery sample_query = numbered 0 ps.
Proof. split; [vm_compute; reflexivity |]. apply (rebind_numbers_placeholders sample_query). vm_compute. reflexivity. Defined.

(** Comments are no pieces of their own: an apostrophe in one hides what
    follows. *)
Example comment_hides_placeholders : rebindQuery "SELECT 1 -- it's
WHERE a = ?" = "SELECT 1 -- it's
WHERE a = ?"%string.
Proof. vm_compute. reflexivity. Qed.

Lemma normalized_twice args : normalizeBoolArgs (normalizeBoolArgs args) = normalizeBoolArgs args.
Proof. unfold normalizeBoolArgs. rewrite map_map. apply map_ext. by intros []. Qed.
End Rebind.

Module Dsn.

Record PostgresParams := mkParams {
  Host : string; Port : Z; Name : string; User : string; Password : string; SSLMode : string }.

Definition with_defaults (p : PostgresParams) : PostgresParams :=
  mkParams (Host p) (if (Port p =? 0)%Z then 5432 else Port p) (Name p) (User p) (Password p)
    (if str_is (SSLMode p) "" then "require" else SSLMode p)%string.

Definition bs : string := String Str.backslash "".
Definition sq : string := String Rebind.squote "".
Definition q (v : string) : string :=
  let v := Str.ReplaceAll v bs (bs +:+ bs)%go in
  let v := Str.ReplaceAll v sq (bs +:+ sq)%go in
  (sq +:+ v +:+ sq)%go.
Definition postgresDSN (p : PostgresParams) : string :=
  Str.Sprintf "host=%s port=%d dbname=%s user=%s password=%s sslmode=%s"
    [Str.AStr (q (Host p)); Str.AInt (Port p); Str.AStr (q (Name p)); Str.AStr (q (User p)); Str.AStr (q (Password p)); Str.AStr (q (SSLMode p))].

(** The path an opened store reports. *)
Definition summary (p : PostgresParams) : string :=
  Str.Sprintf "postgres://%s@%s:%d/%s?sslmode=%s"
    [Str.AStr (User p); Str.AStr (Host p); Str.AInt (Port p); Str.AStr (Name p); Str.AStr (SSLMode p)].

(** ** Reading a connection string
    (the rule of libpq's documentation: settings are separated by spaces; a
    value in single quotes ends at the next single quote; in it a backslash
    stands for the character after it) *)

Fixpoint read_quoted (s : string) : option (string * string) :=
  match s with
  | EmptyString => None
  | String c s1 =>
      if Ascii.eqb c Rebind.squote then Some (EmptyString, s1)
      else if Ascii.eqb c Str.backslash then
        match s1 with
        | String d s2 => match read_quoted s2 with Some (v, rest) => Some (String d v, rest) | None => None end
        | EmptyString => None
        end
      else match read_quoted s1 with Some (v, rest) => Some (String c v, rest) | None => None end
  end.
Fixpoint read_bare (s : string) : string * string :=
  match s with
  | EmptyString => (EmptyString, EmptyString)
  | String c s1 => if Ascii.eqb c " " then (EmptyString, s) else let (v, rest) := read_bare s1 in (String c v, rest)
  end.
Fixpoint read_key (s : string) : option (string * string) :=
  match s with
  | EmptyString => None
  | String c s1 => if Ascii.eqb c "=" then Some (EmptyString, s1)
                   else match read_key s1 with Some (k, rest) => Some (String c k, rest) | None => None end
  end.
Definition read_setting (s : string) : option ((string * string) * string) :=
  k ← read_key (Str.trim_left (Ascii.eqb " ") s);
  match snd k with
  | String c s1 => if Ascii.eqb c Rebind.squote then v ← read_quoted s1; Some ((fst k, fst v), snd v)
                   else let (v, rest) := read_bare (snd k) in Some ((fst k, v), rest)
  | EmptyString => Some ((fst k, EmptyString), EmptyString)
  end.
Fixpoint read_settings (fuel : nat) (s : string) : option (list (string * string)) :=
  match fuel with
  | 0 => None
  | S fuel' => if str_is (Str.trim_left (Ascii.eqb " ") s) "" then Some []
               else r ← read_setting s; rest ← read_settings fuel' (snd r); Some (fst r :: rest)
  end.

Fixpoint escape (v : string) : string :=
  match v with
  | EmptyString => EmptyString
  | String c v' =>
      if Ascii.eqb c Str.backslash || Ascii.eqb c Rebind.squote then String Str.backslash (String c (escape v')) else String c (escape v')
  end.

Lemma replace_char c new s :
  Str.ReplaceAll s (String c "") new =
  match s with
  | EmptyString => EmptyString
  | String d s' => if Ascii.eqb c d then (new +:+ Str.ReplaceAll s' (String c "") new)%go else String d (Str.ReplaceAll s' (String c "") new)
  end.
Proof. destruct s as [| d s]; [done |]. unfold Str.ReplaceAll. simpl. by destruct (Ascii.eqb c d), s. Qed.

Lemma q_escapes v : q v = (sq +:+ escape v +:+ sq)%go.
Proof.
  unfold q. cbv zeta. f_equal. f_equal. induction v as [| c v IH]; [done |]. unfold bs in *. rewrite replace_char.
  cbn [escape]. rewrite (Ascii.eqb_sym c Str.backslash). destruct (Ascii.eqb Str.backslash c) eqn:E.
  - apply Ascii.eqb_eq in E as <-. cbn [orb]. change (String Str.backslash "" +:+ String Str.backslash "")%go with (String Str.backslash (String Str.backslash "")).
    change (String Str.backslash (String Str.backslash "") +:+ ?x)%go with (String Str.backslash (String Str.backslash x)).
    unfold sq at 1. rewrite replace_char. change (Ascii.eqb Rebind.squote Str.backslash) with false. cbn iota. f_equal.
    rewrite replace_char. change (Ascii.eqb Rebind.squote Str.backslash) with false. cbn iota. f_equal. exact IH.
  - cbn [orb]. unfold sq at 1. rewrite replace_char. rewrite (Ascii.eqb_sym c Rebind.squote). destruct (Ascii.eqb Rebind.squote c) eqn:E2.
    + apply Ascii.eqb_eq in E2 as <-. simpl. f_equal. f_equal. exact IH.
    + f_equal. exact IH.
Qed.

Lemma read_escaped v rest : read_quoted (escape v +:+ String Rebind.squote rest)%go = Some (v, rest).
Proof.
  induction v as [| c v IH]; [done |]. cbn [escape]. destruct (Ascii.eqb c Str.backslash || Ascii.eqb c Rebind.squote) eqn:E.
  - simpl. by rewrite IH.
  - apply orb_false_iff in E as [E1 E2]. simpl. rewrite E1, E2. by rewrite IH.
Qed.

Lemma read_value_quoted k v rest : no_char "=" k = true -> no_char " " k = true -> k <> "" ->
  read_setting (k +:+ "=" +:+ q v +:+ rest)%go = Some ((k, v), rest) /\
  read_setting (" " +:+ k +:+ "=" +:+ q v +:+ rest)%go = Some ((k, v), rest).
Proof.
  intros Hk Hs Hne.
  assert (forall x, no_char "=" k = true -> read_key (k +:+ String "=" x)%go = Some (k, x)) as Hkey.
  { clear. intros x. induction k as [| c k IH]; intros Hk; [done |]. simpl in *. apply andb_true_iff in Hk as [Hc Hk].
    apply negb_true_iff in Hc. by rewrite Hc, IH. }
  assert (forall x, Str.trim_left (Ascii.eqb " ") (k +:+ x)%go = (k +:+ x)%go) as Htrim.
  { intros x. destruct k as [| c k]; [done |]. unfold no_char in Hs. cbn [Policy.all_chars String.append Str.trim_left] in Hs |- *.
    apply andb_true_iff in Hs as [Hc _]. apply negb_true_iff in Hc. by rewrite Ascii.eqb_sym, Hc. }
  assert (forall s, Str.trim_left (Ascii.eqb " ") s = (k +:+ "=" +:+ q v +:+ rest)%go -> read_setting s = Some ((k, v), rest)) as Hset.
  { intros s Hs'. unfold read_setting. rewrite Hs'. change ("=" +:+ ?x)%go with (String "=" x). rewrite Hkey by done. cbn [mbind option_bind fst snd].
    rewrite q_escapes. unfold sq at 1. simpl. rewrite append_assoc. change (sq +:+ rest)%go with (String Rebind.squote rest). by rewrite read_escaped. }
  split; apply Hset; [apply Htrim |]. change (" " +:+ ?x)%go with (String " " x). simpl. apply Htrim.
Qed.

(** A number has neither a space nor a quote. *)
Definition bare (c : ascii) : bool := negb (Ascii.eqb c " ") && negb (Ascii.eqb c Rebind.squote).

Lemma pretty_go_bare x s : Policy.all_chars bare s = true -> Policy.all_chars bare (pretty_N_go x s) = true.
Proof.
  revert s. induction (N.lt_wf_0 x) as [x _ IH]. intros s Hs. destruct (decide (0 < x)%N) as [Hx | Hx].
  - rewrite pretty_N_go_step by done. apply IH; [by apply N.div_lt |]. simpl. rewrite Hs.
    pose proof (N.mod_lt x 10 ltac:(done)) as Hm. unfold pretty_N_char. by repeat case_match.
  - assert (x = 0)%N as -> by lia. by rewrite pretty_N_go_0.
Qed.
Lemma itoa_bare n : Policy.all_chars bare (Str.itoa n) = true /\ Str.itoa n <> "".
Proof.
  assert (forall x : N, Policy.all_chars bare (pretty x) = true /\ pretty x <> "") as HN.
  { intros x. unfold pretty, pretty_N. case_decide; [done |]. split; [by apply pretty_go_bare |].
    rewrite pretty_N_go_step by lia. assert (forall y s, s <> "" -> pretty_N_go y s <> "") as Hne; [| by apply Hne].
    intros y. induction (N.lt_wf_0 y) as [y _ IH]. intros s Hs. destruct (decide (0 < y)%N); [rewrite pretty_N_go_step by done; apply IH; [by apply N.div_lt | done] |].
    assert (y = 0)%N as -> by lia. by rewrite pretty_N_go_0. }
  unfold Str.itoa. destruct n as [| p | p]; [done | apply HN |]. split; [| done]. change (pretty (Z.neg p)) with (String "-" (pretty (N.pos p))). cbn [Policy.all_chars].
  by rewrite (proj1 (HN (N.pos p))).
Qed.

Lemma read_bare_app v rest : Policy.all_chars bare v = true -> read_bare (v +:+ String " " rest)%go = (v, String " " rest).
Proof.
  induction v as [| c v IH]; intros Hv; [done |]. cbn [Policy.all_chars] in Hv. apply andb_true_iff in Hv as [Hc Hv]. unfold bare in Hc.
  apply andb_true_iff in Hc as [Hc _]. apply negb_true_iff in Hc. cbn [read_bare String.append]. by rewrite Hc, IH.
Qed.


Lemma read_port n rest :
  read_setting (" port=" +:+ Str.itoa n +:+ String " " rest)%go = Some (("port"%string, Str.itoa n), String " " rest).
Proof.
  destruct (itoa_bare n) as [Hb Hne]. unfold read_setting. change (Str.trim_left (Ascii.eqb " ") (" port=" +:+ ?x)%go) with ("port=" +:+ x)%go.
  change (read_key ("port=" +:+ ?x)%go) with (Some ("port"%string, x)). cbn [mbind option_bind fst snd].
  rewrite (read_bare_app _ rest Hb). destruct (Str.itoa n) as [| c v]; [done |]. cbn [Policy.all_chars] in Hb.
  apply andb_true_iff in Hb as [Hc _]. unfold bare in Hc. apply andb_true_iff in Hc as [_ Hc]. apply negb_true_iff in Hc.
  cbn [String.append]. by rewrite Hc.
Qed.

(** One more setting. *)
Lemma read_step fuel s kv rest :
  read_setting s = Some (kv, rest) -> Str.trim_left (Ascii.eqb " ") s <> "" ->
  read_settings (S fuel) s = (r ← read_settings fuel rest; Some (kv :: r)).
Proof. intros Hs Ht. cbn [read_settings]. rewrite (proj2 (str_is_ne _ _) Ht), Hs. done. Qed.

(** Whatever the host, the names and the password hold (spaces, quotes,
    backslashes, settings of their own), a connection string is read as
    exactly the six settings it was made of. *)
Theorem dsn_roundtrip p :
  read_settings 7 (postgresDSN p) =
  Some [("host", Host p); ("port", Str.itoa (Port p)); ("dbname", Name p); ("user", User p); ("password", Password p); ("sslmode", SSLMode p)]%string.
Proof.
  assert (postgresDSN p = ("host" +:+ "=" +:+ q (Host p) +:+ " port=" +:+ Str.itoa (Port p) +:+ String " " ("dbname" +:+ "=" +:+ q (Name p)
    +:+ " " +:+ "user" +:+ "=" +:+ q (User p) +:+ " " +:+ "password" +:+ "=" +:+ q (Password p) +:+ " " +:+ "sslmode" +:+ "=" +:+ q (SSLMode p) +:+ ""))%go) as ->
    by reflexivity.
  rewrite (read_step 6 _ _ _ (proj1 (read_value_quoted "host" (Host p) _ eq_refl eq_refl ltac:(done)))) by done.
  rewrite (read_step 5 _ _ _ (read_port (Port p) _)) by done.
  change (String " " ("dbname" +:+ ?x)%go) with (" " +:+ "dbname" +:+ x)%go.
  rewrite (read_step 4 _ _ _ (proj2 (read_value_quoted "dbname" (Name p) _ eq_refl eq_refl ltac:(done)))) by done.
  rewrite (read_step 3 _ _ _ (proj2 (read_value_quoted "user" (User p) _ eq_refl eq_refl ltac:(done)))) by done.
  rewrite (read_step 2 _ _ _ (proj2 (read_value_quoted "password" (Password p) _ eq_refl eq_refl ltac:(done)))) by done.
  rewrite (read_step 1 _ _ _ (proj2 (read_value_quoted "sslmode" (SSLMode p) _ eq_refl eq_refl ltac:(done)))) by done.
  reflexivity.
Qed.
End Dsn.

(** ** Columns introduced after the first release *)

Module Migrate.

Open Scope prog_scope.

(** The tables of a database with their columns, and how many of the next
    statements the driver answers before it fails one. *)
Record Db := mkDb { tables : gmap string (list string); failures : list (option string) }.
Abbreviation DbM := (fun A => prog Db (result error A)).

Definition answer {A} (f : gmap string (list string) -> result error (A * gmap string (list string))) (d : Db) : result error A * Db :=
  match failures d with
  | Some m :: fs => (Err (Driver m), mkDb (tables d) fs)
  | fs => match f (tables d) with
          | Ok (a, t) => (Ok a, mkDb t (tail fs))
          | Err e => (Err e, mkDb (tables d) (tail fs))
          end
  end.
Definition statement {A} (f : gmap string (list string) -> result error (A * gmap string (list string))) : DbM A := act (answer f).

Record column := mkColumn { table : string; name : string; ddl : string; pgDDL : string }.

Definition addedColumns : list column :=
  [mkColumn "cas" "csr_pem" "TEXT NOT NULL DEFAULT ''" "";
   mkColumn "cas" "external" "INTEGER NOT NULL DEFAULT 0" "";
   mkColumn "cas" "subject_key_id" "TEXT NOT NULL DEFAULT ''" "";
   mkColumn "cas" "authority_key_id" "TEXT NOT NULL DEFAULT ''" "";
   mkColumn "certificates" "renewed_from" "INTEGER" "";
   mkColumn "secret_bindings" "k8s_auth_method" "TEXT NOT NULL DEFAULT '*'" "";
   mkColumn "acme_orders" "not_after" "TIMESTAMP" "TIMESTAMPTZ"].

(** The text of ALTER TABLE on either database. *)
Definition alter_sqlite (c : column) : string :=
  Str.Sprintf "ALTER TABLE %s ADD COLUMN %s %s" [Str.AStr (table c); Str.AStr (name c); Str.AStr (ddl c)].
Definition alter_postgres (c : column) : string :=
  Str.Sprintf "ALTER TABLE %s ADD COLUMN IF NOT EXISTS %s %s"
    [Str.AStr (table c); Str.AStr (name c); Str.AStr (if str_is (pgDDL c) "" then ddl c else pgDDL c)].

Definition has (cols : list string) (c : string) : bool := existsb (fun d => Str.EqualFold d c) cols.

(** PRAGMA table_info: no rows for a table that does not exist. *)
Definition hasColumn (t c : string) : DbM bool :=
  cols <-! statement (fun ts => Ok (default [] (ts !! t), ts)) ;;
  Ret (Ok (has cols c)).

(** ALTER TABLE t ADD COLUMN, with or without IF NOT EXISTS. *)
Definition add_column (if_not_exists : bool) (t c : string) (ts : gmap string (list string))
    : result error (unit * gmap string (list string)) :=
  match ts !! t with
  | None => Err (Driver ("no such table: " +:+ t)%go)
  | Some cols =>
      if has cols c then
        if if_not_exists then Ok (tt, ts) else Err (Driver ("duplicate column name: " +:+ c)%go)
      else Ok (tt, <[t := cols ++ [c]]> ts)
  end.

Definition add_error (c : column) (e : error) : error :=
  Wrapf (Str.Sprintf "add %s.%s" [Str.AStr (table c); Str.AStr (name c)]) e.
Definition or_add_error (c : column) (p : DbM unit) : DbM unit :=
  r <- p ;; Ret (match r with Ok a => Ok a | Err e => Err (add_error c e) end).

Definition migrate_column (c : column) : DbM unit :=
  present <-! hasColumn (table c) (name c) ;;
  if (present : bool) then Ret (Ok tt)
  else or_add_error c (statement (add_column false (table c) (name c))).

Fixpoint each (step : column -> DbM unit) (cs : list column) : DbM unit :=
  match cs with
  | [] => Ret (Ok tt)
  | c :: cs' => _ <-! step c ;; each step cs'
  end.

Definition migrate : DbM unit := each migrate_column addedColumns.

Definition migrate_postgres_column (c : column) : DbM unit :=
  or_add_error c (statement (add_column true (table c) (name c))).
Definition migratePostgres : DbM unit := each migrate_postgres_column addedColumns.

(** The statements of a schema text; [exec] runs one. *)
Definition firstLine (s : string) : string := match Str.Index s (String "010" "") with Some i => take_s i s | None => s end.
Definition statements (schema : string) : list string :=
  List.filter (fun s => negb (str_is s "")) (map Str.TrimSpace (Str.Split schema ";")).
Fixpoint exec_each (exec : string -> DbM unit) (stmts : list string) : DbM unit :=
  match stmts with
  | [] => Ret (Ok tt)
  | s :: stmts' =>
      r <- exec s ;;
      match r with Err e => Ret (Err (Wrapf (firstLine s) e)) | Ok _ => exec_each exec stmts' end
  end.
Definition execStatements (exec : string -> DbM unit) (schema : string) : DbM unit := exec_each exec (statements schema).

(** ** What migrating achieves *)

Definition unique (cols : list string) : Prop := NoDup (map Str.ToLower cols).
(** No statement is going to fail, the tables are there, and no table names a
    column twice. *)
Definition ready (d : Db) : Prop :=
  failures d = [] /\ (forall c, c ∈ addedColumns -> is_Some (tables d !! table c)) /\
  (forall t cols, tables d !! t = Some cols -> unique cols).
(** Tables only gain columns, at the end. *)
Definition grows (d d' : Db) : Prop :=
  forall t cols, tables d !! t = Some cols -> exists more, tables d' !! t = Some (cols ++ more).
Definition present (d : Db) (c : column) : Prop := exists cols, tables d !! table c = Some cols /\ has cols (name c) = true.

#[global] Instance grows_refl : Reflexive grows.
Proof. intros d t cols Ht. exists []. by rewrite app_nil_r. Qed.
#[global] Instance grows_trans : Transitive grows.
Proof.
  intros d1 d2 d3 H12 H23 t cols Ht. destruct (H12 t cols Ht) as [m1 H1]. destruct (H23 t _ H1) as [m2 H2].
  exists (m1 ++ m2). by rewrite app_assoc.
Qed.

Lemma grows_same d d' : tables d' = tables d -> grows d d'.
Proof. intros He t cols Ht. exists []. by rewrite app_nil_r, He. Qed.

Lemma present_grows d d' c : grows d d' -> present d c -> present d' c.
Proof.
  intros Hg (cols & Ht & Hc). destruct (Hg _ _ Ht) as [more Hm]. exists (cols ++ more). split; [done |].
  unfold has in *. by rewrite existsb_app, Hc.
Qed.

Lemma present_has d c : has (default [] (tables d !! table c)) (name c) = true -> present d c.
Proof. unfold present. destruct (tables d !! table c) as [cols |]; [by eexists | done]. Qed.

Lemma all_present d cs :
  forallb (fun c => has (default [] (tables d !! table c)) (name c)) cs = true -> Forall (present d) cs.
Proof. intros Hb. apply Forall_forall. intros c Hc%list_elem_of_In. apply present_has. exact (proj1 (forallb_forall _ _) Hb c Hc). Qed.

Lemma has_spec cols c : has cols c = true <-> Str.ToLower c ∈ map Str.ToLower cols.
Proof.
  unfold has. rewrite existsb_exists. split.
  - intros (d & Hd & He%String.eqb_eq). rewrite <- He. apply list_elem_of_In, in_map, Hd.
  - intros Hc%list_elem_of_In%in_map_iff. destruct Hc as (d & He & Hd). exists d. split; [done |]. by apply String.eqb_eq.
Qed.

Lemma unique_snoc cols c : unique cols -> has cols c = false -> unique (cols ++ [c]).
Proof.
  intros Hu Hc. unfold unique. rewrite map_app. apply NoDup_app. split; [done |]. split; [| apply NoDup_singleton].
  intros x Hx Hx2%list_elem_of_singleton. subst x. apply has_spec in Hx. congruence.
Qed.

Lemma answer_ready {A} (f : gmap string (list string) -> result error (A * gmap string (list string))) d :
  ready d ->
  answer f d = match f (tables d) with Ok (a, t) => (Ok a, mkDb t []) | Err e => (Err e, mkDb (tables d) []) end.
Proof. intros (Hf & _). unfold answer. rewrite Hf. by destruct (f (tables d)) as [[a t] |]. Qed.

(** One ALTER TABLE in a database that is ready. *)
Lemma add_column_ready b c d :
  ready d -> c ∈ addedColumns -> (b = false -> has (default [] (tables d !! table c)) (name c) = false) ->
  exists ts, add_column b (table c) (name c) (tables d) = Ok (tt, ts) /\ ready (mkDb ts []) /\ grows d (mkDb ts []) /\ present (mkDb ts []) c.
Proof.
  intros (Hf & Ht & Hu) Hc Hb. destruct (Ht c Hc) as [cols Hcols]. unfold add_column. rewrite Hcols in *. simpl in Hb.
  destruct (has cols (name c)) eqn:Hh.
  - destruct b; [| by specialize (Hb eq_refl)]. exists (tables d). split; [done |].
    split; [by split |]. split; [by apply grows_same |]. by exists cols.
  - eexists. split; [done |]. split; [split; [done |]; split | split].
    + intros c' Hc'. cbn [tables]. destruct (decide (table c = table c')) as [<- | Hne]; [rewrite lookup_insert_eq; by eexists | rewrite lookup_insert_ne by done; by apply Ht].
    + intros t cols' Hcols'. cbn [tables] in Hcols'. destruct (decide (table c = t)) as [<- | Hne].
      * rewrite lookup_insert_eq in Hcols'. injection Hcols' as <-. apply unique_snoc; [by eapply Hu | done].
      * rewrite lookup_insert_ne in Hcols' by done. by eapply Hu.
    + intros t cols' Hcols'. cbn [tables]. destruct (decide (table c = t)) as [<- | Hne].
      * rewrite lookup_insert_eq. rewrite Hcols in Hcols'. injection Hcols' as <-. by exists [name c].
      * rewrite lookup_insert_ne by done. exists []. by rewrite app_nil_r.
    + exists (cols ++ [name c]). cbn [tables]. rewrite lookup_insert_eq. split; [done |]. unfold has. rewrite existsb_app.
      simpl. unfold Str.EqualFold. by rewrite String.eqb_refl, orb_true_r.
Qed.

Lemma add_column_dom b t c ts ts' u : add_column b t c ts = Ok (tt, ts') -> is_Some (ts' !! u) -> is_Some (ts !! u).
Proof.
  unfold add_column. destruct (ts !! t) as [cols |] eqn:Ht; [| done].
  destruct (has cols c); [destruct b; intros He; simplify_eq; done |]. intros He. simplify_eq.
  destruct (decide (t = u)) as [<- | Hne]; [by rewrite Ht | by rewrite lookup_insert_ne].
Qed.

(** *** A step for each of the columns *)

Lemma each_always step cs : (forall c, c ∈ cs -> always ready grows (step c)) -> always ready grows (each step cs).
Proof.
  induction cs as [| c cs IH]; simpl; intros Hs; [done |]. apply always_then; [apply Hs; set_solver |].
  intros [? | ?]; [| done]. apply IH. intros c' Hc'. apply Hs. set_solver.
Qed.

Lemma each_rely step cs s :
  (forall c, c ∈ cs -> always ready grows (step c)) ->
  (forall c s, c ∈ cs -> rely ready grows (fun r s' => r = Ok tt /\ present s' c) (step c) s) ->
  rely ready grows (fun r s' => r = Ok tt /\ Forall (present s') cs) (each step cs) s.
Proof.
  revert s. induction cs as [| c cs IH]; simpl; intros s Ha Hr; [by split |].
  apply rely_bind. eapply rely_mono; [apply Hr; set_solver |]. intros r s1 (-> & Hp).
  eapply rely_mono; [apply rely_since; [apply _ | apply _ | |] |].
  - apply each_always. intros c' Hc'. apply Ha. set_solver.
  - apply IH; intros; [apply Ha | apply Hr]; set_solver.
  - intros r s2 ((-> & Hps) & Hg). split; [done |]. constructor; [by eapply present_grows | done].
Qed.

Lemma add_column_if_missing c :
  c ∈ addedColumns ->
  always ready grows (migrate_postgres_column c) /\
  (forall s, rely ready grows (fun r s' => r = Ok tt /\ present s' c) (migrate_postgres_column c) s).
Proof.
  intros Hc.
  assert (forall s, ready s -> exists ts, answer (add_column true (table c) (name c)) s = (Ok tt, mkDb ts []) /\
    ready (mkDb ts []) /\ grows s (mkDb ts []) /\ present (mkDb ts []) c) as Hstep.
  { intros s Hs. destruct (add_column_ready true c s Hs Hc ltac:(done)) as (ts & He & Hts). exists ts.
    by rewrite answer_ready, He. }
  split.
  - intros s Hs. destruct (Hstep s Hs) as (ts & He & Hr & Hg & _). cbn. by rewrite He.
  - intros s0 s H0s Hs. destruct (Hstep s Hs) as (ts & He & Hr & Hg & Hp). cbn. by rewrite He.
Qed.

Definition finished {A} (p : prog Db A) : option A := match p with Ret a => Some a | Act _ _ => None end.

(** Any number of servers opening one PostgreSQL database, whatever way
    their statements interleave: every one that finishes has succeeded and
    found all of the columns, no table names a column twice, and tables only
    gained columns. *)
Theorem postgres_migrations_interleave d d' (ps : list (prog Db (result error unit))) n :
  ready d ->
  rtc pstep (d, replicate n migratePostgres) (d', ps) ->
  grows d d' /\ ready d' /\
  (forall r, r ∈ omap finished ps -> r = Ok tt /\ Forall (present d') addedColumns).
Proof.
  intros Hd Hsteps.
  assert (Forall (always ready grows) (replicate n migratePostgres)) as Ha.
  { apply Forall_replicate, each_always. intros c Hc. by apply add_column_if_missing. }
  destruct (always_pool ready grows _ _ _ _ _ _ Hd Ha Hsteps) as [Hd' Hg].
  destruct (rely_pool ready grows (fun r s' => r = Ok tt /\ Forall (present s') addedColumns) _ _ _ _
    ltac:(intros a s s' Hss [-> Hp]; split; [done | eapply Forall_impl; [exact Hp | intros c; by apply present_grows]]) Hd Ha
    ltac:(apply Forall_replicate, each_rely; intros; by apply add_column_if_missing) Hsteps) as [_ Hps].
  split; [done |]. split; [done |]. intros r ([a | X f k] & Hp & He)%list_elem_of_omap; [| done].
  injection He as <-. rewrite Forall_forall in Hps. exact (Hps _ Hp).
Qed.

(** A database of the first release. *)
Definition first_release : Db :=
  mkDb (list_to_map (map (fun t => (t, ["id"; "name"])) ["cas"; "certificates"; "secret_bindings"; "acme_orders"]))%string [].

Lemma first_release_ready : ready first_release.
Proof.
  split; [done |]. split.
  - intros c Hc. apply list_elem_of_In in Hc. simpl in Hc. intuition subst; by eexists.
  - intros t cols Ht%elem_of_list_to_map_2. apply list_elem_of_In in Ht. simpl in Ht.
    intuition simplify_eq; apply (bool_decide_unpack _); reflexivity.
Qed.

Lemma postgres_migrations_interleave_witness :
  exists (d : Db) (ps : list (prog Db (result error unit))), ps = [Ret (Ok tt); Ret (Ok tt)] /\ grows first_release d /\ ready d /\
  (forall r, r ∈ omap finished ps -> r = Ok tt /\ Forall (present d) addedColumns).
Proof.
  exists (fst (schedule [0;1;0;1;1;0;0;0;1;1;0;1;0;1] (first_release, replicate 2 migratePostgres))),
    (snd (schedule [0;1;0;1;1;0;0;0;1;1;0;1;0;1] (first_release, replicate 2 migratePostgres))).
  split; [vm_compute; reflexivity |].
  apply (postgres_migrations_interleave _ _ _ 2 first_release_ready).
  rewrite <- surjective_pairing. apply schedule_rtc.
Defined.

(** *** SQLite: look, then add *)

#[local] Arguments has : simpl never.

Lemma ready_same d : ready d -> mkDb (tables d) [] = d.
Proof. intros (Hf & _). destruct d as [ts fs]. simpl in *. by subst. Qed.

Lemma migrate_column_runs c d :
  ready d -> c ∈ addedColumns ->
  exists d', run (migrate_column c) d = (@Ok error unit tt, d') /\ ready d' /\ grows d d' /\ present d' c.
Proof.
  intros Hd Hc. destruct (proj1 (proj2 Hd) c Hc) as [cols Hcols].
  unfold migrate_column, hasColumn. rewrite !run_bind. unfold statement. rewrite run_act, answer_ready by done. cbn.
  rewrite Hcols, (ready_same d) by done. cbn. destruct (has cols (name c)) eqn:Hh; cbn.
  - exists d. split; [done |]. split; [done |]. split; [by apply grows_same |]. by exists cols.
  - destruct (add_column_ready false c d Hd Hc) as (ts & He & Hts); [by rewrite Hcols |].
    exists (mkDb ts []). rewrite answer_ready, He by done. by split.
Qed.

Lemma migrate_column_idle c d : ready d -> present d c -> run (migrate_column c) d = (@Ok error unit tt, d).
Proof.
  intros Hd (cols & Hcols & Hh). unfold migrate_column, hasColumn. rewrite !run_bind. unfold statement.
  rewrite run_act, answer_ready by done. cbn. rewrite Hcols, (ready_same d) by done. cbn. by rewrite Hh.
Qed.

Lemma each_runs cs d :
  (forall c, c ∈ cs -> c ∈ addedColumns) -> ready d ->
  exists d', run (each migrate_column cs) d = (@Ok error unit tt, d') /\ ready d' /\ grows d d' /\ Forall (present d') cs.
Proof.
  revert d. induction cs as [| c cs IH]; intros d Hcs Hd; [by exists d |].
  destruct (migrate_column_runs c d Hd) as (d1 & He & Hd1 & Hg1 & Hp); [set_solver |].
  destruct (IH d1) as (d2 & He2 & Hd2 & Hg2 & Hp2); [set_solver | done |].
  exists d2. cbn [each]. rewrite run_bind, He. cbn. split; [done |]. split; [done |]. split; [by etrans |].
  constructor; [by eapply present_grows | done].
Qed.

Lemma each_idle cs d : ready d -> Forall (present d) cs -> run (each migrate_column cs) d = (@Ok error unit tt, d).
Proof.
  intros Hd. induction 1 as [| c cs Hp _ IH]; [done |]. cbn [each]. rewrite run_bind, migrate_column_idle by done. exact IH.
Qed.

(** Opening a SQLite database adds whatever is missing, whether it comes
    from the first release or from one in between, and opening it again
    changes nothing. *)
Theorem migrate_completes d :
  ready d ->
  exists d', run migrate d = (@Ok error unit tt, d') /\ ready d' /\ grows d d' /\ Forall (present d') addedColumns /\
  run migrate d' = (@Ok error unit tt, d').
Proof.
  intros Hd. destruct (each_runs addedColumns d ltac:(done) Hd) as (d' & He & Hd' & Hg & Hp).
  exists d'. split; [done |]. split; [done |]. split; [done |]. split; [done |]. by apply each_idle.
Qed.
Lemma migrate_completes_witness :
  exists d', run migrate first_release = (@Ok error unit tt, d') /\ ready d' /\ grows first_release d' /\ Forall (present d') addedColumns /\
  run migrate d' = (@Ok error unit tt, d').
Proof. exact (migrate_completes first_release first_release_ready). Defined.

(** Two processes opening one SQLite database of the first release can
    both find a column missing; then the second to add it fails, and does
    not start. *)
Theorem sqlite_migrations_race :
  exists d,
  rtc pstep (first_release, [migrate; migrate])
    (d, [Ret (Ok tt); Ret (Err (add_error (mkColumn "cas" "csr_pem" "TEXT NOT NULL DEFAULT ''" "") (Driver "duplicate column name: csr_pem")))]) /\
  Forall (present d) addedColumns.
Proof.
  set (turns := [0;1;0;1] ++ replicate 12 0). set (c := (first_release, [migrate; migrate])).
  exists (fst (schedule turns c)). split.
  - match goal with |- rtc _ _ (_, ?ps) => replace ps with (snd (schedule turns c)) by (vm_compute; reflexivity) end.
    rewrite <- surjective_pairing. apply schedule_rtc.
  - apply all_present. vm_compute. reflexivity.
Qed.

End Migrate.
