(* ===== verification/SchemaText.v ===== *)
(** * The text of the schema, and what the database reads in it

    [schema] and [schemaPostgres] of internal/store/store.go, line by line,
    and a reader of the statements they use: CREATE TABLE, CREATE INDEX and
    PRAGMA.  The theorems compare the two texts with one another, with the
    columns the migrations add, and with the foreign keys and tables of
    Schema.v. *)

From S2P Require Import Prelude GoStrings Effects Models Schema Sealing AcmePolicy Setup.

(** ** The two texts *)

Module Ddl.

Open Scope string_scope.

Definition LF : ascii := "010".
Definition dq : string := String (Ascii.ascii_of_nat 34) EmptyString.
Definition text (lines : list string) : string := String LF (foldr (fun l s => (l +:+ String LF s)%go) EmptyString lines).

Definition schema : string := text
  ["PRAGMA journal_mode = WAL;";
   "PRAGMA foreign_keys = ON;";
   "";
   "CREATE TABLE IF NOT EXISTS cas (";
   "  id            INTEGER PRIMARY KEY AUTOINCREMENT,";
   "  name          TEXT NOT NULL UNIQUE,";
   "  slug          TEXT NOT NULL UNIQUE,";
   "  subject       TEXT NOT NULL,";
   "  subject_json  TEXT NOT NULL DEFAULT '{}',";
   "  serial_hex    TEXT NOT NULL,";
   "  key_type      TEXT NOT NULL,";
   "  cert_pem      TEXT NOT NULL,";
   "  key_enc       TEXT NOT NULL,";
   "  is_root       INTEGER NOT NULL DEFAULT 1,";
   "  parent_id     INTEGER REFERENCES cas(id),";
   "  path_len      INTEGER NOT NULL DEFAULT 0,";
   "  not_before    TIMESTAMP NOT NULL,";
   "  not_after     TIMESTAMP NOT NULL,";
   "  status        TEXT NOT NULL DEFAULT 'active',";
   "  crl_number    INTEGER NOT NULL DEFAULT 0,";
   "  fingerprint   TEXT NOT NULL DEFAULT '',";
   "  is_default    INTEGER NOT NULL DEFAULT 0,";
   "  created_by    TEXT NOT NULL DEFAULT '',";
   "  created_at    TIMESTAMP NOT NULL,";
   "  last_crl_at   TIMESTAMP,";
   "  -- Set while a subordinate CA is waiting for an external authority (pfSense,";
   "  -- a corporate root, ...) to sign the request goca generated.";
   "  csr_pem       TEXT NOT NULL DEFAULT '',";
   "  -- 1 when the certificate came from outside goca.";
   "  external      INTEGER NOT NULL DEFAULT 0,";
   "  -- Subject key identifier, used to link an imported chain together.";
   "  subject_key_id TEXT NOT NULL DEFAULT '',";
   "  authority_key_id TEXT NOT NULL DEFAULT ''";
   ");";
   "";
   "CREATE TABLE IF NOT EXISTS certificates (";
   "  id            INTEGER PRIMARY KEY AUTOINCREMENT,";
   "  ca_id         INTEGER NOT NULL REFERENCES cas(id) ON DELETE CASCADE,";
   "  serial_hex    TEXT NOT NULL,";
   "  common_name   TEXT NOT NULL,";
   "  subject       TEXT NOT NULL,";
   "  sans_json     TEXT NOT NULL DEFAULT '[]',";
   "  profile       TEXT NOT NULL DEFAULT 'server',";
   "  key_type      TEXT NOT NULL DEFAULT '',";
   "  cert_pem      TEXT NOT NULL,";
   "  key_enc       TEXT NOT NULL DEFAULT '',";
   "  csr_pem       TEXT NOT NULL DEFAULT '',";
   "  fingerprint   TEXT NOT NULL DEFAULT '',";
   "  not_before    TIMESTAMP NOT NULL,";
   "  not_after     TIMESTAMP NOT NULL,";
   "  status        TEXT NOT NULL DEFAULT 'active',";
   "  revoked_at    TIMESTAMP,";
   "  revoke_code   INTEGER NOT NULL DEFAULT 0,";
   "  requested_by  TEXT NOT NULL DEFAULT '',";
   "  note          TEXT NOT NULL DEFAULT '',";
   "  created_at    TIMESTAMP NOT NULL,";
   "  -- Certificate this one replaced, so a rotation history can be walked.";
   "  renewed_from  INTEGER,";
   "  UNIQUE(ca_id, serial_hex)";
   ");";
   "CREATE INDEX IF NOT EXISTS idx_cert_cn ON certificates(common_name);";
   "CREATE INDEX IF NOT EXISTS idx_cert_serial ON certificates(serial_hex);";
   "CREATE INDEX IF NOT EXISTS idx_cert_status ON certificates(status);";
   "CREATE INDEX IF NOT EXISTS idx_cert_requested_by ON certificates(requested_by);";
   "";
   "-- Revoked subordinate CA certificates. A CA lives in the cas table rather than";
   "-- certificates, so retiring one needs its own record to reach the parent's CRL.";
   "CREATE TABLE IF NOT EXISTS ca_revocations (";
   "  id         INTEGER PRIMARY KEY AUTOINCREMENT,";
   "  ca_id      INTEGER NOT NULL REFERENCES cas(id) ON DELETE CASCADE, -- the issuer whose CRL lists it";
   "  serial_hex TEXT NOT NULL,";
   "  subject    TEXT NOT NULL DEFAULT '',";
   "  revoked_at TIMESTAMP NOT NULL,";
   "  reason     INTEGER NOT NULL DEFAULT 0,";
   "  UNIQUE(ca_id, serial_hex)";
   ");";
   "";
   "CREATE TABLE IF NOT EXISTS users (";
   "  id           INTEGER PRIMARY KEY AUTOINCREMENT,";
   "  username     TEXT NOT NULL UNIQUE,";
   "  source       TEXT NOT NULL DEFAULT 'local',";
   "  display_name TEXT NOT NULL DEFAULT '',";
   "  email        TEXT NOT NULL DEFAULT '',";
   "  role         TEXT NOT NULL DEFAULT 'user',";
   "  disabled     INTEGER NOT NULL DEFAULT 0,";
   "  pass_hash    TEXT NOT NULL DEFAULT '',";
   "  created_at   TIMESTAMP NOT NULL,";
   "  last_login   TIMESTAMP";
   ");";
   "";
   "CREATE TABLE IF NOT EXISTS sessions (";
   "  id          INTEGER PRIMARY KEY AUTOINCREMENT,";
   "  user_id     INTEGER NOT NULL REFERENCES users(id) ON DELETE CASCADE,";
   "  token_hash  TEXT NOT NULL UNIQUE,";
   "  expires_at  TIMESTAMP NOT NULL,";
   "  created_at  TIMESTAMP NOT NULL,";
   "  ip          TEXT NOT NULL DEFAULT '',";
   "  user_agent  TEXT NOT NULL DEFAULT ''";
   ");";
   "CREATE INDEX IF NOT EXISTS idx_sessions_expiry ON sessions(expires_at);";
   "";
   "CREATE TABLE IF NOT EXISTS api_tokens (";
   "  id           INTEGER PRIMARY KEY AUTOINCREMENT,";
   "  user_id      INTEGER NOT NULL REFERENCES users(id) ON DELETE CASCADE,";
   "  name         TEXT NOT NULL,";
   "  prefix       TEXT NOT NULL,";
   "  token_hash   TEXT NOT NULL UNIQUE,";
   "  role         TEXT NOT NULL DEFAULT 'user',";
   "  expires_at   TIMESTAMP,";
   "  created_at   TIMESTAMP NOT NULL,";
   "  last_used_at TIMESTAMP,";
   "  revoked      INTEGER NOT NULL DEFAULT 0";
   ");";
   "";
   "CREATE TABLE IF NOT EXISTS audit_log (";
   "  id      INTEGER PRIMARY KEY AUTOINCREMENT,";
   "  ts      TIMESTAMP NOT NULL,";
   "  actor   TEXT NOT NULL DEFAULT '',";
   "  action  TEXT NOT NULL,";
   "  target  TEXT NOT NULL DEFAULT '',";
   "  detail  TEXT NOT NULL DEFAULT '',";
   "  ip      TEXT NOT NULL DEFAULT ''";
   ");";
   "CREATE INDEX IF NOT EXISTS idx_audit_ts ON audit_log(ts);";
   "";
   "CREATE TABLE IF NOT EXISTS settings (";
   "  key   TEXT PRIMARY KEY,";
   "  value TEXT NOT NULL";
   ");";
   "";
   "-- ACME (RFC 8555), External Account Binding only: no HTTP-01/DNS-01 challenge";
   "-- validation is performed. An EAB credential is the entire trust decision -";
   "-- see internal/acme for the protocol implementation.";
   "CREATE TABLE IF NOT EXISTS acme_eab_creds (";
   "  id              INTEGER PRIMARY KEY AUTOINCREMENT,";
   ("  key_id          TEXT NOT NULL UNIQUE,     -- public " +:+ dq +:+ "keyID" +:+ dq +:+ " handed to the ACME client")%go;
   "  hmac_key_enc    TEXT NOT NULL,            -- encrypted base64url HMAC-SHA256 key";
   "  name            TEXT NOT NULL,";
   "  ca_id           INTEGER REFERENCES cas(id), -- NULL = the default issuing CA, resolved per order";
   "  profile         TEXT NOT NULL DEFAULT 'server',";
   "  days            INTEGER NOT NULL DEFAULT 0,  -- 0 = the CA/global default certificate validity";
   "  allowed_domains TEXT NOT NULL DEFAULT '[]',  -- JSON array of glob patterns; empty = unrestricted";
   "  max_accounts    INTEGER NOT NULL DEFAULT 0,  -- 0 = unlimited";
   "  account_count   INTEGER NOT NULL DEFAULT 0,";
   "  disabled        INTEGER NOT NULL DEFAULT 0,";
   "  expires_at      TIMESTAMP,";
   "  created_by      TEXT NOT NULL DEFAULT '',";
   "  created_at      TIMESTAMP NOT NULL,";
   "  last_used_at    TIMESTAMP";
   ");";
   "";
   "CREATE TABLE IF NOT EXISTS acme_accounts (";
   "  id             INTEGER PRIMARY KEY AUTOINCREMENT,";
   "  eab_id         INTEGER NOT NULL REFERENCES acme_eab_creds(id),";
   "  jwk_json       TEXT NOT NULL,             -- the account's public key, canonical JWK JSON";
   "  jwk_thumbprint TEXT NOT NULL UNIQUE,      -- RFC 7638 thumbprint; detects re-registration of the same key";
   "  contact_json   TEXT NOT NULL DEFAULT '[]',";
   "  status         TEXT NOT NULL DEFAULT 'valid', -- valid | deactivated";
   "  created_at     TIMESTAMP NOT NULL,";
   "  last_used_at   TIMESTAMP";
   ");";
   "";
   "CREATE TABLE IF NOT EXISTS acme_orders (";
   "  id               INTEGER PRIMARY KEY AUTOINCREMENT,";
   "  account_id       INTEGER NOT NULL REFERENCES acme_accounts(id) ON DELETE CASCADE,";
   "  status           TEXT NOT NULL DEFAULT 'pending', -- pending|ready|processing|valid|invalid";
   ("  identifiers_json TEXT NOT NULL,           -- [{" +:+ dq +:+ "type" +:+ dq +:+ ":" +:+ dq +:+ "dns" +:+ dq +:+ "," +:+ dq +:+ "value" +:+ dq +:+ ":" +:+ dq +:+ "..." +:+ dq +:+ "}]")%go;
   "  certificate_id   INTEGER REFERENCES certificates(id),";
   "  error_json       TEXT NOT NULL DEFAULT '',";
   "  expires_at       TIMESTAMP NOT NULL,";
   "  created_at       TIMESTAMP NOT NULL";
   ");";
   "CREATE INDEX IF NOT EXISTS idx_acme_orders_account ON acme_orders(account_id);";
   "";
   "-- ACME replay nonces, shared by every replica: a nonce handed out by one";
   "-- goca process must be redeemable at another behind the same Service.";
   "CREATE TABLE IF NOT EXISTS acme_nonces (";
   "  nonce      TEXT PRIMARY KEY,";
   "  expires_at TIMESTAMP NOT NULL";
   ");";
   "CREATE INDEX IF NOT EXISTS idx_acme_nonces_expires ON acme_nonces(expires_at);";
   "";
   "-- Failed sign-in attempts, for throttling across replicas (see";
   "-- internal/web/ratelimit.go). One row per failure; old rows are purged.";
   "CREATE TABLE IF NOT EXISTS auth_failures (";
   "  id         INTEGER PRIMARY KEY AUTOINCREMENT,";
   "  key        TEXT NOT NULL,";
   "  at         TIMESTAMP NOT NULL";
   ");";
   "CREATE INDEX IF NOT EXISTS idx_auth_failures_key_at ON auth_failures(key, at);";
   "";
   "CREATE TABLE IF NOT EXISTS acme_authorizations (";
   "  id               INTEGER PRIMARY KEY AUTOINCREMENT,";
   "  order_id         INTEGER NOT NULL REFERENCES acme_orders(id) ON DELETE CASCADE,";
   "  identifier_type  TEXT NOT NULL DEFAULT 'dns',";
   "  identifier_value TEXT NOT NULL,";
   "  wildcard         INTEGER NOT NULL DEFAULT 0,";
   "  status           TEXT NOT NULL DEFAULT 'valid', -- pre-validated: EAB is the entire trust decision";
   "  expires_at       TIMESTAMP NOT NULL,";
   "  created_at       TIMESTAMP NOT NULL";
   ");";
   "CREATE INDEX IF NOT EXISTS idx_acme_authz_order ON acme_authorizations(order_id);";
   "";
   "CREATE TABLE IF NOT EXISTS acme_challenges (";
   "  id                INTEGER PRIMARY KEY AUTOINCREMENT,";
   "  authorization_id  INTEGER NOT NULL REFERENCES acme_authorizations(id) ON DELETE CASCADE,";
   "  type              TEXT NOT NULL DEFAULT 'http-01',";
   "  token             TEXT NOT NULL,";
   "  status            TEXT NOT NULL DEFAULT 'valid',";
   "  validated_at      TIMESTAMP,";
   "  created_at        TIMESTAMP NOT NULL";
   ");";
   "CREATE INDEX IF NOT EXISTS idx_acme_challenges_authz ON acme_challenges(authorization_id);";
   "";
   "-- Secret manager: named, versioned secrets sealed with the hybrid ML-KEM-768";
   "-- + X25519 envelope in internal/pqcrypt. See docs/secrets.md for the design.";
   "CREATE TABLE IF NOT EXISTS secrets (";
   "  id              INTEGER PRIMARY KEY AUTOINCREMENT,";
   ("  name            TEXT NOT NULL UNIQUE,       -- path-like, e.g. " +:+ dq +:+ "team-a/db/password" +:+ dq +:+ EmptyString)%go;
   "  type            TEXT NOT NULL DEFAULT 'kv',  -- kv | file | certificate";
   "  description     TEXT NOT NULL DEFAULT '',";
   "  labels_json     TEXT NOT NULL DEFAULT '{}',";
   "  cert_id         INTEGER REFERENCES certificates(id), -- set only when type = certificate";
   "  current_version INTEGER NOT NULL DEFAULT 0,";
   "  rotation_days   INTEGER NOT NULL DEFAULT 0,  -- 0 = no rotation policy";
   "  disabled        INTEGER NOT NULL DEFAULT 0,";
   "  created_by      TEXT NOT NULL DEFAULT '',";
   "  created_at      TIMESTAMP NOT NULL,";
   "  updated_at      TIMESTAMP NOT NULL";
   ");";
   "CREATE INDEX IF NOT EXISTS idx_secrets_type ON secrets(type);";
   "";
   "-- Immutable per-version payloads. payload_enc is one self-describing";
   "-- pqcrypt.Seal() envelope (pqenc:v1:...): the DEK wrap and the AEAD payload";
   "-- travel together as a single opaque blob rather than in separate columns.";
   "CREATE TABLE IF NOT EXISTS secret_versions (";
   "  id             INTEGER PRIMARY KEY AUTOINCREMENT,";
   "  secret_id      INTEGER NOT NULL REFERENCES secrets(id) ON DELETE CASCADE,";
   "  version        INTEGER NOT NULL,";
   "  payload_enc    TEXT NOT NULL,              -- pqenc:v1: envelope";
   "  payload_sha256 TEXT NOT NULL,              -- of the plaintext; doubles as the CSI object_version";
   "  size_bytes     INTEGER NOT NULL DEFAULT 0,";
   ("  content_type   TEXT NOT NULL DEFAULT '',   -- e.g. a filename or MIME hint, for " +:+ dq +:+ "file" +:+ dq +:+ " secrets")%go;
   "  destroyed      INTEGER NOT NULL DEFAULT 0,";
   "  created_by     TEXT NOT NULL DEFAULT '',";
   "  created_at     TIMESTAMP NOT NULL,";
   "  UNIQUE(secret_id, version)";
   ");";
   "CREATE INDEX IF NOT EXISTS idx_secret_versions_secret ON secret_versions(secret_id);";
   "";
   "-- Which Kubernetes (namespace, ServiceAccount) pairs may fetch a secret";
   "-- through the CSI provider. Glob-matched (path.Match syntax) by internal/vault.";
   "-- k8s_auth_method scopes the binding to a named CSI trust domain (a";
   "-- k8s_auth_methods row); '*' (the default) matches any trust domain.";
   "CREATE TABLE IF NOT EXISTS secret_bindings (";
   "  id                  INTEGER PRIMARY KEY AUTOINCREMENT,";
   "  secret_id           INTEGER NOT NULL REFERENCES secrets(id) ON DELETE CASCADE,";
   "  k8s_namespace       TEXT NOT NULL DEFAULT '*',";
   "  k8s_service_account TEXT NOT NULL DEFAULT '*',";
   "  k8s_auth_method     TEXT NOT NULL DEFAULT '*',";
   "  expires_at          TIMESTAMP,";
   "  created_by          TEXT NOT NULL DEFAULT '',";
   "  created_at          TIMESTAMP NOT NULL";
   ");";
   "CREATE INDEX IF NOT EXISTS idx_secret_bindings_secret ON secret_bindings(secret_id);";
   "CREATE INDEX IF NOT EXISTS idx_secret_bindings_ns ON secret_bindings(k8s_namespace);";
   "";
   "-- Named CSI trust domains: one row per Kubernetes cluster (or group of";
   "-- clusters sharing an issuer) whose ServiceAccount tokens goca will verify.";
   "-- reviewer_token_enc is encrypted with the master key (enc: prefix), like the";
   "-- LDAP bind password. See internal/k8sauth for the verification logic.";
   "CREATE TABLE IF NOT EXISTS k8s_auth_methods (";
   "  id                  INTEGER PRIMARY KEY AUTOINCREMENT,";
   "  name                TEXT NOT NULL UNIQUE,";
   "  audience            TEXT NOT NULL DEFAULT 'goca-csi',";
   "  issuer_url          TEXT NOT NULL DEFAULT '',";
   "  api_server_url      TEXT NOT NULL DEFAULT '',";
   "  ca_cert             TEXT NOT NULL DEFAULT '',";
   "  reviewer_token_enc  TEXT NOT NULL DEFAULT '',";
   "  insecure_skip_verify INTEGER NOT NULL DEFAULT 0,";
   "  disabled            INTEGER NOT NULL DEFAULT 0,";
   "  created_by          TEXT NOT NULL DEFAULT '',";
   "  created_at          TIMESTAMP NOT NULL,";
   "  updated_at          TIMESTAMP NOT NULL";
   ");";
   "";
   "-- Webhooks (G9): named HTTP endpoints that receive signed event notifications";
   "-- when goca records an audit action. events is a comma-separated list of";
   ("-- action prefixes (e.g. " +:+ dq +:+ "cert.issue,secret.put" +:+ dq +:+ "); " +:+ dq +:+ "*" +:+ dq +:+ " means every event.")%go;
   "-- secret_enc is the HMAC signing key, encrypted with the master key.";
   "CREATE TABLE IF NOT EXISTS webhooks (";
   "  id            INTEGER PRIMARY KEY AUTOINCREMENT,";
   "  name          TEXT NOT NULL UNIQUE,";
   "  url           TEXT NOT NULL,";
   "  events        TEXT NOT NULL DEFAULT '*',";
   "  secret_enc    TEXT NOT NULL DEFAULT '',";
   "  disabled      INTEGER NOT NULL DEFAULT 0,";
   "  created_by    TEXT NOT NULL DEFAULT '',";
   "  created_at    TIMESTAMP NOT NULL,";
   "  updated_at    TIMESTAMP NOT NULL";
   ");";
   "";
   "-- webhook_deliveries records the outcome of each delivery attempt so an";
   "-- operator can see what was sent, to which endpoint, and what it answered.";
   "-- status is pending|delivered|failed|dead.";
   "CREATE TABLE IF NOT EXISTS webhook_deliveries (";
   "  id            INTEGER PRIMARY KEY AUTOINCREMENT,";
   "  webhook_id    INTEGER NOT NULL REFERENCES webhooks(id) ON DELETE CASCADE,";
   "  event         TEXT NOT NULL,";
   "  payload       TEXT NOT NULL DEFAULT '',";
   "  status        TEXT NOT NULL DEFAULT 'pending',";
   "  attempts      INTEGER NOT NULL DEFAULT 0,";
   "  last_status   INTEGER NOT NULL DEFAULT 0,";
   "  last_error    TEXT NOT NULL DEFAULT '',";
   "  next_attempt  TIMESTAMP,";
   "  -- claimed_at marks a row as picked up by some dispatcher's tick, so a";
   "  -- second dispatcher polling the same table (goca run as more than one";
   "  -- process against a shared database) does not also deliver it. Cleared on";
   "  -- completion; a claim older than the caller's staleness threshold is";
   "  -- treated as abandoned (the claiming process crashed) and is reclaimable.";
   "  claimed_at    TIMESTAMP,";
   "  created_at    TIMESTAMP NOT NULL,";
   "  updated_at    TIMESTAMP NOT NULL";
   ");";
   "CREATE INDEX IF NOT EXISTS idx_webhook_deliveries_status ON webhook_deliveries(status);"].

Definition schemaPostgres : string := text
  ["CREATE TABLE IF NOT EXISTS cas (";
   "  id            BIGSERIAL PRIMARY KEY,";
   "  name          TEXT NOT NULL UNIQUE,";
   "  slug          TEXT NOT NULL UNIQUE,";
   "  subject       TEXT NOT NULL,";
   "  subject_json  TEXT NOT NULL DEFAULT '{}',";
   "  serial_hex    TEXT NOT NULL,";
   "  key_type      TEXT NOT NULL,";
   "  cert_pem      TEXT NOT NULL,";
   "  key_enc       TEXT NOT NULL,";
   "  is_root       INTEGER NOT NULL DEFAULT 1,";
   "  parent_id     BIGINT REFERENCES cas(id),";
   "  path_len      INTEGER NOT NULL DEFAULT 0,";
   "  not_before    TIMESTAMPTZ NOT NULL,";
   "  not_after     TIMESTAMPTZ NOT NULL,";
   "  status        TEXT NOT NULL DEFAULT 'active',";
   "  crl_number    INTEGER NOT NULL DEFAULT 0,";
   "  fingerprint   TEXT NOT NULL DEFAULT '',";
   "  is_default    INTEGER NOT NULL DEFAULT 0,";
   "  created_by    TEXT NOT NULL DEFAULT '',";
   "  created_at    TIMESTAMPTZ NOT NULL,";
   "  last_crl_at   TIMESTAMPTZ,";
   "  csr_pem       TEXT NOT NULL DEFAULT '',";
   "  external      INTEGER NOT NULL DEFAULT 0,";
   "  subject_key_id TEXT NOT NULL DEFAULT '',";
   "  authority_key_id TEXT NOT NULL DEFAULT ''";
   ");";
   "";
   "CREATE TABLE IF NOT EXISTS certificates (";
   "  id            BIGSERIAL PRIMARY KEY,";
   "  ca_id         BIGINT NOT NULL REFERENCES cas(id) ON DELETE CASCADE,";
   "  serial_hex    TEXT NOT NULL,";
   "  common_name   TEXT NOT NULL,";
   "  subject       TEXT NOT NULL,";
   "  sans_json     TEXT NOT NULL DEFAULT '[]',";
   "  profile       TEXT NOT NULL DEFAULT 'server',";
   "  key_type      TEXT NOT NULL DEFAULT '',";
   "  cert_pem      TEXT NOT NULL,";
   "  key_enc       TEXT NOT NULL DEFAULT '',";
   "  csr_pem       TEXT NOT NULL DEFAULT '',";
   "  fingerprint   TEXT NOT NULL DEFAULT '',";
   "  not_before    TIMESTAMPTZ NOT NULL,";
   "  not_after     TIMESTAMPTZ NOT NULL,";
   "  status        TEXT NOT NULL DEFAULT 'active',";
   "  revoked_at    TIMESTAMPTZ,";
   "  revoke_code   INTEGER NOT NULL DEFAULT 0,";
   "  requested_by  TEXT NOT NULL DEFAULT '',";
   "  note          TEXT NOT NULL DEFAULT '',";
   "  created_at    TIMESTAMPTZ NOT NULL,";
   "  renewed_from  BIGINT,";
   "  UNIQUE(ca_id, serial_hex)";
   ");";
   "CREATE INDEX IF NOT EXISTS idx_cert_cn ON certificates(common_name);";
   "CREATE INDEX IF NOT EXISTS idx_cert_serial ON certificates(serial_hex);";
   "CREATE INDEX IF NOT EXISTS idx_cert_status ON certificates(status);";
   "CREATE INDEX IF NOT EXISTS idx_cert_requested_by ON certificates(requested_by);";
   "";
   "CREATE TABLE IF NOT EXISTS ca_revocations (";
   "  id         BIGSERIAL PRIMARY KEY,";
   "  ca_id      BIGINT NOT NULL REFERENCES cas(id) ON DELETE CASCADE,";
   "  serial_hex TEXT NOT NULL,";
   "  subject    TEXT NOT NULL DEFAULT '',";
   "  revoked_at TIMESTAMPTZ NOT NULL,";
   "  reason     INTEGER NOT NULL DEFAULT 0,";
   "  UNIQUE(ca_id, serial_hex)";
   ");";
   "";
   "CREATE TABLE IF NOT EXISTS users (";
   "  id           BIGSERIAL PRIMARY KEY,";
   "  username     TEXT NOT NULL UNIQUE,";
   "  source       TEXT NOT NULL DEFAULT 'local',";
   "  display_name TEXT NOT NULL DEFAULT '',";
   "  email        TEXT NOT NULL DEFAULT '',";
   "  role         TEXT NOT NULL DEFAULT 'user',";
   "  disabled     INTEGER NOT NULL DEFAULT 0,";
   "  pass_hash    TEXT NOT NULL DEFAULT '',";
   "  created_at   TIMESTAMPTZ NOT NULL,";
   "  last_login   TIMESTAMPTZ";
   ");";
   "";
   "CREATE TABLE IF NOT EXISTS sessions (";
   "  id          BIGSERIAL PRIMARY KEY,";
   "  user_id     BIGINT NOT NULL REFERENCES users(id) ON DELETE CASCADE,";
   "  token_hash  TEXT NOT NULL UNIQUE,";
   "  expires_at  TIMESTAMPTZ NOT NULL,";
   "  created_at  TIMESTAMPTZ NOT NULL,";
   "  ip          TEXT NOT NULL DEFAULT '',";
   "  user_agent  TEXT NOT NULL DEFAULT ''";
   ");";
   "CREATE INDEX IF NOT EXISTS idx_sessions_expiry ON sessions(expires_at);";
   "";
   "CREATE TABLE IF NOT EXISTS api_tokens (";
   "  id           BIGSERIAL PRIMARY KEY,";
   "  user_id      BIGINT NOT NULL REFERENCES users(id) ON DELETE CASCADE,";
   "  name         TEXT NOT NULL,";
   "  prefix       TEXT NOT NULL,";
   "  token_hash   TEXT NOT NULL UNIQUE,";
   "  role         TEXT NOT NULL DEFAULT 'user',";
   "  expires_at   TIMESTAMPTZ,";
   "  created_at   TIMESTAMPTZ NOT NULL,";
   "  last_used_at TIMESTAMPTZ,";
   "  revoked      INTEGER NOT NULL DEFAULT 0";
   ");";
   "";
   "CREATE TABLE IF NOT EXISTS audit_log (";
   "  id      BIGSERIAL PRIMARY KEY,";
   "  ts      TIMESTAMPTZ NOT NULL,";
   "  actor   TEXT NOT NULL DEFAULT '',";
   "  action  TEXT NOT NULL,";
   "  target  TEXT NOT NULL DEFAULT '',";
   "  detail  TEXT NOT NULL DEFAULT '',";
   "  ip      TEXT NOT NULL DEFAULT ''";
   ");";
   "CREATE INDEX IF NOT EXISTS idx_audit_ts ON audit_log(ts);";
   "";
   "CREATE TABLE IF NOT EXISTS settings (";
   "  key   TEXT PRIMARY KEY,";
   "  value TEXT NOT NULL";
   ");";
   "";
   "CREATE TABLE IF NOT EXISTS acme_eab_creds (";
   "  id              BIGSERIAL PRIMARY KEY,";
   "  key_id          TEXT NOT NULL UNIQUE,";
   "  hmac_key_enc    TEXT NOT NULL,";
   "  name            TEXT NOT NULL,";
   "  ca_id           BIGINT REFERENCES cas(id),";
   "  profile         TEXT NOT NULL DEFAULT 'server',";
   "  days            INTEGER NOT NULL DEFAULT 0,";
   "  allowed_domains TEXT NOT NULL DEFAULT '[]',";
   "  max_accounts    INTEGER NOT NULL DEFAULT 0,";
   "  account_count   INTEGER NOT NULL DEFAULT 0,";
   "  disabled        INTEGER NOT NULL DEFAULT 0,";
   "  expires_at      TIMESTAMPTZ,";
   "  created_by      TEXT NOT NULL DEFAULT '',";
   "  created_at      TIMESTAMPTZ NOT NULL,";
   "  last_used_at    TIMESTAMPTZ";
   ");";
   "";
   "CREATE TABLE IF NOT EXISTS acme_accounts (";
   "  id             BIGSERIAL PRIMARY KEY,";
   "  eab_id         BIGINT NOT NULL REFERENCES acme_eab_creds(id),";
   "  jwk_json       TEXT NOT NULL,";
   "  jwk_thumbprint TEXT NOT NULL UNIQUE,";
   "  contact_json   TEXT NOT NULL DEFAULT '[]',";
   "  status         TEXT NOT NULL DEFAULT 'valid',";
   "  created_at     TIMESTAMPTZ NOT NULL,";
   "  last_used_at   TIMESTAMPTZ";
   ");";
   "";
   "CREATE TABLE IF NOT EXISTS acme_orders (";
   "  id               BIGSERIAL PRIMARY KEY,";
   "  account_id       BIGINT NOT NULL REFERENCES acme_accounts(id) ON DELETE CASCADE,";
   "  status           TEXT NOT NULL DEFAULT 'pending',";
   "  identifiers_json TEXT NOT NULL,";
   "  certificate_id   BIGINT REFERENCES certificates(id),";
   "  error_json       TEXT NOT NULL DEFAULT '',";
   "  expires_at       TIMESTAMPTZ NOT NULL,";
   "  created_at       TIMESTAMPTZ NOT NULL";
   ");";
   "CREATE INDEX IF NOT EXISTS idx_acme_orders_account ON acme_orders(account_id);";
   "";
   "CREATE TABLE IF NOT EXISTS acme_nonces (";
   "  nonce      TEXT PRIMARY KEY,";
   "  expires_at TIMESTAMPTZ NOT NULL";
   ");";
   "CREATE INDEX IF NOT EXISTS idx_acme_nonces_expires ON acme_nonces(expires_at);";
   "";
   "CREATE TABLE IF NOT EXISTS auth_failures (";
   "  id         BIGSERIAL PRIMARY KEY,";
   "  key        TEXT NOT NULL,";
   "  at         TIMESTAMPTZ NOT NULL";
   ");";
   "CREATE INDEX IF NOT EXISTS idx_auth_failures_key_at ON auth_failures(key, at);";
   "";
   "CREATE TABLE IF NOT EXISTS acme_authorizations (";
   "  id               BIGSERIAL PRIMARY KEY,";
   "  order_id         BIGINT NOT NULL REFERENCES acme_orders(id) ON DELETE CASCADE,";
   "  identifier_type  TEXT NOT NULL DEFAULT 'dns',";
   "  identifier_value TEXT NOT NULL,";
   "  wildcard         INTEGER NOT NULL DEFAULT 0,";
   "  status           TEXT NOT NULL DEFAULT 'valid',";
   "  expires_at       TIMESTAMPTZ NOT NULL,";
   "  created_at       TIMESTAMPTZ NOT NULL";
   ");";
   "CREATE INDEX IF NOT EXISTS idx_acme_authz_order ON acme_authorizations(order_id);";
   "";
   "CREATE TABLE IF NOT EXISTS acme_challenges (";
   "  id                BIGSERIAL PRIMARY KEY,";
   "  authorization_id  BIGINT NOT NULL REFERENCES acme_authorizations(id) ON DELETE CASCADE,";
   "  type              TEXT NOT NULL DEFAULT 'http-01',";
   "  token             TEXT NOT NULL,";
   "  status            TEXT NOT NULL DEFAULT 'valid',";
   "  validated_at      TIMESTAMPTZ,";
   "  created_at        TIMESTAMPTZ NOT NULL";
   ");";
   "CREATE INDEX IF NOT EXISTS idx_acme_challenges_authz ON acme_challenges(authorization_id);";
   "";
   "CREATE TABLE IF NOT EXISTS secrets (";
   "  id              BIGSERIAL PRIMARY KEY,";
   "  name            TEXT NOT NULL UNIQUE,";
   "  type            TEXT NOT NULL DEFAULT 'kv',";
   "  description     TEXT NOT NULL DEFAULT '',";
   "  labels_json     TEXT NOT NULL DEFAULT '{}',";
   "  cert_id         BIGINT REFERENCES certificates(id),";
   "  current_version INTEGER NOT NULL DEFAULT 0,";
   "  rotation_days   INTEGER NOT NULL DEFAULT 0,";
   "  disabled        INTEGER NOT NULL DEFAULT 0,";
   "  created_by      TEXT NOT NULL DEFAULT '',";
   "  created_at      TIMESTAMPTZ NOT NULL,";
   "  updated_at      TIMESTAMPTZ NOT NULL";
   ");";
   "CREATE INDEX IF NOT EXISTS idx_secrets_type ON secrets(type);";
   "";
   "CREATE TABLE IF NOT EXISTS secret_versions (";
   "  id             BIGSERIAL PRIMARY KEY,";
   "  secret_id      BIGINT NOT NULL REFERENCES secrets(id) ON DELETE CASCADE,";
   "  version        INTEGER NOT NULL,";
   "  payload_enc    TEXT NOT NULL,";
   "  payload_sha256 TEXT NOT NULL,";
   "  size_bytes     INTEGER NOT NULL DEFAULT 0,";
   "  content_type   TEXT NOT NULL DEFAULT '',";
   "  destroyed      INTEGER NOT NULL DEFAULT 0,";
   "  created_by     TEXT NOT NULL DEFAULT '',";
   "  created_at     TIMESTAMPTZ NOT NULL,";
   "  UNIQUE(secret_id, version)";
   ");";
   "CREATE INDEX IF NOT EXISTS idx_secret_versions_secret ON secret_versions(secret_id);";
   "";
   "CREATE TABLE IF NOT EXISTS secret_bindings (";
   "  id                  BIGSERIAL PRIMARY KEY,";
   "  secret_id           BIGINT NOT NULL REFERENCES secrets(id) ON DELETE CASCADE,";
   "  k8s_namespace       TEXT NOT NULL DEFAULT '*',";
   "  k8s_service_account TEXT NOT NULL DEFAULT '*',";
   "  k8s_auth_method     TEXT NOT NULL DEFAULT '*',";
   "  expires_at          TIMESTAMPTZ,";
   "  created_by          TEXT NOT NULL DEFAULT '',";
   "  created_at          TIMESTAMPTZ NOT NULL";
   ");";
   "CREATE INDEX IF NOT EXISTS idx_secret_bindings_secret ON secret_bindings(secret_id);";
   "CREATE INDEX IF NOT EXISTS idx_secret_bindings_ns ON secret_bindings(k8s_namespace);";
   "";
   "CREATE TABLE IF NOT EXISTS k8s_auth_methods (";
   "  id                  BIGSERIAL PRIMARY KEY,";
   "  name                TEXT NOT NULL UNIQUE,";
   "  audience            TEXT NOT NULL DEFAULT 'goca-csi',";
   "  issuer_url          TEXT NOT NULL DEFAULT '',";
   "  api_server_url      TEXT NOT NULL DEFAULT '',";
   "  ca_cert             TEXT NOT NULL DEFAULT '',";
   "  reviewer_token_enc  TEXT NOT NULL DEFAULT '',";
   "  insecure_skip_verify INTEGER NOT NULL DEFAULT 0,";
   "  disabled            INTEGER NOT NULL DEFAULT 0,";
   "  created_by          TEXT NOT NULL DEFAULT '',";
   "  created_at          TIMESTAMPTZ NOT NULL,";
   "  updated_at          TIMESTAMPTZ NOT NULL";
   ");";
   "";
   "-- Webhooks (G9): see the SQLite schema above for the column-by-column story.";
   "CREATE TABLE IF NOT EXISTS webhooks (";
   "  id            BIGSERIAL PRIMARY KEY,";
   "  name          TEXT NOT NULL UNIQUE,";
   "  url           TEXT NOT NULL,";
   "  events        TEXT NOT NULL DEFAULT '*',";
   "  secret_enc    TEXT NOT NULL DEFAULT '',";
   "  disabled      INTEGER NOT NULL DEFAULT 0,";
   "  created_by    TEXT NOT NULL DEFAULT '',";
   "  created_at    TIMESTAMPTZ NOT NULL,";
   "  updated_at    TIMESTAMPTZ NOT NULL";
   ");";
   "";
   "CREATE TABLE IF NOT EXISTS webhook_deliveries (";
   "  id            BIGSERIAL PRIMARY KEY,";
   "  webhook_id    BIGINT NOT NULL REFERENCES webhooks(id) ON DELETE CASCADE,";
   "  event         TEXT NOT NULL,";
   "  payload       TEXT NOT NULL DEFAULT '',";
   "  status        TEXT NOT NULL DEFAULT 'pending',";
   "  attempts      INTEGER NOT NULL DEFAULT 0,";
   "  last_status   INTEGER NOT NULL DEFAULT 0,";
   "  last_error    TEXT NOT NULL DEFAULT '',";
   "  next_attempt  TIMESTAMPTZ,";
   "  claimed_at    TIMESTAMPTZ,";
   "  created_at    TIMESTAMPTZ NOT NULL,";
   "  updated_at    TIMESTAMPTZ NOT NULL";
   ");";
   "CREATE INDEX IF NOT EXISTS idx_webhook_deliveries_status ON webhook_deliveries(status);"].

(** ** Reading them

    Words, with parentheses, commas and semicolons on their own; a comment
    runs from two dashes to the end of its line; a literal in single quotes
    is one word. *)
Inductive mode := Plain | Quoted | Comment.

Definition flush (word : string) (ws : list string) : list string := if str_is word "" then ws else word :: ws.
Definition snoc (word : string) (c : ascii) : string := (word +:+ String c EmptyString)%go.
Definition is_punct (c : ascii) : bool := Ascii.eqb c "(" || Ascii.eqb c ")" || Ascii.eqb c "," || Ascii.eqb c ";".

Fixpoint words (m : mode) (word s : string) : list string :=
  match s with
  | EmptyString => flush word []
  | String c s' =>
      match m with
      | Comment => words (if Ascii.eqb c LF then Plain else Comment) word s'
      | Quoted => words (if Ascii.eqb c "'" then Plain else Quoted) (snoc word c) s'
      | Plain =>
          if Ascii.eqb c "'" then words Quoted (snoc word c) s'
          else if Ascii.eqb c "-" && Str.HasPrefix s' "-" then flush word (words Comment "" s')
          else if Str.is_space c then flush word (words Plain "" s')
          else if is_punct c then flush word (String c EmptyString :: words Plain "" s')
          else words Plain (snoc word c) s'
      end
  end.

(** [split_on w ws]: the parts of [ws] between the words [w] that are not in
    parentheses. *)
Fixpoint split_on (w : string) (depth : nat) (part : list string) (ws : list string) : list (list string) :=
  match ws with
  | [] => [part]
  | x :: ws' =>
      if String.eqb x w && (depth =? 0)%nat then part :: split_on w depth [] ws'
      else split_on w (if String.eqb x "(" then S depth else if String.eqb x ")" then pred depth else depth) (part ++ [x]) ws'
  end.

Inductive def :=
| Column (name : string) (type : list string)
| Unique (cols : list string).
Inductive statement :=
| CreateTable (table : string) (defs : list def)
| CreateIndex (index table : string) (cols : list string)
| Pragma (setting : list string).

(** The words between an opening parenthesis and the last closing one. *)
Definition parenthesized (ws : list string) : option (list string) :=
  match ws with
  | "(" :: ws' => match List.rev ws' with ")" :: r => Some (List.rev r) | _ => None end
  | _ => None
  end.
Definition read_def (ws : list string) : option def :=
  match ws with
  | "UNIQUE" :: ws' => cols ← parenthesized ws'; c ← mapM (fun c => match c with [x] => Some x | _ => None end) (split_on "," 0 [] cols); Some (Unique c)
  | name :: ty => if is_punct (hd " "%char (list_ascii_of_string name)) then None else Some (Column name ty)
  | [] => None
  end.
Definition read_statement (ws : list string) : option statement :=
  match ws with
  | "CREATE" :: "TABLE" :: "IF" :: "NOT" :: "EXISTS" :: t :: ws' =>
      b ← parenthesized ws'; ds ← mapM read_def (split_on "," 0 [] b); Some (CreateTable t ds)
  | "CREATE" :: "INDEX" :: "IF" :: "NOT" :: "EXISTS" :: i :: "ON" :: t :: ws' =>
      b ← parenthesized ws'; c ← mapM (fun c => match c with [x] => Some x | _ => None end) (split_on "," 0 [] b); Some (CreateIndex i t c)
  | "PRAGMA" :: ws' => Some (Pragma ws')
  | _ => None
  end.

(** A whole text, as the database splits it. *)
Definition read_schema (s : string) : option (list statement) :=
  mapM read_statement (List.filter (fun p => negb (match p with [] => true | _ => false end)) (split_on ";" 0 [] (words Plain "" s))).

(** ** What the texts say

    The names of the columns, the indexed columns, and the foreign keys with
    their ON DELETE action. *)
Definition column_name (d : def) : option string := match d with Column n _ => Some n | Unique _ => None end.
Definition columns (ds : list def) : list string := omap column_name ds.

Fixpoint referenced (ty : list string) : option (string * bool) :=
  match ty with
  | "REFERENCES" :: t :: ty' => Some (t, existsb (String.eqb "CASCADE") ty')
  | _ :: ty' => referenced ty'
  | [] => None
  end.
Definition def_reference (d : def) : option (string * bool) := match d with Column _ ty => referenced ty | Unique _ => None end.
Definition references (st : statement) : list (string * string * bool) :=
  match st with
  | CreateTable t ds => map (fun r => (t, r.1, r.2)) (omap def_reference ds)
  | _ => []
  end.
Definition table_of (st : statement) : option string := match st with CreateTable t _ => Some t | _ => None end.

(** The names Schema.v gives the tables. *)
Definition sql_name (t : table_name) : string :=
  match t with
  | Cas => "cas" | Certificates => "certificates" | CaRevocations => "ca_revocations" | Users => "users"
  | Sessions => "sessions" | ApiTokens => "api_tokens" | AuditLog => "audit_log" | Settings => "settings"
  | AcmeEabCreds => "acme_eab_creds" | AcmeAccounts => "acme_accounts" | AcmeOrders => "acme_orders"
  | AcmeNonces => "acme_nonces" | AuthFailures => "auth_failures" | AcmeAuthorizations => "acme_authorizations"
  | AcmeChallenges => "acme_challenges" | Secrets => "secrets" | SecretVersions => "secret_versions"
  | SecretBindings => "secret_bindings" | K8sAuthMethods => "k8s_auth_methods" | Webhooks => "webhooks"
  | WebhookDeliveries => "webhook_deliveries"
  end.

(** The PostgreSQL spelling of a SQLite column: serial keys, timestamps with
    a time zone, and sixty-four bits for what holds the id of another row. *)
Definition word_for_postgres (w : string) : string := if String.eqb w "TIMESTAMP" then "TIMESTAMPTZ" else w.
Definition type_for_postgres (name : string) (ty : list string) : list string :=
  match ty with
  | "INTEGER" :: "PRIMARY" :: "KEY" :: "AUTOINCREMENT" :: ty' => "BIGSERIAL" :: "PRIMARY" :: "KEY" :: ty'
  | "INTEGER" :: ty' => (if bool_decide (is_Some (referenced ty')) || String.eqb name "renewed_from" then "BIGINT" else "INTEGER") :: ty'
  | _ => map word_for_postgres ty
  end.
Definition def_for_postgres (d : def) : def := match d with Column n ty => Column n (type_for_postgres n ty) | Unique cs => Unique cs end.
Definition for_postgres (st : statement) : option statement :=
  match st with
  | CreateTable t ds => Some (CreateTable t (map def_for_postgres ds))
  | CreateIndex i t cs => Some (CreateIndex i t cs)
  | Pragma _ => None
  end.

(** The two schemas are in lockstep: the PostgreSQL text is the SQLite
    text statement by statement and column by column, in the same order, with
    no more than the dialect changed; and cutting it at its semicolons, as
    [execStatements] does, cuts it into just those statements. *)
Theorem schemas_in_lockstep :
  exists sts, read_schema schema = Some sts /\ read_schema schemaPostgres = Some (omap for_postgres sts) /\
  mapM (fun s => read_statement (words Plain "" s)) (Migrate.statements schemaPostgres) = Some (omap for_postgres sts).
Proof. eexists. split; [vm_compute; reflexivity |]. split; vm_compute; reflexivity. Qed.

(** The tables and the foreign keys Schema.v is about, with the rows
    that go when their parent goes, are those of the text. *)
Theorem schema_is_the_text :
  exists sts, read_schema schema = Some sts /\
  omap table_of sts = map sql_name all_tables /\
  mjoin (map references sts) = map (fun k => (sql_name (child k), sql_name (parent k), cascade k)) fkeys.
Proof. eexists. split; [vm_compute; reflexivity |]. split; vm_compute; reflexivity. Qed.

(** What a column of an existing row needs before it can be added. *)
Definition fillable (ty : string) : bool :=
  let ws := words Plain "" ty in negb (existsb (String.eqb "NOT") ws) || existsb (String.eqb "DEFAULT") ws.
Definition declared (sts : list statement) (t c : string) : option (list string) :=
  head (omap (fun st => match st with
    | CreateTable t' ds => if String.eqb t t' then head (omap (fun d => match d with Column n ty => if String.eqb n c then Some ty else None | _ => None end) ds) else None
    | _ => None end) sts).

Lemma columns_can_be_added : forallb (fun c => fillable (Migrate.ddl c)) Migrate.addedColumns = true.
Proof. reflexivity. Qed.

(** On SQLite a migrated column is the one a new database has, or is in no
    new table; on PostgreSQL [renewed_from] is not: thirty-two bits instead
    of sixty-four. *)
Example migrated_columns_sqlite :
  forall sts, read_schema schema = Some sts ->
  forallb (fun c => match declared sts (Migrate.table c) (Migrate.name c) with
    | Some ty => bool_decide (ty = words Plain "" (Migrate.ddl c)) | None => String.eqb (Migrate.name c) "not_after" end) Migrate.addedColumns = true.
Proof. intros sts Hs. vm_compute in Hs. injection Hs as <-. reflexivity. Qed.
Example renewed_from_is_narrower_when_migrated :
  exists sts, read_schema schemaPostgres = Some sts /\ declared sts "certificates" "renewed_from" = Some ["BIGINT"] /\
  Migrate.mkColumn "certificates" "renewed_from" "INTEGER" EmptyString ∈ Migrate.addedColumns.
Proof. eexists. split; [vm_compute; reflexivity |]. split; [reflexivity |]. apply list_elem_of_In. simpl. tauto. Qed.

End Ddl.
