(* ===== verification/SchemaLock.v ===== *)
(** * Several replicas creating one PostgreSQL schema

    [applyPostgresSchema] of internal/store/store.go: the schema is created
    and migrated under an advisory lock of the session.  CREATE TABLE IF NOT
    EXISTS is two steps here, as in PostgreSQL: looking for the relation and
    adding it; a replica that finds it missing after another did fails on the
    catalogue.  A replica can be refused, or lose its session, at any time. *)

From S2P Require Import Prelude GoStrings Effects Models Schema Sealing AcmePolicy Setup SchemaText.

(** ** Programs that run under a lock

    A replica waits, holds the lock and runs, has finished, was refused a
    connection or the lock, or lost its session (and the lock with it). *)
Module Turns.
Section turns.
Context {S R E : Type} (body : prog S R).

Inductive replica := Waiting | Holding (p : prog S R) | Finished (r : R) | Refused (e : E) | Lost.
Record state := mkState { owner : option nat; database : S; replicas : list replica }.

Inductive turn : state -> state -> Prop :=
| take i d rs :
    rs !! i = Some Waiting -> turn (mkState None d rs) (mkState (Some i) d (<[i := Holding body]> rs))
| work i l d rs X (f : S -> X * S) k :
    rs !! i = Some (Holding (Act f k)) ->
    turn (mkState l d rs) (mkState l (snd (f d)) (<[i := Holding (k (fst (f d)))]> rs))
| release i l d rs r :
    rs !! i = Some (Holding (Ret r)) -> turn (mkState l d rs) (mkState None d (<[i := Finished r]> rs))
| refuse i l d rs e :
    rs !! i = Some Waiting -> turn (mkState l d rs) (mkState l d (<[i := Refused e]> rs))
| lose i l d rs p :
    rs !! i = Some (Holding p) -> turn (mkState l d rs) (mkState None d (<[i := Lost]> rs)).

Definition start (d : S) (n : nat) : state := mkState None d (replicate n Waiting).

(** *** What holds between turns

    [I] holds whatever happens and [Q] of every result, for good, provided
    the body gets there when it runs alone. *)
Context (I : S -> Prop) (G : S -> S -> Prop) (Q : R -> S -> Prop) `{!Reflexive G, !Transitive G}.
Hypothesis body_alone : forall d, I d -> alone I G Q body d.
Hypothesis Q_stays : forall r d d', G d d' -> Q r d -> Q r d'.

Definition inv (d0 : S) (s : state) : Prop :=
  I (database s) /\ G d0 (database s) /\
  (forall i p, replicas s !! i = Some (Holding p) -> owner s = Some i /\ alone I G Q p (database s)) /\
  (forall i, owner s = Some i -> exists p, replicas s !! i = Some (Holding p)) /\
  (forall i r, replicas s !! i = Some (Finished r) -> Q r (database s)).

Lemma inv_start d n : I d -> inv d (start d n).
Proof.
  intros HI. split; [done |]. split; [reflexivity |]. simpl. split; [| split; [done |]].
  - by intros i p [? _]%lookup_replicate.
  - by intros i r [? _]%lookup_replicate.
Qed.

Lemma inv_update d0 s i r l :
  inv d0 s -> i < length (replicas s) ->
  (l = owner s /\ owner s <> Some i \/ l = None /\ owner s = Some i) -> (forall p, r <> Holding p) ->
  (forall x, r = Finished x -> Q x (database s)) ->
  inv d0 (mkState l (database s) (<[i := r]> (replicas s))).
Proof.
  intros (HI & HG & Hh & Ho & Hf) Hi Hl Hr Hq. split; [done |]. split; [done |]. cbn [owner database replicas].
  split; [| split].
  - intros j p [(<- & He & _) | (Hne & Hj)]%list_lookup_insert_Some; [by edestruct Hr |].
    destruct (Hh j p Hj) as [Hoj Ha]. split; [| done]. destruct Hl as [[-> _] | [_ Hl]]; [done | congruence].
  - intros j Hj. destruct Hl as [[-> Hl] | [-> _]]; [| done]. destruct (Ho j Hj) as [p Hp]. exists p.
    rewrite list_lookup_insert_ne by congruence. done.
  - intros j x [(<- & He & _) | (Hne & Hj)]%list_lookup_insert_Some; [by apply Hq | by apply (Hf j)].
Qed.

Lemma inv_turn d0 s s' : inv d0 s -> turn s s' -> inv d0 s'.
Proof.
  intros Hinv Hturn. pose proof Hinv as (HI & HG & Hh & Ho & Hf).
  destruct Hturn as [i d rs Hi | i l d rs X f k Hi | i l d rs r Hi | i l d rs e Hi | i l d rs p Hi];
    cbn [owner database replicas] in *; pose proof (lookup_lt_Some _ _ _ Hi) as Hlt.
  - split; [done |]. split; [done |]. cbn [owner database replicas]. split; [| split].
    + intros j p [(<- & He & _) | (Hne & Hj)]%list_lookup_insert_Some; [simplify_eq; auto |].
      by destruct (Hh j p Hj).
    + intros j Hj. simplify_eq. exists body. by rewrite list_lookup_insert_eq.
    + intros j r [(<- & He & _) | (Hne & Hj)]%list_lookup_insert_Some; [done | by apply (Hf j)].
  - destruct (Hh i _ Hi) as [-> (HI' & HG' & Ha)].
    split; [done |]. split; [by etrans |]. cbn [owner database replicas]. split; [| split].
    + intros j p [(<- & He & _) | (Hne & Hj)]%list_lookup_insert_Some; [by simplify_eq |].
      destruct (Hh j p Hj) as [? _]. congruence.
    + intros j Hj. simplify_eq. eexists. by rewrite list_lookup_insert_eq.
    + intros j r [(<- & He & _) | (Hne & Hj)]%list_lookup_insert_Some; [done | by eapply Q_stays, (Hf j)].
  - apply (inv_update d0 _ _ _ _ Hinv); [done | right; split; [done | by apply (Hh i _ Hi)] | done |].
    intros x He. simplify_eq. by apply (Hh i _ Hi).
  - apply (inv_update d0 _ _ _ _ Hinv); [done | left; split; [done |] | done | done].
    intros He. destruct (Ho i He) as [p Hp]. simpl in Hp. congruence.
  - apply (inv_update d0 _ _ _ _ Hinv); [done | right; split; [done | by apply (Hh i _ Hi)] | done | done].
Qed.

Lemma inv_turns d0 s s' : inv d0 s -> rtc turn s s' -> inv d0 s'.
Proof. intros Hs Hr. induction Hr as [s | s1 s2 s3 Hst _ IH]; [done |]. apply IH. by eapply inv_turn. Qed.

(** The holder of the lock can always finish. *)
Lemma holder_finishes p i l d rs :
  rs !! i = Some (Holding p) ->
  rtc turn (mkState l d rs) (mkState None (snd (run p d)) (<[i := Finished (fst (run p d))]> rs)).
Proof.
  revert d rs l. induction p as [r | X f k IH]; intros d rs l Hi; simpl.
  - apply rtc_once. by apply release.
  - eapply rtc_l; [by eapply work |]. destruct (f d) as [x d'] eqn:Ef. simpl.
    rewrite <- (list_insert_insert_eq rs i (Finished _) (Holding (k x))).
    apply IH. rewrite list_lookup_insert_eq; [done |]. by eapply lookup_lt_Some.
Qed.

Lemma alone_run {A} (P : A -> S -> Prop) (p : prog S A) d : alone I G P p d -> P (fst (run p d)) (snd (run p d)).
Proof.
  revert d. induction p as [a | X f k IH]; simpl; intros d; [done |]. intros (_ & _ & Ha).
  specialize (IH _ _ Ha). by destruct (f d).
Qed.

Lemma served d0 s i :
  inv d0 s -> replicas s !! i = Some Waiting ->
  exists s', rtc turn s s' /\ owner s' = None /\ exists r, replicas s' !! i = Some (Finished r).
Proof.
  intros Hinv Hi. pose proof Hinv as (HI & HG & Hh & Ho & Hf).
  assert (exists s1, rtc turn s s1 /\ owner s1 = None /\ replicas s1 !! i = Some Waiting) as ([l1 d1 rs1] & Hr1 & Hl1 & Hi1).
  { destruct s as [[j |] d rs]; [| by eexists]. destruct (Ho j eq_refl) as [p Hp]. simpl in *.
    eexists. split; [by apply holder_finishes |]. split; [done |]. cbn. rewrite list_lookup_insert_ne; [done | congruence]. }
  simpl in *. subst l1.
  eexists (mkState None _ _). split; [etrans; [exact Hr1 |] |].
  - eapply rtc_l; [by apply take |]. apply holder_finishes. rewrite list_lookup_insert_eq; [done | by eapply lookup_lt_Some].
  - split; [done |]. eexists. cbn. rewrite list_lookup_insert_eq; [done |]. rewrite length_insert. by eapply lookup_lt_Some.
Qed.
End turns.
Arguments replica : clear implicits. Arguments state : clear implicits.
End Turns.

(** ** The statements of the schema *)

Module SchemaSetup.

Import Ddl Turns.
Open Scope prog_scope.
Abbreviation DbM := Migrate.DbM.
Abbreviation relations := (gmap string (list string)).

(** The relation a statement makes, its columns, and what it looks up. *)
Definition parents (t : string) (ds : list def) : list string :=
  List.filter (fun p => negb (String.eqb p t)) (map fst (omap def_reference ds)).
Definition relation_of (st : statement) : string := match st with CreateTable t _ => t | CreateIndex i _ _ => i | Pragma _ => EmptyString end.
Definition columns_of (st : statement) : list string := match st with CreateTable _ ds => columns ds | CreateIndex _ _ cs => cs | Pragma _ => [] end.
Definition satisfied (st : statement) (rs : relations) : bool :=
  match st with
  | CreateTable t ds => forallb (fun p => bool_decide (is_Some (rs !! p))) (parents t ds)
  | CreateIndex _ t cs => match rs !! t with Some cols => forallb (Migrate.has cols) cs | None => false end
  | Pragma _ => false
  end.

Definition look (st : statement) (rs : relations) : result error (bool * relations) :=
  if bool_decide (is_Some (rs !! relation_of st)) then Ok (true, rs)
  else if satisfied st rs then Ok (false, rs) else Err (Driver "relation or column does not exist").
Definition add (st : statement) (rs : relations) : result error (unit * relations) :=
  if bool_decide (is_Some (rs !! relation_of st)) then Err (Driver "duplicate key value violates unique constraint")
  else Ok (tt, <[relation_of st := columns_of st]> rs).

(** One statement of the text, as PostgreSQL executes it. *)
Definition create (st : statement) : DbM unit :=
  there <-! Migrate.statement (look st) ;;
  if (there : bool) then Ret (Ok tt) else Migrate.statement (add st).
Definition exec (text : string) : DbM unit :=
  match read_statement (words Plain EmptyString text) with
  | Some st => create st
  | None => Migrate.statement (fun _ => Err (Driver "syntax error"))
  end.

Definition wrapping (pre : string) (p : DbM unit) : DbM unit :=
  r <- p ;; Ret (match r with Ok a => Ok a | Err e => Err (Wrapf pre e) end).

(** What [applyPostgresSchema] does between taking and releasing the lock. *)
Definition schema_and_columns : DbM unit :=
  _ <-! wrapping "apply schema" (Migrate.execStatements exec schemaPostgres) ;;
  wrapping "migrate database" Migrate.migratePostgres.

(** The replicas, with the lock. *)
Abbreviation setup_state := (state Migrate.Db (result error unit) error).
Definition applyPostgresSchema : setup_state -> setup_state -> Prop := turn schema_and_columns.
Definition opening (d : Migrate.Db) (n : nat) : setup_state := start d n.

(** *** A text that can be executed from the top *)

Definition indexed (sts : list statement) (t : string) : list string :=
  mjoin (omap (fun st => match st with CreateIndex _ t' cs => if String.eqb t t' then Some cs else None | _ => None end) sts).
Definition good_statement (sts : list statement) (known : list string) (st : statement) : bool :=
  bool_decide (NoDup (map Str.ToLower (columns_of st))) &&
  match st with
  | CreateTable t ds => forallb (fun p => bool_decide (p ∈ known)) (parents t ds) && forallb (Migrate.has (columns ds)) (indexed sts t)
  | CreateIndex i t cs => bool_decide (t ∈ known) && bool_decide (indexed sts i = []) && forallb (fun c => bool_decide (c ∈ indexed sts t)) cs
  | Pragma _ => false
  end.
Fixpoint well_ordered (all : list statement) (known : list string) (sts : list statement) : bool :=
  match sts with
  | [] => true
  | st :: sts' => good_statement all known st && well_ordered all (relation_of st :: known) sts'
  end.

#[local] Arguments Migrate.answer : simpl never.

Section Text.
Variable sts : list statement.

(** No statement is going to fail for another reason, no relation names a
    column twice, and a table of an earlier release has the columns that are
    indexed now. *)
Definition sane (d : Migrate.Db) : Prop :=
  Migrate.failures d = [] /\
  forall t cols, Migrate.tables d !! t = Some cols -> Migrate.unique cols /\ forallb (Migrate.has cols) (indexed sts t) = true.
Definition there (d : Migrate.Db) (t : string) : Prop := is_Some (Migrate.tables d !! t).

Lemma there_grows d d' t : Migrate.grows d d' -> there d t -> there d' t.
Proof. intros Hg [cols Ht]. destruct (Hg _ _ Ht) as [more Hm]. by eexists. Qed.

Lemma answer_sane {A} (f : relations -> result error (A * relations)) d :
  sane d -> Migrate.answer f d = match f (Migrate.tables d) with Ok (a, t) => (Ok a, Migrate.mkDb t []) | Err e => (Err e, Migrate.mkDb (Migrate.tables d) []) end.
Proof. intros (Hf & _). unfold Migrate.answer. rewrite Hf. by destruct (f (Migrate.tables d)) as [[a t] |]. Qed.

Lemma sane_same d : sane d -> Migrate.mkDb (Migrate.tables d) [] = d.
Proof. intros (Hf & _). destruct d as [ts fs]. simpl in *. by subst. Qed.

Lemma satisfied_known known st d :
  sane d -> good_statement sts known st = true -> (forall t, t ∈ known -> there d t) -> satisfied st (Migrate.tables d) = true.
Proof.
  intros (_ & Hd) (_ & Hg)%andb_true_iff Hk. destruct st as [t ds | i t cs | w]; [| | done]; simpl in *.
  - apply andb_true_iff in Hg as [Hp _]. rewrite forallb_forall in Hp |- *. intros p Hin.
    apply bool_decide_eq_true, Hk. by apply (bool_decide_eq_true_1 _ (Hp p Hin)).
  - apply andb_true_iff in Hg as [Hg Hc]. rewrite forallb_forall in Hc. apply andb_true_iff in Hg as [Ht%bool_decide_eq_true _].
    destruct (Hk t Ht) as [cols Hcols]. rewrite Hcols. destruct (Hd _ _ Hcols) as [_ Hi].
    rewrite forallb_forall in Hi |- *. intros c Hin. apply Hi, list_elem_of_In.
    exact (bool_decide_eq_true_1 _ (Hc c Hin)).
Qed.

Lemma good_columns known st :
  good_statement sts known st = true ->
  Migrate.unique (columns_of st) /\ forallb (Migrate.has (columns_of st)) (indexed sts (relation_of st)) = true.
Proof.
  intros (Hu%bool_decide_eq_true & Hg)%andb_true_iff. split; [done |].
  destruct st as [t ds | i t cs | w]; [| | done]; simpl in *.
  - by apply andb_true_iff in Hg as [_ Hg].
  - apply andb_true_iff in Hg as [Hg _]. apply andb_true_iff in Hg as [_ Hi%bool_decide_eq_true]. by rewrite Hi.
Qed.

Lemma added_sane known st d :
  sane d -> good_statement sts known st = true -> Migrate.tables d !! relation_of st = None ->
  let d' := Migrate.mkDb (<[relation_of st := columns_of st]> (Migrate.tables d)) [] in
  sane d' /\ Migrate.grows d d' /\ there d' (relation_of st).
Proof.
  intros Hd Hg Hn d'. subst d'. split; [split; [done |] | split].
  - intros t cols. cbn [Migrate.tables]. intros [(<- & <-) | (Hne & Ht)]%lookup_insert_Some; [by eapply good_columns | by apply Hd].
  - intros t cols Ht. cbn [Migrate.tables]. exists []. rewrite app_nil_r, lookup_insert_ne; [done | congruence].
  - unfold there. cbn [Migrate.tables]. rewrite lookup_insert_eq. by eexists.
Qed.

Abbreviation by_itself := (alone sane Migrate.grows).

Lemma create_alone known st d :
  sane d -> good_statement sts known st = true -> (forall t, t ∈ known -> there d t) ->
  by_itself (fun r d' => r = Ok tt /\ sane d' /\ there d' (relation_of st)) (create st) d.
Proof.
  intros Hd Hg Hk. unfold create. apply alone_bind. unfold Migrate.statement. cbn [alone act].
  rewrite answer_sane by done. unfold look.
  destruct (Migrate.tables d !! relation_of st) as [cols |] eqn:Ht.
  - rewrite bool_decide_true by by eexists. cbn. rewrite sane_same by done. split; [done |]. split; [reflexivity |].
    split; [done |]. split; [done |]. by eexists.
  - rewrite bool_decide_false by by intros [? ?]. rewrite satisfied_known with (known := known) by done. cbn.
    rewrite sane_same by done. split; [done |]. split; [reflexivity |].
    destruct (added_sane known st d Hd Hg Ht) as (Hs & Hgr & Hth).
    rewrite answer_sane by done. unfold add. rewrite Ht, bool_decide_false by by intros [? ?]. cbn. done.
Qed.

Lemma exec_reads text st : read_statement (words Plain EmptyString text) = Some st -> exec text = create st.
Proof. unfold exec. by intros ->. Qed.

Lemma exec_each_alone known texts sts' d :
  mapM (fun s => read_statement (words Plain EmptyString s)) texts = Some sts' -> well_ordered sts known sts' = true ->
  sane d -> (forall t, t ∈ known -> there d t) ->
  by_itself (fun r d' => r = Ok tt /\ sane d' /\ forall t, t ∈ known \/ t ∈ map relation_of sts' -> there d' t) (Migrate.exec_each exec texts) d.
Proof.
  intros Hm%mapM_Some. revert known d.
  induction Hm as [| text st texts sts' Hr _ IH]; intros known d Hw Hd Hk.
  - simpl. split; [done |]. split; [done |]. intros t [Ht | Ht]; [by apply Hk | by apply elem_of_nil in Ht].
  - apply andb_true_iff in Hw as [Hg Hw]. cbn [Migrate.exec_each]. apply alone_bind. rewrite (exec_reads _ _ Hr).
    eapply alone_mono; [apply alone_since; [apply _ | apply _ |]; by apply (create_alone known) |].
    intros r d1 ((-> & Hd1 & Ht1) & Hgr). eapply alone_mono.
    + apply (IH (relation_of st :: known)); [done | done |]. intros t [-> | Ht]%elem_of_cons; [done | by eapply there_grows, Hk].
    + intros r d2 (-> & Hd2 & Hth). split; [done |]. split; [done |]. intros t Ht. apply Hth. simpl in Ht. set_solver.
Qed.

(** *** The columns of the migrations *)

Definition tables_there (d : Migrate.Db) : Prop := forall c, c ∈ Migrate.addedColumns -> there d (Migrate.table c).

Lemma column_alone c d :
  sane d -> tables_there d -> c ∈ Migrate.addedColumns ->
  by_itself (fun r d' => r = Ok tt /\ sane d' /\ Migrate.present d' c) (Migrate.migrate_postgres_column c) d.
Proof.
  intros Hd Ht Hc. pose proof Hd as (Hf & Hcols).
  destruct (Migrate.add_column_ready true c d) as (ts & He & (_ & _ & Hu) & Hg & Hp); [| done | done |].
  { split; [done |]. split; [exact Ht |]. intros t cols Htc. by apply (Hcols t). }
  assert (sane (Migrate.mkDb ts [])) as Hs.
  { split; [done |]. intros t cols Htc. split; [by eapply Hu |].
    destruct (Migrate.add_column_dom _ _ _ _ _ t He) as [cols0 H0]; [by eexists |].
    destruct (Hg t cols0 H0) as [more Hm]. simplify_eq. destruct (Hcols t cols0 H0) as [_ Hi].
    rewrite forallb_forall in Hi |- *. intros x Hx. unfold Migrate.has in *. by rewrite existsb_app, Hi. }
  unfold Migrate.migrate_postgres_column, Migrate.or_add_error, Migrate.statement. cbn.
  rewrite answer_sane, He by done. cbn. done.
Qed.

Lemma each_column_alone cs d :
  (forall c, c ∈ cs -> c ∈ Migrate.addedColumns) -> sane d -> tables_there d ->
  by_itself (fun r d' => r = Ok tt /\ sane d' /\ Forall (Migrate.present d') cs) (Migrate.each Migrate.migrate_postgres_column cs) d.
Proof.
  revert d. induction cs as [| c cs IH]; intros d Hcs Hd Ht; [by simpl |]. cbn [Migrate.each]. apply alone_bind.
  eapply alone_mono; [apply alone_since; [apply _ | apply _ |]; apply column_alone; [done | done | set_solver] |].
  intros r d1 ((-> & Hd1 & Hp) & Hg). eapply alone_mono; [apply alone_since; [apply _ | apply _ |]; apply IH |].
  - set_solver.
  - done.
  - intros c' Hc'. by eapply there_grows, Ht.
  - intros r d2 ((-> & Hd2 & Hps) & Hg2). split; [done |]. split; [done |]. constructor; [by eapply Migrate.present_grows | done].
Qed.
End Text.

(** *** The whole of it *)

Definition postgres_statements : list statement :=
  default [] (mapM (fun s => read_statement (words Plain EmptyString s)) (Migrate.statements schemaPostgres)).

Lemma postgres_statements_read :
  mapM (fun s => read_statement (words Plain EmptyString s)) (Migrate.statements schemaPostgres) = Some postgres_statements.
Proof. vm_compute. reflexivity. Qed.
Lemma postgres_statements_ordered : well_ordered postgres_statements [] postgres_statements = true.
Proof. vm_compute. reflexivity. Qed.
Lemma migrated_tables_created :
  forallb (fun c => bool_decide (Migrate.table c ∈ map relation_of postgres_statements)) Migrate.addedColumns = true.
Proof. vm_compute. reflexivity. Qed.

(** A database with all of the tables, indexes and columns. *)
Definition complete (d : Migrate.Db) : Prop :=
  (forall t, t ∈ map relation_of postgres_statements -> there d t) /\ Forall (Migrate.present d) Migrate.addedColumns.

Lemma complete_grows d d' : Migrate.grows d d' -> complete d -> complete d'.
Proof.
  intros Hg [Ht Hp]. split; [intros t Hin; by eapply there_grows, Ht |].
  eapply Forall_impl; [exact Hp |]. intros c. by apply Migrate.present_grows.
Qed.

Definition outcome (r : result error unit) (d : Migrate.Db) : Prop := r = Ok tt /\ complete d.

Lemma body_alone d :
  sane postgres_statements d -> alone (sane postgres_statements) Migrate.grows outcome schema_and_columns d.
Proof.
  intros Hd. unfold schema_and_columns, wrapping. apply alone_bind, alone_bind.
  eapply alone_mono; [apply (exec_each_alone postgres_statements []); [exact postgres_statements_read | exact postgres_statements_ordered | done | by intros t ?%elem_of_nil] |].
  intros r d1 (-> & Hd1 & Ht1). apply alone_bind.
  eapply alone_mono; [apply alone_since; [apply _ | apply _ |]; apply (each_column_alone postgres_statements); [done | done |] |].
  - intros c Hc. apply Ht1. right. apply list_elem_of_In in Hc.
    exact (bool_decide_eq_true_1 _ (proj1 (forallb_forall _ _) migrated_tables_created c Hc)).
  - intros r d2 ((-> & Hd2 & Hp) & Hg). split; [done |]. split; [| done]. intros t Ht. eapply there_grows; [done |]. apply Ht1. by right.
Qed.

Lemma outcome_grows r d d' : Migrate.grows d d' -> outcome r d -> outcome r d'.
Proof. intros Hg [-> Hc]. split; [done |]. by eapply complete_grows. Qed.

Lemma inv_opening d n s :
  sane postgres_statements d -> rtc applyPostgresSchema (opening d n) s ->
  inv (sane postgres_statements) Migrate.grows outcome d s.
Proof.
  intros Hd Hr. refine (inv_turns schema_and_columns (sane _) Migrate.grows outcome body_alone outcome_grows d (opening d n) s _ Hr).
  apply (inv_start (sane postgres_statements) Migrate.grows outcome). exact Hd.
Qed.

(** C27.  Replicas that open one PostgreSQL database at the same moment, new or
    of an earlier release, take turns: at most one is changing the schema,
    every one that finishes has succeeded and leaves all of the tables,
    indexes and columns in place, and tables only gained columns; also when
    others are refused or lose their session half-way. *)
Theorem replicas_take_turns d n s :
  sane postgres_statements d -> rtc applyPostgresSchema (opening d n) s ->
  Migrate.grows d (database s) /\
  (forall i j p q, replicas s !! i = Some (Holding p) -> replicas s !! j = Some (Holding q) -> i = j) /\
  (forall i r, replicas s !! i = Some (Finished r) -> r = Ok tt /\ complete (database s)).
Proof.
  intros Hd Hr. destruct (inv_opening d n s Hd Hr) as (HI & HG & Hh & _ & Hf).
  split; [done |]. split; [| exact Hf]. intros i j p q Hi Hj.
  destruct (Hh i p Hi) as [Hoi _], (Hh j q Hj) as [Hoj _]. congruence.
Qed.

(** C28.  No replica is locked out: from whatever the others have done so far,
    one that waits can still get its turn and succeed. *)
Theorem every_replica_can_start d n s i :
  sane postgres_statements d -> rtc applyPostgresSchema (opening d n) s -> replicas s !! i = Some Waiting ->
  exists s', rtc applyPostgresSchema s s' /\ replicas s' !! i = Some (Finished (Ok tt)) /\ complete (database s').
Proof.
  intros Hd Hr Hi. pose proof (inv_opening d n s Hd Hr) as Hinv.
  destruct (served schema_and_columns (sane postgres_statements) Migrate.grows outcome d s i Hinv Hi) as (s' & Hr' & _ & r & Hi').
  destruct (inv_turns schema_and_columns (sane _) Migrate.grows outcome body_alone outcome_grows d _ _ Hinv Hr') as (_ & _ & _ & _ & Hf).
  destruct (Hf i r Hi') as [-> Hc]. by exists s'.
Qed.

(** *** A new database *)

Definition fresh : Migrate.Db := Migrate.mkDb ∅ [].
Lemma fresh_sane : sane postgres_statements fresh.
Proof. split; [done |]. by intros t cols. Qed.

Lemma every_replica_can_start_witness :
  exists s', rtc applyPostgresSchema (opening fresh 2) s' /\ replicas s' !! 1 = Some (Finished (Ok tt)) /\ complete (database s').
Proof.
  exact (every_replica_can_start fresh 2 (opening fresh 2) 1 fresh_sane (rtc_refl _ _) eq_refl).
Defined.

Lemma replicas_take_turns_witness :
  exists s : setup_state, replicas s = [Finished (Ok tt); Waiting] /\ complete (database s).
Proof.
  assert (rtc applyPostgresSchema (opening fresh 2)
    (mkState None (snd (run schema_and_columns fresh)) [Finished (fst (run schema_and_columns fresh)); Waiting])) as Hr.
  { eapply rtc_l; [by apply (take _ 0) |]. exact (holder_finishes (E := error) schema_and_columns schema_and_columns 0 (Some 0) fresh [Holding schema_and_columns; Waiting] eq_refl). }
  assert (fst (run schema_and_columns fresh) = Ok tt) as He by (vm_compute; reflexivity). rewrite He in Hr.
  eexists. split; [| exact (proj2 (proj2 (proj2 (replicas_take_turns fresh 2 _ fresh_sane Hr)) 0 (Ok tt) eq_refl))]. reflexivity.
Defined.

(** Without the lock two replicas can both find the first table missing,
    and the second fails on the catalogue and does not start. *)
Theorem replicas_race_without_the_lock :
  exists d, rtc pstep (fresh, [schema_and_columns; schema_and_columns])
    (d, [Ret (Ok tt);
         Ret (Err (Wrapf "apply schema" (Wrapf "CREATE TABLE IF NOT EXISTS cas ("
           (Driver "duplicate key value violates unique constraint"))))])%string.
Proof.
  set (turns := ([0;1;0;1] ++ replicate 80 0)%list). set (c := (fresh, [schema_and_columns; schema_and_columns])).
  exists (fst (schedule turns c)).
  match goal with |- rtc _ _ (_, ?ps) => assert (snd (schedule turns c) = ps) as <- by (vm_compute; reflexivity) end.
  rewrite <- surjective_pairing. apply schedule_rtc.
Qed.
End SchemaSetup.
