(* ===== verification/AcmeService.v ===== *)
(** * The ACME server (internal/acme/service.go, jws.go)

    RFC 8555 restricted to External Account Binding.  Every handler takes the
    body of the signed request and answers with an object or a [Problem].  The
    JOSE library, encoding/json on the request payloads, base64url and RFC 3339
    times are the class [Wire].  Metrics counters are not modelled. *)

From S2P Require Import Prelude GoStrings Effects Models Schema Store AcmeStore Pki Sealing CaService AcmePolicy.

Module AcmeService.

Open Scope prog_scope.

(** ** Wire data *)

Record NewAccountRequest := mkNewAccount {
  na_Contact : list string; OnlyReturnExisting : bool; ExternalAccountBinding : string }.

(** [ua_Contact] is [None] when the field is absent. *)
Record UpdateAccountRequest := mkUpdateAccount { ua_Contact : option (list string); ua_Status : string }.

Record NewOrderRequest := mkNewOrder {
  no_Identifiers : list AcmeIdentifier.t; NotBefore : string; NotAfter : string }.

Record RevokeCertRequest := mkRevokeCert { rc_Certificate : string; rc_Reason : option Z }.

Record AccountObject := mkAccountObject { ao_Status : string; ao_Contact : list string; ao_Orders : string }.

Record OrderObject := mkOrderObject {
  oo_Status : string; oo_Expires : string; oo_Identifiers : list AcmeIdentifier.t;
  oo_Error : option Problem.t; oo_Authorizations : list string; oo_Finalize : string;
  oo_Certificate : string; oo_NotAfter : string }.

Record ChallengeObject := mkChallengeObject {
  co_Type : string; co_URL : string; co_Status : string; co_Validated : string; co_Token : string }.

Record AuthorizationObject := mkAuthzObject {
  az_Identifier : AcmeIdentifier.t; az_Status : string; az_Expires : string;
  az_Challenges : list ChallengeObject; az_Wildcard : bool }.

(** The header of one JWS signature, with the extra header goca reads. *)
Record Header (K : Type) := mkHeader {
  h_KeyID : string; h_JWK : option K; h_Nonce : string; h_url : string; h_extra : bool }.
Arguments mkHeader {K}. Arguments h_KeyID {K}. Arguments h_JWK {K}. Arguments h_Nonce {K}.
Arguments h_url {K}. Arguments h_extra {K}.

Class Wire `{Std : Pki.Std} := {
  JWK : Type;
  JWS : Type;                                   (* jose.JSONWebSignature *)
  parse_signed : bool -> string -> result error JWS;   (* true: the EAB algorithms *)
  signatures : JWS -> list (Header JWK * Header JWK);  (* protected, unprotected *)
  verify : JWS -> JWK -> result error string;
  verify_hmac : JWS -> string -> result error string;
  thumbprint : JWK -> result error string;
  jwk_marshal : JWK -> result error string;
  jwk_unmarshal : string -> result error JWK;
  jwk_is_key : JWK -> Pki.PublicKey -> bool;
  decode_new_account : string -> result error NewAccountRequest;
  decode_update_account : string -> result error UpdateAccountRequest;
  decode_new_order : string -> result error NewOrderRequest;
  decode_finalize : string -> result error string;             (* the csr field *)
  decode_revoke : string -> result error RevokeCertRequest;
  decode_problem : string -> option Problem.t;
  rawurl_Encode : string -> string;
  rawurl_Decode : string -> result error string;
  time_Parse : string -> option Z;
  time_Format : Z -> string }.

Abbreviation P A := (prog world (result Problem.t A)).

(** [if err != nil { return f(err) }] *)
Definition or_problem {A} (f : error -> Problem.t) (p : M A) : P A :=
  r <- p ;; Ret (match r with Ok a => Ok a | Err e => Err (f e) end).
Definition internal (e : error) : Problem.t := Problem.ServerInternal (Error e).
Definition reject (p : option Problem.t) : result Problem.t unit :=
  match p with Some p => Err p | None => Ok tt end.

(** ** The account a kid names *)

Fixpoint all_digits (s : string) : bool :=
  match s with EmptyString => true | String c s' => Str.is_digit c && all_digits s' end.

(** accountURLRe: the leftmost "/acme/account/<digits>" that ends the text; a
    number beyond int64 leaves the id at zero. *)
Fixpoint account_id (kid : string) : option Z :=
  let here :=
    let '(rest, ok) := Str.CutPrefix kid "/acme/account/" in
    if ok && nonempty rest && all_digits rest
    then v ← CaService.digits_value rest 0; Some (if (v <? 2 ^ 63)%Z then v else 0%Z)
    else None in
  match here with
  | Some id => Some id
  | None => match kid with EmptyString => None | String _ kid' => account_id kid' end
  end.

(** len(p.Payload) == 0 *)
Definition IsPostAsGet (payload : string) : bool := str_is payload "".

Section service.
Context `{Wire} `{Ciphers} `{RowOrder}.
Context (cfg : CaService.Config) (master : string).
Context (sink : string -> string -> string -> string -> string -> prog world unit).

Definition audit (actor action target detail : string) : prog world unit :=
  CaService.AuditWithIP sink actor action target detail "".

(** ** URLs *)

Definition acmeBase : string := (Str.TrimRight (CaService.BaseURL cfg) "/" +:+ "/acme")%go.
Definition newAccountURL : string := (acmeBase +:+ "/new-account")%go.
Definition newOrderURL : string := (acmeBase +:+ "/new-order")%go.
Definition revokeCertURL : string := (acmeBase +:+ "/revoke-cert")%go.
Definition resource_url (kind : string) (id : Z) : string :=
  (acmeBase +:+ "/" +:+ kind +:+ "/" +:+ Str.itoa id)%go.
Definition accountURL := resource_url "account".
Definition orderURL := resource_url "order".
Definition authzURL := resource_url "authz".
Definition challengeURL := resource_url "challenge".
Definition certURL := resource_url "cert".
Definition finalizeURL (id : Z) : string := (orderURL id +:+ "/finalize")%go.
Definition accountOrdersURL (id : Z) : string := (accountURL id +:+ "/orders")%go.

(** ** JWS *)

Record ParsedJWS := mkParsed { pj_KeyID : string; pj_JWK : option JWK; pj_Nonce : string; pj_URL : string; raw : JWS }.

Definition has_jwk {K} (h : Header K) : bool := match h_JWK h with Some _ => true | None => false end.

Definition ParseJWS (body : string) : result error ParsedJWS :=
  match parse_signed false body with
  | Err e => Err (Wrapf "parse JWS" e)
  | Ok obj =>
      match signatures obj with
      | [(hdr, un)] =>
          if nonempty (h_KeyID un) || has_jwk un || nonempty (h_Nonce un) || h_extra un
          then Err (Errorf "unprotected JWS headers are not permitted")
          else if nonempty (h_KeyID hdr) && has_jwk hdr
          then Err (Errorf "a JWS must not carry both jwk and kid")
          else if str_is (h_KeyID hdr) "" && negb (has_jwk hdr)
          then Err (Errorf "a JWS must carry jwk or kid")
          else if str_is (h_url hdr) ""
          then Err (Errorf (Str.Sprintf "a JWS must carry a %q protected header" [Str.AStr "url"]))
          else Ok (mkParsed (h_KeyID hdr) (h_JWK hdr) (h_Nonce hdr) (h_url hdr) obj)
      | _ => Err (Errorf "a JWS must carry exactly one signature")
      end
  end.

Definition Verify (p : ParsedJWS) (key : JWK) : result error string :=
  match verify (raw p) key with
  | Ok payload => Ok payload
  | Err e => Err (Wrapf "JWS signature verification failed" e)
  end.

(** An empty payload decodes into the zero value. *)
Definition DecodePayload {A} (zero : A) (decode : string -> result error A) (payload : string) : result error A :=
  if IsPostAsGet payload then Ok zero
  else match decode payload with Ok a => Ok a | Err e => Err (Wrapf "decode JWS payload" e) end.

Definition malformed_of {A} (r : result error A) : result Problem.t A :=
  match r with Ok a => Ok a | Err e => Err (Problem.Malformed (Error e)) end.

Definition checkURL (p : ParsedJWS) (want : string) : result Problem.t unit :=
  if str_is (pj_URL p) want then Ok tt
  else Err (Problem.Unauthorized "this request's url header does not match the endpoint it was sent to").

Definition checkNonce (p : ParsedJWS) : P unit :=
  ok <- NonceManager.Consume (pj_Nonce p) ;;
  Ret (if ok then Ok tt else Err (Problem.BadNonce "the nonce was missing, unknown, or already used")).

(** The key id of an external account binding, with what is wrong with it or
    the credential that verified it. *)
Definition eab_header (eabJSON outerURL : string) : string * result error JWS :=
  if str_is eabJSON "" then (EmptyString, Err (Errorf "no externalAccountBinding was supplied"))
  else match parse_signed true eabJSON with
  | Err e => (EmptyString, Err (Wrapf "parse externalAccountBinding" e))
  | Ok obj =>
      match signatures obj with
      | [(hdr, _)] =>
          let keyID := h_KeyID hdr in
          (keyID,
           if str_is keyID "" then Err (Errorf "externalAccountBinding is missing kid")
           else if has_jwk hdr then Err (Errorf "externalAccountBinding must not carry a jwk header")
           else if nonempty (h_Nonce hdr) then Err (Errorf "externalAccountBinding must not carry a nonce")
           else if negb (str_is (h_url hdr) outerURL)
           then Err (Errorf "externalAccountBinding url does not match the request url")
           else Ok obj)
      | _ => (EmptyString, Err (Errorf "externalAccountBinding must carry exactly one signature"))
      end
  end.

(** The signature and the key an external account binding binds. *)
Definition eab_binds (obj : JWS) (hmacKey : string) (accountJWK : JWK) : result error unit :=
  match verify_hmac obj hmacKey with
  | Err e => Err (Wrapf "externalAccountBinding signature is invalid" e)
  | Ok payload =>
  match jwk_unmarshal payload with
  | Err e => Err (Wrapf "externalAccountBinding payload is not a JWK" e)
  | Ok bound =>
  match thumbprint accountJWK with
  | Err e => Err (Wrapf "compute account key thumbprint" e)
  | Ok want =>
  match thumbprint bound with
  | Err e => Err (Wrapf "compute bound key thumbprint" e)
  | Ok got => if str_is want got then Ok tt
              else Err (Errorf "externalAccountBinding does not bind the account's own key")
  end end end end.

Definition VerifyEAB (eabJSON outerURL : string) (accountJWK : JWK) : prog world (string * result error EABCred.t) :=
  let '(keyID, r) := eab_header eabJSON outerURL in
  match r with
  | Err e => Ret (keyID, Err e)
  | Ok obj =>
      let unknown := Errorf (Str.Sprintf "unknown external account binding key id %q" [Str.AStr keyID]) in
      c <- AcmeStore.GetEABCredByKeyID keyID ;;
      Ret (keyID,
        match c with
        | Err _ => Err unknown
        | Ok cred =>
            match CaService.box_Decrypt master (EABCred.HMACKeyEnc cred) with
            | Err _ => Err unknown
            | Ok key => result_bind (eab_binds obj key accountJWK) (fun _ => Ok cred)
            end
        end)
  end.

(** ** Accounts *)

Definition accountObject (a : AcmeAccount.t) : AccountObject :=
  mkAccountObject (AcmeAccount.Status a) (AcmeAccount.Contact a) (accountOrdersURL (AcmeAccount.ID a)).

Definition zero_new_account : NewAccountRequest := mkNewAccount [] false "".

(** The request of /new-account after its checks: the key, its thumbprint and
    the payload. *)
Definition new_account_request (p : ParsedJWS) : result Problem.t (JWK * string * NewAccountRequest) :=
  match pj_JWK p with
  | None => Err (Problem.Malformed "new-account requests must be signed with an embedded jwk, not kid")
  | Some jwk =>
      result_bind (malformed_of (Verify p jwk)) (fun payload =>
      result_bind (malformed_of (DecodePayload zero_new_account decode_new_account payload)) (fun req =>
      match thumbprint jwk with
      | Err e => Err (Problem.ServerInternal (Error (Wrapf "compute account key thumbprint" e)))
      | Ok thumb => Ok (jwk, thumb, req)
      end))
  end.

(** Registration proper: the credential, its slot, the account row. *)
Definition register (url : string) (jwk : JWK) (thumb : string) (req : NewAccountRequest)
    : P (AcmeAccount.t * AccountObject * bool) :=
  eab <- VerifyEAB (ExternalAccountBinding req) url jwk ;;
  let '(keyID, r) := eab in
  match r with
  | Err e =>
      audit "acme" "acme.account.rejected" keyID (Error e) ;;;
      Ret (Err (Problem.ExternalAccountRequired (Error e)))
  | Ok cred =>
      now <- time_Now ;;
      if negb (EABCred_Usable now cred) then
        let reason := "the external account binding key is disabled, expired, or has reached its account limit"%string in
        audit "acme" "acme.account.rejected" keyID reason ;;;
        Ret (Err (Problem.ExternalAccountRequired reason))
      else
        reserved <-! or_problem internal (AcmeStore.ReserveEABAccountSlot (EABCred.ID cred)) ;;
        if negb reserved then
          let reason := "the external account binding key has reached its account limit"%string in
          audit "acme" "acme.account.rejected" keyID reason ;;;
          Ret (Err (Problem.ExternalAccountRequired reason))
        else
          match jwk_marshal jwk with
          | Err e =>
              _ <- AcmeStore.ReleaseEABAccountSlot (EABCred.ID cred) ;;
              Ret (Err (internal e))
          | Ok jwkJSON =>
              created <- time_Now ;;
              a <- AcmeStore.CreateAcmeAccount
                     (AcmeAccount.mk 0 (EABCred.ID cred) jwkJSON thumb (na_Contact req) AcmeStatusValid created None "") ;;
              match a with
              | Err e =>
                  _ <- AcmeStore.ReleaseEABAccountSlot (EABCred.ID cred) ;;
                  Ret (Err (internal e))
              | Ok account =>
                  audit ("acme:" +:+ EABCred.Name cred)%go "acme.account.create" (Str.itoa (AcmeAccount.ID account))
                    (Str.Sprintf "eab=%s contact=%v" [Str.AStr (EABCred.Name cred);
                       Str.AStr ("[" +:+ Str.Join (na_Contact req) " " +:+ "]")%go]) ;;;
                  Ret (Ok (account, accountObject account, true))
              end
          end
  end.

Definition NewAccount (body : string) : P (AcmeAccount.t * AccountObject * bool) :=
  p <-! Ret (malformed_of (ParseJWS body)) ;;
  _ <-! Ret (checkURL p newAccountURL) ;;
  _ <-! checkNonce p ;;
  req <-! Ret (new_account_request p) ;;
  let '(jwk, thumb, req) := req in
  existing <- AcmeStore.GetAcmeAccountByThumbprint thumb ;;
  match existing with
  | Ok a =>
      if negb (str_is (AcmeAccount.Status a) AcmeStatusValid)
      then Ret (Err (Problem.Unauthorized (Str.Sprintf "the account for this key is %s" [Str.AStr (AcmeAccount.Status a)])))
      else _ <- AcmeStore.TouchAcmeAccountUsed (AcmeAccount.ID a) ;; Ret (Ok (a, accountObject a, false))
  | Err e =>
      if negb (is_not_found e) then Ret (Err (internal e))
      else if OnlyReturnExisting req
      then Ret (Err (Problem.AccountDoesNotExist "no account is registered for this key"))
      else match Policy.validContacts (na_Contact req) with
        | Some pr => Ret (Err pr)
        | None => register (pj_URL p) jwk thumb req
        end
  end.

Definition ResolveAccount (kid : string) : P AcmeAccount.t :=
  match account_id kid with
  | None => Ret (Err (Problem.AccountDoesNotExist "malformed account url"))
  | Some id =>
      a <- AcmeStore.GetAcmeAccount id ;;
      Ret (match a with
           | Err _ => Err (Problem.AccountDoesNotExist "no such account")
           | Ok a => if str_is (AcmeAccount.Status a) AcmeStatusValid then Ok a
                     else Err (Problem.Unauthorized (Str.Sprintf "this account is %s" [Str.AStr (AcmeAccount.Status a)]))
           end)
  end.

(** The verified payload and the account that signed it. *)
Definition authenticate (body expectedURL : string) : P (string * AcmeAccount.t) :=
  p <-! Ret (malformed_of (ParseJWS body)) ;;
  _ <-! Ret (checkURL p expectedURL) ;;
  _ <-! checkNonce p ;;
  if str_is (pj_KeyID p) "" then Ret (Err (Problem.Malformed "this request must be signed with kid, not an embedded jwk"))
  else
    account <-! ResolveAccount (pj_KeyID p) ;;
    match jwk_unmarshal (AcmeAccount.JWKJSON account) with
    | Err e => Ret (Err (internal (Wrapf "stored account key is corrupt" e)))
    | Ok jwk =>
        payload <-! Ret (malformed_of (Verify p jwk)) ;;
        _ <- AcmeStore.TouchAcmeAccountUsed (AcmeAccount.ID account) ;;
        Ret (Ok (payload, account))
    end.

Definition actor_of (a : AcmeAccount.t) : string := Str.Sprintf "acme:account:%d" [Str.AInt (AcmeAccount.ID a)].

Definition GetAccount (accountID : Z) (body : string) : P AccountObject :=
  ar <-! authenticate body (accountURL accountID) ;;
  let '(payload, account) := ar in
  if negb (AcmeAccount.ID account =? accountID)%Z
  then Ret (Err (Problem.Unauthorized "this is not your account"))
  else if IsPostAsGet payload then Ret (Ok (accountObject account))
  else
    req <-! Ret (malformed_of (DecodePayload (mkUpdateAccount None "") decode_update_account payload)) ;;
    if nonempty (ua_Status req) && negb (str_is (ua_Status req) AcmeStatusDeactivated)
    then Ret (Err (Problem.Malformed (Str.Sprintf "status can only be set to %q" [Str.AStr AcmeStatusDeactivated])))
    else
      _ <-! Ret (reject (Policy.validContacts (default [] (ua_Contact req)))) ;;
      account <-! (match ua_Contact req with
                   | None => Ret (Ok account)
                   | Some contact =>
                       _ <-! or_problem internal (AcmeStore.SetAcmeAccountContact (AcmeAccount.ID account) contact) ;;
                       Ret (Ok (AcmeAccount.set_Contact contact account))
                   end) ;;
      if str_is (ua_Status req) AcmeStatusDeactivated then
        _ <-! or_problem internal (AcmeStore.SetAcmeAccountStatus (AcmeAccount.ID account) AcmeStatusDeactivated) ;;
        audit (actor_of account) "acme.account.deactivate" (Str.itoa (AcmeAccount.ID account)) "" ;;;
        Ret (Ok (accountObject (AcmeAccount.set_Status AcmeStatusDeactivated account)))
      else Ret (Ok (accountObject account)).

(** ** Orders *)

Definition activeCred (account : AcmeAccount.t) : P EABCred.t :=
  cred <-! or_problem internal (AcmeStore.GetEABCred (AcmeAccount.EABID account)) ;;
  if EABCred.Disabled cred then
    audit (actor_of account) "acme.order.rejected" (EABCred.Name cred) "external account binding credential is disabled" ;;;
    Ret (Err (Problem.Unauthorized (Str.Sprintf
      "the external account binding credential %q this account was registered with has been disabled"
      [Str.AStr (EABCred.Name cred)])))
  else Ret (Ok cred).

(** One identifier of a new order. *)
Definition order_identifier (cred : EABCred.t) (id : AcmeIdentifier.t) : result Problem.t AcmeIdentifier.t :=
  let typ := Str.ToLower (Str.TrimSpace (AcmeIdentifier.Type_ id)) in
  let typ := if str_is typ "" then "dns"%string else typ in
  if negb (str_is typ "dns")
  then Err (Problem.UnsupportedIdentifier (Str.Sprintf "identifier type %q is not supported; only %q is" [Str.AStr typ; Str.AStr "dns"]))
  else
    let val := Str.ToLower (Str.TrimSpace (AcmeIdentifier.Value id)) in
    if str_is val "" then Err (Problem.Malformed "an identifier value must not be empty")
    else match Policy.validDNSIdentifier val with
    | Some e => Err (Problem.RejectedIdentifier (Str.Sprintf "%q: %v" [Str.AStr val; Str.AStr e]))
    | None =>
        if Policy.domainAllowed (EABCred.AllowedDomains cred) val then Ok (AcmeIdentifier.mk "dns" val)
        else Err (Problem.RejectedIdentifier (Str.Sprintf
               "%q is outside the domains permitted for this account's credential %q" [Str.AStr val; Str.AStr (EABCred.Name cred)]))
    end.

Fixpoint order_identifiers (cred : EABCred.t) (l : list AcmeIdentifier.t) : result Problem.t (list AcmeIdentifier.t) :=
  match l with
  | [] => Ok []
  | id :: l' => result_bind (order_identifier cred id) (fun i =>
                result_bind (order_identifiers cred l') (fun is_ => Ok (i :: is_)))
  end.

Definition requestedNotAfter (req : NewOrderRequest) (cred : EABCred.t) (now : Z) : result Problem.t (option Z) :=
  if nonempty (Str.TrimSpace (NotBefore req))
  then Err (Problem.Malformed "notBefore is not supported; certificates are valid from issuance")
  else if str_is (Str.TrimSpace (NotAfter req)) "" then Ok None
  else match time_Parse (NotAfter req) with
  | None => Err (Problem.Malformed (Str.Sprintf "notAfter %q is not an RFC 3339 timestamp" [Str.AStr (NotAfter req)]))
  | Some t =>
      if (t <=? now)%Z then Err (Problem.Malformed (Str.Sprintf "notAfter %s is not in the future" [Str.AStr (NotAfter req)]))
      else
        let maxDays := if (EABCred.Days cred <=? 0)%Z then CaService.DefaultCertDays cfg else EABCred.Days cred in
        if (AddDays maxDays now + Minute <? t)%Z
        then Err (Problem.Malformed (Str.Sprintf "notAfter %s is beyond this credential's maximum validity of %d days"
                    [Str.AStr (NotAfter req); Str.AInt maxDays]))
        else Ok (Some t)
  end.

Definition OrderObjectFor (o : AcmeOrder.t) : M OrderObject :=
  authzs <-! AcmeStore.ListAcmeAuthorizationsByOrder (AcmeOrder.ID o) ;;
  Ret (Ok (mkOrderObject (AcmeOrder.Status o) (time_Format (AcmeOrder.ExpiresAt o)) (AcmeOrder.Identifiers o)
    (if str_is (AcmeOrder.Error o) "" then None else decode_problem (AcmeOrder.Error o))
    (map (fun a => authzURL (AcmeAuthorization.ID a)) authzs) (finalizeURL (AcmeOrder.ID o))
    (match AcmeOrder.CertificateID o with Some c => certURL c | None => EmptyString end)
    (match AcmeOrder.NotAfter o with Some t => time_Format t | None => EmptyString end))).

Definition orderTTL : Z := 24 * Hour.
Definition authzTTL : Z := 24 * Hour.

Definition randomToken : M string :=
  b <- Pki.draw (fun n => rand_Read n 24) ;;
  Ret (match b with Some b => Ok (rawurl_Encode b) | None => Err (Driver "rand") end).

(** The authorizations of a new order, each with its satisfied challenge. *)
Fixpoint create_authzs (orderID now : Z) (l : list AcmeIdentifier.t) : P unit :=
  match l with
  | [] => Ret (Ok tt)
  | id :: l' =>
      authz <-! or_problem internal (AcmeStore.CreateAcmeAuthorization
                 (AcmeAuthorization.mk 0 orderID (AcmeIdentifier.Type_ id) (AcmeIdentifier.Value id)
                    (Str.HasPrefix (AcmeIdentifier.Value id) "*.") AcmeStatusValid (now + authzTTL) now)) ;;
      token <-! or_problem internal randomToken ;;
      _ <-! or_problem internal (AcmeStore.CreateAcmeChallenge
             (AcmeChallenge.mk 0 (AcmeAuthorization.ID authz) "http-01" token AcmeStatusValid (Some now) now)) ;;
      create_authzs orderID now l'
  end.

Definition zero_new_order : NewOrderRequest := mkNewOrder [] "" "".

(** fmt's %v of a slice of identifiers. *)
Definition show_identifiers (l : list AcmeIdentifier.t) : string :=
  ("[" +:+ Str.Join (map (fun i => "{" +:+ AcmeIdentifier.Type_ i +:+ " " +:+ AcmeIdentifier.Value i +:+ "}") l) " " +:+ "]")%go.

Definition NewOrder (body : string) : P (AcmeOrder.t * OrderObject) :=
  ar <-! authenticate body newOrderURL ;;
  let '(payload, account) := ar in
  req <-! Ret (malformed_of (DecodePayload zero_new_order decode_new_order payload)) ;;
  if match no_Identifiers req with [] => true | _ => false end
  then Ret (Err (Problem.Malformed "an order must request at least one identifier"))
  else
    cred <-! activeCred account ;;
    idents <-! Ret (order_identifiers cred (no_Identifiers req)) ;;
    now <- time_Now ;;
    notAfter <-! Ret (requestedNotAfter req cred now) ;;
    order <-! or_problem internal (AcmeStore.CreateAcmeOrder
                (AcmeOrder.mk 0 (AcmeAccount.ID account) AcmeStatusReady idents None "" (now + orderTTL) now notAfter)) ;;
    _ <-! create_authzs (AcmeOrder.ID order) now idents ;;
    obj <-! or_problem internal (OrderObjectFor order) ;;
    audit (actor_of account) "acme.order.create" (Str.itoa (AcmeOrder.ID order))
      (Str.Sprintf "identifiers=%v eab=%s" [Str.AStr (show_identifiers (no_Identifiers req)); Str.AStr (EABCred.Name cred)]) ;;;
    Ret (Ok (order, obj)).

(** An order of the account that signed the request. *)
Definition own_order (orderID : Z) (account : AcmeAccount.t) : P AcmeOrder.t :=
  order <-! or_problem (fun _ => Problem.NotFound "no such order") (AcmeStore.GetAcmeOrder orderID) ;;
  Ret (if (AcmeOrder.AccountID order =? AcmeAccount.ID account)%Z then Ok order
       else Err (Problem.Unauthorized "this order does not belong to your account")).

Definition GetOrder (orderID : Z) (body : string) : P OrderObject :=
  ar <-! authenticate body (orderURL orderID) ;;
  order <-! own_order orderID (snd ar) ;;
  or_problem internal (OrderObjectFor order).

(** ** Finalize *)

(** mustJSON *)
Definition mustJSON (p : Problem.t) : string :=
  ("{" +:+ Str.Join
     ([(Store.json_string "type" +:+ ":" +:+ Store.json_string (Problem.Type_ p))%go]
      ++ (if str_is (Problem.Detail p) "" then [] else [(Store.json_string "detail" +:+ ":" +:+ Store.json_string (Problem.Detail p))%go])
      ++ (if (Problem.Status p =? 0)%Z then [] else [(Store.json_string "status" +:+ ":" +:+ Str.itoa (Problem.Status p))%go]))
     "," +:+ "}")%go.

(** Reject the request and mark the order invalid. *)
Definition invalidate {A} (orderID : Z) (p : Problem.t) : P A :=
  _ <- AcmeStore.SetAcmeOrderError orderID (mustJSON p) ;; Ret (Err p).

Definition nonDNSSummary (csr : Pki.CSR Pki.PublicKey) : string :=
  Str.Join (map (fun i => "IP:" +:+ i)%go (Pki.csr_IPAddresses csr)
            ++ map (fun e => "email:" +:+ e)%go (Pki.csr_EmailAddresses csr)
            ++ map (fun u => "URI:" +:+ Pki.url_String u)%go (Pki.csr_URIs csr)) ", ".

(** A set of strings as the sorted list of its distinct members. *)
Definition string_set (l : list string) : list string :=
  order_by Store.str_le (remove_dups l).
Definition sameStringSet (a b : list string) : bool :=
  Nat.eqb (length a) (length b) && forallb (fun k => existsb (str_is k) b) a.
Definition show_set (l : list string) : string := ("[" +:+ Str.Join l " " +:+ "]")%go.

Definition want_names (order : AcmeOrder.t) : list string :=
  string_set (map AcmeIdentifier.Value (AcmeOrder.Identifiers order)).
Definition got_names (csr : Pki.CSR Pki.PublicKey) : list string :=
  string_set (map Str.ToLower (Pki.csr_DNSNames csr)).

(** The CSR checks, in the code's order: the common name to issue for, or
    the problem. *)
Definition csr_common_name (order : AcmeOrder.t) (csr : Pki.CSR Pki.PublicKey) : result Problem.t string :=
  let want := want_names order in
  let got := got_names csr in
  if match Pki.csr_IPAddresses csr, Pki.csr_EmailAddresses csr, Pki.csr_URIs csr with
     | [], [], [] => false | _, _, _ => true end
  then Err (Problem.BadCSR (Str.Sprintf "the CSR may only request DNS names; it also requests %s" [Str.AStr (nonDNSSummary csr)]))
  else if negb (sameStringSet want got)
  then Err (Problem.BadCSR (Str.Sprintf "the CSR's names %v do not match the order's authorized identifiers %v"
              [Str.AStr (show_set got); Str.AStr (show_set want)]))
  else
    let cn := Str.ToLower (Str.TrimSpace (Pki.CN (Pki.csr_Subject csr))) in
    if nonempty cn && negb (existsb (str_is cn) want)
    then Err (Problem.BadCSR (Str.Sprintf "the CSR's common name %q is not one of the order's authorized identifiers %v"
                [Str.AStr (Pki.CN (Pki.csr_Subject csr)); Str.AStr (show_set want)]))
    else Ok (if str_is cn "" then match AcmeOrder.Identifiers order with
                                  | i :: _ => AcmeIdentifier.Value i | [] => cn end
             else cn).

(** int(math.Ceil(time.Until(t).Hours() / 24)), at least 1. *)
Definition order_days (cred : EABCred.t) (order : AcmeOrder.t) (now : Z) : Z :=
  match AcmeOrder.NotAfter order with
  | None => EABCred.Days cred
  | Some t => Z.max 1 (- (- (t - now) / (24 * Hour)))
  end.

Definition finalize_input (cred : EABCred.t) (order : AcmeOrder.t) (csrPEM cn : string) (now : Z) : CaService.IssueInput :=
  CaService.mkIssue (match EABCred.CAID cred with Some id => Str.itoa id | None => EmptyString end) CaService.ModeCSR
    (Pki.mkSubject cn "" "" "" "" "" "" "" "") [] "" (EABCred.Profile cred) (order_days cred order now) csrPEM ""
    None "" ("acme:" +:+ EABCred.Name cred)%go false.

(** The CSR a finalize request carries. *)
Definition finalize_csr (payload : string) : result Problem.t (string * Pki.CSR Pki.PublicKey) :=
  result_bind (malformed_of (DecodePayload EmptyString decode_finalize payload)) (fun csr64 =>
  match rawurl_Decode csr64 with
  | Err e => Err (Problem.BadCSR (Error (Wrapf "csr is not valid base64url" e)))
  | Ok der =>
      let csrPEM := Pki.pem_EncodeToMemory "CERTIFICATE REQUEST" der in
      match Pki.ParseCSR csrPEM with
      | Err e => Err (Problem.BadCSR (Error e))
      | Ok csr => Ok (csrPEM, csr)
      end
  end).

(** Everything before the order is claimed: what to issue, or the problem. *)
Definition finalize_checks (orderID : Z) (body : string) : P (AcmeOrder.t * EABCred.t * string * string) :=
  ar <-! authenticate body (finalizeURL orderID) ;;
  let '(payload, account) := ar in
  order <-! own_order orderID account ;;
  if negb (str_is (AcmeOrder.Status order) AcmeStatusReady)
  then Ret (Err (Problem.OrderNotReady (Str.Sprintf "order is %q, not ready" [Str.AStr (AcmeOrder.Status order)])))
  else
    now <- time_Now ;;
    if (AcmeOrder.ExpiresAt order <? now)%Z
    then invalidate (AcmeOrder.ID order) (Problem.OrderNotReady
           (Str.Sprintf "order expired at %s; place a new one" [Str.AStr (time_Format (AcmeOrder.ExpiresAt order))]))
    else
      rq <-! Ret (finalize_csr payload) ;;
      let '(csrPEM, csr) := rq in
      match csr_common_name order csr with
      | Err p => invalidate (AcmeOrder.ID order) p
      | Ok cn =>
          cred <-! activeCred account ;;
          Ret (Ok (order, cred, csrPEM, cn))
      end.

(** Everything after the order is claimed. *)
Definition finalize_issue (order : AcmeOrder.t) (cred : EABCred.t) (csrPEM cn : string) : P OrderObject :=
  now <- (match AcmeOrder.NotAfter order with Some _ => time_Now | None => Ret 0%Z end) ;;
  res <- CaService.Issue cfg master sink (finalize_input cred order csrPEM cn now) ;;
  match res with
  | Err e => invalidate (AcmeOrder.ID order) (internal (Wrapf "issuance failed" e))
  | Ok res =>
      let cert := CaService.res_Certificate res in
      _ <-! or_problem internal (AcmeStore.SetAcmeOrderCertificate (AcmeOrder.ID order) (Certificate.ID cert)) ;;
      audit ("acme:" +:+ EABCred.Name cred)%go "acme.order.finalize" (Str.itoa (AcmeOrder.ID order))
        (Str.Sprintf "serial=%s cn=%s" [Str.AStr (Certificate.SerialHex cert); Str.AStr (Certificate.CommonName cert)]) ;;;
      updated <-! or_problem internal (AcmeStore.GetAcmeOrder (AcmeOrder.ID order)) ;;
      or_problem internal (OrderObjectFor updated)
  end.

Definition Finalize (orderID : Z) (body : string) : P OrderObject :=
  ck <-! finalize_checks orderID body ;;
  let '(order, cred, csrPEM, cn) := ck in
  claimed <-! or_problem internal (AcmeStore.ClaimAcmeOrderForFinalize (AcmeOrder.ID order)) ;;
  if claimed then finalize_issue order cred csrPEM cn
  else Ret (Err (Problem.OrderNotReady "this order is already being finalized, or has been")).

(** ** Authorizations and challenges *)

Definition challengeObject (c : AcmeChallenge.t) : ChallengeObject :=
  mkChallengeObject (AcmeChallenge.Type_ c) (challengeURL (AcmeChallenge.ID c)) (AcmeChallenge.Status c)
    (match AcmeChallenge.ValidatedAt c with Some t => time_Format t | None => EmptyString end) (AcmeChallenge.Token c).

Definition authzObject (a : AcmeAuthorization.t) (challenges : list AcmeChallenge.t) : AuthorizationObject :=
  mkAuthzObject (AcmeIdentifier.mk (AcmeAuthorization.IdentifierType a) (AcmeAuthorization.IdentifierValue a))
    (AcmeAuthorization.Status a) (time_Format (AcmeAuthorization.ExpiresAt a)) (map challengeObject challenges)
    (AcmeAuthorization.Wildcard a).

Definition GetAuthorization (authzID : Z) (body : string) : P AuthorizationObject :=
  let gone (_ : error) := Problem.NotFound "no such authorization" in
  authz <-! or_problem gone (AcmeStore.GetAcmeAuthorization authzID) ;;
  order <-! or_problem gone (AcmeStore.GetAcmeOrder (AcmeAuthorization.OrderID authz)) ;;
  ar <-! authenticate body (authzURL authzID) ;;
  if negb (AcmeOrder.AccountID order =? AcmeAccount.ID (snd ar))%Z
  then Ret (Err (Problem.Unauthorized "this authorization does not belong to your account"))
  else
    challenges <-! or_problem internal (AcmeStore.ListAcmeChallengesByAuthorization (AcmeAuthorization.ID authz)) ;;
    Ret (Ok (authzObject authz challenges)).

Definition GetChallenge (challengeID : Z) (body : string) : P ChallengeObject :=
  let gone (_ : error) := Problem.NotFound "no such challenge" in
  c <-! or_problem gone (AcmeStore.GetAcmeChallenge challengeID) ;;
  authz <-! or_problem gone (AcmeStore.GetAcmeAuthorization (AcmeChallenge.AuthorizationID c)) ;;
  order <-! or_problem gone (AcmeStore.GetAcmeOrder (AcmeAuthorization.OrderID authz)) ;;
  ar <-! authenticate body (challengeURL challengeID) ;;
  if negb (AcmeOrder.AccountID order =? AcmeAccount.ID (snd ar))%Z
  then Ret (Err (Problem.Unauthorized "this challenge does not belong to your account"))
  else Ret (Ok (challengeObject c)).

(** ** Certificates *)

Definition GetCertificatePEM (certID : Z) (body : string) : P string :=
  ar <-! authenticate body (certURL certID) ;;
  let '(payload, account) := ar in
  if negb (IsPostAsGet payload)
  then Ret (Err (Problem.Malformed "a certificate is fetched with POST-as-GET: the payload must be empty"))
  else
    let gone := Problem.NotFound "no such certificate" in
    order <-! or_problem (fun _ => gone) (AcmeStore.GetAcmeOrderByCertificate certID) ;;
    if negb (AcmeOrder.AccountID order =? AcmeAccount.ID account)%Z then Ret (Err gone)
    else
      rec <-! or_problem (fun _ => gone) (Store.GetCertificate certID) ;;
      or_problem internal (CaService.CertChainPEM rec).

(** Who signs a revocation request: an account, or a bare key. *)
Definition revoke_signer (p : ParsedJWS) : P (option AcmeAccount.t * string) :=
  if nonempty (pj_KeyID p) then
    a <-! ResolveAccount (pj_KeyID p) ;;
    match jwk_unmarshal (AcmeAccount.JWKJSON a) with
    | Err e => Ret (Err (internal e))
    | Ok jwk => payload <-! Ret (malformed_of (Verify p jwk)) ;; Ret (Ok (Some a, payload))
    end
  else match pj_JWK p with
    | Some jwk => payload <-! Ret (malformed_of (Verify p jwk)) ;; Ret (Ok (None, payload))
    | None => Ret (Err (Problem.Malformed "go-jose: unknown key"))
    end.

(** The certificate a revocation request names, as it parses. *)
Definition revoke_leaf (payload : string) : result Problem.t (RevokeCertRequest * string * Pki.Cert Pki.PublicKey) :=
  result_bind (malformed_of (DecodePayload (mkRevokeCert "" None) decode_revoke payload)) (fun req =>
  match rawurl_Decode (rc_Certificate req) with
  | Err e => Err (Problem.Malformed (Error (Wrapf "certificate is not valid base64url" e)))
  | Ok der =>
      match Pki.x509_ParseCertificate der with
      | Err e => Err (Problem.Malformed (Error (Wrapf "certificate does not parse" e)))
      | Ok leaf => Ok (req, der, leaf)
      end
  end).

(** The actor an account revokes as, if the credential it registered with is
    the one the certificate's order was placed under. *)
Definition revoke_entitled (account : AcmeAccount.t) (rec : Certificate.t) : P string :=
  let no := Problem.Unauthorized "this account is not authorized to revoke this certificate" in
  order <-! or_problem (fun _ => no) (AcmeStore.GetAcmeOrderByCertificate (Certificate.ID rec)) ;;
  owner <-! or_problem (fun _ => no) (AcmeStore.GetAcmeAccount (AcmeOrder.AccountID order)) ;;
  if negb (AcmeAccount.EABID owner =? AcmeAccount.EABID account)%Z then Ret (Err no)
  else
    cred <-! or_problem internal (AcmeStore.GetEABCred (AcmeAccount.EABID account)) ;;
    Ret (Ok ("acme:" +:+ EABCred.Name cred)%go).

Definition revoke_reason (r : option Z) : result Problem.t Z :=
  let reason := default 0%Z r in
  if (reason <? 0)%Z || (reason =? 7)%Z || (10 <? reason)%Z
  then Err (Problem.BadRevocationReason (Str.Sprintf "%d is not a valid CRL revocation reason" [Str.AInt reason]))
  else Ok reason.

Definition RevokeCert (body : string) : P unit :=
  p <-! Ret (malformed_of (ParseJWS body)) ;;
  _ <-! Ret (checkURL p revokeCertURL) ;;
  _ <-! checkNonce p ;;
  signer <-! revoke_signer p ;;
  let '(account, payload) := signer in
  rq <-! Ret (revoke_leaf payload) ;;
  let '(req, der, leaf) := rq in
  if match account, pj_JWK p with
     | None, Some jwk => negb (jwk_is_key jwk (Pki.cert_PublicKey leaf))
     | _, _ => false end
  then Ret (Err (Problem.Unauthorized "the signing key does not match the certificate's own key"))
  else
    rec <-! or_problem (fun _ => Problem.NotFound "no matching certificate is known to this server")
              (Store.GetCertificateBySerial (Pki.SerialHex (Pki.SerialNumber leaf))) ;;
    if negb (str_is (Certificate.Fingerprint rec) (Pki.FingerprintSHA256 der))
    then Ret (Err (Problem.Malformed "the supplied certificate does not match the one this server issued for that serial"))
    else if str_is (Certificate.Status rec) StatusRevoked
    then Ret (Err (Problem.AlreadyRevoked "this certificate is already revoked"))
    else
      actor <-! (match account with
                 | None => Ret (Ok "acme:cert-key"%string)
                 | Some a => revoke_entitled a rec
                 end) ;;
      reason <-! Ret (revoke_reason (rc_Reason req)) ;;
      or_problem internal (CaService.Revoke sink (Certificate.ID rec) reason actor).
End service.

End AcmeService.
