(* ===== verification/AcmeAdmin.v ===== *)
(** * Administration of ACME (internal/acme/eab_admin.go, web/acme_admin.go,
    the credential commands of cli/acme_cmd.go)

    [EabAdmin]: what the command line, the REST API and the portal share -
    credentials are created, found, disabled and deleted, accounts deactivated.
    [AcmePages]: the handlers over it.  Rendering is not modelled: a page is the
    data it is made of. *)

From S2P Require Import Prelude GoStrings Effects Models Schema Store AcmeStore Pki Sealing CaService K8s AcmePolicy AcmeService.

Module EabAdmin.

Open Scope prog_scope.

Record CreateEABInput := mkEAB {
  ce_Name : string; ce_CARef : string; ce_Profile : string; ce_Days : Z; ce_AllowedDomains : list string;
  ce_AllowAnyDomain : bool; ce_MaxAccounts : Z; ce_ExpiresInDays : Z; ce_Actor : string }.

Record CreateEABResult := mkEABResult { er_Cred : EABCred.t; er_HMACKeyB64 : string }.

Definition keyIDAlphabet : string := "23456789abcdefghjkmnpqrstuvwxyz".

(** One letter for each random byte. *)
Definition key_letter (c : ascii) : ascii :=
  default zero (String.get (nat_of_ascii c mod String.length keyIDAlphabet) keyIDAlphabet).

Definition randomKeyID (n : nat) : M string :=
  b <- Pki.draw (fun i => rand_Read i n) ;;
  Ret (match b with Some b => Ok (Str.map_string key_letter b) | None => Err (Driver "rand") end).

(** fmt.Sscanf with the format %d into an int64: a sign, then the longest run
    of digits; what follows is not looked at. *)
Fixpoint leading_digits (s : string) : string :=
  match s with
  | String c s' => if Str.is_digit c then String c (leading_digits s') else EmptyString
  | EmptyString => EmptyString
  end.

Definition Sscanf_d (s : string) : option Z :=
  let '(neg, digits) :=
    match s with
    | String "-" s' => (true, leading_digits s')
    | String "+" s' => (false, leading_digits s')
    | _ => (false, leading_digits s)
    end%char in
  if str_is digits "" then None
  else
    v ← CaService.digits_value digits 0;
    let v := if (neg : bool) then (- v)%Z else v in
    if ((- 2 ^ 63 <=? v) && (v <? 2 ^ 63))%Z then Some v else None.

Section service.
Context `{AcmeService.Wire} `{Ciphers} `{RowOrder}.
Context (master : string).
Context (sink : string -> string -> string -> string -> string -> prog world unit).

#[local] Notation audit := (AcmeService.audit sink).

(** ** Creating a credential *)

(** Name, profile and domains as they are stored. *)
Definition checked_input (in_ : CreateEABInput) : result error (string * string * list string) :=
  let name := Str.TrimSpace (ce_Name in_) in
  if str_is name "" then Err (Errorf "a name is required")
  else
    let profile := Str.TrimSpace (ce_Profile in_) in
    let profile := if str_is profile "" then Pki.ProfileServer else profile in
    result_bind (Pki.ParseProfile profile) (fun parsed =>
    if str_is parsed Pki.ProfileIntermCA
    then Err (Errorf (Str.Sprintf "the %q profile cannot be used for ACME; ACME issues leaf certificates only" [Str.AStr Pki.ProfileIntermCA]))
    else result_bind (Policy.normalizeDomainPatterns (ce_AllowedDomains in_)) (fun domains =>
      match domains, ce_AllowAnyDomain in_ with
      | [], false => Err (Errorf "no allowed domains given: accounts bootstrapped with this credential could obtain a certificate for any hostname, since goca's ACME performs no domain-control check. Restrict it (e.g. '*.cluster-a.internal'), or explicitly allow any domain")
      | _ :: _, true => Err (Errorf "give allowed domains or allow any domain, not both")
      | _, _ => Ok (name, parsed, domains)
      end)).

(** The authority a credential is tied to; none follows the default. *)
Definition pinned_ca (ref : string) : M (option Z) :=
  let ref := Str.TrimSpace ref in
  if str_is ref "" then Ret (Ok None)
  else
    ca <- CaService.ResolveCA ref ;;
    Ret (match ca with
         | Err e => Err (Wrapf (Str.Sprintf "authority %q" [Str.AStr ref]) e)
         | Ok ca => Ok (Some (CA.ID ca))
         end).

(** A fresh HMAC key with its sealed form. *)
Definition hmac_key : M (string * string) :=
  b <- Pki.draw (fun i => rand_Read i 32) ;;
  match b with
  | None => Ret (Err (Driver "rand"))
  | Some key =>
      enc <- CaService.box_Encrypt master key ;;
      Ret (match enc with Err e => Err (Wrapf "encrypt HMAC key" e) | Ok enc => Ok (key, enc) end)
  end.

Definition CreateEAB (in_ : CreateEABInput) : M CreateEABResult :=
  match checked_input in_ with
  | Err e => Ret (Err e)
  | Ok (name, profile, domains) =>
      caID <-! pinned_ca (ce_CARef in_) ;;
      keyID <-! randomKeyID 20 ;;
      hmac <-! hmac_key ;;
      let '(key, hmacEnc) := hmac in
      expires <- (if (0 <? ce_ExpiresInDays in_)%Z
                  then now <- time_Now ;; Ret (Some (AddDays (ce_ExpiresInDays in_) now)) else Ret None) ;;
      now <- time_Now ;;
      cred <-! AcmeStore.CreateEABCred
                 (EABCred.mk 0 keyID hmacEnc name caID profile (ce_Days in_) domains (ce_MaxAccounts in_) 0 false
                    expires (ce_Actor in_) now None) ;;
      audit (ce_Actor in_) "acme.eab.create" name
        (Str.Sprintf "key_id=%s profile=%s domains=%s"
           [Str.AStr keyID; Str.AStr profile; Str.AStr (Policy.describeDomains domains)]) ;;;
      Ret (Ok (mkEABResult cred (AcmeService.rawurl_Encode key)))
  end.

(** ** Finding credentials *)

Definition ListEAB : M (list EABCred.t) := AcmeStore.ListEABCreds.
Definition GetEAB (id : Z) : M EABCred.t := AcmeStore.GetEABCred id.

(** The credential of the number a reference starts with. *)
Definition by_number (ref : string) : prog world (option EABCred.t) :=
  match Sscanf_d ref with
  | None => Ret None
  | Some id => c <- AcmeStore.GetEABCred id ;; Ret (match c with Ok c => Some c | Err _ => None end)
  end.

Definition by_display_name (ref : string) (all : list EABCred.t) : result error EABCred.t :=
  match List.filter (fun c => Str.EqualFold (EABCred.Name c) ref) all with
  | [c] => Ok c
  | [] => Err (Errorf (Str.Sprintf "no EAB credential matches %q" [Str.AStr ref]))
  | matches => Err (Errorf (Str.Sprintf "%q names %d EAB credentials; use its id or key id instead"
                              [Str.AStr ref; Str.AInt (Z.of_nat (length matches))]))
  end.

Definition ResolveEAB (ref : string) : M EABCred.t :=
  let ref := Str.TrimSpace ref in
  if str_is ref "" then Ret (Err (Errorf "an id, key id or name is required"))
  else
    by_key <- AcmeStore.GetEABCredByKeyID ref ;;
    match by_key with
    | Ok c => Ret (Ok c)
    | Err _ =>
        numbered <- by_number ref ;;
        match numbered with
        | Some c => Ret (Ok c)
        | None => all <-! AcmeStore.ListEABCreds ;; Ret (by_display_name ref all)
        end
    end.

(** ** Disabling, deleting, deactivating *)

Definition SetEABDisabled (id : Z) (disabled : bool) (actor : string) : M unit :=
  c <-! AcmeStore.GetEABCred id ;;
  _ <-! AcmeStore.SetEABCredDisabled id disabled ;;
  audit actor (if disabled then "acme.eab.disable" else "acme.eab.enable")%string (EABCred.Name c)
    ("key_id=" +:+ EABCred.KeyID c)%go ;;;
  Ret (Ok tt).

Definition DeleteEAB (id : Z) (actor : string) : M unit :=
  c <-! AcmeStore.GetEABCred id ;;
  accounts <-! AcmeStore.ListAcmeAccountsByEAB id ;;
  match accounts with
  | _ :: _ => Ret (Err (Errorf (Str.Sprintf "%d ACME account(s) were bootstrapped with %q; disable it instead of deleting, or remove those accounts first"
                                  [Str.AInt (Z.of_nat (length accounts)); Str.AStr (EABCred.Name c)])))
  | [] =>
      _ <-! AcmeStore.DeleteEABCred id ;;
      audit actor "acme.eab.delete" (EABCred.Name c) ("key_id=" +:+ EABCred.KeyID c)%go ;;;
      Ret (Ok tt)
  end.

Definition DeactivateAccount (id : Z) (actor : string) : M unit :=
  a <-! AcmeStore.GetAcmeAccount id ;;
  if str_is (AcmeAccount.Status a) AcmeStatusDeactivated
  then Ret (Err (Errorf (Str.Sprintf "ACME account %d is already deactivated" [Str.AInt id])))
  else
    _ <-! AcmeStore.SetAcmeAccountStatus id AcmeStatusDeactivated ;;
    audit actor "acme.account.deactivate" (Str.itoa id) "by administrator" ;;;
    Ret (Ok tt).

Definition ListAccounts : M (list AcmeAccount.t) := AcmeStore.ListAcmeAccounts.
Definition GetAccountByID (id : Z) : M AcmeAccount.t := AcmeStore.GetAcmeAccount id.
Definition ListOrders (accountID : Z) : M (list AcmeOrder.t) := AcmeStore.ListAcmeOrdersByAccount accountID.

(** ** The commands: goca acme eab show, disable, delete *)

Definition eab_show_cmd (arg : string) : M EABCred.t := ResolveEAB arg.

Definition eab_disable_cmd (arg : string) (enable : bool) (actor : string) : M unit :=
  c <-! ResolveEAB arg ;; SetEABDisabled (EABCred.ID c) (negb enable) actor.

(** [confirmed] is --yes, or the answer given. *)
Definition eab_delete_cmd (arg : string) (confirmed : bool) (actor : string) : M unit :=
  c <-! ResolveEAB arg ;;
  if confirmed then DeleteEAB (EABCred.ID c) actor else Ret (Ok tt).

(** ** The REST API *)

Notation answer := Csi.answer.
Notation Status := Csi.Status.
Notation Answer := Csi.Answer.

(** The status renderAPIError gives a plain error. *)
Definition api_error {A} (e : error) : answer A := if is_not_found e then Status 404 "not found" else Status 400 (Error e).
Definition api_answer {A} (r : result error A) : answer A := match r with Ok a => Answer a | Err e => api_error e end.
(** [badRequest] of any error *)
Definition bad_request {A} (e : error) : answer A := Status 400 (Error e).

Definition apiACMEEABList : prog world (answer (list EABCred.t)) := r <- ListEAB ;; Ret (api_answer r).

Definition apiACMEEABCreate (in_ : CreateEABInput) : prog world (answer CreateEABResult) :=
  r <- CreateEAB in_ ;; Ret (match r with Ok res => Answer res | Err e => bad_request e end).

Definition apiACMEEABGet (id : Z) : prog world (answer EABCred.t) := r <- GetEAB id ;; Ret (api_answer r).

Definition apiACMEEABDisable (id : Z) (disabled : option bool) (actor : string) : prog world (answer bool) :=
  let disabled := default true disabled in
  r <- SetEABDisabled id disabled actor ;;
  Ret (match r with Ok _ => Answer disabled | Err e => bad_request e end).

Definition apiACMEEABDelete (id : Z) (actor : string) : prog world (answer unit) :=
  r <- DeleteEAB id actor ;; Ret (match r with Ok _ => Answer tt | Err e => bad_request e end).

Definition apiACMEAccountList : prog world (answer (list AcmeAccount.t)) := r <- ListAccounts ;; Ret (api_answer r).
Definition apiACMEAccountGet (id : Z) : prog world (answer AcmeAccount.t) := r <- GetAccountByID id ;; Ret (api_answer r).

Definition apiACMEAccountDeactivate (id : Z) (actor : string) : prog world (answer unit) :=
  r <- DeactivateAccount id actor ;;
  Ret (match r with
       | Ok _ => Answer tt
       | Err e => if is_not_found e then Status 404 "no such ACME account" else bad_request e
       end).

Definition apiACMEAccountOrders (id : Z) : prog world (answer (list AcmeOrder.t)) := r <- ListOrders id ;; Ret (api_answer r).
End service.

End EabAdmin.

Module AcmePages.
Import EabAdmin.

Open Scope prog_scope.

(** ** Form fields *)

(** strconv.Atoi with its error ignored: zero for what is no number, the
    nearest int64 for one out of range. *)
Definition Atoi (s : string) : Z :=
  let '(neg, digits) :=
    match s with
    | String "-" s' => (true, s')
    | String "+" s' => (false, s')
    | _ => (false, s)
    end%char in
  if str_is digits "" || negb (AcmeService.all_digits digits) then 0
  else match CaService.digits_value digits 0 with
    | None => 0
    | Some v => if (neg : bool) then Z.max (- 2 ^ 63) (- v) else Z.min (2 ^ 63 - 1) v
    end.

Definition is_separator (c : ascii) : bool := Str.mem_char c ("," +:+ ";" +:+ String "010" (String "013" ""))%go.

(** strings.FieldsFunc *)
Fixpoint fields (sep : ascii -> bool) (s field : string) : list string :=
  match s with
  | EmptyString => if str_is field "" then [] else [field]
  | String c s' =>
      if sep c then (if str_is field "" then [] else [field]) ++ fields sep s' ""
      else fields sep s' (field +:+ String c "")%go
  end.

Definition splitCSV (s : string) : list string :=
  if str_is (Str.TrimSpace s) "" then []
  else List.filter (fun v => negb (str_is v "")) (map Str.TrimSpace (fields is_separator s "")).

(** ** Pages *)

(** What a handler of the portal answers with. *)
Inductive page :=
| ErrorPage (status : Z) (title msg : string)
| Redirected (kind msg to : string)      (* a flash message, then 303 *)
| AcmePage (creds : list EABCred.t) (accounts : list AcmeAccount.t) (cas : list CA.t) (newKeyID newSecret : string).

Section pages.
Context `{AcmeService.Wire} `{Ciphers} `{RowOrder}.
Context (master : string).
Context (sink : string -> string -> string -> string -> string -> prog world unit).

Definition database_error (e : error) : page := ErrorPage 500 "Database error" (Error e).
Definition back (kind msg : string) : page := Redirected kind msg "/settings/acme".

Definition renderACMESettings (newKeyID newSecret : string) : prog world page :=
  creds <- ListEAB ;;
  match creds with
  | Err e => Ret (database_error e)
  | Ok creds =>
      accounts <- ListAccounts ;;
      match accounts with
      | Err e => Ret (database_error e)
      | Ok accounts =>
          cas <- Store.ListCAs ;;
          Ret (match cas with
               | Err e => database_error e
               | Ok cas => AcmePage creds accounts cas newKeyID newSecret
               end)
      end
  end.

Definition handleACMESettings : prog world page := renderACMESettings "" "".

(** [form] is r.FormValue, or what is wrong with the form. *)
Definition form_input (form : string -> string) (actor : string) : CreateEABInput :=
  mkEAB (Str.TrimSpace (form "name")) (form "ca") (form "profile") (Atoi (form "days"))
    (splitCSV (form "allowed_domains")) (str_is (form "allow_any_domain") "1") (Atoi (form "max_accounts"))
    (Atoi (form "expires_in_days")) actor.

Definition handleACMEEABCreate (form : result error (string -> string)) (actor : string) : prog world page :=
  match form with
  | Err e => Ret (ErrorPage 400 "Malformed form" (Error e))
  | Ok form =>
      res <- CreateEAB master sink (form_input form actor) ;;
      match res with
      | Err e => Ret (back "error" (Error e))
      | Ok res => renderACMESettings (EABCred.KeyID (er_Cred res)) (er_HMACKeyB64 res)
      end
  end.

(** The id in the path, or what is wrong with it. *)
Definition handleACMEEABDisable (id : result error Z) (disabled_field actor : string) : prog world page :=
  match id with
  | Err e => Ret (ErrorPage 400 "Bad credential id" (Error e))
  | Ok id =>
      let disabled := negb (str_is disabled_field "0") in
      r <- SetEABDisabled sink id disabled actor ;;
      Ret (match r with
           | Err e => back "error" (Error e)
           | Ok _ => if disabled
                     then back "success" "Credential disabled. Accounts it created can no longer order or download certificates until it is re-enabled."
                     else back "success" "Credential re-enabled."
           end)
  end.

Definition handleACMEEABDelete (id : result error Z) (actor : string) : prog world page :=
  match id with
  | Err e => Ret (ErrorPage 400 "Bad credential id" (Error e))
  | Ok id =>
      r <- DeleteEAB sink id actor ;;
      Ret (match r with Err e => back "error" (Error e) | Ok _ => back "success" "Credential deleted." end)
  end.

Definition handleACMEAccountDeactivate (id : result error Z) (actor : string) : prog world page :=
  match id with
  | Err e => Ret (ErrorPage 400 "Bad account id" (Error e))
  | Ok id =>
      r <- DeactivateAccount sink id actor ;;
      Ret (match r with
           | Err e => back "error" (Error e)
           | Ok _ => back "success" (Str.Sprintf "ACME account %d deactivated. It can no longer order, download or revoke certificates." [Str.AInt id])
           end)
  end.
End pages.

End AcmePages.
