(* ===== verification/AcmeProtocol.v ===== *)
(** * The ACME wire protocol (internal/web/acme_protocol.go)

    The HTTP handlers of /acme/*: the size limit on the body, the id in the
    path, the Replay-Nonce stamped on every answer, and the translation of
    problems into responses.  [serve] is the routing table of server.go. *)

From S2P Require Import Prelude GoStrings Effects Models Schema AcmeStore Pki Sealing CaService AcmePolicy AcmeService.

Module AcmeProtocol.

Open Scope prog_scope.

(** An HTTP request: the {id} segment of its path, and its body or why
    reading it failed. *)
Record HttpRequest := mkRequest { Method : string; path_id : string; Body : result string string }.

Definition Directory : Type := string * string * string * string * string.

Inductive content :=
| Nothing
| DirectoryObj (d : Directory)
| AccountObj (o : AcmeService.AccountObject)
| OrderObj (o : AcmeService.OrderObject)
| AuthzObj (o : AcmeService.AuthorizationObject)
| ChallengeObj (o : AcmeService.ChallengeObject)
| EmptyObj
| Chain (pem : string)
| ProblemDoc (p : Problem.t).

Record Response := mkResponse {
  StatusCode : Z; ContentType : string; ReplayNonce : option string; Location : string; payload : content }.

Definition contentTypeJSON : string := "application/json".
Definition contentTypeProblem : string := "application/problem+json".
Definition contentTypePEMChain : string := "application/pem-certificate-chain".

Definition maxACMEBody : nat := 64 * 1024.

Definition readACMEBody (r : HttpRequest) : result Problem.t string :=
  match Body r with
  | Err e => Err (Problem.Malformed ("could not read the request body: " +:+ e)%go)
  | Ok b =>
      let body := take_s (maxACMEBody + 1) b in     (* io.LimitReader *)
      if (maxACMEBody <? String.length body)%nat
      then Err (Problem.Malformed "request body exceeds the 65536 byte limit")
      else Ok body
  end.

(** strconv.ParseInt(s, 10, 64) *)
Definition ParseInt (s : string) : option Z :=
  let '(neg, digits) := match s with
                        | String "-" r => (true, r)
                        | String "+" r => (false, r)
                        | _ => (false, s)
                        end in
  if str_is digits "" then None
  else match CaService.digits_value digits 0 with
    | Some n => let v := if neg then (- n)%Z else n in
                if (- 2 ^ 63 <=? v)%Z && (v <? 2 ^ 63)%Z then Some v else None
    | None => None
    end.

Definition pathIDACME (r : HttpRequest) : result Problem.t Z :=
  match ParseInt (path_id r) with
  | Some id => Ok id
  | None => Err (Problem.NotFound (Str.Sprintf "%q is not a valid resource id" [Str.AStr (path_id r)]))
  end.

Definition acmeError (nonce : option string) (p : Problem.t) : Response :=
  mkResponse (if (Problem.Status p =? 0)%Z then 500 else Problem.Status p)%Z contentTypeProblem nonce "" (ProblemDoc p).

Definition acmeReply (nonce : option string) (status : Z) (v : content) (location : string) : Response :=
  mkResponse status contentTypeJSON nonce location v.

(** The routes of the ACME tree. *)
Inductive route :=
| GetDirectory | NewNonce | PostNewAccount | PostAccount | PostNewOrder | PostOrder | PostFinalize
| PostAuthz | PostChallenge | PostCert | PostRevokeCert.

#[global] Instance route_eq_dec : EqDecision route.
Proof. solve_decision. Defined.

Section server.
Context `{AcmeService.Wire} `{Ciphers} `{RowOrder}.
Context (cfg : CaService.Config) (master : string).
Context (sink : string -> string -> string -> string -> string -> prog world unit).

(** The header is left off when no nonce could be stored. *)
Definition acmeNonce : prog world (option string) :=
  n <- NonceManager.New AcmeService.rawurl_Encode ;;
  Ret (match n with Ok n => Some n | Err _ => None end).

Definition directory : Directory :=
  let base := AcmeService.acmeBase cfg in
  ((base +:+ "/new-nonce")%go, AcmeService.newAccountURL cfg, AcmeService.newOrderURL cfg,
   AcmeService.revokeCertURL cfg, CaService.BaseURL cfg).

Definition handleACMEDirectory (r : HttpRequest) : prog world Response :=
  nonce <- acmeNonce ;; Ret (acmeReply nonce 200 (DirectoryObj directory) "").

Definition handleACMENewNonce (r : HttpRequest) : prog world Response :=
  n <- NonceManager.New AcmeService.rawurl_Encode ;;
  Ret (match n with
       | Err _ => acmeError None (Problem.ServerInternal "could not issue a nonce; try again")
       | Ok n => mkResponse (if str_is (Method r) "HEAD" then 200 else 204)%Z "" (Some n) "" Nothing
       end).

(** The frame every POST handler shares: a fresh nonce on the answer, a
    problem document for a problem. *)
Definition answer {A} (p : AcmeService.P A) (ok : option string -> A -> Response) : prog world Response :=
  r <- p ;;
  nonce <- acmeNonce ;;
  Ret (match r with Ok a => ok nonce a | Err p => acmeError nonce p end).

Definition with_body {A} (r : HttpRequest) (f : string -> AcmeService.P A) : AcmeService.P A :=
  match readACMEBody r with Ok body => f body | Err p => Ret (Err p) end.

Definition with_id {A} (r : HttpRequest) (f : Z -> string -> AcmeService.P A) : AcmeService.P A :=
  match pathIDACME r with Ok id => with_body r (f id) | Err p => Ret (Err p) end.

Definition handleACMENewAccount (r : HttpRequest) : prog world Response :=
  answer (with_body r (AcmeService.NewAccount cfg master sink))
    (fun nonce res =>
       let '(account, obj, created) := res in
       acmeReply nonce (if created : bool then 201 else 200)%Z (AccountObj obj)
         (AcmeService.accountURL cfg (AcmeAccount.ID account))).

Definition handleACMEAccount (r : HttpRequest) : prog world Response :=
  answer (with_id r (AcmeService.GetAccount cfg sink))
    (fun nonce obj => acmeReply nonce 200 (AccountObj obj) "").

Definition handleACMENewOrder (r : HttpRequest) : prog world Response :=
  answer (with_body r (AcmeService.NewOrder cfg sink))
    (fun nonce res => acmeReply nonce 201 (OrderObj (snd res)) (AcmeService.orderURL cfg (AcmeOrder.ID (fst res)))).

Definition handleACMEOrder (r : HttpRequest) : prog world Response :=
  answer (with_id r (AcmeService.GetOrder cfg)) (fun nonce obj => acmeReply nonce 200 (OrderObj obj) "").

(** The Location of a finalized order is the order named in the path. *)
Definition handleACMEFinalize (r : HttpRequest) : prog world Response :=
  answer (with_id r (fun id body => res <-! AcmeService.Finalize cfg master sink id body ;; Ret (Ok (id, res))))
    (fun nonce res => acmeReply nonce 200 (OrderObj (snd res)) (AcmeService.orderURL cfg (fst res))).

Definition handleACMEAuthz (r : HttpRequest) : prog world Response :=
  answer (with_id r (AcmeService.GetAuthorization cfg)) (fun nonce obj => acmeReply nonce 200 (AuthzObj obj) "").

Definition handleACMEChallenge (r : HttpRequest) : prog world Response :=
  answer (with_id r (AcmeService.GetChallenge cfg)) (fun nonce obj => acmeReply nonce 200 (ChallengeObj obj) "").

Definition handleACMECert (r : HttpRequest) : prog world Response :=
  answer (with_id r (AcmeService.GetCertificatePEM cfg))
    (fun nonce chain => mkResponse 200 contentTypePEMChain nonce "" (Chain chain)).

Definition handleACMERevokeCert (r : HttpRequest) : prog world Response :=
  answer (with_body r (AcmeService.RevokeCert cfg sink)) (fun nonce _ => acmeReply nonce 200 EmptyObj "").

Definition serve (rt : route) (r : HttpRequest) : prog world Response :=
  match rt with
  | GetDirectory => handleACMEDirectory r
  | NewNonce => handleACMENewNonce r
  | PostNewAccount => handleACMENewAccount r
  | PostAccount => handleACMEAccount r
  | PostNewOrder => handleACMENewOrder r
  | PostOrder => handleACMEOrder r
  | PostFinalize => handleACMEFinalize r
  | PostAuthz => handleACMEAuthz r
  | PostChallenge => handleACMEChallenge r
  | PostCert => handleACMECert r
  | PostRevokeCert => handleACMERevokeCert r
  end.
End server.

End AcmeProtocol.
