(* ===== verification/Auth.v ===== *)
(** * Signing in (internal/auth/auth.go, internal/web/ratelimit.go)

    Passwords, directory accounts, sessions, API tokens, and the counters that
    throttle sign-in attempts.  bcrypt, the directory client and the SSO
    exchange are parameters; a session or token is stored by its hash only. *)

From S2P Require Import Prelude GoStrings Effects Models Schema Store Pki Sealing.

(** ** Authentication *)

Module Auth.

Open Scope prog_scope.

Definition ErrInvalidCredentials : error := Sentinel "invalid username or password".
Definition ErrDisabled : error := Sentinel "this account is disabled".
Definition is_error (e target : error) : bool :=
  match target with Sentinel n => errors_Is e n | _ => false end.

Definition TokenPrefix : string := "goca_".

(** The part of config.Config signing in reads. *)
Record Config := mkConfig {
  Mode : string; LocalAdmin_Username : string; LocalAdmin_PasswordHash : string; cfg_Path : string;
  SessionTTL : Z; APILoginTokenTTL : Z; APILoginTokenMaxDays : Z }.
Definition AuthModeLocal : string := "local".
Definition AuthModeLDAP : string := "ldap".
Definition AuthModeBoth : string := "both".

(** What a directory or an SSO provider says of a person. *)
Record Identity := mkIdentity {
  id_Username : string; id_DisplayName : string; id_Email : string; id_Groups : list string; id_IsAdmin : bool }.

(** golang.org/x/crypto/bcrypt, base64 and hex. *)
Class Passwords := {
  bcrypt_Generate : nat -> string -> result error string;
  bcrypt_Compare : string -> string -> bool;
  rawurl : string -> string }.

Section auth.
Context `{Std : Pki.Std} `{Ciphers} `{Passwords} `{RowOrder}.
Context (cfg : Config).
(** The directory client, when LDAP is enabled. *)
Context (ldap : option (string -> string -> M Identity)).
(** config.Save of the configuration with a new hash for the local admin. *)
Context (save_admin_hash : string -> M unit).

Definition LocalEnabled : bool := str_is (Mode cfg) AuthModeLocal || str_is (Mode cfg) AuthModeBoth.
Definition LDAPEnabled : bool := match ldap with Some _ => true | None => false end.

(** A user as the code builds one to upsert. *)
Definition new_user (username source displayName email role passHash : string) : User.t :=
  User.mk 0 username source displayName email role false passHash 0 None.

Definition EnsureLocalAdmin : M unit :=
  if str_is (LocalAdmin_Username cfg) "" || str_is (LocalAdmin_PasswordHash cfg) "" then Ret (Ok tt)
  else
    u <- Store.GetUserByName (LocalAdmin_Username cfg) ;;
    match u with
    | Err e =>
        if is_not_found e then
          _ <-! Store.UpsertUser (new_user (LocalAdmin_Username cfg) SourceLocal "Local administrator" "" RoleAdmin
                                    (LocalAdmin_PasswordHash cfg)) ;;
          Ret (Ok tt)
        else Ret (Err e)
    | Ok u =>
        _ <-! (if negb (str_is (User.PassHash u) (LocalAdmin_PasswordHash cfg))
               then Store.SetUserPassword (User.ID u) (LocalAdmin_PasswordHash cfg) else Ret (Ok tt)) ;;
        if negb (str_is (User.Role u) RoleAdmin) then Store.SetUserRole (User.ID u) RoleAdmin else Ret (Ok tt)
    end.

Definition syncDirectoryUser (source username displayName email : string) (isAdmin : bool) : M User.t :=
  existing <- Store.GetUserByName username ;;
  let role := if isAdmin then RoleAdmin else RoleUser in
  match existing with
  | Ok ex =>
      if User.Disabled ex then Ret (Err ErrDisabled)
      else
        u <-! Store.UpsertUser (new_user username source displayName email
                (if str_is (User.Role ex) RoleAdmin then RoleAdmin else role) "") ;;
        Store.TouchLogin (User.ID u) ;;; Ret (Ok u)
  | Err _ =>
      u <-! Store.UpsertUser (new_user username source displayName email role "") ;;
      Store.TouchLogin (User.ID u) ;;; Ret (Ok u)
  end.

Definition SyncOIDCUser (id : Identity) : M User.t :=
  syncDirectoryUser SourceOIDC (id_Username id) (id_DisplayName id) (id_Email id) (id_IsAdmin id).

(** The sources after the local one. *)
Definition authenticate_directory (username password : string) : M User.t :=
  match ldap with
  | None => Ret (Err ErrInvalidCredentials)
  | Some ldap =>
      id <- ldap username password ;;
      match id with
      | Err e => Ret (Err (if is_error e ErrInvalidCredentials then ErrInvalidCredentials else e))
      | Ok id => syncDirectoryUser SourceLDAP (id_Username id) (id_DisplayName id) (id_Email id) (id_IsAdmin id)
      end
  end.

Definition Authenticate (username password : string) : M User.t :=
  let username := Str.TrimSpace username in
  if str_is username "" || str_is password "" then Ret (Err ErrInvalidCredentials)
  else if LocalEnabled then
    u <- Store.GetUserByName username ;;
    match u with
    | Ok u =>
        if str_is (User.Source u) SourceLocal && nonempty (User.PassHash u) then
          if User.Disabled u then Ret (Err ErrDisabled)
          else if bcrypt_Compare (User.PassHash u) password then
            Store.TouchLogin (User.ID u) ;;; Ret (Ok u)
          else Ret (Err ErrInvalidCredentials)
        else authenticate_directory username password
    | Err _ => authenticate_directory username password
    end
  else authenticate_directory username password.

(** ** Sessions *)

Definition HashToken (token : string) : string := Str.ToLower (Pki.hex_bytes (Pki.sha256 token)).

Definition randomToken (n : nat) : M string :=
  b <- Pki.draw (fun i => rand_Read i n) ;;
  Ret (match b with Some b => Ok (rawurl b) | None => Err (Driver "rand") end).

Definition CreateSession (u : User.t) (ip ua : string) : M (string * Z) :=
  tok <-! randomToken 32 ;;
  now <- time_Now ;;
  let exp := (now + SessionTTL cfg)%Z in
  _ <-! Store.CreateSession (Session.mk 0 (User.ID u) (HashToken tok) exp 0 ip ua) ;;
  Ret (Ok (tok, exp)).

Definition UserFromSession (token : string) : M User.t :=
  if str_is token "" then Ret (Err ErrNotFound)
  else
    u <-! Store.SessionUser (HashToken token) ;;
    Ret (if User.Disabled u then Err ErrDisabled else Ok u).

Definition DestroySession (token : string) : M unit :=
  if str_is token "" then Ret (Ok tt) else Store.DeleteSession (HashToken token).

(** ** API tokens *)

Definition IssueAPIToken (u : User.t) (name role : string) (ttl : Z) : M (string * APIToken.t) :=
  if str_is (Str.TrimSpace name) "" then Ret (Err (Errorf "a token name is required"))
  else
    let role := if str_is role "" then User.Role u else role in
    if str_is role RoleAdmin && negb (IsAdmin (Some u)) then Ret (Err (Errorf "only admins can create admin tokens"))
    else
      body <-! randomToken 24 ;;
      prefix <- Pki.draw (fun i => rand_Read i 4) ;;
      match prefix with
      | None => Ret (Err (Driver "rand"))
      | Some b =>
          let prefix := Str.ToLower (Pki.hex_bytes b) in
          let plaintext := (TokenPrefix +:+ prefix +:+ "_" +:+ body)%go in
          exp <- (if (ttl =? 0)%Z then Ret None else now <- time_Now ;; Ret (Some (now + ttl)%Z)) ;;
          saved <-! Store.CreateAPIToken (APIToken.mk 0 (User.ID u) "" name prefix (HashToken plaintext) role exp 0 None false) ;;
          Ret (Ok (plaintext, saved))
      end.

(** The owner as the token may act for them, and the token. *)
Definition UserFromAPIToken (token : string) : M (User.t * APIToken.t) :=
  let token := Str.TrimSpace token in
  if str_is token "" || negb (Str.HasPrefix token TokenPrefix) then Ret (Err ErrNotFound)
  else
    r <-! Store.LookupAPIToken (HashToken token) ;;
    let '(rec, u) := r in
    Ret (if User.Disabled u then Err ErrDisabled
         else Ok (if str_is (APIToken.Role rec) RoleAdmin then u else User.set_Role (APIToken.Role rec) u, rec)).

Definition RevokeAPIToken (id : Z) : M unit := Store.RevokeAPIToken id.

(** ** Local users *)

Definition ValidatePassword (p : string) : result error unit :=
  if (String.length p <? 8)%nat then Err (Errorf "password must be at least 8 characters")
  else if (200 <? String.length p)%nat then Err (Errorf "password must be at most 200 characters")
  else Ok tt.

Definition HashPassword (password : string) : M string := Pki.draw (fun i => bcrypt_Generate i password).
Definition CheckPassword (hash password : string) : bool := bcrypt_Compare hash password.

Definition CreateLocalUser (username password displayName email role : string) : M User.t :=
  if str_is (Str.TrimSpace username) "" then Ret (Err (Errorf "username is required"))
  else match ValidatePassword password with
  | Err e => Ret (Err e)
  | Ok _ =>
      existing <- Store.GetUserByName username ;;
      match existing with
      | Ok _ => Ret (Err (Errorf (Str.Sprintf "user %q already exists" [Str.AStr username])))
      | Err _ =>
          hash <-! HashPassword password ;;
          Store.UpsertUser (new_user username SourceLocal displayName email
                              (if str_is role RoleAdmin then RoleAdmin else RoleUser) hash)
      end
  end.

Definition SetPassword (u : User.t) (password : string) : M unit :=
  if negb (str_is (User.Source u) SourceLocal)
  then Ret (Err (Errorf "passwords for directory accounts are managed in LDAP"))
  else match ValidatePassword password with
  | Err e => Ret (Err e)
  | Ok _ =>
      hash <-! HashPassword password ;;
      _ <-! Store.SetUserPassword (User.ID u) hash ;;
      if Str.EqualFold (User.Username u) (LocalAdmin_Username cfg) && nonempty (cfg_Path cfg) then
        r <- save_admin_hash hash ;;
        Ret (match r with
             | Err e => Err (Wrapf (Str.Sprintf "password changed, but writing %s failed" [Str.AStr (cfg_Path cfg)]) e)
             | Ok _ => Ok tt
             end)
      else Ret (Ok tt)
  end.
End auth.
End Auth.

(** ** Throttling *)

Module Throttle.

Open Scope prog_scope.

Definition loginFailLimit : Z := 5.
Definition loginFailWindow : Z := 15 * Minute.

(** How long the key must wait; 0 when it need not. *)
Definition retryAfter (key : string) : prog world Z :=
  now <- time_Now ;;
  recent <- Store.RecentAuthFailures key (now - loginFailWindow) loginFailLimit ;;
  Ret (match recent with
       | Ok ((first :: _) as l) =>
           if (Z.of_nat (length l) <? loginFailLimit)%Z then 0%Z
           else Z.max 0 (first + loginFailWindow - now)
       | _ => 0%Z
       end).

Definition Fail_ (key : string) : prog world unit :=
  now <- time_Now ;; Store.RecordAuthFailure key now ;;; Ret tt.
Definition Reset_ (key : string) : prog world unit := Store.ClearAuthFailures key ;;; Ret tt.
Definition Purge : M nat := now <- time_Now ;; Store.PurgeAuthFailures (now - loginFailWindow).

Definition user_key (username : string) : string := ("user:" +:+ username)%go.
Definition ip_key (ip : string) : string := ("ip:" +:+ ip)%go.

Definition loginThrottle (username ip : string) : prog world Z :=
  wait <- retryAfter (user_key username) ;;
  if (0 <? wait)%Z then Ret wait else retryAfter (ip_key ip).

Definition loginFailed (username ip : string) : prog world unit :=
  Fail_ (user_key username) ;;; Fail_ (ip_key ip).
Definition loginSucceeded (username ip : string) : prog world unit :=
  Reset_ (user_key username) ;;; Reset_ (ip_key ip).

End Throttle.
