(* ===== verification/Gate.v ===== *)
(** * The way into the portal and the API
    (internal/web/session.go, api.go, api_auth.go, oidc.go, server.go)

    Which requests reach a handler and as whom: the session cookie, the bearer
    token, the CSRF check, the admin requirement; the two endpoints that take a
    password; the address a request is counted under.  A rendered page, a JSON
    body or a redirect is a constructor of the outcome. *)

From S2P Require Import Prelude GoStrings Effects Models Schema Store Pki Sealing CaService Auth.

Module Gate.
Import Auth Throttle.

Open Scope prog_scope.

(** ** Requests *)

Record Request := mkRequest {
  Method : string; RequestURI : string; Authorization : string; X_CSRF_Token : string; form_csrf : string;
  cookie_session : option string; cookie_csrf : option string; RemoteAddr : string; X_Forwarded_For : string;
  UserAgent : string }.

(** net.SplitHostPort (the host), net.ParseIP, and whether an address lies in
    one of the configured networks. *)
Class Net := {
  IP : Type;
  SplitHostPort : string -> option string;
  ParseIP : string -> option IP }.

Section addresses.
Context `{Net}.
(** server.trusted_proxies, each as [IPNet.Contains]. *)
Context (trustedProxies : list (IP -> bool)).

Definition isTrustedProxy (addr : string) : bool :=
  let host := match SplitHostPort addr with Some h => h | None => addr end in
  match ParseIP host with
  | None => false
  | Some ip => existsb (fun n => n ip) trustedProxies
  end.

(** The loop over X-Forwarded-For, from its last entry on. *)
Fixpoint first_client (parts : list string) : option string :=
  match parts with
  | [] => None
  | part :: rest =>
      let addr := Str.TrimSpace part in
      if str_is addr "" then first_client rest
      else if isTrustedProxy addr then first_client rest else Some addr
  end.

Definition clientIP (r : Request) : string :=
  let peer := match SplitHostPort (RemoteAddr r) with Some h => h | None => RemoteAddr r end in
  if Nat.eqb (length trustedProxies) 0 || negb (isTrustedProxy peer) then peer
  else match first_client (rev (Str.Split (X_Forwarded_For r) ",")) with Some addr => addr | None => peer end.
End addresses.

(** ** Who is asking *)

Definition safe_method (m : string) : bool := str_is m "GET" || str_is m "HEAD".

Definition checkCSRF (r : Request) : bool :=
  match cookie_csrf r with
  | None => false
  | Some c =>
      if str_is c "" then false
      else let sent := if str_is (X_CSRF_Token r) "" then form_csrf r else X_CSRF_Token r in
           nonempty sent && str_is sent c
  end.

(** What a guarded route does with a request. *)
Inductive verdict :=
| ToLogin (next : string)              (* redirect to /login?next= *)
| FormExpired                          (* flash, redirect back *)
| AdminPageRequired                    (* the 403 page *)
| ApiError (status : Z) (msg : string) (* a JSON error *)
| Pass (u : User.t) (token : option APIToken.t).

Section gates.
Context `{Std : Pki.Std} `{Ciphers} `{Passwords} `{RowOrder}.

Definition userFromRequest (r : Request) : prog world (option (User.t * string)) :=
  match cookie_session r with
  | None => Ret None
  | Some c =>
      if str_is c "" then Ret None
      else u <- UserFromSession c ;; Ret (match u with Ok u => Some (u, c) | Err _ => None end)
  end.

Definition requireUser (r : Request) : prog world verdict :=
  u <- userFromRequest r ;;
  Ret (match u with
       | None => ToLogin (RequestURI r)
       | Some (u, _) => if negb (safe_method (Method r)) && negb (checkCSRF r) then FormExpired else Pass u None
       end).

Definition requireAdmin (r : Request) : prog world verdict :=
  v <- requireUser r ;;
  Ret (match v with
       | Pass u t => if IsAdmin (Some u) then Pass u t else AdminPageRequired
       | v => v
       end).

Definition api_credential (r : Request) : prog world verdict :=
  let authz := Authorization r in
  let none := ApiError 401 "authentication required: send an Authorization: Bearer <token> header" in
  if Str.HasPrefix (Str.ToLower authz) "bearer " then
    u <- UserFromAPIToken (Str.TrimSpace (drop_s 7 authz)) ;;
    Ret (match u with Err _ => ApiError 401 "invalid or expired API token" | Ok (u, rec) => Pass u (Some rec) end)
  else
    u <- userFromRequest r ;;
    Ret (match u with
         | None => none
         | Some (u, _) => if negb (safe_method (Method r)) && negb (checkCSRF r)
                          then ApiError 403 "missing or invalid CSRF token" else Pass u None
         end).

Definition apiAuth (adminOnly : bool) (r : Request) : prog world verdict :=
  v <- api_credential r ;;
  Ret (match v with
       | Pass u t => if adminOnly && negb (IsAdmin (Some u)) then ApiError 403 "administrator role required" else Pass u t
       | v => v
       end).

(** ** Signing in with a password *)

Context (cfg : Config).
Context (ldap : option (string -> string -> M Identity)).
Context (sink : string -> string -> string -> string -> string -> prog world unit).

Definition auditIP := CaService.recordAudit sink.

(** Only a path of this site. *)
Definition login_dest (next : string) : string :=
  if nonempty next && Str.HasPrefix next "/" && negb (Str.HasPrefix next "//") then next else "/"%string.

Inductive login_result :=
| LoginForm (msg next : string)
| SignedIn (session : string) (dest : string).

Definition finishLogin (u : User.t) (next ip ua : string) : prog world login_result :=
  s <- CreateSession cfg u ip ua ;;
  match s with
  | Err e => Ret (LoginForm ("Could not start a session: " +:+ Error e)%go next)
  | Ok (token, _) =>
      auditIP (User.Username u) "auth.login" (User.Username u)
        ("source=" +:+ User.Source u +:+ " role=" +:+ User.Role u)%go ip ;;;
      Ret (SignedIn token (login_dest next))
  end.

(** [int(wait.Seconds()) + 1] *)
Definition wait_seconds (wait : Z) : Z := Z.quot wait Second + 1.

Definition failure_message (e : error) : string :=
  if is_error e ErrDisabled then "This account is disabled."
  else if is_error e ErrInvalidCredentials then "Invalid username or password."
  else ("Sign-in failed: " +:+ Error e)%go.

Definition handleLoginSubmit (r : Request) (ip form_username password next : string) : prog world login_result :=
  if negb (checkCSRF r) then Ret (LoginForm "Your login form expired. Please try again." next)
  else
    let username := Str.TrimSpace form_username in
    wait <- loginThrottle username ip ;;
    if (0 <? wait)%Z then
      auditIP username "auth.login_throttled" username "via=form" ip ;;;
      Ret (LoginForm (Str.Sprintf "Too many failed sign-in attempts. Please try again in %d seconds." [Str.AInt (wait_seconds wait)]) next)
    else
      u <- Authenticate cfg ldap username password ;;
      match u with
      | Err e =>
          loginFailed username ip ;;;
          auditIP username "auth.login_failed" username (Error e) ip ;;;
          Ret (LoginForm (failure_message e) next)
      | Ok u =>
          loginSucceeded username ip ;;;
          finishLogin u next ip (UserAgent r)
      end.

Definition handleLogout (r : Request) (ip : string) : prog world unit :=
  match cookie_session r with
  | None => Ret tt
  | Some c =>
      u <- userFromRequest r ;;
      match u with
      | Some (u, _) => auditIP (User.Username u) "auth.logout" (User.Username u) "" ip
      | None => Ret tt
      end ;;;
      DestroySession c ;;; Ret tt
  end.

(** The end of the SSO callback, once the provider's answer is verified. *)
Definition finish_sso (id : Identity) (next ip ua : string) : prog world login_result :=
  u <- SyncOIDCUser id ;;
  match u with
  | Err e => Ret (LoginForm (if is_error e ErrDisabled then "This account is disabled." else "Sign-in failed: " +:+ Error e)%go "")
  | Ok u => finishLogin u next ip ua
  end.

(** ** Signing in over the API *)

Record loginRequest := mkLogin { Username : string; Password : string; TokenName : string; Days : Z }.
Record loginResponse := mkLoginResponse { Token : string; login_token : APIToken.t; login_user : User.t }.

Definition maxTokenNameLen : nat := 64.

Definition loginTokenTTL (days : Z) : result (Z * string) Z :=
  if (days <? 0)%Z then Err (400%Z, "days cannot be negative"%string)
  else if (days =? 0)%Z then
    Ok (if (APILoginTokenTTL cfg <=? 0)%Z then 30 * 24 * Hour else APILoginTokenTTL cfg)%Z
  else if (0 <? APILoginTokenMaxDays cfg)%Z && (APILoginTokenMaxDays cfg <? days)%Z then
    Err (400%Z, Str.Sprintf "days is %d, which exceeds this server's maximum of %d"
           [Str.AInt days; Str.AInt (APILoginTokenMaxDays cfg)])
  else Ok (int64 (int64 (days * 24) * Hour)).

Definition login_error (e : error) : Z * string :=
  if is_error e ErrDisabled then (403%Z, "this account is disabled"%string)
  else if is_error e ErrInvalidCredentials then (401%Z, "invalid username or password"%string)
  else (502%Z, "the directory could not be reached"%string).

(** renderAPIError of an error that is not an apiError. *)
Definition api_error (e : error) : Z * string :=
  if is_not_found e then (404%Z, "not found"%string) else (400%Z, Error e).

Definition login_token_name (in_ : loginRequest) : string :=
  let name := Str.TrimSpace (TokenName in_) in
  let name := if str_is name "" then "gocactl login"%string else name in
  if (maxTokenNameLen <? String.length name)%nat then take_s maxTokenNameLen name else name.

Definition apiAuthLogin (in_ : loginRequest) (ip : string) : prog world (result (Z * string) loginResponse) :=
  let username := Str.TrimSpace (Username in_) in
  if str_is username "" || str_is (Password in_) "" then Ret (Err (400%Z, "username and password are required"%string))
  else if negb (LocalEnabled cfg) && negb (LDAPEnabled ldap) then
    Ret (Err (400%Z, "password login is disabled on this server; sign in to the portal with SSO and create an API token under Settings instead"%string))
  else
    wait <- loginThrottle username ip ;;
    if (0 <? wait)%Z then
      auditIP username "auth.login_throttled" username "via=api" ip ;;;
      Ret (Err (429%Z, Str.Sprintf "too many failed sign-in attempts; try again in %ds" [Str.AInt (wait_seconds wait)]))
    else match loginTokenTTL (Days in_) with
    | Err e => Ret (Err e)
    | Ok ttl =>
        u <- Authenticate cfg ldap username (Password in_) ;;
        match u with
        | Err e =>
            loginFailed username ip ;;;
            auditIP username "auth.login_failed" username ("via=api " +:+ Error e)%go ip ;;;
            Ret (Err (login_error e))
        | Ok u =>
            loginSucceeded username ip ;;;
            issued <- IssueAPIToken u (login_token_name in_) (User.Role u) ttl ;;
            match issued with
            | Err e => Ret (Err (api_error e))
            | Ok (plaintext, rec) =>
                auditIP (User.Username u) "auth.login" (User.Username u)
                  ("via=api source=" +:+ User.Source u +:+ " role=" +:+ User.Role u)%go ip ;;;
                auditIP (User.Username u) "token.create" (APIToken.Name rec)
                  ("role=" +:+ APIToken.Role rec +:+ " via=login")%go ip ;;;
                Ret (Ok (mkLoginResponse plaintext rec u))
            end
        end
    end.
End gates.
End Gate.
