(* ===== verification/Sessions.v ===== *)
(** * Sessions in the browser and in time
    (internal/web/session.go, render.go, server.go)

    The cookies around Gate: what a response sets and what a browser with a jar
    sends back until their age runs out, CSRF tokens, flash messages, the sign-in page, signing in and
    out; and the janitor that deletes what has expired. *)

From S2P Require Import Prelude GoStrings Effects Models Schema Store Pki Sealing CaService AcmeStore AcmePolicy Auth Gate.

Module Sessions.
Import Auth Throttle.

Open Scope prog_scope.

(** ** Cookies *)

Record Cookie := mkCookie { c_Name : string; c_Value : string; c_MaxAge : Z; c_HttpOnly : bool; c_Secure : bool }.

Definition sessionCookie : string := "goca_session".
Definition csrfCookie : string := "goca_csrf".
Definition flashCookie : string := "goca_flash".

(** A browser's cookies, each with the time it runs out, if it does.  Storing
    at [t]: a negative age forgets the cookie, none keeps it until the browser
    is closed. *)
Abbreviation jar := (gmap string (string * option Z)).
Definition keep_one (t : Z) (j : jar) (c : Cookie) : jar :=
  if (c_MaxAge c <? 0)%Z then base.delete (c_Name c) j
  else <[c_Name c := (c_Value c, if (c_MaxAge c =? 0)%Z then None else Some (t + c_MaxAge c * Second)%Z)]> j.
Definition keep (t : Z) (j : jar) (cs : list Cookie) : jar := fold_left (keep_one t) cs j.

(** The cookie of that name a browser sends at [t]. *)
Definition alive (t : Z) (until : option Z) : bool := match until with Some e => (t <? e)%Z | None => true end.
Definition sent (t : Z) (j : jar) (name : string) : option string :=
  match j !! name with Some (v, until) => if alive t until then Some v else None | None => None end.

(** What a browser with these cookies sends at [t], [form] being the CSRF field. *)
Definition request (t : Z) (j : jar) (method uri form : string) : Gate.Request :=
  Gate.mkRequest method uri "" "" form (sent t j sessionCookie) (sent t j csrfCookie) "" "" "".

(** The browser's clock, which is the server's. *)
Definition clock : prog world Z := act (fun w => (w_clock w, w)).

Section sessions.
Context `{Std : Pki.Std} `{Ciphers} `{Passwords} `{RowOrder}.
(** security.secure_cookies, whether the connection is TLS, X-Forwarded-Proto. *)
Context (always tls : bool) (forwarded : string).

Definition secureCookies : bool := always || tls || Str.EqualFold forwarded "https".
Definition setCookie (name value : string) (maxAge : Z) (httpOnly : bool) : Cookie := mkCookie name value maxAge httpOnly secureCookies.

(** ** CSRF tokens *)

Definition randomURLSafeToken (n : nat) : M string := randomToken n.

Definition csrfToken (r : Gate.Request) : prog world (string * list Cookie) :=
  let fresh :=
    tok <- randomURLSafeToken 24 ;;
    Ret (match tok with
         | Ok tok => (tok, [setCookie csrfCookie tok (12 * 3600) false])
         | Err _ => (EmptyString, [])
         end) in
  match Gate.cookie_csrf r with
  | Some c => if (16 <=? String.length c)%nat then Ret (c, []) else fresh
  | None => fresh
  end.

(** ** Flash messages: shown by the next page, and once *)

Section flash.
(** base64.RawURLEncoding.DecodeString *)
Context (decode : string -> option string).

Definition flash (kind text : string) : Cookie := setCookie flashCookie (rawurl (kind +:+ "|" +:+ text)%go) 30 true.

(** strings.SplitN(s, bar, 2) when it has two parts. *)
Fixpoint split_bar (s : string) : option (string * string) :=
  match s with
  | EmptyString => None
  | String c s' =>
      if Ascii.eqb c "|" then Some (EmptyString, s')
      else match split_bar s' with Some (a, b) => Some (String c a, b) | None => None end
  end.

Definition takeFlash (cookie : option string) : option (string * string) * list Cookie :=
  match cookie with
  | None => (None, [])
  | Some v =>
      if str_is v "" then (None, [])
      else (match decode v with Some raw => split_bar raw | None => None end, [setCookie flashCookie "" (-1) true])
  end.

(** ** Pages: what of a page depends on the cookies, and what it sets *)

Record Page := mkPage { p_Flash : option (string * string); p_CSRF : string }.

Definition render (cookie : option string) (r : Gate.Request) : prog world (Page * list Cookie) :=
  let '(f, cleared) := takeFlash cookie in
  t <- csrfToken r ;; Ret (mkPage f (fst t), cleared ++ snd t).

(** The status is written before the page is rendered, and with it the
    headers: a cookie set afterwards is not sent. *)
Definition renderError (cookie : option string) (r : Gate.Request) : prog world (Page * list Cookie) :=
  p <- render cookie r ;; Ret (fst p, []).
End flash.

(** ** Signing in and out *)

Context (cfg : Config).
Context (ldap : option (string -> string -> M Identity)).
Context (sink : string -> string -> string -> string -> string -> prog world unit).

Inductive login_page := AlreadyIn | SignInForm (msg next csrf : string).

Definition renderLogin (r : Gate.Request) (msg next : string) : prog world (login_page * list Cookie) :=
  t <- csrfToken r ;; Ret (SignInForm msg next (fst t), snd t).

Definition handleLoginPage (r : Gate.Request) (next : string) : prog world (login_page * list Cookie) :=
  u <- Gate.userFromRequest r ;;
  match u with Some _ => Ret (AlreadyIn, []) | None => renderLogin r "" next end.

(** The answer to a sign-in with its cookies.  A page is rendered once the
    handler is done; the CSRF cookie of a new session is drawn here after the
    audit record, not before it. *)
Definition answer_login (r : Gate.Request) (res : Gate.login_result) : prog world (Gate.login_result * list Cookie) :=
  match res with
  | Gate.LoginForm msg next => p <- renderLogin r msg next ;; Ret (res, snd p)
  | Gate.SignedIn tok _ =>
      t <- csrfToken r ;; Ret (res, setCookie sessionCookie tok (Z.quot (SessionTTL cfg) Second) true :: snd t)
  end.
Definition submit (r : Gate.Request) (ip username password next : string) : prog world (Gate.login_result * list Cookie) :=
  res <- Gate.handleLoginSubmit cfg ldap sink r ip username password next ;; answer_login r res.

(** Somebody opens the sign-in page, fills the form in and sends it: what they
    are told, and the cookies of the browser then. *)
Definition sign_in (j : jar) (ip username password next : string) : prog world (option Gate.login_result * jar) :=
  opened <- clock ;;
  p <- handleLoginPage (request opened j "GET" "/login" "") next ;;
  shown <- clock ;;
  let j := keep shown j (snd p) in
  match fst p with
  | AlreadyIn => Ret (None, j)
  | SignInForm _ next csrf =>
      filled_in <- time_Now ;;
      a <- submit (request filled_in j "POST" "/login" csrf) ip username password next ;;
      answered <- clock ;;
      Ret (Some (fst a), keep answered j (snd a))
  end.

Definition logout (r : Gate.Request) (ip : string) : prog world (list Cookie) :=
  Gate.handleLogout sink r ip ;;; Ret [setCookie sessionCookie "" (-1) true].
(** The route has no gate and no CSRF check, for POST and GET alike. *)
Definition sign_out (j : jar) (ip : string) : prog world jar :=
  now <- clock ;; cs <- logout (request now j "POST" "/logout" "") ip ;; answered <- clock ;; Ret (keep answered j cs).
End sessions.

(** ** The janitor *)

(** What is reported of each purge goes to the log. *)
Definition purgeExpired : prog world unit :=
  Store.PurgeExpiredSessions ;;; NonceManager.Purge ;;; Throttle.Purge ;;; Ret tt.
(** So many hours of it. *)
Fixpoint janitor (hours : nat) : prog world unit :=
  match hours with 0 => Ret tt | S n => purgeExpired ;;; janitor n end.
End Sessions.
