(* ===== verification/Directory.v ===== *)
(** * Sign-in through a directory or an SSO provider
    (internal/ldapauth/ldap.go, internal/oidcauth/oidc.go, internal/web/oidc.go)

    Who the server takes a person to be when somebody else checks the password.
    The LDAP connection and the OpenID Connect provider are parameters; what is
    modelled is what the program asks of them and what it makes of the answers:
    the distinguished name it binds as, the groups that make an administrator,
    the claims that become a user, and the two ends of the browser's round trip. *)

From S2P Require Import Prelude GoStrings Effects Models Schema Store Pki Sealing CaService Auth Gate.

(** ** LDAP *)

Module LdapAuth.

Open Scope prog_scope.

(** Has the text and, as nothing compares the two, the identity of
    [Auth.ErrInvalidCredentials]. *)
Definition ErrInvalidCredentials : error := Sentinel "invalid username or password".
Definition ErrNotAllowed : error := Sentinel "account is not a member of any permitted group".

Record Identity := mkIdentity {
  Username : string; DN : string; DisplayName : string; Email : string; Groups : list string; IsAdmin : bool }.

(** config.LDAPConfig, with the service account's password decrypted. *)
Record Config := mkConfig {
  Enabled : bool; URL : string; StartTLS : bool; InsecureSkipVerify : bool; CACertFile : string;
  BindDN : string; bindPassword : string; BaseDN : string; UserFilter : string; UserDNTemplate : string;
  AttrUsername : string; AttrDisplayName : string; AttrEmail : string;
  GroupBaseDN : string; GroupFilter : string; AttrGroup : string;
  AdminGroups : list string; AllowedGroups : list string; Timeout : Z }.

Record tls_Config (Pool : Type) := mkTLS { ServerName : string; skip_verify : bool; RootCAs : option Pool }.
Arguments mkTLS {Pool}.

Inductive scope := ScopeBaseObject | ScopeWholeSubtree.
Record SearchRequest := mkSearch {
  req_BaseDN : string; req_Scope : scope; SizeLimit : Z; TimeLimit : Z; Filter : string; Attributes : list string }.

(** github.com/go-ldap/ldap, os.ReadFile and x509.CertPool. *)
Class Directory := {
  Pool : Type;
  Conn : Type;
  Entry : Type;
  os_ReadFile : string -> M string;
  AppendCertsFromPEM : string -> option Pool;
  DialURL : string -> tls_Config Pool -> Z -> M Conn;
  SetTimeout : Conn -> Z -> prog world unit;
  conn_StartTLS : Conn -> tls_Config Pool -> M unit;
  Close : Conn -> prog world unit;
  Bind : Conn -> string -> string -> M unit;
  Search : Conn -> SearchRequest -> M (list Entry);
  (** IsErrorWithCode(err, LDAPResultInvalidCredentials) *)
  is_invalid_credentials : error -> bool;
  EscapeDN : string -> string;
  EscapeFilter : string -> string;
  entry_DN : Entry -> string;
  GetAttributeValues : Entry -> string -> list string;
  GetAttributeValue : Entry -> string -> string }.

(** ** Groups *)

Definition norm (s : string) : string := Str.ToLower (Str.TrimSpace s).

(** The value of the first "cn=" part. *)
Fixpoint first_cn (parts : list string) : option string :=
  match parts with
  | [] => None
  | part :: rest =>
      let p := Str.TrimSpace part in
      if Str.HasPrefix (Str.ToLower p) "cn=" then Some (norm (drop_s 3 p)) else first_cn rest
  end.
Definition cn (s : string) : string :=
  match first_cn (Str.Split s ",") with Some v => v | None => norm s end.

(** The map [set], as the list of its keys. *)
Definition matchesAny (have want : list string) : bool :=
  if Nat.eqb (length have) 0 || Nat.eqb (length want) 0 then false
  else
    let set := flat_map (fun h => [norm h; cn h]) have in
    let mem s := existsb (str_is s) set in
    existsb (fun w => mem (norm w) || mem (cn w)) want.

Definition firstNonEmpty : list string -> string := CaService.firstNonEmpty.

Section client.
Context `{Directory}.
Context (cfg : Config).

Definition Enabled_ : bool := Enabled cfg && nonempty (URL cfg).
Definition timeout : Z := if (0 <? Timeout cfg)%Z then Timeout cfg else 10 * Second.
(** [int(c.timeout().Seconds())] *)
Definition timeout_seconds : Z := Z.quot timeout Second.

(** Between "://" and the first ":" after it. *)
Definition server_name (url : string) : string :=
  let host := match Str.Index url "://" with Some i => drop_s (i + 3) url | None => url end in
  match Str.Index host ":" with Some i => take_s i host | None => host end.

Definition tlsConfig : M (tls_Config Pool) :=
  let tc pool := mkTLS (server_name (URL cfg)) (InsecureSkipVerify cfg) pool in
  if str_is (CACertFile cfg) "" then Ret (Ok (tc None))
  else
    pem <- os_ReadFile (CACertFile cfg) ;;
    Ret (match pem with
         | Err e => Err (Wrapf "read ldap ca_cert_file" e)
         | Ok pem =>
             match AppendCertsFromPEM pem with
             | None => Err (Errorf (Str.Sprintf "no certificates found in %s" [Str.AStr (CACertFile cfg)]))
             | Some pool => Ok (tc (Some pool))
             end
         end).

Definition connect : M Conn :=
  if negb Enabled_ then Ret (Err (Errorf "LDAP is not enabled in the configuration"))
  else
    tc <-! tlsConfig ;;
    conn <- DialURL (URL cfg) tc timeout ;;
    match conn with
    | Err e => Ret (Err (Wrapf (Str.Sprintf "connect to %s" [Str.AStr (URL cfg)]) e))
    | Ok conn =>
        SetTimeout conn timeout ;;;
        if StartTLS cfg then
          r <- conn_StartTLS conn tc ;;
          match r with
          | Err e => Close conn ;;; Ret (Err (Wrapf (Str.Sprintf "StartTLS to %s" [Str.AStr (URL cfg)]) e))
          | Ok _ => Ret (Ok conn)
          end
        else Ret (Ok conn)
    end.

Definition bindService (conn : Conn) : M unit :=
  if str_is (BindDN cfg) "" then Ret (Ok tt)
  else
    r <- Bind conn (BindDN cfg) (bindPassword cfg) ;;
    Ret (match r with
         | Err e => Err (Wrapf (Str.Sprintf "bind as service account %s" [Str.AStr (BindDN cfg)]) e)
         | Ok _ => Ok tt
         end).

(** A connection, [body] on it, and the deferred Close. *)
Definition with_conn {A} (body : Conn -> M A) : M A :=
  conn <-! connect ;; r <- body conn ;; Close conn ;;; Ret r.

Definition TestConnection : M unit :=
  with_conn (fun conn =>
    _ <-! bindService conn ;;
    if str_is (BaseDN cfg) "" then Ret (Ok tt)
    else
      r <- Search conn (mkSearch (BaseDN cfg) ScopeBaseObject 1 timeout_seconds "(objectClass=*)" ["dn"%string]) ;;
      Ret (match r with
           | Err e => Err (Wrapf (Str.Sprintf "search base %s is not reachable" [Str.AStr (BaseDN cfg)]) e)
           | Ok _ => Ok tt
           end)).

(** ** Looking up a person *)

Definition user_filter (username : string) : string :=
  let filter := if str_is (UserFilter cfg) "" then "(uid=%s)"%string else UserFilter cfg in
  Str.ReplaceAll filter "%s" (EscapeFilter username).

Definition user_attributes : list string :=
  "dn"%string :: List.filter nonempty [AttrUsername cfg; AttrDisplayName cfg; AttrEmail cfg; "memberOf"%string].

(** The identity an entry describes. *)
Definition of_entry (username : string) (e : Entry) : Identity :=
  mkIdentity (firstNonEmpty [GetAttributeValue e (AttrUsername cfg); username]) (entry_DN e)
    (if nonempty (AttrDisplayName cfg) then GetAttributeValue e (AttrDisplayName cfg) else EmptyString)
    (if nonempty (AttrEmail cfg) then GetAttributeValue e (AttrEmail cfg) else EmptyString)
    (GetAttributeValues e "memberOf") false.

Definition searchUser (conn : Conn) (username : string) : M Identity :=
  res <- Search conn (mkSearch (BaseDN cfg) ScopeWholeSubtree 2 timeout_seconds (user_filter username) user_attributes) ;;
  Ret (match res with
       | Err e => Err (Wrapf (Str.Sprintf "search for user %q" [Str.AStr username]) e)
       | Ok [] => Err ErrInvalidCredentials
       | Ok [e] => Ok (of_entry username e)
       | Ok es => Err (Errorf (Str.Sprintf "user filter matched %d entries for %q; make it more specific"
                         [Str.AInt (Z.of_nat (length es)); Str.AStr username]))
       end).

Definition group_filter (userDN username : string) : string :=
  let filter := Str.ReplaceAll (GroupFilter cfg) "%d" (EscapeFilter userDN) in
  let filter := Str.ReplaceAll filter "%s" (EscapeFilter userDN) in
  Str.ReplaceAll filter "%u" (EscapeFilter username).

Definition searchGroups (conn : Conn) (userDN username : string) : M (list string) :=
  let attr := if str_is (AttrGroup cfg) "" then "cn"%string else AttrGroup cfg in
  res <- Search conn (mkSearch (GroupBaseDN cfg) ScopeWholeSubtree 0 timeout_seconds (group_filter userDN username)
                        ["dn"%string; attr]) ;;
  Ret (match res with
       | Err e => Err (Wrapf "group search" e)
       | Ok es => Ok (flat_map (fun e => entry_DN e ::
                    (let v := GetAttributeValue e attr in if nonempty v then [v] else [])) es)
       end).

(** The user's DN, by the template or by a search. *)
Definition resolve_user (conn : Conn) (username : string) : M Identity :=
  let tmpl := Str.TrimSpace (UserDNTemplate cfg) in
  if nonempty tmpl
  then Ret (Ok (mkIdentity username (Str.ReplaceAll tmpl "%s" (EscapeDN username)) "" "" [] false))
  else _ <-! bindService conn ;; searchUser conn username.

Definition with_groups (conn : Conn) (id : Identity) : prog world Identity :=
  if nonempty (GroupBaseDN cfg) && nonempty (GroupFilter cfg) then
    _ <- bindService conn ;;
    groups <- searchGroups conn (DN id) (Username id) ;;
    Ret (match groups with
         | Ok gs => mkIdentity (Username id) (DN id) (DisplayName id) (Email id) gs (IsAdmin id)
         | Err _ => id
         end)
  else Ret id.

(** The role and the admission, from the groups and the DN. *)
Definition is_admin (id : Identity) : bool :=
  matchesAny (Groups id) (AdminGroups cfg) || matchesAny [DN id] (AdminGroups cfg).
Definition admitted (id : Identity) : bool :=
  Nat.eqb (length (AllowedGroups cfg)) 0 || matchesAny (Groups id) (AllowedGroups cfg) ||
  matchesAny [DN id] (AllowedGroups cfg).

Definition authorise (username : string) (id : Identity) : result error Identity :=
  if negb (admitted id) then Err ErrNotAllowed
  else Ok (mkIdentity (Username id) (DN id) (if str_is (DisplayName id) "" then username else DisplayName id)
             (Email id) (Groups id) (is_admin id)).

Definition Authenticate (username password : string) : M Identity :=
  if str_is (Str.TrimSpace username) "" || str_is password "" then Ret (Err ErrInvalidCredentials)
  else
    with_conn (fun conn =>
      id <-! resolve_user conn username ;;
      bound <- Bind conn (DN id) password ;;
      match bound with
      | Err e =>
          Ret (Err (if is_invalid_credentials e then ErrInvalidCredentials
                    else Wrapf (Str.Sprintf "bind as %s" [Str.AStr (DN id)]) e))
      | Ok _ => id <- with_groups conn id ;; Ret (authorise username id)
      end).

(** The client as [Auth.Authenticate] calls it. *)
Definition client (username password : string) : M Auth.Identity :=
  id <-! Authenticate username password ;;
  Ret (Ok (Auth.mkIdentity (Username id) (DisplayName id) (Email id) (Groups id) (IsAdmin id))).
End client.
End LdapAuth.

(** ** OpenID Connect *)

Module OidcAuth.

Open Scope prog_scope.

Definition ErrNotAllowed : error := Sentinel "account is not a member of any permitted group".
Definition ScopeOpenID : string := "openid".

(** What a claim decodes to. *)
Inductive claim :=
| CNull | CBool (b : bool) | CNumber (text : string) | CString (s : string)
| CArray (l : list claim) | CObject (fields : list (string * claim)).
Abbreviation claims := (gmap string claim).

Record Config := mkConfig {
  Enabled : bool; IssuerURL : string; ClientID : string; ClientSecret : string; RedirectURL : string;
  Scopes : list string; InsecureSkipVerify : bool; ClaimUsername : string; ClaimDisplayName : string; ClaimEmail : string;
  ClaimGroups : string; AdminGroups : list string; AllowedGroups : list string }.

Definition scopesOrDefault (scopes : list string) : list string :=
  match scopes with
  | [] => [ScopeOpenID; "profile"%string; "email"%string]
  | _ => if existsb (fun s => str_is s ScopeOpenID) scopes then scopes else ScopeOpenID :: scopes
  end.

(** github.com/coreos/go-oidc and golang.org/x/oauth2. *)
Class Provider := {
  Prov : Type;
  Token : Type;
  IDToken : Type;
  NewProvider : string -> M Prov;
  oauth_AuthCodeURL : Prov -> Config -> list string -> string -> string -> string;
  oauth_Exchange : Prov -> Config -> list string -> string -> M Token;
  Extra_id_token : Token -> option string;
  Verify : Prov -> string -> string -> M IDToken;
  Nonce : IDToken -> string;
  IDToken_Claims : IDToken -> result error claims;
  (** UserInfo, then its Claims. *)
  UserInfo : Prov -> Token -> M claims }.

(** ** Claims *)

Definition stringClaim (cs : claims) (key : string) : string :=
  if str_is key "" then EmptyString
  else match cs !! key with Some (CString s) => s | _ => EmptyString end.

Definition stringSliceClaim (cs : claims) (key : string) : list string :=
  if str_is key "" then []
  else match cs !! key with
       | Some (CArray l) => omap (fun e => match e with CString s => Some s | _ => None end) l
       | Some (CString s) => [s]
       | _ => []
       end.

Fixpoint firstNonEmptyClaim (cs : claims) (keys : list string) : string :=
  match keys with
  | [] => EmptyString
  | k :: ks => let s := stringClaim cs k in if nonempty s then s else firstNonEmptyClaim cs ks
  end.

Fixpoint firstNonEmpty (vals : list string) : string :=
  match vals with
  | [] => EmptyString
  | v :: vs => if nonempty v then v else firstNonEmpty vs
  end.

Definition matchesAny (have want : list string) : bool :=
  if Nat.eqb (length have) 0 || Nat.eqb (length want) 0 then false
  else existsb (fun w => existsb (fun h => str_is (LdapAuth.norm w) (LdapAuth.norm h)) have) want.

Section client.
Context `{Provider}.
Context (cfg : Config).

Definition Enabled_ : bool := Enabled cfg && nonempty (IssuerURL cfg).

(** The provider the process has discovered, if it has; kept for good once it
    is there. *)
Definition ready (known : option Prov) : prog world (option Prov * result error Prov) :=
  match known with
  | Some p => Ret (Some p, Ok p)
  | None =>
      p <- NewProvider (IssuerURL cfg) ;;
      Ret (match p with
           | Err e => (None, Err (Wrapf (Str.Sprintf "discover OIDC issuer %s" [Str.AStr (IssuerURL cfg)]) e))
           | Ok p => (Some p, Ok p)
           end)
  end.

Definition AuthCodeURL (known : option Prov) (state nonce : string) : prog world (option Prov * result error string) :=
  r <- ready known ;;
  let '(known, p) := r in
  Ret (known, match p with
              | Err e => Err e
              | Ok p => Ok (oauth_AuthCodeURL p cfg (scopesOrDefault (Scopes cfg)) state nonce)
              end).

(** The user the claims describe. *)
Definition identity_of (cs : claims) : result error Auth.Identity :=
  let groups := stringSliceClaim cs (firstNonEmpty [ClaimGroups cfg; "groups"%string]) in
  let username := firstNonEmptyClaim cs [firstNonEmpty [ClaimUsername cfg; "preferred_username"%string]; "email"%string; "sub"%string] in
  if str_is username "" then Err (Errorf "no usable username claim in the ID token or userinfo response")
  else if negb (Nat.eqb (length (AllowedGroups cfg)) 0) && negb (matchesAny groups (AllowedGroups cfg))
  then Err ErrNotAllowed
  else Ok (Auth.mkIdentity username (stringClaim cs (firstNonEmpty [ClaimDisplayName cfg; "name"%string]))
             (stringClaim cs (firstNonEmpty [ClaimEmail cfg; "email"%string])) groups
             (matchesAny groups (AdminGroups cfg))).

(** An ID token of the provider for this login attempt, and its claims. *)
Definition verified_claims (p : Prov) (token : Token) (wantNonce : string) : M claims :=
  match Extra_id_token token with
  | None => Ret (Err (Errorf "the provider's token response had no id_token"))
  | Some raw =>
      t <- Verify p (ClientID cfg) raw ;;
      Ret (match t with
           | Err e => Err (Wrapf "verify ID token" e)
           | Ok t =>
               if negb (str_is (Nonce t) wantNonce)
               then Err (Errorf "ID token nonce does not match this login attempt")
               else match IDToken_Claims t with
                    | Err e => Err (Wrapf "decode ID token claims" e)
                    | Ok cs => Ok cs
                    end
           end)
  end.

Definition exchange_with (p : Prov) (code wantNonce : string) : M Auth.Identity :=
  token <- oauth_Exchange p cfg (scopesOrDefault (Scopes cfg)) code ;;
  match token with
  | Err e => Ret (Err (Wrapf "token exchange" e))
  | Ok token =>
      cs <-! verified_claims p token wantNonce ;;
      extra <- UserInfo p token ;;
      Ret (identity_of (match extra with Ok extra => cs ∪ extra | Err _ => cs end))
  end.

Definition Exchange (known : option Prov) (code wantNonce : string) : prog world (option Prov * result error Auth.Identity) :=
  r <- ready known ;;
  let '(known, p) := r in
  match p with
  | Err e => Ret (known, Err e)
  | Ok p => id <- exchange_with p code wantNonce ;; Ret (known, id)
  end.
End client.
End OidcAuth.

(** ** The browser's round trip *)

Module Sso.
Import Gate.

Open Scope prog_scope.

Record oidcState := mkState { State : string; Nonce : string; Next : string }.

(** The cookie's value: JSON in unpadded base64, decoded as far as it can be. *)
Class StateCookie := {
  seal_state : oidcState -> string;
  open_state : string -> option oidcState }.

(** What the provider sends the browser back with. *)
Record Callback := mkCallback { q_error : string; q_error_description : string; q_state : string; q_code : string }.

Inductive start_result :=
| StartNotFound
| StartForm (msg next : string) (cookie : option string)
| ToProvider (url cookie : string).

Section sso.
Context `{Std : Pki.Std} `{Ciphers} `{Auth.Passwords} `{RowOrder} `{OidcAuth.Provider} `{StateCookie}.
Context (auth_cfg : Auth.Config) (oidc : option OidcAuth.Config).
Context (sink : string -> string -> string -> string -> string -> prog world unit).

(** The client, when single sign-on is enabled. *)
Definition OIDCEnabled : option OidcAuth.Config :=
  match oidc with Some c => if OidcAuth.Enabled_ c then Some c else None | None => None end.

(** Only ever back into this site. *)
Definition local_next (next : string) : string :=
  if nonempty next && (negb (Str.HasPrefix next "/") || Str.HasPrefix next "//") then EmptyString else next.

Definition handleOIDCLogin (known : option OidcAuth.Prov) (next : string) : prog world (option OidcAuth.Prov * start_result) :=
  match OIDCEnabled with
  | None => Ret (known, StartNotFound)
  | Some cfg =>
      state <- Auth.randomToken 24 ;;
      nonce <- Auth.randomToken 24 ;;
      match state, nonce with
      | Ok state, Ok nonce =>
          let next := local_next next in
          let cookie := seal_state (mkState state nonce next) in
          r <- OidcAuth.AuthCodeURL cfg known state nonce ;;
          let '(known, url) := r in
          Ret (known, match url with
                      | Err _ => StartForm "Could not reach the SSO provider. Try again shortly, or use another sign-in method." next (Some cookie)
                      | Ok url => ToProvider url cookie
                      end)
      | _, _ => Ret (known, StartForm "Could not start SSO sign-in." "" None)
      end
  end.

(** The cookie is cleared whatever it holds. *)
Definition takeOIDCState (cookie : option string) : option oidcState :=
  match cookie with
  | None => None
  | Some c =>
      if str_is c "" then None
      else match open_state c with
           | None => None
           | Some sv => if str_is (State sv) "" || str_is (Nonce sv) "" then None else Some sv
           end
  end.

Definition refused (e : error) : string :=
  if Auth.is_error e OidcAuth.ErrNotAllowed
  then "Your account is not a member of any group permitted to sign in here." else "Sign-in failed.".

Definition handleOIDCCallback (known : option OidcAuth.Prov) (cookie : option string) (q : Callback) (ip ua : string)
    : prog world (option OidcAuth.Prov * option login_result) :=
  match OIDCEnabled with
  | None => Ret (known, None)
  | Some cfg =>
      let form msg next := Ret (known, Some (LoginForm msg next)) in
      match takeOIDCState cookie with
      | None => form "Your sign-in attempt expired or could not be verified. Please try again."%string EmptyString
      | Some sv =>
          if nonempty (q_error q) then
            form ("Sign-in was cancelled or failed: " +:+ CaService.firstNonEmpty [q_error_description q; q_error q])%go (Next sv)
          else if str_is (q_state q) "" || negb (str_is (q_state q) (State sv)) then
            form "Your sign-in attempt could not be verified. Please try again."%string EmptyString
          else if str_is (q_code q) "" then
            form "The SSO provider did not return an authorization code."%string EmptyString
          else
            r <- OidcAuth.Exchange cfg known (q_code q) (Nonce sv) ;;
            let '(known, id) := r in
            match id with
            | Err e =>
                auditIP sink "" "auth.oidc_failed" "" (Error e) ip ;;;
                Ret (known, Some (LoginForm (refused e) ""))
            | Ok id => out <- finish_sso auth_cfg sink id (Next sv) ip ua ;; Ret (known, Some out)
            end
      end
  end.
End sso.
End Sso.
