(* ===== verification/Config.v ===== *)
(** * The configuration (internal/config/config.go)

    [NetUrl] is url.Parse of the Go library as far as it decides which
    configurations are accepted; [Config] the file's contents, its defaults,
    [Validate] and the generation of keys.  YAML and the file system are
    outside; net.ParseCIDR, net.ParseIP and IP literals in brackets are
    parameters. *)

From S2P Require Import Prelude GoStrings Effects Models Schema Pki Sealing CaService K8s CsiProvider Directory.

(** ** net/url *)

Module NetUrl.
Open Scope string_scope.

(** strings.Cut for a separator of one byte *)
Fixpoint Cut (s : string) (c : ascii) : string * option string :=
  match s with
  | EmptyString => ("", None)
  | String d s' => if Ascii.eqb d c then ("", Some s') else let r := Cut s' c in (String d (fst r), snd r)
  end.
(** From the last [c] on: what is before it and after it. *)
Fixpoint cut_last (s : string) (c : ascii) : option (string * string) :=
  match s with
  | EmptyString => None
  | String d s' =>
      match cut_last s' c with
      | Some (a, b) => Some (String d a, b)
      | None => if Ascii.eqb d c then Some ("", s') else None
      end
  end.

Record URL := mkURL { Scheme : string; Opaque : string; Host : string; Path : string; RawQuery : string; Fragment : string }.

Definition is_letter (c : ascii) : bool := Str.is_lower c || Str.is_upper c.
Definition is_ctl (c : ascii) : bool := (Str.code c <? 32)%nat || (Str.code c =? 127)%nat.
Fixpoint exists_char (p : ascii -> bool) (s : string) : bool :=
  match s with EmptyString => false | String c s' => p c || exists_char p s' end.

(** The scheme and what follows its colon; [first] at the start of the text. *)
Fixpoint getScheme (first : bool) (s : string) : result string (option (string * string)) :=
  match s with
  | EmptyString => Ok None
  | String c s' =>
      if is_letter c || (negb first && (Str.is_digit c || Str.mem_char c "+-.")) then
        match getScheme false s' with
        | Ok (Some (scheme, rest)) => Ok (Some (String c scheme, rest))
        | r => r
        end
      else if Str.is_digit c || Str.mem_char c "+-." then Ok None
      else if Ascii.eqb c ":" then (if first then Err "missing protocol scheme" else Ok (Some ("", s')))
      else Ok None
  end.

Definition unreserved (c : ascii) : bool := is_letter c || Str.is_digit c || Str.mem_char c "-_.~".
Definition host_char (c : ascii) : bool :=
  unreserved c || Str.mem_char c ("!$&'()*+,;=:[]<>" +:+ String Str.dquote "")%go || (128 <=? Str.code c)%nat.

(** unescape, of a host or of another part *)
Fixpoint unescape (host : bool) (s : string) : result string string :=
  match s with
  | EmptyString => Ok ""
  | String c s1 =>
      if Ascii.eqb c "%" then
        let bad text := Err (Str.Sprintf "invalid URL escape %q" [Str.AStr text]) in
        match s1 with
        | String a (String b s2) =>
            match Pki.hex_value a, Pki.hex_value b with
            | Some x, Some y =>
                if host && (x <? 8)%Z && negb ((x =? 2) && Ascii.eqb b "5")%Z then bad (String c (String a (String b "")))
                else match unescape host s2 with Ok t => Ok (String (ascii_of_nat (Z.to_nat (x * 16 + y))) t) | r => r end
            | _, _ => bad (String c (String a (String b "")))
            end
        | _ => bad s
        end
      else if host && negb (host_char c) then Err (Str.Sprintf "invalid character %q in host name" [Str.AStr (String c "")])
      else match unescape host s1 with Ok t => Ok (String c t) | r => r end
  end.

Definition validOptionalPort (port : string) : bool :=
  match port with
  | EmptyString => true
  | String c s => Ascii.eqb c ":" && negb (exists_char (fun d => negb (Str.is_digit d)) s)
  end.

(** What is in brackets, a zone included: its unescaped form. *)
Class IpLiterals := { ip_literal : string -> result string string }.

Section parse.
Context `{IpLiterals}.

Definition parseHost (host : string) : result string string :=
  let invalid_port p := Err (Str.Sprintf "invalid port %q after host" [Str.AStr p]) in
  match cut_last host "[" with
  | Some (before, literal) =>
      if negb (str_is before "") then Err "invalid IP-literal"
      else match cut_last literal "]" with
      | None => Err "missing ']' in host"
      | Some (name, port) =>
          if negb (validOptionalPort port) then invalid_port port
          else try n := ip_literal name in try p := unescape true port in Ok ("[" +:+ n +:+ "]" +:+ p)%go
      end
  | None =>
      match Cut host ":" with
      | (_, Some port) => if validOptionalPort (String ":" port) then unescape true host else invalid_port (String ":" port)
      | (_, None) => unescape true host
      end
  end%go.

Definition validUserinfo (s : string) : bool :=
  negb (exists_char (fun c => negb (is_letter c || Str.is_digit c || Str.mem_char c "-._:~!$&'()*+,;=%@")) s).

(** The host of an authority; user information is checked and left out. *)
Definition parseAuthority (authority : string) : result string string :=
  match cut_last authority "@" with
  | None => parseHost authority
  | Some (userinfo, host) =>
      try h := parseHost host in
      if negb (validUserinfo userinfo) then Err "net/url: invalid userinfo"
      else match Cut userinfo ":" with
      | (user, None) => try _ := unescape false user in Ok h
      | (user, Some password) => try _ := unescape false user in try _ := unescape false password in Ok h
      end
  end%go.

Definition is_some {A} (o : option A) : bool := match o with Some _ => true | None => false end.

(** The text without its fragment. *)
Definition parse (rawURL : string) : result string URL :=
  if exists_char is_ctl rawURL then Err "net/url: invalid control character in URL"
  else if str_is rawURL "*" then Ok (mkURL "" "" "" "*" "" "")
  else
    (try sr := getScheme true rawURL in
    let scheme := match sr with Some (s, _) => Str.ToLower s | None => "" end in
    let rest := match sr with Some (_, r) => r | None => rawURL end in
    let (rest, query) := (fst (Cut rest "?"), default "" (snd (Cut rest "?"))) in
    if negb (Str.HasPrefix rest "/") && negb (str_is scheme "") then Ok (mkURL scheme rest "" "" query "")
    else if negb (Str.HasPrefix rest "/") && Str.Contains (fst (Cut rest "/")) ":" then Err "first path segment in URL cannot contain colon"
    else if (negb (str_is scheme "") || negb (Str.HasPrefix rest "///")) && Str.HasPrefix rest "//" then
      let (authority, path) := Cut (drop_s 2 rest) "/" in
      try host := parseAuthority authority in
      try p := unescape false (match path with Some p => String "/" p | None => "" end) in
      Ok (mkURL scheme "" host p query "")
    else try p := unescape false rest in Ok (mkURL scheme "" "" p query ""))%go.

(** url.Parse *)
Definition Parse (rawURL : string) : result string URL :=
  let about e := Err (Str.Sprintf "parse %q: %s" [Str.AStr rawURL; Str.AStr e]) in
  let (u, frag) := Cut rawURL "#" in
  match parse u with
  | Err e => Err (Str.Sprintf "parse %q: %s" [Str.AStr u; Str.AStr e])
  | Ok url =>
      match frag with
      | None | Some EmptyString => Ok url
      | Some f =>
          match unescape false f with
          | Err e => about e
          | Ok f => Ok (mkURL (Scheme url) (Opaque url) (Host url) (Path url) (RawQuery url) f)
          end
      end
  end.
End parse.
End NetUrl.

(** ** The file *)

Module Config.
Open Scope string_scope.

Record DatabaseConfig := mkDatabase {
  Driver_ : string; db_Host : string; db_Port : Z; db_Name : string; db_User : string; db_Password : string; SSLMode : string }.
Record TLSConfig := mkTLSFiles { tls_Enabled : bool; CertFile : string; KeyFile : string }.
Record ServerConfig := mkServer {
  Listen : string; Port : Z; BaseURL : string; TLS : TLSConfig; TrustedProxies : list string }.
Record SecurityConfig := mkSecurity {
  MasterKey : string; SessionKey : string; SessionTTL : Z; SecureCookies : bool; APILoginTokenTTL : Z; APILoginTokenMaxDays : Z }.
Record AuthConfig := mkAuth {
  Mode : string; LocalAdmin_Username : string; LocalAdmin_PasswordHash : string; LDAP : LdapAuth.Config; OIDC : OidcAuth.Config }.
Record CAConfig := mkCA {
  DefaultCertDays : Z; DefaultCADays : Z; DefaultKeyType : string; CRLDays : Z; AllowUserRequest : bool;
  OCSPServers : list string; CRLDistPoints : list string }.
Record Config := mkConfig {
  cfg_Path : string; DataDir : string; DBPath : string; Database : DatabaseConfig; Server : ServerConfig;
  Security : SecurityConfig; Auth : AuthConfig; CA : CAConfig; CSI : Csi.CSIConfig }.

Definition with_path (c : Config) (path : string) : Config :=
  mkConfig path (DataDir c) (DBPath c) (Database c) (Server c) (Security c) (Auth c) (CA c) (CSI c).

Definition DBDriverSQLite : string := "sqlite".
Definition DBDriverPostgres : string := "postgres".
Definition AuthModeLocal : string := "local".
Definition AuthModeLDAP : string := "ldap".
Definition AuthModeBoth : string := "both".

Definition IsPostgres (d : DatabaseConfig) : bool := str_is (Driver_ d) DBDriverPostgres.
Definition DatabaseSummary (c : Config) : string :=
  if negb (IsPostgres (Database c)) then DBPath c
  else let d := Database c in
    Str.Sprintf "postgres://%s@%s:%d/%s?sslmode=%s"
      [Str.AStr (db_User d); Str.AStr (db_Host d); Str.AInt (db_Port d); Str.AStr (db_Name d); Str.AStr (SSLMode d)].
Definition Addr (c : Config) : string := Str.Sprintf "%s:%d" [Str.AStr (Listen (Server c)); Str.AInt (Port (Server c))].

(** *** Defaults *)

(** filepath.Join of a directory that is not empty and a name *)
Definition Join (dir name : string) : string := CsiProvider.Path.Clean (dir +:+ "/" +:+ name)%go.

Definition no_oidc : OidcAuth.Config := OidcAuth.mkConfig false "" "" "" "" [] false "" "" "" "" [] [].
Definition default_ldap : LdapAuth.Config :=
  LdapAuth.mkConfig false "" false false "" "" "" "" "(&(objectClass=person)(uid=%s))" "" "uid" "cn" "mail" "" "(&(objectClass=groupOfNames)(member=%s))" "cn"
    [] [] (10 * Second).
(** os.Geteuid and the home of user.Current, when there is one. *)
Definition DefaultDataDir (euid : Z) (home : option string) : string :=
  if (euid =? 0)%Z then "/var/lib/goca"
  else match home with Some h => if nonempty h then Join h ".goca" else ".goca" | None => ".goca" end.
(** [env] is GOCA_CONFIG. *)
Definition DefaultConfigPath (env : string) (euid : Z) (home : option string) : string :=
  if nonempty env then env else if (euid =? 0)%Z then "/etc/goca/config.yaml" else Join (DefaultDataDir euid home) "config.yaml".
Definition Default (dataDir : string) : Config :=
  mkConfig "" dataDir (Join dataDir "goca.db") (mkDatabase DBDriverSQLite "" 0 "" "" "" "")
    (mkServer "0.0.0.0" 8080 "http://localhost:8080" (mkTLSFiles false "" "") [])
    (mkSecurity "" "" (8 * Hour) false 0 0)
    (mkAuth AuthModeLocal "admin" "" default_ldap no_oidc)
    (mkCA 397 3650 "rsa-2048" 7 true [] [])
    (Csi.mkCSI false (K8sAuth.mkConfig "" "" false "" "" "")).

(** *** base_url and trusted_proxies *)

(** net.ParseCIDR and net.ParseIP. *)
Class Addresses := {
  IPNet : Type;
  ParseCIDR : string -> option IPNet;
  is_ip : string -> bool;
  is_ip4 : string -> bool }.

Section validate.
Context `{NetUrl.IpLiterals} `{Addresses} `{Ciphers}.

Definition NormalizeBaseURL (s : string) : result error string :=
  let trimmed := Str.TrimRight (Str.TrimSpace s) "/" in
  if str_is trimmed "" then Err (Errorf "must not be empty")
  else match NetUrl.Parse trimmed with
  | Err e => Err (Wrapf "is not a valid URL" (Driver e))
  | Ok u =>
      if str_is (NetUrl.Scheme u) "http" || str_is (NetUrl.Scheme u) "https" then
        if str_is (NetUrl.Host u) "" then Err (Errorf "is missing a host")
        else if nonempty (NetUrl.RawQuery u) || nonempty (NetUrl.Fragment u) then Err (Errorf "must not carry a query string or fragment")
        else Ok trimmed
      else if str_is (NetUrl.Scheme u) "" || nonempty (NetUrl.Opaque u) then
        Err (Errorf ("is missing a scheme; write it in full, e.g. " +:+ String Str.dquote ("https://" +:+ trimmed +:+ String Str.dquote ""))%go)
      else Err (Errorf (Str.Sprintf "has scheme %q; only http and https are supported" [Str.AStr (NetUrl.Scheme u)]))
  end.

Definition parseCIDROrIP (s : string) : option IPNet :=
  match ParseCIDR s with
  | Some n => Some n
  | None =>
      let trimmed := Str.TrimSpace s in
      if is_ip trimmed then ParseCIDR (trimmed +:+ (if is_ip4 trimmed then "/32" else "/128"))%go else None
  end.

(** *** Validate, section by section *)

Definition validate_database (c : Config) : result error Config :=
  let d := Database c in
  let with_db path d := mkConfig (cfg_Path c) (DataDir c) path d (Server c) (Security c) (Auth c) (CA c) (CSI c) in
  if str_is (Driver_ d) "" || str_is (Driver_ d) DBDriverSQLite then
    Ok (with_db (if str_is (DBPath c) "" then Join (DataDir c) "goca.db" else DBPath c)
          (mkDatabase DBDriverSQLite (db_Host d) (db_Port d) (db_Name d) (db_User d) (db_Password d) (SSLMode d)))
  else if str_is (Driver_ d) DBDriverPostgres then
    if str_is (db_Host d) "" then Err (Errorf "database.host is required when database.driver is postgres")
    else if str_is (db_Name d) "" then Err (Errorf "database.name is required when database.driver is postgres")
    else if str_is (db_User d) "" then Err (Errorf "database.user is required when database.driver is postgres")
    else Ok (with_db (DBPath c)
               (mkDatabase (Driver_ d) (db_Host d) (if (db_Port d =? 0)%Z then 5432 else db_Port d) (db_Name d) (db_User d) (db_Password d)
                  (if str_is (SSLMode d) "" then "require" else SSLMode d)))
  else Err (Errorf (Str.Sprintf "database.driver %q must be sqlite or postgres" [Str.AStr (Driver_ d)])).

Definition check_keys (s : SecurityConfig) : result error unit :=
  if str_is (MasterKey s) "" then Err (Errorf "security.master_key is missing; re-run `goca setup`")
  else match base64_Decode (MasterKey s) with
  | None => Err (Wrapf "security.master_key is not valid base64" (Driver "illegal base64 data"))
  | Some _ => if str_is (SessionKey s) "" then Err (Errorf "security.session_key is missing; re-run `goca setup`") else Ok tt
  end.

Fixpoint check_proxies (l : list string) : result error unit :=
  match l with
  | [] => Ok tt
  | p :: l' =>
      match parseCIDROrIP p with
      | None => Err (Errorf (Str.Sprintf "server.trusted_proxies entry %q is not a valid CIDR or IP: not a valid CIDR or IP" [Str.AStr p]))
      | Some _ => check_proxies l'
      end
  end.

Definition validate_server (s : ServerConfig) : result error ServerConfig :=
  let port := if (Port s =? 0)%Z then 8080%Z else Port s in
  (try base := (if str_is (BaseURL s) "" then Ok "" else
     match NormalizeBaseURL (BaseURL s) with
     | Err e => Err (Errorf (Str.Sprintf "server.base_url %q %v" [Str.AStr (BaseURL s); Str.AStr (Error e)]))
     | Ok b => Ok b
     end) in
   try _ := check_proxies (TrustedProxies s) in
   Ok (mkServer (Listen s) port base (TLS s) (TrustedProxies s)))%go.

Definition or_default (n default : Z) : Z := if (n =? 0)%Z then default else n.
Definition security_defaults (s : SecurityConfig) : SecurityConfig :=
  mkSecurity (MasterKey s) (SessionKey s) (or_default (SessionTTL s) (8 * Hour)) (SecureCookies s)
    (or_default (APILoginTokenTTL s) (30 * 24 * Hour)) (or_default (APILoginTokenMaxDays s) 90).

Definition known_mode (m : string) : bool := str_is m AuthModeLocal || str_is m AuthModeLDAP || str_is m AuthModeBoth.
Definition validate_auth (base : string) (a : AuthConfig) : result error AuthConfig :=
  (try mode := (if known_mode (Mode a) then Ok (Mode a)
     else if str_is (Mode a) "" then Ok AuthModeLocal
     else Err (Errorf (Str.Sprintf "auth.mode %q must be local, ldap or both" [Str.AStr (Mode a)]))) in
   if negb (str_is mode AuthModeLocal) && negb (LdapAuth.Enabled (LDAP a)) && negb (OidcAuth.Enabled (OIDC a))
   then Err (Errorf "auth.mode requires LDAP or OIDC, but neither is enabled")
   else
     let o := OIDC a in
     let redirect := if OidcAuth.Enabled o && str_is (OidcAuth.RedirectURL o) "" then Str.TrimRight base "/" +:+ "/auth/oidc/callback" else OidcAuth.RedirectURL o in
     Ok (mkAuth mode (LocalAdmin_Username a) (LocalAdmin_PasswordHash a) (LDAP a)
           (OidcAuth.mkConfig (OidcAuth.Enabled o) (OidcAuth.IssuerURL o) (OidcAuth.ClientID o) (OidcAuth.ClientSecret o) redirect
              (OidcAuth.Scopes o) (OidcAuth.InsecureSkipVerify o) (OidcAuth.ClaimUsername o) (OidcAuth.ClaimDisplayName o) (OidcAuth.ClaimEmail o)
              (OidcAuth.ClaimGroups o) (OidcAuth.AdminGroups o) (OidcAuth.AllowedGroups o))))%go.

Definition positive_or (n default : Z) : Z := if (n <=? 0)%Z then default else n.
Definition ca_defaults (c : CAConfig) : CAConfig :=
  mkCA (positive_or (DefaultCertDays c) 397) (positive_or (DefaultCADays c) 3650) (DefaultKeyType c) (positive_or (CRLDays c) 7)
    (AllowUserRequest c) (OCSPServers c) (CRLDistPoints c).

Definition Validate (c : Config) : result error Config :=
  if str_is (DataDir c) "" then Err (Errorf "data_dir is required")
  else
    (try c := validate_database c in
     try _ := check_keys (Security c) in
     try server := validate_server (Server c) in
     try auth := validate_auth (BaseURL server) (Auth c) in
     Ok (mkConfig (cfg_Path c) (DataDir c) (DBPath c) (Database c) server (security_defaults (Security c)) auth (ca_defaults (CA c)) (CSI c)))%go.

(** *** Keys *)

Definition randomKey (draw : nat) (n : nat) : option string := base64_Encode <$> rand_Read draw n.

(** The next two readings of the random source, from [draw]. *)
Definition GenerateSecrets (draw : nat) (s : SecurityConfig) : option SecurityConfig :=
  let with_keys m k := mkSecurity m k (SessionTTL s) (SecureCookies s) (APILoginTokenTTL s) (APILoginTokenMaxDays s) in
  m ← (if str_is (MasterKey s) "" then randomKey draw 32 else Some (MasterKey s));
  let draw := if str_is (MasterKey s) "" then S draw else draw in
  k ← (if str_is (SessionKey s) "" then randomKey draw 32 else Some (SessionKey s));
  Some (with_keys m k).
Definition MasterKeyBytes (s : SecurityConfig) : option string := base64_Decode (MasterKey s).
Definition SessionKeyBytes (s : SecurityConfig) : option string := base64_Decode (SessionKey s).

(** *** Which file is read *)

(** [home] is DefaultDataDir, [env] GOCA_CONFIG, [is_file] what os.Stat says. *)
Definition candidates (explicit env home : string) : list string :=
  List.filter nonempty [explicit; env] ++ [Join home "config.yaml"; "/etc/goca/config.yaml"].
Definition Discover (is_file : string -> bool) (explicit env home : string) : result error string :=
  match List.find is_file (candidates explicit env home) with
  | Some c => Ok c
  | None => if nonempty explicit then Err (Errorf ("config not found at " +:+ explicit)%go)
            else Err (Errorf "no goca config found; run `goca setup` first")
  end.
(** Load after the file was found and read: its YAML over the defaults. *)
Definition Load (is_file : string -> bool) (read : string -> result error string) (yaml : string -> Config -> result error Config)
    (explicit env home : string) : result error Config :=
  (try path := Discover is_file explicit env home in
   match read path with
   | Err e => Err (Wrapf "read config" e)
   | Ok b =>
       match yaml b (Default home) with
       | Err e => Err (Wrapf ("parse config " +:+ path) e)
       | Ok c => Validate (with_path c path)
       end
   end)%go.
End validate.

(** *** Writing it back *)

(** The files of the machine: permissions and text.  WriteFile of the Go
    library gives its permissions to a file it makes, and leaves those of a
    file that is there. *)
Record os_file := mkOsFile { Perm : Z; Text : string }.
Definition files : Type := gmap string os_file.
Definition WriteFile (fs : files) (path text : string) (perm : Z) : files :=
  <[path := mkOsFile (match fs !! path with Some f => Perm f | None => perm end) text]> fs.
(** filepath.Dir *)
Definition Dir (path : string) : string :=
  match NetUrl.cut_last path "/" with Some (dir, _) => CsiProvider.Path.Clean (dir +:+ "/")%go | None => "." end.

Definition header : string :=
  ("# goca configuration - generated by `goca setup`" +:+ CaService.newline +:+
   "# This file contains secrets; keep it mode 0600." +:+ CaService.newline)%go.

(** [mkdir] and [write] are the errors of MkdirAll and WriteFile. *)
Definition Save (mkdir write : string -> option error) (marshal : Config -> result error string) (fs : files) (c : Config) (path : string)
    : result error (files * Config) :=
  let path := if str_is path "" then cfg_Path c else path in
  if str_is path "" then Err (Errorf "no config path given")
  else match mkdir (Dir path) with
  | Some e => Err e
  | None =>
      (try b := marshal c in
       match write path with
       | Some e => Err e
       | None => Ok (WriteFile fs path (header +:+ b) 384, with_path c path)
       end)%go
  end.
End Config.
