(* ===== verification/ConfigYaml.v ===== *)
(** * The YAML of the configuration (internal/config/config.go)

    What the struct tags make of a configuration: the document [Save] writes and
    what [Load] takes from one, field by field - its key, whether it is left out
    when it is empty, and that a key the file does not have leaves the default.
    The syntax of YAML and of its scalars are parameters. *)

From S2P Require Import Prelude GoStrings Effects Models Schema Pki Sealing CaService K8s CsiProvider Directory Config.

Module ConfigYaml.
Import Config.
Open Scope string_scope.

(** The scalars gopkg.in/yaml.v3 writes for the kinds of Go, and what it makes
    of a scalar for a field of one of them. *)
Class Scalars := {
  scalar : Type;
  of_string : string -> scalar;
  of_bool : bool -> scalar;
  of_int : Z -> scalar;
  of_duration : Z -> scalar;
  to_string : scalar -> option string;
  to_bool : scalar -> option bool;
  to_int : scalar -> option Z;
  to_duration : scalar -> option Z }.

Inductive node `{Scalars} :=
| Null
| Scalar (s : scalar)
| Sequence (l : list node)
| Mapping (fields : list (string * node)).

(** The text of a document. *)
Class Documents `{Scalars} := {
  yaml_text : node -> result error string;
  yaml_node : string -> result error node;
  (** "cannot unmarshal ... into ...", for the field of that key. *)
  cannot_unmarshal : string -> error }.

Section yaml.
Context `{Documents}.

(** *** A struct: its fields, each with its key, and no value if left out *)

Definition emit (fields : list (string * option node)) : node :=
  Mapping (omap (fun kn => (fun n => (fst kn, n)) <$> snd kn) fields).
Definition field_of (fields : list (string * node)) (key : string) : option node :=
  snd <$> List.find (fun kn => str_is (fst kn) key) fields.
(** omitempty *)
Definition unless (empty : bool) (n : node) : option node := if empty then None else Some n.

Definition str (s : string) : node := Scalar (of_string s).
Definition bool_ (b : bool) : node := Scalar (of_bool b).
Definition int (z : Z) : node := Scalar (of_int z).
Definition duration (z : Z) : node := Scalar (of_duration z).
Definition strs (l : list string) : node := Sequence (map str l).
Definition empty_list {A} (l : list A) : bool := match l with [] => true | _ => false end.

(** What a node makes of a field that has a value: null leaves it alone, but
    for a list. *)
Definition into_scalar {A} (to : scalar -> option A) (old : A) (n : node) : option A :=
  match n with Null => Some old | Scalar s => to s | _ => None end.
Definition into_str := into_scalar to_string.
Definition into_bool := into_scalar to_bool.
Definition into_int := into_scalar to_int.
Definition into_duration := into_scalar to_duration.
Definition into_strs (old : list string) (n : node) : option (list string) :=
  match n with Null => Some [] | Sequence l => mapM (into_str "") l | _ => None end.

Definition field {A} (into : A -> node -> option A) (fields : list (string * node)) (key : string) (old : A) : result error A :=
  match field_of fields key with
  | None => Ok old
  | Some n => match into old n with Some a => Ok a | None => Err (cannot_unmarshal key) end
  end.
Definition into_struct {A} (unmarshal : A -> list (string * node) -> result error A) (fields : list (string * node)) (key : string) (old : A) : result error A :=
  match field_of fields key with
  | None | Some Null => Ok old
  | Some (Mapping fs) => unmarshal old fs
  | Some _ => Err (cannot_unmarshal key)
  end.

(** *** The sections *)

Definition database_fields (d : DatabaseConfig) : list (string * option node) :=
  [("driver", Some (str (Driver_ d)));
   ("host", unless (str_is (db_Host d) "") (str (db_Host d)));
   ("port", unless (db_Port d =? 0)%Z (int (db_Port d)));
   ("name", unless (str_is (db_Name d) "") (str (db_Name d)));
   ("user", unless (str_is (db_User d) "") (str (db_User d)));
   ("password", unless (str_is (db_Password d) "") (str (db_Password d)));
   ("sslmode", unless (str_is (SSLMode d) "") (str (SSLMode d)))].
Definition unmarshal_database (old : DatabaseConfig) (fs : list (string * node)) : result error DatabaseConfig :=
  (try driver := field into_str fs "driver" (Driver_ old) in
   try host := field into_str fs "host" (db_Host old) in
   try port := field into_int fs "port" (db_Port old) in
   try name := field into_str fs "name" (db_Name old) in
   try user := field into_str fs "user" (db_User old) in
   try password := field into_str fs "password" (db_Password old) in
   try sslmode := field into_str fs "sslmode" (SSLMode old) in
   Ok (mkDatabase driver host port name user password sslmode))%go.

Definition tls_fields (t : TLSConfig) : list (string * option node) :=
  [("enabled", Some (bool_ (tls_Enabled t))); ("cert_file", Some (str (CertFile t))); ("key_file", Some (str (KeyFile t)))].
Definition unmarshal_tls (old : TLSConfig) (fs : list (string * node)) : result error TLSConfig :=
  (try enabled := field into_bool fs "enabled" (tls_Enabled old) in
   try cert := field into_str fs "cert_file" (CertFile old) in
   try key := field into_str fs "key_file" (KeyFile old) in
   Ok (mkTLSFiles enabled cert key))%go.

Definition server_fields (s : ServerConfig) : list (string * option node) :=
  [("listen", Some (str (Listen s))); ("port", Some (int (Port s))); ("base_url", Some (str (BaseURL s)));
   ("tls", Some (emit (tls_fields (TLS s))));
   ("trusted_proxies", unless (empty_list (TrustedProxies s)) (strs (TrustedProxies s)))].
Definition unmarshal_server (old : ServerConfig) (fs : list (string * node)) : result error ServerConfig :=
  (try listen := field into_str fs "listen" (Listen old) in
   try port := field into_int fs "port" (Port old) in
   try base := field into_str fs "base_url" (BaseURL old) in
   try tls := into_struct unmarshal_tls fs "tls" (TLS old) in
   try proxies := field into_strs fs "trusted_proxies" (TrustedProxies old) in
   Ok (mkServer listen port base tls proxies))%go.

Definition security_fields (s : SecurityConfig) : list (string * option node) :=
  [("master_key", Some (str (MasterKey s))); ("session_key", Some (str (SessionKey s))); ("session_ttl", Some (duration (SessionTTL s)));
   ("secure_cookies", Some (bool_ (SecureCookies s)));
   ("api_login_token_ttl", unless (APILoginTokenTTL s =? 0)%Z (duration (APILoginTokenTTL s)));
   ("api_login_token_max_days", unless (APILoginTokenMaxDays s =? 0)%Z (int (APILoginTokenMaxDays s)))].
Definition unmarshal_security (old : SecurityConfig) (fs : list (string * node)) : result error SecurityConfig :=
  (try master := field into_str fs "master_key" (MasterKey old) in
   try session := field into_str fs "session_key" (SessionKey old) in
   try ttl := field into_duration fs "session_ttl" (SessionTTL old) in
   try secure := field into_bool fs "secure_cookies" (SecureCookies old) in
   try login_ttl := field into_duration fs "api_login_token_ttl" (APILoginTokenTTL old) in
   try max_days := field into_int fs "api_login_token_max_days" (APILoginTokenMaxDays old) in
   Ok (mkSecurity master session ttl secure login_ttl max_days))%go.

Definition ldap_fields (l : LdapAuth.Config) : list (string * option node) :=
  [("enabled", Some (bool_ (LdapAuth.Enabled l))); ("url", Some (str (LdapAuth.URL l))); ("start_tls", Some (bool_ (LdapAuth.StartTLS l)));
   ("insecure_skip_verify", Some (bool_ (LdapAuth.InsecureSkipVerify l))); ("ca_cert_file", Some (str (LdapAuth.CACertFile l)));
   ("bind_dn", Some (str (LdapAuth.BindDN l))); ("bind_password", Some (str (LdapAuth.bindPassword l)));
   ("base_dn", Some (str (LdapAuth.BaseDN l))); ("user_filter", Some (str (LdapAuth.UserFilter l)));
   ("user_dn_template", Some (str (LdapAuth.UserDNTemplate l)));
   ("attr_username", Some (str (LdapAuth.AttrUsername l))); ("attr_display_name", Some (str (LdapAuth.AttrDisplayName l)));
   ("attr_email", Some (str (LdapAuth.AttrEmail l)));
   ("group_base_dn", Some (str (LdapAuth.GroupBaseDN l))); ("group_filter", Some (str (LdapAuth.GroupFilter l)));
   ("attr_group", Some (str (LdapAuth.AttrGroup l)));
   ("admin_groups", Some (strs (LdapAuth.AdminGroups l))); ("allowed_groups", Some (strs (LdapAuth.AllowedGroups l)));
   ("timeout", Some (duration (LdapAuth.Timeout l)))].
Definition unmarshal_ldap (old : LdapAuth.Config) (fs : list (string * node)) : result error LdapAuth.Config :=
  (try enabled := field into_bool fs "enabled" (LdapAuth.Enabled old) in
   try url := field into_str fs "url" (LdapAuth.URL old) in
   try start_tls := field into_bool fs "start_tls" (LdapAuth.StartTLS old) in
   try insecure := field into_bool fs "insecure_skip_verify" (LdapAuth.InsecureSkipVerify old) in
   try ca := field into_str fs "ca_cert_file" (LdapAuth.CACertFile old) in
   try bind_dn := field into_str fs "bind_dn" (LdapAuth.BindDN old) in
   try bind_password := field into_str fs "bind_password" (LdapAuth.bindPassword old) in
   try base_dn := field into_str fs "base_dn" (LdapAuth.BaseDN old) in
   try user_filter := field into_str fs "user_filter" (LdapAuth.UserFilter old) in
   try template := field into_str fs "user_dn_template" (LdapAuth.UserDNTemplate old) in
   try attr_username := field into_str fs "attr_username" (LdapAuth.AttrUsername old) in
   try attr_display_name := field into_str fs "attr_display_name" (LdapAuth.AttrDisplayName old) in
   try attr_email := field into_str fs "attr_email" (LdapAuth.AttrEmail old) in
   try group_base_dn := field into_str fs "group_base_dn" (LdapAuth.GroupBaseDN old) in
   try group_filter := field into_str fs "group_filter" (LdapAuth.GroupFilter old) in
   try attr_group := field into_str fs "attr_group" (LdapAuth.AttrGroup old) in
   try admins := field into_strs fs "admin_groups" (LdapAuth.AdminGroups old) in
   try allowed := field into_strs fs "allowed_groups" (LdapAuth.AllowedGroups old) in
   try timeout := field into_duration fs "timeout" (LdapAuth.Timeout old) in
   Ok (LdapAuth.mkConfig enabled url start_tls insecure ca bind_dn bind_password base_dn user_filter template
         attr_username attr_display_name attr_email group_base_dn group_filter attr_group admins allowed timeout))%go.

Definition oidc_fields (o : OidcAuth.Config) : list (string * option node) :=
  [("enabled", Some (bool_ (OidcAuth.Enabled o))); ("issuer_url", Some (str (OidcAuth.IssuerURL o))); ("client_id", Some (str (OidcAuth.ClientID o)));
   ("client_secret", Some (str (OidcAuth.ClientSecret o))); ("redirect_url", Some (str (OidcAuth.RedirectURL o)));
   ("scopes", Some (strs (OidcAuth.Scopes o))); ("insecure_skip_verify", Some (bool_ (OidcAuth.InsecureSkipVerify o)));
   ("claim_username", unless (str_is (OidcAuth.ClaimUsername o) "") (str (OidcAuth.ClaimUsername o)));
   ("claim_display_name", unless (str_is (OidcAuth.ClaimDisplayName o) "") (str (OidcAuth.ClaimDisplayName o)));
   ("claim_email", unless (str_is (OidcAuth.ClaimEmail o) "") (str (OidcAuth.ClaimEmail o)));
   ("claim_groups", unless (str_is (OidcAuth.ClaimGroups o) "") (str (OidcAuth.ClaimGroups o)));
   ("admin_groups", Some (strs (OidcAuth.AdminGroups o))); ("allowed_groups", Some (strs (OidcAuth.AllowedGroups o)))].
Definition unmarshal_oidc (old : OidcAuth.Config) (fs : list (string * node)) : result error OidcAuth.Config :=
  (try enabled := field into_bool fs "enabled" (OidcAuth.Enabled old) in
   try issuer := field into_str fs "issuer_url" (OidcAuth.IssuerURL old) in
   try client_id := field into_str fs "client_id" (OidcAuth.ClientID old) in
   try client_secret := field into_str fs "client_secret" (OidcAuth.ClientSecret old) in
   try redirect := field into_str fs "redirect_url" (OidcAuth.RedirectURL old) in
   try scopes := field into_strs fs "scopes" (OidcAuth.Scopes old) in
   try insecure := field into_bool fs "insecure_skip_verify" (OidcAuth.InsecureSkipVerify old) in
   try claim_username := field into_str fs "claim_username" (OidcAuth.ClaimUsername old) in
   try claim_display_name := field into_str fs "claim_display_name" (OidcAuth.ClaimDisplayName old) in
   try claim_email := field into_str fs "claim_email" (OidcAuth.ClaimEmail old) in
   try claim_groups := field into_str fs "claim_groups" (OidcAuth.ClaimGroups old) in
   try admins := field into_strs fs "admin_groups" (OidcAuth.AdminGroups old) in
   try allowed := field into_strs fs "allowed_groups" (OidcAuth.AllowedGroups old) in
   Ok (OidcAuth.mkConfig enabled issuer client_id client_secret redirect scopes insecure
         claim_username claim_display_name claim_email claim_groups admins allowed))%go.

(** The local administrator, a struct of its own in the source. *)
Definition local_admin_fields (a : AuthConfig) : list (string * option node) :=
  [("username", Some (str (LocalAdmin_Username a))); ("password_hash", Some (str (LocalAdmin_PasswordHash a)))].
Definition unmarshal_local_admin (old : string * string) (fs : list (string * node)) : result error (string * string) :=
  (try username := field into_str fs "username" (fst old) in
   try hash := field into_str fs "password_hash" (snd old) in
   Ok (username, hash))%go.

Definition auth_fields (a : AuthConfig) : list (string * option node) :=
  [("mode", Some (str (Mode a))); ("local_admin", Some (emit (local_admin_fields a)));
   ("ldap", Some (emit (ldap_fields (LDAP a)))); ("oidc", Some (emit (oidc_fields (OIDC a))))].
Definition unmarshal_auth (old : AuthConfig) (fs : list (string * node)) : result error AuthConfig :=
  (try mode := field into_str fs "mode" (Mode old) in
   try admin := into_struct unmarshal_local_admin fs "local_admin" (LocalAdmin_Username old, LocalAdmin_PasswordHash old) in
   try ldap := into_struct unmarshal_ldap fs "ldap" (LDAP old) in
   try oidc := into_struct unmarshal_oidc fs "oidc" (OIDC old) in
   Ok (mkAuth mode (fst admin) (snd admin) ldap oidc))%go.

Definition ca_fields (c : CAConfig) : list (string * option node) :=
  [("default_cert_days", Some (int (DefaultCertDays c))); ("default_ca_days", Some (int (DefaultCADays c)));
   ("default_key_type", Some (str (DefaultKeyType c))); ("crl_days", Some (int (CRLDays c)));
   ("allow_user_request", Some (bool_ (AllowUserRequest c)));
   ("ocsp_servers", Some (strs (OCSPServers c))); ("crl_distribution_points", Some (strs (CRLDistPoints c)))].
Definition unmarshal_ca (old : CAConfig) (fs : list (string * node)) : result error CAConfig :=
  (try cert_days := field into_int fs "default_cert_days" (DefaultCertDays old) in
   try ca_days := field into_int fs "default_ca_days" (DefaultCADays old) in
   try key_type := field into_str fs "default_key_type" (DefaultKeyType old) in
   try crl_days := field into_int fs "crl_days" (CRLDays old) in
   try allow := field into_bool fs "allow_user_request" (AllowUserRequest old) in
   try ocsp := field into_strs fs "ocsp_servers" (OCSPServers old) in
   try crl := field into_strs fs "crl_distribution_points" (CRLDistPoints old) in
   Ok (mkCA cert_days ca_days key_type crl_days allow ocsp crl))%go.

Definition csi_fields (c : Csi.CSIConfig) : list (string * option node) :=
  let k := Csi.csi c in
  [("enabled", Some (bool_ (Csi.Enabled c)));
   ("audience", unless (str_is (K8sAuth.Audience k) "") (str (K8sAuth.Audience k)));
   ("issuer_url", unless (str_is (K8sAuth.IssuerURL k) "") (str (K8sAuth.IssuerURL k)));
   ("insecure_skip_verify", unless (negb (K8sAuth.InsecureSkipVerify k)) (bool_ (K8sAuth.InsecureSkipVerify k)));
   ("api_server_url", unless (str_is (K8sAuth.APIServerURL k) "") (str (K8sAuth.APIServerURL k)));
   ("ca_cert", unless (str_is (K8sAuth.CACertPEM k) "") (str (K8sAuth.CACertPEM k)));
   ("reviewer_token", unless (str_is (K8sAuth.ReviewerToken k) "") (str (K8sAuth.ReviewerToken k)))].
Definition unmarshal_csi (old : Csi.CSIConfig) (fs : list (string * node)) : result error Csi.CSIConfig :=
  let k := Csi.csi old in
  (try enabled := field into_bool fs "enabled" (Csi.Enabled old) in
   try audience := field into_str fs "audience" (K8sAuth.Audience k) in
   try issuer := field into_str fs "issuer_url" (K8sAuth.IssuerURL k) in
   try insecure := field into_bool fs "insecure_skip_verify" (K8sAuth.InsecureSkipVerify k) in
   try url := field into_str fs "api_server_url" (K8sAuth.APIServerURL k) in
   try ca := field into_str fs "ca_cert" (K8sAuth.CACertPEM k) in
   try token := field into_str fs "reviewer_token" (K8sAuth.ReviewerToken k) in
   Ok (Csi.mkCSI enabled (K8sAuth.mkConfig issuer audience insecure url ca token)))%go.

(** *** The whole file *)

(** [Path] is not written. *)
Definition config_fields (c : Config) : list (string * option node) :=
  [("data_dir", Some (str (DataDir c)));
   ("db_path", unless (str_is (DBPath c) "") (str (DBPath c)));
   ("database", Some (emit (database_fields (Database c))));
   ("server", Some (emit (server_fields (Server c))));
   ("security", Some (emit (security_fields (Security c))));
   ("auth", Some (emit (auth_fields (Auth c))));
   ("ca", Some (emit (ca_fields (CA c))));
   ("csi", Some (emit (csi_fields (CSI c))))].
Definition unmarshal_config (old : Config) (fs : list (string * node)) : result error Config :=
  (try dir := field into_str fs "data_dir" (DataDir old) in
   try path := field into_str fs "db_path" (DBPath old) in
   try database := into_struct unmarshal_database fs "database" (Database old) in
   try server := into_struct unmarshal_server fs "server" (Server old) in
   try security := into_struct unmarshal_security fs "security" (Security old) in
   try auth := into_struct unmarshal_auth fs "auth" (Auth old) in
   try ca := into_struct unmarshal_ca fs "ca" (CA old) in
   try csi := into_struct unmarshal_csi fs "csi" (CSI old) in
   Ok (mkConfig (cfg_Path old) dir path database server security auth ca csi))%go.

(** yaml.Marshal and yaml.Unmarshal of a configuration.  An empty document
    changes nothing. *)
Definition Marshal (c : Config) : result error string := yaml_text (emit (config_fields c)).
Definition Unmarshal (text : string) (old : Config) : result error Config :=
  (try n := yaml_node text in
   match n with Null => Ok old | Mapping fs => unmarshal_config old fs | _ => Err (cannot_unmarshal "") end)%go.
End yaml.
End ConfigYaml.
