(* ===== verification/ConfigYamlFacts.v ===== *)
(** * A configuration that is written reads back

    Field by field: what the struct tags leave out comes back as the default,
    and everything else as it was; and a YAML to try it with. *)

From S2P Require Import Prelude GoStrings Effects Models Schema Pki Sealing CaService K8s CsiProvider Directory Config ConfigYaml.

Module ConfigYamlFacts.
Import Config ConfigYaml.
Open Scope string_scope.

Section yaml.
Context `{Documents}.
(** The scalars that are written are read back, and so is a document, behind
    two lines of comments. *)
Record yaml_laws : Prop := {
  y_string s : to_string (of_string s) = Some s;
  y_bool b : to_bool (of_bool b) = Some b;
  y_int z : to_int (of_int z) = Some z;
  y_duration z : to_duration (of_duration z) = Some z;
  y_document n text : yaml_text n = Ok text -> yaml_node (header +:+ text)%go = Ok n }.
Hypothesis laws : yaml_laws.

Definition assoc (key : string) (l : list (string * option node)) : option (option node) :=
  snd <$> List.find (fun kn => str_is (fst kn) key) l.

Definition emitted (l : list (string * option node)) : list (string * node) := omap (fun kn => (fun n => (fst kn, n)) <$> snd kn) l.

Fixpoint distinct (keys : list string) : bool :=
  match keys with [] => true | k :: keys' => negb (existsb (fun k' => str_is k' k) keys') && distinct keys' end.

Lemma field_of_missing key l : existsb (fun k' => str_is k' key) (map fst l) = false -> field_of (emitted l) key = None.
Proof.
  unfold field_of, emitted. induction l as [| [k o] l IH]; [done |]. cbn [map existsb fst]. intros [Hk Hl]%orb_false_iff.
  destruct o as [n |]; cbn [omap list_omap fmap option_fmap option_map fst snd]; [| by apply IH]. cbn [List.find fst]. rewrite Hk. by apply IH.
Qed.
Lemma field_of_emitted key l : distinct (map fst l) = true -> field_of (emitted l) key = mjoin (assoc key l).
Proof.
  induction l as [| [k o] l IH]; [done |]. cbn [map distinct fst]. intros [Hk Hl]%andb_true_iff. unfold assoc. cbn [List.find fst].
  destruct (str_is k key) eqn:E.
  - apply str_is_eq in E as ->. destruct o as [n |].
    + unfold field_of, emitted. cbn -[str_is]. rewrite str_is_refl. reflexivity.
    + apply negb_true_iff in Hk. change (emitted ((key, None) :: l)) with (emitted l). rewrite field_of_missing by done. reflexivity.
  - destruct o as [n |]; unfold field_of, emitted; cbn -[str_is]; [rewrite E |]; by apply IH.
Qed.

Section fields.
Context (l : list (string * option node)) (unique : distinct (map fst l) = true).

Lemma field_kept {A} (into : A -> node -> option A) key old n v :
  assoc key l = Some (Some n) -> into old n = Some v -> field into (emitted l) key old = Ok v.
Proof. intros Ha Hv. unfold field. rewrite field_of_emitted by done. rewrite Ha. cbn. by rewrite Hv. Qed.
Lemma field_omitted {A} (into : A -> node -> option A) key old (empty : bool) n v :
  assoc key l = Some (unless empty n) -> into old n = Some v -> field into (emitted l) key old = Ok (if empty then old else v).
Proof. intros Ha Hv. unfold field. rewrite field_of_emitted by done. rewrite Ha. destruct empty; cbn; [done | by rewrite Hv]. Qed.
Lemma struct_kept {A} (unmarshal : A -> list (string * node) -> result error A) key old sub :
  assoc key l = Some (Some (emit sub)) -> into_struct unmarshal (emitted l) key old = unmarshal old (emitted sub).
Proof. intros Ha. unfold into_struct. rewrite field_of_emitted by done. by rewrite Ha. Qed.
End fields.

Lemma back_str old s : into_str old (str s) = Some s. Proof. apply (y_string laws). Qed.
Lemma back_bool old b : into_bool old (bool_ b) = Some b. Proof. apply (y_bool laws). Qed.
Lemma back_int old z : into_int old (int z) = Some z. Proof. apply (y_int laws). Qed.
Lemma back_duration old z : into_duration old (duration z) = Some z. Proof. apply (y_duration laws). Qed.
Lemma back_strs old l : into_strs old (strs l) = Some l.
Proof.
  unfold into_strs, strs. induction l as [| s l IH]; [done |]. cbn [map mapM]. cbn. unfold into_str, into_scalar, str in *. rewrite (y_string laws). cbn. by rewrite IH.
Qed.

(** One field after the other: each of them was written, or left out. *)
Ltac reread_field :=
  match goal with
  | |- context [field ?into (emitted ?l) ?key ?old] =>
      first [ erewrite (field_kept l eq_refl into key old) by first [reflexivity | apply back_str | apply back_bool | apply back_int | apply back_duration | apply back_strs]
            | erewrite (field_omitted l eq_refl into key old) by first [reflexivity | apply back_str | apply back_bool | apply back_int | apply back_duration | apply back_strs] ]
  end; cbn [result_bind].

Lemma reread_database old d :
  unmarshal_database old (emitted (database_fields d)) = Ok (mkDatabase (Driver_ d)
    (if str_is (db_Host d) "" then db_Host old else db_Host d) (if (db_Port d =? 0)%Z then db_Port old else db_Port d)
    (if str_is (db_Name d) "" then db_Name old else db_Name d) (if str_is (db_User d) "" then db_User old else db_User d)
    (if str_is (db_Password d) "" then db_Password old else db_Password d) (if str_is (SSLMode d) "" then SSLMode old else SSLMode d)).
Proof. unfold unmarshal_database. repeat reread_field. reflexivity. Qed.
Lemma reread_tls old t : unmarshal_tls old (emitted (tls_fields t)) = Ok t.
Proof. unfold unmarshal_tls. repeat reread_field. by destruct t. Qed.
Lemma reread_server old s :
  unmarshal_server old (emitted (server_fields s)) =
  Ok (mkServer (Listen s) (Port s) (BaseURL s) (TLS s) (if empty_list (TrustedProxies s) then TrustedProxies old else TrustedProxies s)).
Proof.
  unfold unmarshal_server. do 3 reread_field. rewrite (struct_kept (server_fields s) eq_refl unmarshal_tls "tls" (TLS old) (tls_fields (TLS s)) eq_refl).
  rewrite reread_tls. cbn [result_bind]. by reread_field.
Qed.
Lemma reread_security old s :
  unmarshal_security old (emitted (security_fields s)) = Ok (mkSecurity (MasterKey s) (SessionKey s) (SessionTTL s) (SecureCookies s)
    (if (APILoginTokenTTL s =? 0)%Z then APILoginTokenTTL old else APILoginTokenTTL s)
    (if (APILoginTokenMaxDays s =? 0)%Z then APILoginTokenMaxDays old else APILoginTokenMaxDays s)).
Proof. unfold unmarshal_security. repeat reread_field. reflexivity. Qed.
Lemma reread_ldap old l : unmarshal_ldap old (emitted (ldap_fields l)) = Ok l.
Proof. unfold unmarshal_ldap. repeat reread_field. by destruct l. Qed.
Lemma reread_oidc old o :
  unmarshal_oidc old (emitted (oidc_fields o)) = Ok (OidcAuth.mkConfig (OidcAuth.Enabled o) (OidcAuth.IssuerURL o) (OidcAuth.ClientID o)
    (OidcAuth.ClientSecret o) (OidcAuth.RedirectURL o) (OidcAuth.Scopes o) (OidcAuth.InsecureSkipVerify o)
    (if str_is (OidcAuth.ClaimUsername o) "" then OidcAuth.ClaimUsername old else OidcAuth.ClaimUsername o)
    (if str_is (OidcAuth.ClaimDisplayName o) "" then OidcAuth.ClaimDisplayName old else OidcAuth.ClaimDisplayName o)
    (if str_is (OidcAuth.ClaimEmail o) "" then OidcAuth.ClaimEmail old else OidcAuth.ClaimEmail o)
    (if str_is (OidcAuth.ClaimGroups o) "" then OidcAuth.ClaimGroups old else OidcAuth.ClaimGroups o)
    (OidcAuth.AdminGroups o) (OidcAuth.AllowedGroups o)).
Proof. unfold unmarshal_oidc. repeat reread_field. reflexivity. Qed.
Lemma reread_local_admin old a : unmarshal_local_admin old (emitted (local_admin_fields a)) = Ok (LocalAdmin_Username a, LocalAdmin_PasswordHash a).
Proof. unfold unmarshal_local_admin. repeat reread_field. reflexivity. Qed.
Lemma reread_ca old c : unmarshal_ca old (emitted (ca_fields c)) = Ok c.
Proof. unfold unmarshal_ca. repeat reread_field. by destruct c. Qed.

(** A field that is left out when it is what the default is anyway. *)
Lemma or_empty s : (if str_is s "" then "" else s) = s.
Proof. destruct (str_is s "") eqn:E; [by apply str_is_eq in E |]. done. Qed.
Lemma or_zero z : (if (z =? 0)%Z then 0%Z else z) = z.
Proof. by destruct (Z.eqb_spec z 0) as [-> |]. Qed.
Lemma or_no_list (l : list string) : (if empty_list l then [] else l) = l.
Proof. by destruct l. Qed.

Lemma reread_csi c : unmarshal_csi (CSI (Default "")) (emitted (csi_fields c)) = Ok c.
Proof.
  unfold unmarshal_csi. cbv zeta. repeat reread_field. cbn [Default CSI Csi.csi K8sAuth.Audience K8sAuth.IssuerURL K8sAuth.InsecureSkipVerify K8sAuth.APIServerURL K8sAuth.CACertPEM K8sAuth.ReviewerToken].
  rewrite !or_empty. by destruct c as [? [? ? [] ? ? ?]].
Qed.
Lemma reread_auth a : unmarshal_auth (Auth (Default "")) (emitted (auth_fields a)) = Ok a.
Proof.
  unfold unmarshal_auth. reread_field.
  rewrite (struct_kept (auth_fields a) eq_refl unmarshal_local_admin "local_admin" _ (local_admin_fields a) eq_refl), reread_local_admin. cbn [result_bind].
  rewrite (struct_kept (auth_fields a) eq_refl unmarshal_ldap "ldap" _ (ldap_fields (LDAP a)) eq_refl), reread_ldap. cbn [result_bind].
  rewrite (struct_kept (auth_fields a) eq_refl unmarshal_oidc "oidc" _ (oidc_fields (OIDC a)) eq_refl), reread_oidc. cbn [result_bind fst snd Default Auth OIDC no_oidc
    OidcAuth.ClaimUsername OidcAuth.ClaimDisplayName OidcAuth.ClaimEmail OidcAuth.ClaimGroups]. rewrite !or_empty. by destruct a as [? ? ? ? []].
Qed.

(** All of a file over the defaults: only the path of SQLite's file, which is
    left out with PostgreSQL, is the default's. *)
Definition reread (home : string) (c : Config) : Config :=
  mkConfig "" (DataDir c) (if str_is (DBPath c) "" then DBPath (Default home) else DBPath c)
    (Database c) (Server c) (Security c) (Auth c) (CA c) (CSI c).

Lemma Unmarshal_Marshal home c text : Marshal c = Ok text -> Unmarshal (header +:+ text)%go (Default home) = Ok (reread home c).
Proof.
  intros Hm. unfold Unmarshal. rewrite (y_document laws _ _ Hm). cbn [result_bind]. change (emit (config_fields c)) with (Mapping (emitted (config_fields c))). cbv iota beta.
  unfold unmarshal_config. do 2 reread_field. set (l := config_fields c). assert (distinct (map fst l) = true) as Hl by done.
  rewrite (struct_kept l Hl unmarshal_database "database" _ (database_fields (Database c)) eq_refl), reread_database. cbn [result_bind].
  rewrite (struct_kept l Hl unmarshal_server "server" _ (server_fields (Server c)) eq_refl), reread_server. cbn [result_bind].
  rewrite (struct_kept l Hl unmarshal_security "security" _ (security_fields (Security c)) eq_refl), reread_security. cbn [result_bind].
  rewrite (struct_kept l Hl unmarshal_auth "auth" _ (auth_fields (Auth c)) eq_refl). change (Auth (Default home)) with (Auth (Default "")). rewrite reread_auth. cbn [result_bind].
  rewrite (struct_kept l Hl unmarshal_ca "ca" _ (ca_fields (CA c)) eq_refl), reread_ca. cbn [result_bind].
  rewrite (struct_kept l Hl unmarshal_csi "csi" _ (csi_fields (CSI c)) eq_refl). change (CSI (Default home)) with (CSI (Default "")). rewrite reread_csi. cbn [result_bind].
  cbn [Default Database Server Security db_Host db_Port db_Name db_User db_Password SSLMode TrustedProxies APILoginTokenTTL APILoginTokenMaxDays cfg_Path].
  rewrite !or_empty, !or_zero, or_no_list. unfold reread. by destruct c as [? ? ? [] [] [] ? ? ?].
Qed.
End yaml.

(** ** A YAML to try it with: a document is written as a number *)

#[export] Instance sample_scalars : Scalars := {|
  scalar := string + (bool + (Z + Z));
  of_string := inl; of_bool b := inr (inl b); of_int z := inr (inr (inl z)); of_duration z := inr (inr (inr z));
  to_string s := match s with inl s => Some s | _ => None end;
  to_bool s := match s with inr (inl b) => Some b | _ => None end;
  to_int s := match s with inr (inr (inl z)) => Some z | _ => None end;
  to_duration s := match s with inr (inr (inr z)) => Some z | _ => None end |}.

Abbreviation leaf := (string + (bool + (Z + Z)) + string)%type.
Fixpoint tree_of (n : node) : gen_tree leaf :=
  match n with
  | Null => GenNode 0 []
  | Scalar s => GenLeaf (inl s)
  | Sequence l => GenNode 1 (map tree_of l)
  | Mapping fs => GenNode 2 (map (fun kn => GenNode 3 [GenLeaf (inr (fst kn)); tree_of (snd kn)]) fs)
  end.
Fixpoint node_of (t : gen_tree leaf) : node :=
  match t with
  | GenLeaf (inl s) => Scalar s
  | GenNode 1 ts => Sequence (map node_of ts)
  | GenNode 2 ts => Mapping (map (fun t => match t with GenNode _ [GenLeaf (inr k); t'] => (k, node_of t') | _ => ("", Null) end) ts)
  | _ => Null
  end.
Lemma node_of_tree : forall n, node_of (tree_of n) = n.
Proof.
  fix IH 1. intros [| s | l | fs]; cbn [tree_of node_of]; [done | done | |]; f_equal.
  - induction l as [| n l IHl]; [done |]. cbn [map]. by rewrite IH, IHl.
  - induction fs as [| [k n] fs IHfs]; [done |]. cbn [map fst snd]. by rewrite IH, IHfs.
Qed.

(** A positive number in binary. *)
Fixpoint digits (p : positive) : string :=
  match p with xH => "" | xO p => String "0" (digits p) | xI p => String "1" (digits p) end.
Fixpoint undigits (s : string) : positive :=
  match s with "" => xH | String c s => if Ascii.eqb c "0" then xO (undigits s) else xI (undigits s) end.
Lemma undigits_digits p : undigits (digits p) = p.
Proof. induction p as [p IH | p IH |]; cbn; [by rewrite IH .. | done]. Qed.

#[export] Instance sample_documents : Documents := {|
  yaml_text n := Ok (digits (encode (tree_of n)));
  yaml_node text :=
    match decode (undigits (drop_s (String.length header) text)) with Some t => Ok (node_of t) | None => Err (Driver "yaml") end;
  cannot_unmarshal key := Errorf ("yaml: cannot unmarshal " +:+ key)%go |}.

Lemma drop_header text : drop_s (String.length header) (header +:+ text)%go = text.
Proof. reflexivity. Qed.

Lemma sample_laws : yaml_laws.
Proof.
  split; [done .. |]. intros n text [= <-]. cbn [yaml_node sample_documents]. rewrite drop_header, undigits_digits, decode_encode. by rewrite node_of_tree.
Qed.
End ConfigYamlFacts.
