(* ===== verification/Api.v ===== *)
(** * The REST API
    (internal/web/api.go, api_lifecycle.go)

    Every handler behind apiAuth that works on authorities, certificates,
    tokens, users and the audit log, and the routes they are registered under
    with the role each demands.  A body is what its JSON decodes to, or the
    decoder's complaint; an optional one is absent when the request announces
    no length. *)

From S2P Require Import Prelude GoStrings Effects Models Schema Store Pki Sealing CaService CaLifecycle CaImport CaTools Downloads AcmeProtocol Auth Gate Directory.

Module Api.
Import Http.

Open Scope prog_scope.

(** ** Requests *)

(** What apiAuth leaves in the context, and the parts of the path. *)
Record Call := mkCall {
  currentUser : User.t; currentToken : option APIToken.t; client_ip : string; path_id : string; path_file : string }.
Definition caller (r : Call) : string := User.Username (currentUser r).
Definition is_admin (r : Call) : bool := IsAdmin (Some (currentUser r)).

Definition body (A : Type) : Type := result string A.
Definition optional_body (A : Type) : Type := option (body A).

(** A field of type [any]: a number as the int it converts to. *)
Inductive any := Absent | Number (n : Z) | Text (s : string) | Other.

Record StatusBody := mkStatus { b_Status : string }.
Record RevokeBody := mkRevoke { b_Reason : any }.
Record RevokeCABody := mkRevokeCA { bc_Reason : any; Cascade : bool }.
Record InspectBody := mkInspect { PEM : string }.
Record TokenBody := mkToken { t_Name : string; t_Role : string; t_Days : Z }.
Record UserBody := mkUser { u_Username : string; u_Password : string; u_DisplayName : string; u_Email : string; u_Role : string }.
Record PatchBody := mkPatch { p_Role : option string; p_Disabled : option bool; p_Password : option string }.
Record RenewExpiringBody := mkRenewExpiring { WithinDays : Z; x_SameKey : bool; x_RevokeOld : bool; x_Days : Z }.
Record BulkBody := mkBulkBody {
  bb_IDs : list Z; bb_Query : string; bb_CAID : Z; bb_Profile : string; bb_Status : string; bb_Reason : any }.

(** A handler answers, or returns the error that becomes its answer. *)
Definition API (A : Type) : Type := prog world (result reply A).
Definition or_fail {A} (f : error -> reply) (p : M A) : API A :=
  r <- p ;; Ret (match r with Ok a => Ok a | Err e => Err (f e) end).
Definition checked {A} (r : result reply A) : API A := Ret r.
Definition ok (status : Z) (b : json) : API reply := Ret (Ok (Json status b)).
Definition badRequest {A} (msg : string) : result reply A := Err (Failed 400 msg).
Definition answer (h : API reply) : prog world reply := r <- h ;; Ret (match r with Ok a => a | Err a => a end).

Definition decodeJSON {A} (b : body A) : result reply A :=
  match b with Ok a => Ok a | Err e => badRequest ("invalid JSON body: " +:+ e)%go end.
Definition optionally {A} (absent : A) (b : optional_body A) : result reply A :=
  match b with None => Ok absent | Some b => decodeJSON b end.

Definition atoiDefault (s : string) (def : Z) : Z :=
  if str_is s "" then def
  else match AcmeProtocol.ParseInt (Str.TrimSpace s) with Some n => n | None => def end.

Definition pathID (r : Call) : result reply Z :=
  match AcmeProtocol.ParseInt (path_id r) with
  | Some id => Ok id
  | None => badRequest (Str.Sprintf "%q is not a valid id" [Str.AStr (path_id r)])
  end.

(** ** Revocation reasons *)

Definition named_reason (s : string) : result reply Z :=
  match Pki.ParseReason s with Ok c => Ok c | Err e => Err (badRequestFrom e) end.

Definition reasonCode (v : any) (def : Z) : result reply Z :=
  match v with
  | Absent => Ok def
  | Number n => Ok n
  | Text s => if str_is (Str.TrimSpace s) "" then Ok def else named_reason s
  | Other => badRequest (Str.Sprintf "reason must be a number or a name such as %q" [Str.AStr "keyCompromise"])
  end.

(** The switch of apiCertRevoke. *)
Definition revoke_reason (v : any) : result reply Z :=
  match v with
  | Number n => Ok n
  | Text s => named_reason s
  | Absent | Other => Ok Pki.ReasonUnspecified
  end.

(** ** Inputs completed with the caller *)

Definition create_as (actor : string) (i : CaService.CreateCAInput) : CaService.CreateCAInput :=
  CaService.mkCreateCA (CaService.ci_Name i) (CaService.ci_Subject i) (CaService.ci_KeyType i) (CaService.ci_Days i)
    (CaService.ParentRef i) (CaService.ci_PathLen i) (CaService.ci_CRLDistPoints i) (CaService.ci_OCSPServers i)
    (CaService.PermittedDNS i) (CaService.MakeDefault i) actor.
Definition issue_as (actor : string) (admin : bool) (i : CaService.IssueInput) : CaService.IssueInput :=
  CaService.mkIssue (CaService.CARef i) (CaService.Mode i) (CaService.in_Subject i) (CaService.SANs i)
    (CaService.in_KeyType i) (CaService.in_Profile i) (CaService.Days i) (CaService.in_CSRPEM i) (CaService.KeyPEM i)
    (CaService.StoreKey i) (CaService.in_Note i) actor admin.
Definition renew_as (actor : string) (admin : bool) (i : CaLifecycle.RenewInput) : CaLifecycle.RenewInput :=
  CaLifecycle.mkRenew (CaLifecycle.rn_Days i) (CaLifecycle.SameKey i) (CaLifecycle.rn_CARef i)
    (CaLifecycle.rn_KeyType i) (CaLifecycle.RevokeOld i) (CaLifecycle.rn_StoreKey i) (CaLifecycle.rn_Note i) actor admin.
Definition no_renewal : CaLifecycle.RenewInput := CaLifecycle.mkRenew 0 false "" "" false None "" "" false.

Definition bulk_filter (b : BulkBody) : option Store.CertFilter :=
  if nonempty (bb_Query b) || (0 <? bb_CAID b)%Z || nonempty (bb_Profile b) || nonempty (bb_Status b)
  then Some (Store.mkFilter (bb_Query b) (bb_CAID b) (bb_Status b) (bb_Profile b) "" 0 1000 0 "" false)
  else None.

Definition days_ttl (days : Z) : Z := if (0 <? days)%Z then int64 (int64 (days * 24) * Hour) else 0.

Section handlers.
Context `{Std : Pki.Std} `{Ciphers} `{!CaTools.Pkcs12} `{Auth.Passwords} `{LdapAuth.Directory} `{RowOrder}.
Context (cfg : CaService.Config) (acfg : Auth.Config) (lcfg : LdapAuth.Config) (master : string).
Context (save_admin_hash : string -> M unit).
Context (sink : string -> string -> string -> string -> string -> prog world unit).
(** What a retirement may recurse. *)
Context (fuel : nat).

#[local] Notation auditIP := (CaService.AuditWithIP sink).

(** ** Lookups *)

Definition pathCA (r : Call) : API CA.t :=
  let ref := path_id r in
  if str_is ref "" then Ret (badRequest "a certificate authority id, slug or name is required")
  else
    let by_ref := or_fail api_failure (CaService.ResolveCA ref) in
    match AcmeProtocol.ParseInt ref with
    | Some id => c <- Store.GetCA id ;; match c with Ok c => Ret (Ok c) | Err _ => by_ref end
    | None => by_ref
    end.

Definition pathUser (r : Call) : API User.t :=
  let ref := path_id r in
  if str_is ref "" then Ret (badRequest "a user id or username is required")
  else
    let by_name := or_fail api_failure (Store.GetUserByName ref) in
    match AcmeProtocol.ParseInt ref with
    | Some id => u <- Store.GetUser id ;; match u with Ok u => Ret (Ok u) | Err _ => by_name end
    | None => by_name
    end.

(** Whose certificates a caller may touch. *)
Definition may_touch (u : User.t) (c : Certificate.t) : bool :=
  IsAdmin (Some u) || str_is (Certificate.RequestedBy c) "" || str_is (Certificate.RequestedBy c) (User.Username u).

Definition apiLookupCert (r : Call) : API Certificate.t :=
  c <-! or_fail (fun _ => Failed 404 (Str.Sprintf "no certificate with id or serial %q" [Str.AStr (path_id r)]))
          (CaService.FindCertificate (path_id r)) ;;
  Ret (if may_touch (currentUser r) c then Ok c else Err (Failed 403 "you can only access certificates you requested")).

(** ** Identity and figures *)

Definition apiMe (r : Call) : API reply :=
  let u := currentUser r in
  match currentToken r with
  | None => ok 200 (JMe u None (User.Role u) (User.Role u))
  | Some tok =>
      stored <- Store.GetUser (User.ID u) ;;
      ok 200 (JMe u (Some tok) (APIToken.Role tok) (match stored with Ok s => User.Role s | Err _ => User.Role u end))
  end.

Definition apiStats (r : Call) : API reply := st <-! or_fail api_failure Store.Stats ;; ok 200 (JStats st).

(** ** Authorities *)

Fixpoint ca_views (l : list CA.t) : prog world (list ca_view) :=
  match l with
  | [] => Ret []
  | c :: l' => v <- Downloads.newCAResponse c None ;; vs <- ca_views l' ;; Ret (v :: vs)
  end.

Definition apiCAList (r : Call) : API reply :=
  cas <-! or_fail api_failure Store.ListCAs ;; vs <- ca_views cas ;; ok 200 (JCAs vs).

Definition apiCAGet (r : Call) : API reply := c <-! pathCA r ;; v <- Downloads.described c ;; ok 200 (JCA v).

Definition apiCACreate (b : body CaService.CreateCAInput) (r : Call) : API reply :=
  in_ <-! checked (decodeJSON b) ;;
  c <-! or_fail badRequestFrom (CaService.CreateCA cfg master sink (create_as (caller r) in_)) ;;
  v <- Downloads.described c ;; ok 201 (JCA v).

Definition apiCADelete (r : Call) : API reply :=
  c <-! pathCA r ;; _ <-! or_fail api_failure (CaService.DeleteCA sink (CA.ID c) (caller r)) ;; ok 200 (JStatus "deleted").

Definition apiCASetDefault (r : Call) : API reply :=
  c <-! pathCA r ;; _ <-! or_fail api_failure (CaService.SetDefaultCA sink (CA.ID c) (caller r)) ;; ok 200 (JStatus "default").

Definition apiCASetStatus (b : body StatusBody) (r : Call) : API reply :=
  c <-! pathCA r ;;
  b <-! checked (decodeJSON b) ;;
  _ <-! or_fail badRequestFrom (CaService.SetCAStatus sink (CA.ID c) (b_Status b) (caller r)) ;;
  ok 200 (JStatus (b_Status b)).

Definition apiCAGenerateCRL (r : Call) : API reply :=
  c <-! pathCA r ;;
  crl <-! or_fail api_failure (CaService.GenerateCRL cfg master sink (CA.ID c) (caller r)) ;;
  ok 200 (JCRL (snd crl)).

Definition apiCADownload (r : Call) : API reply :=
  c <-! pathCA r ;;
  c <-! or_fail api_failure (Store.GetCA (CA.ID c)) ;;
  let file := path_file r in
  if Downloads.is_ca_key file && negb (is_admin r) then
    Ret (Err (Failed 403 "only administrators may download a CA private key"))
  else
    a <- Downloads.serveCADownload cfg master sink c file (is_admin r) (caller r) (client_ip r) ;;
    Ret (match a with
         | Some a => Ok a
         | None => Err (Failed 404 (Str.Sprintf "unknown file %q; try ca.crt, ca.pem, ca.der, ca.key, chain.pem, crl.pem, crl.crl or bundle.zip" [Str.AStr file]))
         end).

Definition apiCASubordinateCSR (b : body CaImport.SubordinateCSRInput) (r : Call) : API reply :=
  i <-! checked (decodeJSON b) ;;
  res <-! or_fail badRequestFrom
    (CaImport.CreateSubordinateCSR cfg master sink
       (CaImport.mkSubInput (CaImport.sci_Name i) (CaImport.sci_Subject i) (CaImport.sci_KeyType i) (CaImport.sci_ParentRef i) (caller r))) ;;
  ok 201 (JRequested res).

Definition imported (status : Z) (c : CA.t) : API reply :=
  v <- Downloads.described c ;; complete <- CaImport.ChainComplete c ;; ok status (JImported v complete).

Definition apiCAImportSigned (b : body CaImport.CompleteSubordinateInput) (r : Call) : API reply :=
  i <-! checked (decodeJSON b) ;;
  let ref := if str_is (CaImport.cs_CARef i) "" then path_id r else CaImport.cs_CARef i in
  c <-! or_fail badRequestFrom
    (CaImport.CompleteSubordinate master sink
       (CaImport.mkComplete ref (CaImport.cs_CertPEM i) (CaImport.cs_ChainPEM i) (CaImport.cs_MakeDefault i) (caller r))) ;;
  imported 200 c.

Definition apiCAImport (b : body CaImport.ImportCAInput) (r : Call) : API reply :=
  i <-! checked (decodeJSON b) ;;
  c <-! or_fail badRequestFrom
    (CaImport.ImportCA master sink
       (CaImport.mkImport (CaImport.ii_Name i) (CaImport.ii_CertPEM i) (CaImport.ii_KeyPEM i) (CaImport.ii_ChainPEM i)
          (CaImport.ii_MakeDefault i) (caller r))) ;;
  imported 201 c.

Definition apiCAPending (r : Call) : API reply :=
  pending <-! or_fail api_failure Store.PendingCAs ;;
  vs <- ca_views pending ;;
  ok 200 (JPending (combine vs (map CA.CSRPEM pending))).

Definition apiCACSR (r : Call) : API reply :=
  c <-! pathCA r ;;
  c <-! or_fail api_failure (Store.GetCA (CA.ID c)) ;;
  if str_is (CA.CSRPEM c) "" then Ret (Err (Failed 404 "this authority has no stored signing request"))
  else ok 200 (JCSR (CA.CSRPEM c) (CA.Name c)).

Definition apiCARevoke (b : optional_body RevokeCABody) (r : Call) : API reply :=
  c <-! pathCA r ;;
  b <-! checked (optionally (mkRevokeCA Absent false) b) ;;
  code <-! checked (reasonCode (bc_Reason b) Pki.ReasonCessationOfOperation) ;;
  res <- CaLifecycle.RevokeCA sink fuel (CA.ID c) code (Cascade b) (caller r) ;;
  Ret (match res with
       | None => Ok NoAnswer
       | Some (Err e) => Err (badRequestFrom e)
       | Some (Ok res) => Ok (Json 200 (JRetired res))
       end).

(** ** Certificates *)

(** [q] is r.URL.Query().Get. *)
Definition api_limit (q : string -> string) : Z := Z.min (atoiDefault (q "limit"%string) 50) 500.
Definition list_filter (q : string -> string) (r : Call) : Store.CertFilter :=
  Store.mkFilter (Str.TrimSpace (q "q"%string)) (atoiDefault (q "ca"%string) 0) (q "status"%string) (q "profile"%string)
    (if is_admin r then q "requested_by"%string else caller r) (atoiDefault (q "expiring"%string) 0) (api_limit q)
    (atoiDefault (q "offset"%string) 0) (q "sort"%string) (negb (str_is (q "order"%string) "asc")).

Definition apiCertList (q : string -> string) (r : Call) : API reply :=
  let f := list_filter q r in
  found <-! or_fail api_failure (Store.SearchCertificates f) ;;
  ok 200 (JCerts (fst found) (snd found) (Store.f_Limit f) (Store.f_Offset f)).

Definition apiCertGet (r : Call) : API reply :=
  c <-! apiLookupCert r ;;
  info <- Downloads.describeOrNil (Certificate.CertPEM c) ;;
  ok 200 (JCert (mkCertView c info)).

Definition apiCertIssue (b : body CaService.IssueInput) (r : Call) : API reply :=
  in_ <-! checked (decodeJSON b) ;;
  res <-! or_fail badRequestFrom (CaService.Issue cfg master sink (issue_as (caller r) (is_admin r) in_)) ;;
  ok 201 (JIssued (CaService.res_Certificate res) (CaService.PrivateKeyPEM res) (CaService.res_CSRPEM res) (CaService.ChainPEM res)).

Definition apiCertRevoke (b : optional_body RevokeBody) (r : Call) : API reply :=
  c <-! apiLookupCert r ;;
  b <-! checked (optionally (mkRevoke Absent) b) ;;
  code <-! checked (revoke_reason (b_Reason b)) ;;
  _ <-! or_fail badRequestFrom (CaService.Revoke sink (Certificate.ID c) code (caller r)) ;;
  ok 200 (JRevoked code).

Definition apiCertDelete (r : Call) : API reply :=
  id <-! checked (pathID r) ;;
  c <-! or_fail api_failure (Store.GetCertificate id) ;;
  _ <-! or_fail api_failure (Store.DeleteCertificate id) ;;
  auditIP (caller r) "cert.delete" (Certificate.CommonName c) ("serial=" +:+ Certificate.SerialHex c)%go (client_ip r) ;;;
  ok 200 (JStatus "deleted").

(** [password] is bundlePassword of the request. *)
Definition apiCertDownload (password : string) (r : Call) : API reply :=
  c <-! apiLookupCert r ;;
  a <- Downloads.serveCertDownload master sink c (path_file r) password (caller r) (client_ip r) ;;
  Ret (match a with
       | Some a => Ok a
       | None => Err (Failed 404 (Str.Sprintf "unknown file %q; try cert.pem, cert.der, key.pem, chain.pem, fullchain.pem, request.csr, bundle.p12 or bundle.zip" [Str.AStr (path_file r)]))
       end).

Definition apiCertRenew (b : optional_body CaLifecycle.RenewInput) (r : Call) : API reply :=
  c <-! apiLookupCert r ;;
  in_ <-! checked (optionally no_renewal b) ;;
  res <-! or_fail badRequestFrom
    (CaLifecycle.Renew cfg master sink (Certificate.ID c) (renew_as (caller r) (is_admin r) in_)) ;;
  ok 201 (JRenewed (CaLifecycle.rr_Certificate res) (CaLifecycle.Previous res) (CaLifecycle.rr_PrivateKeyPEM res)
            (CaLifecycle.rr_ChainPEM res) (CaLifecycle.RevokedOld res)).

Definition apiCertRenewExpiring (b : optional_body RenewExpiringBody) (r : Call) : API reply :=
  b <-! checked (optionally (mkRenewExpiring 0 false false 0) b) ;;
  let within := if (WithinDays b <=? 0)%Z then 30%Z else WithinDays b in
  res <- CaLifecycle.RenewExpiring cfg master sink within
    (CaLifecycle.mkRenew (x_Days b) (x_SameKey b) "" "" (x_RevokeOld b) None "" (caller r) (is_admin r)) ;;
  ok 200 (JRotated (fst res) (snd res)).

Definition apiCertHistory (r : Call) : API reply :=
  c <-! apiLookupCert r ;;
  chain <-! or_fail api_failure (CaLifecycle.RenewalHistory c) ;;
  ok 200 (JHistory chain (Certificate.ID c)).

Definition apiCertHold (r : Call) : API reply :=
  c <-! apiLookupCert r ;;
  _ <-! or_fail badRequestFrom (CaLifecycle.Hold sink (Certificate.ID c) (caller r)) ;;
  ok 200 (JHeld (Certificate.SerialHex c) "on_hold").

Definition apiCertRelease (r : Call) : API reply :=
  c <-! apiLookupCert r ;;
  _ <-! or_fail badRequestFrom (CaLifecycle.Release sink (Certificate.ID c) (caller r)) ;;
  ok 200 (JHeld (Certificate.SerialHex c) "active").

Definition bulk_selection (b : BulkBody) (code : Z) (actor : string) : result reply CaLifecycle.BulkRevokeInput :=
  match bb_IDs b, bulk_filter b with
  | [], None => badRequest "supply ids, or at least one of query, ca_id, profile or status; an unfiltered bulk revoke is refused"
  | ids, f => Ok (CaLifecycle.mkBulk ids f code actor)
  end.

Definition apiCertBulkRevoke (b : body BulkBody) (r : Call) : API reply :=
  b <-! checked (decodeJSON b) ;;
  code <-! checked (reasonCode (bb_Reason b) Pki.ReasonUnspecified) ;;
  in_ <-! checked (bulk_selection b code (caller r)) ;;
  res <-! or_fail badRequestFrom (CaLifecycle.BulkRevoke sink in_) ;;
  ok 200 (JBulk res code).

(** ** Tools *)

Definition apiGenerateCSR (b : body CaTools.GenerateCSRInput) (r : Call) : API reply :=
  in_ <-! checked (decodeJSON b) ;;
  res <-! or_fail badRequestFrom (CaTools.GenerateCSR cfg in_) ;;
  ok 200 (JGenerated res).

Definition apiInspect (b : body InspectBody) (r : Call) : API reply :=
  b <-! checked (decodeJSON b) ;;
  if Str.Contains (PEM b) "CERTIFICATE REQUEST" then
    match Pki.ParseCSR (PEM b) with
    | Err e => Ret (Err (badRequestFrom e))
    | Ok csr => ok 200 (JInspectedCSR (PkiImport.DescribeCSR csr))
    end
  else match Pki.ParseCertPEM (PEM b) with
  | Err e => Ret (Err (badRequestFrom e))
  | Ok cert => info <- PkiImport.Describe cert ;; ok 200 (JInspectedCert info)
  end.

(** ** Tokens *)

(** Administrators see everybody's. *)
Definition token_scope (r : Call) : Z := if is_admin r then 0 else User.ID (currentUser r).

Definition apiTokenList (r : Call) : API reply :=
  l <-! or_fail api_failure (Store.ListAPITokens (token_scope r)) ;; ok 200 (JTokens l).

Definition apiTokenCreate (b : body TokenBody) (r : Call) : API reply :=
  b <-! checked (decodeJSON b) ;;
  if (t_Days b <? 0)%Z then Ret (badRequest "days must be zero (never expires) or positive")
  else
    res <-! or_fail badRequestFrom (Auth.IssueAPIToken (currentUser r) (t_Name b) (t_Role b) (days_ttl (t_Days b))) ;;
    let '(plaintext, rec) := res in
    auditIP (caller r) "token.create" (APIToken.Name rec) ("role=" +:+ APIToken.Role rec)%go (client_ip r) ;;;
    ok 201 (JToken plaintext rec).

(** Is the token one of the caller's own? *)
Definition owns_token (r : Call) (id : Z) : prog world bool :=
  if is_admin r then Ret true
  else
    mine <- Store.ListAPITokens (User.ID (currentUser r)) ;;
    Ret (match mine with Ok l => existsb (fun t => APIToken.ID t =? id)%Z l | Err _ => false end).

Definition apiTokenRevoke (r : Call) : API reply :=
  id <-! checked (pathID r) ;;
  owned <- owns_token r id ;;
  if negb owned then Ret (Err (Failed 403 "you can only revoke your own tokens"))
  else
    _ <-! or_fail api_failure (Auth.RevokeAPIToken id) ;;
    ok 200 (JStatus "revoked").

(** ** Users *)

Definition isLastAdmin (target : User.t) : prog world bool :=
  if negb (IsAdmin (Some target)) then Ret false
  else
    users <- Store.ListUsers ;;
    Ret (match users with
         | Err _ => true
         | Ok users => length (List.filter (fun u => IsAdmin (Some u) && negb (User.Disabled u)) users) <=? 1
         end)%nat.

Definition apiUserList (r : Call) : API reply :=
  l <-! or_fail api_failure Store.ListUsers ;; ok 200 (JUsers l).

Definition apiUserCreate (b : body UserBody) (r : Call) : API reply :=
  b <-! checked (decodeJSON b) ;;
  u <-! or_fail badRequestFrom (Auth.CreateLocalUser (u_Username b) (u_Password b) (u_DisplayName b) (u_Email b) (u_Role b)) ;;
  auditIP (caller r) "user.create" (User.Username u) ("role=" +:+ User.Role u)%go (client_ip r) ;;;
  ok 201 (JUser u).

Definition patched_role (role : string) : string := if str_is role RoleAdmin then RoleAdmin else RoleUser.

Definition patch_role (target : User.t) (role : option string) : API unit :=
  match role with
  | None => Ret (Ok tt)
  | Some role =>
      let role := patched_role role in
      last <- (if str_is role RoleUser then isLastAdmin target else Ret false) ;;
      if (last : bool) then Ret (badRequest "that is the last administrator; promote someone else first")
      else or_fail api_failure (Store.SetUserRole (User.ID target) role)
  end.

Definition patch_disabled (target : User.t) (disabled : option bool) : API unit :=
  match disabled with
  | None => Ret (Ok tt)
  | Some disabled =>
      last <- (if disabled then isLastAdmin target else Ret false) ;;
      if (last : bool) then Ret (badRequest "that is the last administrator; it cannot be disabled")
      else
        _ <-! or_fail api_failure (Store.SetUserDisabled (User.ID target) disabled) ;;
        if disabled then _ <- Store.DeleteUserSessions (User.ID target) ;; Ret (Ok tt) else Ret (Ok tt)
  end.

Definition patch_password (target : User.t) (password : option string) : API unit :=
  match password with
  | None => Ret (Ok tt)
  | Some p => or_fail badRequestFrom (Auth.SetPassword acfg save_admin_hash target p)
  end.

Definition apiUserPatch (b : body PatchBody) (r : Call) : API reply :=
  target <-! pathUser r ;;
  b <-! checked (decodeJSON b) ;;
  _ <-! patch_role target (p_Role b) ;;
  _ <-! patch_disabled target (p_Disabled b) ;;
  _ <-! patch_password target (p_Password b) ;;
  updated <-! or_fail api_failure (Store.GetUser (User.ID target)) ;;
  auditIP (caller r) "user.update" (User.Username updated) "" (client_ip r) ;;;
  ok 200 (JUser updated).

Definition apiUserDelete (r : Call) : API reply :=
  target <-! pathUser r ;;
  last <- isLastAdmin target ;;
  if (last : bool) then Ret (badRequest "that is the last administrator; it cannot be deleted")
  else
    _ <-! or_fail api_failure (Store.DeleteUser (User.ID target)) ;;
    auditIP (caller r) "user.delete" (User.Username target) "" (client_ip r) ;;;
    ok 200 (JStatus "deleted").

(** ** The audit log and the directory *)

Definition next_cursor (entries : list AuditEntry.t) (limit : Z) : string :=
  match last entries with
  | Some e => if (Z.of_nat (length entries) =? limit)%Z then Str.itoa (AuditEntry.ID e) else EmptyString
  | None => EmptyString
  end.

Definition apiAudit (q : string -> string) (r : Call) : API reply :=
  let limit := atoiDefault (q "limit"%string) 100 in
  entries <-! or_fail api_failure (Store.ListAuditPage (atoiDefault (q "cursor"%string) 0) limit) ;;
  ok 200 (JAudit entries (next_cursor entries limit)).

Definition apiLDAPTest (r : Call) : API reply :=
  if negb (LdapAuth.Enabled_ lcfg) then Ret (badRequest "LDAP is not enabled in the configuration")
  else
    _ <-! or_fail (fun e => Failed 502 ("LDAP test failed: " +:+ Error e)%go) (LdapAuth.TestConnection lcfg) ;;
    ok 200 (JStatus "ok").

(** ** Routes *)

Inductive route :=
| Me | Stats | CAList | CACreate (b : body CaService.CreateCAInput) | CAGet | CADelete | CASetDefault
| CASetStatus (b : body StatusBody) | CAGenerateCRL | CADownload
| CASubordinateCSR (b : body CaImport.SubordinateCSRInput) | CAImport_ (b : body CaImport.ImportCAInput)
| CAPending | CACSR | CAImportSigned (b : body CaImport.CompleteSubordinateInput) | CARevoke (b : optional_body RevokeCABody)
| CertList (q : string -> string) | CertIssue (b : body CaService.IssueInput) | CertGet
| CertRevoke (b : optional_body RevokeBody) | CertDownload (password : string) | CertDelete
| CertRenew (b : optional_body CaLifecycle.RenewInput) | CertHistory | CertHold | CertRelease
| CertRenewExpiring (b : optional_body RenewExpiringBody) | CertBulkRevoke (b : body BulkBody)
| GenerateCSR (b : body CaTools.GenerateCSRInput) | Inspect (b : body InspectBody)
| TokenList | TokenCreate (b : body TokenBody) | TokenRevoke
| UserList | UserCreate (b : body UserBody) | UserPatch (b : body PatchBody) | UserDelete
| Audit (q : string -> string) | LDAPTest.

Definition admin_only (rt : route) : bool :=
  match rt with
  | CACreate _ | CADelete | CASetDefault | CASetStatus _ | CAGenerateCRL | CASubordinateCSR _ | CAImport_ _ | CAPending
  | CAImportSigned _ | CARevoke _ | CertDelete | CertRenewExpiring _ | CertBulkRevoke _
  | UserList | UserCreate _ | UserPatch _ | UserDelete | Audit _ | LDAPTest => true
  | _ => false
  end.

Definition handler (rt : route) : Call -> API reply :=
  match rt with
  | Me => apiMe | Stats => apiStats | CAList => apiCAList | CACreate b => apiCACreate b | CAGet => apiCAGet
  | CADelete => apiCADelete | CASetDefault => apiCASetDefault | CASetStatus b => apiCASetStatus b
  | CAGenerateCRL => apiCAGenerateCRL | CADownload => apiCADownload | CASubordinateCSR b => apiCASubordinateCSR b
  | CAImport_ b => apiCAImport b | CAPending => apiCAPending | CACSR => apiCACSR
  | CAImportSigned b => apiCAImportSigned b | CARevoke b => apiCARevoke b | CertList q => apiCertList q
  | CertIssue b => apiCertIssue b | CertGet => apiCertGet | CertRevoke b => apiCertRevoke b
  | CertDownload p => apiCertDownload p | CertDelete => apiCertDelete | CertRenew b => apiCertRenew b
  | CertHistory => apiCertHistory | CertHold => apiCertHold | CertRelease => apiCertRelease
  | CertRenewExpiring b => apiCertRenewExpiring b | CertBulkRevoke b => apiCertBulkRevoke b
  | GenerateCSR b => apiGenerateCSR b | Inspect b => apiInspect b | TokenList => apiTokenList
  | TokenCreate b => apiTokenCreate b | TokenRevoke => apiTokenRevoke | UserList => apiUserList
  | UserCreate b => apiUserCreate b | UserPatch b => apiUserPatch b | UserDelete => apiUserDelete
  | Audit q => apiAudit q | LDAPTest => apiLDAPTest
  end.

(** A request to a route, with the parts of its path. *)
Definition serve (rt : route) (g : Gate.Request) (ip id file : string) : prog world reply :=
  v <- Gate.apiAuth (admin_only rt) g ;;
  match v with
  | Gate.Pass u tok => answer (handler rt (mkCall u tok ip id file))
  | Gate.ApiError status msg => Ret (Failed status msg)
  | _ => Ret NoAnswer
  end.
End handlers.
End Api.
