(* ===== verification/Pages.v ===== *)
(** * The pages of the portal
    (internal/web/pages.go, pages_lifecycle.go, download.go)

    Every handler behind requireUser and requireAdmin that works on authorities,
    certificates, tokens and users, and the routes they are registered under.
    A page is what its template is given; a message for the next page travels
    with the redirect. *)

From S2P Require Import Prelude GoStrings Effects Models Schema Store Pki Sealing CaService CaLifecycle CaImport CaTools Downloads AcmePolicy AcmeService AcmeProtocol AcmeAdmin Auth Gate Directory Api.

Module Pages.
Import Http Api.

Open Scope prog_scope.

Definition pageSize : Z := 25.

(** ** Requests *)

(** The parsed form: FormValue, r.Form, what one Read of an uploaded file gives,
    the Referer header, the query, and what is wrong with the form. *)
Record Form := mkForm {
  FormValue : string -> string; FormList : string -> list string; upload : string -> string;
  Referer : string; Query : string -> string; malformed : option error }.
Definition trimmed (f : Form) (k : string) : string := Str.TrimSpace (FormValue f k).
Definition ticked (f : Form) (k : string) : bool := str_is (FormValue f k) "1".
Definition uploadedFile (f : Form) (k : string) : string := Str.TrimSpace (upload f k).

(** The subject a form describes. *)
Definition form_subject (f : Form) : Pki.Subject :=
  Pki.mkSubject (trimmed f "common_name") (trimmed f "organization") (trimmed f "organizational_unit")
    (trimmed f "country") (trimmed f "province") (trimmed f "locality") "" "" "".

(** The referring path when it is local, else a fallback. *)
Definition redirectBack (referer fallback : string) : string :=
  if str_is referer "" then fallback
  else
    let path := match Str.Index referer "://" with
                | None => Some referer
                | Some i => let rest := drop_s (i + 3) referer in
                            match Str.Index rest "/" with None => None | Some j => Some (drop_s j rest) end
                end in
    match path with
    | None => fallback
    | Some p => if negb (Str.HasPrefix p "/") || Str.HasPrefix p "//" then fallback else p
    end.

(** url.QueryEscape *)
Definition unreserved (c : ascii) : bool := Str.is_upper c || Str.is_lower c || Str.is_digit c || Str.mem_char c "-_.~".
Fixpoint QueryEscape (s : string) : string :=
  match s with
  | EmptyString => EmptyString
  | String c s' =>
      if unreserved c then String c (QueryEscape s')
      else if Ascii.eqb c " " then String "+" (QueryEscape s')
      else ("%" +:+ Pki.hex_bytes (String c "") +:+ QueryEscape s')%go
  end.

(** The text of the error of strconv.ParseInt. *)
Definition parse_error (s : string) : string :=
  let digits := match s with String "-" d => d | String "+" d => d | _ => s end in
  let why := if nonempty digits && AcmeService.all_digits digits then "value out of range"%string else "invalid syntax"%string in
  Str.Sprintf "strconv.ParseInt: parsing %q: %s" [Str.AStr s; Str.AStr why].

Definition authority (id : Z) : string := Str.Sprintf "/cas/%d" [Str.AInt id].
Definition certificate (id : Z) : string := Str.Sprintf "/certificates/%d" [Str.AInt id].
Definition success (msg to : string) : reply := Redirect (Some ("success"%string, msg)) to.
Definition failure (msg to : string) : reply := Redirect (Some ("error"%string, msg)) to.
Definition database_error (e : error) : reply := ErrorPage 500 "Database error" (Error e).

(** A handler answers, or has answered already. *)
Definition page (a : reply) : API reply := Ret (Ok a).
Definition parsed (f : Form) : result reply unit :=
  match malformed f with None => Ok tt | Some e => Err (ErrorPage 400 "Malformed form" (Error e)) end.
(** [x, _ :=]: what a failure leaves. *)
Definition or_else {A} (d : A) (p : M A) : API A := r <- p ;; Ret (Ok (match r with Ok a => a | Err _ => d end)).

(** The flash message of a change, or of its failure. *)
Definition flashed {A} (p : M A) (done : A -> string) (to : string) : API reply :=
  r <- p ;; page (match r with Ok a => success (done a) to | Err e => failure (Error e) to end).

(** caIssuanceState, with the time its last test reads. *)
Definition caIssuanceState (c : CA.t) : prog world (bool * string) :=
  if CA_Pending c then Ret (false, "waiting for an externally signed certificate"%string)
  else if negb (CA_HasKey c) then Ret (false, "trust anchor — goca holds no private key for it"%string)
  else if negb (str_is (CA.Status c) StatusActive) then Ret (false, "issuance is " +:+ CA.Status c)%go
  else now <- time_Now ;;
       Ret (if CA_Expired now c then (false, "the CA certificate has expired"%string) else (true, EmptyString)).

Definition search (caID : Z) (status : string) (expiring limit : Z) (sort : string) (desc : bool) : Store.CertFilter :=
  Store.mkFilter "" caID status "" "" expiring limit 0 sort desc.

Section handlers.
Context `{Std : Pki.Std} `{Ciphers} `{!CaTools.Pkcs12} `{Auth.Passwords} `{LdapAuth.Directory} `{RowOrder}.
Context (cfg : CaService.Config) (acfg : Auth.Config) (lcfg : LdapAuth.Config) (master : string).
Context (save_admin_hash : string -> M unit).
Context (sink : string -> string -> string -> string -> string -> prog world unit).
(** What a retirement may recurse. *)
Context (fuel : nat).

#[local] Notation auditIP := (CaService.AuditWithIP sink).

(** ** Lookups *)

Definition page_id (r : Call) (title : string) : result reply Z :=
  match AcmeProtocol.ParseInt (path_id r) with
  | Some id => Ok id
  | None => Err (ErrorPage 400 title "That is not a valid id.")
  end.

Definition missing (title detail : string) (e : error) : reply :=
  if is_not_found e then ErrorPage 404 title detail else database_error e.

Definition lookupCA (r : Call) : API CA.t :=
  id <-! checked (page_id r "Bad authority id") ;;
  or_fail (missing "Authority not found" "No certificate authority with that id exists.") (Store.GetCA id).

Definition lookupCert (r : Call) : API Certificate.t :=
  id <-! checked (page_id r "Bad certificate id") ;;
  c <-! or_fail (missing "Certificate not found" "No certificate with that id exists.") (Store.GetCertificate id) ;;
  Ret (if may_touch (currentUser r) c then Ok c
       else Err (ErrorPage 403 "Not your certificate" "You can only view certificates you requested. Ask an administrator if you need this one.")).

Definition lookupUser (r : Call) : API User.t :=
  id <-! checked (page_id r "Bad user id") ;;
  or_fail (fun _ => ErrorPage 404 "User not found" "No user with that id exists.") (Store.GetUser id).

(** ** Dashboard *)

Definition handleDashboard (r : Call) : API reply :=
  stats <-! or_fail database_error Store.Stats ;;
  cas <-! or_else [] Store.ListCAs ;;
  recent <-! or_else ([], 0%Z) (Store.SearchCertificates (search 0 "" 0 10 "created_at" true)) ;;
  expiring <-! or_else ([], 0%Z) (Store.SearchCertificates (search 0 "" 30 10 "not_after" false)) ;;
  page (Rendered (PDashboard stats cas (fst recent) (fst expiring))).

(** ** Authorities *)

Fixpoint counts (cas : list CA.t) : API (list (Z * Z)) :=
  match cas with
  | [] => Ret (Ok [])
  | c :: cas' =>
      found <-! or_else ([], 0%Z) (Store.SearchCertificates (search (CA.ID c) "" 0 1 "" false)) ;;
      ns <-! counts cas' ;;
      Ret (Ok ((CA.ID c, snd found) :: ns))
  end.

Definition handleCAList (r : Call) : API reply :=
  cas <-! or_fail database_error Store.ListCAs ;;
  ns <-! counts cas ;;
  page (Rendered (PCAs cas ns (List.filter CA_Pending cas))).

Definition handleCANewForm (r : Call) : API reply :=
  cas <-! or_else [] Store.ListCAs ;; page (Rendered (PCANew cas "")).

Definition ca_input (f : Form) (actor : string) : CaService.CreateCAInput :=
  CaService.mkCreateCA (trimmed f "name") (form_subject f) (FormValue f "key_type")
    (atoiDefault (FormValue f "days") (CaService.DefaultCADays cfg))
    (if str_is (FormValue f "ca_kind") "intermediate" then FormValue f "parent" else EmptyString)
    (atoiDefault (FormValue f "path_len") 1) (AcmePages.splitCSV (FormValue f "crl_urls"))
    (AcmePages.splitCSV (FormValue f "ocsp_urls")) (AcmePages.splitCSV (FormValue f "permitted_dns"))
    (ticked f "make_default") actor.

Definition handleCACreate (f : Form) (r : Call) : API reply :=
  _ <-! checked (parsed f) ;;
  created <- CaService.CreateCA cfg master sink (ca_input f (caller r)) ;;
  match created with
  | Err e => cas <-! or_else [] Store.ListCAs ;; page (Rendered (PCANew cas (Error e)))
  | Ok c => page (success (Str.Sprintf "Authority %q created." [Str.AStr (CA.Name c)]) (authority (CA.ID c)))
  end.

(** What the page says of the authority's certificate, if it has one yet. *)
Definition ca_info (c : CA.t) : API (option PkiImport.CertInfo) :=
  if str_is (CA.CertPEM c) "" then Ret (Ok None)
  else match Pki.ParseCertPEM (CA.CertPEM c) with
  | Err e => Ret (Err (ErrorPage 500 "Corrupt certificate" (Error e)))
  | Ok cert => info <- PkiImport.Describe cert ;; Ret (Ok (Some info))
  end.

Definition parent_of (c : CA.t) : API (option CA.t) :=
  match CA.ParentID c with
  | None => Ret (Ok None)
  | Some pid => p <- Store.GetCA pid ;; Ret (Ok (match p with Ok p => Some p | Err _ => None end))
  end.

Definition handleCADetail (r : Call) : API reply :=
  c <-! lookupCA r ;;
  info <-! ca_info c ;;
  found <-! or_else ([], 0%Z) (Store.SearchCertificates (search (CA.ID c) "" 0 10 "created_at" true)) ;;
  revoked <-! or_else ([], 0%Z) (Store.SearchCertificates (search (CA.ID c) StatusRevoked 0 1 "" false)) ;;
  parent <-! parent_of c ;;
  state <- caIssuanceState c ;;
  complete <- (if str_is (CA.CertPEM c) "" then Ret false else CaImport.ChainComplete c) ;;
  page (Rendered (PCA c info (fst found) (snd found) (snd revoked) parent (fst state) (snd state) complete)).

Definition handleCASetDefault (r : Call) : API reply :=
  c <-! lookupCA r ;;
  flashed (CaService.SetDefaultCA sink (CA.ID c) (caller r))
    (fun _ => Str.Sprintf "%q is now the default issuing authority." [Str.AStr (CA.Name c)]) (authority (CA.ID c)).

Definition handleCASetStatus (f : Form) (r : Call) : API reply :=
  c <-! lookupCA r ;;
  let status := FormValue f "status" in
  flashed (CaService.SetCAStatus sink (CA.ID c) status (caller r))
    (fun _ => Str.Sprintf "%q is now %s." [Str.AStr (CA.Name c); Str.AStr status]) (authority (CA.ID c)).

Definition handleCADelete (r : Call) : API reply :=
  c <-! lookupCA r ;;
  deleted <- CaService.DeleteCA sink (CA.ID c) (caller r) ;;
  page (match deleted with
        | Err e => failure (Error e) (authority (CA.ID c))
        | Ok _ => success (Str.Sprintf "Authority %q deleted." [Str.AStr (CA.Name c)]) "/cas"
        end).

Definition handleCAGenerateCRL (r : Call) : API reply :=
  c <-! lookupCA r ;;
  crl <- CaService.GenerateCRL cfg master sink (CA.ID c) (caller r) ;;
  page (match crl with
        | Err e => failure ("CRL generation failed: " +:+ Error e)%go (authority (CA.ID c))
        | Ok _ => success "A fresh CRL has been generated." (authority (CA.ID c))
        end).

Definition unknown_file (what : string) (r : Call) : reply :=
  ErrorPage 404 "Unknown file" (Str.Sprintf ("%q is not something this " +:+ what +:+ " can produce.")%go [Str.AStr (path_file r)]).

Definition handleCADownload (r : Call) : API reply :=
  c <-! lookupCA r ;;
  a <- Downloads.serveCADownload cfg master sink c (path_file r) (is_admin r) (caller r) (client_ip r) ;;
  page (match a with Some a => a | None => unknown_file "authority" r end).

(** ** Authorities signed elsewhere *)

Definition handleCAImportForm (r : Call) : API reply :=
  pending <-! or_else [] Store.PendingCAs ;; page (Rendered (PCAImport pending "")).

Definition import_failed (msg : string) : API reply :=
  pending <-! or_else [] Store.PendingCAs ;; page (Rendered (PCAImport pending msg)).

(** An uploaded file wins over pasted text. *)
Definition pasted (f : Form) (file text : string) : string :=
  CaService.firstNonEmpty [uploadedFile f file; trimmed f text].

Definition import_request (f : Form) (r : Call) : API reply :=
  res <- CaImport.CreateSubordinateCSR cfg master sink
    (CaImport.mkSubInput (trimmed f "name") (form_subject f) (FormValue f "key_type") "" (caller r)) ;;
  match res with
  | Err e => import_failed (Error e)
  | Ok res =>
      page (success (Str.Sprintf "Request created for %q. Send the CSR below to your external authority, then import the signed certificate here."
                       [Str.AStr (CA.Name (CaImport.scr_CA res))]) (authority (CA.ID (CaImport.scr_CA res))))
  end.

Definition import_existing (f : Form) (with_key : bool) (r : Call) : API reply :=
  let key := pasted f "key_file" "key_pem" in
  if with_key && str_is key "" then
    import_failed (Str.Sprintf "a private key is required to import an issuing CA; choose %q to import the certificate alone" [Str.AStr "trust anchor"])
  else
    c <- CaImport.ImportCA master sink
      (CaImport.mkImport (trimmed f "name") (pasted f "cert_file" "cert_pem") (if with_key then key else EmptyString)
         (pasted f "chain_file" "chain_pem") (ticked f "make_default") (caller r)) ;;
    match c with
    | Err e => import_failed (Error e)
    | Ok c =>
        page (success (Str.Sprintf (if CA_HasKey c then "Imported %q. It can issue certificates now."
                                    else "Imported %q as a trust anchor. It completes chains but cannot issue.")
                         [Str.AStr (CA.Name c)]) (authority (CA.ID c)))
    end.

Definition handleCAImportSubmit (f : Form) (r : Call) : API reply :=
  _ <-! checked (parsed f) ;;
  let mode := CaService.firstNonEmpty [FormValue f "mode"; "request"%string] in
  if str_is mode "request" then import_request f r
  else if str_is mode "with-key" then import_existing f true r
  else if str_is mode "anchor" then import_existing f false r
  else import_failed (Str.Sprintf "unknown import mode %q" [Str.AStr mode]).

Definition handleCACompleteSigned (f : Form) (r : Call) : API reply :=
  c <-! lookupCA r ;;
  _ <-! checked (parsed f) ;;
  updated <- CaImport.CompleteSubordinate master sink
    (CaImport.mkComplete (Str.itoa (CA.ID c)) (pasted f "cert_file" "cert_pem") (pasted f "chain_file" "chain_pem")
       (ticked f "make_default") (caller r)) ;;
  match updated with
  | Err e => page (failure (Error e) (authority (CA.ID c)))
  | Ok c' =>
      complete <- CaImport.ChainComplete c' ;;
      page (success (Str.Sprintf "%q is active and can issue certificates." [Str.AStr (CA.Name c')] +:+
                     (if complete then "" else " Its issuer is not yet known to goca, so chains will be incomplete — import the external authority's certificate as a trust anchor."))%go
              (authority (CA.ID c')))
  end.

Definition retired_message (c : CA.t) (cascade : bool) (res : CaLifecycle.RevokeCAResult) : string :=
  (Str.Sprintf "%q retired: issuance disabled" [Str.AStr (CA.Name c)] +:+
   (if cascade then Str.Sprintf ", %d certificate(s) revoked" [Str.AInt (CaLifecycle.rc_Certificates res)] else "") +:+
   (if CaLifecycle.RevokedInParent res then Str.Sprintf ", added to the CRL of %s" [Str.AStr (CaLifecycle.ParentName res)] else "") +:+
   (match CaLifecycle.Warnings res with [] => "" | ws => ". " +:+ Str.Join ws " " end) +:+ ".")%go.

Definition handleCARevoke (f : Form) (r : Call) : API reply :=
  c <-! lookupCA r ;;
  let cascade := ticked f "cascade" in
  res <- CaLifecycle.RevokeCA sink fuel (CA.ID c) (atoiDefault (FormValue f "reason") Pki.ReasonCessationOfOperation) cascade (caller r) ;;
  page (match res with
        | None => NoAnswer
        | Some (Err e) => failure (Error e) (authority (CA.ID c))
        | Some (Ok res) => success (retired_message c cascade res) (authority (CA.ID c))
        end).

(** ** Certificates *)

Definition list_page (q : string -> string) : Z := Z.max 1 (atoiDefault (q "page"%string) 1).
(** The offset wraps around in an int. *)
Definition page_filter (q : string -> string) (r : Call) : Store.CertFilter :=
  let sort := if str_is (q "sort"%string) "" then "created_at"%string else q "sort"%string in
  Store.mkFilter (Str.TrimSpace (q "q"%string)) (atoiDefault (q "ca"%string) 0) (q "status"%string) ""
    (if is_admin r then EmptyString else caller r) (atoiDefault (q "expiring"%string) 0) pageSize
    (int64 ((list_page q - 1) * pageSize)) sort (str_is sort "created_at").

Definition handleCertList (f : Form) (r : Call) : API reply :=
  found <-! or_fail (fun e => ErrorPage 500 "Search failed" (Error e)) (Store.SearchCertificates (page_filter (Query f) r)) ;;
  cas <-! or_else [] Store.ListCAs ;;
  page (Rendered (PCerts (fst found) (snd found) cas (list_page (Query f)) ((snd found + pageSize - 1) / pageSize))).

Definition handleCertNewForm (f : Form) (r : Call) : API reply :=
  cas <-! or_else [] Store.ListCAs ;;
  let chosen := Query f "ca" in
  if nonempty chosen then page (Rendered (PCertNew cas chosen ""))
  else
    def <- CaService.ResolveCA "" ;;
    page (Rendered (PCertNew cas (match def with Ok c => Str.itoa (CA.ID c) | Err _ => EmptyString end) "")).

Definition cert_input (f : Form) (r : Call) : CaService.IssueInput :=
  CaService.mkIssue (FormValue f "ca") (CaService.firstNonEmpty [FormValue f "mode"; "generate"%string]) (form_subject f)
    (AcmePages.splitCSV (FormValue f "sans")) (FormValue f "key_type") (FormValue f "profile")
    (atoiDefault (FormValue f "days") (CaService.DefaultCertDays cfg)) (trimmed f "csr_pem") (trimmed f "key_pem")
    (Some (ticked f "store_key")) (trimmed f "note") (caller r) (is_admin r).

Definition days_of (c : Certificate.t) : Z :=
  let days := CaLifecycle.whole_days (Certificate.NotAfter c) (Certificate.NotBefore c) in
  if (days <=? 0)%Z then CaService.DefaultCertDays cfg else days.

Definition renderCertDetail (c : Certificate.t) (key_once : string) : API reply :=
  info <-! or_fail (fun e => ErrorPage 500 "Corrupt certificate" (Error e)) (CaTools.Describe c) ;;
  chain <-! or_else [] (CaLifecycle.RenewalHistory c) ;;
  page (Rendered (PCert c info (if (1 <? length chain)%nat then chain else []) (days_of c) key_once)).

(** A key that was not stored is shown this once. *)
Definition key_to_show (key : string) (c : Certificate.t) : bool := nonempty key && negb (Certificate.HasKey c).

Definition handleCertCreate (f : Form) (r : Call) : API reply :=
  _ <-! checked (parsed f) ;;
  res <- CaService.Issue cfg master sink (cert_input f r) ;;
  match res with
  | Err e => cas <-! or_else [] Store.ListCAs ;; page (Rendered (PCertNew cas (FormValue f "ca") (Error e)))
  | Ok res =>
      let c := CaService.res_Certificate res in
      if key_to_show (CaService.PrivateKeyPEM res) c then renderCertDetail c (CaService.PrivateKeyPEM res)
      else page (success (Str.Sprintf "Certificate issued for %s (serial %s)." [Str.AStr (Certificate.CommonName c); Str.AStr (Certificate.SerialHex c)])
                   (certificate (Certificate.ID c)))
  end.

Definition handleCertDetail (r : Call) : API reply := c <-! lookupCert r ;; renderCertDetail c "".

Definition handleCertRevoke (f : Form) (r : Call) : API reply :=
  c <-! lookupCert r ;;
  let reason := atoiDefault (FormValue f "reason") Pki.ReasonUnspecified in
  flashed (CaService.Revoke sink (Certificate.ID c) reason (caller r))
    (fun _ => Str.Sprintf "%s revoked (%s). Regenerate the CRL to publish it."
                [Str.AStr (Certificate.CommonName c); Str.AStr (Pki.ReasonName reason)]) (certificate (Certificate.ID c)).

Definition handleCertDelete (r : Call) : API reply :=
  c <-! lookupCert r ;;
  deleted <- Store.DeleteCertificate (Certificate.ID c) ;;
  match deleted with
  | Err e => page (failure (Error e) (certificate (Certificate.ID c)))
  | Ok _ =>
      auditIP (caller r) "cert.delete" (Certificate.CommonName c) ("serial=" +:+ Certificate.SerialHex c)%go (client_ip r) ;;;
      page (success "Certificate record deleted." "/certificates")
  end.

(** [password] is bundlePassword of the request. *)
Definition handleCertDownload (password : string) (r : Call) : API reply :=
  c <-! lookupCert r ;;
  a <- Downloads.serveCertDownload master sink c (path_file r) password (caller r) (client_ip r) ;;
  page (match a with Some a => a | None => unknown_file "certificate" r end).

Definition renewed_message (res : CaLifecycle.RenewResult) : string :=
  let c := CaLifecycle.rr_Certificate res in
  (Str.Sprintf "Renewed: new serial %s, valid until %s." [Str.AStr (Certificate.SerialHex c); Str.AStr (Pki.format_date (Certificate.NotAfter c))] +:+
   (if CaLifecycle.RevokedOld res then " The previous certificate was revoked as superseded."
    else " The previous certificate is still valid — revoke it once the new one is deployed."))%go.

Definition handleCertRenew (f : Form) (r : Call) : API reply :=
  c <-! lookupCert r ;;
  res <- CaLifecycle.Renew cfg master sink (Certificate.ID c)
    (CaLifecycle.mkRenew (atoiDefault (FormValue f "days") 0) (ticked f "same_key") "" "" (ticked f "revoke_old") None "" (caller r) (is_admin r)) ;;
  match res with
  | Err e => page (failure ("Renewal failed: " +:+ Error e)%go (certificate (Certificate.ID c)))
  | Ok res =>
      let c' := CaLifecycle.rr_Certificate res in
      if key_to_show (CaLifecycle.rr_PrivateKeyPEM res) c' then
        shown <- renderCertDetail c' (CaLifecycle.rr_PrivateKeyPEM res) ;;
        page (Flashed "success" (renewed_message res) (match shown with Ok a => a | Err a => a end))
      else page (success (renewed_message res) (certificate (Certificate.ID c')))
  end.

Definition handleCertHold (r : Call) : API reply :=
  c <-! lookupCert r ;;
  flashed (CaLifecycle.Hold sink (Certificate.ID c) (caller r))
    (fun _ => Str.Sprintf "%s is on hold. It appears on the CRL, and the hold can be lifted." [Str.AStr (Certificate.CommonName c)])
    (certificate (Certificate.ID c)).

Definition handleCertRelease (r : Call) : API reply :=
  c <-! lookupCert r ;;
  flashed (CaLifecycle.Release sink (Certificate.ID c) (caller r))
    (fun _ => Str.Sprintf "%s is active again. Regenerate the CRL to publish the change." [Str.AStr (Certificate.CommonName c)])
    (certificate (Certificate.ID c)).

(** *** Many at once *)

(** The selection, without what is no id and what is not the caller's. *)
Fixpoint selected_ids (selected : list string) (r : Call) : prog world (list Z) :=
  match selected with
  | [] => Ret []
  | raw :: rest =>
      let id := atoiDefault raw 0 in
      if (id =? 0)%Z then selected_ids rest r
      else if is_admin r then ids <- selected_ids rest r ;; Ret (id :: ids)
      else
        c <- Store.GetCertificate id ;;
        ids <- selected_ids rest r ;;
        Ret (match c with Ok c => if may_touch (currentUser r) c then id :: ids else ids | Err _ => ids end)
  end.

(** How many succeeded, and the errors of the others. *)
Fixpoint each {A} (f : Z -> M A) (ids : list Z) (n : Z) (errs : list error) : prog world (Z * list error) :=
  match ids with
  | [] => Ret (n, errs)
  | id :: ids' =>
      r <- f id ;;
      match r with Ok _ => each f ids' (n + 1) errs | Err e => each f ids' n (errs ++ [e]) end
  end.

Definition count {A} (l : list A) : Str.arg := Str.AInt (Z.of_nat (length l)).

Definition bulk_revoke (f : Form) (ids : list Z) (back : string) (r : Call) : API reply :=
  let reason := atoiDefault (FormValue f "reason") Pki.ReasonUnspecified in
  flashed (CaLifecycle.BulkRevoke sink (CaLifecycle.mkBulk ids None reason (caller r)))
    (fun res => Str.Sprintf "Revoked %d certificate(s) as %s." [count (CaLifecycle.Revoked res); Str.AStr (Pki.ReasonName reason)] +:+
                match CaLifecycle.Skipped res with [] => "" | s => Str.Sprintf " %d were already revoked." [count s] end)%go back.

Definition bulk_renew (ids : list Z) (back : string) (r : Call) : API reply :=
  done <- each (fun id => CaLifecycle.Renew cfg master sink id (renew_as (caller r) (is_admin r) no_renewal)) ids 0 [] ;;
  page (success (Str.Sprintf "Renewed %d certificate(s)." [Str.AInt (fst done)] +:+
                 match snd done with [] => "" | e :: _ => Str.Sprintf " %d failed: %s" [count (snd done); Str.AStr (Error e)] end)%go back).

Definition handleCertBulkAction (f : Form) (r : Call) : API reply :=
  _ <-! checked (parsed f) ;;
  let action := FormValue f "action" in
  let back := redirectBack (Referer f) "/certificates" in
  let tally fmt done := success (Str.Sprintf fmt [Str.AInt (fst done); count (A := error) (snd done)]) back in
  match FormList f "selected" with
  | [] => page (failure "Select at least one certificate first." back)
  | selected =>
      ids <- selected_ids selected r ;;
      match ids with
      | [] => page (failure "None of the selected certificates are yours to change." back)
      | _ =>
          if str_is action "revoke" then bulk_revoke f ids back r
          else if str_is action "hold" then
            done <- each (fun id => CaLifecycle.Hold sink id (caller r)) ids 0 [] ;;
            page (tally "%d certificate(s) placed on hold, %d skipped."%string done)
          else if str_is action "release" then
            done <- each (fun id => CaLifecycle.Release sink id (caller r)) ids 0 [] ;;
            page (tally "%d certificate(s) released, %d skipped."%string done)
          else if str_is action "renew" then bulk_renew ids back r
          else page (failure ("Unknown bulk action " +:+ action)%go back)
      end
  end.

(** ** Requests generated for elsewhere *)

Definition handleCSRToolForm (r : Call) : API reply := page (Rendered (PCSRTool "" None)).

Definition handleCSRToolSubmit (f : Form) (r : Call) : API reply :=
  _ <-! checked (parsed f) ;;
  res <- CaTools.GenerateCSR cfg
    (CaTools.mkGenerateCSR (form_subject f) (AcmePages.splitCSV (FormValue f "sans")) (FormValue f "key_type")) ;;
  page (match res with
        | Err e => Rendered (PCSRTool (Error e) None)
        | Ok res =>
            if ticked f "download" then
              let name := Downloads.safeFileName (trimmed f "common_name") in
              Downloads.writeZip (name +:+ "-csr.zip")%go
                [((name +:+ ".key")%go, CaTools.gr_PrivateKeyPEM res); ((name +:+ ".csr")%go, CaTools.gr_CSRPEM res)]
            else Rendered (PCSRTool "" (Some res))
        end).

(** ** Settings *)

Definition renderSettings (newToken : string) (r : Call) : API reply :=
  tokens <-! or_else [] (Store.ListAPITokens (token_scope r)) ;;
  users <-! (if is_admin r then or_else [] Store.ListUsers else Ret (Ok [])) ;;
  page (Rendered (PSettings tokens users newToken)).

Definition handleSettings (r : Call) : API reply := renderSettings "" r.

Definition settings : string := "/settings".

Definition handleChangePassword (f : Form) (r : Call) : API reply :=
  full <- Store.GetUserByName (caller r) ;;
  match full with
  | Err _ => page (failure "Your current password is incorrect." settings)
  | Ok full =>
      if negb (Auth.CheckPassword (User.PassHash full) (FormValue f "current_password"))
      then page (failure "Your current password is incorrect." settings)
      else
        set <- Auth.SetPassword acfg save_admin_hash full (FormValue f "new_password") ;;
        match set with
        | Err e => page (failure (Error e) settings)
        | Ok _ =>
            auditIP (caller r) "user.password_change" (caller r) "" (client_ip r) ;;;
            page (success "Password updated." settings)
        end
  end.

Definition handleTokenCreate (f : Form) (r : Call) : API reply :=
  let days := atoiDefault (FormValue f "days") 365 in
  res <- Auth.IssueAPIToken (currentUser r) (trimmed f "name") (FormValue f "role") (days_ttl days) ;;
  match res with
  | Err e => page (failure (Error e) settings)
  | Ok (plaintext, rec) =>
      auditIP (caller r) "token.create" (APIToken.Name rec) ("role=" +:+ APIToken.Role rec)%go (client_ip r) ;;;
      renderSettings plaintext r
  end.

Definition handleTokenRevoke (r : Call) : API reply :=
  match AcmeProtocol.ParseInt (path_id r) with
  | None => page (ErrorPage 400 "Bad token id" (parse_error (path_id r)))
  | Some id =>
      owned <- owns_token r id ;;
      if negb owned then page (ErrorPage 403 "Not your token" "You can only revoke tokens you created.")
      else
        revoked <- Auth.RevokeAPIToken id ;;
        match revoked with
        | Err e => page (failure (Error e) settings)
        | Ok _ =>
            auditIP (caller r) "token.revoke" (Str.itoa id) "" (client_ip r) ;;;
            page (success "Token revoked." settings)
        end
  end.

(** ** Users *)

Definition handleUserCreate (f : Form) (r : Call) : API reply :=
  u <- Auth.CreateLocalUser (trimmed f "username") (FormValue f "password") (trimmed f "display_name") (trimmed f "email") (FormValue f "role") ;;
  match u with
  | Err e => page (failure (Error e) settings)
  | Ok u =>
      auditIP (caller r) "user.create" (User.Username u) ("role=" +:+ User.Role u)%go (client_ip r) ;;;
      page (success (Str.Sprintf "Local user %q created." [Str.AStr (User.Username u)]) settings)
  end.

Definition handleUserRole (f : Form) (r : Call) : API reply :=
  target <-! lookupUser r ;;
  let role := patched_role (FormValue f "role") in
  last <- (if str_is role RoleUser then isLastAdmin target else Ret false) ;;
  if (last : bool) then page (failure "That is the last administrator; promote someone else first." settings)
  else
    set <- Store.SetUserRole (User.ID target) role ;;
    match set with
    | Err e => page (failure (Error e) settings)
    | Ok _ =>
        auditIP (caller r) "user.role" (User.Username target) role (client_ip r) ;;;
        page (success (Str.Sprintf "%s is now %s." [Str.AStr (User.Username target); Str.AStr role]) settings)
    end.

Definition handleUserDisable (f : Form) (r : Call) : API reply :=
  target <-! lookupUser r ;;
  let disabled := ticked f "disabled" in
  last <- (if disabled then isLastAdmin target else Ret false) ;;
  if (last : bool) then page (failure "That is the last administrator; it cannot be disabled." settings)
  else
    set <- Store.SetUserDisabled (User.ID target) disabled ;;
    match set with
    | Err e => page (failure (Error e) settings)
    | Ok _ =>
        _ <- (if disabled then Store.DeleteUserSessions (User.ID target) else Ret (Ok tt)) ;;
        auditIP (caller r) "user.disable" (User.Username target) (Str.Sprintf "disabled=%t" [Str.ABool disabled]) (client_ip r) ;;;
        page (success (Str.Sprintf "%s %s." [Str.AStr (User.Username target); Str.AStr (if disabled then "disabled" else "enabled")]) settings)
    end.

Definition handleUserDelete (r : Call) : API reply :=
  target <-! lookupUser r ;;
  last <- isLastAdmin target ;;
  if (last : bool) then page (failure "That is the last administrator; it cannot be deleted." settings)
  else
    deleted <- Store.DeleteUser (User.ID target) ;;
    match deleted with
    | Err e => page (failure (Error e) settings)
    | Ok _ =>
        auditIP (caller r) "user.delete" (User.Username target) "" (client_ip r) ;;;
        page (success (Str.Sprintf "User %q deleted." [Str.AStr (User.Username target)]) settings)
    end.

Definition handleLDAPTest (r : Call) : API reply :=
  if negb (LdapAuth.Enabled_ lcfg) then page (failure "LDAP is not enabled." settings)
  else
    t <- LdapAuth.TestConnection lcfg ;;
    page (match t with
          | Err e => failure ("LDAP test failed: " +:+ Error e)%go settings
          | Ok _ => success "LDAP connection, bind and search base all check out." settings
          end).

Definition handleAuditPage (r : Call) : API reply :=
  entries <-! or_fail database_error (Store.ListAudit 300) ;; page (Rendered (PAudit entries)).

(** ** Routes *)

Inductive route :=
| Dashboard | CAList | CANewForm | CACreate | CAImportForm | CAImportSubmit | CADetail | CACompleteSigned | CARevoke
| CASetDefault | CASetStatus | CADelete | CAGenerateCRL | CADownload
| CertList | CertNewForm | CertCreate | CertBulkAction | CertDetail | CertRevoke | CertRenew | CertHold | CertRelease
| CertDownload (password : string) | CertDelete | CSRToolForm | CSRToolSubmit
| Settings | ChangePassword | TokenCreate | TokenForm | TokenRevoke
| UserCreate | UserRole | UserDisable | UserDelete | LDAPTest | AuditPage.

Definition admin_only (rt : route) : bool :=
  match rt with
  | CANewForm | CACreate | CAImportForm | CAImportSubmit | CACompleteSigned | CARevoke | CASetDefault | CASetStatus
  | CADelete | CAGenerateCRL | CertDelete | UserCreate | UserRole | UserDisable | UserDelete | LDAPTest | AuditPage => true
  | _ => false
  end.

Definition handler (rt : route) (f : Form) : Call -> API reply :=
  match rt with
  | Dashboard => handleDashboard | CAList => handleCAList | CANewForm => handleCANewForm | CACreate => handleCACreate f
  | CAImportForm => handleCAImportForm | CAImportSubmit => handleCAImportSubmit f | CADetail => handleCADetail
  | CACompleteSigned => handleCACompleteSigned f | CARevoke => handleCARevoke f | CASetDefault => handleCASetDefault
  | CASetStatus => handleCASetStatus f | CADelete => handleCADelete | CAGenerateCRL => handleCAGenerateCRL
  | CADownload => handleCADownload | CertList => handleCertList f | CertNewForm => handleCertNewForm f
  | CertCreate => handleCertCreate f | CertBulkAction => handleCertBulkAction f | CertDetail => handleCertDetail
  | CertRevoke => handleCertRevoke f | CertRenew => handleCertRenew f | CertHold => handleCertHold
  | CertRelease => handleCertRelease | CertDownload p => handleCertDownload p | CertDelete => handleCertDelete
  | CSRToolForm => handleCSRToolForm | CSRToolSubmit => handleCSRToolSubmit f | Settings => handleSettings
  | ChangePassword => handleChangePassword f | TokenCreate => handleTokenCreate f
  | TokenForm => fun _ => page (Redirect None settings) | TokenRevoke => handleTokenRevoke
  | UserCreate => handleUserCreate f | UserRole => handleUserRole f | UserDisable => handleUserDisable f
  | UserDelete => handleUserDelete | LDAPTest => handleLDAPTest | AuditPage => handleAuditPage
  end.

(** requireUser and requireAdmin. *)
Definition serve (rt : route) (f : Form) (g : Gate.Request) (ip id file : string) : prog world reply :=
  v <- (if admin_only rt then Gate.requireAdmin g else Gate.requireUser g) ;;
  match v with
  | Gate.Pass u tok => answer (handler rt f (mkCall u tok ip id file))
  | Gate.ToLogin next => Ret (Redirect None ("/login?next=" +:+ QueryEscape next)%go)
  | Gate.FormExpired => Ret (failure "Your session token expired. Please try that again." (Referer f))
  | Gate.AdminPageRequired =>
      Ret (ErrorPage 403 "Administrator access required" "This action is restricted to administrators. Ask a CA administrator to grant your account the admin role.")
  | Gate.ApiError _ _ => Ret NoAnswer
  end.
End handlers.
End Pages.
