(* ===== verification/Secrets.v ===== *)
(** * The secret manager's pages and REST API
    (internal/web/api_secrets.go, pages_secrets.go)

    Labels are stored as a JSON object and edited as "key=value, key=value";
    [Labels] reads both.  SecretsApi and SecretsPages are the handlers over the
    service of Vault and their routes, all of them for administrators.  The
    order in which a Go map is written is an argument. *)

From S2P Require Import Prelude GoStrings Effects Models Schema Store Pki Sealing CaService SecretStore Vault CaTools Downloads AcmeProtocol Auth Gate Directory Api Pages.

(** ** Labels *)

Module Labels.
Open Scope string_scope.

(** *** The stored form: json.Unmarshal into a map of strings *)

Definition json_space (c : ascii) : bool := Str.mem_char c (String " " (String "009" (String "010" (String "013" "")))).
Definition skip_space (s : string) : string := Str.trim_left json_space s.

Definition byte (n : Z) : ascii := ascii_of_nat (Z.to_nat n).
Definition utf8 (n : Z) : string :=
  if (n <? 128)%Z then String (byte n) ""
  else if (n <? 2048)%Z then String (byte (192 + n / 64)) (String (byte (128 + n mod 64)) "")
  else if (n <? 65536)%Z then
    String (byte (224 + n / 4096)) (String (byte (128 + n / 64 mod 64)) (String (byte (128 + n mod 64)) ""))
  else String (byte (240 + n / 262144)) (String (byte (128 + n / 4096 mod 64))
         (String (byte (128 + n / 64 mod 64)) (String (byte (128 + n mod 64)) ""))).

Definition hex4 (a b c d : ascii) : option Z :=
  a ← Pki.hex_value a; b ← Pki.hex_value b; c ← Pki.hex_value c; d ← Pki.hex_value d;
  Some (a * 4096 + b * 256 + c * 16 + d)%Z.
Definition high (n : Z) : bool := ((55296 <=? n) && (n <? 56320))%Z.
Definition low (n : Z) : bool := ((56320 <=? n) && (n <? 57344))%Z.
Definition replacement : string := Str.replacement.

Definition simple_escape (c : ascii) : option ascii :=
  if Str.mem_char c (String Str.dquote (String Str.backslash "/")) then Some c
  else if Ascii.eqb c "b" then Some "008"%char
  else if Ascii.eqb c "f" then Some "012"%char
  else if Ascii.eqb c "n" then Some "010"%char
  else if Ascii.eqb c "r" then Some "013"%char
  else if Ascii.eqb c "t" then Some "009"%char
  else None.

Definition before (p : string) (r : option (string * string)) : option (string * string) :=
  match r with Some (s, rest) => Some ((p +:+ s)%go, rest) | None => None end.

(** A string literal after its opening quote, as its bytes and escapes come,
    and what follows it. *)
Fixpoint read_string (s : string) : option (string * string) :=
  match s with
  | EmptyString => None
  | String c s1 =>
      if Ascii.eqb c Str.dquote then Some ("", s1)
      else if (Str.code c <? 32)%nat then None
      else if negb (Ascii.eqb c Str.backslash) then before (String c "") (read_string s1)
      else match s1 with
        | String "u" (String a (String b (String c (String d s2)))) =>
            match hex4 a b c d with
            | None => None
            | Some n =>
                if low n then before replacement (read_string s2)
                else if negb (high n) then before (utf8 n) (read_string s2)
                else match s2 with
                  | String "\" (String "u" (String a' (String b' (String c' (String d' s3))))) =>
                      match hex4 a' b' c' d' with
                      | Some m =>
                          if low m then before (utf8 (65536 + (n - 55296) * 1024 + (m - 56320))) (read_string s3)
                          else before replacement (read_string s2)
                      | None => None
                      end
                  | _ => before replacement (read_string s2)
                  end
            end
        | String e s2 => match simple_escape e with Some c => before (String c "") (read_string s2) | None => None end
        | EmptyString => None
        end
  end.

(** With what is not UTF-8 in it replaced. *)
Definition literal (s : string) : option (string * string) :=
  match read_string s with Some (v, rest) => Some (Str.coerce v, rest) | None => None end.

(** A value of the map: a string, or null for the empty one. *)
Definition read_value (s : string) : option (string * string) :=
  match s with
  | String c s' => if Ascii.eqb c Str.dquote then literal s'
                   else match Str.CutPrefix s "null" with (rest, true) => Some ("", rest) | _ => None end
  | EmptyString => None
  end.

Definition expect (c : ascii) (s : string) : option string :=
  match skip_space s with String d s' => if Ascii.eqb d c then Some s' else None | EmptyString => None end.

(** The members of an object from a key on; each takes a part of the text. *)
Fixpoint read_members (fuel : nat) (s : string) (m : gmap string string) : option (gmap string string * string) :=
  match fuel with
  | 0 => None
  | S fuel' =>
      s ← expect Str.dquote s; kv ← literal s; s ← expect ":" (snd kv); v ← read_value (skip_space s);
      let m := <[fst kv := fst v]> m in
      match skip_space (snd v) with
      | String "," s => read_members fuel' s m
      | String "}" s => Some (m, s)
      | _ => None
      end
  end.

Definition Unmarshal (s : string) : option (gmap string string) :=
  let s := skip_space s in
  r ← (match s with
       | String "{" s' => match expect "}" s' with
                          | Some rest => Some (∅, rest)
                          | None => read_members (String.length s') s' ∅
                          end
       | _ => match Str.CutPrefix s "null" with (rest, true) => Some (∅, rest) | _ => None end
       end);
  if String.eqb (skip_space (snd r)) "" then Some (fst r) else None.

(** store.Secret.Labels *)
Definition Labels (s : Secret.t) : gmap string string :=
  if String.eqb (Str.TrimSpace (Secret.LabelsJSON s)) "" then ∅ else default ∅ (Unmarshal (Secret.LabelsJSON s)).

(** *** The edited form *)

(** strings.Cut *)
Fixpoint cut (c : ascii) (s : string) : option (string * string) :=
  match s with
  | EmptyString => None
  | String d s' => if Ascii.eqb d c then Some ("", s') else match cut c s' with Some (k, v) => Some (String d k, v) | None => None end
  end.

Definition add_pair (out : gmap string string) (pair : string) : gmap string string :=
  match cut "=" (Str.TrimSpace pair) with
  | Some (k, v) => if String.eqb (Str.TrimSpace k) "" then out else <[Str.TrimSpace k := Str.TrimSpace v]> out
  | None => out
  end.
Definition parseLabelsForm (s : string) : gmap string string :=
  let s := Str.TrimSpace s in
  if String.eqb s "" then ∅ else fold_left add_pair (Str.Split s ",") ∅.

(** The labels in the order the map was ranged over. *)
Definition labelsToForm (labels : list (string * string)) : string :=
  Str.Join (map (fun kv => (fst kv +:+ "=" +:+ snd kv)%go) labels) ", ".

(** store.Secret.RotationDue at a time *)
Definition RotationDue (now : Z) (s : Secret.t) : bool :=
  if (Secret.RotationDays s <=? 0)%Z then false
  else (int64 (Secret.RotationDays s * (24 * Hour)) <? now - Secret.UpdatedAt s)%Z.

(** The name a file of a secret is downloaded under. *)
Definition split_extension (file : string) : string * string :=
  match Downloads.last_dot file with Some i => (take_s i file, drop_s i file) | None => (file, "") end.
Definition downloadFileName (secretName file : string) : string :=
  let base := Downloads.safeFileName secretName in
  let (stem, ext) := split_extension file in
  if String.eqb stem "" || String.eqb stem "value" then (base +:+ ext)%go else (base +:+ "-" +:+ stem +:+ ext)%go.
End Labels.

(** ** The REST API *)

Module SecretsApi.
Import Http Api.

Open Scope prog_scope.

Record UpdateBody := mkUpdate {
  ub_Description : option string; ub_Labels : option (gmap string string); ub_RotationDays : option Z }.
Record DisableBody := mkDisable { db_Disabled : option bool }.
Record VersionBody := mkVersionBody { ValueBase64 : string; vb_ContentType : string }.
Record BindingBody := mkBinding {
  bi_K8sNamespace : string; bi_K8sServiceAccount : string; bi_K8sAuthMethod : string; bi_ExpiresInDays : Z }.

Definition create_as (actor : string) (i : Vault.CreateInput) : Vault.CreateInput :=
  Vault.mkCreate (Vault.in_Name i) (Vault.in_Type i) (Vault.in_Description i) (Vault.in_Labels i)
    (Vault.in_RotationDays i) (Vault.in_CertID i) actor.

Definition newSecretResponse (sec : Secret.t) : prog world secret_view :=
  now <- time_Now ;; Ret (mkSecretView sec (Labels.Labels sec) (Labels.RotationDue now sec)).
Fixpoint newSecretResponses (secs : list Secret.t) : prog world (list secret_view) :=
  match secs with
  | [] => Ret []
  | sec :: secs' => v <- newSecretResponse sec ;; vs <- newSecretResponses secs' ;; Ret (v :: vs)
  end.
Definition respond (status : Z) (sec : Secret.t) : API reply := v <- newSecretResponse sec ;; ok status (JSecret v).

Definition pathIntParam (value name : string) : result reply Z :=
  match AcmeProtocol.ParseInt value with
  | Some n => Ok n
  | None => badRequest (Str.Sprintf "%q is not a valid %s" [Str.AStr value; Str.AStr name])
  end.

Definition expiry (days : Z) : prog world (option Z) :=
  if (0 <? days)%Z then now <- time_Now ;; Ret (Some (AddDays days now)) else Ret None.

(** badRequest("%v", err) *)
Definition refused (e : error) : reply := Failed 400 (Error e).

Section handlers.
Context `{Std : Pki.Std} `{Ciphers} `{Auth.Passwords} `{RowOrder}.
Context (vault : Pqcrypt.Vault) (master : string) (has_ca : bool).

(** By number first, then by name. *)
Definition secretByPathID (r : Call) : API Secret.t :=
  let ref := path_id r in
  if str_is ref "" then Ret (badRequest "a secret id or name is required")
  else
    let by_name := or_fail api_failure (Vault.Get ref) in
    match AcmeProtocol.ParseInt ref with
    | Some id => s <- Vault.GetByID id ;; match s with Ok s => Ret (Ok s) | Err _ => by_name end
    | None => by_name
    end.

Definition apiSecretList (typ : string) (r : Call) : API reply :=
  secrets <-! or_fail api_failure (Vault.List_ typ) ;;
  vs <- newSecretResponses secrets ;;
  ok 200 (JSecrets vs).

Definition apiSecretCreate (b : body Vault.CreateInput) (r : Call) : API reply :=
  in_ <-! checked (decodeJSON b) ;;
  sec <-! or_fail refused (Vault.Create has_ca (create_as (caller r) in_)) ;;
  respond 201 sec.

Definition apiSecretGet (r : Call) : API reply := sec <-! secretByPathID r ;; respond 200 sec.

Definition apiSecretUpdate (b : body UpdateBody) (r : Call) : API reply :=
  sec <-! secretByPathID r ;;
  b <-! checked (decodeJSON b) ;;
  updated <-! or_fail refused (Vault.UpdateMeta (Secret.Name sec) (default (Secret.Description sec) (ub_Description b))
                (default (Labels.Labels sec) (ub_Labels b)) (default (Secret.RotationDays sec) (ub_RotationDays b)) (caller r)) ;;
  respond 200 updated.

Definition apiSecretDelete (r : Call) : API reply :=
  sec <-! secretByPathID r ;;
  _ <-! or_fail refused (Vault.Delete (Secret.Name sec) (caller r)) ;;
  ok 200 (JStatus "deleted").

Definition apiSecretDisable (b : optional_body DisableBody) (r : Call) : API reply :=
  sec <-! secretByPathID r ;;
  b <-! checked (optionally (mkDisable None) b) ;;
  let disabled := default true (db_Disabled b) in
  _ <-! or_fail refused (Vault.SetDisabled (Secret.Name sec) disabled (caller r)) ;;
  ok 200 (JDisabled disabled).

Definition apiSecretMaterialize (r : Call) : API reply :=
  sec <-! secretByPathID r ;;
  m <-! or_fail refused (Vault.Materialize vault master has_ca (Secret.Name sec)) ;;
  let '(_, files, version) := m in
  Vault.AuditWithIP (caller r) "secret.materialize" (Secret.Name sec) "" (client_ip r) ;;;
  v <- newSecretResponse sec ;;
  ok 200 (JMaterialized v version (map (fun f => (Vault.file_Name f, base64_Encode (Vault.Data f))) files)).

Definition apiSecretVersionList (r : Call) : API reply :=
  sec <-! secretByPathID r ;;
  vs <-! or_fail api_failure (Vault.Versions (Secret.Name sec)) ;;
  ok 200 (JVersions (snd vs)).

Definition apiSecretVersionPut (b : body VersionBody) (r : Call) : API reply :=
  sec <-! secretByPathID r ;;
  b <-! checked (decodeJSON b) ;;
  match base64_Decode (ValueBase64 b) with
  | None => Ret (badRequest "value_base64 is not valid base64: illegal base64 data")
  | Some value =>
      v <-! or_fail refused (Vault.Put vault (Secret.Name sec) value (vb_ContentType b) (caller r)) ;;
      ok 201 (JVersion v)
  end.

Definition apiSecretVersionGet (version : string) (r : Call) : API reply :=
  sec <-! secretByPathID r ;;
  version <-! checked (pathIntParam version "version") ;;
  got <-! or_fail refused (Vault.GetVersion vault (Secret.Name sec) version) ;;
  Vault.AuditWithIP (caller r) "secret.version_read" (Secret.Name sec) ("version=" +:+ Str.itoa version)%go (client_ip r) ;;;
  v <- newSecretResponse sec ;;
  ok 200 (JVersionValue v version (base64_Encode (snd got))).

Definition apiSecretVersionDestroy (version : string) (r : Call) : API reply :=
  sec <-! secretByPathID r ;;
  version <-! checked (pathIntParam version "version") ;;
  _ <-! or_fail refused (Vault.DestroyVersion (Secret.Name sec) version (caller r)) ;;
  ok 200 (JStatus "destroyed").

Definition apiSecretBindingList (r : Call) : API reply :=
  sec <-! secretByPathID r ;;
  bs <-! or_fail api_failure (Vault.Bindings (Secret.Name sec)) ;;
  ok 200 (JBindings bs).

Definition apiSecretBindingCreate (b : body BindingBody) (r : Call) : API reply :=
  sec <-! secretByPathID r ;;
  b <-! checked (decodeJSON b) ;;
  expires <- expiry (bi_ExpiresInDays b) ;;
  bound <-! or_fail refused (Vault.Bind (Secret.Name sec) (bi_K8sNamespace b) (bi_K8sServiceAccount b) (bi_K8sAuthMethod b)
              expires (caller r)) ;;
  ok 201 (JBinding bound).

Definition apiSecretBindingDelete (r : Call) : API reply :=
  id <-! checked (pathID r) ;;
  _ <-! or_fail api_failure (Vault.Unbind id (caller r)) ;;
  ok 200 (JStatus "deleted").

Inductive route :=
| List_ (typ : string) | Create (b : body Vault.CreateInput) | Get | Update (b : body UpdateBody) | Delete
| Disable (b : optional_body DisableBody) | Materialize | VersionList | VersionPut (b : body VersionBody)
| VersionGet (version : string) | VersionDestroy (version : string) | BindingList
| BindingCreate (b : body BindingBody) | BindingDelete.

Definition handler (rt : route) : Call -> API reply :=
  match rt with
  | List_ typ => apiSecretList typ | Create b => apiSecretCreate b | Get => apiSecretGet | Update b => apiSecretUpdate b
  | Delete => apiSecretDelete | Disable b => apiSecretDisable b | Materialize => apiSecretMaterialize
  | VersionList => apiSecretVersionList | VersionPut b => apiSecretVersionPut b | VersionGet v => apiSecretVersionGet v
  | VersionDestroy v => apiSecretVersionDestroy v | BindingList => apiSecretBindingList
  | BindingCreate b => apiSecretBindingCreate b | BindingDelete => apiSecretBindingDelete
  end.

(** apiAdmin *)
Definition serve (rt : route) (g : Gate.Request) (ip id : string) : prog world reply :=
  v <- Gate.apiAuth true g ;;
  match v with
  | Gate.Pass u tok => answer (handler rt (mkCall u tok ip id ""))
  | Gate.ApiError status msg => Ret (Failed status msg)
  | _ => Ret NoAnswer
  end.
End handlers.
End SecretsApi.

(** ** The pages *)

Module SecretsPages.
Import Http Api Pages.

Open Scope prog_scope.

Section handlers.
Context `{Std : Pki.Std} `{Ciphers} `{Auth.Passwords} `{RowOrder}.
Context (vault : Pqcrypt.Vault) (master : string) (has_ca csi_enabled : bool).
(** The order in which a map of labels is ranged over. *)
Context (ranged : gmap string string -> list (string * string)).

Definition secrets : string := "/secrets".
Definition secret (id : Z) : string := Str.Sprintf "/secrets/%d" [Str.AInt id].

Definition handleSecretsList (typ : string) (r : Call) : API reply :=
  l <-! or_fail database_error (Vault.List_ typ) ;;
  certs <-! or_else ([], 0%Z) (Store.SearchCertificates (search 0 "" 0 200 "created_at" true)) ;;
  page (Rendered (PSecrets l (fst certs) typ csi_enabled)).

Definition form_input (f : Form) (cert : option Z) (actor : string) : Vault.CreateInput :=
  Vault.mkCreate (trimmed f "name") (FormValue f "type") (trimmed f "description")
    (Labels.parseLabelsForm (FormValue f "labels")) (atoiDefault (FormValue f "rotation_days") 0) cert actor.

(** The certificate a form refers to, for certificate secrets. *)
Definition form_certificate (f : Form) : API (option Z) :=
  if str_is (FormValue f "type") SecretTypeCertificate then
    let ref := trimmed f "cert_id" in
    if str_is ref "" then Ret (Ok None)
    else
      c <- CaService.FindCertificate ref ;;
      Ret (match c with
           | Err e => Err (failure (Str.Sprintf "Resolve certificate %q: %v" [Str.AStr ref; Str.AStr (Error e)]) secrets)
           | Ok c => Ok (Some (Certificate.ID c))
           end)
  else Ret (Ok None).

Definition handleSecretCreate (f : Form) (r : Call) : API reply :=
  _ <-! checked (parsed f) ;;
  cert <-! form_certificate f ;;
  sec <- Vault.Create has_ca (form_input f cert (caller r)) ;;
  page (match sec with
        | Err e => failure (Error e) secrets
        | Ok sec => success (Str.Sprintf "Secret %q created." [Str.AStr (Secret.Name sec)]) (secret (Secret.ID sec))
        end).

Definition lookupSecret (r : Call) : API Secret.t :=
  id <-! checked (page_id r "Bad secret id") ;;
  or_fail (missing "Secret not found" "No secret with that id exists.") (Vault.GetByID id).

(** The name the newest version that is left would be downloaded under. *)
Definition download_name (sec : Secret.t) : API string :=
  v <- SecretStore.GetLatestSecretVersion (Secret.ID sec) ;;
  Ret (Ok (match v with
           | Ok v => let name := Str.TrimSpace (SecretVersion.ContentType v) in if str_is name "" then "value"%string else name
           | Err _ => EmptyString
           end)).

Definition handleSecretDetail (r : Call) : API reply :=
  sec <-! lookupSecret r ;;
  let labels := Labels.Labels sec in
  let shown bindings cert versions download :=
    page (Rendered (PSecret sec labels (Labels.labelsToForm (ranged labels)) bindings cert versions download)) in
  bindings <-! or_fail database_error (Vault.Bindings (Secret.Name sec)) ;;
  if str_is (Secret.Type_ sec) SecretTypeCertificate then
    match Secret.CertID sec with
    | None => shown bindings None [] EmptyString
    | Some id =>
        cert <-! or_else None (c <-! Store.GetCertificate id ;; Ret (Ok (Some c))) ;;
        shown bindings cert [] EmptyString
    end
  else
    vs <-! or_fail database_error (Vault.Versions (Secret.Name sec)) ;;
    download <-! download_name sec ;;
    shown bindings None (snd vs) download.

Definition handleSecretUpdateMeta (f : Form) (r : Call) : API reply :=
  sec <-! lookupSecret r ;;
  _ <-! checked (parsed f) ;;
  flashed (Vault.UpdateMeta (Secret.Name sec) (trimmed f "description") (Labels.parseLabelsForm (FormValue f "labels"))
             (atoiDefault (FormValue f "rotation_days") (Secret.RotationDays sec)) (caller r))
    (fun _ => "Updated."%string) (secret (Secret.ID sec)).

Definition handleSecretDisable (f : Form) (r : Call) : API reply :=
  sec <-! lookupSecret r ;;
  let disabled := negb (str_is (FormValue f "disabled") "0") in
  flashed (Vault.SetDisabled (Secret.Name sec) disabled (caller r))
    (fun _ => if disabled then "Secret disabled."%string else "Secret re-enabled."%string) (secret (Secret.ID sec)).

Definition handleSecretDelete (r : Call) : API reply :=
  sec <-! lookupSecret r ;;
  deleted <- Vault.Delete (Secret.Name sec) (caller r) ;;
  page (match deleted with
        | Err e => failure (Error e) (secret (Secret.ID sec))
        | Ok _ => success (Str.Sprintf "Secret %q deleted." [Str.AStr (Secret.Name sec)]) secrets
        end).

(** The multipart form's file: its content, or the error of reading it, and
    its name. *)
Definition uploaded : Type := option (result error string * string).

Definition handleSecretVersionPut (f : Form) (file : uploaded) (r : Call) : API reply :=
  sec <-! lookupSecret r ;;
  _ <-! checked (parsed f) ;;
  let back := secret (Secret.ID sec) in
  let put value contentType :=
    if str_is value "" then page (failure "Provide a value or choose a file to upload." back)
    else flashed (Vault.Put vault (Secret.Name sec) value contentType (caller r))
           (fun v => Str.Sprintf "Wrote version %d (%d bytes)." [Str.AInt (SecretVersion.Version v); Str.AInt (SecretVersion.SizeBytes v)])
           back in
  match file with
  | Some (Err e, _) => page (failure ("read uploaded file: " +:+ Error e)%go back)
  | Some (Ok buf, filename) => put buf filename
  | None => put (FormValue f "value") EmptyString
  end.

(** A number in the path other than the id. *)
Definition page_number (value title detail : string) : result reply Z :=
  match AcmeProtocol.ParseInt value with Some n => Ok n | None => Err (ErrorPage 400 title detail) end.

Definition handleSecretVersionDestroy (version : string) (r : Call) : API reply :=
  sec <-! lookupSecret r ;;
  version <-! checked (page_number version "Bad version" "That is not a valid version number.") ;;
  flashed (Vault.DestroyVersion (Secret.Name sec) version (caller r))
    (fun _ => Str.Sprintf "Version %d destroyed." [Str.AInt version]) (secret (Secret.ID sec)).

Definition handleSecretBindingCreate (f : Form) (r : Call) : API reply :=
  sec <-! lookupSecret r ;;
  _ <-! checked (parsed f) ;;
  expires <- SecretsApi.expiry (atoiDefault (FormValue f "expires_in_days") 0) ;;
  flashed (Vault.Bind (Secret.Name sec) (FormValue f "k8s_namespace") (FormValue f "k8s_service_account")
             (FormValue f "k8s_auth_method") expires (caller r))
    (fun _ => "Binding added."%string) (secret (Secret.ID sec)).

Definition handleSecretBindingDelete (binding : string) (r : Call) : API reply :=
  sec <-! lookupSecret r ;;
  id <-! checked (page_number binding "Bad binding id" "That is not a valid id.") ;;
  flashed (Vault.Unbind id (caller r)) (fun _ => "Binding revoked."%string) (secret (Secret.ID sec)).

Definition handleSecretDownload (r : Call) : API reply :=
  sec <-! lookupSecret r ;;
  m <-! or_fail (fun e => ErrorPage 400 "Cannot materialize secret" (Error e)) (Vault.Materialize vault master has_ca (Secret.Name sec)) ;;
  let '(_, files, _) := m in
  match List.find (fun f => str_is (Vault.file_Name f) (path_file r)) files with
  | Some f =>
      Vault.AuditWithIP (caller r) "secret.download" (Secret.Name sec) ("file=" +:+ path_file r)%go (client_ip r) ;;;
      page (File (Labels.downloadFileName (Secret.Name sec) (path_file r)) "application/octet-stream" (Vault.Data f))
  | None =>
      page (ErrorPage 404 "File not found"
              (Str.Sprintf "Secret %q has no file named %q." [Str.AStr (Secret.Name sec); Str.AStr (path_file r)]))
  end.

Inductive route :=
| List_ (typ : string) | Create | Detail | UpdateMeta | Disable | Delete | VersionPut (file : uploaded)
| VersionDestroy (version : string) | BindingCreate | BindingDelete (binding : string) | Download.

Definition handler (rt : route) (f : Form) : Call -> API reply :=
  match rt with
  | List_ typ => handleSecretsList typ | Create => handleSecretCreate f | Detail => handleSecretDetail
  | UpdateMeta => handleSecretUpdateMeta f | Disable => handleSecretDisable f | Delete => handleSecretDelete
  | VersionPut file => handleSecretVersionPut f file | VersionDestroy v => handleSecretVersionDestroy v
  | BindingCreate => handleSecretBindingCreate f | BindingDelete b => handleSecretBindingDelete b
  | Download => handleSecretDownload
  end.

(** requireAdmin *)
Definition serve (rt : route) (f : Form) (g : Gate.Request) (ip id file : string) : prog world reply :=
  v <- Gate.requireAdmin g ;;
  match v with
  | Gate.Pass u tok => answer (handler rt f (mkCall u tok ip id file))
  | Gate.ToLogin next => Ret (Redirect None ("/login?next=" +:+ QueryEscape next)%go)
  | Gate.FormExpired => Ret (failure "Your session token expired. Please try that again." (Referer f))
  | Gate.AdminPageRequired =>
      Ret (ErrorPage 403 "Administrator access required" "This action is restricted to administrators. Ask a CA administrator to grant your account the admin role.")
  | Gate.ApiError _ _ => Ret NoAnswer
  end.
End handlers.
End SecretsPages.
