(* ===== verification/Apply.v ===== *)
(** * gocactl apply and diff (internal/rcli/apply_cmd.go)

    A manifest declares secrets and who may mount them; [apply] brings the
    server in step with it and [diff] reports what is missing.  The commands
    work against a [Remote], the calls of internal/gocaclient they make;
    [goca_remote] is the one that talks to the server of Secrets with an API
    token.  YAML and JSON are parameters or left out: what one side encodes the
    other decodes. *)

From S2P Require Import Prelude GoStrings Effects Models Schema Store Pki Sealing CaService SecretStore Auth Gate Vault Downloads Api Secrets.

Module Apply.
Import Http Api.

Open Scope prog_scope.

(** ** Manifests *)

Record ManifestBinding := mkBinding { Namespace : string; ServiceAccount : string; AuthMethod : string; ExpiresInDays : Z }.
(** [Labels] is [None] for the nil map, which the manifest declares by leaving
    them out. *)
Record ManifestSecret := mkSecret {
  Name : string; Type_ : string; Description : string; Labels : option (gmap string string); RotationDays : Z;
  Bindings : list ManifestBinding }.
Record Manifest := mkManifest { APIVersion : string; Kind_ : string; Secrets : list ManifestSecret }.

Definition orKV (t : string) : string := if str_is t "" then "kv" else t.
Definition orStar (s : string) : string := if str_is s "" then "*" else s.

Definition triple : Type := string * string * string.
Definition triple_of (b : ManifestBinding) : triple := (orStar (Namespace b), orStar (ServiceAccount b), orStar (AuthMethod b)).
Definition NUL : string := String (ascii_of_nat 0) "".
Definition join (t : triple) : string := (fst (fst t) +:+ NUL +:+ snd (fst t) +:+ NUL +:+ snd t)%go.
Definition bindingKey (b : ManifestBinding) : string := join (triple_of b).
Definition bindingTriple (ns sa method : string) : string :=
  ("namespace=" +:+ orStar ns +:+ " serviceAccount=" +:+ orStar sa +:+ " authMethod=" +:+ orStar method)%go.
Definition bindingDetail (b : ManifestBinding) : string :=
  ("bind " +:+ bindingTriple (Namespace b) (ServiceAccount b) (AuthMethod b) +:+
   (if (0 <? ExpiresInDays b)%Z then Str.Sprintf " (expires in %dd)" [Str.AInt (ExpiresInDays b)] else ""))%go.

Fixpoint check_bindings (i : Z) (name : string) (seen : list string) (bs : list ManifestBinding) : option error :=
  match bs with
  | [] => None
  | b :: bs' =>
      if existsb (str_is (bindingKey b)) seen then
        Some (Errorf (Str.Sprintf "secrets[%d] (%s): duplicate binding (namespace=%q serviceAccount=%q authMethod=%q)"
          [Str.AInt i; Str.AStr name; Str.AStr (Namespace b); Str.AStr (ServiceAccount b); Str.AStr (AuthMethod b)]))
      else check_bindings i name (bindingKey b :: seen) bs'
  end.

Definition check_type (i : Z) (s : ManifestSecret) : option error :=
  if str_is (Type_ s) "" || str_is (Type_ s) SecretTypeKV || str_is (Type_ s) SecretTypeFile then None
  else if str_is (Type_ s) SecretTypeCertificate then
    Some (Errorf (Str.Sprintf "secrets[%d] (%s): certificate secrets are managed imperatively (they track a live certificate); declare kv or file in a manifest"
      [Str.AInt i; Str.AStr (Name s)]))
  else Some (Errorf (Str.Sprintf "secrets[%d] (%s): unknown type %q (want kv or file)" [Str.AInt i; Str.AStr (Name s); Str.AStr (Type_ s)])).

Fixpoint check_secrets (i : Z) (seen : list string) (l : list ManifestSecret) : option error :=
  match l with
  | [] => None
  | s :: l' =>
      if str_is (Str.TrimSpace (Name s)) "" then Some (Errorf (Str.Sprintf "secrets[%d]: a name is required" [Str.AInt i]))
      else if existsb (str_is (Name s)) seen then
        Some (Errorf (Str.Sprintf "secrets[%d]: duplicate secret name %q" [Str.AInt i; Str.AStr (Name s)]))
      else match check_type i s with
      | Some e => Some e
      | None => match check_bindings i (Name s) [] (Bindings s) with
                | Some e => Some e
                | None => check_secrets (i + 1) (Name s :: seen) l'
                end
      end
  end.

(** [None] is no error. *)
Definition validateManifest (m : Manifest) : option error :=
  match Secrets m with [] => Some (Errorf "manifest declares no secrets") | l => check_secrets 0 [] l end.

Definition canonical_binding (b : ManifestBinding) : ManifestBinding :=
  mkBinding (orStar (Str.TrimSpace (Namespace b))) (orStar (Str.TrimSpace (ServiceAccount b))) (orStar (Str.TrimSpace (AuthMethod b))) (ExpiresInDays b).
Definition canonical_secret (s : ManifestSecret) : ManifestSecret :=
  mkSecret (Name s) (Type_ s) (Description s) (Labels s) (RotationDays s) (map canonical_binding (Bindings s)).

Section files.
Context (read : string -> result error string) (yaml_manifest : string -> result error Manifest)
        (yaml_list : string -> result error (list ManifestSecret)).

Definition parseManifest (path : string) : result error Manifest :=
  match read path with
  | Err e => Err (Wrapf "read manifest" e)
  | Ok data =>
      (try m := (match yaml_manifest data with
                 | Ok m => Ok m
                 | Err e => match yaml_list data with
                            | Ok ((_ :: _) as bare) => Ok (mkManifest "" "" bare)
                            | _ => Err (Wrapf ("parse " +:+ path) e)
                            end
                 end) in
       if nonempty (APIVersion m) && negb (str_is (APIVersion m) "goca.dev/v1") then
         Err (Errorf (Str.Sprintf "%s: unsupported apiVersion %q (want goca.dev/v1)" [Str.AStr path; Str.AStr (APIVersion m)]))
       else
         let m := mkManifest (APIVersion m) (Kind_ m) (map canonical_secret (Secrets m)) in
         match validateManifest m with Some e => Err (Wrapf path e) | None => Ok m end)%go
  end.

Fixpoint all_secrets (files : list string) : result error (list ManifestSecret) :=
  match files with
  | [] => Ok []
  | f :: files' => (try m := parseManifest f in try l := all_secrets files' in Ok (Secrets m ++ l))%go
  end.
Definition loadManifests (files : list string) : result error Manifest :=
  (try l := all_secrets files in
   let combined := mkManifest "" "" l in
   match validateManifest combined with Some e => Err e | None => Ok combined end)%go.
(** What the files given with -f declare. *)
Definition manifests (files : list string) : result error Manifest :=
  match files with [] => Err (Errorf "a manifest is required: -f secrets.yaml") | _ => loadManifests files end.
End files.

(** ** The client's calls *)

(** gocaclient.Secret and gocaclient.SecretBinding, the fields the commands read. *)
Record secret := mkRemoteSecret {
  s_Name : string; s_Type : string; s_Description : string; s_Labels : gmap string string; s_RotationDays : Z }.
Record binding := mkRemoteBinding { b_ID : Z; b_Triple : triple }.

(** The body of UpdateSecret: the keys that were set, with the value of labels,
    which may be null. *)
Record changes := mkChanges {
  set_description : option string; set_labels : option (option (gmap string string)); set_rotation_days : option Z }.
Definition no_changes : changes := mkChanges None None None.

Record Remote := mkRemote {
  ListSecrets : M (list secret);
  SecretBindings : string -> M (list binding);
  CreateSecret : ManifestSecret -> M unit;
  UpdateSecret : string -> changes -> M unit;
  BindSecret : string -> ManifestBinding -> M unit;
  UnbindSecret : Z -> M unit }.

(** ** Planning *)

Inductive actionKind := actCreateSecret | actUpdateSecret | actBind | actUnbind.
Record Action := mkAction { Kind : actionKind; Secret : string; Detail : string; Triple : string; MetaFields : list string }.
Definition Plan : Type := list Action.

Record serverState := mkState { secrets : gmap string secret; bindings : gmap string (list binding) }.

Fixpoint fetch_bindings (r : Remote) (known : gmap string secret) (ds : list ManifestSecret) (st : gmap string (list binding))
    : M (gmap string (list binding)) :=
  match ds with
  | [] => Ret (Ok st)
  | d :: ds' =>
      match known !! Name d with
      | None => fetch_bindings r known ds' st
      | Some _ =>
          bs <-! SecretBindings r (Name d) ;;
          fetch_bindings r known ds' (<[Name d := bs]> st)
      end
  end.
Definition fetchServerState (r : Remote) (m : Manifest) : M serverState :=
  l <-! ListSecrets r ;;
  let known := fold_left (fun st s => <[s_Name s := s]> st) l ∅ in
  bs <-! fetch_bindings r known (Secrets m) ∅ ;;
  Ret (Ok (mkState known bs)).

(** labelsEqual: a nil map is as empty as another. *)
Definition labelsEqual (a : option (gmap string string)) (b : gmap string string) : bool := bool_decide (default ∅ a = b).
Definition metaChanges (d : ManifestSecret) (srv : secret) : list string :=
  (if str_is (Description d) (s_Description srv) then [] else ["description"%string]) ++
  (if labelsEqual (Labels d) (s_Labels srv) then [] else ["labels"%string]) ++
  (if (RotationDays d =? s_RotationDays srv)%Z then [] else ["rotationDays"%string]).

Definition bindingPresent (have : list binding) (want : ManifestBinding) : bool :=
  existsb (fun sb => bool_decide (b_Triple sb = triple_of want)) have.

Definition bind_action (d : ManifestSecret) (b : ManifestBinding) : Action := mkAction actBind (Name d) (bindingDetail b) (bindingKey b) [].
Definition unbind_action (d : ManifestSecret) (sb : binding) : Action :=
  mkAction actUnbind (Name d) ("unbind " +:+ bindingTriple (fst (fst (b_Triple sb))) (snd (fst (b_Triple sb))) (snd (b_Triple sb)))%go
    (join (b_Triple sb)) [].
Definition conflict_action (d : ManifestSecret) (srv : secret) : Action :=
  mkAction actUpdateSecret (Name d)
    (Str.Sprintf "CONFLICT: type is %q on the server but %q in the manifest (type is immutable)" [Str.AStr (s_Type srv); Str.AStr (orKV (Type_ d))]) "" [].
Definition update_action (d : ManifestSecret) (fields : list string) : Action :=
  mkAction actUpdateSecret (Name d) ("update " +:+ Str.Join fields ", ")%go "" fields.

Definition plan_secret (st : serverState) (prune : bool) (d : ManifestSecret) : list Action :=
  let have := default [] (bindings st !! Name d) in
  match secrets st !! Name d with
  | None => mkAction actCreateSecret (Name d) ("create secret (type " +:+ orKV (Type_ d) +:+ ")")%go "" [] :: map (bind_action d) (Bindings d)
  | Some srv =>
      if negb (str_is (s_Type srv) (orKV (Type_ d))) then [conflict_action d srv]
      else
        (match metaChanges d srv with [] => [] | fields => [update_action d fields] end) ++
        map (bind_action d) (List.filter (fun b => negb (bindingPresent have b)) (Bindings d)) ++
        (if prune then map (unbind_action d) (List.filter (fun sb => negb (existsb (str_is (join (b_Triple sb))) (map bindingKey (Bindings d)))) have) else [])
  end.
Definition planFromState (m : Manifest) (st : serverState) (prune : bool) : Plan := flat_map (plan_secret st prune) (Secrets m).

Definition plan (r : Remote) (m : Manifest) (prune : bool) : M Plan :=
  st <-! fetchServerState r m ;; Ret (Ok (planFromState m st prune)).

(** ** Execution *)

(** The entry of the map by name, the zero value where there is none: a later
    declaration replaces an earlier one. *)
Definition declared (m : Manifest) (name : string) : ManifestSecret :=
  fold_left (fun found d => if str_is (Name d) name then d else found) (Secrets m) (mkSecret "" "" "" None 0 []).

Definition set_field (d : ManifestSecret) (body : changes) (f : string) : changes :=
  if str_is f "description" then mkChanges (Some (Description d)) (set_labels body) (set_rotation_days body)
  else if str_is f "labels" then mkChanges (set_description body) (Some (Labels d)) (set_rotation_days body)
  else if str_is f "rotationDays" then mkChanges (set_description body) (set_labels body) (Some (RotationDays d))
  else body.
Definition bindingByTriple (bs : list ManifestBinding) (t : string) : option ManifestBinding := List.find (fun b => str_is (bindingKey b) t) bs.

Definition wrapped {A} (what : string) (p : M A) : M A := r <- p ;; Ret (match r with Ok a => Ok a | Err e => Err (Wrapf what e) end).

Definition execute_action (r : Remote) (m : Manifest) (a : Action) : M unit :=
  let d := declared m (Secret a) in
  match Kind a with
  | actCreateSecret => wrapped ("create " +:+ Name d)%go (CreateSecret r d)
  | actUpdateSecret =>
      match fold_left (set_field d) (MetaFields a) no_changes with
      | mkChanges None None None => Ret (Ok tt)
      | body => wrapped ("update " +:+ Name d)%go (UpdateSecret r (Name d) body)
      end
  | actBind =>
      match bindingByTriple (Bindings d) (Triple a) with
      | None => Ret (Err (Errorf (Str.Sprintf "bind %s: no declared binding matches %q" [Str.AStr (Name d); Str.AStr (Triple a)])))
      | Some b => wrapped ("bind " +:+ Name d)%go (BindSecret r (Name d) b)
      end
  | actUnbind =>
      bs <-! wrapped ("list bindings for " +:+ Name d)%go (SecretBindings r (Name d)) ;;
      match List.find (fun sb => str_is (join (b_Triple sb)) (Triple a)) bs with
      | None => Ret (Ok tt)
      | Some sb => wrapped ("unbind " +:+ Name d)%go (UnbindSecret r (b_ID sb))
      end
  end.
Fixpoint execute (r : Remote) (m : Manifest) (p : Plan) : M unit :=
  match p with
  | [] => Ret (Ok tt)
  | a :: p' => _ <-! execute_action r m a ;; execute r m p'
  end.

(** ** The commands, with what they leave on the screen *)

Inductive outcome := PlanJSON (p : Plan) | NoDrift | Planned (p : Plan) | Applied (n : nat) | DriftError (p : Plan).

Definition apply (r : Remote) (manifest : result error Manifest) (prune dryRun json : bool) : M outcome :=
  combined <-! Ret manifest ;;
  p <-! plan r combined prune ;;
  if json then Ret (Ok (PlanJSON p))
  else match p with
  | [] => Ret (Ok NoDrift)
  | _ => if dryRun then Ret (Ok (Planned p)) else _ <-! execute r combined p ;; Ret (Ok (Applied (length p)))
  end.
Definition diff (r : Remote) (manifest : result error Manifest) (prune json : bool) : M outcome :=
  combined <-! Ret manifest ;;
  p <-! plan r combined prune ;;
  if json then Ret (Ok (PlanJSON p)) else match p with [] => Ret (Ok NoDrift) | _ => Ret (Ok (DriftError p)) end.

(** ** The goca server *)

Section server.
Context `{Std : Pki.Std} `{Ciphers} `{Auth.Passwords} `{RowOrder} `{Gate.Net}.
Context (vault : Pqcrypt.Vault) (master : string) (has_ca : bool).
(** The request as the gate sees it, and its address. *)
Context (g : Gate.Request) (ip : string).

(** A response: what it holds, or the APIError of its status and message. *)
Definition response {A} (f : json -> option A) (a : reply) : result error A :=
  match a with
  | Json _ j => match f j with Some x => Ok x | None => Err (Errorf "decode response") end
  | Failed _ msg => Err (Errorf msg)
  | _ => Err (Errorf "decode response")
  end.
Definition received {A} (f : json -> option A) (p : prog world reply) : M A := a <- p ;; Ret (response f a).
Definition call (id : string) (rt : SecretsApi.route) : prog world reply := SecretsApi.serve vault master has_ca rt g ip id.

Definition remote_secret (v : secret_view) : secret :=
  let s := zv_Secret v in mkRemoteSecret (Secret.Name s) (Secret.Type_ s) (Secret.Description s) (zv_Labels v) (Secret.RotationDays s).
Definition remote_binding (b : SecretBinding.t) : binding :=
  mkRemoteBinding (SecretBinding.ID b) (SecretBinding.K8sNamespace b, SecretBinding.K8sServiceAccount b, SecretBinding.K8sAuthMethod_ b).
Definition done (j : json) : option unit := Some tt.

Definition goca_remote : Remote := mkRemote
  (received (fun j => match j with JSecrets l => Some (map remote_secret l) | _ => None end) (call "" (SecretsApi.List_ "")))
  (fun name => received (fun j => match j with JBindings l => Some (map remote_binding l) | _ => None end) (call name SecretsApi.BindingList))
  (fun d => received done (call "" (SecretsApi.Create (Ok
     (Vault.mkCreate (Name d) (orKV (Type_ d)) (Description d) (default ∅ (Labels d)) (RotationDays d) None "")))))
  (fun name body => received done (call name (SecretsApi.Update (Ok
     (SecretsApi.mkUpdate (set_description body) (mjoin (set_labels body)) (set_rotation_days body))))))
  (fun name b => received done (call name (SecretsApi.BindingCreate (Ok
     (SecretsApi.mkBinding (Namespace b) (ServiceAccount b) (AuthMethod b) (ExpiresInDays b))))))
  (fun id => received done (call (Str.itoa id) SecretsApi.BindingDelete)).
End server.
End Apply.
