(* ===== verification/SslTool.v ===== *)
(** * The SSL utility
    (internal/web/pages_ssl.go)

    A page that works without an account: it decodes the PEM blocks it is given
    and says which keys belong together.  It reads the clock and writes
    nothing.  What it shows again of its input leaves private keys out;
    [render] is the data its template writes into the page.  The headers a PEM
    block may have are not part of the model. *)

From S2P Require Import Prelude GoStrings Effects Models Schema Pki CaService CaLifecycle CaImport.

Module SslTool.

Open Scope prog_scope.

Record sslKeyInfo := mkKeyInfo { KeyType : string; SPKIFingerprint : string; Matches : list string }.
Record sslBlock := mkBlock {
  Label : string; Kind : string; PEM : string; Error_ : string;
  Cert : option PkiImport.CertInfo; CSR : option PkiImport.CSRInfo; Key : option sslKeyInfo }.
Record sslInspectResult := mkResult { Blocks : list sslBlock; ResultError : string; EchoInput : string }.

Definition kind_certificate : string := "certificate".
Definition kind_csr : string := "csr".
Definition kind_key : string := "key".
Definition kind_unsupported : string := "unsupported".

Definition certificate_types : list string := ["CERTIFICATE"].
Definition csr_types : list string := ["CERTIFICATE REQUEST"; "NEW CERTIFICATE REQUEST"].
Definition key_types : list string := ["PRIVATE KEY"; "RSA PRIVATE KEY"; "EC PRIVATE KEY"].
Definition encrypted_types : list string := ["ENCRYPTED PRIVATE KEY"].

Section tool.
Context `{Std : Pki.Std}.
(** x509.MarshalPKIXPublicKey, and how many bytes a form may have. *)
Context (marshal_public : Pki.PublicKey -> result error string).

Definition spkiFingerprint (pub : Pki.PublicKey) : result error string :=
  match marshal_public pub with Ok der => Ok (Pki.FingerprintSHA256 der) | Err e => Err e end.
(** The fingerprints entry of a block, empty where there is none. *)
Definition fingerprint (pub : Pki.PublicKey) : string := match spkiFingerprint pub with Ok fp => fp | Err _ => EmptyString end.

(** How many certificates and requests were seen, and whether a key was. *)
Record seen := mkSeen { certN : Z; csrN : Z; sawKey : bool }.

Definition failed_block (label kind pem err : string) : sslBlock := mkBlock label kind pem err None None None.

Definition certificate_block (n : Z) (pem der : string) : prog world (sslBlock * string) :=
  let label := Str.Sprintf "Certificate #%d" [Str.AInt n] in
  match Pki.x509_ParseCertificate der with
  | Err e => Ret (failed_block label kind_certificate pem (Error e), EmptyString)
  | Ok cert =>
      info <- PkiImport.Describe cert ;;
      Ret (mkBlock label kind_certificate pem "" (Some info) None None, fingerprint (Pki.cert_PublicKey cert))
  end.

Definition csr_block (n : Z) (pem der : string) : sslBlock * string :=
  let label := if (1 <? n)%Z then Str.Sprintf "Certificate signing request #%d" [Str.AInt n] else "Certificate signing request"%string in
  match Pki.x509_ParseCertificateRequest der with
  | Err e => (failed_block label kind_csr pem (Error e), EmptyString)
  | Ok csr =>
      match Pki.x509_CheckSignature csr with
      | Some e => (failed_block label kind_csr pem ("signature does not verify: " +:+ Error e)%go, EmptyString)
      | None => (mkBlock label kind_csr pem "" None (Some (PkiImport.DescribeCSR csr)) None, fingerprint (Pki.csr_PublicKey csr))
      end
  end.

Definition key_label (additional : bool) : string := if additional then "Private key (additional)" else "Private key".
Definition key_block (additional : bool) (pem : string) : sslBlock * string :=
  let label := key_label additional in
  match Pki.ParsePrivateKeyPEM pem with
  | Err e => (failed_block label kind_key pem (Error e), EmptyString)
  | Ok key =>
      match Pki.public_key key with
      | Err e => (failed_block label kind_key pem (Error e), EmptyString)
      | Ok pub => (mkBlock label kind_key pem "" None None (Some (mkKeyInfo (PkiImport.private_key_type key) (fingerprint pub) [])),
                   fingerprint pub)
      end
  end.

Definition encrypted_block (pem : string) : sslBlock :=
  failed_block "Encrypted private key" kind_key pem
    "this key is password-protected; decrypt it first, e.g. openssl pkcs8 -topk8 -nocrypt -in enc.key -out plain.key".
Definition unknown_block (typ pem : string) : sslBlock :=
  failed_block "Unrecognized PEM block" kind_unsupported pem (Str.Sprintf "goca does not recognize a %q block" [Str.AStr typ]).

(** The switch over the type of a block. *)
Definition inspect_block (b : Pki.PEMBlock) (s : seen) : prog world ((sslBlock * string) * seen) :=
  let typ := Pki.pem_Type b in
  let pem := Pki.pem_EncodeToMemory typ (Pki.pem_Bytes b) in
  if Pki.one_of typ certificate_types then
    let n := (certN s + 1)%Z in
    out <- certificate_block n pem (Pki.pem_Bytes b) ;; Ret (out, mkSeen n (csrN s) (sawKey s))
  else if Pki.one_of typ csr_types then
    let n := (csrN s + 1)%Z in Ret (csr_block n pem (Pki.pem_Bytes b), mkSeen (certN s) n (sawKey s))
  else if Pki.one_of typ key_types then Ret (key_block (sawKey s) pem, mkSeen (certN s) (csrN s) true)
  else if Pki.one_of typ encrypted_types then Ret ((encrypted_block pem, EmptyString), s)
  else Ret ((unknown_block typ pem, EmptyString), s).

Fixpoint inspect_blocks (bs : list Pki.PEMBlock) (s : seen) : prog world (list (sslBlock * string)) :=
  match bs with
  | [] => Ret []
  | b :: bs' =>
      out <- inspect_block b s ;;
      let '(block, s') := out in
      rest <- inspect_blocks bs' s' ;;
      Ret (block :: rest)
  end.

(** The labels of the other blocks with this fingerprint. *)
Definition matching (all : list (sslBlock * string)) (i : nat) (fp : string) : list string :=
  map (fun jb => Label (fst (snd jb)))
    (List.filter (fun jb => negb (fst jb =? i)%nat && str_is (snd (snd jb)) fp) (combine (List.seq 0 (length all)) all)).
Definition cross_reference (all : list (sslBlock * string)) (i : nat) (block : sslBlock) (fp : string) : sslBlock :=
  match Key block with
  | Some k =>
      if str_is fp "" then block
      else mkBlock (Label block) (Kind block) (PEM block) (Error_ block) (Cert block) (CSR block)
             (Some (mkKeyInfo (KeyType k) (SPKIFingerprint k) (matching all i fp)))
  | None => block
  end.

Definition newline : string := String "010" "".
Definition placeholder (label : string) : string :=
  ("# " +:+ label +:+ " decoded below - not redisplayed here" +:+ newline)%go.
Definition echoInput (blocks : list sslBlock) : string :=
  Str.TrimRight (Str.Join (map (fun b => if str_is (Kind b) kind_key then placeholder (Label b) else PEM b) blocks) newline) newline.

Definition no_pem : string :=
  ("No PEM data found. Paste (or upload) a certificate, private key, or CSR beginning with " +:+ String Str.dquote "-----BEGIN ...-----" +:+ String Str.dquote ".")%go.

Definition inspectSSLInput (raw : string) : prog world sslInspectResult :=
  found <- inspect_blocks (Pki.blocks raw) (mkSeen 0 0 false) ;;
  match found with
  | [] => Ret (mkResult [] no_pem raw)
  | _ =>
      let blocks := imap (fun i b => cross_reference found i (fst b) (snd b)) found in
      Ret (mkResult blocks "" (echoInput blocks))
  end.

(** What the form brought: the error of reading it, or its file and its text. *)
Definition handleSSLToolSubmit (form : result error (string * string)) : prog world (string * option sslInspectResult) :=
  match form with
  | Err e => Ret (EmptyString, Some (mkResult [] ("Could not read the submitted form (2 MB max): " +:+ Error e)%go EmptyString))
  | Ok (file, text) =>
      result <- inspectSSLInput (if str_is file "" then text else file) ;;
      Ret (EchoInput result, Some result)
  end.
Definition handleSSLToolForm : prog world (string * option sslInspectResult) := Ret (EmptyString, None).

(** What the template ssl_tool.html writes of a block: its label and badge; its
    error, or what it says of the certificate, request or key; and the PEM
    text, except of a key. *)
Inductive detail :=
| Failed (e : string)
| OfCertificate (c : PkiImport.CertInfo)
| OfCSR (c : PkiImport.CSRInfo)
| OfKey (k : sslKeyInfo)
| Nothing.
Definition detail_shown (b : sslBlock) : detail :=
  if nonempty (Error_ b) then Failed (Error_ b)
  else match Cert b, CSR b, Key b with
       | Some c, _, _ => OfCertificate c
       | None, Some c, _ => OfCSR c
       | None, None, Some k => OfKey k
       | None, None, None => Nothing
       end.
Definition raw_shown (b : sslBlock) : option string := if str_is (Kind b) kind_key then None else Some (PEM b).
Definition block_shown (b : sslBlock) : string * string * detail * option string := (Label b, Kind b, detail_shown b, raw_shown b).

Record page := mkPage {
  Textarea : string;
  ErrorFlash : string;
  Cards : list (string * string * detail * option string) }.
Definition render (data : string * option sslInspectResult) : page :=
  match data with
  | (input, None) => mkPage input "" []
  | (input, Some r) =>
      if nonempty (ResultError r) then mkPage input (ResultError r) []
      else mkPage input "" (map block_shown (Blocks r))
  end.

End tool.
End SslTool.
