(* ===== verification/Sample.v ===== *)
(** * A concrete environment

    One instance of everything the model takes as a parameter: a PEM and X.509
    in clear text, JOSE messages of four fields separated by bars, rows in
    table order.  It is no cryptography; it is what the theorems with such a
    parameter are evaluated on. *)

From S2P Require Import Prelude GoStrings Effects Models Schema Pki Sealing CaService K8s AcmePolicy AcmeService Auth.

#[export] Instance table_order : RowOrder := {| scan := fun A l => l; scan_perm := fun A l => Permutation_refl l |}.

Module Sample.

(** ** Certificates in clear text: "serial;CA or leaf;common name;dns,dns",
    with the issuer's common name as an optional fifth part, which is all there
    is to a signature *)

#[export] Instance name_eq_dec : EqDecision Pki.Name.
Proof. solve_decision. Defined.
#[export] Instance url_eq_dec : EqDecision Pki.URL.
Proof. solve_decision. Defined.

Definition name_of (cn : string) : Pki.Name := Pki.mkName cn [] [] [] [] [] [] [].
Definition split_names (s : string) : list string := if str_is s "" then [] else Str.Split s ",".

Definition cert_of (der : string) : result error (Pki.Cert string) :=
  let make serial ca cn names issuer :=
    match CaService.digits_value serial 0 with
    | Some n => Ok (Pki.mkCert der n (name_of cn) (name_of issuer) 0 (10 ^ 20) 0 [] true (str_is ca "CA") 0 false
                      (split_names names) [] [] [] [] [] [] "" "" "" "key")
    | None => Err (Driver "x509: malformed serial")
    end in
  match Str.Split der ";" with
  | [serial; ca; cn; names] => make serial ca cn names EmptyString
  | [serial; ca; cn; names; issuer] => make serial ca cn names issuer
  | _ => Err (Driver "x509: malformed certificate")
  end.

Definition signed_by (child parent : Pki.Cert string) : option error :=
  if str_is (Pki.CN (Pki.Issuer child)) (Pki.CN (Pki.cert_Subject parent)) then None
  else Some (Driver "x509: invalid signature").

Definition der_of (c : Pki.Cert string) : string :=
  Str.Join [Str.itoa (Pki.SerialNumber c); (if Pki.IsCA c then "CA" else "leaf")%string;
            Pki.CN (Pki.cert_Subject c); Str.Join (Pki.DNSNames c) ","] ";".

(** The template is written only when it reads back as it was. *)
Definition same_certificate (c tmpl : Pki.Cert string) : bool :=
  bool_decide (Pki.SerialNumber c = Pki.SerialNumber tmpl /\ Pki.cert_Subject c = Pki.cert_Subject tmpl /\
    Pki.DNSNames c = Pki.DNSNames tmpl /\ Pki.IPAddresses c = Pki.IPAddresses tmpl /\
    Pki.EmailAddresses c = Pki.EmailAddresses tmpl /\ Pki.cert_URIs c = Pki.cert_URIs tmpl /\
    Pki.IsCA c = Pki.IsCA tmpl).

Definition create (tmpl : Pki.Cert string) : result error string :=
  match cert_of (der_of tmpl) with
  | Ok c => if same_certificate c tmpl then Ok (der_of tmpl) else Err (Driver "x509: not representable")
  | Err e => Err e
  end.

Definition csr_of (der : string) : result error (Pki.CSR string) :=
  match Str.Split der ";" with
  | [cn; names] => Ok (Pki.mkCSR der (name_of cn) (split_names names) [] [] [] "key" "" [])
  | _ => Err (Driver "x509: malformed request")
  end.

Definition pem_types : list string := ["CERTIFICATE REQUEST"; "CERTIFICATE"; "PRIVATE KEY"; "X509 CRL"].
Definition pem_of (s : string) : option Pki.PEMBlock :=
  match List.find (fun t => Str.HasPrefix s (t +:+ ":")%go) pem_types with
  | Some t => Some (Pki.mkPEM t (fst (Str.CutPrefix s (t +:+ ":")%go)) "")
  | None => None
  end.

(** A key is its public half, and what may follow after an exclamation mark. *)
Definition public_half (key : string) : string := match Str.Split key "!" with p :: _ => p | [] => key end.

#[global, refine] Instance std : Pki.Std := {|
  Pki.PrivateKey := string; Pki.PublicKey := string;
  Pki.net_ParseIP s := if str_is s "10.0.0.1" then Some s else None;
  Pki.url_Parse s := Err "not a URL"%string;
  Pki.mail_ParseAddress_ok := fun s => Str.Contains s "@";
  Pki.pem_Decode := pem_of;
  Pki.pem_EncodeToMemory t b := (t +:+ ":" +:+ b)%go;
  Pki.x509_ParseCertificate := cert_of;
  Pki.x509_ParseCertificateRequest := csr_of;
  Pki.x509_CheckSignature csr := None;
  Pki.x509_CheckSignatureFrom := signed_by;
  Pki.pkix_String n := Pki.CN n;
  Pki.x509_CreateCertificate n tmpl parent pub key := create tmpl;
  Pki.x509_CreateCertificateRequest n csr key := Ok (Str.Join [Pki.CN (Pki.csr_Subject csr); Str.Join (Pki.csr_DNSNames csr) ","] ";");
  Pki.x509_CreateRevocationList n crl issuer key := Ok "crl"%string;
  Pki.x509_ParsePrivateKey t b := Ok b;
  Pki.x509_MarshalPKCS8PrivateKey := Ok;
  Pki.generate_key n d := Ok "key"%string;
  Pki.public_key := fun k => Ok (public_half k);
  Pki.is_signer k := true;
  Pki.describe_public k := Pki.RSA 2048;
  Pki.public_eqb := str_is;
  Pki.key_identifier := Ok;
  Pki.sha256 s := s;
  Pki.rand_Int n bound := Ok (Z.of_nat n);
  Pki.format_date t := Str.itoa t |}.
Proof.
  { done. }
  intros n tmpl parent pub key der c. unfold create.
  destruct (cert_of (der_of tmpl)) as [c' | e] eqn:Hc'; [| done].
  destruct (same_certificate c' tmpl) eqn:Hs; [| done]. intros [= <-] Hc. rewrite Hc in Hc'. injection Hc' as <-.
  by apply bool_decide_eq_true in Hs.
Defined.

(** ** JOSE in clear text: "kid|nonce|url|payload", with semicolons for a
    binding inside a payload; without a kid the nonce is the key *)

Definition jose_header (body : string) : list (AcmeService.Header string * AcmeService.Header string) :=
  match Str.Split body "|" with
  | [kid; nonce; url; payload] =>
      [(AcmeService.mkHeader kid (if str_is kid "" then Some nonce else None) nonce url false,
        AcmeService.mkHeader "" None "" "" false)]
  | _ => []
  end.
Definition binding_text (s : string) : string := Str.map_string (fun c => if Ascii.eqb c ";" then "|"%char else c) s.
Definition jose_payload (body : string) : result error string :=
  match Str.Split body "|" with
  | [_; _; _; payload] => Ok payload
  | _ => Err (Driver "jose: malformed")
  end.

#[global] Instance wire : AcmeService.Wire := {|
  AcmeService.JWK := string; AcmeService.JWS := string;
  AcmeService.parse_signed eab b := Ok (if eab : bool then binding_text b else b);
  AcmeService.signatures := jose_header;
  AcmeService.verify b k := jose_payload b;
  AcmeService.verify_hmac b k := jose_payload b;
  AcmeService.thumbprint := Ok;
  AcmeService.jwk_marshal := Ok;
  AcmeService.jwk_unmarshal := Ok;
  AcmeService.jwk_is_key a b := str_is a b;
  AcmeService.decode_new_account s := Ok (AcmeService.mkNewAccount [] false s);
  AcmeService.decode_update_account s := Ok (AcmeService.mkUpdateAccount None s);
  AcmeService.decode_new_order s := Ok (AcmeService.mkNewOrder [AcmeIdentifier.mk "dns" s] "" "");
  AcmeService.decode_finalize := Ok;
  AcmeService.decode_revoke s := Ok (AcmeService.mkRevokeCert s None);
  AcmeService.decode_problem s := None;
  AcmeService.rawurl_Encode s := s;
  AcmeService.rawurl_Decode := Ok;
  AcmeService.time_Parse s := None;
  AcmeService.time_Format t := Str.itoa t |}.

(** ** Passwords hashed by prefixing them *)

#[global] Instance passwords : Auth.Passwords := {|
  Auth.bcrypt_Generate n p := Ok ("bcrypt:" +:+ p)%go;
  Auth.bcrypt_Compare h p := str_is h ("bcrypt:" +:+ p)%go;
  Auth.rawurl s := s |}.

(** ** Clusters: a token is "issuer|audience|namespace|service account"; an
    issuer that starts with "https://up" can be reached *)

Definition token_claims (issuer audience token : string) : option (string * string) :=
  match Str.Split token "|" with
  | [i; a; ns; sa] => if str_is i issuer && str_is a audience then Some (ns, sa) else None
  | _ => None
  end.

#[global] Instance clusters : K8sAuth.Cluster := {|
  K8sAuth.append_certs := nonempty;
  K8sAuth.oidc_discover issuer skip := Ret (if Str.HasPrefix issuer "https://up" then Ok tt else Err (Driver "dial tcp: timeout"));
  K8sAuth.oidc_Verify issuer audience token := Ret (match token_claims issuer audience token with
    | Some (ns, sa) => Ok (Ok (K8sAuth.mkClaims "" ns sa "pod" "uid")) | None => Err (Driver "oidc: rejected") end);
  K8sAuth.token_review c token := Ret (Ok (match token_claims (K8sAuth.APIServerURL c) (K8sAuth.Audience c) token with
    | Some (ns, sa) => K8sAuth.mkReview true "" ("system:serviceaccount:" +:+ ns +:+ ":" +:+ sa)%go [] []
    | None => K8sAuth.mkReview false "" "" [] [] end)) |}.

(** ** A server *)

Definition cfg : CaService.Config := CaService.mkConfig "rsa-2048" 3650 397 7 [] [] "https://ca".
Definition master : string := "master".
Definition no_sink (actor action target detail ip : string) : prog world unit := Ret tt.

(** An authority that can sign, "a.test" in scope of one credential, one
    account of it with one ready order for that name, and two nonces. *)
Definition key_enc : string :=
  Eval vm_compute in match Box.Encrypt master 0 "PRIVATE KEY:key" with Ok s => s | Err _ => EmptyString end.

Definition root : CA.t :=
  CA.mk 1 "Root" "root" "CN=Root" "" "01" "rsa-2048" "CERTIFICATE:1;CA;Root;" key_enc "" true None 0 0 (10 ^ 20) "active"
    0 "" true "" 0 None false "" "".
Definition hmac_enc : string :=
  Eval vm_compute in match Box.Encrypt master 0 "hmac" with Ok s => s | Err _ => EmptyString end.
Definition cred : EABCred.t := EABCred.mk 1 "kid1" hmac_enc "team" None "server" 30 ["*.test"%string] 2 1 false None "" 0 None.
Definition account : AcmeAccount.t := AcmeAccount.mk 1 1 "jwk" "jwk" [] "valid" 0 None "".
Definition order : AcmeOrder.t :=
  AcmeOrder.mk 1 1 "ready" [AcmeIdentifier.mk "dns" "a.test"] None "" (10 ^ 19) 0 None.

Definition store : db :=
  set_table Cas (mkTable [root : row Cas] 1)
  (set_table AcmeEabCreds (mkTable [cred : row AcmeEabCreds] 1)
  (set_table AcmeAccounts (mkTable [account : row AcmeAccounts] 1)
  (set_table AcmeOrders (mkTable [order : row AcmeOrders] 1)
  (set_table AcmeNonces (mkTable [AcmeNonce.mk "n1" (10 ^ 19) : row AcmeNonces; AcmeNonce.mk "n2" (10 ^ 19) : row AcmeNonces] 0)
   empty_db)))).

Definition start : world := mkWorld store 1000 [] [] 0.

(** The body of a request of account 1. *)
Definition signed (nonce url payload : string) : string :=
  Str.Join ["https://ca/acme/account/1"%string; nonce; url; payload] "|".

End Sample.
