(* ===== verification/CaFacts.v ===== *)
(** * What the certificate service can and cannot do

    First the subprograms that only read, for the counting arguments of this
    file and of the ACME server; then the guarantees of the service. *)

From S2P Require Import Prelude GoStrings Effects Models Schema SqlFacts Store Pki Sealing CaService.

Module CaFacts.

(** ** Subprograms that write nothing *)

Section reads.
Context `{Pki.Std} `{Ciphers} `{RowOrder}.
Context (cfg : CaService.Config) (master : string).
Context (R : db -> db -> Prop) `{HR : Reflexive _ R}.

Lemma guar_draw {X} (f : nat -> X) : guar (on_db R) (Pki.draw f).
Proof. apply guar_act. intros w. apply HR. Qed.
#[local] Hint Resolve guar_draw : guar.

Lemma guar_chain_loop n c chain : guar (on_db R) (CaService.chain_loop n c chain).
Proof. revert c chain. induction n as [| n IH]; intros c chain; cbn [CaService.chain_loop]; guar_walk idtac. Qed.

Lemma guar_slug_loop n base slug i : guar (on_db R) (CaService.slug_loop n base slug i).
Proof. revert slug i. induction n as [| n IH]; intros slug i; cbn [CaService.slug_loop]; guar_walk idtac. Qed.

Lemma guar_cert_entries l : guar (on_db R) (CaService.cert_entries l).
Proof. induction l as [| c l IH]; cbn [CaService.cert_entries]; guar_walk idtac. Qed.

#[local] Hint Resolve guar_chain_loop guar_slug_loop guar_cert_entries : guar.

Lemma guar_CAChainPEM c : guar (on_db R) (CaService.CAChainPEM c).
Proof. guar_walk idtac. Qed.
Lemma guar_issuer_of in_ : guar (on_db R) (CaService.issuer_of master in_).
Proof. guar_walk idtac. Qed.
Lemma guar_issue_material in_ : guar (on_db R) (CaService.issue_material cfg in_).
Proof. guar_walk idtac. Qed.
Lemma guar_Sign p : guar (on_db R) (Pki.Sign p).
Proof. guar_walk idtac. Qed.
Lemma guar_store_key in_ k : guar (on_db R) (CaService.store_key master in_ k).
Proof. guar_walk idtac. Qed.
End reads.

#[export] Hint Resolve guar_draw guar_chain_loop guar_slug_loop guar_cert_entries : guar.
#[export] Hint Resolve guar_CAChainPEM guar_issuer_of guar_issue_material guar_Sign guar_store_key : guar.

Lemma sound_draw {Y} (f : nat -> Y) : guar stays_sound (Pki.draw f).
Proof. apply guar_act. intros w. split; [exact (fun Hw => Hw) | simpl; lia]. Qed.
#[export] Hint Resolve sound_draw : guar.

End CaFacts.
