(* ===== verification/AcmeFacts.v ===== *)
(** * What ACME requests can and cannot do

    The guarantees of the ACME server that hold whatever requests run at the
    same time, statement by statement, on any number of replicas: an order
    yields at most one certificate, a credential never binds more accounts than
    its cap.  Then the functional behaviour of a finalize: whose order, in what
    state, and for which names a certificate can be issued. *)

From S2P Require Import Prelude GoStrings Effects Models Schema SqlFacts Store AcmeStore Pki Sealing CaService CaFacts AcmePolicy AcmeService AcmeProtocol Sample.

Module AcmeFacts.
Import CaFacts.

(** ** What a finalize has checked when it claims an order *)

Section checks.
Context `{AcmeService.Wire} `{Ciphers} `{RowOrder}.
Context (cfg : CaService.Config) (master : string).
Context (sink : string -> string -> string -> string -> string -> prog world unit).
(** An invariant of the database, and what it says of every order. *)
Context (I : world -> Prop) (P : AcmeOrder.t -> Prop).
Context (HP : forall w o, I w -> o ∈ rows (w_db w AcmeOrders) -> P o).

Lemma returns_own_order orderID account :
  returns I (fun r => match r with
                      | Ok o => AcmeOrder.ID o = orderID /\ AcmeOrder.AccountID o = AcmeAccount.ID account /\ P o
                      | Err _ => True end)
    (AcmeService.own_order orderID account).
Proof.
  eapply returns_bind_err with (Q := fun o => AcmeOrder.ID o = orderID /\ P o); [| done |].
  - eapply returns_bind with (Q := fun r => match r with Ok o => AcmeOrder.ID o = orderID /\ P o | _ => True end).
    + apply returns_query_row; [done |]. intros w x Hw Hx. apply List.find_some in Hx as [Hin Hx].
      split; [by apply Z.eqb_eq | by eapply HP, list_elem_of_In].
    + by intros [o | e].
  - intros o [Ho HPo]. simpl. by destruct (Z.eqb_spec (AcmeOrder.AccountID o) (AcmeAccount.ID account)).
Qed.

(** The payload was signed by the key of a valid account, for this URL. *)
Definition signed_by (body url payload : string) (account : AcmeAccount.t) : Prop :=
  exists p jwk,
    AcmeService.ParseJWS body = Ok p /\ AcmeService.pj_URL p = url /\
    AcmeService.account_id (AcmeService.pj_KeyID p) = Some (AcmeAccount.ID account) /\
    AcmeAccount.Status account = AcmeStatusValid /\
    AcmeService.jwk_unmarshal (AcmeAccount.JWKJSON account) = Ok jwk /\
    AcmeService.Verify p jwk = Ok payload.

Lemma returns_ResolveAccount kid :
  returns I (fun r => match r with
                    | Ok a => AcmeService.account_id kid = Some (AcmeAccount.ID a) /\ AcmeAccount.Status a = AcmeStatusValid
                    | Err _ => True end)
    (AcmeService.ResolveAccount kid).
Proof.
  unfold AcmeService.ResolveAccount. destruct (AcmeService.account_id kid) as [id |]; [| done].
  eapply returns_bind with (Q := fun r => match r with Ok a => AcmeAccount.ID a = id | _ => True end).
  - apply returns_query_row; [done |]. intros w a _ Ha.
    destruct (select1 _ _ _) as [a0 |] eqn:Hs; [| done]. injection Ha as <-.
    apply List.find_some in Hs as [_ Hs]. by apply Z.eqb_eq.
  - intros [a | e]; [| done]. intros <-. simpl. destruct (str_is _ _) eqn:Hst; [| done].
    split; [done | by apply str_is_eq].
Qed.

Lemma returns_authenticate body url :
  returns I (fun r => match r with Ok (payload, account) => signed_by body url payload account | Err _ => True end)
    (AcmeService.authenticate body url).
Proof.
  unfold AcmeService.authenticate.
  eapply returns_bind_err with (Q := fun p => AcmeService.ParseJWS body = Ok p); [| done |].
  { simpl. by destruct (AcmeService.ParseJWS body). }
  intros p Hp. eapply returns_bind_err with (Q := fun _ => AcmeService.pj_URL p = url); [| done |].
  { unfold AcmeService.checkURL. destruct (str_is _ _) eqn:E; [by apply str_is_eq | done]. }
  intros _ Hurl. eapply returns_bind_err with (Q := fun _ => True); [| done |].
  { eapply returns_mono; [apply returns_any |]. by intros []. }
  intros _ _. destruct (str_is (AcmeService.pj_KeyID p) ""); [done |].
  eapply returns_bind_err; [apply returns_ResolveAccount | done |].
  intros account [Hid Hst]. destruct (AcmeService.jwk_unmarshal _) as [jwk | e] eqn:Hjwk; [| done].
  eapply returns_bind_err with (Q := fun payload => AcmeService.Verify p jwk = Ok payload); [| done |].
  { simpl. by destruct (AcmeService.Verify p jwk). }
  intros payload Hv. apply returns_skip. intros _. simpl. by exists p, jwk.
Qed.

(** What holds of the order, the credential, the request and the common name
    a finalize goes on to issue with. *)
Definition admitted (id : Z) (body : string) (v : AcmeOrder.t * EABCred.t * string * string) : Prop :=
  let '(order, cred, csrPEM, cn) := v in
  exists payload account csr,
    signed_by body (AcmeService.finalizeURL cfg id) payload account /\
    AcmeOrder.ID order = id /\ AcmeOrder.AccountID order = AcmeAccount.ID account /\
    AcmeOrder.Status order = AcmeStatusReady /\
    EABCred.ID cred = AcmeAccount.EABID account /\ EABCred.Disabled cred = false /\
    AcmeService.finalize_csr payload = Ok (csrPEM, csr) /\
    AcmeService.csr_common_name order csr = Ok cn.

Lemma returns_activeCred account :
  returns I (fun r => match r with
                    | Ok c => EABCred.ID c = AcmeAccount.EABID account /\ EABCred.Disabled c = false
                    | Err _ => True end)
    (AcmeService.activeCred sink account).
Proof.
  unfold AcmeService.activeCred.
  eapply returns_bind_err with (Q := fun c => EABCred.ID c = AcmeAccount.EABID account); [| done |].
  - eapply returns_bind with (Q := fun r => match r with Ok c => EABCred.ID c = AcmeAccount.EABID account | _ => True end).
    + apply returns_query_row; [done |]. intros w x _ Hx. apply List.find_some in Hx as [_ Hx]. by apply Z.eqb_eq.
    + by intros [c | e].
  - intros c Hc. destruct (EABCred.Disabled c) eqn:Hd; [| done].
    by apply returns_skip.
Qed.

Lemma returns_finalize_checks id body :
  returns I (fun r => match r with Ok v => admitted id body v /\ P (fst (fst (fst v))) | Err _ => True end)
    (AcmeService.finalize_checks cfg sink id body).
Proof.
  unfold AcmeService.finalize_checks.
  eapply returns_bind_err; [apply returns_authenticate | done |].
  intros [payload account] Hsig. eapply returns_bind_err; [apply returns_own_order | done |].
  intros order (Hid & Hacc & HPo). destruct (str_is (AcmeOrder.Status order) _) eqn:Hst; [| done].
  apply str_is_eq in Hst. cbn [negb].
  apply returns_skip. intros now.
  destruct (_ <? now)%Z; [by apply returns_skip |].
  eapply returns_bind_err with (Q := fun rq => AcmeService.finalize_csr payload = Ok rq); [| done |].
  { simpl. by destruct (AcmeService.finalize_csr payload). }
  intros [csrPEM csr] Hcsr. destruct (AcmeService.csr_common_name order csr) as [cn | p] eqn:Hcn.
  - eapply returns_bind_err; [apply returns_activeCred | done |]. intros cred [Hc Hd].
    split; [| exact HPo]. exists payload, account, csr. by repeat split.
  - by apply returns_skip.
Qed.
End checks.

(** ** One certificate per order *)

Section one_certificate.
(** The orders under attack. *)
Context (ks : list Z).

Definition ready_in (o : AcmeOrder.t) : bool :=
  bool_decide (AcmeOrder.ID o ∈ ks) && str_is (AcmeOrder.Status o) AcmeStatusReady.

Definition certificates_in (d : db) : nat := length (rows (d Certificates)).
Definition ready_orders (d : db) : nat := affected ready_in (rows (d AcmeOrders)).

(** Their ids have been handed out already. *)
Definition handed_out (d : db) : Prop := Forall (fun k => k <= seq (d AcmeOrders))%Z ks.
Definition potential (d : db) : nat := certificates_in d + ready_orders d.

Definition calm (d d' : db) : Prop := handed_out d -> handed_out d' /\ potential d' <= potential d.

#[export] Instance calm_refl : Reflexive calm.
Proof. by intros d Hd. Qed.

Lemma calm_keeps d d' : keeps [Certificates; AcmeOrders] d d' -> calm d d'.
Proof.
  intros Hk Hd. unfold potential, certificates_in, ready_orders, handed_out in *.
  rewrite !Hk by set_solver. done.
Qed.

Lemma calm_certificates p f d : calm d (snd (update Certificates p f d)).
Proof.
  intros Hd. unfold potential, certificates_in, ready_orders, handed_out in *.
  rewrite update_eq, update_ne by done. simpl. by rewrite length_update_where.
Qed.

Lemma calm_orders p f d :
  (forall o : AcmeOrder.t, p o = true -> ready_in (f o) = false) -> calm d (snd (update AcmeOrders p f d)).
Proof.
  intros Hf Hd. unfold potential, certificates_in, ready_orders, handed_out in *.
  rewrite update_eq, update_ne by done. split; [done |]. cbn [rows].
  apply Nat.add_le_mono_l, affected_update_le. intros o Ho Hr. by rewrite (Hf o Ho) in Hr.
Qed.

Lemma calm_new_order o d : calm d (snd (insert AcmeOrders (AcmeStore.order_row o) d)).
Proof.
  intros Hd. unfold potential, certificates_in, ready_orders, handed_out in *.
  rewrite insert_eq, insert_ne by done. cbn [rows seq]. split.
  - eapply Forall_impl; [exact Hd | simpl; lia].
  - rewrite affected_snoc. unfold ready_in at 2. simpl.
    rewrite bool_decide_eq_false_2; [simpl; lia |].
    intros Hin. rewrite Forall_forall in Hd. specialize (Hd _ Hin). simpl in Hd. lia.
Qed.

Ltac calm_leaf :=
  first [ apply calm_keeps; frame
        | apply calm_certificates
        | apply calm_orders; intros; unfold ready_in; simpl; by rewrite andb_false_r
        | apply calm_new_order ].

Context `{AcmeService.Wire} `{Ciphers} `{RowOrder}.
Context (cfg : CaService.Config) (master : string).
Context (sink : string -> string -> string -> string -> string -> prog world unit).
Context (Hsink : forall a b c d e, guar (on_db (keeps [Certificates; AcmeOrders])) (sink a b c d e)).

Lemma calm_sink a b c d e : guar (on_db calm) (sink a b c d e).
Proof. eapply guar_weaken; [| apply Hsink]. intros s s'. apply calm_keeps. Qed.
#[local] Hint Resolve calm_sink : guar.

Lemma calm_create_authzs orderID now l : guar (on_db calm) (AcmeService.create_authzs orderID now l).
Proof. induction l as [| i l IH]; cbn [AcmeService.create_authzs]; guar_walk calm_leaf. Qed.
#[local] Hint Resolve calm_create_authzs : guar.

(** Every request but a finalize. *)
Lemma calm_serve rt r :
  rt <> AcmeProtocol.PostFinalize -> guar (on_db calm) (AcmeProtocol.serve cfg master sink rt r).
Proof. intros Hrt. destruct rt; try done; clear Hrt; guar_walk calm_leaf. Qed.

Notation spent wt e p := (spends (on_world handed_out) (on_world potential) wt e p).

(** Programs of calm statements keep the credit they are given. *)
Lemma spends_calm {A} e (p : prog world A) : guar (on_db calm) p -> spent (fun _ => e) e p.
Proof. intros Hp. apply spends_neutral; [exact Hp | done]. Qed.

Lemma spends_calm_bind {A B} (wt : B -> nat) e (p : prog world A) (q : A -> prog world B) :
  guar (on_db calm) p -> (forall a, spent wt e (q a)) -> spent wt e (bind p q).
Proof. intros Hp Hq. eapply spends_bind; [by apply spends_calm | exact Hq]. Qed.

Lemma spends_done {A} e (p : prog world A) : guar (on_db calm) p -> spent (fun _ => 0) e p.
Proof. intros Hp. apply spends_neutral; [exact Hp | lia]. Qed.

Lemma claim_worth n :
  (match (Ok (Nat.eqb n 1) : result error bool) with Ok true => 1 | _ => 0 end) <= n.
Proof. destruct (Nat.eqb_spec n 1); simpl; lia. Qed.

(** Claiming an order of [ks] takes it out of the ready ones: a successful
    claim is worth one certificate. *)
Lemma spends_claim k :
  k ∈ ks -> spent (fun r => match r with Ok true => 1 | _ => 0 end) 0 (AcmeStore.ClaimAcmeOrderForFinalize k).
Proof.
  intros Hk. apply spends_sql; [simpl; lia |]. intros d Hd _.
  unfold potential, certificates_in, ready_orders, handed_out in *.
  rewrite update_eq, update_ne by done. cbn [rows seq]. split; [done |].
  set (p := fun o => AcmeStore.order_id k o && str_is (AcmeOrder.Status o) AcmeStatusReady).
  assert (affected ready_in (update_where p (AcmeOrder.set_Status AcmeStatusProcessing) (rows (d AcmeOrders)))
          + affected p (rows (d AcmeOrders)) = affected ready_in (rows (d AcmeOrders))) as E.
  { apply affected_update_drop. intros o [Hid Hst]%andb_true_iff. unfold ready_in, AcmeStore.order_id in *. simpl.
    rewrite andb_false_r, Hst. apply Z.eqb_eq in Hid as ->. by rewrite bool_decide_eq_true_2. }
  exists (affected p (rows (d AcmeOrders))). split; [| apply claim_worth].
  rewrite Nat.add_0_r, <- Nat.add_assoc. apply Nat.add_le_mono_l. exact (Nat.eq_le_incl _ _ E).
Qed.

(** Storing a certificate costs the credit. *)
Lemma spends_CreateCertificate c : spent (fun _ => 0) 1 (Store.CreateCertificate c).
Proof.
  apply spends_calm_bind; [guar_walk calm_leaf |]. intros created.
  apply spends_sql.
  - intros e. apply spends_done. guar_walk calm_leaf.
  - intros d Hd _. unfold potential, certificates_in, ready_orders, handed_out in *.
    rewrite insert_eq, insert_ne by done. cbn [rows seq]. split; [done |].
    exists 0. rewrite length_app. split; [simpl; lia |]. apply spends_done. guar_walk calm_leaf.
Qed.

Lemma spends_Issue in_ : spent (fun _ => 0) 1 (CaService.Issue cfg master sink in_).
Proof.
  unfold CaService.Issue.
  apply spends_calm_bind; [auto with guar |]. intros [[[[ca cert] key] profile] | e]; [| simpl; lia].
  apply spends_calm_bind; [auto with guar |]. intros [m | e]; [| simpl; lia].
  destruct (CaService.san_override in_) as [sans | e]; [| simpl; lia].
  apply spends_calm_bind; [auto with guar |]. intros [res | e]; [| simpl; lia].
  apply spends_calm_bind; [auto with guar |]. intros [keyEnc | e]; [| simpl; lia].
  eapply spends_bind; [apply spends_CreateCertificate |]. intros [saved | e]; [| simpl; lia].
  apply spends_done. guar_walk calm_leaf.
Qed.

Lemma spends_finalize_issue order cred csrPEM cn :
  spent (fun _ => 0) 1 (AcmeService.finalize_issue cfg master sink order cred csrPEM cn).
Proof.
  unfold AcmeService.finalize_issue. apply spends_calm_bind; [guar_walk calm_leaf |]. intros now.
  eapply spends_bind; [apply spends_Issue |]. intros r. apply spends_done. guar_walk calm_leaf.
Qed.

Lemma calm_finalize_checks id body : guar (on_db calm) (AcmeService.finalize_checks cfg sink id body).
Proof. guar_walk calm_leaf. Qed.

Lemma spends_Finalize id body : id ∈ ks -> spent (fun _ => 0) 0 (AcmeService.Finalize cfg master sink id body).
Proof.
  intros Hid. unfold AcmeService.Finalize.
  eapply spends_bind_returns; [apply spends_calm, calm_finalize_checks | by apply returns_finalize_checks with (P := fun _ => True) |].
  intros [[[[order cred] csrPEM] cn] | p]; [| simpl; lia]. intros [(payload & account & csr & _ & Ho & _) _].
  eapply spends_bind.
  { eapply spends_bind; [apply (spends_claim (AcmeOrder.ID order)); by rewrite Ho |].
    intros r. instantiate (1 := fun r => match r with Ok true => 1 | _ => 0 end).
    by destruct r as [[|] | e]; simpl. }
  intros [[|] | e]; [| simpl; lia | simpl; lia]. eapply spends_mono; [| apply spends_finalize_issue]. done.
Qed.

(** The requests whose finalizes name orders of [ks]. *)
Definition aims (r : AcmeProtocol.route * AcmeProtocol.HttpRequest) : Prop :=
  fst r = AcmeProtocol.PostFinalize -> forall id, AcmeProtocol.pathIDACME (snd r) = Ok id -> id ∈ ks.

Lemma spends_serve r :
  aims r -> spent (fun _ => 0) 0 (AcmeProtocol.serve cfg master sink (fst r) (snd r)).
Proof.
  destruct r as [rt r]. unfold aims. cbn [fst snd]. intros Haims.
  destruct (decide (rt = AcmeProtocol.PostFinalize)) as [-> | Hrt]; [| by apply spends_done, calm_serve].
  cbn [AcmeProtocol.serve]. unfold AcmeProtocol.handleACMEFinalize, AcmeProtocol.answer.
  eapply spends_bind with (wt1 := fun _ => 0); [| intros a; apply spends_done; guar_walk calm_leaf].
  unfold AcmeProtocol.with_id, AcmeProtocol.with_body.
  destruct (AcmeProtocol.pathIDACME r) as [id | p] eqn:Hid; [| simpl; lia].
  destruct (AcmeProtocol.readACMEBody r) as [body | p]; [| simpl; lia].
  eapply spends_bind; [apply spends_Finalize; auto |]. intros [o | p]; simpl; lia.
Qed.

(** C1.  Whatever ACME requests are served at the same time, and however
    their statements interleave on however many replicas: if every finalize
    among them names one of the existing orders [ks], the certificates stored
    are at most those there were plus one for each order of [ks] that was
    ready at the start.  Two finalizes of one order never yield two
    certificates. *)
Theorem one_certificate_per_order w w' reqs ps :
  Forall aims reqs -> handed_out (w_db w) ->
  rtc pstep (w, map (fun r => AcmeProtocol.serve cfg master sink (fst r) (snd r)) reqs) (w', ps) ->
  certificates_in (w_db w') <= certificates_in (w_db w) + ready_orders (w_db w).
Proof.
  intros Haims Hout Hsteps.
  assert (Forall2 (fun e p => spent (fun _ => 0) e p) (replicate (length reqs) 0)
            (map (fun r => AcmeProtocol.serve cfg master sink (fst r) (snd r)) reqs)) as Hpool.
  { rewrite <- (List.length_map (fun r => AcmeProtocol.serve cfg master sink (fst r) (snd r)) reqs).
    apply Forall2_replicate_spends, Forall_map. eapply Forall_impl; [exact Haims |]. exact spends_serve. }
  destruct (spends_pool (on_world handed_out) (on_world potential) _ (potential (w_db w)) w w' _ ps _ Hout Hpool) as [_ Hle]; [| exact Hsteps |].
  { by rewrite total_replicate_0, Nat.add_0_r. }
  unfold on_world, potential in Hle. lia.
Qed.
End one_certificate.

(** Two finalizes of the sample order, served by two replicas in lockstep. *)
Definition finalize_request (nonce : string) : AcmeProtocol.route * AcmeProtocol.HttpRequest :=
  (AcmeProtocol.PostFinalize,
   AcmeProtocol.mkRequest "POST" "1" (Ok (Sample.signed nonce "https://ca/acme/order/1/finalize" "a.test;a.test"))).

Definition race (reqs : list (AcmeProtocol.route * AcmeProtocol.HttpRequest)) : world * list (prog world AcmeProtocol.Response) :=
  schedule (List.concat (replicate 45 (List.seq 0 (length reqs))))
    (Sample.start, map (fun r => AcmeProtocol.serve Sample.cfg Sample.master Sample.no_sink (fst r) (snd r)) reqs).

Lemma aims_sample n : aims [1%Z] (finalize_request n).
Proof. intros _ id Hid. injection Hid as <-. constructor. Qed.

Lemma one_certificate_per_order_witness :
  let final := race [finalize_request "n1"; finalize_request "n2"] in
  certificates_in (w_db (fst final)) = 1 /\
  certificates_in (w_db (fst final)) <= certificates_in (w_db Sample.start) + ready_orders [1%Z] (w_db Sample.start).
Proof.
  split; [vm_compute; reflexivity |].
  refine (one_certificate_per_order [1%Z] Sample.cfg Sample.master Sample.no_sink _ Sample.start _
    [finalize_request "n1"; finalize_request "n2"] (snd (race [finalize_request "n1"; finalize_request "n2"])) _ _ _).
  - intros a b c d e. exact Logic.I.
  - constructor; [apply aims_sample | constructor; [apply aims_sample | constructor]].
  - constructor; [vm_compute; discriminate | constructor].
  - rewrite <- surjective_pairing. apply schedule_rtc.
Defined.

End AcmeFacts.
