(* ===== verification/AcmeScope.v ===== *)
(** * The names an ACME certificate carries

    NewOrder admits only identifiers the credential of the account allows, by
    the rows of the store; Finalize issues only for the identifiers of an order
    of the account.  Put together: whatever ACME requests are interleaved,
    each certificate they add to the store names exactly the identifiers of an
    order of the store, all within the domains of the enabled credential its
    account was registered with, its subject holds nothing but a common name,
    and it is not an authority. *)

From S2P Require Import Prelude GoStrings Effects Models Schema SqlFacts Store AcmeStore Pki Sealing CaService CaFacts AcmePolicy AcmeService AcmeProtocol Sample AcmeFacts.

Module AcmeScope.
Import CaFacts AcmeFacts.

Section scope.
Context `{AcmeService.Wire} `{Ciphers} `{RowOrder}.
Context (cfg : CaService.Config) (master : string).
Context (sink : string -> string -> string -> string -> string -> prog world unit).
Context (Hsink : forall a b c d e,
  guar (on_db (keeps [Certificates; AcmeOrders; AcmeAccounts; AcmeEabCreds])) (sink a b c d e)).

(** ** Orders in scope *)

Definition permitted (cred : EABCred.t) (i : AcmeIdentifier.t) : Prop :=
  AcmeIdentifier.Type_ i = "dns"%string /\ Policy.validDNSIdentifier (AcmeIdentifier.Value i) = None /\
  Policy.domainAllowed (EABCred.AllowedDomains cred) (AcmeIdentifier.Value i) = true.

(** The account [aid] of the store was registered with an enabled credential
    of the store that permits each of the identifiers. *)
Definition entitled (aid : Z) (ids : list AcmeIdentifier.t) (d : db) : Prop :=
  ids <> [] /\
  exists a c, a ∈ rows (d AcmeAccounts) /\ AcmeAccount.ID a = aid /\
    c ∈ rows (d AcmeEabCreds) /\ EABCred.ID c = AcmeAccount.EABID a /\ EABCred.Disabled c = false /\
    Forall (permitted c) ids.

Definition order_in_scope (d : db) (o : AcmeOrder.t) : Prop := entitled (AcmeOrder.AccountID o) (AcmeOrder.Identifiers o) d.

Definition orders_in_scope (d : db) : Prop := forall o, o ∈ rows (d AcmeOrders) -> order_in_scope d o.

Lemma order_identifiers_permitted cred l ids :
  AcmeService.order_identifiers cred l = Ok ids -> Forall (permitted cred) ids /\ (l <> [] -> ids <> []).
Proof.
  revert ids. induction l as [| i l IH]; intros ids; simpl; [intros [= <-]; by split |].
  rewrite result_bind_Ok. intros (j & Hj & Hrest). rewrite result_bind_Ok in Hrest.
  destruct Hrest as (js & Hjs & [= <-]). destruct (IH js Hjs) as [Hall _]. split; [| done].
  constructor; [| done]. unfold AcmeService.order_identifier in Hj.
  destruct (negb _); [done |]. destruct (str_is _ ""); [done |].
  destruct (Policy.validDNSIdentifier _) eqn:Hv; [done |].
  destruct (Policy.domainAllowed _ _) eqn:Hd; [| done]. injection Hj as <-. by repeat split.
Qed.

(** ** Certificates that name an order's identifiers *)

Definition values (o : AcmeOrder.t) : list string := map AcmeIdentifier.Value (AcmeOrder.Identifiers o).

Definition named_for (o : AcmeOrder.t) (c : Certificate.t) : Prop :=
  Certificate.CommonName c ∈ values o /\
  Certificate.Subject c = ("CN=" +:+ Certificate.CommonName c)%go /\
  (forall san, san ∈ Certificate.SANs_ c -> exists n, san = ("DNS:" +:+ n)%go /\ Str.ToLower n ∈ values o) /\
  (forall v, v ∈ values o -> exists n, ("DNS:" +:+ n)%go ∈ Certificate.SANs_ c /\ Str.ToLower n = v) /\
  Certificate.Profile c <> Pki.ProfileIntermCA.

(** The certificate is for an order of the store, in scope. *)
Definition issued_in_scope (d : db) (c : Certificate.t) : Prop :=
  exists o, o ∈ rows (d AcmeOrders) /\ order_in_scope d o /\ named_for o c.

(** Two rows of the same names (a revocation changes the others). *)
Definition same_names (c c' : Certificate.t) : Prop :=
  Certificate.CommonName c' = Certificate.CommonName c /\ Certificate.Subject c' = Certificate.Subject c /\
  Certificate.SANs_ c' = Certificate.SANs_ c /\ Certificate.Profile c' = Certificate.Profile c.

Definition names_kept (d d' : db) : Prop :=
  forall c', c' ∈ rows (d' Certificates) ->
    (exists c, c ∈ rows (d Certificates) /\ same_names c c') \/ issued_in_scope d' c'.

(** ** What the requests leave standing *)

(** Each row of the one table is in the other, with what [same] compares. *)
Definition lasts {A} (same : A -> A -> Prop) (l l' : list A) : Prop := forall x, x ∈ l -> exists x', x' ∈ l' /\ same x x'.

Definition same_account (a a' : AcmeAccount.t) : Prop := AcmeAccount.ID a' = AcmeAccount.ID a /\ AcmeAccount.EABID a' = AcmeAccount.EABID a.
Definition same_cred (c c' : EABCred.t) : Prop :=
  EABCred.ID c' = EABCred.ID c /\ EABCred.AllowedDomains c' = EABCred.AllowedDomains c /\ EABCred.Disabled c' = EABCred.Disabled c.
Definition same_order (o o' : AcmeOrder.t) : Prop :=
  AcmeOrder.ID o' = AcmeOrder.ID o /\ AcmeOrder.AccountID o' = AcmeOrder.AccountID o /\ AcmeOrder.Identifiers o' = AcmeOrder.Identifiers o.

Record persist (d d' : db) : Prop := {
  accounts_last : lasts same_account (rows (d AcmeAccounts)) (rows (d' AcmeAccounts));
  creds_last : lasts same_cred (rows (d AcmeEabCreds)) (rows (d' AcmeEabCreds));
  orders_last : lasts same_order (rows (d AcmeOrders)) (rows (d' AcmeOrders)) }.

Section lasting.
Context {A : Type} (same : A -> A -> Prop) `{!Reflexive same, !Transitive same}.

#[local] Instance lasts_refl : Reflexive (lasts same).
Proof. intros l x Hx. by exists x. Qed.

#[local] Instance lasts_trans : Transitive (lasts same).
Proof.
  intros l1 l2 l3 H12 H23 x Hx. destruct (H12 x Hx) as (y & Hy & Hxy). destruct (H23 y Hy) as (z & Hz & Hyz).
  exists z. split; [done | by etrans].
Qed.

Lemma lasts_update (p : A -> bool) f l : (forall x, same x (f x)) -> lasts same l (update_where p f l).
Proof.
  intros Hf x Hx. exists (if p x then f x else x). split; [| by destruct (p x)].
  apply elem_of_update_where. by exists x.
Qed.

Lemma lasts_app l l' : lasts same l (l ++ l').
Proof. intros x Hx. exists x. split; [by apply elem_of_app; left | done]. Qed.
End lasting.

#[local] Instance same_account_refl : Reflexive same_account. Proof. by split. Qed.
#[local] Instance same_account_trans : Transitive same_account. Proof. intros x y z [] []. split; congruence. Qed.
#[local] Instance same_cred_refl : Reflexive same_cred. Proof. by repeat split. Qed.
#[local] Instance same_cred_trans : Transitive same_cred. Proof. intros x y z (? & ? & ?) (? & ? & ?). repeat split; congruence. Qed.
#[local] Instance same_order_refl : Reflexive same_order. Proof. by repeat split. Qed.
#[local] Instance same_order_trans : Transitive same_order. Proof. intros x y z (? & ? & ?) (? & ? & ?). repeat split; congruence. Qed.
#[local] Existing Instances lasts_refl lasts_trans.

#[local] Instance persist_refl : Reflexive persist. Proof. by split. Qed.
#[local] Instance persist_trans : Transitive persist. Proof. intros d1 d2 d3 [] []. by split; etrans. Qed.

Lemma permitted_same c c' i : same_cred c c' -> permitted c i -> permitted c' i.
Proof. unfold permitted. by intros (_ & -> & _). Qed.

Lemma entitled_persist d d' aid ids : persist d d' -> entitled aid ids d -> entitled aid ids d'.
Proof.
  intros [Ha Hc _] (Hne & a & c & Hin & Haid & Hcin & Hcid & Hdis & Hall). split; [done |].
  destruct (Ha a Hin) as (a' & Hin' & Hi & He). destruct (Hc c Hcin) as (c' & Hcin' & Hs). exists a', c'.
  pose proof Hs as (Hci & _ & Hcd). split_and!; [done | congruence | done | congruence | congruence |].
  eapply Forall_impl; [exact Hall |]. intros i. by apply permitted_same.
Qed.

Lemma issued_persist d d' c c' : persist d d' -> same_names c c' -> issued_in_scope d c -> issued_in_scope d' c'.
Proof.
  intros Hp (Hcn & Hs & Hsan & Hprof) (o & Ho & Hscope & Hnamed).
  destruct (orders_last _ _ Hp o Ho) as (o' & Ho' & _ & Hacc & Hids). exists o'. split; [done |].
  unfold order_in_scope, named_for, values in *. rewrite Hacc, Hids, Hcn, Hs, Hsan, Hprof.
  split; [by eapply entitled_persist | done].
Qed.

(** What a step of the requests keeps. *)
Definition stands (d d' : db) : Prop := persist d d' /\ names_kept d d'.

#[local] Instance stands_refl : Reflexive stands.
Proof. intros d. split; [done |]. intros c Hc. left. by exists c. Qed.
#[local] Instance stands_trans : Transitive stands.
Proof.
  intros d1 d2 d3 [P12 H12] [P23 H23]. split; [by etrans |]. intros c3 Hc3.
  destruct (H23 c3 Hc3) as [(c2 & Hc2 & Hs) | ?]; [| by right].
  destruct (H12 c2 Hc2) as [(c1 & Hc1 & Hs') | ?]; [| right; by eapply issued_persist].
  left. exists c1. split; [done |]. unfold same_names in *. intuition congruence.
Qed.

Definition scoped_step (d d' : db) : Prop := orders_in_scope d -> orders_in_scope d' /\ stands d d'.

#[local] Instance scoped_step_refl : Reflexive scoped_step.
Proof. intros d Hd. by split. Qed.

(** A step after which the orders and the certificates are as they were, their
    accounts and credentials still there. *)
Lemma step_persist d d' :
  d' AcmeOrders = d AcmeOrders -> d' Certificates = d Certificates -> persist d d' -> scoped_step d d'.
Proof.
  intros Ho Hc Hp Hd. split.
  - intros o Hin. rewrite Ho in Hin. by eapply entitled_persist, Hd.
  - split; [done |]. unfold names_kept. rewrite Hc. intros c Hin. left. by exists c.
Qed.

Lemma step_keeps d d' : keeps [Certificates; AcmeOrders; AcmeAccounts; AcmeEabCreds] d d' -> scoped_step d d'.
Proof. intros Hk. apply step_persist; [by apply Hk; set_solver.. |]. split; by rewrite Hk by set_solver. Qed.

Lemma step_accounts p (f : AcmeAccount.t -> AcmeAccount.t) d :
  (forall a, same_account a (f a)) -> scoped_step d (snd (update AcmeAccounts p f d)).
Proof.
  intros Hf. apply step_persist; [by rewrite update_ne.. |]. split; [| by rewrite update_ne..].
  rewrite update_eq. by apply lasts_update; [apply _ |].
Qed.

Lemma step_new_account r d : scoped_step d (snd (insert AcmeAccounts r d)).
Proof.
  apply step_persist; [by rewrite insert_ne.. |]. split; [| by rewrite insert_ne..].
  rewrite insert_eq. by apply lasts_app; apply _.
Qed.

Lemma step_creds p (f : EABCred.t -> EABCred.t) d :
  (forall c, same_cred c (f c)) -> scoped_step d (snd (update AcmeEabCreds p f d)).
Proof.
  intros Hf. apply step_persist; [by rewrite update_ne.. |]. split; [by rewrite update_ne | | by rewrite update_ne].
  rewrite update_eq. by apply lasts_update; [apply _ |].
Qed.

Lemma step_certificates p (f : Certificate.t -> Certificate.t) d :
  (forall c, same_names c (f c)) -> scoped_step d (snd (update Certificates p f d)).
Proof.
  intros Hf Hd. assert (persist d (snd (update Certificates p f d))) as Hp by (split; by rewrite update_ne).
  split; [intros o; rewrite update_ne by done; intros Ho; by eapply entitled_persist, Hd |]. split; [done |].
  unfold names_kept. rewrite update_eq. cbn [rows]. intros c' (c & Hc & ->)%elem_of_update_where. left. exists c.
  split; [done |]. destruct (p c); [apply Hf | by repeat split].
Qed.

Lemma step_orders p (f : AcmeOrder.t -> AcmeOrder.t) d :
  (forall o, same_order o (f o)) -> scoped_step d (snd (update AcmeOrders p f d)).
Proof.
  intros Hf Hd. assert (persist d (snd (update AcmeOrders p f d))) as Hp.
  { split; [by rewrite update_ne.. |]. rewrite update_eq. by apply lasts_update; [apply _ |]. }
  split; [| split; [done |]; unfold names_kept; rewrite update_ne by done; intros c Hc; left; by exists c].
  unfold orders_in_scope. rewrite update_eq. cbn [rows]. intros o' (o & Ho & ->)%elem_of_update_where.
  eapply entitled_persist; [exact Hp |]. specialize (Hd o Ho). destruct (p o); [| done].
  destruct (Hf o) as (_ & Ha & Hi). by rewrite Ha, Hi.
Qed.

(** An order may be added for what its account is entitled to. *)
Lemma step_new_order o d : entitled (AcmeOrder.AccountID o) (AcmeOrder.Identifiers o) d -> scoped_step d (snd (insert AcmeOrders (AcmeStore.order_row o) d)).
Proof.
  intros Ho Hd. assert (persist d (snd (insert AcmeOrders (AcmeStore.order_row o) d))) as Hp.
  { split; [by rewrite insert_ne.. |]. rewrite insert_eq. by apply lasts_app; apply _. }
  split; [| split; [done |]; unfold names_kept; rewrite insert_ne by done; intros c Hc; left; by exists c].
  unfold orders_in_scope. rewrite insert_eq. cbn [rows].
  intros o' [Ho' | ->%list_elem_of_singleton]%elem_of_app; (eapply entitled_persist; [exact Hp |]); [by apply Hd | done].
Qed.

(** A certificate may be added for a standing order in scope. *)
Lemma step_new_certificate c created d :
  issued_in_scope d (Store.cert_row c created 0) -> scoped_step d (snd (insert Certificates (Store.cert_row c created) d)).
Proof.
  intros Hc Hd. assert (persist d (snd (insert Certificates (Store.cert_row c created) d))) as Hp by (split; by rewrite insert_ne).
  split; [intros o; rewrite insert_ne by done; intros Ho; by eapply entitled_persist, Hd |]. split; [done |].
  unfold names_kept. rewrite insert_eq. cbn [rows]. intros c' [Hc' | ->%list_elem_of_singleton]%elem_of_app; [left; by exists c' |].
  right. by eapply issued_persist; [exact Hp | by repeat split | exact Hc].
Qed.

Ltac step_leaf :=
  first [ apply step_keeps; frame
        | apply step_certificates; by repeat split
        | apply step_orders; by repeat split
        | apply step_accounts; by split
        | apply step_creds; by repeat split
        | apply step_new_account ].

Lemma scoped_sink a b c d e : guar (on_db scoped_step) (sink a b c d e).
Proof. eapply guar_weaken; [| apply Hsink]. intros s s'. apply step_keeps. Qed.
#[local] Hint Resolve scoped_sink : guar.

Lemma scoped_create_authzs orderID now l : guar (on_db scoped_step) (AcmeService.create_authzs orderID now l).
Proof. induction l as [| i l IH]; cbn [AcmeService.create_authzs]; guar_walk step_leaf. Qed.
#[local] Hint Resolve scoped_create_authzs : guar.

Lemma scoped_serve rt r :
  rt <> AcmeProtocol.PostFinalize -> rt <> AcmeProtocol.PostNewOrder ->
  guar (on_db scoped_step) (AcmeProtocol.serve cfg master sink rt r).
Proof. intros Hf Hn. destruct rt; try done; clear Hf Hn; guar_walk step_leaf. Qed.

(** ** What a request learns, and what that allows it *)

Definition lasting (F : db -> Prop) : Prop := forall d d', persist d d' -> F d -> F d'.

Definition scoped {A} (p : prog world A) (w : world) : Prop := along (on_world orders_in_scope) (on_db stands) p w.
Definition knows {A} (Q : A -> db -> Prop) (p : prog world A) (w : world) : Prop :=
  rely (on_world orders_in_scope) (on_db stands) (fun a w' => Q a (w_db w')) p w.

(** A program whose steps are allowed wherever [F] holds. *)
Definition scoped_when (F : db -> Prop) {A} (p : prog world A) : Prop :=
  always (fun w => on_world orders_in_scope w /\ on_world F w) (on_db stands) p.
Definition step_when (F : db -> Prop) (d d' : db) : Prop := F d -> scoped_step d d'.

Lemma step_when_refl F : Reflexive (step_when F).
Proof. by intros d _. Qed.
#[local] Existing Instance step_when_refl.

Lemma when_guar F {A} (p : prog world A) : lasting F -> guar (on_db (step_when F)) p -> scoped_when F p.
Proof.
  intros HF Hp. apply always_guar. eapply guar_weaken; [| exact Hp]. intros w w' Hw [Hd HFd].
  destruct (Hw HFd Hd) as [Hd' Hs]. split; [| done]. split; [done |]. eapply HF; [apply Hs | done].
Qed.

Lemma when_step F {A} (p : prog world A) : guar (on_db scoped_step) p -> guar (on_db (step_when F)) p.
Proof. apply guar_weaken. by intros w w' Hw _. Qed.

Lemma when_sink F a b c d e : guar (on_db (step_when F)) (sink a b c d e).
Proof. apply when_step, scoped_sink. Qed.
Lemma when_create_authzs F orderID now l : guar (on_db (step_when F)) (AcmeService.create_authzs orderID now l).
Proof. apply when_step, scoped_create_authzs. Qed.
#[local] Hint Resolve when_sink when_create_authzs : guar.

Lemma when_scoped F {A} (p : prog world A) w : lasting F -> F (w_db w) -> scoped_when F p -> scoped p w.
Proof.
  intros HF Hw Hp. refine (along_always _ _ (on_world F) p w _ Hw Hp). intros s s' [Hs _]. by apply HF.
Qed.

Lemma when_then F {A B} (p : prog world A) (q : A -> prog world B) :
  lasting F -> guar (on_db scoped_step) p -> (forall a, scoped_when F (q a)) -> scoped_when F (bind p q).
Proof. intros HF Hp Hq. apply always_then; [| exact Hq]. by apply when_guar, when_step. Qed.

Lemma when_bind F {A B} (Q : A -> Prop) (p : prog world A) (q : A -> prog world B) :
  lasting F -> guar (on_db scoped_step) p -> returns (fun _ => True) Q p -> (forall a, Q a -> scoped_when F (q a)) ->
  scoped_when F (bind p q).
Proof.
  intros HF Hp Hr Hq. eapply always_bind; [by apply when_guar, when_step | | exact Hq].
  clear Hp Hq. induction p as [a | X f k IH]; simpl in *; eauto.
Qed.

Lemma scoped_guar {A} (p : prog world A) w : guar (on_db scoped_step) p -> scoped p w.
Proof. apply along_guar. Qed.

Lemma scoped_learn {A B} (P : A -> db -> Prop) (p : prog world A) (q : A -> prog world B) w :
  guar (on_db scoped_step) p -> knows P p w -> (forall a w', P a (w_db w') -> scoped (q a) w') -> scoped (bind p q) w.
Proof.
  intros Hp Hk Hq. apply along_bind; [by apply scoped_guar |]. eapply rely_mono; [exact Hk |]. intros a w'. apply Hq.
Qed.

Lemma knows_returns {A} (Q : A -> Prop) (p : prog world A) w :
  returns (on_world orders_in_scope) Q p -> knows (fun a _ => Q a) p w.
Proof. apply (rely_returns _ _ Q). Qed.

Lemma knows_any {A} (p : prog world A) w : knows (fun _ _ => True) p w.
Proof. apply (knows_returns (fun _ => True)), returns_any. Qed.

Lemma knows_and {A} (Q Q' : A -> db -> Prop) (p : prog world A) w :
  knows Q p w -> knows Q' p w -> knows (fun a d => Q a d /\ Q' a d) p w.
Proof. apply rely_and. Qed.

Lemma scoped_then {A B} (p : prog world A) (q : A -> prog world B) w :
  guar (on_db scoped_step) p -> (forall a w', scoped (q a) w') -> scoped (bind p q) w.
Proof. intros Hp Hq. eapply (scoped_learn (fun _ _ => True)); [done | apply knows_any | auto]. Qed.

Lemma knows_keep F {A} (Q : A -> db -> Prop) (p : prog world A) w :
  lasting F -> F (w_db w) -> guar (on_db scoped_step) p -> knows Q p w -> knows (fun a d => F d /\ Q a d) p w.
Proof.
  intros HF Hw Hp Hk. refine (rely_keep _ _ (on_world F) _ p w _ Hw Hp Hk). intros s s' [Hs _]. by apply HF.
Qed.

(** [x <-! p ;; k]: what [p] is known to give, the fact [F] kept meanwhile. *)
Lemma knows_bind F {E A B} (P : A -> db -> Prop) (Q : result E B -> db -> Prop) (p : prog world (result E A))
    (k : A -> prog world (result E B)) w :
  lasting F -> F (w_db w) -> guar (on_db scoped_step) p ->
  knows (fun r d => match r with Ok a => P a d | Err _ => True end) p w ->
  (forall e d, Q (Err e) d) -> (forall a w', F (w_db w') -> P a (w_db w') -> knows Q (k a) w') -> knows Q (x <-! p ;; k x) w.
Proof.
  intros HF Hw Hp Hk He Hq. apply rely_bind. eapply rely_mono; [by apply (knows_keep F); [| | | exact Hk] |].
  intros [a | e] w' [HFw HP]; [by apply Hq | apply He].
Qed.

Lemma knows_skip F {A B} (Q : B -> db -> Prop) (p : prog world A) (k : A -> prog world B) w :
  lasting F -> F (w_db w) -> guar (on_db scoped_step) p -> (forall a w', F (w_db w') -> knows Q (k a) w') -> knows Q (bind p k) w.
Proof.
  intros HF Hw Hp Hq. apply rely_bind. eapply rely_mono.
  - apply (knows_keep F (fun _ _ => True)); [done.. | apply knows_any].
  - intros a w' [HFw _]. by apply Hq.
Qed.

Lemma knows_query_row {X} (f : db -> option X) (Q : result error X -> db -> Prop) w :
  (forall e d, Q (Err e) d) -> (forall d x, orders_in_scope d -> f d = Some x -> Q (Ok x) d) -> knows Q (query_row f) w.
Proof.
  intros He Hok s _ Hs. destruct s as [d c ts [| [m |] fs] n]; simpl; try (apply He); destruct (f d) eqn:E; simpl; auto.
Qed.

Lemma knows_or_problem {X} (f : error -> Problem.t) (p : M X) (P : X -> db -> Prop) w :
  knows (fun r d => match r with Ok x => P x d | Err _ => True end) p w ->
  knows (fun r d => match r with Ok x => P x d | Err _ => True end) (AcmeService.or_problem f p) w.
Proof. intros Hp. apply rely_bind. eapply rely_mono; [exact Hp |]. by intros [x | e] w'. Qed.

(** ** Placing an order *)

Definition anything (d : db) : Prop := True.
Lemma anything_lasts : lasting anything. Proof. done. Qed.

(** The account of the store, with the credential it was registered with. *)
Definition registered (aid eab : Z) (d : db) : Prop :=
  exists a, a ∈ rows (d AcmeAccounts) /\ AcmeAccount.ID a = aid /\ AcmeAccount.EABID a = eab.

Lemma lasting_registered aid eab : lasting (registered aid eab).
Proof.
  intros d d' Hp (a & Ha & Hi & He). destruct (accounts_last _ _ Hp a Ha) as (a' & Ha' & Hi' & He').
  exists a'. split_and!; [done | congruence..].
Qed.

(** That credential is enabled, with the domains of [cred]. *)
Definition granted (eab : Z) (cred : EABCred.t) (d : db) : Prop :=
  exists c, c ∈ rows (d AcmeEabCreds) /\ EABCred.ID c = eab /\ EABCred.Disabled c = false /\
    EABCred.AllowedDomains c = EABCred.AllowedDomains cred.

Lemma lasting_entitled aid ids : lasting (entitled aid ids).
Proof. intros d d'. apply entitled_persist. Qed.
#[local] Hint Resolve anything_lasts lasting_registered lasting_entitled : core.

Lemma granted_entitled aid eab cred ids d :
  registered aid eab d -> granted eab cred d -> ids <> [] -> Forall (permitted cred) ids -> entitled aid ids d.
Proof.
  intros (a & Ha & Hi & He) (c & Hc & Hci & Hd & Hdom) Hne Hall. split; [done |]. exists a, c.
  split_and!; [done | done | done | congruence | done |]. eapply Forall_impl; [exact Hall |].
  intros i. unfold permitted. by rewrite Hdom.
Qed.

Lemma knows_authenticate body url w :
  knows (fun r d => match r with Ok (_, a) => registered (AcmeAccount.ID a) (AcmeAccount.EABID a) d | Err _ => True end)
    (AcmeService.authenticate body url) w.
Proof.
  unfold AcmeService.authenticate.
  do 3 (apply (knows_bind anything (fun _ _ => True)); [done | done | guar_walk step_leaf | | done |];
    [eapply rely_mono; [apply knows_any | by intros []] | intros ? ? _ _]).
  destruct (str_is _ ""); [done |].
  apply (knows_bind anything (fun a => registered (AcmeAccount.ID a) (AcmeAccount.EABID a)));
    [done | done | guar_walk step_leaf | | done |].
  - unfold AcmeService.ResolveAccount. destruct (AcmeService.account_id _) as [id |]; [| done].
    apply rely_bind. eapply rely_mono.
    + apply (knows_query_row _ (fun r d => match r with Ok a => registered (AcmeAccount.ID a) (AcmeAccount.EABID a) d | Err _ => True end)); [done |].
      intros d acct _ Ha. destruct (select1 _ _ _) as [row |] eqn:Hs; [| done]. injection Ha as <-.
      apply List.find_some in Hs as [Hin _]. exists row. split; [by apply list_elem_of_In | done].
    + intros [acct | e] w1; [| done]. simpl. by destruct (str_is _ _).
  - intros account w1 _ Ha. destruct (AcmeService.jwk_unmarshal _) as [jwk | e]; [| done].
    destruct (AcmeService.malformed_of (AcmeService.Verify _ _)) as [payload | e]; [| done]. cbn [bind].
    by eapply knows_skip; [by apply lasting_registered | exact Ha | guar_walk step_leaf |].
Qed.

Lemma knows_activeCred account w :
  knows (fun r d => match r with Ok c => granted (AcmeAccount.EABID account) c d | Err _ => True end)
    (AcmeService.activeCred sink account) w.
Proof.
  unfold AcmeService.activeCred.
  apply (knows_bind anything (fun c d => exists c', c' ∈ rows (d AcmeEabCreds) /\ EABCred.ID c' = AcmeAccount.EABID account /\ c' = c));
    [done | done | guar_walk step_leaf | | done |].
  - apply knows_or_problem, knows_query_row; [done |]. intros d x _ Hx. apply List.find_some in Hx as [Hin Hx].
    exists x. split; [by apply list_elem_of_In |]. by apply Z.eqb_eq in Hx.
  - intros c w1 _ (c' & Hin & Hid & ->). destruct (EABCred.Disabled c) eqn:Hd; [| by exists c].
    by eapply (knows_skip anything); [| | guar_walk step_leaf |].
Qed.

Lemma scoped_NewOrder body w : scoped (AcmeService.NewOrder cfg sink body) w.
Proof.
  unfold AcmeService.NewOrder. eapply scoped_learn; [guar_walk step_leaf | apply knows_authenticate |].
  intros [[payload account] | p] w1; [| done]. intros Hacc. cbn [bind].
  destruct (AcmeService.malformed_of _) as [req | p]; [| done].
  destruct (AcmeService.no_Identifiers req) as [| i l] eqn:Hl; [done |].
  eapply scoped_learn; [guar_walk step_leaf | eapply knows_keep; [| exact Hacc | guar_walk step_leaf | apply knows_activeCred]; done |].
  intros [cred | p] w2; [| done]. intros [Hacc2 Hcred]. cbn [bind].
  destruct (AcmeService.order_identifiers cred (i :: l)) as [ids | p] eqn:Hids; [| done].
  destruct (order_identifiers_permitted _ _ _ Hids) as [Hall Hne].
  eapply when_scoped; [apply lasting_entitled | by eapply granted_entitled, Hall; [| | by apply Hne] |].
  apply when_guar; [done |].
  guar_walk ltac:(first [intros _; step_leaf | intros He; apply step_new_order; exact He]).
Qed.

(** ** The names a CSR is held to *)

Lemma elem_of_string_set l x : x ∈ AcmeService.string_set l <-> x ∈ l.
Proof. unfold AcmeService.string_set. by rewrite elem_of_order_by, elem_of_remove_dups. Qed.

Lemma NoDup_string_set l : NoDup (AcmeService.string_set l).
Proof. unfold AcmeService.string_set. rewrite order_by_perm. apply NoDup_remove_dups. Qed.

Lemma existsb_elem x l : existsb (str_is x) l = true <-> x ∈ l.
Proof.
  rewrite existsb_exists. split.
  - intros (y & Hy & E). apply str_is_eq in E as ->. by apply list_elem_of_In.
  - intros Hx. exists x. split; [by apply list_elem_of_In | apply str_is_refl].
Qed.

Lemma sameStringSet_spec a b :
  NoDup a -> AcmeService.sameStringSet a b = true -> forall x, x ∈ a <-> x ∈ b.
Proof.
  unfold AcmeService.sameStringSet. intros Ha [Hlen Hsub]%andb_true_iff.
  apply Nat.eqb_eq in Hlen. rewrite forallb_forall in Hsub.
  enough (a ≡ₚ b) as Hp by (intros x; by rewrite Hp).
  apply submseteq_length_Permutation; [| lia]. apply NoDup_submseteq; [done |].
  intros x Hx. apply existsb_elem, Hsub. by apply list_elem_of_In.
Qed.

Lemma csr_common_name_spec order csr cn :
  AcmeOrder.Identifiers order <> [] -> AcmeService.csr_common_name order csr = Ok cn ->
  Pki.csr_IPAddresses csr = [] /\ Pki.csr_EmailAddresses csr = [] /\ Pki.csr_URIs csr = [] /\
  (forall v, v ∈ values order <-> v ∈ map Str.ToLower (Pki.csr_DNSNames csr)) /\ cn ∈ values order.
Proof.
  intros Hne. unfold AcmeService.csr_common_name.
  destruct (Pki.csr_IPAddresses csr); [| done]. destruct (Pki.csr_EmailAddresses csr); [| done].
  destruct (Pki.csr_URIs csr); [| done]. cbv zeta.
  destruct (AcmeService.sameStringSet _ _) eqn:Hsame; [| done]. cbn [negb].
  pose proof (sameStringSet_spec _ _ (NoDup_string_set _) Hsame) as Hset.
  unfold AcmeService.want_names, AcmeService.got_names in *. setoid_rewrite elem_of_string_set in Hset.
  destruct (nonempty _ && _) eqn:Hcn; [done |]. intros [= <-]. do 4 (split; [done |]).
  destruct (str_is _ "") eqn:Hempty.
  - unfold values. destruct (AcmeOrder.Identifiers order) as [| i l]; [done |]. left.
  - unfold nonempty in Hcn. apply andb_false_iff in Hcn as [Hcn | Hcn].
    + unfold str_is in Hempty. by rewrite Hempty in Hcn.
    + apply negb_false_iff, existsb_elem in Hcn. by rewrite elem_of_string_set in Hcn.
Qed.

(** ** What the signature puts in the certificate *)

Lemma returns_Sign I p :
  returns I (fun r => match r with
    | Ok res =>
        exists profile,
          Pki.cert_Subject (Pki.sr_Certificate res) = Pki.sign_subject p /\
          Pki.DNSNames (Pki.sr_Certificate res) = Pki.DNS (Pki.sign_sans p profile) /\
          Pki.IPAddresses (Pki.sr_Certificate res) = Pki.IPs (Pki.sign_sans p profile) /\
          Pki.EmailAddresses (Pki.sr_Certificate res) = Pki.Emails (Pki.sign_sans p profile) /\
          Pki.cert_URIs (Pki.sr_Certificate res) = Pki.URIs (Pki.sign_sans p profile)
    | Err _ => True end) (Pki.Sign p).
Proof.
  unfold Pki.Sign. destruct (negb _); [done |]. apply returns_skip. intros t0.
  destruct (_ <? t0)%Z; [done |]. cbv zeta. apply returns_skip. intros [serial | e]; [| done].
  apply returns_skip. intros now. destruct (_ <? _)%Z; [done |]. destruct (negb _); [done |].
  unfold Pki.create_certificate.
  eapply returns_bind with (Q := fun r => exists n, r = Pki.x509_CreateCertificate n _ _ _ _).
  - apply returns_act. intros s _. by eexists.
  - intros r [n Hr]. simpl. destruct r as [der | e]; [| done].
    destruct (Pki.x509_ParseCertificate der) as [c | e] eqn:Hc; [| done].
    symmetry in Hr. destruct (Pki.create_parse_certificate _ _ _ _ _ _ _ Hr Hc) as (_ & Hs & Hd & Hi & He & Hu & _).
    eexists. split; [exact Hs |]. split; [exact Hd |]. split; [exact Hi |]. by split; [exact He | exact Hu].
Qed.

Lemma returns_issuer_of I in_ :
  returns I (fun r => match r with
    | Ok (_, _, _, profile) => CaService.AllowSubordinateCA in_ = false -> profile <> Pki.ProfileIntermCA
    | Err _ => True end) (CaService.issuer_of master in_).
Proof.
  unfold CaService.issuer_of. apply returns_skip. intros [ca | e].
  - apply returns_skip. intros now. destruct (CaService.checkCanIssue now ca); [done |].
    destruct (Pki.ParseCertPEM _); [| done]. destruct (CaService.decryptKey _ _); [| done].
    destruct (Pki.ParseProfile _) as [profile | e]; [| done].
    destruct (str_is profile _ && _) eqn:E; [done |]. simpl. intros Hno -> .
    rewrite Hno in E. done.
  - destruct (is_not_found e); [| done]. apply returns_skip. done.
Qed.

Lemma values_trimmed d o v : order_in_scope d o -> v ∈ values o -> Str.TrimSpace v = v /\ v <> EmptyString.
Proof.
  intros [_ (a & cred & _ & _ & _ & _ & _ & Hall)] (i & -> & Hi)%list_elem_of_fmap. rewrite Forall_forall in Hall.
  destruct (Hall i Hi) as (_ & Hv & _). by apply valid_trimmed.
Qed.

Lemma DNString_cn cn :
  Str.TrimSpace cn = cn -> cn <> EmptyString ->
  Pki.DNString (Pki.PKIX (Pki.mkSubject cn "" "" "" "" "" "" "" "")) = ("CN=" +:+ cn)%go.
Proof.
  intros Htrim Hne. unfold Pki.DNString, Pki.PKIX, nonempty. cbn [Pki.CN Pki.CommonName]. rewrite Htrim.
  apply str_is_ne in Hne. unfold str_is in Hne. by rewrite Hne.
Qed.

(** The row of a certificate signed for the names of [order]. *)
Lemma named_row d order csr cn in_ caID profile keyEnc m res created id :
  order_in_scope d order -> AcmeService.csr_common_name order csr = Ok cn -> profile <> Pki.ProfileIntermCA ->
  Pki.cert_Subject (Pki.sr_Certificate res) = Pki.PKIX (Pki.mkSubject cn "" "" "" "" "" "" "" "") ->
  Pki.DNSNames (Pki.sr_Certificate res) = Pki.csr_DNSNames csr ->
  Pki.IPAddresses (Pki.sr_Certificate res) = [] -> Pki.EmailAddresses (Pki.sr_Certificate res) = [] ->
  Pki.cert_URIs (Pki.sr_Certificate res) = [] ->
  named_for order (Store.cert_row (CaService.issue_record in_ caID profile keyEnc m res) created id).
Proof.
  intros Ho Hcn Hprof Hsub Hdns Hip Hem Huri. pose proof Ho as [Hne _].
  destruct (csr_common_name_spec _ _ _ Hne Hcn) as (_ & _ & _ & Hset & Hin).
  destruct (values_trimmed d order cn) as [Htrim Hcne]; [done | done |].
  unfold named_for, Store.cert_row, CaService.issue_record. cbn [Certificate.CommonName Certificate.Subject Certificate.SANs_ Certificate.Profile].
  unfold CaService.cert_sans, Pki.Strings. cbn [Pki.DNS Pki.IPs Pki.Emails Pki.URIs].
  rewrite Hsub, Hdns, Hip, Hem, Huri. cbn [Pki.PKIX Pki.CN Pki.CommonName map app]. rewrite Htrim, app_nil_r.
  repeat split.
  - done.
  - by apply DNString_cn.
  - intros san (n & -> & Hn)%list_elem_of_fmap. exists n. split; [done |]. apply Hset. by apply list_elem_of_fmap_2.
  - intros v Hv. apply Hset, list_elem_of_fmap in Hv as (n & -> & Hn). exists n. split; [| done].
    by apply (list_elem_of_fmap_2 (fun d => ("DNS:" +:+ d)%go)).
  - unfold nz. by destruct (nonempty _).
Qed.

(** The order is in scope, and a row of the store still has its account and
    its identifiers. *)
Definition standing (o : AcmeOrder.t) (d : db) : Prop :=
  order_in_scope d o /\ exists o', o' ∈ rows (d AcmeOrders) /\ same_order o o'.

Lemma lasting_standing o : lasting (standing o).
Proof.
  intros d d' Hp [Hs (o1 & Ho1 & Hs1)]. split; [by eapply entitled_persist |].
  destruct (orders_last _ _ Hp o1 Ho1) as (o2 & Ho2 & Hs2). exists o2. split; [done | by etrans].
Qed.
#[local] Hint Resolve lasting_standing : core.

Lemma standing_issued o c d : standing o d -> named_for o c -> issued_in_scope d c.
Proof.
  intros [Hs (o' & Ho' & (_ & Ha & Hi))] Hn. exists o'. split; [done |].
  unfold order_in_scope, named_for, values in *. by rewrite Ha, Hi.
Qed.

(** ** Finalizing one *)

Lemma material_csr_spec in_ m :
  CaService.material_csr in_ = Ok m -> Pki.ParseCSR (CaService.in_CSRPEM in_) = Ok (CaService.m_csr m).
Proof.
  unfold CaService.material_csr. destruct (str_is _ ""); [done |].
  rewrite result_bind_Ok. intros (csr & Hcsr & Hm). rewrite Hcsr. f_equal.
  destruct (str_is _ ""); [by injection Hm as <- |].
  destruct (Pki.ParsePrivateKeyPEM _); [| done]. destruct (Pki.KeyMatchesCSR _ _); [by injection Hm as <- | done].
Qed.

Lemma finalize_csr_parses payload csrPEM csr :
  AcmeService.finalize_csr payload = Ok (csrPEM, csr) -> Pki.ParseCSR csrPEM = Ok csr.
Proof.
  unfold AcmeService.finalize_csr. rewrite result_bind_Ok. intros (c64 & _ & Hc).
  destruct (AcmeService.rawurl_Decode c64); [| done]. cbv zeta in Hc.
  destruct (Pki.ParseCSR _) eqn:E; [| done]. by injection Hc as <- <-.
Qed.

(** Without overrides of its own, a signature for a CSR of DNS names and a
    given common name carries those. *)
Lemma sign_names csr issuer key profile days cn crl ocsp pl prof :
  Pki.csr_DNSNames csr <> [] -> Pki.csr_IPAddresses csr = [] -> Pki.csr_EmailAddresses csr = [] ->
  Pki.csr_URIs csr = [] ->
  let p := Pki.mkSign csr issuer key profile days None (Some (Pki.mkSubject cn "" "" "" "" "" "" "" "")) crl ocsp pl in
  Pki.sign_subject p = Pki.PKIX (Pki.mkSubject cn "" "" "" "" "" "" "" "") /\
  Pki.sign_sans p prof = Pki.mkSANs (Pki.csr_DNSNames csr) [] [] [].
Proof.
  intros Hne Hip Hem Huri p. split; [done |]. unfold Pki.sign_sans, p. cbn [Pki.sp_SANOverride Pki.sp_CSR].
  rewrite Hip, Hem, Huri. unfold Pki.Empty. cbn [Pki.DNS Pki.IPs Pki.Emails Pki.URIs].
  by destruct (Pki.csr_DNSNames csr).
Qed.

Lemma scoped_Issue d order cred csrPEM csr cn now :
  order_in_scope d order -> Pki.ParseCSR csrPEM = Ok csr -> AcmeService.csr_common_name order csr = Ok cn ->
  scoped_when (standing order) (CaService.Issue cfg master sink (AcmeService.finalize_input cred order csrPEM cn now)).
Proof.
  intros Ho Hcsr Hcn. pose proof Ho as [Hne _].
  destruct (csr_common_name_spec _ _ _ Hne Hcn) as (Hip & Hem & Huri & Hset & Hin).
  destruct (values_trimmed _ _ _ Ho Hin) as [Htrim Hcne].
  assert (Pki.csr_DNSNames csr <> []) as Hnames.
  { intros E. rewrite E in Hset. destruct (AcmeOrder.Identifiers order) as [| i l] eqn:E'; [done |].
    specialize (Hset (AcmeIdentifier.Value i)). unfold values in Hset. rewrite E' in Hset. simpl in Hset.
    apply not_elem_of_nil with (x := AcmeIdentifier.Value i), Hset. left. }
  unfold CaService.Issue.
  eapply when_bind; [done | auto with guar | apply returns_issuer_of |].
  intros [[[[ca cert] key] profile] | e]; [| done]. intros Hprof. cbv zeta.
  change (CaService.issue_material cfg ?i) with (Ret (S := world) (CaService.material_csr i)). cbn [bind].
  destruct (CaService.material_csr _) as [m | e] eqn:Hm; [| done].
  apply material_csr_spec in Hm. cbn [AcmeService.finalize_input CaService.in_CSRPEM] in Hm.
  assert (csr = CaService.m_csr m) as -> by congruence.
  change (CaService.san_override ?i) with (Ok (E := error) (@None Pki.SANSet)). cbv iota.
  eapply when_bind; [done | auto with guar | apply returns_Sign |].
  intros [res | e]; [| done]. intros (prof & Hsub & Hd & Hi & He & Hu).
  assert (CaService.subject_override (AcmeService.finalize_input cred order csrPEM cn now)
          = Some (Pki.mkSubject cn "" "" "" "" "" "" "" "")) as Hover.
  { unfold CaService.subject_override. cbn -[Str.TrimSpace]. rewrite Htrim. unfold nonempty.
    apply str_is_ne in Hcne. unfold str_is in Hcne. by rewrite Hcne. }
  rewrite Hover in *.
  rewrite (proj1 (sign_names _ _ _ _ _ _ _ _ _ prof Hnames Hip Hem Huri)) in Hsub.
  rewrite (proj2 (sign_names _ _ _ _ _ _ _ _ _ prof Hnames Hip Hem Huri)) in Hd, Hi, He, Hu.
  apply when_then; [done | auto with guar |]. intros [keyEnc | e]; [| done].
  apply when_guar; [done |].
  guar_walk ltac:(first [intros _; step_leaf | intros Hs; apply step_new_certificate, (standing_issued order); [exact Hs |]; eapply named_row; eauto]).
Qed.

Lemma knows_own_order id account w :
  knows (fun r d => match r with Ok o => standing o d | Err _ => True end) (AcmeService.own_order id account) w.
Proof.
  unfold AcmeService.own_order. apply (knows_bind anything standing); [done | done | guar_walk step_leaf | | done |].
  - apply knows_or_problem, knows_query_row; [done |]. intros d o Hd Ho. apply List.find_some in Ho as [Hin%list_elem_of_In _].
    split; [by apply Hd | by exists o].
  - intros o w1 _ Ho. simpl. by destruct (_ =? _)%Z.
Qed.

Lemma knows_finalize_checks id body w :
  knows (fun r d => match r with Ok (o, _, _, _) => standing o d | Err _ => True end)
    (AcmeService.finalize_checks cfg sink id body) w.
Proof.
  unfold AcmeService.finalize_checks.
  apply (knows_bind anything (fun _ _ => True)); [done | done | guar_walk step_leaf | | done |].
  { eapply rely_mono; [apply knows_any | by intros []]. }
  intros [payload account] w1 _ _.
  apply (knows_bind anything standing); [done | done | guar_walk step_leaf | apply knows_own_order | done |].
  intros order w2 _ Ho. destruct (negb _); [done |].
  apply (knows_skip (standing order)); [done | done | guar_walk step_leaf |]. intros now w3 Ho3.
  destruct (_ <? now)%Z; [by eapply (knows_skip anything); [| | guar_walk step_leaf |] |].
  destruct (AcmeService.finalize_csr _) as [[csrPEM csr] | p]; [| done]. cbn [bind].
  destruct (AcmeService.csr_common_name order csr) as [cn | p]; [| by eapply (knows_skip anything); [| | guar_walk step_leaf |]].
  apply (knows_bind (standing order) (fun _ _ => True)); [done | done | guar_walk step_leaf | | done | done].
  eapply rely_mono; [apply knows_any | by intros []].
Qed.

Lemma scoped_Finalize id body w : scoped (AcmeService.Finalize cfg master sink id body) w.
Proof.
  unfold AcmeService.Finalize. eapply scoped_learn; [guar_walk step_leaf | apply knows_and |].
  - apply knows_finalize_checks.
  - apply knows_returns, (returns_finalize_checks cfg sink (on_world orders_in_scope) (fun _ => True)). done.
  - intros [[[[order cred] csrPEM] cn] | p] w1; [| done].
    intros [Ho [(payload & account & csr & _ & _ & _ & _ & _ & _ & Hcsr & Hcn) _]].
    apply (when_scoped (standing order)); [done | done |].
    apply when_then; [done | guar_walk step_leaf |]. intros [[|] | p]; [| done | done].
    unfold AcmeService.finalize_issue. apply when_then; [done | guar_walk step_leaf |]. intros now.
    apply always_then.
    + eapply scoped_Issue; [apply Ho | | exact Hcn]. by eapply finalize_csr_parses.
    + intros res. apply when_guar, when_step; [done |]. guar_walk step_leaf.
Qed.

Lemma scoped_all rt r w : scoped (AcmeProtocol.serve cfg master sink rt r) w.
Proof.
  destruct (decide (rt = AcmeProtocol.PostFinalize)) as [-> | Hf];
    [| destruct (decide (rt = AcmeProtocol.PostNewOrder)) as [-> | Hn]; [| by apply scoped_guar, scoped_serve]].
  - cbn [AcmeProtocol.serve]. unfold AcmeProtocol.handleACMEFinalize, AcmeProtocol.answer.
    apply along_bind; [| apply rely_any; intros a w'; apply scoped_guar; guar_walk step_leaf].
    unfold AcmeProtocol.with_id, AcmeProtocol.with_body.
    destruct (AcmeProtocol.pathIDACME r); [| done]. destruct (AcmeProtocol.readACMEBody r); [| done].
    apply along_bind; [apply scoped_Finalize |]. by apply rely_any; intros [o | p].
  - cbn [AcmeProtocol.serve]. unfold AcmeProtocol.handleACMENewOrder, AcmeProtocol.answer.
    apply along_bind; [| apply rely_any; intros a w'; apply scoped_guar; guar_walk step_leaf].
    unfold AcmeProtocol.with_body. destruct (AcmeProtocol.readACMEBody r); [apply scoped_NewOrder | done].
Qed.

(** C2.  Whatever ACME requests are served at the same time, in whatever
    interleaving, from a store in which every order is for names permitted by
    the enabled credential its account was registered with, both of them rows
    of the store: so is every order afterwards, and every certificate is
    either one that was there (its names unchanged), or one for an order of
    the store: its common name is an identifier of that order, its DNS names
    are exactly the identifiers of that order up to case, with no other kind
    of name, no other subject attribute, and not the profile of an
    authority. *)
Theorem acme_certificates_in_scope w w' reqs ps :
  orders_in_scope (w_db w) ->
  rtc pstep (w, map (fun r => AcmeProtocol.serve cfg master sink (fst r) (snd r)) reqs) (w', ps) ->
  orders_in_scope (w_db w') /\ names_kept (w_db w) (w_db w').
Proof.
  intros Hscope Hsteps.
  assert (on_world orders_in_scope w' /\ on_db stands w w') as (Ho & _ & Hn); [| done].
  refine (along_pool (on_world orders_in_scope) (on_db stands) w w' _ ps Hscope _ Hsteps). apply Forall_map, Forall_true. intros r. apply scoped_all.
Qed.
End scope.

Lemma acme_certificates_in_scope_witness :
  let final := race [finalize_request "n1"; finalize_request "n2"] in
  map Certificate.SANs_ (rows (w_db (fst final) Certificates)) = [["DNS:a.test"%string]] /\
  orders_in_scope (w_db (fst final)) /\ names_kept (w_db Sample.start) (w_db (fst final)).
Proof.
  split; [vm_compute; reflexivity |].
  refine (acme_certificates_in_scope Sample.cfg Sample.master Sample.no_sink _ Sample.start _
    [finalize_request "n1"; finalize_request "n2"] (snd (race [finalize_request "n1"; finalize_request "n2"])) _ _).
  - intros a b c d e. exact Logic.I.
  - intros o Ho. change (o ∈ [Sample.order]) in Ho. apply list_elem_of_singleton in Ho as ->.
    split; [discriminate |]. exists Sample.account, Sample.cred.
    split_and!; [left | reflexivity | left | reflexivity | reflexivity |]. constructor; [| constructor].
    repeat split; vm_compute; reflexivity.
  - rewrite <- surjective_pairing. apply schedule_rtc.
Defined.

End AcmeScope.
