(* ===== verification/CrlFacts.v ===== *)
(** * Revocation lists

    CRL numbers are handed out once, whatever the replicas do at the same time;
    a CRL holds every certificate of its authority revoked when it is made, and
    nothing it should not; a revocation can be lifted by two requests that
    race. *)

From S2P Require Import Prelude GoStrings Effects Models Schema SqlFacts Store Pki Sealing CaService CaFacts Sample.

Module CrlFacts.
Import CaFacts.

(** ** CRL numbers *)

Section numbers.
Context `{Pki.Std} `{Ciphers} `{RowOrder}.
Context (cfg : CaService.Config) (master : string).
Context (sink : string -> string -> string -> string -> string -> prog world unit).
Context (Hsink : forall a b c d e, guar (on_db (keeps [Cas])) (sink a b c d e)).
(** The authority, and one number. *)
Context (k n : Z).

Definition is_k (c : CA.t) : bool := (CA.ID c =? k)%Z.

(** 1 as long as the number has not been handed out. *)
Definition number_left (d : db) : nat :=
  match select1 Cas is_k d with Some c => Nat.b2n (CA.CRLNumber c <? n)%Z | None => 0 end.

Definition nothing (d : db) : Prop := True.

Definition quiet (d d' : db) : Prop := nothing d -> nothing d' /\ number_left d' <= number_left d.

#[local] Instance quiet_refl : Reflexive quiet.
Proof. by intros d _. Qed.

Lemma quiet_keeps d d' : keeps [Cas] d d' -> quiet d d'.
Proof. intros Hk _. split; [done |]. unfold number_left, select1. by rewrite Hk by set_solver. Qed.

Lemma quiet_sink a b c d e : guar (on_db quiet) (sink a b c d e).
Proof. eapply guar_weaken; [| apply Hsink]. intros s s'. apply quiet_keeps. Qed.
#[local] Hint Resolve quiet_sink : guar.

Ltac quiet_leaf := apply quiet_keeps; frame.

Notation spent wt e p := (spends (on_world nothing) (on_world number_left) wt e p).

Lemma spends_quiet {A} e (p : prog world A) : guar (on_db quiet) p -> spent (fun _ => e) e p.
Proof. intros Hp. apply spends_neutral; [exact Hp | done]. Qed.

Lemma spends_quiet_bind {A B} (wt : B -> nat) e (p : prog world A) (q : A -> prog world B) :
  guar (on_db quiet) p -> (forall a, spent wt e (q a)) -> spent wt e (bind p q).
Proof. intros Hp Hq. eapply spends_bind; [by apply spends_quiet | exact Hq]. Qed.

Definition is_n (m : Z) : nat := Nat.b2n (m =? n)%Z.
Definition number_of (r : result error Z) : nat := match r with Ok m => is_n m | Err _ => 0 end.

Lemma find_bump (f : CA.t -> CA.t) l :
  (forall c, CA.ID (f c) = CA.ID c) ->
  List.find is_k (update_where is_k f l) = f <$> List.find is_k l.
Proof.
  intros Hf. induction l as [| c l IH]; [done |]. simpl. destruct (is_k c) eqn:Hc; [| by rewrite Hc].
  unfold is_k in *. rewrite Hf. by rewrite Hc.
Qed.

Lemma select1_bump t d :
  select1 Cas is_k (snd (update Cas is_k (Store.bump_crl t) d)) = Store.bump_crl t <$> select1 Cas is_k d.
Proof. unfold select1. rewrite update_eq. by apply find_bump. Qed.

Lemma spends_NextCRLNumber : spent number_of 0 (Store.NextCRLNumber k).
Proof.
  unfold Store.NextCRLNumber. apply spends_now. intros t. apply spends_sql; [simpl; lia |].
  intros d _ _. cbn [fst snd]. split; [done |].
  change (fun c : row Cas => (CA.ID c =? k)%Z) with is_k. unfold number_left. rewrite select1_bump.
  destruct (select1 Cas is_k d) as [c |]; simpl; [| by exists 0].
  exists (is_n (CA.CRLNumber c + 1)). unfold is_n. split; [| lia].
  destruct (Z.ltb_spec (CA.CRLNumber c + 1) n), (Z.ltb_spec (CA.CRLNumber c) n),
    (Z.eqb_spec (CA.CRLNumber c + 1) n); simpl; lia.
Qed.

Definition crl_worth (r : result error (Pki.CRLTemplate * string * string)) : nat :=
  match r with Ok (tmpl, _, _) => is_n (Pki.crl_Number tmpl) | Err _ => 0 end.

Lemma returns_CreateCRL I cert key m days entries :
  returns I (fun r => match r with Ok (tmpl, _, _) => Pki.crl_Number tmpl = m | Err _ => True end)
    (Pki.CreateCRL cert key m days entries).
Proof.
  unfold Pki.CreateCRL. destruct (negb _); [done |]. apply returns_skip. intros now.
  destruct (Pki.crl_entries now entries); [| done]. apply returns_skip. by intros [der | e].
Qed.

Lemma spends_GenerateCRL actor : spent crl_worth 0 (CaService.GenerateCRL cfg master sink k actor).
Proof.
  unfold CaService.GenerateCRL.
  apply spends_quiet_bind; [guar_walk quiet_leaf |]. intros [ca | e]; [| simpl; lia].
  destruct (CA_Pending ca); [simpl; lia |]. destruct (negb _); [simpl; lia |].
  destruct (Pki.ParseCertPEM _); [| simpl; lia]. destruct (CaService.decryptKey _ _); [| simpl; lia].
  apply spends_quiet_bind; [guar_walk quiet_leaf |]. intros [revoked | e]; [| simpl; lia].
  apply spends_quiet_bind; [auto with guar |]. intros entries.
  apply spends_quiet_bind; [guar_walk quiet_leaf |]. intros [caRevs | e]; [| simpl; lia]. cbv zeta.
  eapply spends_bind; [apply spends_NextCRLNumber |]. intros [m | e]; [| simpl; lia]. cbn [number_of].
  eapply spends_bind_returns; [apply spends_quiet | apply returns_CreateCRL |].
  { guar_walk quiet_leaf. }
  intros [[[tmpl der] pem] | e] Hn; [| simpl; lia].
  apply spends_quiet_bind; [guar_walk quiet_leaf |]. intros _. simpl in *. by subst m.
Qed.

(** Of any number of CRLs generated for one authority, on any number of
    replicas and in any interleaving, no two carry the same CRL number. *)
Theorem crl_numbers_distinct w w' actors ps :
  rtc pstep (w, map (CaService.GenerateCRL cfg master sink k) actors) (w', ps) ->
  total (map (worth crl_worth) ps) <= 1.
Proof.
  intros Hsteps.
  assert (Forall2 (fun e p => spent crl_worth e p) (replicate (length actors) 0)
            (map (CaService.GenerateCRL cfg master sink k) actors)) as Hpool.
  { rewrite <- (List.length_map (CaService.GenerateCRL cfg master sink k) actors).
    apply Forall2_replicate_spends, Forall_map, Forall_true. exact spends_GenerateCRL. }
  destruct (spends_pool (on_world nothing) (on_world number_left) _ (on_world number_left w) w w' _ ps _ Logic.I Hpool)
    as [_ Hle]; [| exact Hsteps |].
  { by rewrite total_replicate_0, Nat.add_0_r. }
  unfold on_world, number_left in Hle. repeat case_match; unfold Nat.b2n in *; repeat case_match; lia.
Qed.
End numbers.

Lemma crl_numbers_distinct_witness :
  let w := Sample.start in
  let final := schedule (List.concat (replicate 30 [0; 1]))
     (w, map (CaService.GenerateCRL Sample.cfg Sample.master Sample.no_sink 1) ["ann"; "bob"]%string) in
  total (map (worth (crl_worth 1)) (snd final)) = 1 /\ total (map (worth (crl_worth 2)) (snd final)) = 1 /\
  total (map (worth (crl_worth 2)) (snd final)) <= 1.
Proof.
  split; [vm_compute; reflexivity |]. split; [vm_compute; reflexivity |].
  refine (crl_numbers_distinct Sample.cfg Sample.master Sample.no_sink _ 1 2 Sample.start _
    ["ann"; "bob"]%string _ _).
  - intros a b c d e. exact Logic.I.
  - match goal with |- rtc _ _ (_, snd ?c) => instantiate (1 := fst c); rewrite <- surjective_pairing end.
    apply schedule_rtc.
Defined.

(** ** What a CRL lists *)

Section contents.
Context `{Pki.Std} `{Ciphers} `{RowOrder}.
Context (cfg : CaService.Config) (master : string).
Context (sink : string -> string -> string -> string -> string -> prog world unit).

(** What is revoked for authority [k]: its certificates marked so, and the
    serials of subordinate authorities recorded against it. *)
Definition revoked_by (d : db) (k serial reason : Z) : Prop :=
  (exists c, c ∈ rows (d Certificates) /\ Certificate.CAID c = k /\ Certificate.Status c = StatusRevoked /\
     Pki.SerialFromHex (Certificate.SerialHex c) = Some serial /\ Certificate.RevokeCode c = reason) \/
  (exists r, r ∈ rows (d CaRevocations) /\ CARevocation.CAID r = k /\
     Pki.SerialFromHex (CARevocation.SerialHex r) = Some serial /\ CARevocation.Reason r = reason).

Definition lists (l : list Pki.CRLEntry) (serial reason : Z) : Prop :=
  exists e, e ∈ l /\ Pki.entry_Serial e = serial /\ Pki.entry_Reason e = reason.

(** The serial and reason of an entry to be. *)
Definition entry_of (r : Pki.RevokedEntry) (serial reason : Z) : Prop :=
  Pki.SerialFromHex (Pki.re_SerialHex r) = Some serial /\ Pki.re_Reason r = reason.

Lemma crl_entries_spec now l es serial reason :
  Pki.crl_entries now l = Ok es -> lists es serial reason <-> exists r, r ∈ l /\ entry_of r serial reason.
Proof.
  unfold lists, entry_of. revert es. induction l as [| r l IH]; intros es; simpl.
  - intros [= <-]. split; intros (x & Hx & _); by apply not_elem_of_nil in Hx.
  - destruct (Pki.SerialFromHex (Pki.re_SerialHex r)) as [s |] eqn:Hs; [| done].
    rewrite result_bind_Ok. intros (es' & Hes & [= <-]). specialize (IH es' Hes).
    setoid_rewrite elem_of_cons. split.
    + intros (e & [-> | He] & <- & <-); [exists r; by auto |].
      destruct (proj1 IH) as (r' & Hr' & ?); [by exists e |]. exists r'. auto.
    + intros (r' & [-> | Hr'] & Hs' & Hr).
      * rewrite Hs in Hs'. injection Hs' as ->. eexists. split; [left; reflexivity | done].
      * destruct (proj2 IH) as (e & He & ?); [by exists r' |]. exists e. auto.
Qed.

Lemma wp_cert_entries l w (Q : list Pki.RevokedEntry -> world -> Prop) :
  (forall es w', w_db w' = w_db w ->
     (forall serial reason, (exists r, r ∈ es /\ entry_of r serial reason) <->
        (exists c, c ∈ l /\ Pki.SerialFromHex (Certificate.SerialHex c) = Some serial /\ Certificate.RevokeCode c = reason)) ->
     Q es w') ->
  wp (CaService.cert_entries l) Q w.
Proof.
  revert w Q. induction l as [| c l IH]; intros w Q HQ; cbn [CaService.cert_entries].
  - apply wp_Ret, HQ; [done |]. intros. split; intros (x & Hx & _); by apply not_elem_of_nil in Hx.
  - apply wp_bind, wp_now. intros t ts _. apply wp_bind, IH. intros es w' Hdb Hes. apply wp_Ret, HQ; [done |].
    intros serial reason. specialize (Hes serial reason). unfold entry_of in *. setoid_rewrite elem_of_cons. split.
    + intros (r & [-> | Hr] & He); [exists c; by auto |].
      destruct (proj1 Hes) as (c' & Hc' & ?); [by exists r |]. exists c'. auto.
    + intros (c' & [-> | Hc'] & Hc); [eexists; by split; [left; reflexivity |] |].
      destruct (proj2 Hes) as (r & Hr & ?); [by exists c' |]. exists r. auto.
Qed.

Lemma returns_CreateCRL_entries I cert key m days l :
  returns I (fun r => match r with
    | Ok (tmpl, _, _) => exists now, Pki.crl_entries now l = Ok (Pki.RevokedCertificateEntries tmpl)
    | Err _ => True end) (Pki.CreateCRL cert key m days l).
Proof.
  unfold Pki.CreateCRL. destruct (negb _); [done |]. apply returns_skip. intros now.
  destruct (Pki.crl_entries now l) as [es | e] eqn:Hes; [| done]. apply returns_skip. intros [der | e]; [| done].
  simpl. eauto.
Qed.

(** The end of GenerateCRL, once the entries are known. *)
Lemma returns_after_entries I k actor ca cert key entries :
  returns I (fun r => match r with
    | Ok (tmpl, _, _) => exists now, Pki.crl_entries now entries = Ok (Pki.RevokedCertificateEntries tmpl)
    | Err _ => True end)
   (number <-! Store.NextCRLNumber k ;;
    crl <-! Pki.CreateCRL cert key number (CaService.CRLDays cfg) entries ;;
    CaService.audit sink actor "crl.generate" (CA.Name ca)
      (Str.Sprintf "number=%d entries=%d" [Str.AInt number; Str.AInt (Z.of_nat (length entries))]) ;;;
    Ret (Ok crl))%prog.
Proof.
  apply returns_skip. intros [number | e]; [| done].
  eapply returns_bind_err; [| done |].
  - eapply returns_mono; [apply (returns_CreateCRL_entries I cert key number _ entries) |].
    intros [x | e] Hx; [| done].
    instantiate (1 := fun x => exists now, Pki.crl_entries now entries = Ok (Pki.RevokedCertificateEntries (fst (fst x)))).
    by destruct x as [[tmpl der] pem].
  - intros [[tmpl der] pem] Hx. by apply returns_skip.
Qed.

Lemma in_revoked d k le c :
  c ∈ map (Store.scanCert d) (order_by le (scan (select Certificates (Store.revoked_for k) d))) <->
  exists c0, c0 ∈ rows (d Certificates) /\ Certificate.CAID c0 = k /\ Certificate.Status c0 = StatusRevoked /\
    c = Store.scanCert d c0.
Proof.
  rewrite list_elem_of_fmap. unfold Store.revoked_for. setoid_rewrite elem_of_order_by. setoid_rewrite elem_of_scan.
  split.
  - intros (c0 & -> & [Hc0 [Hk Hst]%andb_true_iff]%elem_of_select_where).
    exists c0. by apply Z.eqb_eq in Hk; apply str_is_eq in Hst.
  - intros (c0 & Hc0 & <- & Hst & ->). exists c0. split; [done |].
    apply elem_of_select_where. split; [done |]. by rewrite Z.eqb_refl, Hst.
Qed.

Lemma in_ca_revoked d k le r :
  r ∈ map CaService.ca_entry (order_by le (scan (select CaRevocations (fun r : CARevocation.t => (CARevocation.CAID r =? k)%Z) d))) <->
  exists r0, r0 ∈ rows (d CaRevocations) /\ CARevocation.CAID r0 = k /\ r = CaService.ca_entry r0.
Proof.
  rewrite list_elem_of_fmap. setoid_rewrite elem_of_order_by. setoid_rewrite elem_of_scan. split.
  - intros (r0 & -> & [Hr0 Hk]%elem_of_select_where). exists r0. by apply Z.eqb_eq in Hk.
  - intros (r0 & Hr0 & <- & ->). exists r0. split; [done |].
    apply elem_of_select_where. split; [done |]. by rewrite Z.eqb_refl.
Qed.

(** C6.  A CRL made for an authority lists exactly the serials revoked under
    it, each with its reason: every certificate of the authority marked
    revoked, every subordinate recorded against it, and nothing else. *)
Theorem crl_lists_what_is_revoked k actor w w' tmpl der pem :
  run (CaService.GenerateCRL cfg master sink k actor) w = (Ok (tmpl, der, pem), w') ->
  forall serial reason, lists (Pki.RevokedCertificateEntries tmpl) serial reason <-> revoked_by (w_db w) k serial reason.
Proof.
  intros Hrun. enough (wp (CaService.GenerateCRL cfg master sink k actor) (fun r _ => match r with
    | Ok (tmpl, _, _) => forall serial reason,
        lists (Pki.RevokedCertificateEntries tmpl) serial reason <-> revoked_by (w_db w) k serial reason
    | Err _ => True end) w) as Hwp by (unfold wp in Hwp; by rewrite Hrun in Hwp).
  clear Hrun. unfold CaService.GenerateCRL. apply wp_bind_err, wp_query_row; [done | done |].
  intros fs ca _. destruct (CA_Pending ca); [done |]. destruct (negb _); [done |].
  destruct (Pki.ParseCertPEM _) as [cert | e]; [| done]. destruct (CaService.decryptKey _ _) as [key | e]; [| done].
  apply wp_bind_err, wp_query; [done |]. intros fs1.
  apply wp_bind, wp_cert_entries. intros es w1 Hdb Hes.
  apply wp_bind_err, wp_query; [done |]. intros fs2.
  eapply wp_mono; [apply wp_returns, returns_after_entries |].
  intros [[[t' der'] pem'] | e] _; [| done]. intros [now Hnow] serial reason.
  rewrite (crl_entries_spec _ _ _ serial reason Hnow). unfold revoked_by.
  split.
  - intros (r & [Hr | Hr]%elem_of_app & He).
    + left. destruct (proj1 (Hes serial reason)) as (c & Hc & Hs & Hrc); [by exists r |].
      apply in_revoked in Hc as (c0 & Hc0 & Hca & Hst & ->). by exists c0.
    + right. rewrite Hdb in Hr. apply in_ca_revoked in Hr as (r0 & Hr0 & Hca & ->). by exists r0.
  - intros [(c & Hc & Hca & Hst & Hs & Hrc) | (r & Hr & Hca & He)].
    + destruct (proj2 (Hes serial reason)) as (r & Hr & He).
      { exists (Store.scanCert (w_db w) c). split; [apply in_revoked; by exists c | done]. }
      exists r. split; [apply elem_of_app; by left | done].
    + exists (CaService.ca_entry r). split; [apply elem_of_app; right; rewrite Hdb; apply in_ca_revoked; by exists r | done].
Qed.
End contents.

Definition one_crl_world : world :=
  with_db (set_table Certificates (mkTable [Certificate.mk 1 1 "" "0A" "a.test" "CN=a.test" [] "server" "" "" "" "" false ""
    0 0 "revoked" (Some 500%Z) 1 "" "" 0 None : row Certificates] 1) Sample.store) Sample.start.

Lemma crl_lists_what_is_revoked_witness :
  match fst (run (CaService.GenerateCRL Sample.cfg Sample.master Sample.no_sink 1 "ann") one_crl_world) with
  | Ok (tmpl, _, _) => lists (Pki.RevokedCertificateEntries tmpl) 10 1
  | Err _ => False
  end.
Proof.
  assert (is_ok (fst (run (CaService.GenerateCRL Sample.cfg Sample.master Sample.no_sink 1 "ann") one_crl_world)) = true) as Hok
    by (vm_compute; reflexivity).
  destruct (run (CaService.GenerateCRL Sample.cfg Sample.master Sample.no_sink 1 "ann") one_crl_world)
    as [[[[tmpl der] pem] | e] w'] eqn:E; [| discriminate Hok].
  refine (proj2 (crl_lists_what_is_revoked Sample.cfg Sample.master Sample.no_sink 1 "ann" _ _ _ _ _ E 10 1) _).
  left. eexists. split; [apply list_elem_of_singleton; reflexivity |]. repeat split.
Defined.

(** ** Two requests that race *)

(** A certificate on hold.  One operator reinstates it; another also does, and
    then revokes it for key compromise. *)
Definition on_hold : world :=
  with_db (set_table Certificates (mkTable [Certificate.mk 1 1 "" "0A" "a.test" "CN=a.test" [] "server" "" "" "" "" false ""
    0 0 "revoked" (Some 500%Z) 6 "" "" 0 None : row Certificates] 1) Sample.store) Sample.start.

Definition reinstaters : list (M unit) :=
  [Store.UnrevokeCertificate 1; (_ <-! Store.UnrevokeCertificate 1 ;; Store.RevokeCertificate 1 1)%prog].

Definition state_of (w : world) : list (string * Z) :=
  map (fun c => (Certificate.Status c, Certificate.RevokeCode c)) (rows (w_db w Certificates)).

(** Interleaved with another request, a reinstatement that read the
    certificate while it was on hold lifts the key-compromise revocation made
    since: every request reports success, and the certificate ends active. *)
Theorem unrevoke_race_lifts_compromise :
  exists w ps, rtc pstep (on_hold, reinstaters) (w, ps) /\
    ps = [Ret (Ok tt); Ret (Ok tt)] /\ state_of w = [(StatusActive, 0%Z)] /\
    exists w' ps', rtc pstep (on_hold, reinstaters) (w', ps') /\ rtc pstep (w', ps') (w, ps) /\
      ps' !! 1 = Some (Ret (Ok tt)) /\ state_of w' = [(StatusRevoked, 1%Z)].
Proof.
  set (mid := schedule [0; 1; 1; 1; 1] (on_hold, reinstaters)).
  exists (fst (schedule [0] mid)), (snd (schedule [0] mid)). rewrite <- surjective_pairing.
  split; [etrans; apply schedule_rtc |]. split; [vm_compute; reflexivity |]. split; [vm_compute; reflexivity |].
  exists (fst mid), (snd mid). rewrite <- surjective_pairing.
  split; [apply schedule_rtc |]. split; [apply schedule_rtc |]. split; vm_compute; reflexivity.
Qed.
End CrlFacts.
