(* ===== verification/PkiFacts.v ===== *)
(** * Serial numbers, reasons, key types and slugs

    The text forms the PKI engine and the service exchange with the store and
    with operators: what is written reads back, and stays within its alphabet
    and its length. *)

From S2P Require Import Prelude GoStrings Effects Models Schema SqlFacts Pki Sealing CaService AcmePolicy.

Module PkiFacts.

(** ** Serials *)

(** A fact about the sixteen digits, checked on each. *)
Lemma on_digits (P : Z -> bool) n :
  forallb (fun n => P (Z.of_nat n)) (List.seq 0 16) = true -> (0 <= n < 16)%Z -> P n = true.
Proof.
  intros H Hn. rewrite forallb_forall in H. rewrite <- (Z2Nat.id n) by lia. apply H, in_seq. lia.
Qed.

Lemma hex_upper_value n : (0 <= n < 16)%Z -> Pki.hex_value (Str.lower_char (Pki.hex_upper n)) = Some n.
Proof.
  intros Hn.
  assert (match Pki.hex_value (Str.lower_char (Pki.hex_upper n)) with Some m => (m =? n)%Z | None => false end = true) as E
    by (revert Hn; by apply (on_digits (fun n =>
          match Pki.hex_value (Str.lower_char (Pki.hex_upper n)) with Some m => (m =? n)%Z | None => false end))).
  destruct (Pki.hex_value _) as [m |]; [| done]. by apply Z.eqb_eq in E as ->.
Qed.

(** The characters of a serial. *)
Definition serial_char (c : ascii) : bool := Str.is_digit c || ((65 <=? Str.code c) && (Str.code c <=? 70))%nat.

Lemma hex_upper_char n : (0 <= n < 16)%Z -> serial_char (Pki.hex_upper n) = true.
Proof. exact (on_digits (fun n => serial_char (Pki.hex_upper n)) n eq_refl). Qed.

Lemma hex_parse_digits fuel n acc a :
  (0 <= n < 16 ^ Z.of_nat fuel)%Z -> fuel <> 0%nat ->
  exists p, Pki.hex_parse (Str.ToLower (Pki.hex_digits fuel n acc)) a
            = Pki.hex_parse (Str.ToLower acc) (a * 16 ^ Z.of_nat p + n).
Proof.
  revert n acc. induction fuel as [| fuel IH]; intros n acc Hn Hf; [done |].
  assert (forall c r, Pki.hex_parse (Str.ToLower (String (Pki.hex_upper (n mod 16)) r)) c
                      = Pki.hex_parse (Str.ToLower r) (c * 16 + n mod 16)) as Hstep.
  { intros c r. unfold Str.ToLower. cbn [Str.map_string Pki.hex_parse].
    by rewrite hex_upper_value by (apply Z.mod_pos_bound; lia). }
  cbn [Pki.hex_digits]. destruct (Z.ltb_spec n 16) as [Hlt | Hge].
  - exists 1%nat. rewrite Hstep, Z.mod_small by lia. f_equal; lia.
  - assert (fuel <> 0%nat) as Hfuel by (intros ->; rewrite Z.pow_1_r in Hn; lia).
    rewrite Nat2Z.inj_succ, Z.pow_succ_r in Hn by lia.
    destruct (IH (n / 16)%Z (String (Pki.hex_upper (n mod 16)) acc)) as [p Hp].
    { split; [apply Z.div_pos; lia | apply Z.div_lt_upper_bound; lia]. }
    { exact Hfuel. }
    exists (S p). rewrite Hp, Hstep. f_equal.
    rewrite Nat2Z.inj_succ, Z.pow_succ_r by lia. pose proof (Z.div_mod n 16). lia.
Qed.

Lemma hex_digits_chars fuel n acc :
  Policy.all_chars serial_char acc = true -> (0 <= n)%Z -> Policy.all_chars serial_char (Pki.hex_digits fuel n acc) = true.
Proof.
  revert n acc. induction fuel as [| fuel IH]; intros n acc Hacc Hn; cbn [Pki.hex_digits]; [done |].
  assert (serial_char (Pki.hex_upper (n mod 16)) = true) as Hc by (apply hex_upper_char, Z.mod_pos_bound; lia).
  destruct (n <? 16)%Z; [by simpl; rewrite Hc |].
  apply IH; [by simpl; rewrite Hc | apply Z.div_pos; lia].
Qed.


Lemma hex_digits_nonempty fuel n acc : acc <> EmptyString \/ fuel <> 0%nat -> Pki.hex_digits fuel n acc <> EmptyString.
Proof.
  revert n acc. induction fuel as [| fuel IH]; intros n acc Hne; cbn [Pki.hex_digits]; [by destruct Hne |].
  destruct (n <? 16)%Z; [done | apply IH; by left].
Qed.

(** What trimming and lowering do to text of serial characters. *)
Lemma all_chars_In p c s : Policy.all_chars p s = true -> no_char c s = false -> p c = true.
Proof.
  unfold no_char. induction s as [| d s IH]; simpl; [done |]. intros [Hd Hs]%andb_true_iff.
  destruct (Ascii.eqb_spec d c) as [-> | Hne]; [done |]. simpl. by apply IH.
Qed.

Lemma no_char_serial c s : serial_char c = false -> Policy.all_chars serial_char s = true -> no_char c s = true.
Proof.
  intros Hc Hs. apply not_false_is_true. intros Hno. pose proof (all_chars_In _ _ _ Hs Hno) as Ht. congruence.
Qed.

Definition lower_serial_char (c : ascii) : bool := Str.is_digit c || ((97 <=? Str.code c) && (Str.code c <=? 102))%nat.

Lemma lower_serial s : Policy.all_chars serial_char s = true -> Policy.all_chars lower_serial_char (Str.ToLower s) = true.
Proof.
  induction s as [| c s IH]; [done |]. unfold Str.ToLower in *. simpl. intros [Hc Hs]%andb_true_iff.
  rewrite IH by done. rewrite andb_true_r. destruct c as [[] [] [] [] [] [] [] []]; vm_compute in Hc |- *; done.
Qed.

Lemma remove_char_id c s : no_char c s = true -> Str.remove_char c s = s.
Proof.
  unfold no_char. induction s as [| d s IH]; simpl; [done |]. intros [Hd Hs]%andb_true_iff.
  rewrite Ascii.eqb_sym. apply negb_true_iff in Hd. rewrite Hd. by rewrite IH.
Qed.

Lemma TrimPrefix_serial s : Policy.all_chars lower_serial_char s = true -> Str.TrimPrefix s "0x" = s.
Proof.
  intros Hs. unfold Str.TrimPrefix. destruct (Str.CutPrefix s "0x") as [r ok] eqn:E.
  destruct (CutPrefix_spec _ _ _ _ E) as [[_ ->] | [_ ->]]; [| done].
  simpl in Hs. done.
Qed.

Lemma SetString16_serial s :
  Policy.all_chars lower_serial_char s = true -> s <> EmptyString -> Pki.big_SetString16 s = Pki.hex_parse s 0.
Proof.
  intros Hs Hne. destruct s as [| c s]; [done |]. simpl in Hs. apply andb_true_iff in Hs as [Hc _].
  destruct c as [[] [] [] [] [] [] [] []]; vm_compute in Hc; done.
Qed.

Lemma SerialHex_chars n : (0 <= n)%Z -> Policy.all_chars serial_char (Pki.SerialHex n) = true.
Proof.
  intros Hn. unfold Pki.SerialHex, Pki.hex_text.
  pose proof (hex_digits_chars (S (Z.to_nat (Z.log2 n))) n "" eq_refl Hn) as Hc.
  by destruct (Nat.odd _).
Qed.

Lemma ToLower_idem s : Str.ToLower (Str.ToLower s) = Str.ToLower s.
Proof.
  induction s as [| c s IH]; [done |]. unfold Str.ToLower in *. simpl. rewrite IH. f_equal.
  by destruct c as [[] [] [] [] [] [] [] []].
Qed.

Lemma SerialFromHex_text t s :
  Policy.all_chars serial_char s = true -> s <> EmptyString -> (t = s \/ t = Str.ToLower s) ->
  Pki.SerialFromHex t = Pki.hex_parse (Str.ToLower s) 0.
Proof.
  intros Hs Hne Ht. pose proof (lower_serial _ Hs) as Hlow.
  assert (Str.TrimSpace t = t) as Htrim.
  { apply TrimSpace_id. destruct Ht as [-> | ->].
    - eapply all_chars_weaken; [| exact Hs]. intros c. by destruct c as [[] [] [] [] [] [] [] []].
    - eapply all_chars_weaken; [| exact Hlow]. intros c. by destruct c as [[] [] [] [] [] [] [] []]. }
  assert (Str.ToLower t = Str.ToLower s) as Hlt by (destruct Ht as [-> | ->]; [done | apply ToLower_idem]).
  unfold Pki.SerialFromHex. rewrite Htrim, Hlt, TrimPrefix_serial by done.
  rewrite remove_char_id.
  - apply SetString16_serial; [done |]. by destruct s.
  - apply not_false_is_true. intros Hno. by pose proof (all_chars_In _ _ _ Hlow Hno).
Qed.

Lemma hex_text_value n : (0 <= n)%Z -> Pki.hex_parse (Str.ToLower (Pki.hex_text n)) 0 = Some n.
Proof.
  intros Hn. unfold Pki.hex_text.
  destruct (hex_parse_digits (S (Z.to_nat (Z.log2 n))) n "" 0) as [p Hp]; [| done | by rewrite Hp].
  split; [done |]. pose proof (Z.log2_nonneg n). rewrite Nat2Z.inj_succ, Z2Nat.id by done.
  destruct (Z.eq_dec n 0%Z) as [-> |]; [done |].
  destruct (Z.log2_spec n) as [_ Hlt]; [lia |]. eapply Z.lt_le_trans; [exact Hlt |].
  apply Z.pow_le_mono_l. lia.
Qed.

Lemma SerialHex_value n : (0 <= n)%Z -> Pki.hex_parse (Str.ToLower (Pki.SerialHex n)) 0 = Some n.
Proof.
  intros Hn. unfold Pki.SerialHex. destruct (Nat.odd _); [| by apply hex_text_value].
  unfold Str.ToLower. cbn. by apply hex_text_value.
Qed.

Lemma SerialHex_even n : Nat.even (String.length (Pki.SerialHex n)) = true.
Proof.
  unfold Pki.SerialHex. destruct (Nat.odd _) eqn:E; [| by rewrite <- Nat.negb_odd, E].
  cbn [String.length]. by rewrite Nat.even_succ.
Qed.

(** A serial number is stored as an even number of upper-case
    hexadecimal digits, and the stored text denotes the number again, in
    either case. *)
Theorem serial_roundtrip n :
  (0 <= n)%Z ->
  Pki.SerialFromHex (Pki.SerialHex n) = Some n /\ Pki.SerialFromHex (Str.ToLower (Pki.SerialHex n)) = Some n /\
  Nat.even (String.length (Pki.SerialHex n)) = true /\ Policy.all_chars serial_char (Pki.SerialHex n) = true.
Proof.
  intros Hn. pose proof (SerialHex_chars n Hn) as Hchars.
  assert (Pki.SerialHex n <> EmptyString) as Hne.
  { unfold Pki.SerialHex. destruct (Nat.odd _); [done |]. apply hex_digits_nonempty. by right. }
  rewrite !(SerialFromHex_text _ (Pki.SerialHex n)) by auto. rewrite SerialHex_value by done.
  repeat split; [apply SerialHex_even | done].
Qed.

Lemma serial_roundtrip_witness : (0 <= 2748)%Z /\ Pki.SerialHex 2748 = "0ABC"%string /\ Pki.SerialFromHex "0ABC" = Some 2748%Z.
Proof.
  split; [lia |]. split; [vm_compute; reflexivity |].
  refine (proj1 (serial_roundtrip 2748 _)). lia.
Defined.

(** ** Slugs *)

Definition slug_text (s : string) : Prop := Policy.all_chars (fun c => CaService.slug_char c || Ascii.eqb c "-") s = true.

Lemma dash_runs_text s r : slug_text (CaService.dash_runs s r).
Proof.
  unfold slug_text. revert r. induction s as [| c s IH]; intros r; [done |]. simpl.
  destruct (CaService.slug_char c) eqn:Hc; simpl; [by rewrite Hc, IH |]. destruct r; simpl; by rewrite ?IH.
Qed.

Lemma trim_left_text p s : slug_text s -> slug_text (Str.trim_left p s).
Proof.
  unfold slug_text. induction s as [| c s IH]; [done |]. simpl. intros [Hc Hs]%andb_true_iff.
  destruct (p c); [by apply IH |]. simpl. by rewrite Hc, Hs.
Qed.

Lemma trim_right_text p s : slug_text s -> slug_text (Str.trim_right p s).
Proof.
  unfold slug_text. induction s as [| c s IH]; [done |]. simpl. intros [Hc Hs]%andb_true_iff.
  specialize (IH Hs). destruct (Str.trim_right p s) as [| d r]; [destruct (p c); simpl; by rewrite ?Hc |].
  cbn [Policy.all_chars] in *. by rewrite Hc, IH.
Qed.

Lemma take_text n s : slug_text s -> slug_text (take_s n s).
Proof.
  unfold slug_text. revert s. induction n as [| n IH]; intros [| c s]; simpl; try done.
  intros [Hc Hs]%andb_true_iff. by rewrite Hc, IH.
Qed.

(** Whatever an authority is called, its slug is 1 to 60 characters of
    lower-case letters, digits and hyphens: safe in a path, a file name and an
    SQL reference. *)
Theorem slug_is_safe name :
  slug_text (CaService.Slugify name) /\ 1 <= String.length (CaService.Slugify name) <= 60.
Proof.
  unfold CaService.Slugify. cbv zeta.
  set (out := if str_is _ "" then _ else _).
  assert (slug_text out /\ 1 <= String.length out) as [Htext Hlen].
  { unfold out. destruct (str_is _ "") eqn:E; [split; [done | simpl; lia] |]. split.
    - apply trim_right_text, trim_left_text, dash_runs_text.
    - apply str_is_ne in E. destruct (Str.Trim _ "-"); [done | simpl; lia]. }
  destruct (Nat.ltb_spec 60 (String.length out)) as [Hgt | Hle]; [| done].
  split; [by apply take_text |]. rewrite take_length by lia. lia.
Qed.
End PkiFacts.
