(* ===== verification/IssueFacts.v ===== *)
(** * Issuance and chains

    One call of [Issue], from any state and with any statement failing: what it
    adds to the store and under which authority.  Then [CAChain]: how long a
    chain can be, and that it is the line of parents up to the root. *)

From S2P Require Import Prelude GoStrings Effects Models Schema SqlFacts Store Pki Sealing CaService CaFacts Sample.

Module IssueFacts.
Import CaFacts.

Section issue.
Context `{Pki.Std} `{Ciphers} `{RowOrder}.
Context (cfg : CaService.Config) (master : string).
Context (sink : string -> string -> string -> string -> string -> prog world unit).
Context (Hsink : forall a b c d e, guar (on_db (keeps [Certificates])) (sink a b c d e)).

Lemma elem_of_head_scan {A} (p : A -> bool) l x : head (scan (select_where p l)) = Some x -> x ∈ l /\ p x = true.
Proof.
  intros Hx. apply elem_of_select_where, elem_of_scan. destruct (scan _); [done |]. injection Hx as ->. left.
Qed.

(** The database as it is, from [t] on. *)
Definition since (d : db) (t : Z) (w : world) : Prop := w_db w = d /\ (t <= w_clock w)%Z.

Lemma returns_GetCAByRef_in (I : world -> Prop) d ref :
  (forall w, I w -> w_db w = d) ->
  returns I (fun r => match r with Ok ca => ca ∈ rows (d Cas) | Err _ => True end) (Store.GetCAByRef ref).
Proof.
  intros Hd. unfold Store.GetCAByRef, Store.DefaultCA. destruct (str_is _ "").
  - apply returns_query_row; [done |]. intros w ca HI%Hd Hca; rewrite HI in Hca.
    assert (ca ∈ order_by Store.default_first (select Cas Store.issuing d)) as Hin.
    { destruct (order_by _ _); [done |]. injection Hca as ->. left. }
    by apply elem_of_order_by, elem_of_select_where in Hin as [Hin _].
  - apply returns_query_row; [done |]. intros w ca HI%Hd Hca; rewrite HI in Hca. by apply elem_of_head_scan in Hca as [Hin _].
Qed.

Lemma returns_GetCAByRef d ref :
  returns (fun w => w_db w = d) (fun r => match r with Ok ca => ca ∈ rows (d Cas) | Err _ => True end) (Store.GetCAByRef ref).
Proof. by apply returns_GetCAByRef_in. Qed.

(** The issuer of a request that arrives at [t] is an authority of the store,
    active, with a key and not expired then, and allowed the profile. *)
Definition able_issuer (d : db) (t : Z) (in_ : CaService.IssueInput) (ca : CA.t) (profile : string) : Prop :=
  ca ∈ rows (d Cas) /\ CA.Status ca = StatusActive /\ CA.KeyEnc ca <> EmptyString /\ (t <= CA.NotAfter ca)%Z /\
  Pki.ParseProfile (CaService.in_Profile in_) = Ok profile /\
  (profile = Pki.ProfileIntermCA -> CaService.AllowSubordinateCA in_ = true).

Lemma checkCanIssue_None now ca :
  CaService.checkCanIssue now ca = None -> CA.Status ca = StatusActive /\ CA.KeyEnc ca <> EmptyString /\ (now <= CA.NotAfter ca)%Z.
Proof.
  unfold CaService.checkCanIssue, CA_Expired, CA_HasKey. destruct (str_is _ StatusPending); [done |].
  destruct (nonempty _) eqn:Hk; [| done]. destruct (str_is _ StatusActive) eqn:Hs; [| done]. cbn [negb].
  destruct (Z.ltb_spec (CA.NotAfter ca) now); [done |]. intros _. split; [by apply str_is_eq |]. split; [| done].
  intros E. by rewrite E in Hk.
Qed.

Lemma returns_now d t : returns (since d t) (fun now => (t <= now)%Z) time_Now.
Proof. apply returns_act. intros [d' c [| x ts] fs n] [_ Hc]; simpl in *; lia. Qed.

Lemma returns_issuer d t in_ :
  returns (since d t) (fun r => match r with Ok (ca, _, _, profile) => able_issuer d t in_ ca profile | Err _ => True end)
    (CaService.issuer_of master in_).
Proof.
  unfold CaService.issuer_of. eapply returns_bind; [apply (returns_GetCAByRef_in _ d); by intros w [-> _] |]. intros [ca | e] Hca.
  - eapply returns_bind; [apply returns_now |]. intros now Hnow. destruct (CaService.checkCanIssue now ca) eqn:Hcan; [done |].
    destruct (Pki.ParseCertPEM _); [| done]. destruct (CaService.decryptKey _ _); [| done].
    destruct (Pki.ParseProfile _) as [profile | e] eqn:Hp; [| done].
    destruct (str_is profile Pki.ProfileIntermCA && _) eqn:E; [done |]. apply checkCanIssue_None in Hcan as (Hs & Hk & Hexp).
    split_and!; [done | done | done | exact (Z.le_trans _ _ _ Hnow Hexp) | done |]. intros ->. by apply negb_false_iff in E.
  - destruct (is_not_found e); [| done]. by apply returns_skip.
Qed.

Lemma guar_since d t {A} (p : prog world A) : guar (on_db eq) p -> guar stays_sound p -> guar (fun w w' => since d t w -> since d t w') p.
Proof.
  induction p as [a | X f k IH]; simpl; [done |]. intros [Hd Hdk] [Hs Hsk]. split; [| by intros x; apply IH].
  intros w [<- Hc]. split; [symmetry; apply Hd |]. destruct (Hs w) as [_ Hc']. lia.
Qed.

Lemma wp_issuer in_ w (R : result error _ -> world -> Prop) :
  (forall r w', match r with Ok (ca, _, _, profile) => able_issuer (w_db w) (w_clock w) in_ ca profile | Err _ => True end -> w_db w' = w_db w -> R r w') ->
  wp (CaService.issuer_of master in_) R w.
Proof.
  intros HR. assert (guar (on_db eq) (CaService.issuer_of master in_)) as Hd by guar_walk idtac.
  assert (guar stays_sound (CaService.issuer_of master in_)) as Hs by guar_walk idtac.
  eapply wp_mono; [apply wp_and; [by apply (wp_returns_inv (since (w_db w) (w_clock w))); [apply guar_since | apply returns_issuer |] |
    apply (wp_guar eq); [apply _ | apply _ | exact Hd]] |].
  intros r w' [Hr Hw']. by apply HR.
Qed.

(** The row a successful issuance leaves. *)
Definition issued_row (ca : CA.t) (row : Certificate.t) : Prop :=
  Certificate.CAID row = CA.ID ca /\ Certificate.Status row = StatusActive /\
  Certificate.RevokedAt row = None /\ Certificate.RenewedFrom row = None.

Definition certs (w : world) : list Certificate.t := rows (w_db w Certificates).

(** The id of the new row is its own. *)
Definition added (w : world) (row : Certificate.t) (w' : world) : Prop :=
  certs w' = certs w ++ [row] /\ forall c, c ∈ certs w -> Certificate.ID c <> Certificate.ID row.

Lemma wp_CreateCertificate c (Q : result error Certificate.t -> world -> Prop) w :
  (forall e w', certs w' = certs w \/ (exists row, certs w' = certs w ++ [row]) -> Q (Err e) w') ->
  (forall saved created id w', added w (Store.cert_row c created id) w' -> Certificate.ID saved = id -> Q (Ok saved) w') ->
  wp (Store.CreateCertificate c) Q w.
Proof.
  intros He Hok. unfold Store.CreateCertificate, Store.zero_or_now. apply wp_bind.
  assert (forall created w1, w_db w1 = w_db w -> wp (r <- sql (insert Certificates (Store.cert_row c created)) ;;
     match r with Err e => Ret (Err (Wrapf "insert certificate" e)) | Ok id => Store.GetCertificate id end)%prog Q w1) as Hrest.
  { intros created w1 Hw1. apply wp_bind, wp_sql.
    - intros e fs. apply wp_Ret, He. left. unfold certs. simpl. by rewrite Hw1.
    - intros fs Hv. assert (added w (Store.cert_row c created (seq (w_db w1 Certificates) + 1))
        (with_db (snd (insert Certificates (Store.cert_row c created) (w_db w1))) (with_faults fs w1))) as [Hrows Hfresh].
      { unfold added, certs. cbn [w_db with_db]. pose proof (certificate_ids_NoDup _ Hv) as Hnd. cbn [w_db with_faults] in Hnd.
        rewrite insert_eq in Hnd |- *. cbn [rows] in Hnd |- *.
        rewrite Hw1 in *. split; [done |]. rewrite map_app in Hnd. apply NoDup_app in Hnd as (_ & Hno & _).
        intros x Hx Heq. apply (Hno (Certificate.ID x)); [by apply list_elem_of_fmap_2 |]. rewrite Heq.
        apply list_elem_of_singleton. reflexivity. }
      apply wp_query_row.
      + intros m fs'. apply He. right. eauto.
      + intros fs' _. apply He. right. eauto.
      + intros fs' x Hx. eapply Hok; [split; [exact Hrows | exact Hfresh] |].
        destruct (select1 _ _ _) as [y |] eqn:Hy; [| done]. injection Hx as <-.
        apply List.find_some in Hy as [_ Hid%Z.eqb_eq]. exact Hid. }
  destruct (_ =? 0)%Z; [| by apply wp_Ret, Hrest]. apply wp_now. intros t ts _. by apply Hrest.
Qed.

(** What one issuance adds. *)
Lemma wp_Issue in_ w : wp (CaService.Issue cfg master sink in_) (fun r w' => match r with
  | Ok res => exists ca profile row, able_issuer (w_db w) (w_clock w) in_ ca profile /\ issued_row ca row /\ added w row w' /\
      Certificate.ID (CaService.res_Certificate res) = Certificate.ID row /\ Certificate.Profile row = nz profile "server"
  | Err _ => certs w' = certs w \/ exists row, certs w' = certs w ++ [row]
  end) w.
Proof.
  unfold CaService.Issue.
  apply wp_bind_err, wp_issuer. intros [[[[ca cert] key] profile] | e] w1 Hca Hw1; [| left; unfold certs; by rewrite Hw1]. cbv zeta.
  apply wp_bind_err. eapply wp_reads; [guar_walk idtac | apply returns_any |].
  intros [m | e] w2 _ Hw2; [| left; unfold certs; by rewrite Hw2, Hw1].
  destruct (CaService.san_override in_); [| apply wp_Ret; left; unfold certs; by rewrite Hw2, Hw1].
  apply wp_bind_err. eapply wp_reads; [guar_walk idtac | apply returns_any |].
  intros [res | e] w3 _ Hw3; [| left; unfold certs; by rewrite Hw3, Hw2, Hw1].
  apply wp_bind_err. eapply wp_reads; [guar_walk idtac | apply returns_any |].
  intros [keyEnc | e] w4 _ Hw4; [| left; unfold certs; by rewrite Hw4, Hw3, Hw2, Hw1].
  assert (certs w4 = certs w) as Hcerts by (unfold certs; by rewrite Hw4, Hw3, Hw2, Hw1).
  apply wp_bind_err, wp_CreateCertificate.
  - intros e w5 H5. by rewrite Hcerts in H5.
  - intros saved created id w5 [H5 Hfresh] Hid. apply wp_bind.
    eapply wp_mono; [apply (wp_guar (keeps [Certificates])); [apply _ | apply _ | guar_walk frame] |].
    intros ? w6 H6. apply wp_bind. eapply wp_mono; [apply (wp_guar eq); [apply _ | apply _ | auto with guar] |].
    intros chain w7 H7. apply wp_Ret. exists ca, profile. eexists. split; [exact Hca |].
    split; [| split; [split; [unfold certs in *; rewrite <- H7, (H6 Certificates) by set_solver; rewrite H5; by rewrite Hcerts |] | split; [exact Hid | done]]].
    + unfold issued_row. by repeat split.
    + by rewrite Hcerts in Hfresh.
Qed.

End issue.

(** An issuance from the sample authority. *)
Definition sample_input : CaService.IssueInput :=
  CaService.mkIssue "root" "csr" (Pki.mkSubject "" "" "" "" "" "" "" "" "") [] "" "server" 30
    "CERTIFICATE REQUEST:a.test;a.test" "" None "" "ann" false.


(** ** The chain above an authority *)

Section chain.
Context `{Pki.Std}.

(** [line d c l]: following the parents of [c] in the store leads through [l]
    to a root. *)
Inductive line (d : db) : CA.t -> list CA.t -> Prop :=
| line_root c : CA.ParentID c = None -> line d c [c]
| line_parent c pid p l :
    CA.ParentID c = Some pid -> select1 Cas (fun c => CA.ID c =? pid)%Z d = Some p -> line d p l -> line d c (c :: l).

Definition parses (c : CA.t) (cert : Pki.Cert Pki.PublicKey) : Prop := Pki.ParseCertPEM (CA.CertPEM c) = Ok cert.

Lemma run_query_row {X} (f : db -> option X) w :
  healthy w -> run (query_row f) w = (match f (w_db w) with Some x => Ok x | None => Err ErrNotFound end, w).
Proof.
  intros Hw. unfold query_row. rewrite run_bind, run_query by done. simpl. by destruct (f (w_db w)).
Qed.

Lemma chain_loop_line n w c l certs chain :
  healthy w -> line (w_db w) c l -> Forall2 parses l certs ->
  run (CaService.chain_loop n c chain) w = (Ok (chain ++ take n certs), w).
Proof.
  intros Hw. revert c l certs chain. induction n as [| n IH]; intros c l certs chain Hl Hc.
  { simpl. by rewrite app_nil_r. }
  cbn [CaService.chain_loop]. destruct Hl as [c Hroot | c pid p l Hpid Hp Hl].
  - apply Forall2_cons_inv_l in Hc as (cert & certs' & Hparse & Hnil & ->). apply Forall2_nil_inv_l in Hnil as ->.
    unfold parses in Hparse. rewrite Hparse, Hroot. simpl. by rewrite firstn_nil.
  - apply Forall2_cons_inv_l in Hc as (cert & certs' & Hparse & Hc & ->).
    unfold parses in Hparse. rewrite Hparse, Hpid, run_bind. unfold Store.GetCA. rewrite run_query_row by done.
    rewrite Hp. cbn [fst snd]. rewrite (IH p l certs') by done. simpl. by rewrite <- app_assoc.
Qed.

(** The chain of an authority is the line of its parents up to the root,
    its own certificate first, as the certificates parse; beyond sixteen it is
    the first sixteen. *)
Theorem chain_is_the_line_of_parents w c l certs :
  healthy w -> line (w_db w) c l -> Forall2 parses l certs ->
  run (CaService.CAChain c) w = (Ok (take 16 certs), w).
Proof. intros Hw Hl Hc. exact (chain_loop_line 16 w c l certs [] Hw Hl Hc). Qed.

Lemma returns_chain_loop I n c chain :
  returns I (fun r => match r with Ok l => length chain <= length l <= length chain + n | Err _ => True end)
    (CaService.chain_loop n c chain).
Proof.
  revert c chain. induction n as [| n IH]; intros c chain; cbn [CaService.chain_loop].
  { simpl. lia. }
  assert (forall cert : Pki.Cert Pki.PublicKey, length (chain ++ [cert]) = S (length chain)) as Hlen
    by (intros cert; rewrite length_app; simpl; lia).
  destruct (Pki.ParseCertPEM _) as [cert | e]; [| done]. cbv zeta.
  destruct (CA.ParentID c) as [pid |]; [| simpl; rewrite Hlen; lia].
  apply returns_skip. intros [parent | e]; [| simpl; rewrite Hlen; lia].
  eapply returns_mono; [apply IH |]. intros [l | e]; [| done]. rewrite Hlen. lia.
Qed.

Definition at_most {E A} (n : nat) (r : result E (list A)) : Prop :=
  match r with Ok l => length l <= n | Err _ => True end.

(** Whatever the parents are, a cycle of them included, and whatever the
    other requests do meanwhile, following them ends, with at most sixteen
    certificates. *)
Theorem chain_is_bounded c : returns (fun _ : world => True) (at_most 16) (CaService.CAChain c).
Proof.
  eapply returns_mono; [apply returns_chain_loop |]. intros [l | e]; [| done]. unfold at_most. simpl. lia.
Qed.
End chain.

Lemma chain_is_the_line_of_parents_witness :
  run (CaService.CAChain Sample.root) Sample.start
  = (Ok (take 16 [match Sample.cert_of "1;CA;Root;" with Ok c => c | Err _ => Pki.mkCert "" 0 (Sample.name_of "") (Sample.name_of "") 0 0 0 [] true false 0 false [] [] [] [] [] [] [] "" "" "" "" end]), Sample.start).
Proof.
  refine (chain_is_the_line_of_parents Sample.start Sample.root [Sample.root] _ eq_refl _ _).
  - by constructor.
  - constructor; [vm_compute; reflexivity | constructor].
Defined.
End IssueFacts.
