(* ===== verification/LifecycleFacts.v ===== *)
(** * What the lifecycle operations guarantee

    The requests about certificates; the history of renewals is a line of
    certificates of bounded length; a renewal adds one certificate that names
    its predecessor; and the retirement of an authority comes to an end and
    reaches everything below it. *)

From S2P Require Import Prelude GoStrings Effects Models Schema SqlFacts Store Pki Sealing CaService CaFacts IssueFacts CaLifecycle Sample.

Module LifecycleFacts.
Import CaFacts IssueFacts.

(** ** Requests about certificates *)

Section requests.
Context `{Pki.Std} `{Ciphers} `{RowOrder}.
Context (cfg : CaService.Config) (master : string).
Context (sink : string -> string -> string -> string -> string -> prog world unit).
Context (Hsink : forall a b c d e, guar (on_db (keeps [Certificates])) (sink a b c d e)).

(** A request to the certificate service. *)
Inductive op :=
| IssueOp (in_ : CaService.IssueInput)
| RevokeOp (id reason : Z) (actor : string)
| HoldOp (id : Z) (actor : string)
| ReleaseOp (id : Z) (actor : string)
| BulkOp (in_ : CaLifecycle.BulkRevokeInput)
| RetireOp (fuel : nat) (id reason : Z) (cascade : bool) (actor : string)
| RenewOp (id : Z) (in_ : CaLifecycle.RenewInput)
| RenewExpiringOp (days : Z) (in_ : CaLifecycle.RenewInput)
| CrlOp (id : Z) (actor : string).

Definition op_run (o : op) : prog world unit :=
  match o with
  | IssueOp in_ => CaService.Issue cfg master sink in_ ;;; Ret tt
  | RevokeOp id reason actor => CaService.Revoke sink id reason actor ;;; Ret tt
  | HoldOp id actor => CaLifecycle.Hold sink id actor ;;; Ret tt
  | ReleaseOp id actor => CaLifecycle.Release sink id actor ;;; Ret tt
  | BulkOp in_ => CaLifecycle.BulkRevoke sink in_ ;;; Ret tt
  | RetireOp fuel id reason cascade actor => CaLifecycle.RevokeCA sink fuel id reason cascade actor ;;; Ret tt
  | RenewOp id in_ => CaLifecycle.Renew cfg master sink id in_ ;;; Ret tt
  | RenewExpiringOp days in_ => CaLifecycle.RenewExpiring cfg master sink days in_ ;;; Ret tt
  | CrlOp id actor => CaService.GenerateCRL cfg master sink id actor ;;; Ret tt
  end%prog.
End requests.

(** ** The history of renewals *)

Section history.
Context `{RowOrder}.

(** [replaces a b]: [b] was renewed from [a]. *)
Definition replaces (a b : Certificate.t) : Prop := Certificate.RenewedFrom b = Some (Certificate.ID a).

Lemma Sorted_snoc {A} (R : A -> A -> Prop) l x y : Sorted R (l ++ [x]) -> R x y -> Sorted R ((l ++ [x]) ++ [y]).
Proof.
  intros Hs Hxy. induction l as [| a l IH]; simpl in *; [by repeat constructor |].
  inversion Hs as [| ? ? Hl Hhd]; subst. constructor; [by apply IH |].
  destruct l as [| b l]; simpl in *; inversion Hhd; by constructor.
Qed.

Lemma head_elem {A} (l : list A) x : head l = Some x -> x ∈ l.
Proof. destruct l; [done |]. intros [= ->]. left. Qed.

Lemma returns_history_back n cur back rest I :
  head (back ++ rest) = Some cur -> Sorted replaces (back ++ rest) ->
  returns I (fun l => Sorted replaces (l ++ rest) /\ length l <= n + length back) (CaLifecycle.history_back n cur back).
Proof.
  revert cur back. induction n as [| n IH]; intros cur back Hhead Hs; [split; [done | lia] |].
  cbn [CaLifecycle.history_back]. destruct (Certificate.RenewedFrom cur) as [id |] eqn:Hid; [| split; [done | lia]].
  eapply returns_bind with (Q := fun r => match r with Ok prev => replaces prev cur | Err _ => True end).
  - apply returns_query_row; [done |]. intros w x _ Hx. destruct (select1 _ _ _) as [y |] eqn:Hy; [| done].
    injection Hx as <-. apply List.find_some in Hy as [_ Hy%Z.eqb_eq]. unfold replaces. rewrite Hid. f_equal. symmetry. exact Hy.
  - intros [prev | e] Hprev; [| split; [done | lia]].
    eapply returns_mono; [apply (IH prev (prev :: back)); [done |] |].
    + simpl. constructor; [done |]. destruct (back ++ rest); [done |]. injection Hhead as ->. by constructor.
    + intros l [Hl Hlen]. split; [done |]. simpl in Hlen. lia.
Qed.

Lemma returns_history_forward n next chain I :
  Sorted replaces (chain ++ [next]) ->
  returns I (fun l => Sorted replaces l /\ (exists tl, l = (chain ++ [next]) ++ tl) /\ length l <= n + length (chain ++ [next]))
    (CaLifecycle.history_forward n next (chain ++ [next])).
Proof.
  revert next chain. induction n as [| n IH]; intros next chain Hs.
  { split; [done |]. split; [exists []; by rewrite app_nil_r | lia]. }
  cbn [CaLifecycle.history_forward].
  assert (Sorted replaces (chain ++ [next]) /\ (exists tl, chain ++ [next] = (chain ++ [next]) ++ tl) /\
    length (chain ++ [next]) <= S n + length (chain ++ [next])) as Hstop.
  { split; [done |]. split; [exists []; by rewrite app_nil_r | lia]. }
  eapply returns_bind with (Q := fun r => match r with Ok (Some s) => replaces next s | _ => True end).
  - apply returns_query; [done |]. intros w _. unfold option_map.
    destruct (head _) as [y |] eqn:Hy; [| done].
    apply head_elem, elem_of_order_by, elem_of_select_where in Hy as [_ Hr]. unfold Store.renews in Hr.
    unfold replaces. simpl. destruct (Certificate.RenewedFrom y); [| done]. by apply Z.eqb_eq in Hr as ->.
  - intros [[s |] | e] Hsucc; [| exact Hstop | exact Hstop].
    eapply returns_mono; [apply (IH s (chain ++ [next])); by apply Sorted_snoc |].
    intros l (Hl & (tl & ->) & Hlen). split; [done |]. split; [exists ([s] ++ tl); by rewrite !app_assoc |].
    rewrite (length_app (chain ++ [next]) [s]) in Hlen. simpl in Hlen. lia.
Qed.

(** What a history is: each certificate was renewed from the one before it, the
    certificate asked about is one of them, and there are at most 64 before it
    and 64 after it. *)
Definition history_of (c : Certificate.t) (r : result error (list Certificate.t)) : Prop :=
  match r with
  | Ok l => Sorted replaces l /\ exists before after, l = before ++ c :: after /\ length before <= 64 /\ length after <= 64
  | Err _ => False
  end.

(** The renewal history of a certificate always comes back, whatever links
    the rows hold - cycles included - and whatever other requests change
    meanwhile: the certificate with at most 64 predecessors and at most 64
    successors, each renewed from the one listed before it. *)
Theorem renewal_history_is_a_line c :
  returns (fun _ : world => True) (history_of c) (CaLifecycle.RenewalHistory c).
Proof.
  unfold CaLifecycle.RenewalHistory.
  eapply returns_bind; [apply (returns_history_back 64 c [] [c]); [done | by repeat constructor] |].
  intros back [Hs Hlen]. eapply returns_bind; [by apply returns_history_forward |].
  intros l (Hl & (tl & ->) & Hlen'). split; [done |]. exists back, tl.
  rewrite !length_app in Hlen'. simpl in *. split; [by rewrite <- app_assoc | lia].
Qed.
End history.

(** ** Renewal *)

Section renewal.
Context `{Pki.Std} `{Ciphers} `{RowOrder}.
Context (cfg : CaService.Config) (master : string).
Context (sink : string -> string -> string -> string -> string -> prog world unit).
Context (Hsink : forall a b c d e, guar (on_db (keeps [Certificates])) (sink a b c d e)).

(** Superseding the predecessor, if that is done. *)
Definition superseded (id : Z) (at_ : option Z) (l : list Certificate.t) : list Certificate.t :=
  match at_ with
  | Some now => update_where (fun c => (Certificate.ID c =? id)%Z && negb (str_is (Certificate.Status c) StatusRevoked))
                  (Store.set_revocation StatusRevoked (Some now) Pki.ReasonSuperseded) l
  | None => l
  end.

Lemma wp_SetRenewedFrom w0 row id (Q : result error unit -> world -> Prop) w :
  added w0 row w -> (forall e, Q (Err e) w) -> (forall e w', certs w' = certs w -> Q (Err e) w') ->
  (forall w', added w0 (Certificate.set_RenewedFrom (Some id) row) w' -> Q (Ok tt) w') ->
  wp (Store.SetRenewedFrom (Certificate.ID row) id) Q w.
Proof.
  intros [Hrows Hfresh] He He' Hok. apply wp_exec; [intros e fs; by apply He' |].
  intros fs _. apply Hok. split; [| done]. unfold certs in *. cbn [w_db with_db with_faults].
  rewrite update_eq. cbn [rows]. rewrite Hrows. etrans; [apply update_where_app |]. f_equal.
  - apply update_where_none. intros x Hx. apply Z.eqb_neq. by apply Hfresh.
  - cbn. by rewrite Z.eqb_refl.
Qed.

Lemma wp_revoke_old in_ old serial w0 row (Q : result error bool -> world -> Prop) w :
  added w0 row w -> (exists x, x ∈ certs w0 /\ Certificate.ID x = Certificate.ID old) ->
  (forall e w', certs w' = certs w0 ++ [row] -> Q (Err e) w') ->
  (forall at_ w', (at_ = None <-> CaLifecycle.RevokeOld in_ = false \/ Certificate.Status old = StatusRevoked) ->
     certs w' = superseded (Certificate.ID old) at_ (certs w0) ++ [row] -> Q (Ok (match at_ with Some _ => true | None => false end)) w') ->
  wp (CaLifecycle.revoke_old in_ old serial) Q w.
Proof.
  intros [Hrows Hfresh] (x & Hx & Hxid) He Hok. unfold CaLifecycle.revoke_old.
  destruct (CaLifecycle.RevokeOld in_ && _) eqn:Hdo.
  - apply andb_true_iff in Hdo as [Hdo Hst%negb_true_iff]. unfold Store.RevokeCertificate.
    apply wp_bind, wp_bind, wp_now. intros t ts _. apply wp_bind_err, wp_sql; [intros e fs; by apply wp_Ret, He |].
    intros fs _. apply wp_Ret. unfold certs in *. destruct (Nat.eqb _ 0) eqn:Hn.
    + apply Nat.eqb_eq in Hn. cbn [w_db] in Hn. rewrite update_count, Hrows in Hn. rewrite affected_0 in Hn. apply wp_Ret, He.
      cbn [w_db with_db with_faults]. rewrite update_eq. cbn [rows]. rewrite Hrows. by apply update_where_none.
    + apply wp_Ret, (Hok (Some t)).
      * split; [done |]. intros [Hf | Hr]; [congruence |]. rewrite Hr in Hst. done.
      * cbn [w_db with_db with_faults]. rewrite update_eq. cbn [rows]. rewrite Hrows. etrans; [apply update_where_app |]. unfold superseded. f_equal.
        cbn. destruct (Z.eqb_spec (Certificate.ID row) (Certificate.ID old)) as [Heq |]; [| done].
        exfalso. apply (Hfresh x Hx). congruence.
  - apply wp_Ret, (Hok None); [| by rewrite Hrows]. split; [intros _ | done].
    apply andb_false_iff in Hdo as [? | Hst%negb_false_iff]; [by left | right]. by apply str_is_eq in Hst.
Qed.

(** What a renewal leaves: the certificates as they were, the predecessor
    superseded if that was asked for and it was not revoked yet, and one new
    active certificate of the same profile that names its predecessor. *)
Definition renewed (id : Z) (in_ : CaLifecycle.RenewInput) (before after : list Certificate.t)
    (out : CaLifecycle.RenewResult) : Prop :=
  exists old new at_,
    old ∈ before /\ Certificate.ID old = id /\ after = superseded id at_ before ++ [new] /\
    (at_ = None <-> CaLifecycle.RevokeOld in_ = false \/ Certificate.Status old = StatusRevoked) /\
    CaLifecycle.RevokedOld out = negb (bool_decide (at_ = None)) /\
    Certificate.ID (CaLifecycle.rr_Certificate out) = Certificate.ID new /\
    replaces old new /\ Certificate.Status new = StatusActive /\ Certificate.RevokedAt new = None.

(** C12.  A renewal that succeeds adds one active certificate that names its
    predecessor, and changes nothing else but the predecessor: superseded when
    the caller asked for it and it was not revoked already.  One that fails
    leaves every certificate as it was; at most the new one has been added. *)
Theorem renew_spec id in_ w w' r :
  run (CaLifecycle.Renew cfg master sink id in_) w = (r, w') ->
  match r with
  | Ok out => renewed id in_ (certs w) (certs w') out
  | Err _ => certs w' = certs w \/ exists new, certs w' = certs w ++ [new]
  end.
Proof.
  intros Hrun. enough (wp (CaLifecycle.Renew cfg master sink id in_) (fun r w' => match r with
    | Ok out => renewed id in_ (certs w) (certs w') out
    | Err _ => certs w' = certs w \/ exists new, certs w' = certs w ++ [new]
    end) w) as Hwp by (unfold wp in Hwp; by rewrite Hrun in Hwp).
  clear Hrun. unfold CaLifecycle.Renew. apply wp_bind_err, wp_query_row; [by left | by left |].
  intros fs old Hold. destruct (select1 _ _ _) as [old0 |] eqn:Hold0; [| done]. injection Hold as <-.
  apply List.find_some in Hold0 as [Hin%list_elem_of_In Hid%Z.eqb_eq].
  set (old := Store.scanCert (w_db w) old0). set (w1 := with_faults fs w).
  assert (Certificate.ID old = id) as Hold by exact Hid.
  apply wp_bind. eapply wp_reads; [guar_walk idtac | apply returns_any |]. intros caRef w2 _ Hw2.
  destruct (CaLifecycle.subjectOf old) as [subject | e]; [| apply wp_Ret; left; unfold certs; by rewrite Hw2].
  apply wp_bind_err. eapply wp_reads; [guar_walk idtac | apply returns_any |].
  intros [issue | e] w3 _ Hw3; [| left; unfold certs; by rewrite Hw3, Hw2].
  assert (certs w3 = certs w) as Hcerts by (unfold certs; by rewrite Hw3, Hw2).
  apply wp_bind_err. eapply wp_mono; [apply (wp_Issue cfg master sink Hsink issue w3) |].
  intros [res | e] w4; [| by rewrite Hcerts]. intros (ca & profile & row & _ & Hrow & Hadd & Hrid & Hprof).
  destruct Hadd as [Hadd Hfresh]. rewrite Hcerts in Hadd, Hfresh. cbv zeta. rewrite Hrid.
  apply wp_bind_err. apply (wp_SetRenewedFrom w row); [by split | right; eauto | intros e w5 ->; right; eauto |].
  intros w5 Hadd5. apply wp_bind_err.
  apply (wp_revoke_old _ _ _ w (Certificate.set_RenewedFrom (Some (Certificate.ID old)) row) _ _ Hadd5).
  - exists old0. split; [exact Hin | done].
  - intros e w6 H6. right. eauto.
  - intros at_ w6 Hat H6. apply wp_bind.
    eapply wp_mono; [apply (wp_guar (keeps [Certificates])); [apply _ | apply _ | guar_walk frame] |].
    intros ? w7 H7. apply wp_Ret. unfold certs in *. rewrite (H7 Certificates) by set_solver.
    exists old0, (Certificate.set_RenewedFrom (Some (Certificate.ID old)) row), at_. rewrite <- Hold.
    destruct Hrow as (_ & Hst & Hrev & _).
    split; [exact Hin |]. split; [done |]. split; [exact H6 |]. split; [exact Hat |].
    split; [by destruct at_ |]. split; [exact Hrid |]. repeat split; [exact Hst | exact Hrev].
Qed.
End renewal.

(** ** Retiring an authority *)

Definition ca_step (a b : CA.t) : Prop :=
  CA.ID b = CA.ID a /\ CA.ParentID b = CA.ParentID a /\ (CA.Status a = StatusDisabled -> CA.Status b = StatusDisabled).
Definition cert_step (a b : Certificate.t) : Prop :=
  Certificate.ID b = Certificate.ID a /\ Certificate.CAID b = Certificate.CAID a /\
  (Certificate.Status a = StatusRevoked -> Certificate.Status b = StatusRevoked).

#[global] Instance ca_step_refl : Reflexive ca_step.
Proof. done. Qed.
#[global] Instance ca_step_trans : Transitive ca_step.
Proof. unfold ca_step. intros a b c. intuition congruence. Qed.
#[global] Instance cert_step_refl : Reflexive cert_step.
Proof. done. Qed.
#[global] Instance cert_step_trans : Transitive cert_step.
Proof. unfold cert_step. intros a b c. intuition congruence. Qed.

(** Authorities and certificates stay the same ones; none of them is enabled
    or reinstated. *)
Definition retiring (d d' : db) : Prop :=
  Forall2 ca_step (rows (d Cas)) (rows (d' Cas)) /\ Forall2 cert_step (rows (d Certificates)) (rows (d' Certificates)).

#[global] Instance retiring_refl : Reflexive retiring.
Proof. split; reflexivity. Qed.
#[global] Instance retiring_trans : Transitive retiring.
Proof. intros d1 d2 d3 [H1 H2] [H3 H4]. split; by etrans. Qed.

Lemma retiring_keeps d d' : keeps [Cas; Certificates] d d' -> retiring d d'.
Proof. intros Hk. unfold retiring. rewrite (Hk Cas), (Hk Certificates) by set_solver. split; reflexivity. Qed.

Lemma retiring_disable p d : retiring d (snd (update Cas p (CA.set_Status StatusDisabled) d)).
Proof.
  split; [rewrite update_eq; apply Forall2_update_where; [apply _ | by intros x] | rewrite update_ne by done; reflexivity].
Qed.

Lemma retiring_revoke p at_ code d : retiring d (snd (update Certificates p (Store.set_revocation StatusRevoked at_ code) d)).
Proof.
  split; [rewrite update_ne by done; reflexivity | rewrite update_eq; apply Forall2_update_where; [apply _ | by intros x]].
Qed.

Ltac retire_leaf := first [ apply retiring_disable | apply retiring_revoke | apply retiring_keeps; frame ].

Lemma retiring_RevokeCertificate id reason : guar (on_db retiring) (Store.RevokeCertificate id reason).
Proof. guar_walk retire_leaf. Qed.

Section retire.
Context `{RowOrder}.
Context (sink : string -> string -> string -> string -> string -> prog world unit).
Context (reason : Z) (actor : string).

(** *** The recursion ends *)

(** Parents rank above their children: there is no cycle of parents. *)
Definition ranked (rank : Z -> nat) (d : db) : Prop :=
  forall c p, c ∈ rows (d Cas) -> CA.ParentID c = Some p -> rank (CA.ID c) < rank p.

Lemma returns_sweep_children I rec children out :
  (forall c, c ∈ children -> returns I (fun r => r <> None) (rec (CA.ID c))) ->
  returns I (fun r => r <> None) (CaLifecycle.sweep_children rec children out).
Proof.
  revert out. induction children as [| c cs IH]; intros out Hrec; [done |]. cbn [CaLifecycle.sweep_children].
  eapply returns_bind; [apply Hrec; left |]. intros [[sub | e] |] Hsub; [| | done];
    (apply IH; intros x Hx; apply Hrec; by right).
Qed.

Lemma returns_finish I {A} (p : prog world A) (q : A -> prog world unit) (f : A -> result error CaLifecycle.RevokeCAResult) :
  returns I (fun r => r <> None) (a <- p ;; q a ;;; Ret (Some (f a)))%prog.
Proof. apply returns_skip. intros a. by apply returns_skip. Qed.

Lemma returns_RevokeCA rank fuel id cascade :
  rank id < fuel ->
  returns (fun w => ranked rank (w_db w)) (fun r => r <> None) (CaLifecycle.RevokeCA sink fuel id reason cascade actor).
Proof.
  revert id cascade. induction fuel as [| fuel IH]; intros id cascade Hrank; [lia |]. cbn [CaLifecycle.RevokeCA].
  apply returns_skip. intros [c | e]; [| done]. apply returns_skip. intros [u | e]; [| done]. cbv zeta.
  destruct cascade; [| apply returns_finish].
  apply returns_skip. intros [[certs n] | e]; [| done]. apply returns_skip. intros out.
  eapply returns_bind with (Q := fun r => match r with Ok l => forall c, c ∈ l -> rank (CA.ID c) < rank id | Err _ => True end).
  - apply returns_query; [done |]. intros w Hw x Hx. apply elem_of_scan, elem_of_select_where in Hx as [Hx Hp].
    destruct (CA.ParentID x) as [p |] eqn:Hpar; [| done]. apply Z.eqb_eq in Hp as ->. by apply Hw.
  - intros [children | e] Hch; [| apply returns_finish]. eapply returns_bind.
    + apply returns_sweep_children. intros child Hchild. apply IH. specialize (Hch child Hchild). lia.
    + intros [out' |] Hout; [apply returns_finish | done].
Qed.

(** C38.  Retiring an authority comes back with an answer, in as many nested
    calls as the authorities below it are deep, whatever fails and whatever
    other requests do, as long as no authority descends from itself. *)
Theorem revoke_ca_terminates rank fuel id cascade :
  rank id < fuel ->
  returns (fun w => ranked rank (w_db w)) (fun r => r <> None) (CaLifecycle.RevokeCA sink fuel id reason cascade actor).
Proof. apply returns_RevokeCA. Qed.

(** *** It reaches everything below *)

Definition steady {A} (p : prog world A) : Prop := guar (on_db retiring) p /\ guar stays_sound p.

Context (Hsink : forall a b c d e, guar (on_db (keeps [Cas; Certificates])) (sink a b c d e)).

Lemma retiring_sink a b c d e : guar (on_db retiring) (sink a b c d e).
Proof. eapply guar_weaken; [| apply Hsink]. intros s s'. apply retiring_keeps. Qed.
#[local] Hint Resolve retiring_sink : guar.

Lemma retiring_audit a b c d : guar (on_db retiring) (CaService.audit sink a b c d).
Proof. guar_walk retire_leaf. Qed.

Context (Hsound : forall a b c d e, guar stays_sound (sink a b c d e)).
#[local] Hint Resolve retiring_audit Hsound : guar.

Lemma guar_sweep G (HG : forall id, guar G (Store.RevokeCertificate id reason)) certs out :
  guar G (CaLifecycle.sweep_certs reason certs out).
Proof.
  revert out. induction certs as [| c cs IH]; intros out; cbn [CaLifecycle.sweep_certs]; [done |].
  apply guar_bind; [| auto]. unfold CaLifecycle.sweep_one. destruct (str_is _ _); [done |]. by apply guar_bind.
Qed.

Lemma guar_children G rec children out :
  (forall id, guar G (rec id)) -> guar G (CaLifecycle.sweep_children rec children out).
Proof.
  intros Hrec. revert out. induction children as [| c cs IH]; intros out; cbn [CaLifecycle.sweep_children]; [done |].
  apply guar_bind; [done |]. intros [[sub | e] |]; auto. done.
Qed.

Lemma steady_RevokeCertificate id : steady (Store.RevokeCertificate id reason).
Proof. split; [apply retiring_RevokeCertificate | guar_walk retire_leaf]. Qed.

Lemma steady_sweep certs out : steady (CaLifecycle.sweep_certs reason certs out).
Proof. split; apply guar_sweep; intros id; apply (steady_RevokeCertificate id). Qed.

Lemma steady_tell_parent c out : steady (CaLifecycle.tell_parent c reason out).
Proof. split; guar_walk retire_leaf. Qed.

Lemma steady_audit a b c d : steady (CaService.audit sink a b c d).
Proof. split; [apply retiring_audit | guar_walk retire_leaf]. Qed.

Lemma steady_bind {A B} (p : prog world A) (q : A -> prog world B) :
  steady p -> (forall a, steady (q a)) -> steady (bind p q).
Proof. intros [Hp1 Hp2] Hq. split; apply guar_bind; [done | apply Hq | done | apply Hq]. Qed.

Lemma steady_RevokeCA fuel id cascade : steady (CaLifecycle.RevokeCA sink fuel id reason cascade actor).
Proof.
  revert id cascade. induction fuel as [| fuel IH]; intros id cascade; [done |]. cbn [CaLifecycle.RevokeCA].
  assert (forall A (f : A -> result error CaLifecycle.RevokeCAResult) (p : prog world A) a b c d,
    steady p -> steady (x <- p ;; CaService.audit sink a b c (d x) ;;; Ret (Some (f x)))%prog) as Hfin.
  { intros A f p a b c d Hp. apply steady_bind; [done |]. intros x. apply steady_bind; [apply steady_audit | done]. }
  apply steady_bind; [split; guar_walk retire_leaf |]. intros [c | e]; [| done].
  apply steady_bind; [split; guar_walk retire_leaf |]. intros [u | e]; [| done]. cbv zeta.
  destruct cascade; [| apply Hfin, steady_tell_parent].
  apply steady_bind; [split; guar_walk retire_leaf |]. intros [[certs n] | e]; [| done].
  apply steady_bind; [apply steady_sweep |]. intros out.
  apply steady_bind; [split; guar_walk retire_leaf |]. intros [children | e]; [| apply Hfin, steady_tell_parent].
  apply steady_bind; [split; apply guar_children; intros child; apply IH |].
  intros [out' |]; [apply Hfin, steady_tell_parent | done].
Qed.

Lemma wp_steady {A} (p : prog world A) (Q : A -> world -> Prop) w :
  steady p -> sound w -> (forall a w', retiring (w_db w) (w_db w') -> sound w' -> Q a w') -> wp p Q w.
Proof.
  intros [Hp1 Hp2] Hw HQ. eapply wp_mono; [apply wp_and; [apply (wp_guar retiring); [apply _ | apply _ | exact Hp1] | by apply wp_sound] |].
  intros a w' [H1 H2]. by apply HQ.
Qed.

(** The authority [b] is [a] or descends from it. *)
Definition child_of (d : db) (a b : Z) : Prop :=
  exists c, c ∈ rows (d Cas) /\ CA.ID c = b /\ CA.ParentID c = Some a.
Definition below (d : db) : Z -> Z -> Prop := rtc (child_of d).

(** The authority issues nothing any more and nothing it issued counts. *)
Definition retired (d : db) (id : Z) : Prop :=
  (forall c, c ∈ rows (d Cas) -> CA.ID c = id -> CA.Status c = StatusDisabled) /\
  (forall r, r ∈ rows (d Certificates) -> Certificate.CAID r = id -> Certificate.Status r = StatusRevoked).
Definition all_retired (d : db) (id : Z) : Prop := forall x, below d id x -> retired d x.

Lemma Forall2_in_l {A} (R : A -> A -> Prop) l k x : Forall2 R l k -> x ∈ l -> exists y, y ∈ k /\ R x y.
Proof. intros Hl (i & Hi)%list_elem_of_lookup. destruct (Forall2_lookup_l _ _ _ _ _ Hl Hi) as (y & Hy & HR). exists y. split; [by eapply list_elem_of_lookup_2 | done]. Qed.
Lemma Forall2_in_r {A} (R : A -> A -> Prop) l k y : Forall2 R l k -> y ∈ k -> exists x, x ∈ l /\ R x y.
Proof. intros Hl (i & Hi)%list_elem_of_lookup. destruct (Forall2_lookup_r _ _ _ _ _ Hl Hi) as (x & Hx & HR). exists x. split; [by eapply list_elem_of_lookup_2 | done]. Qed.

Lemma retiring_retired d d' id : retiring d d' -> retired d id -> retired d' id.
Proof.
  intros [Hcas Hcerts] [H1 H2]. split.
  - intros c' Hc' Hid. destruct (Forall2_in_r _ _ _ _ Hcas Hc') as (c & Hc & Hcid & _ & Hst). apply Hst, H1; [done | congruence].
  - intros c' Hc' Hid. destruct (Forall2_in_r _ _ _ _ Hcerts Hc') as (c & Hc & _ & Hcid & Hst). apply Hst, H2; [done | congruence].
Qed.

Lemma retiring_child d d' a b : retiring d d' -> child_of d' a b -> child_of d a b.
Proof.
  intros [Hcas _] (c' & Hc' & Hid & Hp). destruct (Forall2_in_r _ _ _ _ Hcas Hc') as (c & Hc & Hcid & Hcp & _).
  exists c. split; [done |]. split; congruence.
Qed.

Lemma retiring_all d d' id : retiring d d' -> all_retired d id -> all_retired d' id.
Proof.
  intros Hd Hall x Hx. apply (retiring_retired d); [done |]. apply Hall.
  eapply rtc_subrel; [| exact Hx]. intros a b. by apply retiring_child.
Qed.

(** Ids come from sequences, and one search sees everything an authority
    issued. *)
Definition searchable (d : db) : Prop :=
  forall c, c ∈ rows (d Cas) -> (0 < CA.ID c)%Z /\
    (Z.of_nat (affected (fun r : Certificate.t => (Certificate.CAID r =? CA.ID c)%Z) (rows (d Certificates))) <= 10000)%Z.
Definition known (d : db) (id : Z) : Prop := exists c, c ∈ rows (d Cas) /\ CA.ID c = id.

Lemma affected_Forall2 {A} (R : A -> A -> Prop) (p : A -> bool) l k :
  (forall x y, R x y -> p x = p y) -> Forall2 R l k -> affected p l = affected p k.
Proof.
  intros Hp Hl. unfold affected. induction Hl as [| x y l k Hxy Hl IH]; simpl; [done |].
  rewrite (Hp x y Hxy). destruct (p y); simpl; by rewrite IH.
Qed.

Lemma retiring_searchable d d' : retiring d d' -> searchable d -> searchable d'.
Proof.
  intros [Hcas Hcerts] Hs c' Hc'. destruct (Forall2_in_r _ _ _ _ Hcas Hc') as (c & Hc & Hid & _).
  destruct (Hs c Hc) as [Hpos Hle]. rewrite Hid. split; [done |].
  rewrite <- (affected_Forall2 cert_step _ _ _ (fun x y Hxy => f_equal (fun z => z =? CA.ID c)%Z (eq_sym (proj1 (proj2 Hxy)))) Hcerts).
  exact Hle.
Qed.

Lemma retiring_known d d' id : retiring d d' -> known d id -> known d' id.
Proof.
  intros [Hcas _] (c & Hc & Hid). destruct (Forall2_in_l _ _ _ _ Hcas Hc) as (c' & Hc' & Hcid & _).
  exists c'. split; [done | congruence].
Qed.

Lemma search_matches_issued now id (c : Certificate.t) :
  (0 < id)%Z -> Store.search_matches now (CaLifecycle.issued_by id) c = (Certificate.CAID c =? id)%Z.
Proof. intros Hid. unfold Store.search_matches. cbn. apply Z.ltb_lt in Hid as ->. by rewrite !andb_true_r. Qed.

Lemma wp_search id w (Q : result error (list Certificate.t * Z) -> world -> Prop) :
  sound w -> searchable (w_db w) -> known (w_db w) id ->
  (forall l n w', w_db w' = w_db w -> sound w' ->
     (forall r, r ∈ rows (w_db w Certificates) -> Certificate.CAID r = id -> Store.scanCert (w_db w) r ∈ l) ->
     (forall c, c ∈ l -> exists r, r ∈ rows (w_db w Certificates) /\ c = Store.scanCert (w_db w) r) -> Q (Ok (l, n)) w') ->
  wp (Store.SearchCertificates (CaLifecycle.issued_by id)) Q w.
Proof.
  intros Hw Hs (ca & Hca & Hid) HQ. destruct (Hs ca Hca) as [Hpos Hle]. rewrite Hid in Hpos, Hle.
  unfold Store.SearchCertificates. apply wp_bind, wp_now. intros now ts _.
  set (w1 := mkWorld (w_db w) now ts (w_faults w) (w_draws w)). assert (sound w1) as Hw1 by exact Hw.
  apply wp_bind_err, wp_query_sound; [done |]. apply wp_bind_err, wp_query_sound; [done |].
  apply wp_Ret. apply HQ; [done | done | |].
  - intros r Hr Hca'. apply list_elem_of_fmap_2. cbn [w_db w1 CaLifecycle.issued_by Store.f_Limit Store.f_Offset].
    replace (10000 <=? 0)%Z with false by done. rewrite drop_0, take_ge.
    + apply elem_of_order_by, elem_of_select_where. split; [done |]. etrans; [by apply search_matches_issued |]. by apply Z.eqb_eq.
    + rewrite (Permutation_length (order_by_perm _ _)). unfold affected in Hle. unfold select, select_where.
      erewrite List.filter_ext; [apply Nat2Z.inj_le; rewrite Z2Nat.id by lia; exact Hle |].
      intros c. by apply search_matches_issued.
  - intros c (r & -> & Hr)%list_elem_of_fmap. exists r. split; [| done].
    apply subseteq_take, subseteq_drop in Hr. by apply elem_of_order_by, elem_of_select_where in Hr as [Hr _].
Qed.

(** Whatever has this certificate id is revoked. *)
Definition dead (d : db) (id : Z) : Prop :=
  forall r, r ∈ rows (d Certificates) -> Certificate.ID r = id -> Certificate.Status r = StatusRevoked.

Lemma retiring_dead d d' id : retiring d d' -> dead d id -> dead d' id.
Proof.
  intros [_ Hcerts] Hd c' Hc' Hid. destruct (Forall2_in_r _ _ _ _ Hcerts Hc') as (c & Hc & Hcid & _ & Hst).
  apply Hst, Hd; [done | congruence].
Qed.

Lemma wp_RevokeCertificate id w :
  sound w -> wp (Store.RevokeCertificate id reason) (fun _ w' => dead (w_db w') id) w.
Proof.
  intros Hw. unfold Store.RevokeCertificate. apply wp_bind, wp_now. intros now ts _.
  set (w1 := mkWorld (w_db w) now ts (w_faults w) (w_draws w)). assert (sound w1) as Hw1 by exact Hw.
  apply wp_bind_err, wp_sql_sound; [done | |].
  - etrans; [apply violated_update; by intros x | exact (proj2 Hw1)].
  - intros w2 _. apply wp_Ret. intros r. cbn [w2 w_db with_db]. rewrite update_eq. cbn [rows].
    intros (y & Hy & ->)%elem_of_update_where. destruct (_ && _) eqn:Hp; [done |]. intros Hid.
    apply andb_false_iff in Hp as [Hp%Z.eqb_neq | Hp%negb_false_iff]; [done |]. by apply str_is_eq in Hp.
Qed.

Lemma wp_sweep certs out w :
  sound w -> (forall c, c ∈ certs -> Certificate.Status c = StatusRevoked -> dead (w_db w) (Certificate.ID c)) ->
  wp (CaLifecycle.sweep_certs reason certs out) (fun _ w' => forall c, c ∈ certs -> dead (w_db w') (Certificate.ID c)) w.
Proof.
  revert out w. induction certs as [| c cs IH]; intros out w Hw Hdead; [apply wp_Ret; by intros c Hc%not_elem_of_nil |].
  cbn [CaLifecycle.sweep_certs]. apply wp_bind.
  assert (wp (CaLifecycle.sweep_one reason c out) (fun _ w' => dead (w_db w') (Certificate.ID c)) w) as Hone.
  { unfold CaLifecycle.sweep_one. destruct (str_is _ _) eqn:Hst.
    - apply wp_Ret, Hdead; [left | by apply str_is_eq].
    - apply wp_bind. eapply wp_mono; [by apply wp_RevokeCertificate |]. intros r w' Hr. by apply wp_Ret. }
  assert (steady (CaLifecycle.sweep_one reason c out)) as Hsteady.
  { unfold CaLifecycle.sweep_one. destruct (str_is _ _); [done |].
    apply steady_bind; [apply steady_RevokeCertificate | done]. }
  eapply wp_mono; [apply wp_and; [exact Hone | apply (wp_steady _ (fun _ w' => retiring (w_db w) (w_db w') /\ sound w') w Hsteady Hw); auto] |].
  intros out' w1 (Hc & Hret & Hw1).
  eapply wp_mono; [apply wp_and; [apply (IH out' w1 Hw1) | apply (wp_steady _ (fun _ w' => retiring (w_db w1) (w_db w')) w1 (steady_sweep cs out') Hw1); auto] |].
  - intros x Hx Hst. eapply retiring_dead; [exact Hret | apply Hdead; [by right | done]].
  - intros out'' w2 [Hcs Hret2] x [-> | Hx]%elem_of_cons; [by eapply retiring_dead | by apply Hcs].
Qed.

Definition ok_world (w : world) : Prop := sound w /\ searchable (w_db w).

(** What the retirement of [id] achieves when it answers. *)
Definition retires (id : Z) (r : option (result error CaLifecycle.RevokeCAResult)) (w' : world) : Prop :=
  match r with
  | None => True
  | Some (Ok _) => all_retired (w_db w') id
  | Some (Err _) => False
  end.

Lemma wp_sweep_children rec children out w :
  (forall id, steady (rec id)) ->
  (forall id w, ok_world w -> known (w_db w) id -> wp (rec id) (retires id) w) ->
  ok_world w -> (forall c, c ∈ children -> known (w_db w) (CA.ID c)) ->
  wp (CaLifecycle.sweep_children rec children out)
    (fun r w' => r <> None -> forall c, c ∈ children -> all_retired (w_db w') (CA.ID c)) w.
Proof.
  intros Hst Hrec. revert out w. induction children as [| c cs IH]; intros out w Hw Hknown.
  { apply wp_Ret. by intros _ c Hc%not_elem_of_nil. }
  cbn [CaLifecycle.sweep_children]. apply wp_bind.
  eapply wp_mono; [apply wp_and; [apply (Hrec (CA.ID c) w Hw); apply Hknown; left |
    apply (wp_steady _ (fun _ w' => retiring (w_db w) (w_db w') /\ sound w') w (Hst _) (proj1 Hw)); auto] |].
  intros [[sub | e] |] w1 (Hc & Hret & Hw1); [| done | by apply wp_Ret].
  assert (ok_world w1) as Hok by (split; [done | by eapply retiring_searchable; [| apply Hw]]).
  eapply wp_mono; [apply wp_and; [apply (IH _ w1 Hok) |
    apply (wp_steady _ (fun _ w' => retiring (w_db w1) (w_db w')) w1); [split; apply guar_children; intros child; apply Hst | done | auto]] |].
  - intros x Hx. eapply retiring_known; [exact Hret |]. apply Hknown. by right.
  - intros r w2 [Hcs Hret2] Hr x [-> | Hx]%elem_of_cons; [by eapply retiring_all | by apply Hcs].
Qed.

Lemma wp_SetCAStatus id w (Q : result error unit -> world -> Prop) :
  sound w ->
  (forall w', sound w' -> retiring (w_db w) (w_db w') ->
     (forall c, c ∈ rows (w_db w' Cas) -> CA.ID c = id -> CA.Status c = StatusDisabled) -> Q (Ok tt) w') ->
  wp (Store.SetCAStatus id StatusDisabled) Q w.
Proof.
  intros Hw HQ. apply wp_bind_err, wp_sql_sound; [done | |].
  - etrans; [apply violated_update; by intros x | exact (proj2 Hw)].
  - intros w2 Hw2. apply wp_Ret, HQ; [done | apply retiring_disable |].
    intros c. cbn [w2 w_db with_db]. rewrite update_eq. cbn [rows].
    intros (y & Hy & ->)%elem_of_update_where. destruct (_ =? _)%Z eqn:Hp; [done |]. intros Hid.
    by apply Z.eqb_neq in Hp.
Qed.

Lemma wp_finish {A} (p : prog world A) a b c (d : A -> string) (f : A -> CaLifecycle.RevokeCAResult) id w :
  steady p -> sound w -> all_retired (w_db w) id ->
  wp (x <- p ;; CaService.audit sink a b c (d x) ;;; Ret (Some (Ok (f x))))%prog (retires id) w.
Proof.
  intros Hp Hw Hall. apply wp_bind, (wp_steady _ _ _ Hp Hw). intros x w1 Hret Hw1.
  apply wp_bind, (wp_steady _ _ _ (steady_audit _ _ _ _) Hw1). intros u w2 Hret2 _. apply wp_Ret.
  apply (retiring_all (w_db w)); [by etrans | done].
Qed.

Lemma all_retired_children d id :
  retired d id -> (forall c, c ∈ rows (d Cas) -> CA.ParentID c = Some id -> all_retired d (CA.ID c)) -> all_retired d id.
Proof.
  intros Hid Hch x Hx. apply rtc_inv in Hx as [<- | (y & (c & Hc & <- & Hp) & Hy)]; [done |]. by apply (Hch c).
Qed.

Lemma wp_RevokeCA fuel id w :
  ok_world w -> known (w_db w) id -> wp (CaLifecycle.RevokeCA sink fuel id reason true actor) (retires id) w.
Proof.
  revert id w. induction fuel as [| fuel IH]; intros id w [Hw Hs] Hid; [done |]. cbn [CaLifecycle.RevokeCA].
  apply wp_bind, wp_bind_err, wp_query_sound; [done |]. unfold select1.
  destruct (List.find _ _) as [c |] eqn:Hfind.
  2: { destruct Hid as (x & Hx & Hxid). pose proof (List.find_none _ _ Hfind x (proj1 (list_elem_of_In _ _) Hx)) as Hne.
       by apply Z.eqb_neq in Hne. }
  apply wp_Ret. apply wp_bind, wp_SetCAStatus; [done |]. intros w1 Hw1 Hret1 Hdis. cbv zeta.
  assert (searchable (w_db w1)) as Hs1 by (by eapply retiring_searchable).
  assert (known (w_db w1) id) as Hid1 by (by eapply retiring_known).
  apply wp_bind, wp_search; [done | done | done |]. intros certs n w2 Hdb2 Hw2 Hin Hout.
  apply wp_bind. eapply wp_mono; [apply wp_and; [apply (wp_sweep certs _ w2 Hw2) |
    apply (wp_steady _ (fun _ w' => retiring (w_db w2) (w_db w') /\ sound w') w2 (steady_sweep _ _) Hw2); auto] |].
  { intros x Hx Hst r Hr Hrid. rewrite Hdb2 in Hr. destruct (Hout x Hx) as (r0 & Hr0 & ->).
    by rewrite (certificate_id_inj _ _ _ (proj2 Hw1) Hr Hr0 Hrid). }
  intros out w3 (Hdead & Hret3 & Hw3).
  assert (retired (w_db w3) id) as Hretired.
  { split.
    - intros x Hx Hxid. destruct Hret3 as [Hcas _]. rewrite Hdb2 in Hcas.
      destruct (Forall2_in_r _ _ _ _ Hcas Hx) as (y & Hy & Hyid & _ & Hst). apply Hst, Hdis; [done | congruence].
    - intros r Hr Hrca. destruct Hret3 as [_ Hcerts]. rewrite Hdb2 in Hcerts.
      destruct (Forall2_in_r _ _ _ _ Hcerts Hr) as (y & Hy & Hyid & Hyca & _).
      exact (Hdead _ (Hin y Hy (eq_trans (eq_sym Hyca) Hrca)) r Hr Hyid). }
  assert (searchable (w_db w3)) as Hs3 by (eapply retiring_searchable; [exact Hret3 | by rewrite Hdb2]).
  apply wp_bind, wp_query_sound; [done |].
  apply wp_bind. eapply wp_mono; [apply wp_and; [apply wp_sweep_children; [intros; apply steady_RevokeCA | apply IH | by split |] |
    apply (wp_steady _ (fun _ w' => retiring (w_db w3) (w_db w') /\ sound w') w3); [split; apply guar_children; intros child; apply steady_RevokeCA | done | auto]] |].
  { intros x Hx. apply elem_of_scan, elem_of_select_where in Hx as [Hx _]. by exists x. }
  intros [out' |] w4 (Hch & Hret4 & Hw4); [| done].
  apply wp_finish; [apply steady_tell_parent | done |].
  apply all_retired_children; [by eapply retiring_retired |].
  intros x Hx Hp. destruct Hret4 as [Hcas _]. destruct (Forall2_in_r _ _ _ _ Hcas Hx) as (y & Hy & Hyid & Hyp & _).
  rewrite Hyid. apply Hch; [done |]. apply elem_of_scan, elem_of_select_where. split; [done |].
  rewrite <- Hyp, Hp. apply Z.eqb_refl.
Qed.

(** C9.  Retired with cascade by a request alone, with a driver that fails
    nothing, an authority and every authority that descends from it end up
    disabled, with every certificate they issued revoked, as long as none of
    them issued more than the ten thousand certificates one search returns. *)
Theorem retirement_reaches_everything rank fuel id w :
  sound w -> searchable (w_db w) -> known (w_db w) id ->
  ranked rank (w_db w) -> rank id < fuel ->
  exists out w', run (CaLifecycle.RevokeCA sink fuel id reason true actor) w = (Some (Ok out), w') /\
    forall x, below (w_db w) id x -> retired (w_db w') x.
Proof.
  intros Hw Hs Hid Hrank Hfuel.
  assert (steady (CaLifecycle.RevokeCA sink fuel id reason true actor)) as Hst by apply steady_RevokeCA.
  pose proof (wp_RevokeCA fuel id w (conj Hw Hs) Hid) as Hr. unfold wp in Hr.
  assert (fst (run (CaLifecycle.RevokeCA sink fuel id reason true actor) w) <> None) as Hnone.
  { apply (wp_returns_inv (fun w => ranked rank (w_db w)) (fun r => r <> None)); [| by apply returns_RevokeCA | done].
    eapply guar_weaken; [| exact (proj1 Hst)]. intros s s' Hret Hrk x p Hx Hp.
    destruct (Forall2_in_r _ _ _ _ (proj1 Hret) Hx) as (y & Hy & Hyid & Hyp & _). rewrite Hyid. apply Hrk; [done | congruence]. }
  assert (retiring (w_db w) (w_db (snd (run (CaLifecycle.RevokeCA sink fuel id reason true actor) w)))) as Hret.
  { exact (wp_guar retiring _ w _ _ (proj1 Hst)). }
  destruct (run _ w) as [[[out | e] |] w']; [| done | done]. exists out, w'. split; [done |].
  intros x Hx. apply Hr. eapply rtc_subrel; [| exact Hx]. intros a b (c & Hc & Hcid & Hcp).
  destruct (Forall2_in_l _ _ _ _ (proj1 Hret) Hc) as (c' & Hc' & Hid' & Hp' & _). exists c'. split; [done |]. split; congruence.
Qed.
End retire.

(** ** Bulk revocation *)

Section bulk.
Context `{RowOrder}.
Context (sink : string -> string -> string -> string -> string -> prog world unit).
Context (Hsink : forall a b c d e, guar (on_db (keeps [Cas; Certificates])) (sink a b c d e)).

(** A certificate as the store reads it. *)
Definition stored (d : db) (c : Certificate.t) : Prop := exists r, r ∈ rows (d Certificates) /\ c = Store.scanCert d r.

Lemma returns_bulk_listed d ids targets :
  Forall (stored d) targets ->
  returns (fun w => w_db w = d) (fun r => match r with
    | Ok l => Forall (stored d) l /\ (forall c, c ∈ targets -> c ∈ l) /\ forall id, id ∈ ids -> exists c, c ∈ l /\ Certificate.ID c = id
    | Err _ => True end) (CaLifecycle.bulk_listed ids targets).
Proof.
  revert targets. induction ids as [| id ids IH]; intros targets Ht; cbn [CaLifecycle.bulk_listed].
  { split; [done |]. split; [done |]. by intros id Hid%not_elem_of_nil. }
  eapply returns_bind with (Q := fun r => match r with Ok c => stored d c /\ Certificate.ID c = id | Err _ => True end).
  - apply returns_query_row; [done |]. intros w c -> Hc. destruct (select1 _ _ _) as [r |] eqn:Hr; [| done]. injection Hc as <-.
    apply List.find_some in Hr as [Hin%list_elem_of_In Hid%Z.eqb_eq]. split; [by exists r | exact Hid].
  - intros [c | e] Hc; [| done]. destruct Hc as [Hst Hid].
    eapply returns_mono; [apply (IH (targets ++ [c])) |].
    { apply Forall_app. split; [done | by constructor]. }
    intros [l | e]; [| done]. intros (Hl & Hsub & Hids). split; [done |]. split.
    + intros x Hx. apply Hsub, elem_of_app. by left.
    + intros i [-> | Hi]%elem_of_cons; [| by apply Hids]. exists c. split; [| done].
      apply Hsub, elem_of_app. right. by apply list_elem_of_singleton.
Qed.

Lemma returns_search d f :
  returns (fun w => w_db w = d) (fun r => match r with Ok (l, _) => Forall (stored d) l | Err _ => True end)
    (Store.SearchCertificates f).
Proof.
  unfold Store.SearchCertificates. apply returns_skip. intros now. apply returns_skip. intros [n | e]; [| done]. cbv zeta.
  eapply returns_bind with (Q := fun r => match r with Ok l => Forall (stored d) l | Err _ => True end); [| by intros [l | e]].
  apply returns_query; [done |]. intros w ->. apply Forall_forall. intros c (r & -> & Hr)%list_elem_of_fmap.
  apply subseteq_take, subseteq_drop in Hr. apply elem_of_order_by, elem_of_select_where in Hr as [Hr _]. by exists r.
Qed.

Lemma returns_bulk_found d filter targets :
  Forall (stored d) targets ->
  returns (fun w => w_db w = d) (fun r => match r with
    | Ok l => Forall (stored d) l /\ forall c, c ∈ targets -> c ∈ l
    | Err _ => True end) (CaLifecycle.bulk_found filter targets).
Proof.
  intros Ht. destruct filter as [f |]; [| done]. unfold CaLifecycle.bulk_found. cbv zeta.
  eapply returns_bind; [apply (returns_search d) |]. intros [[l n] | e] Hl; [| done]. split.
  - apply Forall_app. split; [done |]. apply Forall_forall. intros c Hc%list_elem_of_In%List.filter_In.
    rewrite Forall_forall in Hl. apply Hl, list_elem_of_In, Hc.
  - intros c Hc. apply elem_of_app. by left.
Qed.

Definition reported (out : CaLifecycle.BulkRevokeResult) : nat :=
  length (CaLifecycle.Revoked out) + length (CaLifecycle.Skipped out) + length (CaLifecycle.Errors out).

Lemma wp_revoke_ok id reason w :
  wp (Store.RevokeCertificate id reason) (fun r w' => is_ok r = true -> dead (w_db w') id) w.
Proof.
  unfold Store.RevokeCertificate. apply wp_bind, wp_now. intros now ts _. apply wp_bind_err, wp_sql; [done |].
  intros fs _. apply wp_Ret. intros _ r. cbn [w_db with_db]. rewrite update_eq. cbn [rows].
  intros (y & Hy & ->)%elem_of_update_where. destruct (_ && _) eqn:Hp; [done |]. intros Hid.
  apply andb_false_iff in Hp as [Hp%Z.eqb_neq | Hp%negb_false_iff]; [done |]. by apply str_is_eq in Hp.
Qed.

Lemma wp_bulk_one reason c out w :
  (Certificate.Status c = StatusRevoked -> dead (w_db w) (Certificate.ID c)) ->
  wp (CaLifecycle.bulk_one reason c out) (fun out' w' => retiring (w_db w) (w_db w') /\ reported out' = S (reported out) /\
    (CaLifecycle.Errors out' = [] -> CaLifecycle.Errors out = [] /\ dead (w_db w') (Certificate.ID c))) w.
Proof.
  intros Hdead. unfold CaLifecycle.bulk_one. destruct (str_is _ _) eqn:Hst.
  { apply wp_Ret. split; [apply retiring_refl |]. split; [unfold reported; simpl; rewrite length_app; simpl; lia |].
    intros He. split; [done |]. by apply Hdead, str_is_eq. }
  apply wp_bind. eapply wp_mono; [apply wp_and; [apply (wp_revoke_ok (Certificate.ID c) reason w) |
    apply (wp_guar retiring); [apply retiring_refl | apply retiring_trans | apply retiring_RevokeCertificate]] |].
  intros [u | e] w' [Hok Hret]; apply wp_Ret.
  - split; [exact Hret |]. split; [unfold reported; simpl; rewrite length_app; simpl; lia |]. intros He. split; [done | by apply Hok].
  - split; [exact Hret |]. split; [unfold reported; simpl; rewrite length_app; simpl; lia |]. simpl. intros He.
    by apply app_nil in He as [_ He].
Qed.

Lemma wp_bulk_each reason targets out w :
  (forall c, c ∈ targets -> Certificate.Status c = StatusRevoked -> dead (w_db w) (Certificate.ID c)) ->
  wp (CaLifecycle.bulk_each reason targets out) (fun out' w' => retiring (w_db w) (w_db w') /\
    reported out' = reported out + length targets /\
    (CaLifecycle.Errors out' = [] -> CaLifecycle.Errors out = [] /\ forall c, c ∈ targets -> dead (w_db w') (Certificate.ID c))) w.
Proof.
  revert out w. induction targets as [| c cs IH]; intros out w Hdead; cbn [CaLifecycle.bulk_each].
  { apply wp_Ret. split; [apply retiring_refl |]. split; [simpl; lia |]. intros He. split; [done |]. by intros c Hc%not_elem_of_nil. }
  apply wp_bind. eapply wp_mono; [apply (wp_bulk_one reason c out w); apply Hdead; left |].
  intros out1 w1 (Hret & Hrep & Herr). eapply wp_mono; [apply (IH out1 w1) |].
  { intros x Hx Hst. apply (retiring_dead (w_db w)); [done |]. apply Hdead; [by right | done]. }
  intros out2 w2 (Hret2 & Hrep2 & Herr2). split; [by eapply retiring_trans |]. split; [simpl; lia |].
  intros He. destruct (Herr2 He) as [He1 Hcs]. destruct (Herr He1) as [He0 Hc]. split; [done |].
  intros x [-> | Hx]%elem_of_cons; [by eapply retiring_dead | by apply Hcs].
Qed.

(** A bulk revocation that is answered accounts for every certificate it
    was to revoke, those listed by id and those the filter found: each is
    reported as revoked, skipped or in error, and when no error is reported
    they are all revoked in the store, whatever the driver did. *)
Theorem bulk_revoke_accounts in_ w out w' :
  violated (w_db w) = None ->
  run (CaLifecycle.BulkRevoke sink in_) w = (Ok out, w') ->
  exists targets, targets <> [] /\ (forall id, id ∈ CaLifecycle.bi_IDs in_ -> exists c, c ∈ targets /\ Certificate.ID c = id) /\
    reported out = length targets /\
    (CaLifecycle.Errors out = [] -> forall c, c ∈ targets -> dead (w_db w') (Certificate.ID c)).
Proof.
  intros Hv Hrun. enough (wp (CaLifecycle.BulkRevoke sink in_) (fun r w' => match r with Err _ => True | Ok out =>
    exists targets, targets <> [] /\ (forall id, id ∈ CaLifecycle.bi_IDs in_ -> exists c, c ∈ targets /\ Certificate.ID c = id) /\
    reported out = length targets /\
    (CaLifecycle.Errors out = [] -> forall c, c ∈ targets -> dead (w_db w') (Certificate.ID c)) end) w) as Hwp
    by (unfold wp in Hwp; by rewrite Hrun in Hwp).
  clear Hrun out w'. unfold CaLifecycle.BulkRevoke. apply wp_bind_err.
  eapply wp_reads; [| apply (returns_bulk_listed (w_db w)); constructor |].
  { generalize (@nil Certificate.t). induction (CaLifecycle.bi_IDs in_) as [| id ids IH]; intros l; cbn [CaLifecycle.bulk_listed]; guar_walk idtac. }
  intros [listed | e] w1 Hl Hw1; [| done]. destruct Hl as (Hl & _ & Hids).
  apply wp_bind_err. eapply wp_reads; [guar_walk idtac | apply (returns_bulk_found (w_db w1)); by rewrite Hw1 |].
  intros [targets | e] w2 Ht Hw2; [| done]. destruct Ht as [Ht Hsub]. rewrite Hw1 in Ht, Hw2.
  destruct targets as [| t ts] eqn:Htargets; [done |]. rewrite <- Htargets in *.
  assert (targets <> []) as Hne by (by rewrite Htargets). clear Htargets. apply wp_bind.
  eapply wp_mono; [apply (wp_bulk_each (CaLifecycle.bi_Reason in_) targets (CaLifecycle.mkBulked [] [] [] []) w2) |].
  { intros c Hc Hst r Hr Hid. rewrite Hw2 in Hr. rewrite Forall_forall in Ht. destruct (Ht c Hc) as (r0 & Hr0 & ->).
    by rewrite (certificate_id_inj _ _ _ Hv Hr Hr0 Hid). }
  intros out w3 (_ & Hrep & Herr). cbv zeta. apply wp_bind.
  eapply wp_mono; [apply (wp_guar retiring); [apply retiring_refl | apply retiring_trans | exact (retiring_audit sink Hsink _ _ _ _)] |].
  intros u w4 Hret. apply wp_Ret. exists targets. split; [done |]. split; [| split].
  - intros id Hid. destruct (Hids id Hid) as (c & Hc & Hcid). exists c. split; [by apply Hsub | done].
  - exact Hrep.
  - intros He c Hc. apply (retiring_dead (w_db w3)); [exact Hret |]. by apply Herr.
Qed.
End bulk.

Definition with_certificates (cs : list Certificate.t) : world :=
  with_db (set_table Certificates (mkTable (A := row Certificates) cs (Z.of_nat (length cs))) Sample.store) Sample.start.

Definition sample_renewal : CaLifecycle.RenewInput := CaLifecycle.mkRenew 0 false "" "" true None "" "ann" false.
(** One that is in use. *)
Definition renewable : Certificate.t :=
  Certificate.mk 1 1 "" "0A" "a.test" "CN=a.test" [] "server" "" "CERTIFICATE:10;leaf;a.test;a.test" "" "" false ""
    0 (10 ^ 18) "active" None 0 "" "" 0 None.

Definition two_certificates : world :=
  with_certificates [renewable;
    Certificate.mk 2 1 "" "0B" "b.test" "CN=b.test" [] "server" "" "" "" "" false "" 0 (10 ^ 18) "revoked" (Some 7%Z) 1 "" "" 0 None].

Lemma renew_spec_witness :
  exists out w', run (CaLifecycle.Renew Sample.cfg Sample.master Sample.no_sink 1 sample_renewal) (with_certificates [renewable]) = (Ok out, w') /\
    renewed 1 sample_renewal (certs (with_certificates [renewable])) (certs w') out.
Proof.
  assert (is_ok (fst (run (CaLifecycle.Renew Sample.cfg Sample.master Sample.no_sink 1 sample_renewal) (with_certificates [renewable]))) = true) as Hok
    by (vm_compute; reflexivity).
  destruct (run (CaLifecycle.Renew Sample.cfg Sample.master Sample.no_sink 1 sample_renewal) (with_certificates [renewable])) as [[out | e] w'] eqn:E;
    [| discriminate Hok].
  exists out, w'. split; [reflexivity |].
  exact (renew_spec Sample.cfg Sample.master Sample.no_sink (fun _ _ _ _ _ => Logic.I) 1 sample_renewal _ _ _ E).
Defined.
(** One certificate in use and one revoked, by id, the second one twice. *)
Lemma bulk_revoke_accounts_witness :
  exists out w', run (CaLifecycle.BulkRevoke Sample.no_sink (CaLifecycle.mkBulk [1%Z; 2%Z; 2%Z] None 4 "ann")) two_certificates = (Ok out, w') /\
    exists targets, targets <> [] /\ (forall id, id ∈ [1%Z; 2%Z; 2%Z] -> exists c, c ∈ targets /\ Certificate.ID c = id) /\
      reported out = length targets /\ (CaLifecycle.Errors out = [] -> forall c, c ∈ targets -> dead (w_db w') (Certificate.ID c)).
Proof.
  assert (is_ok (fst (run (CaLifecycle.BulkRevoke Sample.no_sink (CaLifecycle.mkBulk [1%Z; 2%Z; 2%Z] None 4 "ann")) two_certificates)) = true) as Hok
    by (vm_compute; reflexivity).
  destruct (run (CaLifecycle.BulkRevoke Sample.no_sink (CaLifecycle.mkBulk [1%Z; 2%Z; 2%Z] None 4 "ann")) two_certificates) as [[out | e] w'] eqn:E;
    [| discriminate Hok].
  exists out, w'. split; [reflexivity |].
  refine (bulk_revoke_accounts Sample.no_sink (fun _ _ _ _ _ => Logic.I) _ _ _ _ _ E). vm_compute. reflexivity.
Defined.

(** ** A hierarchy to retire *)

(** Below the sample root, one authority, and below that another; the last two
    have issued a certificate each. *)
Definition authority (id parent : Z) (name : string) : CA.t :=
  CA.mk id name name ("CN=" +:+ name)%go "" "02" "rsa-2048" ("CERTIFICATE:2;CA;" +:+ name +:+ ";")%go Sample.key_enc "" false
    (Some parent) 0 0 (10 ^ 20) "active" 0 "" false "" 0 None false "" "".
Definition issued (id ca : Z) : Certificate.t :=
  Certificate.mk id ca "" "0A" "a.test" "CN=a.test" [] "server" "" "CERTIFICATE:10;leaf;a.test;a.test" "" "" false ""
    0 (10 ^ 18) "active" None 0 "" "" 0 None.
Definition hierarchy : world :=
  with_db (set_table Cas (mkTable (A := row Cas) [Sample.root; authority 2 1 "sub"; authority 3 2 "subsub"] 3)
          (set_table Certificates (mkTable (A := row Certificates) [issued 1 2; issued 2 3] 2) empty_db)) Sample.start.
Definition depth_below (id : Z) : nat := Z.to_nat (3 - id).

Lemma hierarchy_cas c : c ∈ rows (w_db hierarchy Cas) -> c = Sample.root \/ c = authority 2 1 "sub" \/ c = authority 3 2 "subsub".
Proof.
  intros [-> | [-> | [-> | Hc%not_elem_of_nil]%elem_of_cons]%elem_of_cons]%elem_of_cons; [by left | right; by left | right; by right | done].
Qed.

Lemma hierarchy_ranked : ranked depth_below (w_db hierarchy).
Proof. intros c p [-> | [-> | ->]]%hierarchy_cas [= <-]; vm_compute; lia. Qed.

Lemma hierarchy_searchable : searchable (w_db hierarchy).
Proof. intros c [-> | [-> | ->]]%hierarchy_cas; split; vm_compute; done. Qed.

Lemma revoke_ca_terminates_witness :
  depth_below 1 < 3 /\
  returns (fun w => ranked depth_below (w_db w)) (fun r => r <> None)
    (CaLifecycle.RevokeCA Sample.no_sink 3 1 5 true "ann").
Proof.
  split; [vm_compute; lia |]. apply (revoke_ca_terminates Sample.no_sink 5 "ann" depth_below 3 1 true). vm_compute. lia.
Defined.

Lemma retirement_reaches_everything_witness :
  exists out w', run (CaLifecycle.RevokeCA Sample.no_sink 3 1 5 true "ann") hierarchy = (Some (Ok out), w') /\
    forall x, below (w_db hierarchy) 1 x -> retired (w_db w') x.
Proof.
  refine (retirement_reaches_everything Sample.no_sink 5 "ann" (fun _ _ _ _ _ => Logic.I) (fun _ _ _ _ _ => Logic.I)
            depth_below 3 1 hierarchy _ hierarchy_searchable _ hierarchy_ranked _).
  - split; vm_compute; reflexivity.
  - exists Sample.root. split; [left | reflexivity].
  - vm_compute. lia.
Defined.

(** The authority two levels down is among them. *)
Example subsub_is_below : below (w_db hierarchy) 1 3.
Proof.
  apply rtc_l with 2%Z; [| apply rtc_once].
  - exists (authority 2 1 "sub"). split; [right; left | done].
  - exists (authority 3 2 "subsub"). split; [right; right; left | done].
Qed.
End LifecycleFacts.
