(* ===== verification/ImportFacts.v ===== *)
(** * What bringing authorities in from outside guarantees

    The authorities and their parents stay a forest whatever requests are
    served one after the other, so that retiring one always comes to an end;
    an import stores what it checked; and four ways in which an authority is
    left behind: stranded, orphaned, half imported, or its own ancestor. *)

From S2P Require Import Prelude GoStrings Effects Models Schema SqlFacts TableFacts Store Pki Sealing CaService CaFacts IssueFacts CaLifecycle CaImport LifecycleFacts Sample.

Module ImportFacts.
Import CaFacts IssueFacts LifecycleFacts PkiImport CaImport.

(** ** The forest of authorities *)

(** The authority with this id holds a certificate. *)
Definition certified (d : db) (id : Z) : Prop :=
  exists c, c ∈ rows (d Cas) /\ CA.ID c = id /\ CA.CertPEM c <> EmptyString.

Definition blank (c : CA.t) : Prop := CA.CertPEM c = EmptyString /\ CA.Status c = StatusPending.

(** Parents lead to no cycle, whoever holds a certificate has a parent that
    holds one, and a pending authority holds none. *)
Record forest (d : db) : Prop := mkForest {
  forest_valid : violated d = None;
  forest_seq : forall c, c ∈ rows (d Cas) -> (CA.ID c <= seq (d Cas))%Z;
  forest_ranked : exists rank, ranked rank d;
  forest_blank : forall c, c ∈ rows (d Cas) -> CA.Status c = StatusPending -> CA.CertPEM c = EmptyString;
  forest_parents : forall c p, c ∈ rows (d Cas) -> CA.ParentID c = Some p -> CA.CertPEM c <> EmptyString -> certified d p }.

(** What an UPDATE does to a row, except when a certificate comes in. *)
Definition adjusted (a b : CA.t) : Prop :=
  CA.ID b = CA.ID a /\ CA.ParentID b = CA.ParentID a /\ CA.CertPEM b = CA.CertPEM a /\
  (CA.Status b = StatusPending -> CA.Status a = StatusPending).

(** Rows that were there before are as they were, or were waiting for their
    certificate. *)
Definition evolves (d d' : db) : Prop :=
  (seq (d Cas) <= seq (d' Cas))%Z /\
  forall x, x ∈ rows (d' Cas) -> (CA.ID x <= seq (d Cas))%Z ->
  exists y, y ∈ rows (d Cas) /\ CA.ID y = CA.ID x /\ (adjusted y x \/ blank y).

(** A request served alone. *)
Definition carries_on (d d' : db) : Prop := (forest d -> forest d') /\ evolves d d'.

(** ... that removes nothing, and completes nothing. *)
Definition grows (d d' : db) : Prop :=
  carries_on d d' /\ forall x, x ∈ rows (d Cas) -> exists y, y ∈ rows (d' Cas) /\ adjusted x y.

(** ... and adds nothing. *)
Definition mild (d d' : db) : Prop :=
  (violated d = None -> violated d' = None) /\ seq (d' Cas) = seq (d Cas) /\
  Forall2 adjusted (rows (d Cas)) (rows (d' Cas)).

#[local] Instance adjusted_refl : Reflexive adjusted.
Proof. intros c. repeat split; done. Qed.
#[local] Instance adjusted_trans : Transitive adjusted.
Proof. intros a b c (H1 & H2 & H3 & H4) (K1 & K2 & K3 & K4). repeat split; try congruence. auto. Qed.

#[local] Instance evolves_refl : Reflexive evolves.
Proof. intros d. split; [lia |]. intros x Hx _. exists x. split; [done |]. split; [done | by left]. Qed.
#[local] Instance evolves_trans : Transitive evolves.
Proof.
  intros d1 d2 d3 [S12 H12] [S23 H23]. split; [lia |]. intros x Hx Hid.
  destruct (H23 x Hx ltac:(lia)) as (y & Hy & Hyx & Hadj). destruct (H12 y Hy ltac:(lia)) as (z & Hz & Hzy & Hadj').
  exists z. split; [done |]. split; [congruence |].
  destruct Hadj' as [Hadj' | Hb]; [| by right]. destruct Hadj as [Hadj | [Hc Hs]]; [left; by etrans |].
  right. destruct Hadj' as (_ & _ & Hcert & Hst). split; [congruence | by apply Hst].
Qed.

#[local] Instance carries_on_refl : Reflexive carries_on.
Proof. intros d. by split. Qed.
#[local] Instance carries_on_trans : Transitive carries_on.
Proof. intros d1 d2 d3 [F12 E12] [F23 E23]. split; [auto | by etrans]. Qed.
#[local] Instance grows_refl : Reflexive grows.
Proof. intros d. split; [reflexivity |]. intros x Hx. by exists x. Qed.
#[local] Instance grows_trans : Transitive grows.
Proof.
  intros d1 d2 d3 [C12 H12] [C23 H23]. split; [by etrans |]. intros x Hx.
  destruct (H12 x Hx) as (y & Hy & Hxy). destruct (H23 y Hy) as (z & Hz & Hyz). exists z. split; [done | by etrans].
Qed.
#[local] Instance mild_refl : Reflexive mild.
Proof. intros d. repeat split; auto. reflexivity. Qed.
#[local] Instance mild_trans : Transitive mild.
Proof.
  intros d1 d2 d3 (V12 & S12 & H12) (V23 & S23 & H23). repeat split; [auto | congruence |]. by etrans.
Qed.

Lemma grows_certified d d' p : grows d d' -> certified d p -> certified d' p.
Proof.
  intros [_ Hg] (c & Hc & Hid & Hcert). destruct (Hg c Hc) as (c' & Hc' & Hi & _ & Hce & _).
  exists c'. split; [done |]. split; congruence.
Qed.

Lemma certified_id d p : violated d = None -> certified d p -> forall x, x ∈ rows (d Cas) -> CA.ID x = p -> CA.CertPEM x <> EmptyString.
Proof. intros Hv (c & Hc & Hid & Hcert) x Hx Hxp. by rewrite (ca_id_inj d x c Hv Hx Hc) by congruence. Qed.

(** The parent of an authority is stored. *)
Lemma parent_stored d c p :
  violated d = None -> c ∈ rows (d Cas) -> CA.ParentID c = Some p -> exists x, x ∈ rows (d Cas) /\ CA.ID x = p.
Proof.
  intros [_ Hr]%violated_None Hc Hp. apply (Hr (FKey Cas CA.ParentID Cas false)) with c; [| done | done].
  apply list_elem_of_In. by left.
Qed.

Lemma mild_ranked rank d d' : mild d d' -> ranked rank d -> ranked rank d'.
Proof.
  intros (_ & _ & Hf) Hr c' p Hc' Hp. destruct (Forall2_in_r _ _ _ _ Hf Hc') as (c & Hc & Hid & Hpar & _).
  rewrite Hid. apply Hr; [done | congruence].
Qed.

Lemma mild_grows d d' : mild d d' -> grows d d'.
Proof.
  intros Hm. assert (Hm' := Hm). destruct Hm as (Hv & Hs & Hf).
  assert (forall x, x ∈ rows (d Cas) -> exists y, y ∈ rows (d' Cas) /\ adjusted x y) as Hold
    by (intros x Hx; by apply (Forall2_in_l _ _ _ _ Hf)).
  split; [split |]; [| | done].
  - intros [V S [rank R] B P]. split.
    + auto.
    + intros c' Hc'. destruct (Forall2_in_r _ _ _ _ Hf Hc') as (c & Hc & Hid & _). rewrite Hs, Hid. by apply S.
    + exists rank. by eapply mild_ranked.
    + intros c' Hc' Hst. destruct (Forall2_in_r _ _ _ _ Hf Hc') as (c & Hc & _ & _ & Hcert & Hp). rewrite Hcert. by apply B; auto.
    + intros c' p Hc' Hp Hn. destruct (Forall2_in_r _ _ _ _ Hf Hc') as (c & Hc & _ & Hpar & Hcert & _).
      destruct (P c p Hc) as (q & Hq & Hqid & Hqc); [congruence | congruence |].
      destruct (Hold q Hq) as (q' & Hq' & Hi & _ & Hce & _). exists q'. split; [done |]. split; congruence.
  - split; [lia |]. intros x Hx _. destruct (Forall2_in_r _ _ _ _ Hf Hx) as (y & Hy & Hadj).
    exists y. split; [done |]. split; [by destruct Hadj | by left].
Qed.

(** ** Statement by statement *)

Lemma mild_keeps d d' : keeps [Cas] d d' -> violated d' = None -> mild d d'.
Proof. intros Hk Hv. unfold mild. rewrite (Hk Cas) by left. repeat split; [done |]. reflexivity. Qed.

Lemma mild_update p f d :
  (forall x, adjusted x (f x)) -> violated (snd (update Cas p f d)) = None -> mild d (snd (update Cas p f d)).
Proof.
  intros Hf Hv. unfold mild. rewrite update_eq. repeat split; [done |]. cbn [rows]. apply Forall2_update_where; [apply _ | auto].
Qed.

(** A new authority: its parent is there, and holds a certificate if the new
    one comes with its own. *)
Definition parent_ready (d : db) (cert : string) (p : Z) : Prop := known d p /\ (cert <> EmptyString -> certified d p).
Definition placed (c : CA.t) (d : db) : Prop :=
  (CA.Status c = StatusPending -> CA.CertPEM c = EmptyString) /\
  (forall p, CA.ParentID c = Some p -> parent_ready d (CA.CertPEM c) p).

Lemma evolves_insert mk d :
  CA.ID (mk (seq (d Cas) + 1)%Z) = (seq (d Cas) + 1)%Z -> evolves d (snd (insert Cas mk d)).
Proof.
  intros Hid. unfold evolves. rewrite insert_eq. cbn [rows seq]. split; [lia |].
  intros x [Hx | ->%list_elem_of_singleton]%elem_of_app Hle; [exists x | lia]. split; [done |]. split; [done | by left].
Qed.

Lemma forest_insert mk d :
  let c := mk (seq (d Cas) + 1)%Z in
  CA.ID c = (seq (d Cas) + 1)%Z -> placed c d -> violated (snd (insert Cas mk d)) = None ->
  forest d -> forest (snd (insert Cas mk d)).
Proof.
  intros c Hid [Hblank Hpar] Hv [V S [rank R] B P]. set (d' := snd (insert Cas mk d)) in *.
  assert (d' Cas = mkTable (rows (d Cas) ++ [c]) (seq (d Cas) + 1)) as E by apply insert_eq.
  assert (forall x, x ∈ rows (d' Cas) -> x ∈ rows (d Cas) \/ x = c) as Hin.
  { intros x. rewrite E. cbn [rows]. intros [Hx | ->%list_elem_of_singleton]%elem_of_app; auto. }
  assert (forall p, certified d p -> certified d' p) as Hcert.
  { intros p (x & Hx & Hp & Hc). exists x. rewrite E. cbn [rows]. split; [apply elem_of_app; by left | done]. }
  split.
  - done.
  - intros x [Hx | ->]%Hin; rewrite E; cbn [seq]; [specialize (S x Hx); lia | rewrite Hid; lia].
  - exists (fun i => if (i =? CA.ID c)%Z then 0 else Datatypes.S (rank i)). intros x p [Hx | ->]%Hin Hp.
    + destruct (parent_stored d x p V Hx Hp) as (y & Hy & <-). pose proof (S y Hy). pose proof (S x Hx).
      destruct (Z.eqb_spec (CA.ID x) (CA.ID c)); [lia |]. destruct (Z.eqb_spec (CA.ID y) (CA.ID c)); [lia |].
      specialize (R x (CA.ID y) Hx Hp). lia.
    + rewrite Z.eqb_refl. destruct (Hpar p Hp) as [(y & Hy & <-) _]. pose proof (S y Hy).
      destruct (Z.eqb_spec (CA.ID y) (CA.ID c)); lia.
  - intros x [Hx | ->]%Hin Hst; auto.
  - intros x p [Hx | ->]%Hin Hp Hn; apply Hcert; [by eapply P | by apply Hpar].
Qed.

Lemma deleted_rows t p d : (forall x, x ∈ rows (snd (delete t p d) Cas) -> x ∈ rows (d Cas)) /\ seq (snd (delete t p d) Cas) = seq (d Cas).
Proof. unfold delete. cbn [snd]. apply delete_cascade_sub. Qed.

Lemma carries_on_delete t p d : violated (snd (delete t p d)) = None -> carries_on d (snd (delete t p d)).
Proof.
  destruct (deleted_rows t p d) as [Hsub Hseq]. generalize dependent (snd (delete t p d)). intros d' Hsub Hseq Hv. split.
  - intros [V S [rank R] B P]. split.
    + done.
    + intros x Hx. rewrite Hseq. auto.
    + exists rank. intros x q Hx. auto.
    + intros x Hx. auto.
    + intros x q Hx Hq Hn. destruct (parent_stored d' x q Hv Hx Hq) as (y & Hy & Hyid).
      exists y. split; [done |]. split; [done |].
      apply (certified_id d q V); [apply (P x); auto | by apply Hsub | done].
  - split; [lia |]. intros x Hx _. exists x. split; [auto |]. split; [done | by left].
Qed.

Definition holds_certificate (d : db) (p : Z) : bool :=
  existsb (fun c => (CA.ID c =? p)%Z && nonempty (CA.CertPEM c)) (rows (d Cas)).

Lemma nonempty_true s : nonempty s = true <-> s <> EmptyString.
Proof. by destruct s. Qed.

Lemma holds_certificate_spec d p : holds_certificate d p = true <-> certified d p.
Proof.
  unfold holds_certificate, certified. rewrite existsb_exists. setoid_rewrite <- list_elem_of_In.
  split; intros (c & Hc & Hp); exists c; (split; [done |]).
  - apply andb_true_iff in Hp as [Hi%Z.eqb_eq Hn%nonempty_true]. done.
  - destruct Hp as [Hi Hn]. apply andb_true_iff. split; [by apply Z.eqb_eq | by apply nonempty_true].
Qed.

(** A certificate comes in for an authority that waits for it: it and what
    hangs below it come to rank under everything that held one. *)
Definition completed_rank (d : db) (rank : Z -> nat) (id i : Z) : nat :=
  if holds_certificate d i then Datatypes.S (rank id + rank i) else rank i.

Section completion.
Context (id : Z) (c : CA.t) (d : db).
Context (Hbare : forall x, x ∈ rows (d Cas) -> CA.ID x = id -> CA.CertPEM x = EmptyString).
Context (Hparent : forall p, CA.ParentID c = Some p -> certified d p) (Hactive : CA.Status c = StatusActive).
#[local] Abbreviation d' := (snd (update Cas (fun r => CA.ID r =? id)%Z (Store.completed c) d)).

Lemma completed_rows x :
  x ∈ rows (d' Cas) -> exists y, y ∈ rows (d Cas) /\ CA.ID y = CA.ID x /\
  ((CA.ID x <> id /\ x = y) \/ (CA.ID x = id /\ x = Store.completed c y)).
Proof.
  rewrite update_eq. cbn [rows]. intros (y & Hy & ->)%elem_of_update_where. exists y. split; [done |].
  destruct (Z.eqb_spec (CA.ID y) id); auto.
Qed.

Lemma completed_certified p : certified d p -> certified d' p.
Proof.
  intros (x & Hx & Hp & Hc). exists x. rewrite update_eq. cbn [rows]. split; [| done].
  apply elem_of_update_where. exists x. split; [done |]. destruct (Z.eqb_spec (CA.ID x) id) as [Hi | _]; [| done].
  by destruct (Hc (Hbare x Hx Hi)).
Qed.

Lemma completed_ranked rank : forest d -> ranked rank d -> ranked (completed_rank d rank id) d'.
Proof.
  intros [V S _ B P] R x p (y & Hy & Hid & Hx)%completed_rows Hp. unfold completed_rank.
  destruct Hx as [[Hne ->] | [<- ->]].
  - specialize (R y p Hy Hp). destruct (holds_certificate d (CA.ID y)) eqn:Hh; [| destruct (holds_certificate d p); lia].
    apply holds_certificate_spec in Hh. rewrite (proj2 (holds_certificate_spec d p)); [lia |].
    apply (P y p Hy Hp). by eapply certified_id.
  - destruct (holds_certificate d (CA.ID (Store.completed c y))) eqn:Hh.
    + apply holds_certificate_spec in Hh as (z & Hz & Hzi & Hc). by destruct (Hc (Hbare z Hz Hzi)).
    + rewrite (proj2 (holds_certificate_spec d p)) by by apply Hparent. lia.
Qed.

Lemma forest_completed : violated d' = None -> forest d -> forest d'.
Proof.
  intros Hv HF. assert (HF' := HF). destruct HF' as [V S [rank R] B P]. split.
  - done.
  - intros x (y & Hy & <- & _)%completed_rows. rewrite update_eq. by apply S.
  - eexists. by apply completed_ranked.
  - intros x (y & Hy & _ & [[_ ->] | [_ ->]])%completed_rows Hst; [by apply B |].
    cbn in Hst. rewrite Hactive in Hst. discriminate.
  - intros x p (y & Hy & _ & [[_ ->] | [_ ->]])%completed_rows Hp Hn; apply completed_certified; [by eapply P | by apply Hparent].
Qed.

(** Seen from when the authority was found pending. *)
Lemma evolves_completed d0 :
  evolves d0 d -> (forall y, y ∈ rows (d0 Cas) -> CA.ID y = id -> blank y) -> evolves d0 d'.
Proof.
  intros [Hs He] Hb. split; [by rewrite update_eq |]. intros x (y & Hy & Hid & Hx)%completed_rows Hle.
  destruct (He y Hy ltac:(lia)) as (z & Hz & Hzy & Hadj). exists z. split; [done |]. split; [congruence |].
  destruct Hx as [[_ ->] | [Hi _]]; [done | right]. apply Hb; [done | congruence].
Qed.
End completion.

(** ** Programs *)

Section programs.
Context `{Pki.Std} `{Ciphers} `{RowOrder}.
Context (cfg : CaService.Config) (master : string).
Context (sink : string -> string -> string -> string -> string -> prog world unit).
Context (Hsink : forall a b c d e, guar (on_db mild) (sink a b c d e)).

Ltac adjusts := let x := fresh in intros x; destruct x; repeat split; cbn; solve [done | intros; discriminate].
Ltac mild_leaf :=
  first [ apply mild_keeps; [frame | assumption]
        | apply mild_update; [adjusts | assumption] ].

#[local] Hint Resolve Hsink : guar.

Lemma mild_SetCAStatus id status : status <> StatusPending -> guar (on_db mild) (Store.SetCAStatus id status).
Proof.
  intros Hne. apply guar_exec; [apply _ |]. intros d Hv. apply mild_update; [| done].
  intros x. repeat split; cbn; congruence.
Qed.

Lemma mild_SetDefaultCA id : guar (on_db mild) (Store.SetDefaultCA id).
Proof.
  apply guar_exec; [apply _ |]. intros d Hv. unfold mild. rewrite !update_eq. cbn [rows seq]. repeat split; [done |].
  transitivity (update_where (fun _ => true) (CA.set_IsDefault false) (rows (d Cas)));
    (apply Forall2_update_where; [apply _ | intros x _; repeat split; done]).
Qed.

Lemma mild_NextCRLNumber id : guar (on_db mild) (Store.NextCRLNumber id).
Proof.
  apply guar_bind; [apply guar_now; apply _ |]. intros now. apply guar_bind; [| by intros [[n |] | e]].
  apply guar_sql; [apply _ |]. intros d Hv. cbn [snd]. apply mild_update; [| exact Hv]. intros x. repeat split; done.
Qed.
#[local] Hint Resolve mild_SetDefaultCA mild_NextCRLNumber : guar.

Lemma mild_bulk_listed ids targets : guar (on_db mild) (CaLifecycle.bulk_listed ids targets).
Proof. revert targets. induction ids as [| id ids IH]; intros targets; cbn [CaLifecycle.bulk_listed]; guar_walk mild_leaf. Qed.
Lemma mild_bulk_each reason targets out : guar (on_db mild) (CaLifecycle.bulk_each reason targets out).
Proof. revert out. induction targets as [| t ts IH]; intros out; cbn [CaLifecycle.bulk_each]; guar_walk mild_leaf. Qed.
#[local] Hint Resolve mild_bulk_listed mild_bulk_each : guar.

Lemma mild_RevokeCA fuel id reason cascade actor :
  guar (on_db mild) (CaLifecycle.RevokeCA sink fuel id reason cascade actor).
Proof.
  revert id cascade. induction fuel as [| fuel IH]; intros id cascade; cbn [CaLifecycle.RevokeCA]; [done |].
  assert (forall i, guar (on_db mild) (Store.SetCAStatus i StatusDisabled)) as Hst by (intros i; by apply mild_SetCAStatus).
  assert (forall certs out, guar (on_db mild) (CaLifecycle.sweep_certs reason certs out)) as Hsweep
    by (intros; apply guar_sweep; [intros j; guar_walk mild_leaf]).
  assert (forall cs out, guar (on_db mild) (CaLifecycle.sweep_children (fun child => CaLifecycle.RevokeCA sink fuel child reason true actor) cs out))
    as Hch by (intros; apply guar_children; intros; apply IH).
  guar_walk mild_leaf.
Qed.

Lemma mild_Renew id in_ : guar (on_db mild) (CaLifecycle.Renew cfg master sink id in_).
Proof. guar_walk mild_leaf. Qed.
#[local] Hint Resolve mild_RevokeCA mild_Renew : guar.

Lemma mild_renew_each due in_ out errs : guar (on_db mild) (CaLifecycle.renew_each cfg master sink due in_ out errs).
Proof. revert out errs. induction due as [| t ts IH]; intros out errs; cbn [CaLifecycle.renew_each]; guar_walk mild_leaf. Qed.
#[local] Hint Resolve mild_renew_each : guar.

(** Requests to the certificate service about certificates. *)
Lemma mild_op (o : op) : guar (on_db mild) (op_run cfg master sink o).
Proof. destruct o; guar_walk mild_leaf. Qed.

(** *** New authorities *)

(** What [p] relies on, and keeps once it holds. *)
Definition given (P : db -> Prop) (d d' : db) : Prop := P d -> grows d d'.
Definition lasting (P : db -> Prop) : Prop := forall d d', grows d d' -> P d -> P d'.

Lemma given_refl P : Reflexive (given P).
Proof. by intros d _. Qed.
Lemma given_trans P : lasting P -> Transitive (given P).
Proof. intros HP d1 d2 d3 H12 H23 Hd. specialize (H12 Hd). etrans; [exact H12 |]. by apply H23, (HP d1). Qed.

Definition ready (c : CA.t) (d : db) : Prop := forall p, CA.ParentID c = Some p -> parent_ready d (CA.CertPEM c) p.

Lemma lasting_ready c : lasting (ready c).
Proof.
  intros d d' Hg Hr p Hp. destruct (Hr p Hp) as [(x & Hx & Hid) Hc]. split.
  - destruct Hg as [_ Hg]. destruct (Hg x Hx) as (y & Hy & Hi & _). exists y. split; [done | congruence].
  - intros Hn. eapply grows_certified; eauto.
Qed.

Lemma nz_active s : nz s StatusActive = StatusPending -> s = StatusPending.
Proof. unfold nz. by destruct (nonempty _). Qed.

Lemma guar_Store_CreateCA c :
  (CA.Status c = StatusPending -> CA.CertPEM c = EmptyString) -> guar (on_db (given (ready c))) (Store.CreateCA c).
Proof.
  intros Hblank. pose proof (given_refl (ready c)) as Hrefl. unfold Store.CreateCA, Store.zero_or_now, Store.takes_default, Store.CountIssuingCAs.
  guar_walk idtac. intros Hr. rename a into c0, a0 into dflt.
  assert (placed (Store.ca_row c c0 dflt (seq (d Cas) + 1)) d) as Hp.
  { split; [| exact Hr]. cbn. intros Hst. by apply Hblank, nz_active. }
  split; [split; [by apply forest_insert | by apply evolves_insert] |].
  intros x Hx. exists x. rewrite insert_eq. cbn [rows]. split; [apply elem_of_app; by left | done].
Qed.

Lemma wp_Store_CreateCA c w :
  (CA.Status c = StatusPending -> CA.CertPEM c = EmptyString) -> ready c (w_db w) ->
  wp (Store.CreateCA c) (fun _ w' => grows (w_db w) (w_db w')) w.
Proof.
  intros Hblank Hr. assert (Transitive (given (ready c))) as HT by apply given_trans, lasting_ready.
  eapply wp_mono; [apply (wp_guar (given (ready c))); [apply given_refl | exact HT | by apply guar_Store_CreateCA] |].
  intros a w' Hg. by apply Hg.
Qed.

(** *** What a program learns while it only adds *)

(** From a database of [P], [p] only adds authorities, and its result and the
    database it leaves satisfy [R]. *)
Definition learns {A} (P : db -> Prop) (R : A -> db -> Prop) (p : prog world A) : Prop :=
  forall w, P (w_db w) -> wp p (fun a w' => grows (w_db w) (w_db w') /\ R a (w_db w')) w.

Definition anything {A} (a : A) (d : db) : Prop := True.

Lemma learns_Ret {A} (P : db -> Prop) (R : A -> db -> Prop) a : (forall d, P d -> R a d) -> learns P R (Ret a).
Proof. intros HR w Hw. apply wp_Ret. split; [done | by apply HR]. Qed.

Lemma learns_bind {A B} (P : db -> Prop) (Q : A -> db -> Prop) (R : B -> db -> Prop) (p : prog world A) (q : A -> prog world B) :
  learns P Q p -> (forall a, learns (Q a) R (q a)) -> learns P R (bind p q).
Proof.
  intros Hp Hq w Hw. apply wp_bind. eapply wp_mono; [by apply Hp |]. intros a w1 [Hg HQ].
  eapply wp_mono; [by apply Hq |]. intros b w2 [Hg2 HR]. split; [by etrans | done].
Qed.

Lemma learns_weaken {A} (P P' : db -> Prop) (R R' : A -> db -> Prop) (p : prog world A) :
  learns P' R' p -> (forall d, P d -> P' d) -> (forall a d, R' a d -> R a d) -> learns P R p.
Proof. intros Hp HP HR w Hw. eapply wp_mono; [apply Hp; auto |]. intros a w' []. eauto. Qed.

Lemma wp_mild {A} (p : prog world A) (Q : A -> world -> Prop) w :
  guar (on_db mild) p -> (forall a w', grows (w_db w) (w_db w') -> Q a w') -> wp p Q w.
Proof.
  intros Hp HQ. eapply wp_mono; [apply (wp_guar mild); [apply _ | apply _ | exact Hp] |].
  intros a w' Hm. by apply HQ, mild_grows.
Qed.

Lemma learns_mild {A} (P : db -> Prop) (p : prog world A) : lasting P -> guar (on_db mild) p -> learns P (fun _ => P) p.
Proof.
  intros HP Hp w Hw. apply wp_mild; [done |]. intros a w' Hm. split; [done | by eapply HP].
Qed.

Lemma learns_then {A B} (P : db -> Prop) (R : B -> db -> Prop) (p : prog world A) (q : A -> prog world B) :
  lasting P -> guar (on_db mild) p -> (forall a, learns P R (q a)) -> learns P R (bind p q).
Proof. intros HP Hp Hq. eapply learns_bind; [by apply learns_mild | done]. Qed.

Lemma learns_reads {A} (P : db -> Prop) (R : A -> db -> Prop) (p : prog world A) :
  guar (on_db eq) p -> (forall d, returns (fun w => w_db w = d) (fun a => R a d) p) -> learns P R p.
Proof.
  intros Hp HR w _. eapply (wp_reads (fun a => R a (w_db w))); [exact Hp | apply HR |]. intros a w' Ha ->. by split.
Qed.

Lemma learns_Store_CreateCA c :
  (CA.Status c = StatusPending -> CA.CertPEM c = EmptyString) -> learns (ready c) anything (Store.CreateCA c).
Proof.
  intros Hblank w Hr. assert (Transitive (given (ready c))) as HT by apply given_trans, lasting_ready.
  eapply wp_mono; [apply (wp_guar (given (ready c))); [apply given_refl | exact HT | by apply guar_Store_CreateCA] |].
  intros a w' Hg. split; [by apply Hg | done].
Qed.

Lemma lasting_anything : lasting (fun _ => True).
Proof. done. Qed.

(** Walks down to what the program learns something from. *)
Ltac learn_step :=
  cbv zeta;
  lazymatch goal with
  | |- learns _ anything (Ret _) => by apply learns_Ret
  | |- learns _ _ (bind (CaService.resolve_parent _ _) _) => fail
  | |- learns _ _ (bind (Store.CreateCA _) _) => fail
  | |- learns _ _ (bind (linkIssuer _ _ _ _) _) => fail
  | |- learns _ _ (bind (findIssuerID _) _) => fail
  | |- learns _ _ (bind (pending_parent _) _) => fail
  | |- learns _ _ (match ?x with _ => _ end) => destruct x eqn:?
  | |- learns _ _ (bind _ _) => apply learns_then; [by eauto | solve [guar_walk mild_leaf] | intro]
  | |- learns _ anything _ => eapply learns_weaken; [apply learns_mild; [apply lasting_anything | solve [guar_walk mild_leaf]] | done | done]
  end.
Ltac learn := repeat learn_step.

(** A certificate that parses is there. *)
Lemma parses_nonempty c cert : Pki.ParseCertPEM (CA.CertPEM c) = Ok cert -> CA.CertPEM c <> EmptyString.
Proof. intros Hp Hn. rewrite Hn in Hp. unfold Pki.ParseCertPEM, Pki.blocks in Hp. cbn in Hp. by rewrite Pki.pem_Decode_empty in Hp. Qed.

(** The stored authority [o] names, if any, holds a certificate. *)
Definition issuer_known (o : option Z) (d : db) : Prop := forall p, o = Some p -> certified d p.
Definition parent_known (o : option Z) (d : db) : Prop := forall p, o = Some p -> known d p.

Lemma lasting_issuer o : lasting (issuer_known o).
Proof. intros d d' Hg Hi p Hp. eapply grows_certified; eauto. Qed.
Lemma lasting_parent o : lasting (parent_known o).
Proof.
  intros d d' [_ Hg] Hi p Hp. destruct (Hi p Hp) as (x & Hx & <-). destruct (Hg x Hx) as (y & Hy & Hid & _). by exists y.
Qed.
#[local] Hint Resolve lasting_issuer lasting_parent lasting_anything : core.

Lemma ready_issuer c d : issuer_known (CA.ParentID c) d -> ready c d.
Proof. intros Hi p Hp. specialize (Hi p Hp). split; [| done]. destruct Hi as (x & Hx & Hid & _). by exists x. Qed.

Lemma learns_resolve_parent ref :
  learns (fun _ => True) (fun r d => match r with Ok pr => issuer_known (CA.ID ∘ fst <$> pr) d | Err _ => True end)
    (CaService.resolve_parent master ref).
Proof.
  apply learns_reads; [guar_walk idtac |]. intros d. unfold CaService.resolve_parent.
  destruct (_ || _); [done |]. eapply returns_bind; [apply returns_GetCAByRef |].
  intros [ca | e] Hca; [| done]. cbn. destruct (Pki.ParseCertPEM _) as [cert |] eqn:Hp; [| done].
  destruct (CaService.decryptKey _ _) as [key |]; [| done]. intros p [= <-]. exists ca.
  split; [done |]. split; [done | by eapply parses_nonempty].
Qed.

Lemma learns_then_CreateCA {B} P (R : B -> db -> Prop) c q :
  (CA.Status c = StatusPending -> CA.CertPEM c = EmptyString) -> (forall d, P d -> ready c d) ->
  (forall a, learns (fun _ => True) R (q a)) -> learns P R (bind (Store.CreateCA c) q).
Proof.
  intros Hb Hr Hq. eapply learns_bind; [| exact Hq].
  eapply learns_weaken; [by apply learns_Store_CreateCA | done | done].
Qed.

Lemma learns_CreateCA in_ : learns (fun _ => True) anything (CaService.CreateCA cfg master sink in_).
Proof.
  unfold CaService.CreateCA. learn.
  eapply learns_bind; [apply learns_resolve_parent |]. intros [pr | e]; learn.
  destruct a2 as [[signed pem] kt]. apply learns_then_CreateCA; [done | | intro; learn].
  intros d Hd. apply ready_issuer. intros p. cbn. intros Hp. apply Hd. by destruct pr.
Qed.

(** The issuer found for a certificate: its own certificate verifies it. *)
Definition verified (cert : Pki.Cert Pki.PublicKey) (o : option Z) (d : db) : Prop :=
  forall p, o = Some p -> exists c pc, c ∈ rows (d Cas) /\ CA.ID c = p /\
    Pki.ParseCertPEM (CA.CertPEM c) = Ok pc /\ VerifyIssuedBy cert pc = Ok tt.

Lemma verified_known cert o d : verified cert o d -> issuer_known o d.
Proof.
  intros Hv p Hp. destruct (Hv p Hp) as (c & pc & Hc & Hid & Hparse & _). exists c.
  split; [done |]. split; [done | by eapply parses_nonempty].
Qed.

Lemma lasting_verified cert o : lasting (verified cert o).
Proof.
  intros d d' [_ Hg] Hv p Hp. destruct (Hv p Hp) as (c & pc & Hc & Hid & Hparse & Hsig).
  destruct (Hg c Hc) as (c' & Hc' & Hi & _ & Hce & _). exists c', pc. repeat split; congruence.
Qed.

Lemma issued_by_row_verified d cert c : c ∈ rows (d Cas) -> verified cert (issued_by_row cert c) d.
Proof.
  intros Hc p. unfold issued_by_row. destruct (Pki.ParseCertPEM _) as [parsed |] eqn:Hp; [| done].
  destruct (VerifyIssuedBy _ _) as [[] |] eqn:Hv; [| done]. intros [= <-]. by exists c, parsed.
Qed.

Lemma first_issuer_verified d cert l : (forall c, c ∈ l -> c ∈ rows (d Cas)) -> verified cert (first_issuer cert l) d.
Proof.
  intros Hl. induction l as [| c l IH]; cbn [first_issuer]; [done |].
  assert (verified cert (first_issuer cert l) d) as IH' by (apply IH; intros x Hx; apply Hl; by right).
  destruct (str_is _ _); [done |]. pose proof (issued_by_row_verified d cert c (Hl c ltac:(by left))) as Hc.
  by destruct (issued_by_row cert c).
Qed.

Lemma issued_by_found_verified d cert r :
  (forall c, r = Ok c -> c ∈ rows (d Cas)) -> verified cert (issued_by_found cert r) d.
Proof. intros Hr. destruct r as [c | e]; [| done]. by apply issued_by_row_verified, Hr. Qed.

Lemma learns_findIssuerID P cert : learns P (verified cert) (findIssuerID cert).
Proof.
  apply learns_reads; [guar_walk idtac |]. intros d. unfold findIssuerID.
  assert (forall p, returns (fun w => w_db w = d) (fun r => forall c, r = Ok c -> c ∈ rows (d Cas))
            (query_row (fun d => head (scan (select Cas p d))))) as Hrow.
  { intros p. apply returns_query_row; [done |]. intros w x <- Hx c [= <-]. by apply elem_of_head_scan in Hx as [Hx _]. }
  eapply returns_bind with (Q := fun o => verified cert o d).
  - unfold by_key_identifier. destruct (str_is _ _); [done |]. unfold Store.FindCABySubjectKeyID.
    destruct (str_is _ _); [done |]. eapply returns_bind; [apply Hrow |]. intros r Hr. by apply issued_by_found_verified.
  - intros [id |] Hid; [done |]. eapply returns_bind; [apply Hrow |]. intros r Hr.
    pose proof (issued_by_found_verified d cert r Hr) as Hk. destruct (issued_by_found cert r) as [id |]; [done |].
    eapply returns_bind with (Q := fun r => match r with Ok l => forall c, c ∈ l -> c ∈ rows (d Cas) | Err _ => True end).
    + apply returns_query; [done |]. intros w <- c Hc. by apply elem_of_order_by in Hc.
    + intros [all | e] Hall; [| done]. by apply first_issuer_verified.
Qed.

Lemma mild_name_loop left_ name candidate i : guar (on_db mild) (name_loop left_ name candidate i).
Proof. revert candidate i. induction left_ as [| n IH]; intros candidate i; cbn [name_loop]; guar_walk idtac. Qed.
#[local] Hint Resolve mild_name_loop : guar.
#[local] Hint Resolve lasting_verified : core.

Lemma learns_import_anchor actor anchor : learns (fun _ => True) anything (import_anchor sink actor anchor).
Proof.
  unfold import_anchor. learn. eapply learns_bind; [apply learns_findIssuerID |]. intros parent. learn;
    (apply learns_then_CreateCA; [done | | intro; learn]; intros d Hd; by eapply ready_issuer, verified_known).
Qed.

Lemma learns_import_anchors P actor l : learns P anything (import_anchors sink actor l).
Proof.
  revert P. induction l as [| c l IH]; intros P; cbn [import_anchors]; [by apply learns_Ret |].
  eapply learns_bind; [eapply learns_weaken with (R' := anything); [apply learns_import_anchor | done | done] |].
  intros [u | e]; [apply IH | by apply learns_Ret].
Qed.

Lemma learns_linkIssuer cert chain actor :
  learns (fun _ => True) (fun r d => match r with Ok o => verified cert o d | Err _ => True end) (linkIssuer sink cert chain actor).
Proof.
  unfold linkIssuer. destruct (IsSelfSigned cert); [by apply learns_Ret |].
  eapply learns_bind; [apply learns_findIssuerID |]. intros [id |]; [by apply learns_Ret |].
  destruct (str_is _ _); [by apply learns_Ret |]. destruct (ParseCertChainPEM chain); [| by apply learns_Ret].
  eapply learns_bind; [apply learns_import_anchors |]. intros [u | e]; [| by apply learns_Ret].
  eapply learns_bind; [apply learns_findIssuerID |]. intros found. by apply learns_Ret.
Qed.

Lemma learns_pending_parent ref :
  learns (fun _ => True) (fun r d => match r with Ok o => parent_known o d | Err _ => True end) (pending_parent ref).
Proof.
  apply learns_reads; [guar_walk idtac |]. intros d. unfold pending_parent. destruct (_ || _); [done |].
  eapply returns_bind; [apply returns_GetCAByRef |]. intros [c | e] Hc; [| done]. intros p [= <-]. by exists c.
Qed.

Lemma learns_CreateSubordinateCSR in_ : learns (fun _ => True) anything (CreateSubordinateCSR cfg master sink in_).
Proof.
  unfold CreateSubordinateCSR. learn. eapply learns_bind; [apply learns_pending_parent |]. intros [parent | e']; learn.
  apply learns_then_CreateCA; [done | | intro; learn]. intros d Hd q Hq. split; [by apply Hd | done].
Qed.

Lemma learns_ImportCA in_ : learns (fun _ => True) anything (ImportCA master sink in_).
Proof.
  unfold ImportCA. learn. eapply learns_bind; [apply learns_linkIssuer |]. intros [parent | e']; learn.
  apply learns_then_CreateCA; [done | | intro; learn]. intros d Hd. by eapply ready_issuer, verified_known.
Qed.

(** *** Requests *)

(** What a request served alone does to a forest. *)
Definition tends {A} (p : prog world A) : Prop :=
  forall w, forest (w_db w) -> wp p (fun _ w' => forest (w_db w') /\ evolves (w_db w) (w_db w')) w.

Lemma tends_Ret {A} (a : A) : tends (Ret a).
Proof. intros w Hw. by apply wp_Ret. Qed.

Lemma tends_bind {A B} (p : prog world A) (q : A -> prog world B) : tends p -> (forall a, tends (q a)) -> tends (bind p q).
Proof.
  intros Hp Hq w Hw. apply wp_bind. eapply wp_mono; [by apply Hp |]. intros a w1 [F1 E1].
  eapply wp_mono; [by apply Hq |]. intros b w2 [F2 E2]. split; [done | by etrans].
Qed.

Lemma tends_guar {A} (p : prog world A) : guar (on_db carries_on) p -> tends p.
Proof.
  intros Hp w Hw. eapply wp_mono; [apply (wp_guar carries_on); [apply _ | apply _ | exact Hp] |].
  intros a w' [Hf He]. auto.
Qed.

Lemma tends_mild {A} (p : prog world A) : guar (on_db mild) p -> tends p.
Proof. intros Hp. apply tends_guar. eapply guar_weaken; [| exact Hp]. intros w w' Hm. by destruct (mild_grows _ _ Hm). Qed.

Lemma tends_learns {A} (R : A -> db -> Prop) (p : prog world A) : learns (fun _ => True) R p -> tends p.
Proof. intros Hp w Hw. eapply wp_mono; [by apply Hp |]. intros a w' [[[Hf He] _] _]. auto. Qed.

Lemma tends_DeleteCA id actor : tends (CaService.DeleteCA sink id actor).
Proof.
  unfold CaService.DeleteCA. apply tends_bind; [apply tends_mild; guar_walk mild_leaf |]. intros [c | e]; [| apply tends_Ret].
  apply tends_bind; [apply tends_guar, guar_exec_found; [apply _ |]; intros d Hv; by apply carries_on_delete |].
  intros [u | e]; [apply tends_mild; guar_walk mild_leaf | apply tends_Ret].
Qed.

Lemma tends_SetCAStatus id status actor : tends (CaService.SetCAStatus sink id status actor).
Proof.
  unfold CaService.SetCAStatus. destruct (_ && _) eqn:E; [apply tends_Ret |]. apply tends_mild.
  apply andb_false_iff in E. assert (status <> StatusPending) as Hne by (intros ->; vm_compute in E; by destruct E).
  pose proof (mild_SetCAStatus id status Hne). guar_walk mild_leaf.
Qed.

(** A pending authority that is being completed. *)
Definition awaiting (id : Z) (d : db) : Prop :=
  forest d /\ exists r, r ∈ rows (d Cas) /\ CA.ID r = id /\ CA.CertPEM r = EmptyString.

Lemma lasting_awaiting id : lasting (awaiting id).
Proof.
  intros d d' [[Hf _] Hg] [HF (r & Hr & Hid & Hc)]. split; [auto |]. destruct (Hg r Hr) as (r' & Hr' & Hi & _ & Hce & _).
  exists r'. split; [done |]. split; congruence.
Qed.

Lemma wp_CompleteCA id c d0 w :
  awaiting id (w_db w) -> issuer_known (CA.ParentID c) (w_db w) -> CA.Status c = StatusActive ->
  evolves d0 (w_db w) -> (forall y, y ∈ rows (d0 Cas) -> CA.ID y = id -> blank y) ->
  wp (Store.CompleteCA id c) (fun _ w' => forest (w_db w') /\ evolves d0 (w_db w')) w.
Proof.
  intros [Hw (r & Hr & Hid & Hc)] Hi Hs He Hb. unfold Store.CompleteCA. apply wp_exec_found; [intros e fs; by split |].
  intros fs Hv.
  assert (forall x, x ∈ rows (w_db w Cas) -> CA.ID x = id -> CA.CertPEM x = EmptyString) as Hbare
    by (intros x Hx Hxi; rewrite (ca_id_inj (w_db w) x r); [done | apply Hw | done | done | congruence]).
  split; [by apply forest_completed | by apply evolves_completed].
Qed.

(** The steps before the certificate is written only add. *)
Definition tends_from {A} (d0 : db) (P : db -> Prop) (p : prog world A) : Prop :=
  forall w, P (w_db w) -> evolves d0 (w_db w) -> wp p (fun _ w' => forest (w_db w') /\ evolves d0 (w_db w')) w.

Lemma tends_from_bind {A B} d0 (P : db -> Prop) (Q : A -> db -> Prop) (p : prog world A) (q : A -> prog world B) :
  learns P Q p -> (forall a, tends_from d0 (Q a) (q a)) -> tends_from d0 P (bind p q).
Proof.
  intros Hp Hq w Hw He. apply wp_bind. eapply wp_mono; [by apply Hp |]. intros a w' [[[_ He'] _] HQ].
  apply Hq; [done | by etrans].
Qed.

Lemma tends_from_Ret {A} d0 (P : db -> Prop) (a : A) : (forall d, P d -> forest d) -> tends_from d0 P (Ret a).
Proof. intros HP w Hw He. apply wp_Ret. auto. Qed.

Lemma tends_from_tends {A} d0 (P : db -> Prop) (p : prog world A) : (forall d, P d -> forest d) -> tends p -> tends_from d0 P p.
Proof. intros HP Hp w Hw He. eapply wp_mono; [apply Hp; auto |]. intros a w' [Hf He']. split; [done | by etrans]. Qed.

Lemma learns_frame {A} (P : db -> Prop) (R : A -> db -> Prop) (p : prog world A) :
  lasting P -> learns (fun _ => True) R p -> learns P (fun a d => P d /\ R a d) p.
Proof.
  intros HP Hp w Hw. eapply wp_mono; [by apply Hp |]. intros a w' [Hg HR]. split; [done |]. split; [by eapply HP | done].
Qed.

Lemma tends_complete in_ rec d0 :
  (forall y, y ∈ rows (d0 Cas) -> CA.ID y = CA.ID rec -> blank y) ->
  tends_from d0 (awaiting (CA.ID rec)) (complete_with master sink in_ rec).
Proof.
  intros Hb. set (P := awaiting (CA.ID rec)). assert (forall d, P d -> forest d) as HP by (intros d []; assumption).
  assert (lasting P) as HL by apply lasting_awaiting. unfold complete_with.
  destruct (str_is _ _); [by apply tends_from_Ret |]. destruct (leaf_and_chain _ _) as [[cert chain] |]; [| by apply tends_from_Ret].
  eapply tends_from_bind; [apply learns_mild; [exact HL | guar_walk idtac] |]. intros [u | e]; [| by apply tends_from_Ret].
  destruct (matches_pending _ _ _); [| by apply tends_from_Ret].
  eapply tends_from_bind; [apply learns_frame; [done | apply learns_linkIssuer] |].
  intros [parent | e]; [| apply tends_from_Ret; intros d [[] _]; assumption].
  eapply tends_from_bind; [apply (learns_mild (fun d => P d /\ verified cert parent d)); [| guar_walk idtac] |].
  { intros d d' Hg []. split; [by eapply HL | by eapply lasting_verified]. }
  intros info w [Hw Hi%verified_known] He. apply wp_bind. eapply wp_mono; [by apply wp_CompleteCA |]. intros r w' [Hf He'].
  destruct r; [| by apply wp_Ret]. apply (tends_from_tends d0 forest); [done | apply tends_mild; guar_walk mild_leaf | done | done].
Qed.

Lemma tends_CompleteSubordinate in_ : tends (CompleteSubordinate master sink in_).
Proof.
  intros w Hw. unfold CompleteSubordinate. apply wp_bind.
  eapply wp_reads; [guar_walk idtac | apply (returns_GetCAByRef (w_db w)) |].
  intros [rec | e] w0 Hrec E0; rewrite <- E0 in *; [| by apply wp_Ret; split].
  destruct (negb _) eqn:Est; [by apply wp_Ret; split |]. apply negb_false_iff, String.eqb_eq in Est.
  assert (blank rec) as Hb by (split; [by apply Hw | done]).
  apply tends_complete; [| split; [done |]; exists rec; by destruct Hb | done].
  intros y Hy Hid. by rewrite (ca_id_inj (w_db w0) y rec (forest_valid _ Hw) Hy Hrec Hid).
Qed.

Inductive request :=
| AboutCertificates (o : op)
| CreateRequest (in_ : CaService.CreateCAInput)
| StatusRequest (id : Z) (status actor : string)
| DefaultRequest (id : Z) (actor : string)
| DeleteRequest (id : Z) (actor : string)
| CsrRequest (in_ : SubordinateCSRInput)
| CompleteRequest (in_ : CompleteSubordinateInput)
| ImportRequest (in_ : ImportCAInput).

Definition serve (r : request) : prog world unit :=
  match r with
  | AboutCertificates o => op_run cfg master sink o
  | CreateRequest in_ => CaService.CreateCA cfg master sink in_ ;;; Ret tt
  | StatusRequest id status actor => CaService.SetCAStatus sink id status actor ;;; Ret tt
  | DefaultRequest id actor => CaService.SetDefaultCA sink id actor ;;; Ret tt
  | DeleteRequest id actor => CaService.DeleteCA sink id actor ;;; Ret tt
  | CsrRequest in_ => CreateSubordinateCSR cfg master sink in_ ;;; Ret tt
  | CompleteRequest in_ => CompleteSubordinate master sink in_ ;;; Ret tt
  | ImportRequest in_ => ImportCA master sink in_ ;;; Ret tt
  end%prog.

Fixpoint serve_all (rs : list request) (w : world) : world :=
  match rs with [] => w | r :: rs' => serve_all rs' (snd (run (serve r) w)) end.

Lemma tends_serve r : tends (serve r).
Proof.
  destruct r; cbn [serve]; try (apply tends_bind; [| intro; apply tends_Ret]).
  - apply tends_mild, mild_op.
  - eapply tends_learns, learns_CreateCA.
  - apply tends_SetCAStatus.
  - apply tends_mild. guar_walk mild_leaf.
  - apply tends_DeleteCA.
  - eapply tends_learns, learns_CreateSubordinateCSR.
  - apply tends_CompleteSubordinate.
  - eapply tends_learns, learns_ImportCA.
Qed.

Lemma serve_all_tends rs w : forest (w_db w) -> forest (w_db (serve_all rs w)) /\ evolves (w_db w) (w_db (serve_all rs w)).
Proof.
  revert w. induction rs as [| r rs IH]; intros w Hw; cbn [serve_all]; [done |].
  destruct (tends_serve r w Hw) as [Hw1 He1]. destruct (IH _ Hw1) as [Hw2 He2]. split; [done | by etrans].
Qed.

(** C10.  However authorities are created, imported with a key or without,
    requested and completed later, disabled, deleted and retired, one request
    after the other and whatever fails, no authority ever descends from
    itself, and the retirement of any of them comes back with an answer. *)
Theorem hierarchy_stays_acyclic rs w :
  forest (w_db w) ->
  (exists rank, ranked rank (w_db (serve_all rs w))) /\
  forall id reason cascade actor, exists fuel,
    fst (run (CaLifecycle.RevokeCA sink fuel id reason cascade actor) (serve_all rs w)) <> None.
Proof.
  intros Hw. destruct (serve_all_tends rs w Hw) as [Hf _]. destruct (forest_ranked _ Hf) as [rank Hr].
  split; [by exists rank |]. intros id reason cascade actor. exists (S (rank id)).
  apply (wp_returns_inv (fun w => ranked rank (w_db w)) (fun r => r <> None)); [| apply returns_RevokeCA; lia | exact Hr].
  eapply guar_weaken; [| apply mild_RevokeCA]. intros w1 w2 Hm. by apply mild_ranked.
Qed.

(** What a request does to an authority that holds a certificate. *)
Lemma evolves_certified d d' c x :
  forest d -> evolves d d' -> c ∈ rows (d Cas) -> ~ blank c -> x ∈ rows (d' Cas) -> CA.ID x = CA.ID c -> adjusted c x.
Proof.
  intros Hf [_ He] Hc Hn Hx Hid. pose proof (forest_seq _ Hf c Hc) as Hs.
  destruct (He x Hx ltac:(lia)) as (y & Hy & Hyx & Hadj).
  assert (y = c) as -> by (apply (ca_id_inj d); [apply Hf | done | done | congruence]).
  by destruct Hadj.
Qed.

(** An authority stored before its issuer is known is never tied to it:
    whatever is imported, completed or created afterwards, its issuer
    included, it stays without a parent and its chain incomplete. *)
Theorem late_issuer_completes_no_chain c cert rs w :
  forest (w_db w) -> c ∈ rows (w_db w Cas) -> Pki.ParseCertPEM (CA.CertPEM c) = Ok cert ->
  IsSelfSigned cert = false -> CA.ParentID c = None ->
  forall x, x ∈ rows (w_db (serve_all rs w) Cas) -> CA.ID x = CA.ID c ->
    CA.ParentID x = None /\ forall w', fst (run (ChainComplete x) w') = false.
Proof.
  intros Hw Hc Hcert Hself Hpar x Hx Hid. destruct (serve_all_tends rs w Hw) as [_ He].
  destruct (evolves_certified _ _ c x Hw He Hc) as (_ & Hp & Hce & _); [| done | done |].
  { intros [Hb _]. by apply parses_nonempty in Hcert. }
  split; [congruence |]. intros w'. unfold ChainComplete, CaService.CAChain. cbn [CaService.chain_loop].
  rewrite Hce, Hcert, Hp, Hpar. cbn. exact Hself.
Qed.

Definition stranded (id : Z) (d : db) : Prop :=
  exists y, y ∈ rows (d Cas) /\ CA.ID y = id /\ CA.CertPEM y = EmptyString /\ CA.Status y <> StatusPending.

Lemma wp_status_strands c status actor w :
  c ∈ rows (w_db w Cas) -> CA.CertPEM c = EmptyString ->
  wp (CaService.SetCAStatus sink (CA.ID c) status actor) (fun r w' => r = Ok tt -> stranded (CA.ID c) (w_db w')) w.
Proof.
  intros Hc Hce. unfold CaService.SetCAStatus. destruct (_ && _) eqn:E; [by apply wp_Ret |].
  assert (status <> StatusPending) as Hne by (intros ->; by vm_compute in E).
  apply wp_bind. apply wp_exec; [intros e fs; by apply wp_Ret |]. intros fs Hv.
  apply wp_bind. apply wp_mild; [guar_walk mild_leaf |]. intros u w' [_ Hg]. apply wp_Ret. intros _.
  destruct (Hg (CA.set_Status status c)) as (y & Hy & Hid & _ & Hcert & Hst).
  { cbn [w_db with_db with_faults]. rewrite update_eq. cbn [rows]. apply elem_of_update_where. exists c.
    split; [done |]. by rewrite Z.eqb_refl. }
  exists y. split; [done |]. split; [by rewrite Hid |]. split; [by rewrite Hcert |]. intros Hp. by apply Hne, Hst.
Qed.

(** Enabling or disabling an authority that waits for its certificate
    strands it: however often it is completed afterwards, it never holds a
    certificate, and a completion that finds it is refused. *)
Theorem status_change_strands_pending c status actor w w1 rs :
  forest (w_db w) -> c ∈ rows (w_db w Cas) -> CA.Status c = StatusPending ->
  run (CaService.SetCAStatus sink (CA.ID c) status actor) w = (Ok tt, w1) ->
  forall x, x ∈ rows (w_db (serve_all rs w1) Cas) -> CA.ID x = CA.ID c ->
    CA.CertPEM x = EmptyString /\ CA.Status x <> StatusPending /\
    forall in_ w2, fst (run (Store.GetCAByRef (cs_CARef in_)) w2) = Ok x ->
      exists e, fst (run (CompleteSubordinate master sink in_) w2) = Err e.
Proof.
  intros Hw Hc Hst Hrun x Hx Hid.
  pose proof (wp_status_strands c status actor w Hc (forest_blank _ Hw c Hc Hst)) as Hs. unfold wp in Hs. rewrite Hrun in Hs.
  destruct (Hs eq_refl) as (y & Hy & Hyid & Hyc & Hyst).
  assert (forest (w_db w1)) as Hw1 by (pose proof (tends_SetCAStatus (CA.ID c) status actor w Hw) as [Hf _]; by rewrite Hrun in Hf).
  destruct (serve_all_tends rs w1 Hw1) as [_ He].
  destruct (evolves_certified _ _ y x Hw1 He Hy) as (_ & _ & Hce & Hxst); [by intros [_ ?] | done | cbn; congruence |].
  assert (CA.Status x <> StatusPending) as Hnp by auto.
  split; [congruence |]. split; [done |]. intros in_ w2 Href. unfold CompleteSubordinate. rewrite run_bind, Href.
  destruct (str_is (CA.Status x) StatusPending) eqn:Eq; [by apply String.eqb_eq in Eq |]. cbn. eauto.
Qed.
End programs.

(** ** On a concrete server *)

Definition mild_no_sink a b c d e : guar (on_db mild) (Sample.no_sink a b c d e) := Logic.I.

Definition with_authorities (l : list CA.t) : world :=
  mkWorld (set_table Cas (mkTable (l : list (row Cas)) (Z.of_nat (length l))) empty_db) 1000 [] [] 0.

(** A root, an intermediate whose issuer is not stored, and one that waits for
    its certificate. *)
Definition orphan : CA.t :=
  CA.mk 2 "Corp" "corp" "CN=Corp" "" "05" "rsa-2048" "CERTIFICATE:5;CA;Corp;;Outside" Sample.key_enc "" false None 0 0 (10 ^ 20)
    "active" 0 "" false "" 0 None true "" "".
Definition waiting (id : Z) (name : string) : CA.t :=
  CA.mk id name name ("CN=" +:+ name)%go "" "" "rsa-2048" "" Sample.key_enc "csr" false None 0 0 0
    "pending" 0 "" false "" 0 None true "" "".
Definition three_authorities : world := with_authorities [Sample.root; orphan; waiting 3 "Lab"].

Lemma in_three c : c ∈ rows (w_db three_authorities Cas) -> c = Sample.root \/ c = orphan \/ c = waiting 3 "Lab".
Proof. intros [-> | [-> | [-> | []%not_elem_of_nil]%elem_of_cons]%elem_of_cons]%elem_of_cons; auto. Qed.

Lemma three_forest : forest (w_db three_authorities).
Proof.
  split.
  - by vm_compute.
  - intros c [-> | [-> | ->]]%in_three; vm_compute; discriminate.
  - exists (fun _ => 0). intros c p [-> | [-> | ->]]%in_three; discriminate.
  - intros c [-> | [-> | ->]]%in_three; [discriminate | discriminate | done].
  - intros c p [-> | [-> | ->]]%in_three; discriminate.
Qed.

(** The outside issuer is imported, and the request completed. *)
Definition import_outside : ImportCAInput := mkImport "" "CERTIFICATE:7;CA;Outside;;Outside" "" "" false "ann".
Definition complete_lab : CompleteSubordinateInput := mkComplete "3" "CERTIFICATE:8;CA;Lab;;Corp" "" false "ann".
Definition sample_traffic : list request := [ImportRequest import_outside; CompleteRequest complete_lab].

Lemma hierarchy_stays_acyclic_witness :
  map CA.ParentID (rows (w_db (serve_all Sample.cfg Sample.master Sample.no_sink sample_traffic three_authorities) Cas))
    = [None; None; Some 2%Z; None] /\
  exists fuel, fst (run (CaLifecycle.RevokeCA Sample.no_sink fuel 2 0 true "ann")
    (serve_all Sample.cfg Sample.master Sample.no_sink sample_traffic three_authorities)) <> None.
Proof.
  split; [by vm_compute |].
  exact (proj2 (hierarchy_stays_acyclic Sample.cfg Sample.master Sample.no_sink mild_no_sink sample_traffic
    three_authorities three_forest) 2%Z 0%Z true "ann"%string).
Defined.

Lemma late_issuer_completes_no_chain_witness :
  exists x, x ∈ rows (w_db (serve_all Sample.cfg Sample.master Sample.no_sink sample_traffic three_authorities) Cas) /\
    CA.Name x = "Corp"%string /\ forall w, fst (run (ChainComplete x) w) = false.
Proof.
  eexists (nth 1 (rows (w_db (serve_all Sample.cfg Sample.master Sample.no_sink sample_traffic three_authorities) Cas)) orphan).
  assert (nth 1 (rows (w_db (serve_all Sample.cfg Sample.master Sample.no_sink sample_traffic three_authorities) Cas)) orphan
    ∈ rows (w_db (serve_all Sample.cfg Sample.master Sample.no_sink sample_traffic three_authorities) Cas)) as Hin
    by (apply list_elem_of_In, nth_In; vm_compute; lia).
  split; [exact Hin |]. split; [by vm_compute |].
  destruct (Pki.ParseCertPEM (CA.CertPEM orphan)) as [cert | e] eqn:Hcert; [| by vm_compute in Hcert].
  refine (proj2 (late_issuer_completes_no_chain Sample.cfg Sample.master Sample.no_sink mild_no_sink orphan cert sample_traffic
    three_authorities three_forest _ Hcert _ eq_refl _ Hin _)).
  - apply list_elem_of_In. right. by left.
  - vm_compute in Hcert. injection Hcert as <-. by vm_compute.
  - by vm_compute.
Defined.

Lemma status_change_strands_pending_witness :
  exists w1, run (CaService.SetCAStatus Sample.no_sink 3 "disabled" "ann") three_authorities = (Ok tt, w1) /\
  forall x, x ∈ rows (w_db (serve_all Sample.cfg Sample.master Sample.no_sink
      [StatusRequest 3 "active" "ann"; CompleteRequest complete_lab] w1) Cas) -> CA.ID x = 3%Z -> CA.CertPEM x = EmptyString.
Proof.
  eexists. split; [reflexivity |]. intros x Hx Hid.
  refine (proj1 (status_change_strands_pending Sample.cfg Sample.master Sample.no_sink mild_no_sink (waiting 3 "Lab") "disabled" "ann"
    three_authorities _ _ three_forest _ eq_refl eq_refl x Hx Hid)).
  apply list_elem_of_In. right. right. by left.
Defined.
End ImportFacts.
