(* ===== verification/ImportSpec.v ===== *)
(** * What an import stores, and what goes wrong around it

    A successful [ImportCA] described field by field against what was checked;
    an import that reports failure and has happened; and two completions of one
    request that make two authorities each other's parent. *)

From Stdlib Require Import FunctionalExtensionality.
From S2P Require Import Prelude GoStrings Effects Models Schema SqlFacts TableFacts Store Pki Sealing CaService CaFacts IssueFacts CaLifecycle CaImport LifecycleFacts Sample ImportFacts.

Module ImportSpec.
Import CaFacts IssueFacts PkiImport CaImport ImportFacts.

Section spec.
Context `{Pki.Std} `{Ciphers} `{RowOrder}.
Context (master : string).
Context (sink : string -> string -> string -> string -> string -> prog world unit).
Context (Hsink : forall a b c d e, guar (on_db mild) (sink a b c d e)).
Context (Hquiet : forall a b c d e, beside [Cas] (sink a b c d e)).

#[local] Hint Resolve Hsink : guar.

(** Authorities that were there are there unchanged. *)
Definition retains (d d' : db) : Prop := forall x, x ∈ rows (d Cas) -> x ∈ rows (d' Cas).
#[local] Instance retains_refl : Reflexive retains.
Proof. by intros d x. Qed.
#[local] Instance retains_trans : Transitive retains.
Proof. intros d1 d2 d3 H12 H23 x Hx. auto. Qed.

Lemma retains_keeps d d' : keeps [Cas] d d' -> retains d d'.
Proof. intros Hk x. by rewrite (Hk Cas) by left. Qed.
Lemma retains_insert mk d : retains d (snd (insert Cas mk d)).
Proof. intros x Hx. rewrite insert_eq. cbn [rows]. apply elem_of_app. by left. Qed.

Lemma retains_sink a b c d e : guar (on_db retains) (sink a b c d e).
Proof. destruct (Hquiet a b c d e) as [Hk _]. eapply guar_weaken; [| exact Hk]. intros w w'. apply retains_keeps. Qed.
Lemma sound_sink a b c d e : guar stays_sound (sink a b c d e).
Proof. by destruct (Hquiet a b c d e). Qed.
#[local] Hint Resolve retains_sink sound_sink : guar.

Ltac retains_leaf := first [ apply retains_insert | apply retains_keeps; frame ].

Lemma calm_name_loop R `{Reflexive _ R} n name candidate i : guar (on_db R) (name_loop n name candidate i).
Proof. revert candidate i. induction n as [| n IH]; intros candidate i; cbn [name_loop]; guar_walk idtac. Qed.
Lemma sound_name_loop n name candidate i : guar stays_sound (name_loop n name candidate i).
Proof. revert candidate i. induction n as [| n IH]; intros candidate i; cbn [name_loop]; guar_walk idtac. Qed.
Lemma sound_slug_loop n base slug i : guar stays_sound (CaService.slug_loop n base slug i).
Proof. revert slug i. induction n as [| n IH]; intros slug i; cbn [CaService.slug_loop]; guar_walk idtac. Qed.
#[local] Hint Resolve calm_name_loop sound_name_loop sound_slug_loop : guar.

Lemma retains_anchors actor l : guar (on_db retains) (import_anchors sink actor l).
Proof. induction l as [| c l IH]; cbn [import_anchors]; guar_walk retains_leaf. Qed.
Lemma sound_anchors actor l : guar stays_sound (import_anchors sink actor l).
Proof. induction l as [| c l IH]; cbn [import_anchors]; guar_walk idtac. Qed.
#[local] Hint Resolve retains_anchors sound_anchors : guar.

Lemma wp_linkIssuer cert chain actor (Q : result error (option Z) -> world -> Prop) w :
  sound w ->
  (forall r w', sound w' -> retains (w_db w) (w_db w') ->
     match r with
     | Ok o => verified cert o (w_db w') /\ (IsSelfSigned cert = true -> o = None)
     | Err _ => True
     end -> Q r w') ->
  wp (linkIssuer sink cert chain actor) Q w.
Proof.
  intros Hw HQ.
  assert (wp (linkIssuer sink cert chain actor) (fun r _ => match r with Ok o => IsSelfSigned cert = true -> o = None | Err _ => True end) w) as Hself.
  { unfold linkIssuer. destruct (IsSelfSigned cert); [by apply wp_Ret |].
    eapply wp_mono; [apply (wp_returns (fun _ => True)), returns_any |]. by intros [o | e]. }
  eapply wp_mono.
  - apply wp_and; [apply wp_and; [apply wp_and |] |].
    + eapply wp_sound; [guar_walk idtac | exact Hw].
    + apply (wp_guar retains); [apply _ | apply _ | guar_walk retains_leaf].
    + by apply (learns_linkIssuer sink Hsink cert chain actor).
    + exact Hself.
  - intros r w' [[[Hs Hk] [_ Hv]] Ho]. apply HQ; [done | done |]. by destruct r.
Qed.

Lemma wp_ValidateCACertificate cert (Q : result error unit -> world -> Prop) w :
  sound w ->
  (forall e w', sound w' -> w_db w' = w_db w -> Q (Err e) w') ->
  (forall w', sound w' -> w_db w' = w_db w -> Pki.IsCA cert = true ->
     (Pki.KeyUsage cert = 0%Z \/ Z.land (Pki.KeyUsage cert) Pki.KeyUsageCertSign <> 0%Z) ->
     (w_clock w <= Pki.cert_NotAfter cert)%Z -> Q (Ok tt) w') ->
  wp (ValidateCACertificate cert) Q w.
Proof.
  intros Hw He Hok. unfold ValidateCACertificate. destruct (Pki.IsCA cert) eqn:Hca; cbn [negb]; [| apply wp_Ret; auto].
  destruct (negb _ && _) eqn:Hku; [apply wp_Ret; auto |]. apply wp_bind. apply wp_now_sound; [done |].
  intros t w' Hw' Hd Ht. apply wp_Ret. destruct (Z.ltb_spec (Pki.cert_NotAfter cert) t) as [Hlt | Hge]; [auto |].
  apply Hok; [done | done | done | | lia]. apply andb_false_iff in Hku as [Hku | Hku].
  - left. by apply negb_false_iff, Z.eqb_eq in Hku.
  - right. by apply Z.eqb_neq in Hku.
Qed.

Lemma wp_Describe cert (Q : CertInfo -> world -> Prop) w :
  sound w ->
  (forall info w', sound w' -> w_db w' = w_db w -> info_FingerprintSHA256 info = Pki.FingerprintSHA256 (Pki.Raw cert) -> Q info w') ->
  wp (Describe cert) Q w.
Proof.
  intros Hw HQ. apply wp_bind. apply wp_now_sound; [done |]. intros t w' Hw' Hd _. apply wp_Ret. by apply HQ.
Qed.

(** The key that came with a certificate, as it is kept. *)
Definition key_kept (keyPEM : string) (cert : Pki.Cert Pki.PublicKey) (keyEnc : string) : Prop :=
  if str_is (Str.TrimSpace keyPEM) "" then keyEnc = EmptyString
  else CaService.box_Decrypt master keyEnc = Ok (CaService.normalizePEM (Str.TrimSpace keyPEM)) /\
    exists key, Pki.ParsePrivateKeyPEM (Str.TrimSpace keyPEM) = Ok key /\ Pki.KeyMatchesCert key cert = Ok tt.

Lemma wp_supplied_key keyPEM keyType cert (Q : result error (string * string) -> world -> Prop) w :
  sound w ->
  (forall e w', Q (Err e) w') ->
  (forall keyEnc kt w', sound w' -> w_db w' = w_db w -> key_kept keyPEM cert keyEnc -> Q (Ok (keyEnc, kt)) w') ->
  wp (supplied_key master keyPEM keyType cert) Q w.
Proof.
  intros Hw He Hok. unfold supplied_key, key_kept in *. destruct (str_is (Str.TrimSpace keyPEM) ""); [apply wp_Ret; by apply Hok |].
  destruct (Pki.ParsePrivateKeyPEM _) as [key | e]; [| by apply wp_Ret]. unfold MatchKeyToCertificate.
  destruct (Pki.KeyMatchesCert key cert) as [[] | e] eqn:Hm; [| by apply wp_Ret]. apply wp_bind. apply wp_act. cbn [fst snd].
  destruct (Box.Encrypt _ _ _) as [enc | e] eqn:Henc; apply wp_Ret; [| done].
  apply Hok; [by destruct Hw | done |]. split; [| by exists key]. by eapply Sealing.box_opens.
Qed.

Lemma wp_CreateCA_sound c (Q : result error CA.t -> world -> Prop) w :
  sound w ->
  (forall e w', Q (Err e) w') ->
  (forall created dflt id w', sound w' -> let saved := Store.ca_row c created dflt id in
     rows (w_db w' Cas) = rows (w_db w Cas) ++ [saved] -> Q (Ok saved) w') ->
  wp (Store.CreateCA c) Q w.
Proof.
  intros Hw He Hok. unfold Store.CreateCA. apply wp_bind. eapply (wp_calmly (Store.zero_or_now _)); [guar_walk idtac | guar_walk idtac | done |].
  intros created w1 Hw1 D1 _. apply wp_bind. eapply (wp_calmly (Store.takes_default _)); [guar_walk idtac | guar_walk idtac | done |].
  intros dflt w2 Hw2 D2 _. rewrite D1 in D2. apply (wp_insert_back Cas _ (Wrapf "insert CA")); [done | | done | by intros; apply wp_Ret |].
  { intros a b Hab. do 2 (apply orb_true_iff; left). exact Hab. }
  intros id w' Hw' Hrows. apply Hok; [done |]. by rewrite <- D2.
Qed.

(** The row of an import, against the certificate that was supplied. *)
Definition imported (in_ : ImportCAInput) (cert : Pki.Cert Pki.PublicKey) (saved : CA.t) : Prop :=
  CA.CertPEM saved = Pki.EncodeCertPEM (Pki.Raw cert) /\ CA.Fingerprint saved = Pki.FingerprintSHA256 (Pki.Raw cert) /\
  CA.Status saved = StatusActive /\ CA.External saved = true /\ CA.NotAfter saved = Pki.cert_NotAfter cert /\
  CA.PathLen saved = PathLenOf cert /\ CA.IsRoot saved = IsSelfSigned cert /\
  key_kept (ii_KeyPEM in_) cert (CA.KeyEnc saved) /\
  (ii_MakeDefault in_ = true -> CA.IsDefault saved = true /\ CA.KeyEnc saved <> EmptyString) /\
  (IsSelfSigned cert = true -> CA.ParentID saved = None).

(** Rows but for the mark of the default. *)
Definition undefaulted (c : CA.t) : CA.t := CA.set_IsDefault false c.
Definition retained (d d' : db) : Prop :=
  forall x, x ∈ rows (d Cas) -> exists x', x' ∈ rows (d' Cas) /\ undefaulted x' = undefaulted x.

Lemma wp_make_default (b : bool) (saved : CA.t) (Q : result error unit -> world -> Prop) w :
  sound w -> saved ∈ rows (w_db w Cas) ->
  (forall e w', Q (Err e) w') ->
  (forall w', sound w' -> retained (w_db w) (w_db w') -> (if b then CA.set_IsDefault true saved else saved) ∈ rows (w_db w' Cas) ->
     Q (Ok tt) w') ->
  wp (if b then Store.SetDefaultCA (CA.ID saved) else Ret (Ok tt)) Q w.
Proof.
  intros Hw Hin He Hok. destruct b; [| by apply wp_Ret, Hok; [| intros x Hx; exists x |]].
  unfold Store.SetDefaultCA. apply wp_bind. apply wp_sql_any; [done | | intros c Hv; by apply wp_Ret]. intros Hv Hs.
  apply wp_Ret. apply Hok; [done | |]; cbn [w_db with_db].
  - intros x Hx. eexists. split; [rewrite !update_eq; cbn [rows]; apply elem_of_update_where; eexists; split;
      [apply elem_of_update_where; exists x; split; [exact Hx | reflexivity] | reflexivity] |]. by destruct (_ =? _)%Z.
  - rewrite !update_eq. cbn [rows]. apply elem_of_update_where. exists (CA.set_IsDefault false saved).
    split; [apply elem_of_update_where; by exists saved |]. by rewrite Z.eqb_refl.
Qed.

Lemma fingerprint_free d fp :
  head (scan (select Cas (fun c => str_is (CA.Fingerprint c) fp) d)) = None ->
  forall x, x ∈ rows (d Cas) -> CA.Fingerprint x <> fp.
Proof.
  intros Hn x Hx Hfp. assert (x ∈ scan (select Cas (fun c => str_is (CA.Fingerprint c) fp) d)) as Hin.
  { apply elem_of_scan, elem_of_select_where. split; [done |]. by apply String.eqb_eq. }
  destruct (scan _); [by apply not_elem_of_nil in Hin | done].
Qed.

Lemma retained_retains d d' : retains d d' -> retained d d'.
Proof. intros Hr x Hx. exists x. auto. Qed.
Lemma retained_trans d1 d2 d3 : retained d1 d2 -> retained d2 d3 -> retained d1 d3.
Proof.
  intros H12 H23 x Hx. destruct (H12 x Hx) as (y & Hy & Hxy). destruct (H23 y Hy) as (z & Hz & Hyz). exists z. split; congruence.
Qed.

Lemma verified_retained cert o d d' : retained d d' -> verified cert o d -> verified cert o d'.
Proof.
  intros Hr Hv p Hp. destruct (Hv p Hp) as (c & pc & Hc & Hid & Hparse & Hsig). destruct (Hr c Hc) as (c' & Hc' & He).
  exists c', pc. pose proof (f_equal CA.ID He) as Hi. pose proof (f_equal CA.CertPEM He) as Hce. cbn in Hi, Hce.
  repeat split; congruence.
Qed.

Lemma beside_ca_audit a b c d : beside [Cas] (CaService.audit sink a b c d).
Proof.
  assert (forall a b c d e, guar (on_db (keeps [Cas])) (sink a b c d e)) as Hk by (intros; by destruct (Hquiet a0 b0 c0 d0 e)).
  split; [guar_walk ltac:(frame) | guar_walk idtac].
Qed.

(** What is stored of [cert] from [d], at [now], leading to [d']. *)
Definition stores (in_ : ImportCAInput) (now : Z) (d : db) (saved : CA.t) (d' : db) : Prop :=
  exists cert chain, leaf_and_chain (ii_CertPEM in_) (ii_ChainPEM in_) = Ok (cert, chain) /\
    Pki.IsCA cert = true /\ (Pki.KeyUsage cert = 0%Z \/ Z.land (Pki.KeyUsage cert) Pki.KeyUsageCertSign <> 0%Z) /\
    (now <= Pki.cert_NotAfter cert)%Z /\
    (forall x, x ∈ rows (d Cas) -> CA.Fingerprint x <> Pki.FingerprintSHA256 (Pki.Raw cert)) /\
    saved ∈ rows (d' Cas) /\ imported in_ cert saved /\ verified cert (CA.ParentID saved) d' /\ retained d d'.

Lemma wp_ImportCA in_ w :
  sound w ->
  wp (ImportCA master sink in_) (fun r w' => match r with
    | Err _ => True
    | Ok saved => stores in_ (w_clock w) (w_db w) saved (w_db w')
    end) w.
Proof.
  intros Hw. unfold ImportCA. destruct (str_is _ ""); [by apply wp_Ret |].
  destruct (leaf_and_chain _ _) as [[cert chain] | e] eqn:Hleaf; [| by apply wp_Ret].
  apply wp_bind. apply wp_ValidateCACertificate; [done | intros e w1 _ _; by apply wp_Ret |].
  intros w1 Hw1 D1 Hca Hku Hexp. apply wp_bind. apply wp_Describe; [done |]. intros info w2 Hw2 D2 Hfp.
  apply wp_bind. apply wp_row_sound; [done |]. destruct (head _) as [existing |] eqn:Hhead; [by apply wp_Ret |].
  pose proof (fingerprint_free _ _ Hhead) as Hfree.
  apply wp_bind. apply wp_supplied_key; [done | intros; by apply wp_Ret |]. intros keyEnc kt w3 Hw3 D3 Hkey.
  apply wp_bind. apply wp_linkIssuer; [done |]. intros [parent | e] w4 Hw4 K4 Hlink; [| by apply wp_Ret]. destruct Hlink as [Hver Hself].
  apply wp_bind. eapply (wp_calmly (uniqueName _)); [guar_walk idtac | guar_walk idtac | done |]. intros unique w5 Hw5 D5 _.
  apply wp_bind. eapply (wp_calmly (CaService.uniqueSlug _)); [guar_walk idtac | guar_walk idtac | done |]. intros slug w6 Hw6 D6 _.
  apply wp_bind. apply wp_CreateCA_sound; [done | intros; by apply wp_Ret |]. intros created dflt id w7 Hw7 saved Hrows.
  destruct (ii_MakeDefault in_ && str_is keyEnc "") eqn:Hanchor; [by apply wp_Ret |].
  assert (saved ∈ rows (w_db w7 Cas)) as Hin by (rewrite Hrows; apply elem_of_app; right; by left).
  apply wp_bind. apply wp_make_default; [done | exact Hin | intros; by apply wp_Ret |]. intros w8 Hw8 R8 Hin8.
  apply wp_bind. eapply (wp_beside [Cas]); [apply beside_ca_audit | exact Hw8 |]. intros u w9 Hw9 _ K9.
  apply wp_Ret. exists cert, chain. rewrite <- D1 in *. rewrite D2 in Hfree. rewrite Hfp in Hfree. rewrite D3, D2 in K4.
  assert (w_db w9 Cas = w_db w8 Cas) as E9 by (apply K9; by left).
  assert (retained (w_db w4) (w_db w9)) as R49.
  { eapply retained_trans; [| eapply retained_trans; [exact R8 | intros x Hx; exists x; by rewrite E9]].
    intros x Hx. exists x. split; [| done]. rewrite Hrows, D6, D5. apply elem_of_app. by left. }
  split; [done |]. split; [done |]. split; [done |]. split; [done |]. split; [done |].
  split; [by rewrite E9 |]. split; [| split].
  - destruct (ii_MakeDefault in_) eqn:Hdef; repeat split; try done; try congruence; try (by intros Hs; rewrite (Hself Hs)).
    by apply andb_false_iff in Hanchor as [? | ?%String.eqb_neq].
  - replace (CA.ParentID (if ii_MakeDefault in_ then CA.set_IsDefault true saved else saved)) with parent by by destruct (ii_MakeDefault in_).
    by eapply verified_retained.
  - eapply retained_trans; [by apply retained_retains | exact R49].
Qed.

(** C11.  What a successful import, run alone and with a database that fails
    nothing, has stored: a certificate of an authority that may sign and has
    not expired, not stored before, with the key that came with it sealed and
    matching it; tied to a stored authority only if the certificate of that one
    verifies it; and nothing that was there is changed. *)
Theorem import_spec in_ w saved w' :
  sound w -> run (ImportCA master sink in_) w = (Ok saved, w') -> stores in_ (w_clock w) (w_db w) saved (w_db w').
Proof. intros Hw E. pose proof (wp_ImportCA in_ w Hw) as Hs. unfold wp in Hs. by rewrite E in Hs. Qed.
End spec.

(** ** An import that fails and has happened *)

Definition quiet_no_sink a b c d e : beside [Cas] (Sample.no_sink a b c d e) := conj Logic.I Logic.I.

Definition import_branch : ImportCAInput :=
  mkImport "Branch" "CERTIFICATE:9;CA;Branch;;Corp" "PRIVATE KEY:key" "" true "ann".

Lemma three_sound : sound three_authorities.
Proof. split; [done | by vm_compute]. Qed.

(** The authority this stores. *)
Definition branch : option CA.t :=
  Eval vm_compute in match fst (run (ImportCA Sample.master Sample.no_sink import_branch) three_authorities) with
                     | Ok c => Some c | Err _ => None end.

Lemma branch_imported :
  match branch with
  | Some c => CA.ParentID c = Some 2%Z /\ fst (run (ImportCA Sample.master Sample.no_sink import_branch) three_authorities) = Ok c
  | None => False
  end.
Proof. split; by vm_compute. Qed.

Lemma import_spec_witness :
  match branch with
  | Some c => exists w', run (ImportCA Sample.master Sample.no_sink import_branch) three_authorities = (Ok c, w') /\
      CA.ParentID c = Some 2%Z /\ stores Sample.master import_branch 1000 (w_db three_authorities) c (w_db w')
  | None => False
  end.
Proof.
  pose proof branch_imported as Hb. destruct branch as [c |]; [| exact Hb]. destruct Hb as [Hp Hr].
  destruct (run _ three_authorities) as [r w'] eqn:E. cbn [fst] in Hr. exists w'. rewrite Hr in E |- *.
  split; [reflexivity |]. split; [exact Hp |].
  exact (import_spec Sample.master Sample.no_sink mild_no_sink quiet_no_sink import_branch three_authorities c w' three_sound E).
Defined.

Section half_imported.
Context `{Pki.Std} `{Ciphers} `{RowOrder}.
Context (master : string) (sink : string -> string -> string -> string -> string -> prog world unit).

(** Importing a trust anchor as the default never reports success. *)
Lemma returns_anchor_default in_ I :
  ii_MakeDefault in_ = true -> Str.TrimSpace (ii_KeyPEM in_) = EmptyString ->
  returns I (fun r => is_ok r = false) (ImportCA master sink in_).
Proof.
  intros Hdef Hkey. unfold ImportCA. destruct (str_is _ ""); [done |].
  destruct (leaf_and_chain _ _) as [[cert chain] |]; [| done].
  apply returns_skip. intros [u |]; [| done]. apply returns_skip. intros info. apply returns_skip. intros [known |]; [done |].
  unfold supplied_key. rewrite Hkey. cbn [str_is String.eqb bind]. apply returns_skip. intros [parent |]; [| done].
  apply returns_skip. intros unique. apply returns_skip. intros slug. apply returns_skip. intros [saved |]; [| done].
  by rewrite Hdef.
Qed.
End half_imported.

Definition import_anchor_default (b : bool) : ImportCAInput := mkImport "" "CERTIFICATE:7;CA;Outside;;Outside" "" "" b "ann".

(** Asked to import a trust anchor as the default issuer, the service
    always answers with an error; but the authority is stored by then, nothing
    in the audit log tells of it, and asking again without the default is
    refused because it is already there. *)
Theorem anchor_as_default_is_half_imported :
  (forall in_ w, ii_MakeDefault in_ = true -> Str.TrimSpace (ii_KeyPEM in_) = EmptyString ->
     is_ok (fst (run (ImportCA Sample.master Sample.no_sink in_) w)) = false) /\
  let w' := snd (run (ImportCA Sample.master Sample.no_sink (import_anchor_default true)) three_authorities) in
  map CA.Name (rows (w_db w' Cas)) = ["Root"; "Corp"; "Lab"; "Outside"]%string /\ rows (w_db w' AuditLog) = [] /\
  is_ok (fst (run (ImportCA Sample.master Sample.no_sink (import_anchor_default false)) w')) = false.
Proof.
  split; [| by vm_compute]. intros in_ w Hdef Hkey.
  exact (wp_returns (fun r => is_ok r = false) (ImportCA Sample.master Sample.no_sink in_) w
    (returns_anchor_default Sample.master Sample.no_sink in_ _ Hdef Hkey)).
Qed.

(** ** Two completions of one request *)

(** Two pending authorities; each is to be certified by the other, and the
    certificate of the first is submitted twice. *)
Definition two_pending : world := with_authorities [Sample.root; waiting 2 "A"; waiting 3 "B"].
Definition submit (id cert : string) : prog world (result error CA.t) :=
  CompleteSubordinate Sample.master Sample.no_sink (mkComplete id ("CERTIFICATE:" +:+ cert)%go "" false "ann").
Definition three_submissions : list (prog world (result error CA.t)) :=
  [submit "2" "5;CA;A;;B"; submit "2" "5;CA;A;;B"; submit "3" "6;CA;B;;A"].

(** The second submission has found the authority pending when the first and
    the third are served. *)
Definition overtaken : list nat := [1] ++ replicate 20 0 ++ replicate 20 2 ++ replicate 20 1.
Definition cyclic : world := Eval vm_compute in fst (schedule overtaken (two_pending, three_submissions)).

Lemma two_pending_forest : forest (w_db two_pending).
Proof.
  assert (forall c, c ∈ rows (w_db two_pending Cas) -> c = Sample.root \/ c = waiting 2 "A" \/ c = waiting 3 "B") as Hin.
  { intros c [-> | [-> | [-> | []%not_elem_of_nil]%elem_of_cons]%elem_of_cons]%elem_of_cons; auto. }
  split.
  - by vm_compute.
  - intros c [-> | [-> | ->]]%Hin; vm_compute; discriminate.
  - exists (fun _ => 0). intros c p [-> | [-> | ->]]%Hin; discriminate.
  - intros c [-> | [-> | ->]]%Hin; [discriminate | done | done].
  - intros c p [-> | [-> | ->]]%Hin; discriminate.
Qed.

(** One level of a retirement that does not come back. *)
Lemma retirement_descends fuel id w w1 c child :
  run (Store.GetCA id) w = (Ok c, w) -> run (Store.SetCAStatus id StatusDisabled) w = (Ok tt, w1) ->
  run (Store.SearchCertificates (CaLifecycle.issued_by id)) w1 = (Ok ([], 0%Z), w1) ->
  run (Store.ChildCAs id) w1 = (Ok [child], w1) ->
  fst (run (CaLifecycle.RevokeCA Sample.no_sink fuel (CA.ID child) 0 true "ann") w1) = None ->
  fst (run (CaLifecycle.RevokeCA Sample.no_sink (S fuel) id 0 true "ann") w) = None.
Proof.
  intros Hget Hset Hsearch Hch Hrec. cbn [CaLifecycle.RevokeCA]. rewrite run_bind, Hget. cbn [fst snd].
  rewrite run_bind, Hset. cbn [fst snd]. rewrite run_bind, Hsearch. cbn [fst snd]. cbn [CaLifecycle.sweep_certs bind].
  rewrite run_bind, Hch. cbn [fst snd CaLifecycle.sweep_children]. rewrite !run_bind. by rewrite Hrec.
Qed.

(** The worlds that retirement passes through: 2 disabled, then 3 too. *)
Definition one_down : world := Eval vm_compute in snd (run (Store.SetCAStatus 2 StatusDisabled) cyclic).
Definition both_down : world := Eval vm_compute in snd (run (Store.SetCAStatus 3 StatusDisabled) one_down).
Definition authority_in (w : world) (id : Z) : CA.t := nth (Z.to_nat (id - 1)) (rows (w_db w Cas)) Sample.root.

Lemma stays_down id : id = 2%Z \/ id = 3%Z -> run (Store.SetCAStatus id StatusDisabled) both_down = (Ok tt, both_down).
Proof.
  assert (forall w, fst (run (Store.SetCAStatus id StatusDisabled) both_down) = Ok tt ->
    snd (run (Store.SetCAStatus id StatusDisabled) both_down) = w ->
    run (Store.SetCAStatus id StatusDisabled) both_down = (Ok tt, w)) as Hrun by (intros w <- <-; apply surjective_pairing).
  intros Hid. apply Hrun; [by destruct Hid as [-> | ->]; vm_compute |].
  transitivity (with_db (w_db (snd (run (Store.SetCAStatus id StatusDisabled) both_down))) both_down);
    [by destruct Hid as [-> | ->]; vm_compute |].
  transitivity (with_db (w_db both_down) both_down); [f_equal | by vm_compute].
  apply functional_extensionality_dep. intros t. by destruct Hid as [-> | ->], t; vm_compute.
Qed.

Lemma both_down_never_retire fuel :
  fst (run (CaLifecycle.RevokeCA Sample.no_sink fuel 2 0 true "ann") both_down) = None /\
  fst (run (CaLifecycle.RevokeCA Sample.no_sink fuel 3 0 true "ann") both_down) = None.
Proof.
  induction fuel as [| fuel [IH2 IH3]]; [done |]. split.
  - eapply (retirement_descends fuel 2 both_down both_down (authority_in both_down 2) (authority_in both_down 3)); [by vm_compute | apply stays_down; auto | by vm_compute | by vm_compute | exact IH3].
  - eapply (retirement_descends fuel 3 both_down both_down (authority_in both_down 3) (authority_in both_down 2)); [by vm_compute | apply stays_down; auto | by vm_compute | by vm_compute | exact IH2].
Qed.

(** When the completion of a pending authority is submitted twice and the
    second submission is overtaken, all of them succeed and two authorities
    end as each other's parent; retiring one of them never comes back. *)
Theorem double_completion_makes_a_cycle :
  forest (w_db two_pending) /\
  Forall (fun p => match p with Ret (Ok _) => True | _ => False end) (snd (schedule overtaken (two_pending, three_submissions))) /\
  let w := fst (schedule overtaken (two_pending, three_submissions)) in
  map (fun c => (CA.ID c, CA.ParentID c)) (rows (w_db w Cas)) = [(1, None); (2, Some 3); (3, Some 2)]%Z /\
  forall fuel, fst (run (CaLifecycle.RevokeCA Sample.no_sink fuel 2 0 true "ann") w) = None.
Proof.
  split; [exact two_pending_forest |]. split; [vm_compute; repeat constructor |].
  change (fst (schedule overtaken (two_pending, three_submissions))) with cyclic. split; [by vm_compute |].
  intros [| [| fuel]]; [done | |].
  - eapply (retirement_descends 0 2 cyclic one_down (authority_in cyclic 2) (authority_in one_down 3)); [by vm_compute .. | done].
  - eapply (retirement_descends _ 2 cyclic one_down (authority_in cyclic 2) (authority_in one_down 3)); [by vm_compute .. |].
    eapply (retirement_descends _ 3 one_down both_down (authority_in one_down 3) (authority_in both_down 2)); [by vm_compute .. |].
    apply both_down_never_retire.
Qed.
End ImportSpec.
