(* ===== verification/RevocationFacts.v ===== *)
(** * Revocations are final

    Over any sequence of requests that change certificates or authorities,
    whatever the driver fails: a certificate revoked for a reason other than a
    hold stays as it was revoked for as long as its row is there, and the row
    goes only with its own deletion or with its authority's. *)

From S2P Require Import Prelude GoStrings Effects Models Schema SqlFacts TableFacts Store Pki Sealing CaService CaFacts IssueFacts CaLifecycle CaImport LifecycleFacts ImportFacts Sample.

Module RevocationFacts.
Import CaFacts IssueFacts LifecycleFacts CaImport.

(** ** The state a certificate was revoked in *)

Definition permanent (c : Certificate.t) : Prop :=
  Certificate.Status c = StatusRevoked /\ Certificate.RevokeCode c <> Pki.ReasonCertificateHold.

Definition as_revoked (c x : Certificate.t) : Prop :=
  Certificate.ID x = Certificate.ID c /\ Certificate.CAID x = Certificate.CAID c /\ Certificate.Status x = Certificate.Status c /\
  Certificate.RevokedAt x = Certificate.RevokedAt c /\ Certificate.RevokeCode x = Certificate.RevokeCode c.

Definition present (c : Certificate.t) (d : db) : Prop := exists x, x ∈ rows (d Certificates) /\ Certificate.ID x = Certificate.ID c.
Definition authority_gone (c : Certificate.t) (d : db) : Prop := forall a, a ∈ rows (d Cas) -> CA.ID a <> Certificate.CAID c.

(** [D]: the deletion of the certificate itself was asked for. *)
Record final (D : Prop) (c : Certificate.t) (d : db) : Prop := {
  f_ids : NoDup (map Certificate.ID (rows (d Certificates)));
  f_revoked x : x ∈ rows (d Certificates) -> Certificate.ID x = Certificate.ID c -> as_revoked c x;
  f_id : (Certificate.ID c <= seq (d Certificates))%Z;
  f_authority : (Certificate.CAID c <= seq (d Cas))%Z;
  f_there : present c d \/ D \/ authority_gone c d }.

Section finality.
Context `{Pki.Std} `{Ciphers} `{RowOrder}.
Context (cfg : CaService.Config) (master : string).
Context (sink : string -> string -> string -> string -> string -> prog world unit).
Context (Hsink : forall a b c d e, guar (on_db (keeps [Certificates; Cas])) (sink a b c d e)).

(** ** One request *)

Section one.
Context (D : Prop) (c : Certificate.t) (Hc : permanent c).

Definition kept (d d' : db) : Prop := final D c d -> final D c d'.
#[local] Instance kept_refl : Reflexive kept.
Proof. exact (fun d Hd => Hd). Qed.
#[local] Instance kept_trans : Transitive kept.
Proof. exact (fun _ _ _ H1 H2 Hd => H2 (H1 Hd)). Qed.

Lemma kept_keeps d d' : keeps [Certificates; Cas] d d' -> kept d d'.
Proof.
  intros Hk []. split; unfold present, authority_gone in *; rewrite ?(Hk Certificates), ?(Hk Cas) by set_solver; done.
Qed.

Lemma kept_update (p : Certificate.t -> bool) (f : Certificate.t -> Certificate.t) d :
  (forall x, Certificate.ID (f x) = Certificate.ID x) ->
  (forall x, x ∈ rows (d Certificates) -> as_revoked c x -> p x = true -> as_revoked c (f x)) ->
  kept d (snd (update Certificates p f d)).
Proof.
  intros Hid Hf [Hnd Hrev Hi Ha Hth]. split; unfold present, authority_gone in *; rewrite ?update_eq, ?update_ne by done; cbn [rows seq].
  - by rewrite map_update_where.
  - intros y (x & Hx & ->)%elem_of_update_where. destruct (p x) eqn:Hp; [| by apply Hrev]. rewrite Hid. intros Hxi. by apply Hf; [| apply Hrev |].
  - done.
  - done.
  - destruct Hth as [(x & Hx & Hxi) |]; [left | by right]. exists (if p x then f x else x).
    split; [apply elem_of_update_where; by exists x |]. destruct (p x); [by rewrite Hid | done].
Qed.

Lemma kept_insert (mk : Z -> row Certificates) d :
  (forall i, Certificate.ID (mk i) = i) ->
  violated (snd (insert Certificates mk d)) = None -> kept d (snd (insert Certificates mk d)).
Proof.
  intros Hmk Hv [Hnd Hrev Hi Ha Hth]. split; [by apply certificate_ids_NoDup | ..];
    unfold present, authority_gone in *; rewrite ?insert_eq, ?insert_ne by done; cbn [rows seq].
  - intros x [Hx | ->%list_elem_of_singleton]%elem_of_app; [by apply Hrev |]. rewrite Hmk. lia.
  - lia.
  - done.
  - destruct Hth as [(x & Hx & Hxi) |]; [left | by right]. exists x. split; [apply elem_of_app; by left | done].
Qed.

Lemma kept_update_authorities (p : CA.t -> bool) (f : CA.t -> CA.t) d :
  (forall x, CA.ID (f x) = CA.ID x) -> kept d (snd (update Cas p f d)).
Proof.
  intros Hid [Hnd Hrev Hi Ha Hth]. split; unfold present, authority_gone in *; rewrite ?update_eq, ?update_ne by done; cbn [rows seq]; try done.
  destruct Hth as [? | [? | Hg]]; [by left | by right; left | right; right].
  intros y (x & Hx & ->)%elem_of_update_where. destruct (p x); [rewrite Hid |]; by apply Hg.
Qed.

Lemma kept_insert_authority (mk : Z -> row Cas) d : (forall i, CA.ID (mk i) = i) -> kept d (snd (insert Cas mk d)).
Proof.
  intros Hmk [Hnd Hrev Hi Ha Hth]. split; unfold present, authority_gone in *; rewrite ?insert_eq, ?insert_ne by done; cbn [rows seq]; try done; [lia |].
  destruct Hth as [? | [? | Hg]]; [by left | by right; left | right; right].
  intros x [Hx | ->%list_elem_of_singleton]%elem_of_app; [by apply Hg |]. rewrite Hmk. lia.
Qed.

(** A deletion takes rows away, and draws no ids. *)
Lemma kept_after_delete t p d :
  (forall x, x ∈ rows (d Certificates) -> as_revoked c x ->
     present c (snd (delete t p d)) \/ D \/ authority_gone c (snd (delete t p d))) ->
  NoDup (map Certificate.ID (rows (snd (delete t p d) Certificates))) ->
  kept d (snd (delete t p d)).
Proof.
  intros Hgone Hnd' [Hnd Hrev Hi Ha Hth]. split; [done | ..].
  - intros x Hx. by apply Hrev, (delete_sub t p d).
  - unfold delete. cbn [snd]. by rewrite (proj2 (delete_cascade_sub 4 t p d Certificates)).
  - unfold delete. cbn [snd]. by rewrite (proj2 (delete_cascade_sub 4 t p d Cas)).
  - destruct Hth as [(x & Hx & Hxi) | [? | Hg]]; [by eapply Hgone, Hrev | by right; left |]. right; right. intros a Hin. by apply Hg, (delete_sub t p d).
Qed.

Lemma kept_delete_certificate id d :
  (id = Certificate.ID c -> D) -> violated (snd (delete Certificates (fun x => Certificate.ID x =? id)%Z d)) = None ->
  kept d (snd (delete Certificates (fun x => Certificate.ID x =? id)%Z d)).
Proof.
  intros Hid Hv. apply kept_after_delete; [| by apply certificate_ids_NoDup]. intros x Hx (Hxi & Hca & _).
  destruct (Z.eqb_spec (Certificate.ID x) id) as [E |]; [right; left; apply Hid; congruence |]. left. exists x. split; [| done].
  rewrite delete_leaf by (vm_compute; reflexivity). apply elem_of_delete_where. split; [done |]. by apply Z.eqb_neq.
Qed.

Lemma deleted_with_authority p d :
  rows (snd (delete Cas p d) Certificates) =
  delete_where (fun r => existsb (Z.eqb (Certificate.CAID r)) (map CA.ID (select_where p (rows (d Cas))))) (rows (d Certificates)) /\
  rows (snd (delete Cas p d) Cas) = delete_where p (rows (d Cas)).
Proof. split; reflexivity. Qed.

Lemma kept_delete_authority id d :
  violated (snd (delete Cas (fun x => CA.ID x =? id)%Z d)) = None -> kept d (snd (delete Cas (fun x => CA.ID x =? id)%Z d)).
Proof.
  intros Hv. apply kept_after_delete; [| by apply certificate_ids_NoDup]. intros x Hx (Hxi & Hca & _).
  destruct (deleted_with_authority (fun x => CA.ID x =? id)%Z d) as [Ec Ea].
  destruct (existsb (Z.eqb (Certificate.CAID x)) (map CA.ID (select_where (fun x => CA.ID x =? id)%Z (rows (d Cas))))) eqn:E.
  - right; right. apply existsb_exists in E as (i & Hi & <-%Z.eqb_eq).
    apply list_elem_of_In, list_elem_of_fmap in Hi as (a & Ha & [_ Hid%Z.eqb_eq]%elem_of_select_where).
    intros b Hb. rewrite Ea in Hb. apply elem_of_delete_where in Hb as [_ Hb%Z.eqb_neq]. congruence.
  - left. exists x. split; [| done]. rewrite Ec. by apply elem_of_delete_where.
Qed.

Ltac kept_leaf :=
  first [ apply kept_keeps; frame
        | apply kept_insert; [done | assumption]
        | apply kept_insert_authority; done
        | apply kept_update_authorities; done ].

Lemma guar_sink a b e f g : guar (on_db kept) (sink a b e f g).
Proof. eapply guar_weaken; [| apply Hsink]. intros s s'. apply kept_keeps. Qed.
#[local] Hint Resolve guar_sink : guar.

Lemma guar_RevokeCertificate id reason : guar (on_db kept) (Store.RevokeCertificate id reason).
Proof.
  guar_walk ltac:(apply kept_update); [done |]. intros x _ (_ & _ & Hst & _). destruct Hc as [Hc1 _].
  rewrite Hst, Hc1. simpl. by rewrite andb_false_r.
Qed.

Lemma guar_SetRenewedFrom id pred : guar (on_db kept) (Store.SetRenewedFrom id pred).
Proof. guar_walk ltac:(by apply kept_update). Qed.

Lemma guar_SetDefaultCA id : guar (on_db kept) (Store.SetDefaultCA id).
Proof.
  apply guar_exec; [apply _ |]. intros d _.
  transitivity (snd (update Cas (fun _ => true) (CA.set_IsDefault false) d)); by apply kept_update_authorities.
Qed.

Lemma guar_DeleteCA id : guar (on_db kept) (Store.DeleteCA id).
Proof. guar_walk ltac:(by apply kept_delete_authority). Qed.
#[local] Hint Resolve guar_RevokeCertificate guar_SetRenewedFrom guar_SetDefaultCA guar_DeleteCA : guar.

Lemma guar_bulk_listed ids targets : guar (on_db kept) (CaLifecycle.bulk_listed ids targets).
Proof. revert targets. induction ids as [| id ids IH]; intros targets; cbn [CaLifecycle.bulk_listed]; guar_walk kept_leaf. Qed.
Lemma guar_bulk_each reason targets out : guar (on_db kept) (CaLifecycle.bulk_each reason targets out).
Proof. revert out. induction targets as [| t ts IH]; intros out; cbn [CaLifecycle.bulk_each]; guar_walk kept_leaf. Qed.
Lemma guar_sweep_certs reason certs out : guar (on_db kept) (CaLifecycle.sweep_certs reason certs out).
Proof. revert out. induction certs as [| t ts IH]; intros out; cbn [CaLifecycle.sweep_certs]; guar_walk kept_leaf. Qed.
#[local] Hint Resolve guar_bulk_listed guar_bulk_each guar_sweep_certs : guar.

Lemma guar_sweep_children rec children out :
  (forall id, guar (on_db kept) (rec id)) -> guar (on_db kept) (CaLifecycle.sweep_children rec children out).
Proof.
  intros Hrec. revert out. induction children as [| t ts IH]; intros out; cbn [CaLifecycle.sweep_children]; guar_walk kept_leaf.
Qed.

Lemma guar_RevokeCA fuel id reason cascade actor :
  guar (on_db kept) (CaLifecycle.RevokeCA sink fuel id reason cascade actor).
Proof.
  revert id cascade. induction fuel as [| fuel IH]; intros id cascade; cbn [CaLifecycle.RevokeCA]; [done |].
  pose proof (guar_sweep_children (fun child => CaLifecycle.RevokeCA sink fuel child reason true actor)) as Hch.
  guar_walk kept_leaf.
Qed.

Lemma guar_Renew id in_ : guar (on_db kept) (CaLifecycle.Renew cfg master sink id in_).
Proof. guar_walk kept_leaf. Qed.
#[local] Hint Resolve guar_RevokeCA guar_Renew : guar.

Lemma guar_renew_each due in_ out errs : guar (on_db kept) (CaLifecycle.renew_each cfg master sink due in_ out errs).
Proof. revert out errs. induction due as [| t ts IH]; intros out errs; cbn [CaLifecycle.renew_each]; guar_walk kept_leaf. Qed.

Lemma guar_CreateCA c' : guar (on_db kept) (Store.CreateCA c').
Proof. unfold Store.CreateCA, Store.zero_or_now, Store.takes_default, Store.CountIssuingCAs. guar_walk kept_leaf. Qed.

Lemma guar_CompleteCA id c' : guar (on_db kept) (Store.CompleteCA id c').
Proof. guar_walk kept_leaf. Qed.
#[local] Hint Resolve guar_renew_each guar_CreateCA guar_CompleteCA : guar.

Lemma guar_name_loop n b s i : guar (on_db kept) (name_loop n b s i).
Proof. revert s i. induction n as [| n IH]; intros s i; cbn [name_loop]; guar_walk kept_leaf. Qed.
#[local] Hint Resolve guar_name_loop : guar.

Lemma guar_import_anchors actor l : guar (on_db kept) (import_anchors sink actor l).
Proof. induction l as [| a l IH]; cbn [import_anchors]; guar_walk kept_leaf. Qed.
#[local] Hint Resolve guar_import_anchors : guar.

Definition keeps_on {A} (p : prog world A) : Prop := preserves (fun w => final D c (w_db w)) p.

Lemma keeps_on_guar {A} (p : prog world A) : guar (on_db kept) p -> keeps_on p.
Proof. apply preserves_guar. Qed.

(** The one operation that two statements make safe, not each of them. *)
Lemma keeps_on_Unrevoke id : keeps_on (Store.UnrevokeCertificate id).
Proof.
  intros w Hw. unfold Store.UnrevokeCertificate. apply wp_bind_err, wp_query_row; [done | done |].
  intros fs [status code] Hsel. destruct (select1 _ _ _) as [x |] eqn:Hx; [| done]. injection Hsel as <- <-.
  destruct (negb _) eqn:Est; [done |]. destruct (negb (_ =? _)%Z) eqn:Ecode; [done |].
  apply wp_exec; [done |]. intros fs' _. cbn [w_db with_db with_faults] in *.
  apply kept_update; [done | | exact Hw]. intros y Hy (Hyid & _ & Hyst & Hyat & Hycode) Hid. exfalso.
  apply List.find_some in Hx as [Hin Hxid]. apply list_elem_of_In in Hin. apply Z.eqb_eq in Hxid, Hid.
  pose proof (f_ids _ _ _ Hw) as Hnd. assert (x = y) as -> by (eapply NoDup_map_inj; eauto; congruence).
  apply negb_false_iff, Z.eqb_eq in Ecode. destruct Hc as [_ Hc2]. apply Hc2. rewrite <- Hycode. exact Ecode.
Qed.

Lemma op_keeps o : keeps_on (op_run cfg master sink o).
Proof.
  destruct o; try solve [apply keeps_on_guar; guar_walk kept_leaf].
  apply preserves_bind; [| intros _; apply preserves_Ret]. unfold CaLifecycle.Release.
  apply preserves_bind; [apply keeps_on_guar; guar_walk kept_leaf |]. intros [x | e]; [| apply preserves_Ret].
  apply preserves_bind; [apply keeps_on_Unrevoke |]. intros [u | e]; [| apply preserves_Ret].
  apply keeps_on_guar. guar_walk kept_leaf.
Qed.

Lemma request_keeps r : keeps_on (ImportFacts.serve cfg master sink r).
Proof. destruct r; [apply op_keeps | apply keeps_on_guar; guar_walk kept_leaf..]. Qed.
End one.

(** ** Any sequence of requests *)

Inductive request :=
| Service (r : ImportFacts.request)
| DeleteCertificate (id : Z).

Definition serve (r : request) : prog world unit :=
  match r with
  | Service r => ImportFacts.serve cfg master sink r
  | DeleteCertificate id => Store.DeleteCertificate id ;;; Ret tt
  end%prog.

Fixpoint serve_all (rs : list request) (w : world) : world :=
  match rs with [] => w | r :: rs' => serve_all rs' (snd (run (serve r) w)) end.

Lemma serve_keeps (D : Prop) c r : permanent c -> (r = DeleteCertificate (Certificate.ID c) -> D) -> keeps_on D c (serve r).
Proof.
  intros Hc HD. destruct r as [r | id]; [by apply request_keeps |]. apply keeps_on_guar. pose proof (kept_refl D c) as Hrefl.
  guar_walk ltac:(apply kept_delete_certificate; [intros ->; by apply HD | assumption]).
Qed.

(** C7.  However many requests are served one after the other, whatever the
    driver fails - certificates issued, renewed, held, released, revoked one by
    one, in bulk or by retiring an authority, deleted; authorities created,
    imported, requested, completed, disabled, made the default, deleted; CRLs -
    from a consistent database: a certificate revoked for any reason but a hold
    stays revoked, since the same time, for the same reason, as long as its row
    is there, and it is there unless its own deletion was requested or its
    authority is gone. *)
Theorem revocation_is_final c rs w :
  permanent c -> c ∈ rows (w_db w Certificates) -> violated (w_db w) = None ->
  drawn Certificates (w_db w) -> drawn Cas (w_db w) ->
  let d' := w_db (serve_all rs w) in
  (forall x, x ∈ rows (d' Certificates) -> Certificate.ID x = Certificate.ID c -> as_revoked c x) /\
  (present c d' \/ DeleteCertificate (Certificate.ID c) ∈ rs \/ authority_gone c d').
Proof.
  intros Hc Hin Hv Hdc Hda. cbv zeta. enough (final (DeleteCertificate (Certificate.ID c) ∈ rs) c (w_db (serve_all rs w))) as [] by done.
  assert (final (DeleteCertificate (Certificate.ID c) ∈ rs) c (w_db w)) as Hstart.
  { split; [by apply certificate_ids_NoDup | | by apply Hdc | | by left; exists c].
    - intros x Hx Hid. rewrite (certificate_id_inj _ _ _ Hv Hx Hin Hid). by repeat split.
    - destruct (proj2 (proj1 (violated_None (w_db w)) Hv) (FKey Certificates (fun c => Some (Certificate.CAID c)) Cas true)
        ltac:(unfold fkeys; right; left) c (Certificate.CAID c) Hin eq_refl) as (a & Ha & <-). by apply Hda. }
  clear Hin Hv Hdc Hda. assert (forall r, r ∈ rs -> r = DeleteCertificate (Certificate.ID c) -> DeleteCertificate (Certificate.ID c) ∈ rs) as HD by congruence.
  revert Hstart HD. generalize (DeleteCertificate (Certificate.ID c) ∈ rs). intros D. revert w.
  induction rs as [| r rs IH]; intros w Hw HD; cbn [serve_all]; [done |]. apply IH; [| intros r' Hr'; apply HD; by right].
  exact (serve_keeps D c r Hc (HD r (list_elem_of_here _ _)) w Hw).
Qed.
End finality.

(** ** At the sample authority *)

(** A certificate revoked for key compromise. *)
Definition compromised : Certificate.t :=
  Certificate.mk 1 1 "" "0A" "a.test" "CN=a.test" [] "server" "" "CERTIFICATE:10;leaf;a.test;a.test" "" "" false ""
    0 (10 ^ 18) "revoked" (Some 500%Z) 1 "" "" 0 None.

Definition certs_op (o : op) : request := Service (ImportFacts.AboutCertificates o).
Definition sample_requests : list request :=
  [certs_op (ReleaseOp 1 "ann"); certs_op (HoldOp 1 "ann"); certs_op (RevokeOp 1 6 "ann"); certs_op (RenewOp 1 sample_renewal);
   DeleteCertificate 7; certs_op (BulkOp (CaLifecycle.mkBulk [1%Z; 2%Z] None 4 "ann")); certs_op (RetireOp 9 1 5 true "ann");
   Service (ImportFacts.StatusRequest 1 "active" "ann"); certs_op (ReleaseOp 1 "ann")]%string.
Definition at_the_end : world := serve_all Sample.cfg Sample.master Sample.no_sink sample_requests (with_certificates [compromised]).

(** Something happens meanwhile: the renewal is stored, then revoked; deleting
    the authority takes both rows away. *)
Example the_requests_do_something :
  map (fun c => (Certificate.ID c, Certificate.Status c, Certificate.RevokeCode c)) (rows (w_db at_the_end Certificates))
  = [(1%Z, StatusRevoked, 1%Z); (2%Z, StatusRevoked, 4%Z)].
Proof. vm_compute. reflexivity. Qed.

Lemma revocation_is_final_witness :
  (forall x, x ∈ rows (w_db at_the_end Certificates) -> Certificate.ID x = 1%Z -> as_revoked compromised x) /\
  (present compromised (w_db at_the_end) \/ DeleteCertificate 1 ∈ sample_requests \/ authority_gone compromised (w_db at_the_end)).
Proof.
  refine (revocation_is_final Sample.cfg Sample.master Sample.no_sink (fun _ _ _ _ _ => Logic.I) compromised sample_requests
    (with_certificates [compromised]) _ _ _ _ _).
  - split; [reflexivity | discriminate].
  - left.
  - vm_compute. reflexivity.
  - intros x Hx. change (x ∈ [compromised]) in Hx. apply list_elem_of_singleton in Hx as ->. done.
  - intros x Hx. change (x ∈ [Sample.root]) in Hx. apply list_elem_of_singleton in Hx as ->. done.
Defined.
End RevocationFacts.
