(* ===== verification/EabFacts.v ===== *)
(** * External account bindings

    A credential registers no more accounts than its cap allows, whatever
    registrations race for its last slot; the account count it keeps never
    passes the cap; and the one way the count and the accounts part. *)

From S2P Require Import Prelude GoStrings Effects Models Schema SqlFacts Store AcmeStore Pki Sealing CaService CaFacts AcmePolicy AcmeService AcmeProtocol Sample.

Module EabFacts.
Import CaFacts.

Section cap.
(** One credential: its row id and its key id. *)
Context (k : Z) (kid : string).

Definition is_cred (e : EABCred.t) : bool := AcmeStore.eab_id k e.
Definition row_slots (e : EABCred.t) : nat :=
  if is_cred e then Z.to_nat (EABCred.MaxAccounts e - EABCred.AccountCount e) else 0.

(** The free slots of the credential. *)
Definition slots (d : db) : nat := sum_list_with row_slots (rows (d AcmeEabCreds)).

Definition capped (d : db) : Prop :=
  forall e, e ∈ rows (d AcmeEabCreds) -> (EABCred.ID e = k <-> EABCred.KeyID e = kid) /\
    (EABCred.ID e = k -> (0 < EABCred.MaxAccounts e)%Z).

Lemma sum_update (p : EABCred.t -> bool) (f : EABCred.t -> EABCred.t) l :
  (forall e, e ∈ l -> p e = true -> S (row_slots (f e)) = row_slots e) ->
  sum_list_with row_slots (update_where p f l) + affected p l = sum_list_with row_slots l.
Proof.
  unfold affected. induction l as [| e l IH]; intros Hf; simpl; [done |].
  assert (forall e, e ∈ l -> p e = true -> S (row_slots (f e)) = row_slots e) as Hl
    by (intros x Hx; apply Hf; by right).
  specialize (IH Hl). destruct (p e) eqn:Hp; simpl; [| lia].
  specialize (Hf e (list_elem_of_here _ _) Hp). lia.
Qed.

Lemma sum_update_le (p : EABCred.t -> bool) (f : EABCred.t -> EABCred.t) l :
  (forall e, e ∈ l -> p e = true -> row_slots (f e) <= S (row_slots e)) ->
  sum_list_with row_slots (update_where p f l) <= sum_list_with row_slots l + affected p l.
Proof.
  unfold affected. induction l as [| e l IH]; intros Hf; simpl; [done |].
  assert (forall e, e ∈ l -> p e = true -> row_slots (f e) <= S (row_slots e)) as Hl
    by (intros x Hx; apply Hf; by right).
  specialize (IH Hl). destruct (p e) eqn:Hp; simpl; [| lia].
  specialize (Hf e (list_elem_of_here _ _) Hp). lia.
Qed.

Lemma sum_update_other (p : EABCred.t -> bool) (f : EABCred.t -> EABCred.t) l :
  (forall e, p e = true -> row_slots (f e) = 0) ->
  sum_list_with row_slots (update_where p f l) <= sum_list_with row_slots l.
Proof.
  intros Hf. induction l as [| e l IH]; simpl; [done |]. apply Nat.add_le_mono; [| exact IH].
  destruct (p e) eqn:Hp; [rewrite (Hf e Hp); lia | done].
Qed.

(** Rows of another credential count for nothing. *)
Lemma row_slots_other e : EABCred.ID e <> k -> row_slots e = 0.
Proof. unfold row_slots, is_cred, AcmeStore.eab_id. by destruct (Z.eqb_spec (EABCred.ID e) k). Qed.

Lemma row_slots_own e : EABCred.ID e = k -> row_slots e = Z.to_nat (EABCred.MaxAccounts e - EABCred.AccountCount e).
Proof. unfold row_slots, is_cred, AcmeStore.eab_id. intros ->. by rewrite Z.eqb_refl. Qed.

(** A statement that touches neither the ids, the key ids nor the caps. *)
Definition mild (f : EABCred.t -> EABCred.t) : Prop :=
  forall e, EABCred.ID (f e) = EABCred.ID e /\ EABCred.KeyID (f e) = EABCred.KeyID e /\
    EABCred.MaxAccounts (f e) = EABCred.MaxAccounts e.

Lemma capped_update p f d : mild f -> capped d -> capped (snd (update AcmeEabCreds p f d)).
Proof.
  intros Hf Hd e. rewrite update_eq. cbn [rows]. intros (x & Hx & ->)%elem_of_update_where.
  destruct (p x); [| by apply Hd]. destruct (Hf x) as (-> & -> & ->). by apply Hd.
Qed.

Definition steady (d d' : db) : Prop := capped d -> capped d' /\ slots d' <= slots d.

#[export] Instance steady_refl : Reflexive steady.
Proof. by intros d Hd. Qed.

Lemma steady_keeps d d' : keeps [AcmeEabCreds] d d' -> steady d d'.
Proof.
  intros Hk Hd. unfold slots, capped in *. by rewrite !Hk by set_solver.
Qed.

Ltac steady_leaf := apply steady_keeps; frame.

Notation spent wt e p := (spends (on_world capped) (on_world slots) wt e p).

Lemma spends_steady {A} (wt : A -> nat) e (p : prog world A) :
  guar (on_db steady) p -> (forall a, wt a <= e) -> spent wt e p.
Proof. intros Hp Hwt. apply spends_neutral; [exact Hp | exact Hwt]. Qed.

Lemma spends_steady_bind {A B} (wt : B -> nat) e (p : prog world A) (q : A -> prog world B) :
  guar (on_db steady) p -> (forall a, spent wt e (q a)) -> spent wt e (bind p q).
Proof. intros Hp Hq. eapply spends_bind; [by apply (spends_steady (fun _ => e)) | exact Hq]. Qed.

Definition own (id : Z) : nat := Nat.b2n (id =? k)%Z.

(** Reserving a slot of the credential takes one. *)
Lemma spends_Reserve id :
  spent (fun r => match r with Ok true => own id | _ => 0 end) 0 (AcmeStore.ReserveEABAccountSlot id).
Proof.
  unfold AcmeStore.ReserveEABAccountSlot. apply spends_now. intros now.
  apply spends_sql; [simpl; lia |]. intros d Hd _.
  set (p := fun e => AcmeStore.eab_id id e && AcmeStore.has_slot e).
  set (f := fun e => EABCred.set_LastUsedAt (Some now) (EABCred.set_AccountCount (EABCred.AccountCount e + 1) e)).
  split; [by apply (capped_update p f) |]. unfold slots. rewrite update_eq, update_count. cbn [rows].
  assert (forall n, (match (Ok (Nat.eqb n 1) : result error bool) with Ok true => own id | _ => 0 end) <= own id * n) as Hworth.
  { intros n. destruct (Nat.eqb_spec n 1) as [-> |]; lia. }
  exists (own id * affected p (rows (d AcmeEabCreds))). split; [| apply Hworth].
  rewrite Nat.add_0_r. unfold own. destruct (Z.eqb_spec id k) as [-> | Hne].
  - rewrite Nat.mul_1_l. apply Nat.eq_le_incl, sum_update. intros e He [Hid Hslot]%andb_true_iff.
    unfold AcmeStore.eab_id in Hid. apply Z.eqb_eq in Hid. destruct (Hd e He) as [_ Hcap]. specialize (Hcap Hid).
    rewrite !row_slots_own by done. unfold AcmeStore.has_slot in Hslot. simpl. lia.
  - rewrite Nat.mul_0_l, Nat.add_0_r. apply sum_update_other. intros e [Hid _]%andb_true_iff.
    unfold AcmeStore.eab_id in Hid. apply Z.eqb_eq in Hid. apply row_slots_other. simpl. congruence.
Qed.

Lemma row_slots_release e :
  row_slots (EABCred.set_AccountCount (EABCred.AccountCount e - 1) e) <= S (row_slots e).
Proof. unfold row_slots, is_cred, AcmeStore.eab_id. simpl. destruct (_ =? k)%Z; lia. Qed.

(** Releasing one gives it back. *)
Lemma spends_Release id : spent (fun _ => 0) (own id) (AcmeStore.ReleaseEABAccountSlot id).
Proof.
  unfold AcmeStore.ReleaseEABAccountSlot.
  set (p := fun e => AcmeStore.eab_id id e && (0 <? EABCred.AccountCount e)%Z).
  set (f := fun e => EABCred.set_AccountCount (EABCred.AccountCount e - 1) e).
  apply spends_sql; [simpl; lia |]. intros d Hd Hv. split; [by apply (capped_update p f) |].
  exists 0. split; [| simpl; lia]. rewrite Nat.add_0_r.
  assert (affected p (rows (d AcmeEabCreds)) <= 1) as Hone.
  { apply (violated_clashes _ AcmeEabCreds) in Hv. rewrite update_eq in Hv. cbn [rows] in Hv.
    apply (clashes_count _ (AcmeStore.eab_id id)) in Hv.
    - etrans; [| exact Hv]. apply affected_after_update. intros e [Hid _]%andb_true_iff. by split.
    - intros x y Hx Hy. unfold AcmeStore.eab_id in *. apply Z.eqb_eq in Hx, Hy. simpl.
      by rewrite Hx, Hy, Z.eqb_refl. }
  unfold slots. rewrite update_eq. cbn [rows]. unfold own. destruct (Z.eqb_spec id k) as [-> | Hne].
  - etrans; [apply sum_update_le | simpl; apply Nat.add_le_mono_l; exact Hone].
    intros e _ _. apply row_slots_release.
  - simpl. rewrite Nat.add_0_r. apply sum_update_other. intros e [Hid _]%andb_true_iff.
    unfold AcmeStore.eab_id in Hid. apply Z.eqb_eq in Hid. apply row_slots_other. simpl. congruence.
Qed.

Context `{AcmeService.Wire} `{Ciphers} `{RowOrder}.
Context (cfg : CaService.Config) (master : string).
Context (sink : string -> string -> string -> string -> string -> prog world unit).
Context (Hsink : forall a b c d e, guar (on_db (keeps [AcmeEabCreds])) (sink a b c d e)).

Lemma steady_sink a b c d e : guar (on_db steady) (sink a b c d e).
Proof. eapply guar_weaken; [| apply Hsink]. intros s s'. apply steady_keeps. Qed.
#[local] Hint Resolve steady_sink : guar.

Lemma steady_create_authzs orderID now l : guar (on_db steady) (AcmeService.create_authzs orderID now l).
Proof. induction l as [| i l IH]; cbn [AcmeService.create_authzs]; guar_walk steady_leaf. Qed.
#[local] Hint Resolve steady_create_authzs : guar.

Lemma steady_serve rt r :
  rt <> AcmeProtocol.PostNewAccount -> guar (on_db steady) (AcmeProtocol.serve cfg master sink rt r).
Proof. intros Hrt. destruct rt; try done; clear Hrt; guar_walk steady_leaf. Qed.

(** The credential a binding verified against carries the key id it names. *)
Lemma returns_VerifyEAB eab url jwk :
  returns (on_world capped) (fun r => match snd r with
     | Ok cred => own (EABCred.ID cred) = Nat.b2n (str_is (fst (AcmeService.eab_header eab url)) kid)
     | Err _ => True end) (AcmeService.VerifyEAB master eab url jwk).
Proof.
  unfold AcmeService.VerifyEAB. destruct (AcmeService.eab_header eab url) as [keyID [obj | e]]; [| done].
  cbv zeta. cbn [fst].
  eapply returns_bind with (Q := fun r => match r with Ok c => own (EABCred.ID c) = Nat.b2n (str_is keyID kid) | _ => True end).
  - apply returns_query_row; [done |]. intros w e Hw He. apply List.find_some in He as [Hin He].
    apply list_elem_of_In in Hin. apply str_is_eq in He. destruct (Hw e Hin) as [Hiff _]. unfold own.
    destruct (Z.eqb_spec (EABCred.ID e) k) as [Hid | Hid].
    + apply Hiff in Hid. rewrite <- He, Hid. by rewrite str_is_refl.
    + destruct (str_is keyID kid) eqn:E; [| done]. apply str_is_eq in E. exfalso. apply Hid, Hiff. congruence.
  - intros [c | e]; [| done]. intros Hown. cbn. destruct (CaService.box_Decrypt master _); [| done].
    by destruct (AcmeService.eab_binds _ _ _).
Qed.

Definition created {A} (r : result Problem.t (A * bool)) : bool := match r with Ok (_, true) => true | _ => false end.

Lemma spends_register url jwk thumb req :
  spent (fun r => Nat.b2n (created r && str_is (fst (AcmeService.eab_header (AcmeService.ExternalAccountBinding req) url)) kid)) 0
    (AcmeService.register cfg master sink url jwk thumb req).
Proof.
  unfold AcmeService.register.
  eapply spends_bind_returns with (wt1 := fun _ => 0);
    [apply (spends_steady (fun _ => 0)); [guar_walk steady_leaf | done] | apply returns_VerifyEAB |].
  intros [keyID [cred | e]] Hown; [| apply spends_steady_bind; [guar_walk steady_leaf | intros _; simpl; lia]].
  cbn [snd] in Hown. apply spends_now. intros now.
  destruct (negb (EABCred_Usable now cred)); [apply spends_steady_bind; [guar_walk steady_leaf | intros _; simpl; lia] |].
  eapply spends_bind with (wt1 := fun r => match r with Ok true => own (EABCred.ID cred) | _ => 0 end).
  { eapply spends_bind; [apply spends_Reserve |]. by intros [[|] | e]; simpl. }
  intros [[|] | e]; cbn [negb]; [| apply spends_steady_bind; [guar_walk steady_leaf | intros _; simpl; lia] | simpl; lia].
  destruct (AcmeService.jwk_marshal jwk) as [json | e].
  2: { eapply spends_bind; [apply spends_Release |]. intros ?. simpl. lia. }
  apply spends_now. intros t. apply spends_steady_bind; [guar_walk steady_leaf |]. intros [account | e].
  - apply spends_steady_bind; [guar_walk steady_leaf |]. intros _. cbn [spends created]. by rewrite Hown.
  - eapply spends_bind; [apply spends_Release |]. intros ?. simpl. lia.
Qed.

(** The key id of the binding a registration carries. *)
Definition binds (body : string) : bool :=
  match AcmeService.ParseJWS body with
  | Ok p => match AcmeService.new_account_request p with
            | Ok (_, _, req) =>
                str_is (fst (AcmeService.eab_header (AcmeService.ExternalAccountBinding req) (AcmeService.pj_URL p))) kid
            | Err _ => false
            end
  | Err _ => false
  end.

Lemma spends_NewAccount body :
  spent (fun r => Nat.b2n (created r && binds body)) 0 (AcmeService.NewAccount cfg master sink body).
Proof.
  unfold AcmeService.NewAccount, binds. cbn [bind].
  destruct (AcmeService.ParseJWS body) as [p | e]; [| simpl; lia]. cbn [AcmeService.malformed_of].
  destruct (AcmeService.checkURL _ _); [| simpl; lia].
  apply spends_steady_bind; [guar_walk steady_leaf |]. intros [_ | e]; [| simpl; lia].
  destruct (AcmeService.new_account_request p) as [[[jwk thumb] req] | e]; [| simpl; lia].
  apply spends_steady_bind; [guar_walk steady_leaf |]. intros [acc | err].
  - destruct (negb _); [simpl; lia |]. apply spends_steady_bind; [guar_walk steady_leaf |]. intros _. simpl. lia.
  - destruct (negb _); [simpl; lia |]. destruct (AcmeService.OnlyReturnExisting req); [simpl; lia |].
    destruct (Policy.validContacts _); [simpl; lia |]. apply spends_register.
Qed.

(** ** Requests that compete for a credential *)

(** A registration, or any other ACME request; what is observed of it is
    whether it was answered with a new account bound to the credential. *)
Inductive contender :=
| Register (body : string)
| Other (rt : AcmeProtocol.route) (r : AcmeProtocol.HttpRequest) (Hrt : rt <> AcmeProtocol.PostNewAccount).

Definition compete (c : contender) : prog world bool :=
  match c with
  | Register body => r <- AcmeService.NewAccount cfg master sink body ;; Ret (created r && binds body)
  | Other rt r _ => _ <- AcmeProtocol.serve cfg master sink rt r ;; Ret false
  end%prog.

Lemma spends_compete c : spent Nat.b2n 0 (compete c).
Proof.
  destruct c as [body | rt r Hrt]; simpl.
  - eapply spends_bind; [apply spends_NewAccount |]. intros r. apply le_n.
  - apply spends_steady_bind; [by apply steady_serve |]. intros _. simpl. lia.
Qed.

(** C3.  Of all the registrations under one capped credential that are served
    at the same time, on any number of replicas, among any other ACME
    requests, no more are answered with a new account than the credential had
    free slots. *)
Theorem accounts_within_the_cap w w' cs ps :
  capped (w_db w) -> rtc pstep (w, map compete cs) (w', ps) ->
  total (map (worth Nat.b2n) ps) + slots (w_db w') <= slots (w_db w).
Proof.
  intros Hcap Hsteps.
  assert (Forall2 (fun e p => spent Nat.b2n e p) (replicate (length cs) 0) (map compete cs)) as Hpool.
  { rewrite <- (List.length_map compete cs). apply Forall2_replicate_spends, Forall_map, Forall_true. exact spends_compete. }
  destruct (spends_pool (on_world capped) (on_world slots) _ (slots (w_db w)) w w' _ ps _ Hcap Hpool) as [_ Hle];
    [| exact Hsteps |].
  { by rewrite total_replicate_0, Nat.add_0_r. }
  unfold on_world in Hle. lia.
Qed.
End cap.

(** ** The sample credential: two accounts at most, one registered *)

Definition registration (key : string) : string :=
  ("|" +:+ key +:+ "|https://ca/acme/new-account|kid1;;https://ca/acme/new-account;" +:+ key)%go.

Definition sample_race : world * list (prog world bool) :=
  schedule (List.concat (replicate 30 [0; 1]))
    (Sample.start, map (compete "kid1" Sample.cfg Sample.master Sample.no_sink)
                     [Register (registration "n1"); Register (registration "n2")]).

Lemma accounts_within_the_cap_witness :
  slots 1 (w_db Sample.start) = 1 /\ total (map (worth Nat.b2n) (snd sample_race)) = 1 /\
  total (map (worth Nat.b2n) (snd sample_race)) + slots 1 (w_db (fst sample_race)) <= slots 1 (w_db Sample.start).
Proof.
  split; [vm_compute; reflexivity |]. split; [vm_compute; reflexivity |].
  refine (accounts_within_the_cap 1 "kid1" Sample.cfg Sample.master Sample.no_sink _ Sample.start _
    [Register (registration "n1"); Register (registration "n2")] (snd sample_race) _ _).
  - intros a b c d e. exact Logic.I.
  - intros e He. change (e ∈ [Sample.cred]) in He. apply list_elem_of_singleton in He as ->. by vm_compute.
  - unfold sample_race. rewrite <- surjective_pairing. apply schedule_rtc.
Defined.

Definition accounts_of (id : Z) (w : world) : nat :=
  affected (fun a : AcmeAccount.t => (AcmeAccount.EABID a =? id)%Z) (rows (w_db w AcmeAccounts)).

(** The driver fails the sixth statement: the SELECT that reads the new account
    back. *)
Definition flaky : world := with_faults (replicate 5 None ++ [Some "connection reset"%string]) Sample.start.

(** A registration whose account row is stored but cannot be read back is
    answered with an error and gives its slot back; the account stays.  The
    credential then registers a further account, and three are bound to one
    that allows two. *)
Theorem failed_read_back_exceeds_the_cap :
  let first := run (AcmeService.NewAccount Sample.cfg Sample.master Sample.no_sink (registration "n1")) flaky in
  let second := run (AcmeService.NewAccount Sample.cfg Sample.master Sample.no_sink (registration "n2")) (snd first) in
  EABCred.MaxAccounts Sample.cred = 2%Z /\ accounts_of 1 flaky = 1 /\
  created (fst first) = false /\ created (fst second) = true /\ accounts_of 1 (snd second) = 3.
Proof. vm_compute. by repeat split. Qed.
End EabFacts.
