(* ===== verification/AdminFacts.v ===== *)
(** * What the administration of ACME is for

    An account that has been deactivated, or whose credential is disabled, gets
    no further certificate, however its requests interleave with everything
    else; what a created credential holds; and a reference that resolves to
    another credential than the one it names. *)

From S2P Require Import Prelude GoStrings Effects Models Schema SqlFacts TableFacts Store AcmeStore Pki Sealing CaService CaFacts K8s AcmePolicy AcmeService AcmeProtocol AcmeAdmin Sample IssueFacts AcmeFacts.

Module AdminFacts.
Import CaFacts IssueFacts AcmeFacts EabAdmin.

(** ** Cut off *)

Section cut_off.
(** The account, the credential that is disabled if that is the reason, and the
    orders the account had placed. *)
Context (id : Z) (eab : option Z) (ks : list Z).

Definition barred (a : AcmeAccount.t) : Prop :=
  AcmeAccount.Status a <> AcmeStatusValid \/ eab = Some (AcmeAccount.EABID a).

Definition is_off (k : Z) (d : db) : Prop :=
  (k <= seq (d AcmeEabCreds))%Z /\
  forall c, c ∈ rows (d AcmeEabCreds) -> EABCred.ID c = k -> EABCred.Disabled c = true.

Definition placed (o : AcmeOrder.t) : Prop := AcmeOrder.ID o ∈ ks <-> AcmeOrder.AccountID o = id.

Record cut_off (d : db) : Prop := {
  off_id : (id <= seq (d AcmeAccounts))%Z;
  off_account : forall a, a ∈ rows (d AcmeAccounts) -> AcmeAccount.ID a = id -> barred a;
  off_credential : forall k, eab = Some k -> is_off k d;
  off_handed_out : Forall (fun k => k <= seq (d AcmeOrders))%Z ks;
  off_placed : forall o, o ∈ rows (d AcmeOrders) -> placed o }.

(** An order keeps its certificate, or its lack of one; it may be found
    invalid. *)
Definition no_better (o o' : AcmeOrder.t) : Prop :=
  AcmeOrder.ID o' = AcmeOrder.ID o /\ AcmeOrder.AccountID o' = AcmeOrder.AccountID o /\
  AcmeOrder.CertificateID o' = AcmeOrder.CertificateID o /\
  (AcmeOrder.Status o' = AcmeOrder.Status o \/ AcmeOrder.Status o' = AcmeStatusInvalid).

Definition gets_nothing (d d' : db) : Prop :=
  forall o', o' ∈ rows (d' AcmeOrders) -> AcmeOrder.AccountID o' = id ->
    exists o, o ∈ rows (d AcmeOrders) /\ no_better o o'.

Definition off_step (d d' : db) : Prop := cut_off d -> cut_off d' /\ gets_nothing d d'.

Lemma no_better_refl o : no_better o o.
Proof. repeat split. by left. Qed.

#[local] Instance gets_nothing_refl : Reflexive gets_nothing.
Proof. intros d o Ho _. exists o. split; [done | apply no_better_refl]. Qed.
#[local] Instance gets_nothing_trans : Transitive gets_nothing.
Proof.
  intros d1 d2 d3 H12 H23 o3 Ho3 Hid. destruct (H23 o3 Ho3 Hid) as (o2 & Ho2 & Hi2 & Ha2 & Hc2 & Hs2).
  destruct (H12 o2 Ho2) as (o1 & Ho1 & Hi1 & Ha1 & Hc1 & Hs1); [congruence |].
  exists o1. split; [done |]. repeat split; [congruence .. |]. destruct Hs2 as [-> | ->]; [done | by right].
Qed.
#[local] Instance off_step_refl : Reflexive off_step.
Proof. by intros d Hd. Qed.

(** *** What statements do to it *)

Lemma off_keeps d d' : keeps [AcmeOrders; AcmeAccounts; AcmeEabCreds] d d' -> off_step d d'.
Proof.
  intros Hk [H1 H2 H3 H4 H5]. unfold gets_nothing. rewrite !(Hk AcmeOrders) by set_solver. split; [| apply gets_nothing_refl].
  split; unfold is_off in *; try rewrite (Hk AcmeAccounts) by set_solver; try rewrite (Hk AcmeOrders) by set_solver; try done.
  intros k Hek. rewrite (Hk AcmeEabCreds) by set_solver. by apply H3.
Qed.

Lemma off_accounts p f d :
  (forall a, AcmeAccount.ID (f a) = AcmeAccount.ID a /\ AcmeAccount.EABID (f a) = AcmeAccount.EABID a /\
             (AcmeAccount.Status (f a) = AcmeAccount.Status a \/ AcmeAccount.Status (f a) <> AcmeStatusValid)) ->
  off_step d (snd (update AcmeAccounts p f d)).
Proof.
  intros Hf [H1 H2 H3 H4 H5]. unfold gets_nothing. rewrite update_ne by done. split; [| apply gets_nothing_refl].
  split; unfold is_off in *; rewrite ?update_eq, ?update_ne by done; try done. cbn [rows].
  intros a' (a & Ha & ->)%elem_of_update_where. specialize (Hf a). specialize (H2 a Ha).
  destruct (p a); [| exact H2]. destruct Hf as (Hi & He & Hs). intros Hid. destruct H2 as [H2 | H2]; [congruence | left | right; congruence].
  destruct Hs; congruence.
Qed.

Lemma off_new_account a d : off_step d (snd (insert AcmeAccounts (AcmeStore.account_row a) d)).
Proof.
  intros [H1 H2 H3 H4 H5]. unfold gets_nothing. rewrite insert_ne by done. split; [| apply gets_nothing_refl].
  split; unfold is_off in *; rewrite ?insert_eq, ?insert_ne by done; cbn [rows seq]; try done; [simpl in *; lia |].
  intros x [Hx | ->%list_elem_of_singleton]%elem_of_app; [auto |]. intros. exfalso. simpl in *. lia.
Qed.

Lemma off_credentials p f d :
  (forall c, EABCred.ID (f c) = EABCred.ID c /\
     (p c = true -> eab = Some (EABCred.ID c) -> EABCred.Disabled c = true -> EABCred.Disabled (f c) = true)) ->
  off_step d (snd (update AcmeEabCreds p f d)).
Proof.
  intros Hf [H1 H2 H3 H4 H5]. unfold gets_nothing. rewrite update_ne by done. split; [| apply gets_nothing_refl].
  split; unfold is_off in *; rewrite ?update_eq, ?update_ne by done; try done. cbn [rows seq].
  intros k Hk. destruct (H3 k Hk) as [Hs Hd]. split; [done |].
  intros c' (c & Hc & ->)%elem_of_update_where. destruct (Hf c) as [Hi Hdis]. specialize (Hd c Hc).
  destruct (p c); [| exact Hd]. rewrite Hi. intros Hck. apply Hdis; [done | congruence | by apply Hd].
Qed.

Lemma off_new_credential c d : off_step d (snd (insert AcmeEabCreds (AcmeStore.eab_row c) d)).
Proof.
  intros [H1 H2 H3 H4 H5]. unfold gets_nothing. rewrite insert_ne by done. split; [| apply gets_nothing_refl].
  split; unfold is_off in *; rewrite ?insert_eq, ?insert_ne by done; cbn [rows seq]; try done.
  intros k Hk. destruct (H3 k Hk) as [Hs Hd]. split; [simpl in *; lia |].
  intros x [Hx | ->%list_elem_of_singleton]%elem_of_app; [auto |]. intros. exfalso. simpl in *. lia.
Qed.

Lemma off_delete_credential p d : off_step d (snd (delete AcmeEabCreds p d)).
Proof.
  intros [H1 H2 H3 H4 H5]. unfold gets_nothing. rewrite delete_ne by reflexivity. split; [| apply gets_nothing_refl].
  split; unfold is_off in *; rewrite ?(delete_ne AcmeEabCreds AcmeAccounts), ?(delete_ne AcmeEabCreds AcmeOrders) by reflexivity; try done.
  intros k Hk. destruct (H3 k Hk) as [Hs Hd]. rewrite delete_leaf by reflexivity. cbn [rows seq]. split; [done |].
  intros c [Hc _]%elem_of_delete_where. by apply Hd.
Qed.

Lemma off_orders p f d :
  (forall o, AcmeOrder.ID (f o) = AcmeOrder.ID o /\ AcmeOrder.AccountID (f o) = AcmeOrder.AccountID o /\
             (p o = true -> AcmeOrder.ID o ∈ ks -> no_better o (f o))) ->
  off_step d (snd (update AcmeOrders p f d)).
Proof.
  intros Hf [H1 H2 H3 H4 H5]. split.
  - split; unfold is_off in *; rewrite ?update_eq, ?update_ne by done; try done. cbn [rows].
    intros o' (o & Ho & ->)%elem_of_update_where. destruct (Hf o) as (Hi & Ha & _). destruct (p o); [| by apply H5].
    unfold placed. rewrite Hi, Ha. by apply H5.
  - intros o'. rewrite update_eq. cbn [rows]. intros (o & Ho & ->)%elem_of_update_where.
    destruct (Hf o) as (Hi & Ha & Hn). destruct (p o) eqn:Hp; [| intros _; exists o; split; [done | apply no_better_refl]].
    intros Hid. exists o. split; [done |]. apply Hn; [done |]. apply H5; [done | congruence].
Qed.

Lemma off_new_order o d : AcmeOrder.AccountID o <> id -> off_step d (snd (insert AcmeOrders (AcmeStore.order_row o) d)).
Proof.
  intros Hne [H1 H2 H3 H4 H5]. split.
  - split; unfold is_off in *; rewrite ?insert_eq, ?insert_ne by done; cbn [rows seq]; try done.
    + eapply Forall_impl; [exact H4 | simpl; lia].
    + intros x [Hx | ->%list_elem_of_singleton]%elem_of_app; [auto |]. split; [| done]. simpl.
      intros Hin. rewrite Forall_forall in H4. specialize (H4 _ Hin). simpl in H4. lia.
  - intros x. rewrite insert_eq. cbn [rows]. intros [Hx | ->%list_elem_of_singleton]%elem_of_app; [| done].
    intros _. exists x. split; [done | apply no_better_refl].
Qed.

Ltac off_leaf :=
  first [ apply off_keeps; frame
        | apply off_accounts; intros; by repeat split; (left; done) || (right; done)
        | apply off_new_account
        | apply off_new_credential
        | apply off_delete_credential
        | apply off_credentials; intros; by repeat split
        | apply off_orders; intros; repeat split; by right
        | apply off_new_order; assumption ].

Context `{AcmeService.Wire} `{Ciphers} `{RowOrder}.
Context (cfg : CaService.Config) (master : string).
Context (sink : string -> string -> string -> string -> string -> prog world unit).
Context (Hsink : forall a b c d e, guar (on_db (keeps [AcmeOrders; AcmeAccounts; AcmeEabCreds])) (sink a b c d e)).

Lemma off_sink a b c d e : guar (on_db off_step) (sink a b c d e).
Proof. eapply guar_weaken; [| apply Hsink]. intros s s'. apply off_keeps. Qed.
#[local] Hint Resolve off_sink : guar.

Lemma off_create_authzs orderID now l : guar (on_db off_step) (AcmeService.create_authzs orderID now l).
Proof. induction l as [| i l IH]; cbn [AcmeService.create_authzs]; guar_walk off_leaf. Qed.
#[local] Hint Resolve off_create_authzs : guar.

Lemma off_serve rt r :
  rt <> AcmeProtocol.PostFinalize -> rt <> AcmeProtocol.PostNewOrder ->
  guar (on_db off_step) (AcmeProtocol.serve cfg master sink rt r).
Proof. intros Hf Hn. destruct rt; try done; clear Hf Hn; guar_walk off_leaf. Qed.

(** *** What a request has learnt when it goes on *)

Abbreviation I := (on_world cut_off).

Definition free (a : AcmeAccount.t) : Prop := AcmeAccount.ID a <> id \/ eab = Some (AcmeAccount.EABID a).

Lemma returns_account_off k :
  returns I (fun r => match r with Ok a => AcmeAccount.Status a = AcmeStatusValid -> free a | Err _ => True end)
    (AcmeStore.GetAcmeAccount k).
Proof.
  apply returns_query_row; [done |]. intros w a Hw Ha. destruct (select1 _ _ _) as [a0 |] eqn:Hs; [| done].
  injection Ha as <-. apply List.find_some in Hs as [Hin _]. apply list_elem_of_In in Hin.
  destruct (Z.eq_dec (AcmeAccount.ID a0) id) as [E | Hne]; [| by left].
  intros Hst. right. by destruct (off_account _ Hw a0 Hin E).
Qed.

Lemma returns_resolve_off kid :
  returns I (fun r => match r with Ok a => free a | Err _ => True end) (AcmeService.ResolveAccount kid).
Proof.
  unfold AcmeService.ResolveAccount. destruct (AcmeService.account_id kid) as [k |]; [| done].
  eapply returns_bind; [apply returns_account_off |]. intros [a | e]; [| done]. intros Ha. simpl.
  destruct (str_is _ _) eqn:Hst; [| done]. by apply Ha, str_is_eq.
Qed.

Lemma returns_authenticate_off body url :
  returns I (fun r => match r with Ok (_, a) => free a | Err _ => True end) (AcmeService.authenticate body url).
Proof.
  unfold AcmeService.authenticate. cbn [bind]. destruct (AcmeService.malformed_of _) as [p |]; [| done]. cbn [bind].
  destruct (AcmeService.checkURL _ _) as [u0 |]; [| done]. apply returns_skip. intros [u |]; [| done].
  destruct (str_is _ ""); [done |]. eapply returns_bind_err; [apply returns_resolve_off | done |].
  intros a Ha. destruct (AcmeService.jwk_unmarshal _) as [jwk |]; [| done]. cbn [bind].
  destruct (AcmeService.malformed_of _) as [payload |]; [| done]. apply returns_skip. by intros _.
Qed.

Lemma returns_activeCred_off a :
  free a -> returns I (fun r => match r with Ok _ => AcmeAccount.ID a <> id | Err _ => True end) (AcmeService.activeCred sink a).
Proof.
  intros Ha. unfold AcmeService.activeCred.
  eapply returns_bind_err with (Q := fun c => EABCred.Disabled c = false -> AcmeAccount.ID a <> id); [| done |].
  - eapply returns_bind with (Q := fun r => match r with Ok c => EABCred.Disabled c = false -> AcmeAccount.ID a <> id | _ => True end).
    + apply returns_query_row; [done |]. intros w c Hw Hc Hd. apply List.find_some in Hc as [Hin Hc].
      apply Z.eqb_eq in Hc. apply list_elem_of_In in Hin. destruct Ha as [? | He]; [done |].
      destruct (off_credential _ Hw _ He) as [_ Hoff]. specialize (Hoff c Hin Hc). congruence.
    + by intros [c | e].
  - intros c Hc. destruct (EABCred.Disabled c); [by apply returns_skip | by apply Hc].
Qed.

Lemma returns_finalize_checks_off k body :
  returns I (fun r => match r with Ok (order, _, _, _) => AcmeOrder.ID order ∉ ks | Err _ => True end)
    (AcmeService.finalize_checks cfg sink k body).
Proof.
  unfold AcmeService.finalize_checks. eapply returns_bind_err; [apply returns_authenticate_off | done |].
  intros [payload a] Ha. eapply returns_bind_err; [apply (returns_own_order I placed) | done |].
  { intros w o Hw. exact (off_placed _ Hw o). }
  intros order (_ & Hacc & Hpl). destruct (negb _); [done |]. apply returns_skip. intros now.
  destruct (_ <? now)%Z; [by apply returns_skip |]. cbn [bind]. destruct (AcmeService.finalize_csr _) as [[csrPEM csr] |]; [| done].
  destruct (AcmeService.csr_common_name _ _); [| by apply returns_skip].
  eapply returns_bind_err; [by apply returns_activeCred_off | done |]. intros cred Hne. simpl.
  intros Hin%Hpl. congruence.
Qed.

(** *** Placing and finalizing orders *)

Definition shut_out {A} (p : prog world A) : Prop := always I (on_db gets_nothing) p.

Lemma shut_guar {A} (p : prog world A) : guar (on_db off_step) p -> shut_out p.
Proof. apply (always_guar I (on_db gets_nothing)). Qed.

Lemma shut_then {A B} (p : prog world A) (q : A -> prog world B) :
  guar (on_db off_step) p -> (forall a, shut_out (q a)) -> shut_out (bind p q).
Proof. intros Hp Hq. apply always_then; [by apply shut_guar | exact Hq]. Qed.

Lemma shut_bind {A B} (Q : A -> Prop) (p : prog world A) (q : A -> prog world B) :
  guar (on_db off_step) p -> returns I Q p -> (forall a, Q a -> shut_out (q a)) -> shut_out (bind p q).
Proof. intros Hp Hr Hq. eapply always_bind; [by apply shut_guar | exact Hr | exact Hq]. Qed.

Lemma shut_NewOrder body : shut_out (AcmeService.NewOrder cfg sink body).
Proof.
  unfold AcmeService.NewOrder. eapply shut_bind; [guar_walk off_leaf | apply returns_authenticate_off |].
  intros [[payload a] | p]; [| done]. intros Ha. cbn [bind].
  destruct (AcmeService.malformed_of _) as [req |]; [| done]. destruct (match AcmeService.no_Identifiers req with [] => true | _ => false end); [done |].
  eapply shut_bind; [guar_walk off_leaf | by apply returns_activeCred_off |]. intros [cred | p]; [| done]. intros Hne.
  apply shut_guar. guar_walk off_leaf.
Qed.

Lemma off_other_order k p f d :
  k ∉ ks -> (forall o, p o = true -> AcmeOrder.ID o = k) ->
  (forall o, AcmeOrder.ID (f o) = AcmeOrder.ID o /\ AcmeOrder.AccountID (f o) = AcmeOrder.AccountID o) ->
  off_step d (snd (update AcmeOrders p f d)).
Proof.
  intros Hk Hp Hf. apply off_orders. intros o. destruct (Hf o) as [Hi Ha]. split; [done |]. split; [done |].
  intros Ho Hin. rewrite (Hp o Ho) in Hin. done.
Qed.

Lemma shut_Finalize k body : shut_out (AcmeService.Finalize cfg master sink k body).
Proof.
  unfold AcmeService.Finalize. eapply shut_bind; [guar_walk off_leaf | apply returns_finalize_checks_off |].
  intros [[[[order cred] csrPEM] cn] | p]; [| done]. intros Hk. apply shut_guar.
  guar_walk ltac:(first [ apply (off_other_order (AcmeOrder.ID order)); [exact Hk | unfold AcmeStore.order_id; intros ? ?; lia | by split] | off_leaf ]).
Qed.

Lemma shut_serve rt r : shut_out (AcmeProtocol.serve cfg master sink rt r).
Proof.
  destruct (decide (rt = AcmeProtocol.PostFinalize)) as [-> | Hf]; [| destruct (decide (rt = AcmeProtocol.PostNewOrder)) as [-> | Hn]].
  - cbn [AcmeProtocol.serve]. unfold AcmeProtocol.handleACMEFinalize, AcmeProtocol.answer.
    apply always_then; [| intros a; apply shut_guar; guar_walk off_leaf].
    unfold AcmeProtocol.with_id, AcmeProtocol.with_body.
    destruct (AcmeProtocol.pathIDACME r); [| done]. destruct (AcmeProtocol.readACMEBody r); [| done].
    apply always_then; [apply shut_Finalize |]. by intros [o | p].
  - cbn [AcmeProtocol.serve]. unfold AcmeProtocol.handleACMENewOrder, AcmeProtocol.answer.
    apply always_then; [| intros a; apply shut_guar; guar_walk off_leaf].
    unfold AcmeProtocol.with_body. destruct (AcmeProtocol.readACMEBody r); [apply shut_NewOrder | done].
  - by apply shut_guar, off_serve.
Qed.
(** *** The administration *)

Inductive activity :=
| Request (rt : AcmeProtocol.route) (r : AcmeProtocol.HttpRequest)
| Create (in_ : CreateEABInput)
| SetDisabled (k : Z) (disabled : bool) (actor : string)
| Remove (k : Z) (actor : string)
| Deactivate (account : Z) (actor : string).

Definition perform (a : activity) : prog world unit :=
  match a with
  | Request rt r => AcmeProtocol.serve cfg master sink rt r ;;; Ret tt
  | Create in_ => CreateEAB master sink in_ ;;; Ret tt
  | SetDisabled k disabled actor => SetEABDisabled sink k disabled actor ;;; Ret tt
  | Remove k actor => DeleteEAB sink k actor ;;; Ret tt
  | Deactivate k actor => DeactivateAccount sink k actor ;;; Ret tt
  end%prog.

(** Everything but enabling the credential again. *)
Definition leaves_off (a : activity) : Prop :=
  match a with SetDisabled k false _ => eab <> Some k | _ => True end.

Lemma off_SetEABDisabled k disabled actor :
  leaves_off (SetDisabled k disabled actor) -> guar (on_db off_step) (SetEABDisabled sink k disabled actor).
Proof.
  intros Hk. guar_walk ltac:(first [off_leaf | apply off_credentials]). intros c. split; [done |].
  unfold AcmeStore.eab_id. intros Hc%Z.eqb_eq Heab _. simpl. destruct disabled; [done |]. simpl in Hk. congruence.
Qed.

Lemma shut_perform a : leaves_off a -> shut_out (perform a).
Proof.
  intros Ha. unfold perform. destruct a; (apply always_then; [| done]).
  - apply shut_serve.
  - apply shut_guar. guar_walk off_leaf.
  - by apply shut_guar, off_SetEABDisabled.
  - apply shut_guar. guar_walk off_leaf.
  - apply shut_guar. guar_walk off_leaf.
Qed.

Lemma shut_pool acts w w' ps :
  cut_off (w_db w) -> Forall leaves_off acts -> rtc pstep (w, map perform acts) (w', ps) ->
  cut_off (w_db w') /\ gets_nothing (w_db w) (w_db w').
Proof.
  intros Hw Hacts Hsteps. refine (always_pool I (on_db gets_nothing) _ _ _ _ _ _ Hw _ Hsteps).
  apply Forall_map. eapply Forall_impl; [exact Hacts |]. apply shut_perform.
Qed.
End cut_off.

Section consequences.
Context `{AcmeService.Wire} `{Ciphers} `{RowOrder}.
Context (cfg : CaService.Config) (master : string).
Context (sink : string -> string -> string -> string -> string -> prog world unit).
Context (Hsink : forall a b c d e, guar (on_db (keeps [AcmeOrders; AcmeAccounts; AcmeEabCreds])) (sink a b c d e)).

(** A database whose rows carry ids drawn from their sequences. *)
Definition well_kept (d : db) : Prop := violated d = None /\ drawn AcmeEabCreds d /\ drawn AcmeAccounts d /\ drawn AcmeOrders d.

(** Why an account gets no certificates any more: it was deactivated, or its
    credential is disabled and nobody enables it. *)
Definition put_off (a : AcmeAccount.t) (acts : list activity) (d : db) : Prop :=
  AcmeAccount.Status a = AcmeStatusDeactivated \/
  (exists c, c ∈ rows (d AcmeEabCreds) /\ EABCred.ID c = AcmeAccount.EABID a /\ EABCred.Disabled c = true) /\
  Forall (leaves_off (Some (AcmeAccount.EABID a))) acts.

Lemma account_id_inj d x y :
  violated d = None -> x ∈ rows (d AcmeAccounts) -> y ∈ rows (d AcmeAccounts) -> AcmeAccount.ID x = AcmeAccount.ID y -> x = y.
Proof.
  intros Hv. apply (clashes_inj (clash AcmeAccounts) AcmeAccount.ID); [| by apply violated_clashes].
  intros a b Hab. apply orb_true_iff. left. by apply Z.eqb_eq.
Qed.

Lemma credential_id_inj d x y :
  violated d = None -> x ∈ rows (d AcmeEabCreds) -> y ∈ rows (d AcmeEabCreds) -> EABCred.ID x = EABCred.ID y -> x = y.
Proof.
  intros Hv. apply (clashes_inj (clash AcmeEabCreds) EABCred.ID); [| by apply violated_clashes].
  intros a b Hab. apply orb_true_iff. left. by apply Z.eqb_eq.
Qed.

Lemma order_id_inj d x y :
  violated d = None -> x ∈ rows (d AcmeOrders) -> y ∈ rows (d AcmeOrders) -> AcmeOrder.ID x = AcmeOrder.ID y -> x = y.
Proof.
  intros Hv. apply (clashes_inj (clash AcmeOrders) AcmeOrder.ID); [| by apply violated_clashes].
  intros a b Hab. by apply Z.eqb_eq.
Qed.

Definition orders_of (k : Z) (d : db) : list Z :=
  map AcmeOrder.ID (List.filter (fun o => AcmeOrder.AccountID o =? k)%Z (rows (d AcmeOrders))).

Lemma elem_of_orders_of k d i :
  i ∈ orders_of k d <-> exists o, o ∈ rows (d AcmeOrders) /\ AcmeOrder.ID o = i /\ AcmeOrder.AccountID o = k.
Proof.
  unfold orders_of. rewrite list_elem_of_fmap. setoid_rewrite list_elem_of_In. setoid_rewrite filter_In.
  setoid_rewrite Z.eqb_eq. naive_solver.
Qed.

Lemma put_off_cut_off a acts d :
  well_kept d -> a ∈ rows (d AcmeAccounts) -> put_off a acts d ->
  exists eab, cut_off (AcmeAccount.ID a) eab (orders_of (AcmeAccount.ID a) d) d /\ Forall (leaves_off eab) acts.
Proof.
  intros (Hv & Hde & Hda & Hdo) Ha Hwhy.
  assert (exists eab, (forall x, x ∈ rows (d AcmeAccounts) -> AcmeAccount.ID x = AcmeAccount.ID a -> barred eab x) /\
            (forall k, eab = Some k -> is_off k d) /\ Forall (leaves_off eab) acts) as (eab & Hbar & Hcred & Hall).
  { destruct Hwhy as [Hst | [(c & Hc & Hcid & Hdis) Hacts]]; [exists None | exists (Some (AcmeAccount.EABID a))].
    - split; [| split; [done | by apply Forall_true; intros [| | ? [|] ? | |]]].
      intros x Hx Hid. left. by rewrite (account_id_inj d x a Hv Hx Ha Hid), Hst.
    - split; [| split; [| done]].
      + intros x Hx Hid. right. by rewrite (account_id_inj d x a Hv Hx Ha Hid).
      + intros k [= <-]. split; [rewrite <- Hcid; by apply Hde |].
        intros c' Hc' Hi. by rewrite (credential_id_inj d c' c Hv Hc' Hc (eq_trans Hi (eq_sym Hcid))). }
  exists eab. split; [| done]. split; [by apply Hda | exact Hbar | exact Hcred | |].
  - apply Forall_forall. intros k (o & Ho & <- & _)%elem_of_orders_of. by apply Hdo.
  - intros o Ho. unfold placed. rewrite elem_of_orders_of. split; [| by exists o].
    intros (o' & Ho' & Hid & <-). by rewrite (order_id_inj d o o' Hv Ho Ho' (eq_sym Hid)).
Qed.

(** C4.  An account that has been deactivated, or whose credential has been
    disabled, gets nothing any more: whatever ACME requests - its own included -
    and administrative actions are served afterwards, on however many replicas
    and however their statements interleave, no order of it is added, none is
    claimed and none receives a certificate, as long as nobody enables the
    credential again; nothing undoes a deactivation. *)
Theorem put_off_accounts_get_nothing a acts w w' ps :
  well_kept (w_db w) -> a ∈ rows (w_db w AcmeAccounts) -> put_off a acts (w_db w) ->
  rtc pstep (w, map (perform cfg master sink) acts) (w', ps) ->
  gets_nothing (AcmeAccount.ID a) (w_db w) (w_db w').
Proof.
  intros Hw Ha Hwhy Hsteps. destruct (put_off_cut_off a acts _ Hw Ha Hwhy) as (eab & Hoff & Hacts).
  exact (proj2 (shut_pool _ eab _ cfg master sink Hsink acts w w' ps Hoff Hacts Hsteps)).
Qed.
End consequences.

(** ** What a created credential holds *)

Section creation.
Context `{AcmeService.Wire} `{Ciphers} `{RowOrder}.
Context (master : string).
Context (sink : string -> string -> string -> string -> string -> prog world unit).
Context (Hquiet : forall a b c d e, beside [AcmeEabCreds] (sink a b c d e)).

Lemma string_get_default n s : n < String.length s -> exists c, String.get n s = Some c.
Proof.
  revert n. induction s as [| c s IH]; intros n Hn; simpl in Hn; [lia |].
  destruct n as [| n]; [by exists c |]. apply IH. lia.
Qed.

Lemma get_mem n s c : String.get n s = Some c -> Str.mem_char c s = true.
Proof.
  revert n. induction s as [| x s IH]; intros n; [done |]. destruct n as [| n]; simpl.
  - intros [= ->]. by rewrite Ascii.eqb_refl.
  - intros Hg. rewrite (IH n Hg). apply orb_true_r.
Qed.

Lemma key_letter_in c : Str.mem_char (key_letter c) keyIDAlphabet = true.
Proof.
  unfold key_letter. destruct (string_get_default (nat_of_ascii c mod String.length keyIDAlphabet) keyIDAlphabet) as [x Hx].
  - apply Nat.mod_upper_bound. done.
  - rewrite Hx. by eapply get_mem.
Qed.

(** A key id: twenty letters of the alphabet. *)
Definition key_id_shape (k : string) : Prop :=
  String.length k = 20 /\ Policy.all_chars (fun c => Str.mem_char c keyIDAlphabet) k = true.

Lemma map_string_shape f p s :
  (forall c, p (f c) = true) ->
  String.length (Str.map_string f s) = String.length s /\ Policy.all_chars p (Str.map_string f s) = true.
Proof. intros Hf. induction s as [| c s [IH1 IH2]]; [done |]. simpl. by rewrite IH1, IH2, Hf. Qed.

Definition leaf_profiles : list string :=
  [Pki.ProfileServer; Pki.ProfileClient; Pki.ProfileServerCli; Pki.ProfileCodeSign; Pki.ProfileEmail].

(** The domains a credential is limited to: the patterns asked for, normalised;
    none only when any domain is asked for. *)
Definition limited_to (in_ : CreateEABInput) (domains : list string) : Prop :=
  NoDup domains /\ Forall good_pattern domains /\
  (forall p, p ∈ domains <-> p <> EmptyString /\ exists raw, raw ∈ ce_AllowedDomains in_ /\ p = Policy.normal_pattern raw) /\
  (domains = [] <-> ce_AllowAnyDomain in_ = true).

Lemma ParseProfile_leaf s p : Pki.ParseProfile s = Ok p -> p <> Pki.ProfileIntermCA -> p ∈ leaf_profiles.
Proof.
  unfold Pki.ParseProfile. generalize (Str.ToLower (Str.TrimSpace s)). intros q.
  destruct (str_is q ""); [intros [= <-] _; by left |]. destruct (Pki.one_of q _) eqn:E.
  - intros [= <-] Hne. apply existsb_exists in E as (x & Hx & ->%str_is_eq). apply list_elem_of_In in Hx.
    unfold leaf_profiles. rewrite !elem_of_cons in Hx. rewrite !elem_of_cons. tauto.
  - clear E. destruct (Pki.one_of q _); [| done]. intros Hp _. assert (p = Pki.ProfileServerCli) as -> by congruence.
    unfold leaf_profiles. rewrite !elem_of_cons. tauto.
Qed.

Lemma checked_input_spec in_ name profile domains :
  checked_input in_ = Ok (name, profile, domains) ->
  name = Str.TrimSpace (ce_Name in_) /\ name <> EmptyString /\ profile ∈ leaf_profiles /\ limited_to in_ domains.
Proof.
  unfold checked_input. cbv zeta. destruct (str_is _ "") eqn:Hname; [done |]. apply str_is_ne in Hname.
  rewrite result_bind_Ok. intros (parsed & Hparsed & Hrest). destruct (str_is parsed _) eqn:Hca; [done |].
  apply str_is_ne in Hca. rewrite result_bind_Ok in Hrest. destruct Hrest as (ds & Hds & Hend).
  destruct (normalizeDomainPatterns_spec _ _ Hds) as (Hnd & Hgood & Hset).
  assert (ds = domains /\ parsed = profile /\ name = Str.TrimSpace (ce_Name in_) /\ (ds = [] <-> ce_AllowAnyDomain in_ = true))
    as (-> & -> & -> & Hany) by (destruct ds, (ce_AllowAnyDomain in_); try done; injection Hend; naive_solver).
  split; [done |]. split; [done |]. split; [by eapply ParseProfile_leaf | done].
Qed.

Lemma wp_pinned_ca ref (Q : result error (option Z) -> world -> Prop) w :
  sound w -> (forall e w', Q (Err e) w') ->
  (forall o w', sound w' -> w_db w' = w_db w ->
     match o with
     | None => Str.TrimSpace ref = EmptyString
     | Some k => exists c, c ∈ rows (w_db w Cas) /\ CA.ID c = k
     end -> Q (Ok o) w') ->
  wp (pinned_ca ref) Q w.
Proof.
  intros Hw He Hok. unfold pinned_ca. cbv zeta. destruct (str_is _ "") eqn:E; [apply wp_Ret, Hok; [done.. | by apply str_is_eq in E] |].
  apply wp_bind. eapply wp_mono.
  - apply wp_and; [apply (wp_sound (CaService.ResolveCA _)); [guar_walk idtac | exact Hw] |].
    eapply (wp_reads _ (CaService.ResolveCA _) (fun r w' => w_db w' = w_db w /\ match r with Ok c => c ∈ rows (w_db w Cas) | Err _ => True end));
      [guar_walk idtac | apply (returns_GetCAByRef (w_db w)) |]. intros [c | e] w' Hc D; by split.
  - intros [c | e] w' [Hw' [D Hc]]; apply wp_Ret; [| by apply He]. apply Hok; [done | done | by exists c].
Qed.

Lemma wp_randomKeyID (Q : result error string -> world -> Prop) w :
  sound w -> (forall e w', Q (Err e) w') ->
  (forall k w', sound w' -> w_db w' = w_db w -> key_id_shape k -> Q (Ok k) w') -> wp (randomKeyID 20) Q w.
Proof.
  intros Hw He Hok. apply wp_bind, wp_act. cbn [fst snd].
  destruct (rand_Read _ 20) as [b |] eqn:Hr; apply wp_Ret; [| by apply He]. apply Hok; [by destruct Hw | done |].
  destruct (map_string_shape key_letter (fun c => Str.mem_char c keyIDAlphabet) b key_letter_in) as [Hl Hc].
  split; [| exact Hc]. rewrite Hl. exact (rand_length _ _ _ Hr).
Qed.

Lemma wp_hmac_key (Q : result error (string * string) -> world -> Prop) w :
  sound w -> (forall e w', Q (Err e) w') ->
  (forall key enc w', sound w' -> w_db w' = w_db w -> String.length key = 32 ->
     CaService.box_Decrypt master enc = Ok key -> Q (Ok (key, enc)) w') -> wp (hmac_key master) Q w.
Proof.
  intros Hw He Hok. apply wp_bind, wp_act. cbn [fst snd].
  destruct (rand_Read _ 32) as [key |] eqn:Hr; [| by apply wp_Ret]. apply wp_bind, wp_act. cbn [fst snd].
  destruct (Box.Encrypt _ _ _) as [enc |] eqn:Henc; apply wp_Ret; [| by apply He].
  apply Hok; [by destruct Hw | done | exact (rand_length _ _ _ Hr) | exact (Sealing.box_opens _ _ _ _ Henc)].
Qed.
(** What a credential made from [in_] is, with the key that was handed out. *)
Record made_from (in_ : CreateEABInput) (d : db) (res : CreateEABResult) (key : string) (c : EABCred.t) : Prop := {
  made_name : EABCred.Name c = Str.TrimSpace (ce_Name in_) /\ EABCred.Name c <> EmptyString;
  made_profile : EABCred.Profile c ∈ leaf_profiles;
  made_domains : limited_to in_ (EABCred.AllowedDomains c);
  made_limits : EABCred.MaxAccounts c = ce_MaxAccounts in_ /\ EABCred.Days c = ce_Days in_ /\
                EABCred.AccountCount c = 0%Z /\ EABCred.Disabled c = false;
  made_authority : match EABCred.CAID c with
                   | None => Str.TrimSpace (ce_CARef in_) = EmptyString
                   | Some k => exists ca, ca ∈ rows (d Cas) /\ CA.ID ca = k
                   end;
  made_expiry : EABCred.ExpiresAt c = None <-> (ce_ExpiresInDays in_ <= 0)%Z;
  made_key_id : key_id_shape (EABCred.KeyID c);
  made_key : String.length key = 32 /\ er_HMACKeyB64 res = AcmeService.rawurl_Encode key /\
             CaService.box_Decrypt master (EABCred.HMACKeyEnc c) = Ok key }.

(** What the holder of [key] can do: bind an account to the credential. *)
Definition admits (key : string) (c : EABCred.t) (w : world) : Prop :=
  forall eab url jwk obj,
    AcmeService.eab_header eab url = (EABCred.KeyID c, Ok obj) -> AcmeService.eab_binds obj key jwk = Ok tt ->
    fst (run (AcmeService.VerifyEAB master eab url jwk) w) = (EABCred.KeyID c, Ok c).

Lemma credential_by_key c d : violated d = None -> c ∈ rows (d AcmeEabCreds) ->
  select1 AcmeEabCreds (fun e => str_is (EABCred.KeyID e) (EABCred.KeyID c)) d = Some c.
Proof.
  intros Hv Hc. unfold select1.
  destruct (find_elem (fun e => str_is (EABCred.KeyID e) (EABCred.KeyID c)) _ c Hc) as [y Hy]; [apply str_is_refl |].
  etrans; [exact Hy |]. f_equal. apply find_Some in Hy as [Hy Hk%str_is_eq].
  apply (clashes_inj (clash AcmeEabCreds) EABCred.KeyID (rows (d AcmeEabCreds))); [| by apply violated_clashes | done | done | done].
  intros a b Hab. apply orb_true_iff. right. apply (proj2 (str_is_eq _ _)). exact Hab.
Qed.

Lemma admits_created key c w :
  sound w -> c ∈ rows (w_db w AcmeEabCreds) -> CaService.box_Decrypt master (EABCred.HMACKeyEnc c) = Ok key -> admits key c w.
Proof.
  intros Hw Hc Hkey eab url jwk obj Hh Hb. unfold AcmeService.VerifyEAB. rewrite Hh.
  enough (wp (c' <- AcmeStore.GetEABCredByKeyID (EABCred.KeyID c) ;; Ret (EABCred.KeyID c, match c' with
     | Err _ => Err (Errorf (Str.Sprintf "unknown external account binding key id %q" [Str.AStr (EABCred.KeyID c)]))
     | Ok cred => match CaService.box_Decrypt master (EABCred.HMACKeyEnc cred) with
         | Err _ => Err (Errorf (Str.Sprintf "unknown external account binding key id %q" [Str.AStr (EABCred.KeyID c)]))
         | Ok key => result_bind (AcmeService.eab_binds obj key jwk) (fun _ => Ok cred) end end))%prog
     (fun r _ => r = (EABCred.KeyID c, Ok c)) w) as Hwp by exact Hwp.
  apply wp_bind. apply wp_row_sound; [done |]. rewrite credential_by_key by (done || apply Hw).
  apply wp_Ret. rewrite Hkey. simpl. by rewrite Hb.
Qed.

Lemma beside_acme_audit a b c d : beside [AcmeEabCreds] (AcmeService.audit sink a b c d).
Proof.
  assert (forall a b c d e, guar (on_db (keeps [AcmeEabCreds])) (sink a b c d e)) as Hk by (intros; by destruct (Hquiet a0 b0 c0 d0 e)).
  assert (forall a b c d e, guar stays_sound (sink a b c d e)) as Hs by (intros; by destruct (Hquiet a0 b0 c0 d0 e)).
  split; [guar_walk ltac:(frame) | guar_walk idtac].
Qed.

Lemma wp_expiry days (Q : option Z -> world -> Prop) w :
  sound w ->
  (forall e w', sound w' -> w_db w' = w_db w -> (e = None <-> (days <= 0)%Z) -> Q e w') ->
  wp (if (0 <? days)%Z then now <- time_Now ;; Ret (Some (AddDays days now)) else Ret None)%prog Q w.
Proof.
  intros Hw HQ. destruct (Z.ltb_spec 0 days) as [Hpos | Hneg].
  - apply wp_bind. apply wp_now_sound; [done |]. intros t w' Hw' D _. apply wp_Ret, HQ; [done | done |]. split; [done | lia].
  - by apply wp_Ret, HQ.
Qed.

Lemma wp_CreateEAB in_ w :
  sound w ->
  wp (CreateEAB master sink in_) (fun r w' => match r with
    | Err _ => True
    | Ok res => exists key, made_from in_ (w_db w) res key (er_Cred res) /\ sound w' /\
        rows (w_db w' AcmeEabCreds) = rows (w_db w AcmeEabCreds) ++ [er_Cred res]
    end) w.
Proof.
  intros Hw. unfold CreateEAB. destruct (checked_input in_) as [[[name profile] domains] |] eqn:Hin; [| by apply wp_Ret].
  destruct (checked_input_spec _ _ _ _ Hin) as (Hname & Hne & Hprof & Hdom).
  apply wp_bind. apply wp_pinned_ca; [done | intros; by apply wp_Ret |]. intros caID w1 Hw1 D1 Hca.
  apply wp_bind. apply wp_randomKeyID; [done | intros; by apply wp_Ret |]. intros keyID w2 Hw2 D2 Hkid.
  apply wp_bind. apply wp_hmac_key; [done | intros; by apply wp_Ret |]. intros key enc w3 Hw3 D3 Hlen Hkey.
  apply wp_bind. apply wp_expiry; [done |].
  intros expires w4 Hw4 D4 Hexp. apply wp_bind. apply wp_now_sound; [done |]. intros now w5 Hw5 D5 _.
  apply wp_bind. unfold AcmeStore.CreateEABCred. apply (wp_insert_back AcmeEabCreds _ (fun e => e)); [done | | done | by intros; apply wp_Ret |].
  { intros a b Hab. apply orb_true_iff. left. exact Hab. }
  intros id w6 Hw6 Hrows. apply wp_bind. eapply (wp_beside [AcmeEabCreds]); [apply beside_acme_audit | exact Hw6 |].
  intros u w7 Hw7 _ K7. apply wp_Ret. exists key. split; [| split; [done |]].
  - split; cbn [er_Cred EABCred.Name EABCred.Profile EABCred.AllowedDomains EABCred.MaxAccounts EABCred.Days AcmeStore.eab_row]; try done.
    unfold nz. destruct (nonempty _); [done | by left].
  - rewrite K7, Hrows by left. by rewrite D5, D4, D3, D2, D1.
Qed.
Lemma key_id_fresh c d d' :
  violated d' = None -> rows (d' AcmeEabCreds) = rows (d AcmeEabCreds) ++ [c] ->
  forall x, x ∈ rows (d AcmeEabCreds) -> EABCred.KeyID x <> EABCred.KeyID c.
Proof.
  intros Hv Hrows x Hx Heq.
  assert (NoDup (map EABCred.KeyID (rows (d' AcmeEabCreds)))) as Hnd.
  { apply (clashes_NoDup (clash AcmeEabCreds)); [| by apply violated_clashes].
    intros a b Hab. apply orb_true_iff. right. apply (proj2 (str_is_eq _ _)). exact Hab. }
  rewrite Hrows, map_app in Hnd. apply NoDup_app in Hnd as (_ & Hdis & _).
  apply (Hdis (EABCred.KeyID x)); [by apply list_elem_of_fmap_2 | by rewrite Heq; left].
Qed.

(** C5.  A credential that was created is the one new row: named as asked, of
    a leaf profile, limited to the normalised domains or expressly to none,
    enabled and unused, under a key id nobody had; the HMAC key handed out is
    the one sealed in it, and whoever signs a binding with that key is admitted
    to it. *)
Theorem created_credential_admits in_ res w w' :
  sound w -> run (CreateEAB master sink in_) w = (Ok res, w') ->
  exists key, made_from in_ (w_db w) res key (er_Cred res) /\
    rows (w_db w' AcmeEabCreds) = rows (w_db w AcmeEabCreds) ++ [er_Cred res] /\
    (forall x, x ∈ rows (w_db w AcmeEabCreds) -> EABCred.KeyID x <> EABCred.KeyID (er_Cred res)) /\
    admits key (er_Cred res) w'.
Proof.
  intros Hw E. pose proof (wp_CreateEAB in_ w Hw) as Hwp. unfold wp in Hwp. rewrite E in Hwp. cbn [fst snd] in Hwp.
  destruct Hwp as (key & Hmade & Hw' & Hrows). exists key. split; [exact Hmade |]. split; [exact Hrows |].
  split; [eapply key_id_fresh; [apply Hw' | exact Hrows] |].
  apply admits_created; [exact Hw' | rewrite Hrows; apply elem_of_app; right; by left | by apply Hmade].
Qed.
End creation.

(** ** A reference that resolves to another credential *)

Section references.
Context `{AcmeService.Wire} `{Ciphers} `{RowOrder}.

Lemma resolves_by_number ref k c w :
  sound w -> Str.TrimSpace ref <> EmptyString ->
  (forall x, x ∈ rows (w_db w AcmeEabCreds) -> EABCred.KeyID x <> Str.TrimSpace ref) ->
  Sscanf_d (Str.TrimSpace ref) = Some k -> c ∈ rows (w_db w AcmeEabCreds) -> EABCred.ID c = k ->
  fst (run (ResolveEAB ref) w) = Ok c.
Proof.
  intros Hw Hne Hkey Hscan Hc Hk.
  enough (wp (ResolveEAB ref) (fun r _ => r = Ok c) w) as Hwp by exact Hwp.
  unfold ResolveEAB. cbv zeta. rewrite (proj2 (str_is_ne _ _) Hne). apply wp_bind. apply wp_row_sound; [done |].
  destruct (select1 _ _ _) as [y |] eqn:Hs.
  { apply find_Some in Hs as [Hy Heq%str_is_eq]. by destruct (Hkey y Hy). }
  unfold by_number. rewrite Hscan. apply wp_bind, wp_bind. apply wp_row_sound; [done |].
  destruct (find_elem (AcmeStore.eab_id k) (rows (w_db w AcmeEabCreds)) c Hc) as [y Hy]; [by apply Z.eqb_eq |].
  destruct (select1 AcmeEabCreds (AcmeStore.eab_id k) (w_db w)) as [z |] eqn:Hs2; [| by pose proof (eq_trans (eq_sym Hy) Hs2)].
  apply wp_Ret, wp_Ret. f_equal. apply find_Some in Hs2 as [Hz Hzk%Z.eqb_eq].
  apply (credential_id_inj (w_db w)); [apply Hw | done | done | congruence].
Qed.
End references.

(** Two credentials: one under the number the other's name begins with. *)
Definition two_credentials : world :=
  let c id key name := EABCred.mk id key "" name None "server" 30 ["*.test"%string] 0 0 false None "ann" 0 None in
  mkWorld (set_table AcmeEabCreds (mkTable [c 2%Z "k2"%string "production"%string; c 5%Z "k5"%string "2nd-cluster"%string] 5) empty_db) 1000 [] [] 0.

(** Whatever begins with a number is taken for an id: a credential cannot
    be named on the command line when its name begins with the id of another,
    and deleting it by its name deletes the other. *)
Theorem numbered_names_resolve_to_ids :
  (forall ref k c w,
     sound w -> Str.TrimSpace ref <> EmptyString ->
     (forall x, x ∈ rows (w_db w AcmeEabCreds) -> EABCred.KeyID x <> Str.TrimSpace ref) ->
     Sscanf_d (Str.TrimSpace ref) = Some k -> c ∈ rows (w_db w AcmeEabCreds) -> EABCred.ID c = k ->
     fst (run (ResolveEAB ref) w) = Ok c) /\
  let after := run (eab_delete_cmd Sample.no_sink "2nd-cluster" true "ann") two_credentials in
  fst after = Ok tt /\ map EABCred.Name (rows (w_db (snd after) AcmeEabCreds)) = ["2nd-cluster"]%string.
Proof. split; [exact resolves_by_number | by vm_compute]. Qed.

(** ** Witnesses *)

(** The sample server after the credential of its account was disabled. *)
Definition disabled_start : world :=
  mkWorld (set_table AcmeEabCreds (mkTable [EABCred.set_Disabled true Sample.cred : row AcmeEabCreds] 1) Sample.store) 1000 [] [] 0.

(** A finalize of the account's ready order, while its account is deactivated
    and a credential is made. *)
Definition new_credential : CreateEABInput := mkEAB "new" "" "" 30 ["*.New.test"%string; "*.new.test"%string] false 2 0 "ann".

Definition meanwhile_acts : list activity :=
  let '(rt, r) := finalize_request "n1" in
  [Request rt r; Deactivate 1 "ann"; Create new_credential; SetDisabled 1 true "ann"].

Definition meanwhile_run : world * list (prog world unit) :=
  schedule (List.concat (replicate 45 (List.seq 0 4)))
    (disabled_start, map (perform Sample.cfg Sample.master Sample.no_sink) meanwhile_acts).

Lemma put_off_accounts_get_nothing_witness :
  map AcmeOrder.CertificateID (rows (w_db (fst meanwhile_run) AcmeOrders)) = [None] /\
  gets_nothing 1 (w_db disabled_start) (w_db (fst meanwhile_run)).
Proof.
  split; [vm_compute; reflexivity |].
  refine (put_off_accounts_get_nothing Sample.cfg Sample.master Sample.no_sink _ Sample.account meanwhile_acts disabled_start
    (fst meanwhile_run) (snd meanwhile_run) _ _ _ _).
  - intros a b c d e. exact Logic.I.
  - split; [vm_compute; reflexivity |].
    repeat split; intros x Hx; apply list_elem_of_singleton in Hx as ->; vm_compute; discriminate.
  - by left.
  - right. split; [exists (EABCred.set_Disabled true Sample.cred); split; [by left | done] |].
    repeat (constructor; [done |]). constructor.
  - rewrite <- surjective_pairing. apply schedule_rtc.
Defined.

Definition made_result : option CreateEABResult :=
  Eval vm_compute in match fst (run (CreateEAB Sample.master Sample.no_sink new_credential) Sample.start) with
                     | Ok r => Some r | Err _ => None end.

Lemma credential_made :
  match made_result with
  | Some r => EABCred.AllowedDomains (er_Cred r) = ["*.new.test"%string] /\
              fst (run (CreateEAB Sample.master Sample.no_sink new_credential) Sample.start) = Ok r
  | None => False
  end.
Proof. split; by vm_compute. Qed.

Lemma start_sound : sound Sample.start.
Proof. split; by vm_compute. Qed.

Lemma created_credential_admits_witness :
  match made_result with
  | Some r => exists w' key, run (CreateEAB Sample.master Sample.no_sink new_credential) Sample.start = (Ok r, w') /\
      EABCred.AllowedDomains (er_Cred r) = ["*.new.test"%string] /\ admits Sample.master key (er_Cred r) w'
  | None => False
  end.
Proof.
  pose proof credential_made as Hm. destruct made_result as [r |]; [| exact Hm]. destruct Hm as [Hd Hr].
  destruct (run _ Sample.start) as [x w'] eqn:E. cbn [fst] in Hr. exists w'. rewrite Hr in E |- *.
  destruct (created_credential_admits Sample.master Sample.no_sink (fun _ _ _ _ _ => conj Logic.I Logic.I) new_credential r
              Sample.start w' start_sound E) as (key & _ & _ & _ & Ha).
  exists key. split; [reflexivity |]. split; [exact Hd | exact Ha].
Defined.

End AdminFacts.
