(* ===== verification/AuthFacts.v ===== *)
(** * What signing in and the gates guarantee

    Who can reach a guarded handler; how many wrong passwords are looked at
    before the throttle holds, and how it is escaped; how long a token minted
    with a password lives; which address a request counts under; and what a
    single-sign-on name does to the local account it shares. *)

From S2P Require Import Prelude GoStrings Effects Models Schema SqlFacts Store Pki Sealing CaService Auth Gate CaFacts Sample.

Module AuthFacts.
Import CaFacts.

(** ** The gates *)

Section gates.
Context `{Std : Pki.Std} `{Ciphers} `{Auth.Passwords} `{RowOrder}.

(** A route's guard. *)
Inductive gate := Page | AdminPage | Api | AdminApi.
Definition run_gate (g : gate) (r : Gate.Request) : prog world Gate.verdict :=
  match g with
  | Page => Gate.requireUser r
  | AdminPage => Gate.requireAdmin r
  | Api => Gate.apiAuth false r
  | AdminApi => Gate.apiAuth true r
  end.
Definition admin_only (g : gate) : bool := match g with AdminPage | AdminApi => true | _ => false end.

(** The bearer token of a request. *)
Definition bearer (r : Gate.Request) : string := Str.TrimSpace (Str.TrimSpace (drop_s 7 (Gate.Authorization r))).

(** A session of the store vouches for the request: it is the one of the
    cookie, it has not expired, and a request that changes something repeats
    the CSRF cookie. *)
Definition by_session (w : world) (r : Gate.Request) (u0 : User.t) : Prop :=
  exists s c, s ∈ rows (w_db w Sessions) /\ Session.UserID s = User.ID u0 /\
    Gate.cookie_session r = Some c /\ Session.TokenHash s = Auth.HashToken c /\ (w_clock w < Session.ExpiresAt s)%Z /\
    (Gate.safe_method (Gate.Method r) = true \/ Gate.checkCSRF r = true).

(** A token of the store does: the one of the request's header, neither revoked
    nor expired. *)
Definition by_token (w : world) (r : Gate.Request) (u0 u : User.t) : Prop :=
  exists t, t ∈ rows (w_db w ApiTokens) /\ APIToken.UserID t = User.ID u0 /\
    APIToken.TokenHash t = Auth.HashToken (bearer r) /\ APIToken.Revoked t = false /\
    (forall e, APIToken.ExpiresAt t = Some e -> (w_clock w <= e)%Z) /\
    (User.Role u = RoleAdmin -> APIToken.Role t = RoleAdmin).

Definition vouched (w : world) (r : Gate.Request) (u : User.t) (t : option APIToken.t) : Prop :=
  exists u0, u0 ∈ rows (w_db w Users) /\ User.ID u = User.ID u0 /\ User.Disabled u0 = false /\
    (User.Role u = RoleAdmin -> User.Role u0 = RoleAdmin) /\
    match t with None => by_session w r u0 | Some _ => by_token w r u0 u end.

Lemma wp_SessionUser hash w (Q : result error User.t -> world -> Prop) :
  (forall e w', Q (Err e) w') ->
  (forall s u w', s ∈ rows (w_db w Sessions) -> Session.TokenHash s = hash -> (w_clock w < Session.ExpiresAt s)%Z ->
     u ∈ rows (w_db w Users) -> Session.UserID s = User.ID u -> Q (Ok u) w') ->
  wp (Store.SessionUser hash) Q w.
Proof.
  intros He Hok. apply wp_bind, wp_now. intros now ts Hnow. apply wp_query_row; [eauto | eauto |].
  intros fs u Hu. cbn [w_db] in Hu. unfold select1 in Hu.
  destruct (List.find _ (rows (w_db w Sessions))) as [s |] eqn:Hs; [| done]. simpl in Hu.
  apply List.find_some in Hs as [Hs [Hhash Hexp]%andb_true_iff]. apply List.find_some in Hu as [Hu Hid].
  eapply (Hok s u); [by apply list_elem_of_In | by apply str_is_eq | apply Z.ltb_lt in Hexp; lia |
    by apply list_elem_of_In | symmetry; by apply Z.eqb_eq].
Qed.

Lemma wp_userFromRequest r w (Q : option (User.t * string) -> world -> Prop) :
  (forall w', Q None w') ->
  (forall s u c w', s ∈ rows (w_db w Sessions) -> Session.TokenHash s = Auth.HashToken c -> (w_clock w < Session.ExpiresAt s)%Z ->
     u ∈ rows (w_db w Users) -> Session.UserID s = User.ID u -> User.Disabled u = false ->
     Gate.cookie_session r = Some c -> Q (Some (u, c)) w') ->
  wp (Gate.userFromRequest r) Q w.
Proof.
  intros Hn Hs. unfold Gate.userFromRequest. destruct (Gate.cookie_session r) as [c |] eqn:Hc; [| by apply wp_Ret].
  destruct (str_is c ""); [by apply wp_Ret |]. apply wp_bind. unfold Auth.UserFromSession.
  destruct (str_is c ""); [by apply wp_Ret, wp_Ret |]. apply wp_bind_err, wp_SessionUser.
  - intros e w'. by apply wp_Ret.
  - intros s u w' K1 K2 K3 K4 K5. apply wp_Ret, wp_Ret. destruct (User.Disabled u) eqn:Hd; [done |]. by eapply Hs.
Qed.

Lemma wp_LookupAPIToken hash w (Q : result error (APIToken.t * User.t) -> world -> Prop) :
  (forall e w', Q (Err e) w') ->
  (forall t t' u w', t ∈ rows (w_db w ApiTokens) -> APIToken.TokenHash t = hash -> APIToken.Revoked t = false ->
     (forall e, APIToken.ExpiresAt t = Some e -> (w_clock w <= e)%Z) -> APIToken.Role t' = APIToken.Role t ->
     u ∈ rows (w_db w Users) -> APIToken.UserID t = User.ID u -> Q (Ok (t', u)) w') ->
  wp (Store.LookupAPIToken hash) Q w.
Proof.
  intros He Hok. unfold Store.LookupAPIToken. apply wp_bind_err, wp_query_row; [eauto | eauto |].
  intros fs t' Ht. destruct (select1 _ _ _) as [t |] eqn:Hsel; [| done]. injection Ht as <-.
  apply List.find_some in Hsel as [Hin [Hhash Hrev]%andb_true_iff]. apply list_elem_of_In in Hin.
  apply str_is_eq in Hhash. apply negb_true_iff in Hrev.
  set (w1 := with_faults fs w). apply wp_bind.
  assert (forall now w2, w_db w2 = w_db w -> (forall e, APIToken.ExpiresAt t = Some e -> (w_clock w <= now)%Z) ->
    wp (if expired_at now (APIToken.ExpiresAt t) then Ret (Err ErrNotFound)
        else u <-! Store.GetUser (APIToken.UserID t) ;; used <- time_Now ;;
             _ <- exec (update ApiTokens (fun r => APIToken.ID r =? APIToken.ID t)%Z (APIToken.set_LastUsedAt (Some used))) ;;
             Ret (Ok (Store.scanToken (w_db w) t, u)))%prog Q w2) as Hrest.
  { intros now w2 Hdb Hnow. destruct (expired_at now (APIToken.ExpiresAt t)) eqn:Hexp; [by apply wp_Ret |].
    apply wp_bind_err, wp_query_row; [by intros; apply He | by intros; apply He |]. intros fs2 u Hu. rewrite Hdb in Hu.
    apply List.find_some in Hu as [Hu Hid]. apply list_elem_of_In in Hu. apply Z.eqb_eq in Hid.
    assert (forall w', Q (Ok (Store.scanToken (w_db w) t, u)) w') as HQ.
    { intros w'. eapply Hok; [exact Hin | done | done | | done | exact Hu | by symmetry].
      intros e Hexp'. rewrite Hexp' in Hexp. apply Z.ltb_ge in Hexp. specialize (Hnow e Hexp'). lia. }
    apply wp_bind, wp_now. intros used ts _. apply wp_bind, wp_exec; intros; by apply wp_Ret. }
  change (APIToken.ExpiresAt (Store.scanToken (w_db w) t)) with (APIToken.ExpiresAt t).
  destruct (APIToken.ExpiresAt t) as [e |].
  - apply wp_now. intros now ts Hnow. apply Hrest; [done |]. intros _ _. exact Hnow.
  - apply wp_Ret, Hrest; done.
Qed.

Lemma wp_UserFromAPIToken token w (Q : result error (User.t * APIToken.t) -> world -> Prop) :
  (forall e w', Q (Err e) w') ->
  (forall t t' u0 u w', t ∈ rows (w_db w ApiTokens) -> APIToken.TokenHash t = Auth.HashToken (Str.TrimSpace token) ->
     APIToken.Revoked t = false -> (forall e, APIToken.ExpiresAt t = Some e -> (w_clock w <= e)%Z) ->
     u0 ∈ rows (w_db w Users) -> APIToken.UserID t = User.ID u0 -> User.Disabled u0 = false -> User.ID u = User.ID u0 ->
     (User.Role u = RoleAdmin -> User.Role u0 = RoleAdmin /\ APIToken.Role t = RoleAdmin) -> Q (Ok (u, t')) w') ->
  wp (Auth.UserFromAPIToken token) Q w.
Proof.
  intros He Hok. unfold Auth.UserFromAPIToken. destruct (str_is _ "" || _); [by apply wp_Ret |].
  apply wp_bind_err, wp_LookupAPIToken; [done |].
  intros t t' u0 w' Hin Hhash Hrev Hexp Hrole Hu Hid. apply wp_Ret. destruct (User.Disabled u0) eqn:Hd; [done |].
  eapply (Hok t t' u0); [done .. | |]; destruct (str_is (APIToken.Role t') RoleAdmin) eqn:Hr; [done | done | |].
  - intros Ha. apply str_is_eq in Hr. split; [done | congruence].
  - intros Ha. cbn in Ha. apply str_is_ne in Hr. congruence.
Qed.

Lemma wp_requireUser r w :
  wp (Gate.requireUser r) (fun v _ => match v with Gate.Pass u t => vouched w r u t | _ => True end) w.
Proof.
  apply wp_bind, wp_userFromRequest; [by intros; apply wp_Ret |].
  intros s u c w' K1 K2 K3 K4 K5 K6 K7. apply wp_Ret. destruct (negb _ && _) eqn:Hcsrf; [done |].
  exists u. split; [done |]. split; [done |]. split; [done |]. split; [done |]. exists s, c. repeat split; [done .. |].
  apply andb_false_iff in Hcsrf as [?%negb_false_iff | ?%negb_false_iff]; tauto.
Qed.

Lemma wp_api_credential r w :
  wp (Gate.api_credential r) (fun v _ => match v with Gate.Pass u t => vouched w r u t | _ => True end) w.
Proof.
  unfold Gate.api_credential. destruct (Str.HasPrefix _ _).
  - apply wp_bind, wp_UserFromAPIToken; [by intros; apply wp_Ret |].
    intros t t' u0 u w' K1 K2 K3 K4 K5 K6 K7 K8 K9. apply wp_Ret.
    exists u0. split; [done |]. split; [done |]. split; [done |]. split; [intros Ha; by apply K9 |].
    exists t. repeat split; [done .. |]. intros Ha. by apply K9.
  - apply wp_bind, wp_userFromRequest; [by intros; apply wp_Ret |].
    intros s u c w' K1 K2 K3 K4 K5 K6 K7. apply wp_Ret. destruct (negb _ && _) eqn:Hcsrf; [done |].
    exists u. split; [done |]. split; [done |]. split; [done |]. split; [done |]. exists s, c. repeat split; [done .. |].
    apply andb_false_iff in Hcsrf as [?%negb_false_iff | ?%negb_false_iff]; tauto.
Qed.

Lemma wp_gate g r w :
  wp (run_gate g r) (fun v _ => match v with
    | Gate.Pass u t => vouched w r u t /\ (admin_only g = true -> User.Role u = RoleAdmin) | _ => True end) w.
Proof.
  destruct g; simpl.
  - eapply wp_mono; [apply wp_requireUser |]. by intros [].
  - apply wp_bind. eapply wp_mono; [apply wp_requireUser |]. intros v w1 Hv. apply wp_Ret.
    destruct v as [| | | | u1 t1]; [done .. |]. destruct (IsAdmin (Some u1)) eqn:Ha; [| done]. split; [done |].
    intros _. by apply str_is_eq in Ha.
  - apply wp_bind. eapply wp_mono; [apply wp_api_credential |]. intros v w1 Hv. apply wp_Ret. by destruct v.
  - apply wp_bind. eapply wp_mono; [apply wp_api_credential |]. intros v w1 Hv. apply wp_Ret.
    destruct v as [| | | | u1 t1]; [done .. |]. cbn [andb]. destruct (IsAdmin (Some u1)) eqn:Ha; [| done]. split; [done |].
    intros _. by apply str_is_eq in Ha.
Qed.

(** C13.  A request passes a gate only as a user of the store who is enabled,
    vouched for by an unexpired session with the CSRF cookie repeated on
    requests that change something, or by an API token that is neither revoked
    nor expired.  It passes the gate of an administrators' route only when that
    user is an administrator and the token, if it is by token, one of an
    administrator too. *)
Theorem gates_admit_only_the_entitled g r u t w w' :
  run (run_gate g r) w = (Gate.Pass u t, w') ->
  vouched w r u t /\ (admin_only g = true -> User.Role u = RoleAdmin).
Proof. intros Hrun. pose proof (wp_gate g r w) as Hwp. unfold wp in Hwp. by rewrite Hrun in Hwp. Qed.
End gates.

(** ** Throttling *)

Section throttle.
Context `{Std : Pki.Std} `{Ciphers} `{Auth.Passwords} `{RowOrder}.
Context (cfg : Auth.Config) (ldap : option (string -> string -> M Auth.Identity)).
Context (sink : string -> string -> string -> string -> string -> prog world unit).

(** One request that carries a password. *)
Inductive attempt :=
| FormLogin (r : Gate.Request) (ip username password next : string)
| ApiLogin (in_ : Gate.loginRequest) (ip : string).

Definition attempt_user (a : attempt) : string :=
  Str.TrimSpace (match a with FormLogin _ _ username _ _ => username | ApiLogin in_ _ => Gate.Username in_ end).

(** Refused: the password was looked at and is wrong, or the account is
    disabled, or the directory failed.  Turned away: throttled. *)
Inductive outcome := Refused | TurnedAway | Otherwise.

Definition form_outcome (l : Gate.login_result) : outcome :=
  match l with
  | Gate.SignedIn _ _ => Otherwise
  | Gate.LoginForm m _ =>
      if Str.HasPrefix m "Too many failed" then TurnedAway
      else if Str.HasPrefix m "Invalid username" || Str.HasPrefix m "This account is disabled" || Str.HasPrefix m "Sign-in failed: "
      then Refused else Otherwise
  end.
Definition api_outcome (l : result (Z * string) Gate.loginResponse) : outcome :=
  match l with
  | Ok _ => Otherwise
  | Err (status, _) =>
      if (status =? 429)%Z then TurnedAway
      else if (status =? 401)%Z || (status =? 403)%Z || (status =? 502)%Z then Refused else Otherwise
  end.

Definition try_login (a : attempt) : prog world outcome :=
  match a with
  | FormLogin r ip username password next =>
      l <- Gate.handleLoginSubmit cfg ldap sink r ip username password next ;; Ret (form_outcome l)
  | ApiLogin in_ ip => l <- Gate.apiAuthLogin cfg ldap sink in_ ip ;; Ret (api_outcome l)
  end%prog.

Fixpoint try_all (l : list attempt) (w : world) : list (attempt * outcome) * world :=
  match l with
  | [] => ([], w)
  | a :: l' =>
      let '(o, w1) := run (try_login a) w in
      let '(os, w2) := try_all l' w1 in ((a, o) :: os, w2)
  end.

(** *** What retryAfter says *)

Definition in_window (key : string) (since : Z) (f : AuthFailure.t) : bool :=
  str_is (AuthFailure.key f) key && (since <? AuthFailure.at_ f)%Z.

Lemma wp_retryAfter key w :
  sound w ->
  wp (Throttle.retryAfter key) (fun wait w' => w_db w' = w_db w /\ sound w' /\ (w_clock w <= w_clock w')%Z /\
    ((5 <= affected (in_window key (w_clock w' - Throttle.loginFailWindow)) (rows (w_db w AuthFailures))) <-> (0 < wait)%Z)) w.
Proof.
  intros Hw. unfold Throttle.retryAfter. apply wp_bind, wp_now. intros now ts Hnow.
  set (w1 := mkWorld (w_db w) now ts (w_faults w) (w_draws w)). assert (sound w1) as Hw1 by exact Hw.
  apply wp_bind. unfold Store.RecentAuthFailures. apply wp_query_sound; [done |]. apply wp_Ret.
  split; [done |]. split; [done |]. split; [done |]. cbn [w_clock w_db w1].
  set (p := in_window key (now - Throttle.loginFailWindow)).
  set (l := order_by (fun a b : AuthFailure.t => AuthFailure.at_ a <=? AuthFailure.at_ b)%Z (select AuthFailures p (w_db w))).
  assert (length l = affected p (rows (w_db w AuthFailures))) as Hlen
    by (unfold l, affected, select, select_where; by rewrite (Permutation_length (order_by_perm _ _))).
  change (Z.to_nat Throttle.loginFailLimit) with 5. rewrite <- Hlen. clear Hlen.
  assert (forall f, f ∈ l -> (now - Throttle.loginFailWindow < AuthFailure.at_ f)%Z) as Hl.
  { intros f Hf. apply elem_of_order_by, elem_of_select_where in Hf as [_ [_ Hat]%andb_true_iff]. by apply Z.ltb_lt. }
  change (order_by _ _) with l. clearbody l. clear p.
  destruct l as [| f l]; [simpl; lia |]. assert (now - Throttle.loginFailWindow < AuthFailure.at_ f)%Z as Hf by (apply Hl; left).
  unfold Throttle.loginFailLimit. cbn [map take]. destruct (Z.ltb_spec (Z.of_nat (length (AuthFailure.at_ f :: map AuthFailure.at_ (take 4 l)))) 5) as [Hlt | Hge];
    cbn [length] in *; rewrite List.length_map, length_take in *; (split; intros; unfold Throttle.loginFailWindow in *; lia).
Qed.

(** *** The failures of one user since a moment *)

Context (X : string) (since : Z).

Definition of_X (f : AuthFailure.t) : bool :=
  str_is (AuthFailure.key f) (Throttle.user_key X) && (since <=? AuthFailure.at_ f)%Z.
Definition failures (d : db) : nat := affected of_X (rows (d AuthFailures)).

(** Ids are handed out in sequence. *)
Definition numbered (d : db) : Prop := forall f, f ∈ rows (d AuthFailures) -> (AuthFailure.ID f <= seq (d AuthFailures))%Z.

(** Nothing is forgotten. *)
Definition gathers (d d' : db) : Prop := (numbered d -> numbered d') /\ failures d <= failures d'.

#[local] Instance gathers_refl : Reflexive gathers.
Proof. intros d. split; [exact (fun Hd => Hd) | lia]. Qed.
#[local] Instance gathers_trans : Transitive gathers.
Proof. intros d1 d2 d3 [K1 K2] [K3 K4]. split; [auto | lia]. Qed.

Lemma gathers_keeps d d' : d' AuthFailures = d AuthFailures -> gathers d d'.
Proof. intros Hk. unfold gathers, numbered, failures. rewrite Hk. split; [done | lia]. Qed.

Lemma gathers_insert key at_ d :
  gathers d (snd (insert AuthFailures (fun id => AuthFailure.mk id key at_) d)).
Proof.
  unfold gathers, numbered, failures. rewrite insert_eq. cbn [rows seq]. split.
  - intros Hd f [Hf | ->%list_elem_of_singleton]%elem_of_app; [specialize (Hd f Hf); lia | simpl; lia].
  - rewrite affected_app. lia.
Qed.

Lemma gathers_clear key d :
  key <> Throttle.user_key X -> gathers d (snd (delete AuthFailures (fun f => str_is (AuthFailure.key f) key) d)).
Proof.
  intros Hkey. unfold gathers, numbered, failures. rewrite delete_leaf by (vm_compute; reflexivity). cbn [rows seq]. split.
  - intros Hd f [Hf _]%elem_of_delete_where. by apply Hd.
  - apply Nat.eq_le_incl. symmetry. apply affected_delete_other. intros f Hf%str_is_eq.
    unfold of_X. rewrite Hf. apply andb_false_iff. left. by apply str_is_ne.
Qed.

(** What each handler relies on and preserves. *)
Definition ready (w : world) : Prop := sound w /\ numbered (w_db w) /\ (since <= w_clock w)%Z.

Definition orderly (d d' : db) : Prop := numbered d -> numbered d'.
#[local] Instance orderly_refl : Reflexive orderly.
Proof. exact (fun d Hd => Hd). Qed.
#[local] Instance orderly_trans : Transitive orderly.
Proof. intros d1 d2 d3 K1 K2 K. auto. Qed.


Context (Hsink : forall a b c d e, guar (on_db (keeps [AuthFailures])) (sink a b c d e)).
Context (Hsound : forall a b c d e, guar stays_sound (sink a b c d e)).
Context (Hldap : match ldap with
  | Some l => forall u p, guar (on_db (keeps [AuthFailures])) (l u p) /\ guar stays_sound (l u p)
  | None => True end).

Definition calm {A} (p : prog world A) : Prop := guar (on_db (keeps [AuthFailures])) p /\ guar stays_sound p.

Lemma calm_Ret {A} (a : A) : calm (Ret a).
Proof. split; exact Logic.I. Qed.

Lemma calm_bind {A B} (p : prog world A) (q : A -> prog world B) : calm p -> (forall a, calm (q a)) -> calm (bind p q).
Proof. intros [K1 K2] Hq. split; apply guar_bind; [done | apply Hq | done | apply Hq]. Qed.

Lemma calm_audit a b c d e : calm (Gate.auditIP sink a b c d e).
Proof. unfold Gate.auditIP. split; guar_walk ltac:(frame). Qed.

Lemma calm_sync source u n e b : calm (Auth.syncDirectoryUser source u n e b).
Proof. clear Hsink Hsound Hldap. split; guar_walk ltac:(frame). Qed.

Lemma calm_Authenticate u p : calm (Auth.Authenticate cfg ldap u p).
Proof.
  assert (forall u p, calm (Auth.authenticate_directory ldap u p)) as Hdir.
  { intros u' p'. unfold Auth.authenticate_directory. destruct ldap as [l |]; [| apply calm_Ret].
    apply calm_bind; [apply Hldap |]. intros [id | e]; [apply calm_sync | apply calm_Ret]. }
  unfold Auth.Authenticate. destruct (str_is _ "" || _); [apply calm_Ret |].
  destruct (Auth.LocalEnabled cfg); [| apply Hdir].
  apply calm_bind; [split; guar_walk ltac:(frame) |]. intros [x | e]; [| apply Hdir].
  destruct (_ && _); [| apply Hdir]. destruct (User.Disabled x); [apply calm_Ret |].
  destruct (Auth.bcrypt_Compare _ _); [| apply calm_Ret].
  apply calm_bind; [split; guar_walk ltac:(frame) | intros; apply calm_Ret].
Qed.

Lemma calm_finishLogin u next ip ua : calm (Gate.finishLogin cfg sink u next ip ua).
Proof.
  apply calm_bind; [split; guar_walk ltac:(frame) |]. intros [[tok exp] | e]; [| apply calm_Ret].
  apply calm_bind; [apply calm_audit | intros; apply calm_Ret].
Qed.

Lemma calm_IssueAPIToken u name role ttl : calm (Auth.IssueAPIToken u name role ttl).
Proof. split; guar_walk ltac:(frame). Qed.

(** From one moment of a request to a later one. *)
Definition goes_on (w w' : world) : Prop := ready w' /\ failures (w_db w) <= failures (w_db w') /\ (w_clock w <= w_clock w')%Z.

Lemma wp_calm {A} (p : prog world A) (Q : A -> world -> Prop) w :
  calm p -> ready w -> (forall a w', goes_on w w' -> Q a w') -> wp p Q w.
Proof.
  intros [Kp Ks] (Hw & Hn & Hc) HQ.
  eapply wp_mono; [apply wp_and; [apply wp_and; [by apply wp_sound | by apply wp_clock] | apply (wp_guar (keeps [AuthFailures])); [apply _ | apply _ | exact Kp]] |].
  intros a w' [[Hw' Hcl] Hk]. apply HQ.
  destruct (gathers_keeps (w_db w) (w_db w') (Hk AuthFailures ltac:(by left))) as [Kn Kf].
  split; [split; [done | split; [auto | lia]] | split; [done | lia]].
Qed.

Lemma wp_Fail key w :
  ready w ->
  wp (Throttle.Fail_ key) (fun _ w' => goes_on w w' /\ (key = Throttle.user_key X -> failures (w_db w) + 1 <= failures (w_db w'))) w.
Proof.
  intros (Hw & Hn & Hc). unfold Throttle.Fail_. apply wp_bind, wp_now. intros now ts Hnow.
  set (w1 := mkWorld (w_db w) now ts (w_faults w) (w_draws w)). assert (sound w1) as Hw1 by exact Hw.
  apply wp_bind. unfold Store.RecordAuthFailure. apply wp_bind_err, wp_sql_sound; [done | |].
  - apply violated_insert; [vm_compute; reflexivity | exact (proj2 Hw) |].
    intros f Hf. apply Z.eqb_neq, Z.lt_neq. eapply Z.le_lt_trans; [exact (Hn f Hf) | apply Z.lt_succ_diag_r].
  - intros w2 Hw2. apply wp_Ret, wp_Ret. cbn [w2 w_db with_db w1].
    destruct (gathers_insert key now (w_db w)) as [Kn Kf]. unfold goes_on, ready. cbn [w2 w1 w_db w_clock with_db].
    split; [split; [split; [done | split; [auto | lia]] | split; [exact Kf | lia]] |].
    intros ->. unfold failures. rewrite insert_eq. cbn [rows]. rewrite affected_snoc. unfold of_X at 3. cbn [AuthFailure.key AuthFailure.at_].
    rewrite str_is_refl. replace (since <=? now)%Z with true by (symmetry; apply Z.leb_le; lia). done.
Qed.
Lemma goes_on_trans w1 w2 w3 : goes_on w1 w2 -> goes_on w2 w3 -> goes_on w1 w3.
Proof. intros (K1 & K2 & K3) (K4 & K5 & K6). split; [done | lia]. Qed.

(** A key is cleared: the database stays in order, and X's failures stay when
    it is another's key. *)
Lemma wp_Reset key w :
  ready w ->
  wp (Throttle.Reset_ key) (fun _ w' => ready w' /\ (w_clock w <= w_clock w')%Z /\
    (key <> Throttle.user_key X -> failures (w_db w) <= failures (w_db w'))) w.
Proof.
  intros (Hw & Hn & Hc). unfold Throttle.Reset_. apply wp_bind. unfold Store.ClearAuthFailures.
  apply wp_bind_err, wp_sql_sound; [done | |].
  - apply violated_delete; [vm_compute; reflexivity | exact (proj2 Hw)].
  - intros w2 Hw2. apply wp_Ret, wp_Ret. split; [split; [done | split; [| done]] | split; [done |]].
    + intros f. unfold w2, with_db. cbn [w_db]. rewrite delete_leaf by (vm_compute; reflexivity). cbn [rows seq].
      intros [Hf _]%elem_of_delete_where. exact (Hn f Hf).
    + intros Hkey. by apply gathers_clear.
Qed.

(** While less than the window has passed since the moment, five failures of X
    make its key wait. *)
Definition waits (username : string) (w : world) (wait : Z) (w' : world) : Prop :=
  w_db w' = w_db w /\ goes_on w w' /\
  (username = X -> 5 <= failures (w_db w) -> (w_clock w' < since + Throttle.loginFailWindow)%Z -> (0 < wait)%Z).

Lemma wp_any_key key w : ready w -> wp (Throttle.retryAfter key) (fun _ w' => w_db w' = w_db w /\ goes_on w w') w.
Proof.
  intros (Hw & Hn & Hc). eapply wp_mono; [by apply wp_retryAfter |]. intros wait w' (Hd & Hs & Hcl & _).
  split; [done |]. unfold goes_on, ready. rewrite Hd. repeat split; [apply Hs | apply Hs | done | lia | done | done].
Qed.

Lemma wp_user_key username w : ready w -> wp (Throttle.retryAfter (Throttle.user_key username)) (waits username w) w.
Proof.
  intros Hr. pose proof Hr as (Hw & Hn & Hc).
  eapply wp_mono; [apply wp_and; [by apply wp_any_key | by apply wp_retryAfter] |].
  intros wait w' [[Hd Hg] (_ & _ & _ & Hwait)]. split; [done |]. split; [done |].
  intros -> H5 Hlt. apply Hwait. etrans; [exact H5 |]. apply affected_incl.
  intros f _ [Hk Ha%Z.leb_le]%andb_true_iff. apply andb_true_iff. split; [done | apply Z.ltb_lt; lia].
Qed.

Lemma wp_loginThrottle username ip w : ready w -> wp (Throttle.loginThrottle username ip) (waits username w) w.
Proof.
  intros Hr. apply wp_bind. eapply wp_mono; [by apply wp_user_key |]. intros wait w1 (Hd & Hg & Hwait).
  destruct (Z.ltb_spec 0 wait) as [Hpos | Hneg]; [by apply wp_Ret |].
  eapply wp_mono; [apply wp_any_key, Hg |]. intros wait2 w2 [Hd2 Hg2]. unfold waits. rewrite Hd2.
  split; [done |]. split; [by eapply goes_on_trans |]. intros HX H5 Hlt. destruct Hg2 as (_ & _ & Hc2).
  specialize (Hwait HX H5). lia.
Qed.

Lemma user_key_inj a b : Throttle.user_key a = Throttle.user_key b -> a = b.
Proof. unfold Throttle.user_key. simpl. by intros [=]. Qed.

Lemma ip_is_no_user ip u : Throttle.ip_key ip <> Throttle.user_key u.
Proof. unfold Throttle.user_key, Throttle.ip_key. simpl. by intros [=]. Qed.

(** The part every sign-in with a password shares: the throttle, the password,
    and the failure recorded or the keys cleared. *)
Definition guarded {A} (username ip password : string) (turn : Z -> prog world A) (refuse : error -> prog world A)
    (accept : User.t -> prog world A) : prog world A :=
  (wait <- Throttle.loginThrottle username ip ;;
  if (0 <? wait)%Z then turn wait
  else
    u <- Auth.Authenticate cfg ldap username password ;;
    match u with
    | Err e => Throttle.loginFailed username ip ;;; refuse e
    | Ok u => Throttle.loginSucceeded username ip ;;; accept u
    end)%prog.

(** What one attempt does to the count. *)
Definition judged (username : string) (w : world) (o : outcome) (w' : world) : Prop :=
  ready w' /\ (w_clock w <= w_clock w')%Z /\
  ((username = X -> o <> Otherwise) -> failures (w_db w) <= failures (w_db w')) /\
  (username = X -> o = Refused -> (w_clock w' < since + Throttle.loginFailWindow)%Z ->
     failures (w_db w) < 5 /\ failures (w_db w) < failures (w_db w')).

Lemma judged_calm username w o w' : goes_on w w' -> o <> Refused -> judged username w o w'.
Proof. intros (Hr & Hf & Hc) Ho. split; [done |]. split; [done |]. by split; [lia | intros _ ?]. Qed.

Lemma wp_loginFailed username ip w :
  ready w ->
  wp (Throttle.loginFailed username ip) (fun _ w' => goes_on w w' /\ (username = X -> failures (w_db w) < failures (w_db w'))) w.
Proof.
  intros Hr. apply wp_bind. eapply wp_mono; [by apply wp_Fail |]. intros _ w1 [Hg1 Hf1].
  eapply wp_mono; [apply wp_Fail, Hg1 |]. intros _ w2 [Hg2 _]. split; [by eapply goes_on_trans |].
  intros ->. specialize (Hf1 eq_refl). destruct Hg2 as (_ & Hf2 & _). lia.
Qed.

Lemma wp_loginSucceeded username ip w :
  ready w ->
  wp (Throttle.loginSucceeded username ip)
     (fun _ w' => ready w' /\ (w_clock w <= w_clock w')%Z /\ (username <> X -> failures (w_db w) <= failures (w_db w'))) w.
Proof.
  intros Hr. apply wp_bind. eapply wp_mono; [by apply wp_Reset |]. intros _ w1 (Hr1 & Hc1 & Hf1).
  eapply wp_mono; [by apply wp_Reset |]. intros _ w2 (Hr2 & Hc2 & Hf2). split; [done |]. split; [lia |].
  intros Hu. etrans; [apply Hf1; intros Hk; by apply user_key_inj in Hk | apply Hf2, ip_is_no_user].
Qed.

Lemma wp_guarded {A} (out : A -> outcome) username ip password turn refuse accept w :
  ready w ->
  (forall z, calm (turn z) /\ returns (fun _ => True) (fun a => out a <> Refused) (turn z)) ->
  (forall e, calm (refuse e)) ->
  (forall u, calm (accept u) /\ returns (fun _ => True) (fun a => out a = Otherwise) (accept u)) ->
  wp (guarded (A := A) username ip password turn refuse accept) (fun a w' => judged username w (out a) w') w.
Proof.
  intros Hr Hturn Hrefuse Haccept. apply wp_bind. eapply wp_mono; [by apply wp_loginThrottle |].
  intros wait w1 (Hd & Hg1 & Hwait). destruct (Z.ltb_spec 0 wait) as [Hpos | Hneg].
  - destruct (Hturn wait) as [Hcalm Hret]. pose proof (wp_returns _ _ w1 Hret) as Hout.
    eapply wp_mono; [apply wp_and; [exact Hout | apply (wp_calm _ (fun _ w' => goes_on w1 w')); [done | apply Hg1 | auto]] |].
    intros a w' [Ho Hg]. apply judged_calm; [by eapply goes_on_trans | done].
  - apply wp_bind, wp_calm; [apply calm_Authenticate | apply Hg1 |]. intros [u | e] w2 Hg2.
    + apply wp_bind. eapply wp_mono; [apply wp_loginSucceeded, Hg2 |]. intros _ w3 (Hr3 & Hc3 & Hf3).
      destruct (Haccept u) as [Hcalm Hret]. pose proof (wp_returns _ _ w3 Hret) as Hout.
      eapply wp_mono; [apply wp_and; [exact Hout | apply (wp_calm _ (fun _ w' => goes_on w3 w')); [done | done | auto]] |].
      intros a w' [Ho Hg]. pose proof (goes_on_trans _ _ _ Hg1 Hg2) as (_ & Hf2 & Hc2). destruct Hg as (Hr4 & Hf4 & Hc4).
      split; [done |]. split; [lia |]. rewrite Ho. split; [| by intros]. intros HX.
      assert (username <> X) as Hne by (intros HX'; by apply (HX HX')). specialize (Hf3 Hne). lia.
    + apply wp_bind. eapply wp_mono; [apply wp_loginFailed, Hg2 |]. intros _ w3 [Hg3 Hf3].
      apply wp_calm; [apply Hrefuse | apply Hg3 |]. intros a w' Hg4.
      pose proof (goes_on_trans _ _ _ Hg1 Hg2) as (_ & Hf2 & Hc2). destruct Hg3 as (Hr3 & Hf3' & Hc3), Hg4 as (Hr4 & Hf4 & Hc4).
      split; [done |]. split; [lia |]. split; [lia |]. intros HX _ Hlt. specialize (Hf3 HX).
      destruct (le_lt_dec 5 (failures (w_db w))) as [H5 | H5]; [| lia].
      destruct Hg1 as (_ & _ & Hc1), Hg2 as (_ & _ & Hc2'). specialize (Hwait HX H5 ltac:(lia)). lia.
Qed.

Lemma returns_audit {A} (o : A -> Prop) a b c d e (x : A) :
  o x -> returns (fun _ : world => True) o (Gate.auditIP sink a b c d e ;;; Ret x)%prog.
Proof. intros Hx. apply returns_skip. by intros _. Qed.

Lemma wp_form r ip username password next w :
  ready w ->
  wp (Gate.handleLoginSubmit cfg ldap sink r ip username password next)
     (fun l w' => judged (Str.TrimSpace username) w (form_outcome l) w') w.
Proof.
  intros Hr. unfold Gate.handleLoginSubmit. destruct (negb (Gate.checkCSRF r)).
  - apply wp_Ret, judged_calm; [split; [done | lia] | done].
  - apply (wp_guarded form_outcome); [done | intros z | intros e | intros u].
    + split; [apply calm_bind; [apply calm_audit | intros; apply calm_Ret] | by apply returns_audit].
    + apply calm_bind; [apply calm_audit | intros; apply calm_Ret].
    + split; [apply calm_finishLogin |]. apply returns_skip. intros [[tok exp] | e]; [by apply returns_audit | done].
Qed.

Lemma login_error_refuses e : api_outcome (Err (Gate.login_error e)) = Refused.
Proof. unfold Gate.login_error. by repeat case_match. Qed.

Lemma wp_api in_ ip w :
  ready w ->
  wp (Gate.apiAuthLogin cfg ldap sink in_ ip)
     (fun l w' => judged (Str.TrimSpace (Gate.Username in_)) w (api_outcome l) w') w.
Proof.
  intros Hr. unfold Gate.apiAuthLogin.
  assert (forall (l : result (Z * string) Gate.loginResponse), api_outcome l <> Refused ->
    wp (Ret l) (fun l w' => judged (Str.TrimSpace (Gate.Username in_)) w (api_outcome l) w') w) as Hstop
    by (intros; apply wp_Ret, judged_calm; [split; [done | lia] | done]).
  destruct (_ || _); [by apply Hstop |]. destruct (_ && _); [by apply Hstop |].
  destruct (Gate.loginTokenTTL cfg (Gate.Days in_)) as [ttl | [st m]] eqn:Httl.
  - apply (wp_guarded api_outcome); [done | intros z | intros e | intros u].
    + split; [apply calm_bind; [apply calm_audit | intros; apply calm_Ret] | by apply returns_audit].
    + apply calm_bind; [apply calm_audit | intros; apply calm_Ret].
    + split.
      * apply calm_bind; [apply calm_IssueAPIToken |]. intros [[p rec] | e]; [| apply calm_Ret].
        apply calm_bind; [apply calm_audit |]. intros _. apply calm_bind; [apply calm_audit | intros; apply calm_Ret].
      * apply returns_skip. intros [[p rec] | e]; [apply returns_skip; intros _; by apply returns_audit |].
        simpl. unfold Gate.api_error. by destruct (is_not_found e).
  - assert (st = 400%Z) as -> by (unfold Gate.loginTokenTTL in Httl; by repeat case_match; simplify_eq).
    apply wp_bind. eapply wp_mono; [by apply wp_loginThrottle |]. intros wait w1 (Hd & Hg1 & _).
    destruct (0 <? wait)%Z; [| by apply wp_Ret, judged_calm].
    apply wp_bind, wp_calm; [apply calm_audit | apply Hg1 |]. intros _ w2 Hg2. apply wp_Ret, judged_calm; [| done].
    by eapply goes_on_trans.
Qed.

Lemma wp_try_login a w : ready w -> wp (try_login a) (fun o w' => judged (attempt_user a) w o w') w.
Proof.
  intros Hr. destruct a as [r ip username password next | in_ ip]; apply wp_bind.
  - eapply wp_mono; [by apply wp_form |]. intros l w' Hl. by apply wp_Ret.
  - eapply wp_mono; [by apply wp_api |]. intros l w' Hl. by apply wp_Ret.
Qed.

(** The attempts as X that were refused. *)
Definition refusals (os : list (attempt * outcome)) : nat :=
  length (List.filter (fun '(a, o) => str_is (attempt_user a) X && match o with Refused => true | _ => false end) os).

Lemma try_all_bounded l w os w' :
  ready w -> try_all l w = (os, w') -> (forall a o, (a, o) ∈ os -> attempt_user a = X -> o <> Otherwise) ->
  (w_clock w' < since + Throttle.loginFailWindow)%Z ->
  (w_clock w <= w_clock w')%Z /\ (0 < refusals os -> refusals os + failures (w_db w) <= 5).
Proof.
  revert w os. induction l as [| a l IH]; intros w os Hr; simpl; [intros [= <- <-] _ _; unfold refusals; simpl; lia |].
  pose proof (wp_try_login a w Hr) as Ha. unfold wp in Ha. destruct (run (try_login a) w) as [o w1].
  destruct (try_all l w1) as [os' w2] eqn:Hl. intros [= <- <-] Hos Hlt.
  destruct Ha as (Hr1 & Hc1 & Hkeep & Hcount). cbn [fst snd] in *.
  destruct (IH w1 os' Hr1 Hl ltac:(intros; eapply Hos; [by right | done]) Hlt) as [Hc2 Hle].
  split; [lia |]. specialize (Hkeep ltac:(intros HX; eapply Hos; [by left | done])).
  unfold refusals in *. simpl. destruct (str_is (attempt_user a) X) eqn:HX; simpl; [| lia].
  apply str_is_eq in HX. destruct o; simpl; [| lia | lia]. specialize (Hcount HX eq_refl ltac:(lia)). lia.
Qed.
End throttle.

(** Directory client and audit sink leave the counters alone. *)
Section bound.
Context `{Std : Pki.Std} `{Ciphers} `{Auth.Passwords} `{RowOrder}.
Context (cfg : Auth.Config) (ldap : option (string -> string -> M Auth.Identity)).
Context (sink : string -> string -> string -> string -> string -> prog world unit).
Context (Hsink : forall a b c d e, guar (on_db (keeps [AuthFailures])) (sink a b c d e)).
Context (Hsound : forall a b c d e, guar stays_sound (sink a b c d e)).
Context (Hldap : match ldap with
  | Some l => forall u p, guar (on_db (keeps [AuthFailures])) (l u p) /\ guar stays_sound (l u p)
  | None => True end).

(** C17.  Requests that carry a password come one after the other, to the
    portal and to the API, from any addresses and as any users, while the
    database fails nothing.  If none of those as X gets in, and they are over
    within fifteen minutes, then at most five of those as X are answered from
    the password; the others are turned away by the throttle.  (When the
    database fails the throttle lets attempts through, on purpose.) *)
Theorem at_most_five_guesses X l w os w' :
  sound w -> numbered (w_db w) -> try_all cfg ldap sink l w = (os, w') ->
  (forall a o, (a, o) ∈ os -> attempt_user a = X -> o <> Otherwise) ->
  (w_clock w' < w_clock w + Throttle.loginFailWindow)%Z ->
  refusals X os <= 5.
Proof.
  intros Hw Hn Hrun Hos Hlt.
  assert (ready (w_clock w) w) as Hr by (split; [done | split; [done | reflexivity]]).
  destruct (try_all_bounded cfg ldap sink X (w_clock w) Hsink Hsound Hldap l w os w' Hr Hrun Hos Hlt) as [_ Hle]. lia.
Qed.
End bound.

(** *** A server with one local account *)

Definition login_cfg : Auth.Config := Auth.mkConfig Auth.AuthModeLocal "admin" "bcrypt:secret" "" (12 * Hour) 0 0.
Definition admin : User.t := User.mk 1 "admin" "local" "" "" "admin" false "bcrypt:secret" 0 None.
Definition portal : world := mkWorld (set_table Users (mkTable [admin : row Users] 1) empty_db) 1000 [] [] 0.

(** A form request with its CSRF token repeated. *)
Definition browser : Gate.Request := Gate.mkRequest "POST" "/login" "" "" "t" None (Some "t"%string) "" "" "".
Definition guess (ip username password : string) : attempt := FormLogin browser ip username password "".
Definition ips : list string := ["10.0.0.1"; "10.0.0.2"; "10.0.0.3"; "10.0.0.4"; "10.0.0.5"; "10.0.0.6"; "10.0.0.7"]%string.
Definition guesses : list attempt := map (fun ip => guess ip "admin" "wrong") ips.
Definition run_guesses (l : list attempt) : list (attempt * outcome) * world :=
  try_all login_cfg None Sample.no_sink l portal.

Lemma nobody_in (os : list (attempt * outcome)) X :
  Forall (fun o => o <> Otherwise) (map snd os) -> forall a o, (a, o) ∈ os -> attempt_user a = X -> o <> Otherwise.
Proof.
  rewrite List.Forall_map, List.Forall_forall. intros Hall a o Ho _. apply list_elem_of_In in Ho. exact (Hall _ Ho).
Qed.

Lemma at_most_five_guesses_witness :
  map snd (fst (run_guesses guesses)) = [Refused; Refused; Refused; Refused; Refused; TurnedAway; TurnedAway] /\
  refusals "admin" (fst (run_guesses guesses)) <= 5.
Proof.
  split; [vm_compute; reflexivity |]. unfold run_guesses. destruct (try_all login_cfg None Sample.no_sink guesses portal) as [os w'] eqn:Hrun.
  pose proof (f_equal (fun r => map snd (fst r)) Hrun) as Hos. pose proof (f_equal (fun r => w_clock (snd r)) Hrun) as Hclock.
  cbv beta in Hos, Hclock. cbn [fst snd] in *.
  apply (at_most_five_guesses login_cfg None Sample.no_sink (fun a b c d e => Logic.I) (fun a b c d e => Logic.I) Logic.I
    "admin" guesses portal os w').
  - split; [reflexivity | vm_compute; reflexivity].
  - intros f Hf. change (f ∈ @nil AuthFailure.t) in Hf. destruct (not_elem_of_nil _ Hf).
  - exact Hrun.
  - apply nobody_in. rewrite <- Hos. clear. vm_compute. repeat constructor; discriminate.
  - rewrite <- Hclock. clear. vm_compute. reflexivity.
Defined.

(** The counter is kept under the name as it was typed while the account
    is looked up without regard to case: guesses under seven spellings of one
    name, from seven addresses, are all answered from its password. *)
Theorem case_variants_escape_the_throttle :
  let spellings := ["admin"; "Admin"; "aDmin"; "adMin"; "admIn"; "admiN"; "ADMIN"]%string in
  let os := fst (run_guesses (zip_with (fun ip u => guess ip u "wrong") ips spellings)) in
  map snd os = replicate 7 Refused /\
  map (fun u => fst (run (Store.GetUserByName u) portal)) spellings = replicate 7 (Ok admin) /\
  map snd (fst (run_guesses [guess "10.0.0.8" "aDMIN" "secret"])) = [Otherwise].
Proof.
  split; [vm_compute; reflexivity |]. split; [| vm_compute; reflexivity].
  vm_compute; reflexivity.
Qed.

(** ** Single sign-on *)

(** Someone the provider calls "Admin", whom it does not name an administrator. *)
Definition stranger : Auth.Identity := Auth.mkIdentity "Admin" "Mallory" "m@evil" [] false.
Definition after_sso : Gate.login_result * world := run (Gate.finish_sso login_cfg Sample.no_sink stranger "" "10.9.9.9" "") portal.
Definition with_session (r : Gate.login_result) : Gate.Request :=
  Gate.mkRequest "GET" "/admin/users" "" "" "" (match r with Gate.SignedIn t _ => Some t | _ => None end) None "" "" "".

(** An SSO sign-in under the name of a local account is that account: a
    person the provider does not call an administrator keeps the local
    administrator's role and passes the administrators' gate, and the local
    administrator's own password is refused from then on. *)
Theorem sso_name_takes_the_local_account :
  match fst (run (run_gate AdminPage (with_session (fst after_sso))) (snd after_sso)) with
  | Gate.Pass u _ => User.ID u = User.ID admin /\ User.Source u = SourceOIDC /\ User.Role u = RoleAdmin
  | _ => False
  end /\
  map snd (fst (run_guesses [guess "10.0.0.1" "admin" "secret"])) = [Otherwise] /\
  map snd (fst (try_all login_cfg None Sample.no_sink [guess "10.0.0.1" "admin" "secret"] (snd after_sso))) = [Refused].
Proof. split; [vm_compute; auto |]. split; vm_compute; reflexivity. Qed.

(** A session of the administrator. *)
Definition cookie_hash : string := Eval vm_compute in Auth.HashToken "cookie".
Definition session : Session.t := Session.mk 1 1 cookie_hash 5000 0 "" "".
Definition signed_in : world :=
  mkWorld (set_table Sessions (mkTable [session : row Sessions] 1) (w_db portal)) 1000 [] [] 0.
Definition with_cookie : Gate.Request := with_session (Gate.SignedIn "cookie" "").

Lemma gates_admit_only_the_entitled_witness :
  vouched signed_in with_cookie admin None /\ (admin_only AdminPage = true -> User.Role admin = RoleAdmin).
Proof.
  apply (gates_admit_only_the_entitled AdminPage with_cookie admin None signed_in (snd (run (run_gate AdminPage with_cookie) signed_in))).
  vm_compute. reflexivity.
Defined.

(** ** The address a request counts under *)

Section address.
Context `{Gate.Net} (trusted : list (Gate.IP -> bool)).

(** An entry of X-Forwarded-For the search goes past. *)
Definition passed (part : string) : Prop :=
  Str.TrimSpace part = "" \/ Gate.isTrustedProxy trusted (Str.TrimSpace part) = true.

Lemma first_client_passed l1 l2 : Forall passed l1 -> Gate.first_client trusted (l1 ++ l2) = Gate.first_client trusted l2.
Proof.
  induction 1 as [| p l Hp _ IH]; [done |]. simpl. destruct (str_is (Str.TrimSpace p) "") eqn:E; [done |].
  apply str_is_ne in E. by destruct Hp as [Hp | ->].
Qed.

Lemma first_client_stops seen l :
  ~ passed seen -> Gate.first_client trusted (seen :: l) = Some (Str.TrimSpace seen).
Proof.
  intros Hs. simpl. destruct (str_is _ "") eqn:E; [destruct Hs; left; by apply str_is_eq |].
  destruct (Gate.isTrustedProxy _ _) eqn:E'; [destruct Hs; by right | done].
Qed.

(** The address the connection comes from. *)
Definition peer (r : Gate.Request) : string :=
  match Gate.SplitHostPort (Gate.RemoteAddr r) with Some h => h | None => Gate.RemoteAddr r end.

(** The address throttled and audited is the peer's own unless the peer is
    a trusted proxy; behind one it is the last entry of X-Forwarded-For that is
    no trusted proxy's, whatever the client claimed in front of it, and the
    peer's again when there is none. *)
Theorem clientIP_not_forgeable r :
  (Gate.isTrustedProxy trusted (peer r) = false -> Gate.clientIP trusted r = peer r) /\
  (Gate.isTrustedProxy trusted (peer r) = true ->
   (forall claims seen hops, Str.Split (Gate.X_Forwarded_For r) "," = claims ++ seen :: hops ->
      ~ passed seen -> Forall passed hops -> Gate.clientIP trusted r = Str.TrimSpace seen) /\
   (Forall passed (Str.Split (Gate.X_Forwarded_For r) ",") -> Gate.clientIP trusted r = peer r)).
Proof.
  unfold Gate.clientIP. fold (peer r). split; [intros ->; by rewrite orb_true_r |]. intros Hpeer.
  assert (Nat.eqb (length trusted) 0 = false) as ->.
  { destruct trusted; [| done]. unfold Gate.isTrustedProxy in Hpeer. by destruct (Gate.ParseIP _). }
  rewrite Hpeer. cbn [negb orb]. split.
  - intros claims seen hops -> Hseen Hhops. rewrite rev_app_distr. cbn [rev]. rewrite <- app_assoc.
    rewrite first_client_passed by by apply Forall_rev. cbn [app]. by rewrite first_client_stops.
  - intros Hall. rewrite <- (app_nil_r (rev _)), first_client_passed by by apply Forall_rev. done.
Qed.
End address.

(** ** How long a minted token lives *)

(** A number of days that fits in a duration. *)
Definition fits (days : Z) : Prop := (0 < days <= 106751)%Z.

(** A login that asks for a number of days the server allows gets a token
    of just that lifetime, as long as the configured maximum fits in 64 bits of
    nanoseconds; a login that names none gets the configured default, thirty
    days when that is not positive: no token lives forever. *)
Theorem login_tokens_expire cfg days ttl :
  fits (Auth.APILoginTokenMaxDays cfg) -> Gate.loginTokenTTL cfg days = Ok ttl ->
  (0 < ttl)%Z /\
  ((0 < days)%Z -> ttl = (days * (24 * Hour))%Z /\ (days <= Auth.APILoginTokenMaxDays cfg)%Z) /\
  (days <= 0 -> days = 0 /\ ttl = if Auth.APILoginTokenTTL cfg <=? 0 then 30 * 24 * Hour else Auth.APILoginTokenTTL cfg)%Z.
Proof.
  unfold fits, Gate.loginTokenTTL. intros Hmax. destruct (Z.ltb_spec days 0) as [Hneg | Hpos]; [done |].
  destruct (Z.eqb_spec days 0) as [-> | Hne].
  - intros [= <-]. destruct (Z.leb_spec (Auth.APILoginTokenTTL cfg) 0); unfold Hour, Minute, Second in *; lia.
  - destruct (Z.ltb_spec 0 (Auth.APILoginTokenMaxDays cfg)) as [_ | ?]; [| lia]. cbn [andb].
    destruct (Z.ltb_spec (Auth.APILoginTokenMaxDays cfg) days) as [Hgt | Hle]; [done |]. intros [= <-].
    assert (forall n, -2 ^ 63 <= n < 2 ^ 63 -> int64 n = n)%Z as Hint.
    { intros n Hn. unfold int64. rewrite Z.mod_small; lia. }
    unfold Hour, Minute, Second in *. rewrite (Hint (days * 24)%Z) by lia. rewrite Hint by lia. lia.
Qed.

Definition capped_cfg : Auth.Config := Auth.mkConfig Auth.AuthModeLocal "" "" "" (12 * Hour) (24 * Hour) 90.
Lemma login_tokens_expire_witness :
  Gate.loginTokenTTL capped_cfg 90 = Ok (90 * (24 * Hour))%Z /\ (0 < 90 * (24 * Hour))%Z.
Proof. split; [reflexivity |]. apply (login_tokens_expire capped_cfg 90 (90 * (24 * Hour))%Z); [unfold fits; simpl; lia | reflexivity]. Defined.

(** Without a maximum the product of days and hours wraps around: 2^48
    days make a lifetime of zero, which is how a token that never expires is
    asked for. *)
Theorem huge_days_never_expire :
  let cfg := Auth.mkConfig Auth.AuthModeLocal "" "" "" (12 * Hour) 0 (-1) in
  Gate.loginTokenTTL cfg (2 ^ 48) = Ok 0%Z /\
  exists token rec w', run (Auth.IssueAPIToken admin "t" "user" 0) portal = (Ok (token, rec), w') /\
    APIToken.ExpiresAt rec = None.
Proof. split; [vm_compute; reflexivity |]. eexists _, _, _. split; [vm_compute; reflexivity | reflexivity]. Qed.

End AuthFacts.
