(* ===== verification/SessionFacts.v ===== *)
(** * Sessions from the sign-in to the sign-out

    The right password gets its owner in, for as long as the session is meant
    to last; signing out ends it; the janitor changes nothing that anybody can
    tell; a flash message is shown once. *)

From S2P Require Import Prelude GoStrings Effects Models Schema SqlFacts TableFacts Store Pki Sealing CaService AcmeStore AcmePolicy Auth Gate Sessions AuthFacts Sample.

Module SessionFacts.
Import Auth Sessions.

(** ** What the janitor deletes makes no difference *)

Section purge.
Context `{Std : Pki.Std} `{Ciphers} `{Passwords} `{RowOrder}.

Lemma find_spared {A} (p q : A -> bool) l :
  (forall x, x ∈ l -> p x = true -> q x = false) -> List.find p (delete_where q l) = List.find p l.
Proof.
  unfold delete_where. induction l as [| x l IH]; intros Hl; [done |]. cbn [List.filter List.find].
  assert (forall y, y ∈ l -> p y = true -> q y = false) as Hl' by (intros y Hy; apply Hl; by right).
  destruct (q x) eqn:Hq; cbn [negb]; [destruct (p x) eqn:Hp; [rewrite Hl in Hq; [done | left | done] | by apply IH] |].
  cbn [List.find]. destruct (p x); [done | by apply IH].
Qed.
Lemma select_spared {A} (p q : A -> bool) l :
  (forall x, x ∈ l -> p x = true -> q x = false) -> select_where p (delete_where q l) = select_where p l.
Proof.
  unfold select_where, delete_where. induction l as [| x l IH]; intros Hl; [done |]. cbn [List.filter].
  assert (forall y, y ∈ l -> p y = true -> q y = false) as Hl' by (intros y Hy; apply Hl; by right).
  destruct (q x) eqn:Hq; cbn [negb]; [destruct (p x) eqn:Hp; [rewrite Hl in Hq; [done | left | done] | by apply IH] |].
  cbn [List.filter]. destruct (p x); [f_equal |]; by apply IH.
Qed.

Lemma delete_twice {A} (p q : A -> bool) l : delete_where p (delete_where q l) = delete_where (fun x => q x || p x) l.
Proof.
  unfold delete_where. induction l as [| x l IH]; [done |]. cbn [List.filter]. destruct (q x); cbn [negb orb List.filter]; [done |].
  destruct (p x); cbn [negb]; by rewrite IH.
Qed.

(** [l'] is [l] without some rows that were over at [t]. *)
Definition rid {A} (over : A -> Z) (t : Z) (l l' : list A) : Prop :=
  exists q, l' = delete_where q l /\ forall x, x ∈ l -> q x = true -> (over x <= t)%Z.

Lemma rid_refl {A} (over : A -> Z) t l : rid over t l l.
Proof. exists (fun _ => false). split; [unfold delete_where; cbn [negb]; by induction l as [| x l IH]; cbn; [| f_equal] | done]. Qed.
Lemma rid_trans {A} (over : A -> Z) t t' l l' l'' : (t <= t')%Z -> rid over t l l' -> rid over t' l' l'' -> rid over t' l l''.
Proof.
  intros Ht (q & -> & Hq) (p & -> & Hp). exists (fun x => q x || p x). split; [apply delete_twice |].
  intros x Hx Hqp. destruct (q x) eqn:Hqx; [specialize (Hq x Hx Hqx); lia |]. apply Hp; [by apply elem_of_delete_where | done].
Qed.
Lemma rid_delete {A} (over : A -> Z) t l : rid over t l (delete_where (fun x => over x <=? t)%Z l).
Proof. eexists. split; [done |]. intros x _ Hx. by apply Z.leb_le. Qed.

Definition over_failure (f : AuthFailure.t) : Z := (AuthFailure.at_ f + Throttle.loginFailWindow)%Z.
Record swept (t : Z) (d d' : db) : Prop := {
  sw_rest k : k ∉ [Schema.Sessions; AcmeNonces; AuthFailures] -> d' k = d k;
  sw_sessions : rid Session.ExpiresAt t (rows (d Schema.Sessions)) (rows (d' Schema.Sessions));
  sw_nonces : rid AcmeNonce.expires_at t (rows (d AcmeNonces)) (rows (d' AcmeNonces));
  sw_failures : rid over_failure t (rows (d AuthFailures)) (rows (d' AuthFailures)) }.

Lemma swept_refl t d : swept t d d.
Proof. split; intros; try apply rid_refl; done. Qed.
Lemma swept_trans t t' d d' d'' : (t <= t')%Z -> swept t d d' -> swept t' d' d'' -> swept t' d d''.
Proof.
  intros Ht [R S N F] [R' S' N' F']. split; [intros k Hk; by rewrite R', R | by eapply rid_trans .. ].
Qed.


Lemma swept_one t k (p : row k -> bool) d :
  childless k = true -> k ∈ [Schema.Sessions; AcmeNonces; AuthFailures] ->
  (forall d', d' = set_table k (mkTable (delete_where p (rows (d k))) (seq (d k))) d -> 
     rid Session.ExpiresAt t (rows (d Schema.Sessions)) (rows (d' Schema.Sessions)) /\
     rid AcmeNonce.expires_at t (rows (d AcmeNonces)) (rows (d' AcmeNonces)) /\
     rid over_failure t (rows (d AuthFailures)) (rows (d' AuthFailures))) ->
  swept t d (snd (delete k p d)).
Proof.
  intros Hk Hin Hrid. rewrite delete_childless by done. destruct (Hrid _ eq_refl) as (K1 & K2 & K3). split; [| done ..].
  intros k' Hk'. apply set_table_ne. intros <-. done.
Qed.

(** Of a statement that fails nothing is left. *)
Lemma wp_purge t (k : table_name) (p : row k -> bool) (Q : result error nat -> world -> Prop) w :
  swept t (w_db w) (snd (delete k p (w_db w))) ->
  (forall x w', swept t (w_db w) (w_db w') -> (violated (w_db w) = None -> violated (w_db w') = None) -> w_clock w' = w_clock w -> Q x w') ->
  wp (sql (delete k p)) Q w.
Proof. intros Hs HQ. apply wp_sql; intros; apply HQ; first [apply swept_refl | exact Hs | done]. Qed.

Definition sweeps {A} (p : prog world A) : Prop :=
  forall w, wp p (fun _ w' => (w_clock w <= w_clock w')%Z /\ swept (w_clock w') (w_db w) (w_db w') /\
    (violated (w_db w) = None -> violated (w_db w') = None)) w.

Lemma sweeps_bind {A B} (p : prog world A) (q : A -> prog world B) : sweeps p -> (forall a, sweeps (q a)) -> sweeps (bind p q).
Proof.
  intros Hp Hq w. apply wp_bind. eapply wp_mono; [apply Hp |]. intros a w1 (Hc1 & Hs1 & Hv1). eapply wp_mono; [apply Hq |].
  intros b w2 (Hc2 & Hs2 & Hv2). split_and!; [lia | by eapply swept_trans | auto].
Qed.
Lemma sweeps_Ret {A} (a : A) : sweeps (Ret a).
Proof. intros w. apply wp_Ret. split_and!; [lia | apply swept_refl | done]. Qed.
Lemma sweeps_delete k (p : Z -> row k -> bool) :
  (forall t d, swept t d (snd (delete k (p t) d))) -> sweeps (now <- time_Now ;; sql (delete k (p now)))%prog.
Proof.
  intros Hs w. apply wp_bind, wp_now. intros now ts Hnow. apply (wp_purge now); [apply Hs |]. intros x w' Hw' Hv' Hc. rewrite Hc. done.
Qed.

Lemma sweeps_purge : sweeps purgeExpired.
Proof.
  unfold purgeExpired. apply sweeps_bind; [| intros _; apply sweeps_bind; [| intros _; apply sweeps_bind; [| intros _; apply sweeps_Ret]]].
  - apply (sweeps_delete Schema.Sessions (fun now s => Session.ExpiresAt s <=? now)%Z). intros t d. apply swept_one; [vm_compute; reflexivity | by left |].
    intros d' ->. rewrite set_table_eq, !set_table_ne by done. split_and!; [apply (rid_delete Session.ExpiresAt) | apply rid_refl ..].
  - apply (sweeps_delete AcmeNonces (fun now s => AcmeNonce.expires_at s <=? now)%Z). intros t d. apply swept_one; [vm_compute; reflexivity | right; by left |].
    intros d' ->. rewrite set_table_eq, !set_table_ne by done. split_and!; [apply rid_refl | apply (rid_delete AcmeNonce.expires_at) | apply rid_refl].
  - apply (sweeps_delete AuthFailures (fun now s => AuthFailure.at_ s <=? now - Throttle.loginFailWindow)%Z). intros t d.
    apply swept_one; [vm_compute; reflexivity | right; right; by left |].
    intros d' ->. rewrite set_table_eq, !set_table_ne by done. split_and!; [apply rid_refl .. |].
    eexists. split; [done |]. intros x _ Hx%Z.leb_le. unfold over_failure. lia.
Qed.
Lemma sweeps_janitor hours : sweeps (janitor hours).
Proof. induction hours as [| n IH]; [apply sweeps_Ret |]. apply sweeps_bind; [apply sweeps_purge | by intros]. Qed.

(** Two worlds that differ in their databases. *)
Lemma run_now_db d w : run time_Now (with_db d w) = (fst (run time_Now w), with_db d (snd (run time_Now w))).
Proof. destruct w as [d0 c [| t ts] fs n]; done. Qed.
Lemma run_query_db {X} (f : db -> X) d w :
  f d = f (w_db w) -> run (query f) (with_db d w) = (fst (run (query f) w), with_db d (snd (run (query f) w))).
Proof. intros Hf. destruct w as [d0 c ts [| [m |] fs] n]; cbn in *; unfold next_fault; cbn; by rewrite ?Hf. Qed.
Lemma now_later w : (w_clock w <= fst (run time_Now w))%Z /\ w_db (snd (run time_Now w)) = w_db w.
Proof. destruct w as [d0 c [| t ts] fs n]; cbn; split; done || lia. Qed.
Lemma fst_sql_db {X} (f : db -> X * db) d w :
  violated (snd (f d)) = None -> violated (snd (f (w_db w))) = None -> fst (f d) = fst (f (w_db w)) ->
  fst (run (sql f) (with_db d w)) = fst (run (sql f) w).
Proof.
  intros V1 V2 E. destruct w as [d0 c ts [| [m |] fs] n]; cbn in *; unfold next_fault; cbn; [| done |];
    destruct (f d) as [x d1], (f d0) as [y d2]; cbn in *; by rewrite V1, V2, E.
Qed.

(** The result is the same. *)
Definition twin (d : db) (w : world) {A} (p : prog world A) : Prop := fst (run p (with_db d w)) = fst (run p w).

Lemma twin_then {A B} d w (p : prog world A) (k : A -> B) : twin d w p -> twin d w (bind p (fun a => Ret (k a))).
Proof. unfold twin. rewrite !run_bind. cbn [run fst]. by intros ->. Qed.
Lemma twin_err {A B} d w (p : M A) (k : A -> result error B) : twin d w p -> twin d w (x <-! p ;; Ret (k x))%prog.
Proof.
  unfold twin. rewrite !run_bind. intros ->. by destruct (fst (run p w)).
Qed.
Lemma twin_now {B} d w (k : Z -> prog world B) :
  (forall now w', (w_clock w <= now)%Z -> w_db w' = w_db w -> twin d w' (k now)) -> twin d w (bind time_Now k).
Proof.
  unfold twin. intros Hk. rewrite !run_bind, run_now_db. destruct (now_later w) as [Hnow Hdb]. by apply Hk.
Qed.
Lemma twin_query {X} (f : db -> X) d w : f d = f (w_db w) -> twin d w (query f).
Proof. intros Hf. unfold twin. by rewrite run_query_db. Qed.

Lemma twin_row {X} (f : db -> option X) d w : f d = f (w_db w) -> twin d w (query_row f).
Proof. intros Hf. unfold twin, query_row. rewrite !run_bind, run_query_db by done. cbn [fst snd]. by destruct (fst (run (query f) w)) as [[x |] | e]. Qed.

(** C16.  Whenever and however often the janitor runs, and whatever of it the
    driver fails: who a session lets in, whether a nonce can be redeemed and
    how long a name or an address must wait are afterwards what they would be
    if it had not run. *)
Theorem purge_is_invisible hours w w' w1 :
  violated (w_db w) = None -> run (janitor hours) w = (tt, w') ->
  w_db w1 = w_db w -> (w_clock w' <= w_clock w1)%Z ->
  let w2 := with_db (w_db w') w1 in
  (forall token, fst (run (UserFromSession token) w2) = fst (run (UserFromSession token) w1)) /\
  (forall nonce, fst (run (NonceManager.Consume nonce) w2) = fst (run (NonceManager.Consume nonce) w1)) /\
  (forall key, fst (run (Throttle.retryAfter key) w2) = fst (run (Throttle.retryAfter key) w1)).
Proof.
  intros Hv Hrun Hdb Hc w2. pose proof (sweeps_janitor hours w) as Hs. unfold wp in Hs. rewrite Hrun in Hs. destruct Hs as (_ & Hs & Hv').
  specialize (Hv' Hv). cbn [snd] in *. rewrite <- Hdb in Hs, Hv. set (d' := w_db w') in *. clearbody d'. clear Hrun Hdb w.
  split_and!.
  - intros token. unfold UserFromSession. destruct (str_is token ""); [done |]. apply twin_err, twin_now. intros now w3 Hnow Hdb. apply twin_row.
    rewrite Hdb. unfold select1. rewrite (sw_rest _ _ _ Hs Users) by set_solver. destruct (sw_sessions _ _ _ Hs) as (q & -> & Hq).
    rewrite find_spared; [done |]. intros s Hin [_ Hlt%Z.ltb_lt]%andb_true_iff. apply not_true_iff_false. intros Hqs. specialize (Hq s Hin Hqs). lia.
  - intros nonce. unfold NonceManager.Consume. destruct (str_is nonce ""); [done |]. apply twin_now. intros now w3 Hnow Hdb. apply twin_then, twin_err.
    unfold twin. apply fst_sql_db; [apply violated_delete; [vm_compute; reflexivity | done] | apply violated_delete; [vm_compute; reflexivity | by rewrite Hdb] |].
    cbn [delete fst]. rewrite Hdb. destruct (sw_nonces _ _ _ Hs) as (q & -> & Hq). unfold affected. f_equal. apply select_spared.
    intros s Hin [_ Hlt%Z.ltb_lt]%andb_true_iff. apply not_true_iff_false. intros Hqs. specialize (Hq s Hin Hqs). lia.
  - intros key. unfold Throttle.retryAfter. apply twin_now. intros now w3 Hnow Hdb. apply twin_then, twin_query. do 3 f_equal.
    rewrite Hdb. unfold select. destruct (sw_failures _ _ _ Hs) as (q & -> & Hq). apply select_spared.
    intros s Hin [_ Hlt%Z.ltb_lt]%andb_true_iff. apply not_true_iff_false. intros Hqs. specialize (Hq s Hin Hqs). unfold over_failure in Hq. lia.
Qed.
End purge.
(** ** Signing out *)

Section sign_out.
Context `{Std : Pki.Std} `{Ciphers} `{Passwords} `{RowOrder}.
Context (always tls : bool) (forwarded : string).
Context (sink : string -> string -> string -> string -> string -> prog world unit).
Hypothesis sound_sink : forall a b c d e, guar stays_sound (sink a b c d e).

Definition no_bearer (r : Gate.Request) : Prop := Str.HasPrefix (Str.ToLower (Gate.Authorization r)) "bearer " = false.

Lemma refused_everywhere g r w :
  no_bearer r -> fst (run (Gate.userFromRequest r) w) = None -> forall u t, fst (run (AuthFacts.run_gate g r) w) <> Gate.Pass u t.
Proof.
  intros Hb Hn u t. assert (fst (run (Gate.requireUser r) w) = Gate.ToLogin (Gate.RequestURI r)) as Hp.
  { unfold Gate.requireUser. rewrite run_bind, Hn. done. }
  assert (fst (run (Gate.api_credential r) w) = Gate.ApiError 401 "authentication required: send an Authorization: Bearer <token> header") as Ha.
  { unfold Gate.api_credential. cbv zeta. unfold no_bearer in Hb. rewrite Hb, run_bind, Hn. done. }
  destruct g; cbn [AuthFacts.run_gate]; [by rewrite Hp | | |]; unfold Gate.requireAdmin, Gate.apiAuth; rewrite run_bind, ?Hp, ?Ha; done.
Qed.

Definition has_session (c : string) (d : db) : Prop := exists s, s ∈ rows (d Schema.Sessions) /\ Session.TokenHash s = HashToken c.

Lemma no_session_no_user r c w :
  Gate.cookie_session r = Some c -> ~ has_session c (w_db w) -> fst (run (Gate.userFromRequest r) w) = None.
Proof.
  intros Hc Hn. enough (wp (Gate.userFromRequest r) (fun u _ => u = None) w) as Hwp by exact Hwp.
  apply AuthFacts.wp_userFromRequest; [done |]. intros s u c' w' Hin Hh _ _ _ _ Hc'. rewrite Hc in Hc'. injection Hc' as <-.
  destruct Hn. by exists s.
Qed.

Lemma wp_handleLogout r ip c w :
  sound w -> Gate.cookie_session r = Some c -> c <> EmptyString ->
  wp (Gate.handleLogout sink r ip) (fun _ w' => sound w' /\ ~ has_session c (w_db w')) w.
Proof.
  intros Hw Hc Hne. unfold Gate.handleLogout. rewrite Hc. apply wp_bind.
  eapply wp_mono; [apply wp_sound; [guar_walk ltac:(idtac) | done] |]. intros u w1 Hw1.
  apply wp_bind. eapply wp_mono; [apply wp_sound; [destruct u as [[u ?] |]; guar_walk ltac:(idtac) | done] |]. intros [] w2 Hw2.
  apply wp_bind. unfold DestroySession. rewrite (proj2 (str_is_ne _ _) Hne). unfold Store.DeleteSession.
  apply wp_bind_err, wp_sql_sound; [done | apply violated_delete_childless; [vm_compute; reflexivity | apply Hw2] |].
  intros w3 Hw3. apply wp_Ret, wp_Ret. split; [done |]. intros (s & Hin & Hh). unfold w3 in Hin. cbn [with_db w_db] in Hin.
  rewrite delete_leaf in Hin by (vm_compute; reflexivity). cbn [rows] in Hin. apply elem_of_delete_where in Hin as [_ Hs].
  apply str_is_ne in Hs. done.
Qed.

(** C15.  A sign-out from a browser that sends the cookie forgets it and ends
    the session for everybody who holds it: whatever happens afterwards, as long as no new session is given
    the same token, no gate lets a request with that cookie in, on any page or
    route. *)
Theorem signing_out_is_final j c ip w j' w' :
  sound w -> sent (w_clock w) j sessionCookie = Some c -> run (sign_out always tls forwarded sink j ip) w = (j', w') ->
  j' !! sessionCookie = None /\
  forall w2 g r u t, (has_session c (w_db w2) -> has_session c (w_db w')) ->
    Gate.cookie_session r = Some c -> no_bearer r -> fst (run (AuthFacts.run_gate g r) w2) <> Gate.Pass u t.
Proof.
  intros Hw Hj Hrun. unfold sign_out, logout, clock in Hrun. rewrite run_bind, run_act in Hrun. cbn [fst snd] in Hrun.
  rewrite !run_bind, run_act in Hrun. cbn [fst snd run] in Hrun. injection Hrun as <- Hw'. split.
  - unfold keep, keep_one. cbn [fold_left c_MaxAge setCookie c_Name]. apply lookup_delete_eq.
  - intros w2 g r u t Hnew Hr Hb. apply refused_everywhere; [done |]. destruct (decide (c = EmptyString)) as [-> | Hne].
    + unfold Gate.userFromRequest. rewrite Hr. done.
    + eapply no_session_no_user; [done |]. intros Hs%Hnew. revert Hs. rewrite <- Hw'.
      pose proof (wp_handleLogout (request (w_clock w) j "POST" "/logout" "") ip c w Hw Hj Hne) as Hwp. apply Hwp.
Qed.
End sign_out.
(** ** Signing in *)

Section sign_in.
Context `{Std : Pki.Std} `{Ciphers} `{Passwords} `{RowOrder}.
Context (always tls : bool) (forwarded : string) (cfg : Auth.Config).
Context (ldap : option (string -> string -> M Auth.Identity)).
Context (sink : string -> string -> string -> string -> string -> prog world unit).
Hypothesis quiet_sink : forall a b c d e, beside [Users; Schema.Sessions] (sink a b c d e).
(** The system's randomness does not fail, and base64 of something is
    something. *)
Hypothesis random : forall n k, rand_Read n k <> None.
Hypothesis encodes : forall s, rawurl s = EmptyString -> s = EmptyString.
Hypothesis some_time : (0 < SessionTTL cfg)%Z.

Lemma wp_random k (Q : result error string -> world -> Prop) w :
  0 < k -> (forall n b, rand_Read n k = Some b -> rawurl b <> EmptyString ->
    Q (Ok (rawurl b)) (mkWorld (w_db w) (w_clock w) (w_ticks w) (w_faults w) (w_draws w + 1))) -> wp (randomToken k) Q w.
Proof.
  intros Hk HQ. apply wp_bind, wp_act. apply wp_Ret. cbn [fst snd]. destruct (rand_Read (w_draws w) k) as [b |] eqn:Hb; [| by destruct (random _ _ Hb)].
  apply (HQ _ b Hb). intros E%encodes. apply rand_length in Hb. subst b. simpl in Hb. lia.
Qed.

(** The token of a page: the one the browser sent, or a new one with a cookie
    for twelve hours. *)
Definition csrf_kept (t : Z) (j : jar) (tok : string) (cs : list Cookie) : Prop :=
  (cs = [] /\ sent t j csrfCookie = Some tok /\ 16 <= String.length tok) \/
  (cs = [setCookie always tls forwarded csrfCookie tok (12 * 3600) false] /\ forall c, sent t j csrfCookie = Some c -> String.length c < 16).

Lemma wp_csrfToken t j method uri form (Q : string * list Cookie -> world -> Prop) w :
  sound w ->
  (forall tok cs w', sound w' -> w_db w' = w_db w -> w_clock w' = w_clock w -> tok <> EmptyString -> csrf_kept t j tok cs -> Q (tok, cs) w') ->
  wp (csrfToken always tls forwarded (request t j method uri form)) Q w.
Proof.
  intros Hw HQ. assert ((forall c, sent t j csrfCookie = Some c -> String.length c < 16) -> wp (tok <- randomURLSafeToken 24 ;;
    Ret (match tok with Ok tok => (tok, [setCookie always tls forwarded csrfCookie tok (12 * 3600) false]) | Err _ => (EmptyString, []) end))%prog Q w) as Hfresh.
  { intros Hshort. apply wp_bind, wp_random; [lia |]. intros n b Hb Hne. apply wp_Ret, HQ; [exact Hw | done | done | exact Hne |]. by right. }
  unfold csrfToken. cbv zeta. cbn [Gate.cookie_csrf request]. destruct (sent t j csrfCookie) as [c |] eqn:Hc; [| by apply Hfresh].
  destruct (Nat.leb_spec 16 (String.length c)) as [Hlen | Hlen]; [| apply Hfresh; by intros ? [= <-]].
  apply wp_Ret, HQ; [exact Hw | done | done | intros ->; simpl in Hlen; lia |]. by left.
Qed.

(** Until when the CSRF cookie of a browser that opens a page at [t] is good. *)
Definition csrf_lifetime : Z := 12 * 3600 * Second.
Definition csrf_until (t : Z) (j : jar) : option Z :=
  match j !! csrfCookie with
  | Some (v, until) => if alive t until && (16 <=? String.length v)%nat then until else Some (t + csrf_lifetime)%Z
  | None => Some (t + csrf_lifetime)%Z
  end.

Lemma sent_Some t j name v : sent t j name = Some v -> exists until, j !! name = Some (v, until) /\ alive t until = true.
Proof.
  unfold sent. destruct (j !! name) as [[v' until] |]; [| done]. destruct (alive t until) eqn:E; [| done]. intros [= ->]. by exists until.
Qed.

(** The browser has this token for as long as that, at the least. *)
Definition holds_csrf (t : Z) (D : option Z) (j : jar) (tok : string) : Prop :=
  exists until, j !! csrfCookie = Some (tok, until) /\ (forall s, alive s D = true -> alive s until = true) /\
    (16 <= String.length tok \/ D = Some (t + csrf_lifetime)%Z).

Lemma sent_csrf t D j tok s : holds_csrf t D j tok -> alive s D = true -> sent s j csrfCookie = Some tok.
Proof. intros (until & Hj & Hu & _) Hs. unfold sent. by rewrite Hj, Hu. Qed.

Lemma csrf_set t now j tok s : (t <= now)%Z -> alive s (Some (t + csrf_lifetime)%Z) = true ->
  alive s (snd (default (tok, None) (keep_one now j (setCookie always tls forwarded csrfCookie tok (12 * 3600) false) !! csrfCookie))) = true.
Proof.
  intros Hnow. unfold keep_one. cbn [setCookie c_MaxAge c_Name c_Value]. change (12 * 3600 <? 0)%Z with false. change (12 * 3600 =? 0)%Z with false. cbv iota.
  rewrite lookup_insert_eq. cbn [default snd from_option id]. unfold alive, csrf_lifetime. intros Hlt%Z.ltb_lt. apply Z.ltb_lt. lia.
Qed.
Lemma csrf_stored now j tok : exists until, keep_one now j (setCookie always tls forwarded csrfCookie tok (12 * 3600) false) !! csrfCookie = Some (tok, until).
Proof. eexists. apply lookup_insert_eq. Qed.

(** Storing what the first page sets, and what a later one does. *)
Lemma opened_csrf t j tok cs : csrf_kept t j tok cs -> holds_csrf t (csrf_until t j) (keep t j cs) tok.
Proof.
  intros [(-> & Hs & Hlen) | (-> & Hs)]; unfold keep; cbn [fold_left].
  - apply sent_Some in Hs as (until & Hj & Ha). exists until. rewrite Hj. split; [done |].
    assert (csrf_until t j = until) as ->; [| by split; [| left]]. unfold csrf_until. rewrite Hj, Ha. by rewrite (proj2 (Nat.leb_le _ _) Hlen).
  - assert (csrf_until t j = Some (t + csrf_lifetime)%Z) as ->.
    { unfold csrf_until, sent in *. destruct (j !! csrfCookie) as [[v until] |]; [| done]. destruct (alive t until); [| done].
      specialize (Hs v eq_refl). by rewrite (proj2 (Nat.leb_gt _ _) Hs). }
    destruct (csrf_stored t j tok) as [until Hu]. exists until. split_and!; [done | | by right]. intros s Hs'.
    pose proof (csrf_set t t j tok s (Z.le_refl t) Hs') as Hset. by rewrite Hu in Hset.
Qed.
Lemma later_csrf t0 D t now j tok tok' cs :
  holds_csrf t0 D j tok -> sent t j csrfCookie = Some tok -> csrf_kept t j tok' cs -> (t0 <= now)%Z -> holds_csrf t0 D (keep now j cs) tok'.
Proof.
  intros Hh Hs [(-> & Hs' & Hlen) | (-> & Hshort)] Hnow; unfold keep; cbn [fold_left].
  - rewrite Hs in Hs'. by injection Hs' as <-.
  - destruct Hh as (_ & _ & _ & [Hlen | ->]); [specialize (Hshort _ Hs); lia |].
    destruct (csrf_stored now j tok') as [until Hu]. exists until. split_and!; [done | | by right]. intros s Hs'.
    pose proof (csrf_set t0 now j tok' s Hnow Hs') as Hset. by rewrite Hu in Hset.
Qed.
Lemma kept_others t now j tok cs name : csrf_kept t j tok cs -> name <> csrfCookie -> forall j', keep now j' cs !! name = j' !! name.
Proof. intros [(-> & _) | (-> & _)] Hne j'; [done |]. unfold keep, keep_one. cbn [fold_left setCookie c_MaxAge c_Name]. by apply lookup_insert_ne. Qed.

Lemma echoed t j method uri tok : sent t j csrfCookie = Some tok -> tok <> EmptyString -> Gate.checkCSRF (request t j method uri tok) = true.
Proof.
  intros Hj Hne. unfold Gate.checkCSRF. cbn [Gate.cookie_csrf request Gate.X_CSRF_Token Gate.form_csrf]. rewrite Hj, (proj2 (str_is_ne _ _) Hne).
  cbn [str_is]. change (str_is "" "") with true. cbv iota. rewrite str_is_refl. by destruct tok.
Qed.

(** The account somebody signs in to. *)
Context (u : User.t) (username password ip : string).
Record may_sign_in (w : world) : Prop := {
  m_sound : sound w;
  m_drawn : drawn Schema.Sessions (w_db w);
  m_stored : u ∈ rows (w_db w Users);
  m_only x : x ∈ rows (w_db w Users) -> Str.ToLower (User.Username x) = Str.ToLower (Str.TrimSpace username) -> x = u;
  m_name : Str.ToLower (User.Username u) = Str.ToLower (Str.TrimSpace username);
  m_given : Str.TrimSpace username <> EmptyString /\ password <> EmptyString;
  m_local : LocalEnabled cfg = true /\ User.Source u = SourceLocal /\ nonempty (User.PassHash u) = true;
  m_enabled : User.Disabled u = false;
  m_password : bcrypt_Compare (User.PassHash u) password = true;
  m_unthrottled key : key = Throttle.user_key (Str.TrimSpace username) \/ key = Throttle.ip_key ip ->
    affected (AuthFacts.in_window key (w_clock w - Throttle.loginFailWindow)) (rows (w_db w AuthFailures)) < 5;
  m_fresh n b s : rand_Read n 32 = Some b -> s ∈ rows (w_db w Schema.Sessions) -> Session.TokenHash s <> HashToken (rawurl b) }.

Lemma wp_not_throttled w0 key (Q : Z -> world -> Prop) w :
  may_sign_in w0 -> key = Throttle.user_key (Str.TrimSpace username) \/ key = Throttle.ip_key ip ->
  sound w -> w_db w = w_db w0 -> (w_clock w0 <= w_clock w)%Z ->
  (forall wait w', (wait <= 0)%Z -> sound w' -> w_db w' = w_db w0 -> (w_clock w0 <= w_clock w')%Z -> Q wait w') -> wp (Throttle.retryAfter key) Q w.
Proof.
  intros Hm Hk Hw Hd Hc HQ. eapply wp_mono; [by apply AuthFacts.wp_retryAfter |]. intros wait w' (Hd' & Hw' & Hc' & Hwait).
  apply HQ; [| done | congruence | lia]. apply Z.nlt_ge. intros Hpos%Hwait. pose proof (m_unthrottled _ Hm key Hk) as Hlt.
  rewrite Hd in Hpos. apply Nat.lt_nge in Hlt. apply Hlt. etrans; [exact Hpos |]. apply affected_incl.
  intros f _ [Hkey Hat%Z.ltb_lt]%andb_true_iff. apply andb_true_iff. split; [done | apply Z.ltb_lt; lia].
Qed.

Lemma wp_free_at w0 w (Q : Z -> world -> Prop) :
  may_sign_in w0 -> sound w -> w_db w = w_db w0 -> (w_clock w0 <= w_clock w)%Z ->
  (forall wait w', (wait <= 0)%Z -> sound w' -> w_db w' = w_db w0 -> (w_clock w0 <= w_clock w')%Z -> Q wait w') ->
  wp (Throttle.loginThrottle (Str.TrimSpace username) ip) Q w.
Proof.
  intros Hm Hw Hd Hc HQ. apply wp_bind. eapply wp_not_throttled; [exact Hm | by left | done | done | done |].
  intros wait w1 Hneg Hw1 Hd1 Hc1. destruct (Z.ltb_spec 0 wait); [lia |]. eapply wp_not_throttled; [exact Hm | by right | done | done | done |]. exact HQ.
Qed.

(** The account after the sign-in: found by its id, and enabled. *)
Definition at_home (d : db) : Prop :=
  exists u', List.find (fun x => User.ID x =? User.ID u)%Z (rows (d Users)) = Some u' /\ User.ID u' = User.ID u /\
    User.Role u' = User.Role u /\ User.Disabled u' = false.

Lemma stored_at_home w : sound w -> u ∈ rows (w_db w Users) -> User.Disabled u = false -> at_home (w_db w).
Proof.
  intros [_ Hv] Hin Hd. destruct (find_elem (fun x => User.ID x =? User.ID u)%Z _ u Hin (Z.eqb_refl _)) as [y Hy].
  pose proof (find_some _ _ Hy) as [Hyin%list_elem_of_In Hid%Z.eqb_eq]. exists y. split; [done |].
  assert (y = u) as ->; [| done]. apply (clashes_inj (clash Users) User.ID (rows (w_db w Users))); [| by apply violated_clashes | done | done | done].
  intros a b Hab. apply orb_true_iff. left. by apply Z.eqb_eq.
Qed.

Lemma wp_TouchLogin w (Q : result error unit -> world -> Prop) :
  sound w -> at_home (w_db w) ->
  (forall x w', sound w' -> at_home (w_db w') -> w_db w' Schema.Sessions = w_db w Schema.Sessions -> (w_clock w <= w_clock w')%Z -> Q x w') ->
  wp (Store.TouchLogin (User.ID u)) Q w.
Proof.
  intros Hw Hhome HQ. apply wp_bind, wp_now. intros now ts Hnow. set (w1 := mkWorld _ now ts _ _). assert (sound w1) as Hw1 by exact Hw.
  apply wp_bind, wp_sql_any; [done | |]; [intros _ Hw2 | intros c _]; apply wp_Ret; [| by apply HQ].
  apply HQ; [exact Hw2 | | cbn [with_db w_db w1]; by apply update_ne | exact Hnow].
  destruct Hhome as (u' & Hf & Hid & Hr & Hd). unfold at_home. cbn [with_db w_db w1]. rewrite update_eq. cbn [rows].
  rewrite find_update_where by (intros x Hx; done). rewrite Hf. cbn [option_map]. eexists. split; [done |].
  destruct (User.ID u' =? User.ID u)%Z; done.
Qed.

Lemma wp_checked_in w (Q : result error User.t -> world -> Prop) w0 :
  may_sign_in w0 -> sound w -> w_db w = w_db w0 -> (w_clock w0 <= w_clock w)%Z ->
  (forall w', sound w' -> at_home (w_db w') -> w_db w' Schema.Sessions = w_db w0 Schema.Sessions -> (w_clock w0 <= w_clock w')%Z -> Q (Ok u) w') ->
  wp (Authenticate cfg ldap (Str.TrimSpace username) password) Q w.
Proof.
  intros Hm Hw Hd Hc HQ. destruct (m_given _ Hm) as [Hu Hp]. destruct (m_local _ Hm) as (Hl & Hs & Hh).
  unfold Authenticate. cbv zeta. rewrite TrimSpace_idem, (proj2 (str_is_ne _ _) Hu), (proj2 (str_is_ne _ _) Hp), Hl. cbn [orb].
  apply wp_bind, wp_row_sound; [done |]. rewrite Hd.
  assert (head (scan (select Users (fun x => str_is (Str.ToLower (User.Username x)) (Str.ToLower (Str.TrimSpace username))) (w_db w0))) = Some u) as ->.
  { set (p := fun x => str_is _ _). assert (u ∈ scan (select Users p (w_db w0))) as Hin.
    { apply elem_of_scan, elem_of_select_where. split; [apply (m_stored _ Hm) | apply str_is_eq, (m_name _ Hm)]. }
    destruct (scan (select Users p (w_db w0))) as [| x l] eqn:El; [by apply not_elem_of_nil in Hin |]. cbn [head]. f_equal.
    assert (x ∈ scan (select Users p (w_db w0))) as Hx by (rewrite El; left).
    apply elem_of_scan, elem_of_select_where in Hx as [Hx Hn%str_is_eq]. by apply (m_only _ Hm). }
  rewrite Hs, Hh, (m_enabled _ Hm), (m_password _ Hm), (proj2 (str_is_eq _ _) eq_refl). cbn [andb].
  apply wp_bind, wp_TouchLogin; [done | rewrite Hd; apply stored_at_home; [apply (m_sound _ Hm) | apply (m_stored _ Hm) | apply (m_enabled _ Hm)] |].
  intros x w1 Hw1 Hh1 Hs1 Hc1. apply wp_Ret, HQ; [done | done | congruence | lia].
Qed.

(** A session of the account with this token lasts until [e]. *)
Definition lasting (tok : string) (e : Z) (d : db) : Prop :=
  at_home d /\ exists s, s ∈ rows (d Schema.Sessions) /\ Session.TokenHash s = HashToken tok /\ Session.UserID s = User.ID u /\ (e <= Session.ExpiresAt s)%Z.

Lemma lasting_keeps tok e d d' : keeps [Users; Schema.Sessions] d d' -> lasting tok e d -> lasting tok e d'.
Proof. intros Hk. unfold lasting, at_home. by rewrite !Hk by set_solver. Qed.

(** The account is there, enabled and of the same role, and so is the session
    as it was; everything else may have changed. *)
Record left_alone (tok : string) (d d' : db) : Prop := {
  l_account : exists x, x ∈ rows (d' Users) /\ User.ID x = User.ID u /\ User.Role x = User.Role u /\ User.Disabled x = false;
  l_session s : s ∈ rows (d Schema.Sessions) -> Session.TokenHash s = HashToken tok -> s ∈ rows (d' Schema.Sessions) }.

Lemma lasting_alone tok e d w : left_alone tok d (w_db w) -> sound w -> lasting tok e d -> lasting tok e (w_db w).
Proof.
  intros [(x & Hx & Hid & Hr & Hd) Hs] [_ Hv] [_ (s & Hin & Hh & Hu & He)]. split.
  - destruct (find_elem (fun y => User.ID y =? User.ID u)%Z _ x Hx) as [y Hy]; [by apply Z.eqb_eq |].
    pose proof (find_some _ _ Hy) as [Hyin%list_elem_of_In Hyid%Z.eqb_eq]. exists y. split; [done |].
    assert (y = x) as -> by (apply (clashes_inj (clash Users) User.ID (rows (w_db w Users)));
      [intros a b Hab; apply orb_true_iff; left; by apply Z.eqb_eq | by apply violated_clashes | done | done | congruence]). done.
  - exists s. split_and!; [by apply Hs | done..].
Qed.

Lemma at_home_id d : at_home d -> has_id Users (User.ID u) d = true.
Proof.
  intros (u' & Hf & Hid & _). pose proof (find_some _ _ Hf) as [Hin Heq]. unfold has_id. apply existsb_exists. by exists u'.
Qed.

Lemma wp_open_session w0 ip' ua (Q : result error (string * Z) -> world -> Prop) w :
  may_sign_in w0 -> sound w -> at_home (w_db w) -> w_db w Schema.Sessions = w_db w0 Schema.Sessions -> (w_clock w0 <= w_clock w)%Z ->
  (forall tok exp w', sound w' -> (w_clock w <= w_clock w')%Z -> tok <> EmptyString -> lasting tok (w_clock w0 + SessionTTL cfg) (w_db w') -> Q (Ok (tok, exp)) w') ->
  wp (CreateSession cfg u ip' ua) Q w.
Proof.
  intros Hm Hw Hh Hs Hc HQ. apply wp_bind_err, wp_random; [lia |]. intros n b Hb Hne. cbv zeta.
  apply wp_bind, wp_now. intros now ts Hnow. apply wp_bind_err. apply wp_bind, wp_now. intros now' ts' Hnow'.
  set (w1 := mkWorld _ now' ts' _ _). assert (sound w1) as Hw1 by exact Hw. cbn [w_clock] in *.
  apply wp_bind_err. cbn [Session.UserID Session.TokenHash Session.ExpiresAt Session.IP Session.UserAgent].
  set (mk := fun id => Session.mk id _ _ _ _ _ _). apply wp_sql_sound; [done | |].
  - apply violated_insert_linked; [apply Hw | |].
    + cbn [w1 w_db]. rewrite Hs. intros y Hy. apply orb_false_iff. split.
      * apply Z.eqb_neq, Z.lt_neq. eapply Z.le_lt_trans; [exact (m_drawn _ Hm y Hy) | apply Z.lt_succ_diag_r].
      * apply str_is_ne. exact (m_fresh _ Hm n b y Hb Hy).
    + change (has_id Users (User.ID u) (w_db w) && true = true). by rewrite (at_home_id _ Hh).
  - intros w2 Hw2. apply wp_Ret, wp_Ret, HQ; [exact Hw2 | cbn [w2 with_db w_clock w1]; lia | done |]. split.
    + unfold at_home. cbn [w2 with_db w_db]. by rewrite insert_ne.
    + exists (mk (seq (w_db w Schema.Sessions) + 1)%Z). cbn [w2 with_db w_db]. rewrite insert_eq. cbn [rows]. split_and!; [| done | done |].
      * apply elem_of_app. right. by apply list_elem_of_singleton.
      * unfold mk. cbn [Session.ExpiresAt]. lia.
Qed.

(** What is set on signing in: the cookie of the session, and that of the page. *)
Definition session_cookies (session : string) (cs : list Cookie) : list Cookie :=
  setCookie always tls forwarded sessionCookie session (Z.quot (SessionTTL cfg) Second) true :: cs.

Lemma wp_submitted w0 t j method uri tok next (Q : Gate.login_result * list Cookie -> world -> Prop) w :
  may_sign_in w0 -> sound w -> w_db w = w_db w0 -> (w_clock w0 <= w_clock w)%Z -> sent t j csrfCookie = Some tok -> tok <> EmptyString ->
  (forall session dest tok' cs w', sound w' -> (w_clock w0 <= w_clock w')%Z -> session <> EmptyString -> lasting session (w_clock w0 + SessionTTL cfg) (w_db w') ->
     tok' <> EmptyString -> csrf_kept t j tok' cs -> Q (Gate.SignedIn session dest, session_cookies session cs) w') ->
  wp (submit always tls forwarded cfg ldap sink (request t j method uri tok) ip username password next) Q w.
Proof.
  intros Hm Hw Hd Hc Hj Hne HQ. apply wp_bind. unfold Gate.handleLoginSubmit. rewrite echoed by done. cbn [negb]. cbv zeta.
  apply wp_bind. eapply wp_free_at; [exact Hm | done | done | done |]. intros wait w1 Hneg Hw1 Hd1 Hc1. destruct (Z.ltb_spec 0 wait); [lia |].
  apply wp_bind. eapply wp_checked_in; [exact Hm | done | done | done |]. intros w2 Hw2 Hh2 Hs2 Hc2.
  assert (forall key, beside [Users; Schema.Sessions] (Throttle.Reset_ key)) as Hreset by (intros key; split; guar_walk ltac:(frame)).
  apply wp_bind, wp_bind. eapply wp_beside; [apply Hreset | exact Hw2 |]. intros [] w3 Hw3 Hc3 Hk3.
  eapply wp_beside; [apply Hreset | exact Hw3 |]. intros [] w4 Hw4 Hc4 Hk4.
  apply wp_bind. eapply wp_open_session; [exact Hm | exact Hw4 | | | |].
  { unfold at_home. rewrite (Hk4 Users), (Hk3 Users) by (by left). exact Hh2. }
  { rewrite (Hk4 Schema.Sessions), (Hk3 Schema.Sessions) by (right; by left). exact Hs2. }
  { lia. }
  intros session exp w5 Hw5 Hc5 Hses Hl5. apply wp_bind.
  assert (forall a b c d e, beside [Users; Schema.Sessions] (Gate.auditIP sink a b c d e)) as Haudit
    by (intros; destruct (quiet_sink (if str_is a "" then "system"%string else a) b c d e); split; guar_walk ltac:(frame); done).
  eapply wp_beside; [apply Haudit | exact Hw5 |]. intros [] w6 Hw6 Hc6 Hk6. apply wp_Ret. unfold answer_login. apply wp_bind, wp_csrfToken; [exact Hw6 |].
  intros tok' cs w7 Hw7 Hd7 Hc7 Ht Hkeep. apply wp_Ret. cbn [fst snd]. eapply HQ; [exact Hw7 | lia | exact Hses | | exact Ht | exact Hkeep].
  rewrite Hd7. by eapply lasting_keeps.
Qed.

(** Without the CSRF cookie the form comes back, and time does not go back. *)
Lemma wp_expired_form t j method uri tok next (Q : Gate.login_result * list Cookie -> world -> Prop) w :
  sound w -> sent t j csrfCookie = None -> (forall a w', w_clock w' = w_clock w -> Q a w') ->
  wp (submit always tls forwarded cfg ldap sink (request t j method uri tok) ip username password next) Q w.
Proof.
  intros Hw Hj HQ. apply wp_bind. unfold Gate.handleLoginSubmit, Gate.checkCSRF. cbn [Gate.cookie_csrf request]. rewrite Hj. cbn [negb].
  apply wp_Ret. unfold answer_login, renderLogin. apply wp_bind, wp_bind, wp_csrfToken; [exact Hw |]. intros tok' cs w' _ _ Hc _ _. by apply wp_Ret, wp_Ret, HQ.
Qed.

(** While the session and its cookie last their holder is let in. *)
Lemma wp_let_in session e t j method uri form w :
  sound w -> lasting session e (w_db w) -> sent t j sessionCookie = Some session -> session <> EmptyString ->
  (Gate.safe_method method = false -> sent t j csrfCookie = Some form /\ form <> EmptyString) ->
  wp (Gate.requireUser (request t j method uri form)) (fun v w' => (w_clock w' < e)%Z ->
    exists u', v = Gate.Pass u' None /\ User.ID u' = User.ID u /\ User.Role u' = User.Role u) w.
Proof.
  intros Hw [(u' & Hf & Hid & Hr & Hd) (s & Hin & Hh & Hu & He)] Hj Hne Ht. unfold Gate.requireUser.
  assert (negb (Gate.safe_method (Gate.Method (request t j method uri form))) && negb (Gate.checkCSRF (request t j method uri form)) = false) as ->.
  { cbn [Gate.Method request]. destruct (Gate.safe_method method) eqn:Es; [done |]. destruct (Ht eq_refl). by rewrite echoed. }
  apply wp_bind. unfold Gate.userFromRequest. cbn [Gate.cookie_session request]. rewrite Hj, (proj2 (str_is_ne _ _) Hne).
  apply wp_bind. unfold UserFromSession. rewrite (proj2 (str_is_ne _ _) Hne). apply wp_bind_err. unfold Store.SessionUser.
  apply wp_bind, wp_now. intros now ts Hnow. apply wp_row_sound; [exact Hw |]. cbn [w_db]. unfold select1.
  set (p := fun x => _ && _).
  destruct (Z.lt_ge_cases now e) as [Hlt | Hge].
  - assert (p s = true) as Hps by (apply andb_true_iff; split; [by apply str_is_eq | apply Z.ltb_lt; lia]).
    destruct (find_elem p _ s Hin Hps) as [s' Hs']. pose proof (find_some _ _ Hs') as [Hin'%list_elem_of_In [Hh'%str_is_eq _]%andb_true_iff].
    assert (s' = s) as ->.
    { apply (clashes_inj (clash Schema.Sessions) Session.TokenHash (rows (w_db w Schema.Sessions))); [| apply violated_clashes, Hw | done | done | congruence].
      intros a b Hab. apply orb_true_iff. right. by apply str_is_eq. }
    rewrite Hs'. cbn [mbind option_bind]. rewrite Hu.
    match goal with |- context [List.find ?q (rows (w_db w Users))] => replace (List.find q (rows (w_db w Users))) with (Some u') by (symmetry; exact Hf) end.
    apply wp_Ret, wp_Ret, wp_Ret. rewrite Hd. intros _. exists u'. done.
  - match goal with |- context [mbind ?f ?o] => destruct (mbind f o) as [x |] end; repeat apply wp_Ret; cbn [w_clock]; intros Hlt; exfalso; lia.
Qed.

(** What the browser holds after signing in at [t]: the session's cookie for the
    whole seconds of its time, the CSRF cookie for as long as [D]. *)
Record holds (t : Z) (D : option Z) (j : jar) (session : string) : Prop := {
  h_session s : (s < t + Z.quot (SessionTTL cfg) Second * Second)%Z -> sent s j sessionCookie = Some session;
  h_some : session <> EmptyString;
  h_csrf : exists tok, tok <> EmptyString /\ forall s, alive s D = true -> sent s j csrfCookie = Some tok }.

Lemma holds_cookies t0 D t now j tok tok' session cs :
  holds_csrf t0 D j tok -> sent t j csrfCookie = Some tok -> csrf_kept t j tok' cs -> (t0 <= now)%Z -> session <> EmptyString -> tok' <> EmptyString ->
  holds t0 D (keep now j (session_cookies session cs)) session.
Proof.
  intros Hh Hs Hk Hnow Hne Hne'. assert (0 <= Z.quot (SessionTTL cfg) Second)%Z as Hq by (apply Z.quot_pos; [lia | done]).
  change (keep now j (session_cookies session cs)) with (keep now (keep_one now j (setCookie always tls forwarded sessionCookie session (Z.quot (SessionTTL cfg) Second) true)) cs).
  set (j1 := keep_one _ _ _).
  assert (j1 !! sessionCookie = Some (session, if (Z.quot (SessionTTL cfg) Second =? 0)%Z then None else Some (now + Z.quot (SessionTTL cfg) Second * Second)%Z)
          /\ j1 !! csrfCookie = j !! csrfCookie) as [Hj1 Hj1'].
  { unfold j1, keep_one. cbn [setCookie c_MaxAge c_Name c_Value]. destruct (Z.ltb_spec (Z.quot (SessionTTL cfg) Second) 0); [lia |].
    split; [apply lookup_insert_eq | by apply lookup_insert_ne]. }
  split; [| done |].
  - intros s Hlt. unfold sent. rewrite (kept_others _ _ _ _ _ _ Hk), Hj1 by done. destruct (Z.quot (SessionTTL cfg) Second =? 0)%Z; [done |].
    unfold alive. rewrite (proj2 (Z.ltb_lt _ _)); [done | lia].
  - exists tok'. split; [done |]. intros s. eapply sent_csrf, later_csrf; [| | | exact Hnow]; [unfold holds_csrf; rewrite Hj1'; exact Hh | unfold sent; rewrite Hj1'; exact Hs |].
    destruct Hk as [(-> & Hk & Hl) | (-> & Hk)]; [left | right]; unfold sent in *; by rewrite Hj1'.
Qed.

Lemma wp_sign_in j next w :
  may_sign_in w -> sent (w_clock w) j sessionCookie = None ->
  wp (sign_in always tls forwarded cfg ldap sink j ip username password next) (fun rj w1 =>
    alive (w_clock w1) (csrf_until (w_clock w) j) = true ->
    exists session dest, fst rj = Some (Gate.SignedIn session dest) /\ holds (w_clock w) (csrf_until (w_clock w) j) (snd rj) session /\
      lasting session (w_clock w + SessionTTL cfg) (w_db w1)) w.
Proof.
  intros Hm Hj. unfold sign_in. apply wp_bind, wp_act. cbn [fst snd]. apply wp_bind. unfold handleLoginPage, Gate.userFromRequest.
  cbn [Gate.cookie_session request]. rewrite Hj. apply wp_bind, wp_Ret. unfold renderLogin. apply wp_bind, wp_csrfToken; [apply (m_sound _ Hm) |].
  intros tok cs w2 Hw2 Hd2 Hc2 Hne Hkeep. apply wp_Ret. cbn [fst snd]. apply wp_bind, wp_act. cbn [fst snd]. rewrite Hc2.
  apply opened_csrf in Hkeep as Hh. set (j1 := keep (w_clock w) j cs) in *. apply wp_bind, wp_now. intros t1 ts Ht1. rewrite Hc2 in Ht1.
  set (w3 := mkWorld _ t1 ts _ _). assert (sound w3) as Hw3 by exact Hw2. apply wp_bind.
  destruct (sent t1 j1 csrfCookie) as [c |] eqn:Hs.
  - assert (c = tok) as -> by (destruct Hh as (until & Hj1 & _); apply sent_Some in Hs as (? & Hs & _); congruence).
    eapply (wp_submitted w); [exact Hm | exact Hw3 | exact Hd2 | exact Ht1 | exact Hs | exact Hne |].
    intros session dest tok' cs' w4 Hw4 Hc4 Hses Hl Hne' Hk'. apply wp_bind, wp_act. cbn [fst snd]. apply wp_Ret. intros _. cbn [fst snd].
    exists session, dest. split_and!; [done | | exact Hl]. by eapply holds_cookies.
  - eapply wp_expired_form; [exact Hw3 | exact Hs |]. intros a w' Hc. apply wp_bind, wp_act. apply wp_Ret. cbn [fst snd]. rewrite Hc.
    cbn [w3 w_clock]. intros Ha. by rewrite (sent_csrf _ _ _ _ _ Hh Ha) in Hs.
Qed.

End sign_in.
(** ** Flash messages *)

Section flash.
Context `{Std : Pki.Std} `{Ciphers} `{Passwords} `{RowOrder}.
Context (always tls : bool) (forwarded : string) (decode : string -> option string).
Hypothesis decodes : forall s, decode (rawurl s) = Some s.
Hypothesis encodes : forall s, rawurl s = EmptyString -> s = EmptyString.

Lemma split_first_bar kind text :
  (forall c, c ∈ String.list_ascii_of_string kind -> c <> "|"%char) -> split_bar (kind +:+ "|" +:+ text)%go = Some (kind, text).
Proof.
  induction kind as [| c kind IH]; intros Hc; [done |].
  change ((String c kind +:+ "|" +:+ text)%go) with (String c (kind +:+ "|" +:+ text)%go). cbn [split_bar].
  rewrite (proj2 (Ascii.eqb_neq _ _)) by (apply Hc; left). rewrite IH; [done |]. intros d Hd. apply Hc. by right.
Qed.

(** A message is shown by the next page, opened within half a minute, and by no
    later one; not so by an error page, which shows it and leaves it for the
    next. *)
Theorem flash_is_shown_once kind text t s s' j :
  (forall c, c ∈ String.list_ascii_of_string kind -> c <> "|"%char) -> (s < t + 30 * Second)%Z ->
  let j1 := keep t j [flash always tls forwarded kind text] in
  exists cs, takeFlash always tls forwarded decode (sent s j1 flashCookie) = (Some (kind, text), cs) /\
    fst (takeFlash always tls forwarded decode (sent s' (keep s j1 cs) flashCookie)) = None.
Proof.
  intros Hk Hs j1. assert (sent s j1 flashCookie = Some (rawurl (kind +:+ "|" +:+ text)%go)) as Hj1.
  { unfold j1, keep, keep_one, flash, sent. cbn [fold_left setCookie c_MaxAge c_Name c_Value]. change (30 <? 0)%Z with false. change (30 =? 0)%Z with false. cbv iota.
    rewrite lookup_insert_eq. unfold alive. by rewrite (proj2 (Z.ltb_lt _ _)). }
  unfold takeFlash. rewrite Hj1, (proj2 (str_is_ne _ _)), decodes, split_first_bar; [| done | intros E%encodes; by destruct kind].
  eexists. split; [done |]. unfold keep, keep_one, sent. cbn [fold_left setCookie c_MaxAge c_Name]. change (-1 <? 0)%Z with true. cbv iota.
  by rewrite lookup_delete_eq.
Qed.

Theorem error_pages_leave_the_flash t j r w :
  let page := fst (run (renderError always tls forwarded decode (sent t j flashCookie) r) w) in
  fst (takeFlash always tls forwarded decode (sent t (keep t j (snd page)) flashCookie)) = p_Flash (fst page).
Proof.
  unfold renderError, render. destruct (takeFlash always tls forwarded decode (sent t j flashCookie)) as [f cs] eqn:E. rewrite !run_bind. cbn [fst snd run].
  unfold keep. cbn [fold_left]. by rewrite E.
Qed.
End flash.

(** ** On a server with one account *)

Definition browser_in (j : jar) : prog world (option Gate.login_result * jar) :=
  sign_in true false "" AuthFacts.login_cfg None Sample.no_sink j "10.0.0.9" " Admin" "secret" "/cas".
Definition signed_in : world := snd (run (browser_in ∅) AuthFacts.portal).
Definition her_cookies : jar := snd (fst (run (browser_in ∅) AuthFacts.portal)).


Lemma portal_sound : sound AuthFacts.portal.
Proof. split; vm_compute; reflexivity. Qed.
Lemma admin_may_sign_in : may_sign_in AuthFacts.login_cfg AuthFacts.admin " Admin" "secret" "10.0.0.9" AuthFacts.portal.
Proof.
  split; [exact portal_sound | intros x Hx; by apply not_elem_of_nil in Hx | by left | | vm_compute; reflexivity | split; vm_compute; discriminate |
    split_and!; vm_compute; reflexivity | vm_compute; reflexivity | vm_compute; reflexivity | intros key _; vm_compute; lia |
    intros n b s _ Hs; by apply not_elem_of_nil in Hs].
  intros x [-> | Hx]%elem_of_cons _; [done | by apply not_elem_of_nil in Hx].
Qed.

(** Eleven hours later, with another account that is signed in and her last
    sign-in forgotten. *)
Definition others_too : world :=
  mkWorld (set_table Users (mkTable [User.mk 2 "bob" "local" "" "" "user" false "" 0 None : row Users; AuthFacts.admin] 2)
    (set_table Schema.Sessions (mkTable ((Session.mk 2 2 "bob's" (100 * Hour) 0 "" "" : row Schema.Sessions) :: rows (w_db signed_in Schema.Sessions)) 2) (w_db signed_in)))
    (w_clock signed_in + 11 * Hour) [] [] 0.

Lemma others_too_sound : sound others_too.
Proof. split; vm_compute; reflexivity. Qed.
Lemma left_to_herself session : left_alone AuthFacts.admin session (w_db signed_in) (w_db others_too).
Proof.
  split.
  - exists AuthFacts.admin. split; [| done]. change (rows (w_db others_too Users)) with [User.mk 2 "bob" "local" "" "" "user" false "" 0 None : row Users; AuthFacts.admin]. right. left.
  - intros s Hs _. change (rows (w_db others_too Schema.Sessions)) with ((Session.mk 2 2 "bob's" (100 * Hour) 0 "" "" : row Schema.Sessions) :: rows (w_db signed_in Schema.Sessions)). by right.
Qed.


Definition leave (j : jar) : prog world jar := sign_out true false "" Sample.no_sink j "10.0.0.9".
Definition stolen : Gate.Request := request (w_clock signed_in) her_cookies "GET" "/cas" "".

Lemma signed_in_sound : sound signed_in.
Proof. split; vm_compute; reflexivity. Qed.

Lemma signing_out_is_final_witness :
  (fst (run (AuthFacts.run_gate AuthFacts.Page stolen) signed_in) <> Gate.ToLogin "/cas"%string /\
   fst (run (leave her_cookies) signed_in) !! sessionCookie = None) /\
  fst (run (AuthFacts.run_gate AuthFacts.Page stolen) (snd (run (leave her_cookies) signed_in))) <> Gate.Pass AuthFacts.admin None.
Proof.
  destruct (signing_out_is_final true false "" Sample.no_sink (fun _ _ _ _ _ => Logic.I) her_cookies _ "10.0.0.9" signed_in
    (fst (run (leave her_cookies) signed_in)) (snd (run (leave her_cookies) signed_in)) signed_in_sound
    (eq_refl : sent (w_clock signed_in) her_cookies sessionCookie = Some "rrrrrrrrrrrrrrrrrrrrrrrrrrrrrrrr"%string) (surjective_pairing _)) as [Hj Hout].
  split; [split; [vm_compute; discriminate | exact Hj] |]. apply Hout; [exact (fun H => H) | vm_compute; reflexivity | vm_compute; reflexivity].
Defined.

(** Sixteen minutes and an expired session: the janitor has something to do. *)
Definition stale_rows : db :=
  set_table AuthFailures (mkTable [AuthFailure.mk 1 "user:admin" 900 : row AuthFailures] 1)
  (set_table Schema.Sessions (mkTable [Session.mk 1 1 "old" 900 0 "" "" : row Schema.Sessions] 1) (w_db AuthFacts.portal)).
Definition later : world := mkWorld stale_rows (1000 + 16 * Minute) [] [] 0.

Lemma purge_is_invisible_witness :
  (rows (w_db (snd (run (janitor 2) later)) Schema.Sessions) = [] /\ rows (w_db (snd (run (janitor 2) later)) AuthFailures) = []) /\
  let w2 := with_db (w_db (snd (run (janitor 2) later))) later in
  (forall token, fst (run (UserFromSession token) w2) = fst (run (UserFromSession token) later)) /\
  (forall nonce, fst (run (NonceManager.Consume nonce) w2) = fst (run (NonceManager.Consume nonce) later)) /\
  (forall key, fst (run (Throttle.retryAfter key) w2) = fst (run (Throttle.retryAfter key) later)).
Proof.
  split; [split; vm_compute; reflexivity |].
  apply (purge_is_invisible 2 later (snd (run (janitor 2) later)) later); [vm_compute; reflexivity | | reflexivity | vm_compute; discriminate].
  destruct (run (janitor 2) later) as [[] w']. done.
Defined.

(** ** What falls short *)

(** The error of ending the session is dropped: the browser forgets the cookie,
    and whoever else has it is still let in. *)
Definition failing_delete : world := with_faults [None; None; Some "database is locked"%string] signed_in.

Theorem failed_sign_out_leaves_the_session :
  let '(j, w) := run (leave her_cookies) failing_delete in
  j !! sessionCookie = None /\ exists u, fst (run (AuthFacts.run_gate AuthFacts.Page stolen) w) = Gate.Pass u None.
Proof. vm_compute. split; [reflexivity | eexists; reflexivity]. Qed.

(** The token in the forms of an error page is of no use to a browser that had
    none: its cookie was set too late to be sent. *)
Theorem error_pages_have_dead_forms :
  let '(page, cs) := fst (run (renderError true false "" Some None (request 1000 ∅ "GET" "/nowhere" "")) AuthFacts.portal) in
  p_CSRF page <> EmptyString /\ Gate.checkCSRF (request 1000 (keep 1000 ∅ cs) "POST" "/logout" (p_CSRF page)) = false.
Proof. vm_compute. split; [discriminate | reflexivity]. Qed.
End SessionFacts.
