(* ===== verification/AccountFacts.v ===== *)
(** * Whose account a sign-in opens

    Behind every kind of sign-in: the row of the user a directory or a provider
    describes, and the session that is opened for it, whatever statement the
    driver fails. *)

From S2P Require Import Prelude GoStrings Effects Models Schema SqlFacts TableFacts Store Pki Sealing CaService Auth Gate.

Module AccountFacts.
Import Auth.

Section accounts.
Context `{Std : Pki.Std} `{Ciphers} `{Passwords} `{RowOrder}.

(** The account with this number, as somebody who signs in sees it. *)
Definition has_account (uid : Z) (name source role : string) (d : db) : Prop :=
  exists x, x ∈ rows (d Users) /\ User.ID x = uid /\ User.Username x = name /\ User.Source x = source /\ User.Role x = role.
(** The session of this token is that account's. *)
Definition session_for (token : string) (uid : Z) (d : db) : Prop :=
  exists s, s ∈ rows (d Schema.Sessions) /\ Session.TokenHash s = HashToken token /\ Session.UserID s = uid.

(** The names the store tells apart. *)
Definition same_name (a b : string) : Prop := Str.ToLower a = Str.ToLower b.

(** The account a directory or a provider means by a name: of its source, and
    an administrator's if the groups make it one, or if it was. *)
Definition account_of (d : db) (src iname : string) (iadmin : bool) (name source role : string) : Prop :=
  same_name name iname /\ source = src /\ (iadmin = true -> role = RoleAdmin) /\
  (role = RoleAdmin -> iadmin = true \/ exists x, x ∈ rows (d Users) /\ same_name (User.Username x) iname /\ User.Role x = RoleAdmin).

Lemma wp_user_named name (Q : result error User.t -> world -> Prop) w :
  (forall e fs, Q (Err e) (with_faults fs w)) ->
  (forall u fs, u ∈ rows (w_db w Users) -> same_name (User.Username u) name -> Q (Ok u) (with_faults fs w)) ->
  wp (Store.GetUserByName name) Q w.
Proof.
  intros He Hok. apply wp_query_row; [intros; apply He .. |]. intros fs u Hu.
  apply head_Some_elem_of, elem_of_scan, elem_of_select_where in Hu as [Hin Hn%str_is_eq]. by apply Hok.
Qed.

Lemma wp_user_found id (Q : result error User.t -> world -> Prop) w :
  (forall e fs, Q (Err e) (with_faults fs w)) ->
  (forall u fs, u ∈ rows (w_db w Users) -> User.ID u = id -> Q (Ok u) (with_faults fs w)) ->
  wp (Store.GetUser id) Q w.
Proof.
  intros He Hok. apply wp_query_row; [intros; apply He .. |]. intros fs u Hu.
  apply find_some in Hu as [Hin%list_elem_of_In Hid%Z.eqb_eq]. by apply Hok.
Qed.

Lemma users_by_id d x y : violated d = None -> x ∈ rows (d Users) -> y ∈ rows (d Users) -> User.ID x = User.ID y -> x = y.
Proof.
  intros Hv. apply (clashes_inj (clash Users) User.ID); [| by apply violated_clashes].
  intros a b Hab. apply orb_true_iff. left. by apply Z.eqb_eq.
Qed.

Section upsert.
Context (u : User.t).
Hypothesis with_source : nonempty (Str.TrimSpace (User.Source u)) = true.
Hypothesis with_role : nonempty (Str.TrimSpace (User.Role u)) = true.

Definition refreshed_row (x : User.t) (d : db) : Prop :=
  x ∈ rows (d Users) /\ same_name (User.Username x) (User.Username u) /\ User.Source x = User.Source u /\ User.Role x = User.Role u.

Lemma wp_upsertUserOnce w :
  wp (Store.upsertUserOnce u) (fun r w' => match r with Ok x => refreshed_row x (w_db w') | Err _ => True end) w.
Proof.
  apply wp_bind, wp_user_named.
  - intros e fs. destruct (is_not_found e); [| by apply wp_Ret]. apply wp_bind, wp_now. intros now ts _. apply wp_bind_err, wp_sql; [done |].
    intros fs' Hv. set (mk := fun id => User.mk id _ _ _ _ _ _ _ _ _) in *. apply wp_user_found; [done |]. cbn [with_db w_db insert fst].
    intros x fs'' Hx Hid. unfold refreshed_row. cbn [with_faults with_db w_db] in *.
    assert (x = mk (seq (w_db w Users) + 1)%Z) as ->.
    { apply (users_by_id _ _ _ Hv); [exact Hx | | exact Hid]. rewrite insert_eq. apply elem_of_app. right. by apply list_elem_of_singleton. }
    split; [exact Hx |]. unfold mk. cbn [User.Username User.Source User.Role]. unfold nz. by rewrite with_source, with_role.
  - intros ex fs Hex Hname. apply wp_bind_err, wp_exec; [done |]. cbn [with_faults with_db w_db]. intros fs' Hv.
    apply wp_user_found; [done |]. cbn [with_faults with_db w_db]. intros x fs'' Hx Hid. unfold refreshed_row. cbn [with_faults with_db w_db].
    set (p := fun r => _) in *. set (f := Store.refreshed u ex) in *.
    assert (x = f ex) as ->.
    { apply (users_by_id _ _ _ Hv); [exact Hx | | exact Hid]. rewrite update_eq. apply elem_of_update_where. exists ex. split; [done |].
      unfold p. by rewrite Z.eqb_refl. }
    split; [exact Hx |]. unfold f, Store.refreshed. cbn [User.Username User.Source User.Role]. unfold nz. by rewrite with_source, with_role.
Qed.

Lemma wp_UpsertUser w :
  wp (Store.UpsertUser u) (fun r w' => match r with Ok x => refreshed_row x (w_db w') | Err _ => True end) w.
Proof.
  apply wp_bind. eapply wp_mono; [apply wp_upsertUserOnce |]. intros [x | e] w1 Hx; [by apply wp_Ret |].
  apply wp_bind, wp_user_named; intros; [by apply wp_Ret | apply wp_upsertUserOnce].
Qed.
End upsert.

(** The account is what it was for whoever only signs in. *)
Definition same_accounts (d d' : db) : Prop := forall uid name source role, has_account uid name source role d -> has_account uid name source role d'.

Lemma wp_touched id w :
  wp (Store.TouchLogin id) (fun _ w' => same_accounts (w_db w) (w_db w')) w.
Proof.
  apply wp_bind, wp_now. intros now ts _. apply wp_exec; [intros e fs uid name source role Hx; exact Hx |]. cbn [with_faults with_db w_db].
  intros fs Hv uid name source role (x & Hx & Hall). unfold has_account. rewrite update_eq. cbn [rows]. eexists. split.
  - apply elem_of_update_where. exists x. split; [exact Hx | reflexivity].
  - by destruct (User.ID x =? id)%Z.
Qed.

Lemma wp_syncDirectoryUser src username displayName email isAdmin w :
  nonempty (Str.TrimSpace src) = true ->
  wp (syncDirectoryUser src username displayName email isAdmin) (fun r w' => match r with
    | Ok u => exists name source role, has_account (User.ID u) name source role (w_db w') /\
                account_of (w_db w) src username isAdmin name source role
    | Err _ => True end) w.
Proof.
  intros Hsrc.
  assert (forall role w0, nonempty (Str.TrimSpace role) = true -> (isAdmin = true -> role = RoleAdmin) ->
    (role = RoleAdmin -> isAdmin = true \/ exists x, x ∈ rows (w_db w Users) /\ same_name (User.Username x) username /\ User.Role x = RoleAdmin) ->
    wp (u <-! Store.UpsertUser (new_user username src displayName email role "") ;; Store.TouchLogin (User.ID u) ;;; Ret (Ok u))%prog (fun r w' =>
      match r with Ok u => exists name source role, has_account (User.ID u) name source role (w_db w') /\
                             account_of (w_db w) src username isAdmin name source role | Err _ => True end) w0) as Hup.
  { intros role w0 Hrole Hto Hfrom. apply wp_bind_err. eapply wp_mono; [by apply (wp_UpsertUser (new_user username src displayName email role "")) |].
    intros [x | e] w1; [| done]. intros (Hin & Hn & Hs & Hr). apply wp_bind. eapply wp_mono; [apply wp_touched |]. intros t w2 Hsame. apply wp_Ret.
    exists (User.Username x), src, role. split; [| by split].
    apply Hsame. exists x. cbn [new_user User.Source User.Role] in *. done. }
  apply wp_bind, wp_user_named.
  - intros e fs. apply Hup; destruct isAdmin; [done .. | by left | discriminate].
  - intros ex fs Hex Hname. destruct (User.Disabled ex); [by apply wp_Ret |]. destruct (str_is (User.Role ex) RoleAdmin) eqn:Hr.
    + apply Hup; [done | done |]. intros _. right. exists ex. apply str_is_eq in Hr. done.
    + apply Hup; destruct isAdmin; [done .. | by left | discriminate].
Qed.

Lemma wp_CreateSession cfg u ip ua w :
  wp (CreateSession cfg u ip ua) (fun r w' => same_accounts (w_db w) (w_db w') /\
    match r with Ok (tok, _) => session_for tok (User.ID u) (w_db w') | Err _ => True end) w.
Proof.
  apply wp_bind_err, wp_bind, wp_act. apply wp_Ret. cbn [fst snd]. destruct (rand_Read (w_draws w) 32) as [b |]; [| by split; [intros ? |]].
  apply wp_bind, wp_now. intros now ts _. apply wp_bind_err. apply wp_bind, wp_now. intros now' ts' _. apply wp_bind_err, wp_sql; [by split; [intros ? |] |].
  intros fs Hv. apply wp_Ret, wp_Ret. cbn [with_faults with_db w_db]. split.
  - intros uid name source role. unfold has_account. by rewrite insert_ne.
  - eexists. rewrite insert_eq. cbn [rows]. split; [apply elem_of_app; right; by apply list_elem_of_singleton | done].
Qed.

(** A sink that writes to neither table. *)
Context (cfg : Config).
Context (sink : string -> string -> string -> string -> string -> prog world unit).
Hypothesis quiet_sink : forall a b c d e, guar (on_db (keeps [Users; Schema.Sessions])) (sink a b c d e).

Lemma wp_finishLogin u next ip ua w :
  wp (Gate.finishLogin cfg sink u next ip ua) (fun l w' => match l with
    | Gate.SignedIn token dest => session_for token (User.ID u) (w_db w') /\ same_accounts (w_db w) (w_db w') /\ dest = Gate.login_dest next
    | Gate.LoginForm _ _ => True end) w.
Proof.
  apply wp_bind. eapply wp_mono; [apply wp_CreateSession |]. intros [[tok exp] | e] w1 [Ha Hs]; [| by apply wp_Ret].
  apply wp_bind. assert (forall a b c d e, guar (on_db (keeps [Users; Schema.Sessions])) (Gate.auditIP sink a b c d e)) as Haudit
    by (intros a b c d e; pose proof (quiet_sink (if str_is a "" then "system"%string else a) b c d e); guar_walk ltac:(frame); done).
  eapply wp_mono; [apply (wp_guar (keeps [Users; Schema.Sessions])); [apply _ | apply _ | apply Haudit] |].
  intros t w2 Hk. apply wp_Ret. unfold session_for, same_accounts, has_account in *. rewrite !Hk by set_solver. done.
Qed.
End accounts.
End AccountFacts.
