(* ===== verification/DirectoryFacts.v ===== *)
(** * What a sign-in through a directory or a provider guarantees

    Whose password opened a session, whose ID token did, and whose account the
    session is; which groups admit a person and make an administrator, against
    a declarative reading of the comparison; and where that comparison sees
    less than it is given. *)

From S2P Require Import Prelude GoStrings Effects Models Schema SqlFacts TableFacts Store Pki Sealing CaService Auth Gate Directory AccountFacts Sample.

Module DirectoryFacts.
Import AccountFacts.

(** ** Groups *)

(** Two group values name the same group: as a whole or by their common name,
    on either side. *)
Definition same_group (h w : string) : Prop :=
  exists s, (s = LdapAuth.norm h \/ s = LdapAuth.cn h) /\ (s = LdapAuth.norm w \/ s = LdapAuth.cn w).

Lemma existsb_str (s : string) l : existsb (str_is s) l = true <-> s ∈ l.
Proof.
  rewrite List.existsb_exists, list_elem_of_In. split.
  - intros (x & Hx & ->%str_is_eq). done.
  - intros Hs. exists s. split; [done | apply str_is_refl].
Qed.

(** Membership of one list of groups in another holds exactly when some
    group of the first is some group of the second, compared as a whole or by
    common name and without regard to case or surrounding space. *)
Theorem matchesAny_iff have want :
  LdapAuth.matchesAny have want = true <-> exists h w, h ∈ have /\ w ∈ want /\ same_group h w.
Proof.
  unfold LdapAuth.matchesAny. transitivity (exists w h, w ∈ want /\ h ∈ have /\ same_group h w); [| naive_solver].
  set (mem := fun s => existsb (str_is s) (flat_map (fun h => [LdapAuth.norm h; LdapAuth.cn h]) have)).
  assert (forall s, mem s = true <-> exists h, h ∈ have /\ (s = LdapAuth.norm h \/ s = LdapAuth.cn h)) as Hmem.
  { intros s. unfold mem. rewrite existsb_str, list_elem_of_In, List.in_flat_map. setoid_rewrite <- list_elem_of_In at 1. split.
    - intros (h & Hh & [<- | [<- | []]]); eauto.
    - intros (h & Hh & [-> | ->]); exists h; simpl; auto. }
  destruct (Nat.eqb_spec (length have) 0) as [H0 | _].
  { apply length_zero_iff_nil in H0 as ->. split; [done |]. intros (w & h & _ & Hh & _). by apply not_elem_of_nil in Hh. }
  destruct (Nat.eqb_spec (length want) 0) as [H0 | _].
  { apply length_zero_iff_nil in H0 as ->. split; [done |]. intros (w & h & Hw & _). by apply not_elem_of_nil in Hw. }
  cbn [orb]. fold mem. split.
  - intros (w & Hw%list_elem_of_In & [(h & Hh & Hs)%Hmem | (h & Hh & Hs)%Hmem]%orb_true_iff)%List.existsb_exists;
      exists w, h; unfold same_group; eauto 10.
  - intros (w & h & Hw%list_elem_of_In & Hh & s & Hs & Hsw). apply List.existsb_exists. exists w. split; [done |].
    apply orb_true_iff. destruct Hsw as [-> | ->]; [left | right]; apply Hmem; eauto.
Qed.

(** One of these is a group of the list. *)
Definition member (have want : list string) : Prop := exists h w, h ∈ have /\ w ∈ want /\ same_group h w.

(** ** Who a password signs in *)

Section ldap.
Context `{LdapAuth.Directory}.
Context (lcfg : LdapAuth.Config).
(** A distinguished name and the password the directory keeps for it. *)
Context (has_password : string -> string -> Prop).

(** RFC 4513: a simple bind with a password succeeds only for the name it
    belongs to.  One without a password is anonymous, and succeeds for any. *)
Definition bind_checks : Prop :=
  forall conn dn password, password <> "" ->
    returns (fun _ : world => True) (fun r => match r with Ok _ => has_password dn password | Err _ => True end)
      (LdapAuth.Bind conn dn password).

(** What the directory has for a search; a search that succeeds returns that. *)
Context (found : LdapAuth.SearchRequest -> list LdapAuth.Entry -> Prop).
Definition search_finds : Prop :=
  forall conn rq,
    returns (fun _ : world => True) (fun r => match r with Ok es => found rq es | Err _ => True end) (LdapAuth.Search conn rq).

(** Asking the directory touches nothing of the store. *)
Record apart : Prop := {
  a_read path : guar (on_db eq) (LdapAuth.os_ReadFile path);
  a_dial url tc timeout : guar (on_db eq) (LdapAuth.DialURL url tc timeout);
  a_timeout conn timeout : guar (on_db eq) (LdapAuth.SetTimeout conn timeout);
  a_tls conn tc : guar (on_db eq) (LdapAuth.conn_StartTLS conn tc);
  a_close conn : guar (on_db eq) (LdapAuth.Close conn);
  a_bind conn dn password : guar (on_db eq) (LdapAuth.Bind conn dn password);
  a_search conn rq : guar (on_db eq) (LdapAuth.Search conn rq) }.

(** Under this base the directory has these entries for the filter. *)
Definition has_entries (base filter : string) (es : list LdapAuth.Entry) : Prop :=
  exists rq, LdapAuth.req_BaseDN rq = base /\ LdapAuth.req_Scope rq = LdapAuth.ScopeWholeSubtree /\ LdapAuth.Filter rq = filter /\ found rq es.

(** Whose name it is: the one the template makes, when there is one, or that of
    the only entry for the configured filter, whose groups are [own]. *)
Definition person (username : string) (id : LdapAuth.Identity) (own : list string) : Prop :=
  let tmpl := Str.TrimSpace (LdapAuth.UserDNTemplate lcfg) in
  if str_is tmpl "" then
    exists e, has_entries (LdapAuth.BaseDN lcfg)
        (Str.ReplaceAll (if str_is (LdapAuth.UserFilter lcfg) "" then "(uid=%s)" else LdapAuth.UserFilter lcfg) "%s" (LdapAuth.EscapeFilter username)) [e] /\
      LdapAuth.DN id = LdapAuth.entry_DN e /\ own = LdapAuth.GetAttributeValues e "memberOf" /\
      LdapAuth.Username id = (let v := LdapAuth.GetAttributeValue e (LdapAuth.AttrUsername lcfg) in if str_is (Str.TrimSpace v) "" then username else v)
  else LdapAuth.DN id = Str.ReplaceAll tmpl "%s" (LdapAuth.EscapeDN username) /\ LdapAuth.Username id = username /\ own = [].

(** The groups taken for a person's: those the group search finds, each by its
    name and the value of its group attribute, or else those of the entry. *)
Definition group_names (e : LdapAuth.Entry) : list string :=
  let v := LdapAuth.GetAttributeValue e (if str_is (LdapAuth.AttrGroup lcfg) "" then "cn"%string else LdapAuth.AttrGroup lcfg) in
  LdapAuth.entry_DN e :: if str_is v "" then [] else [v].
Definition in_groups (id : LdapAuth.Identity) (own : list string) : Prop :=
  LdapAuth.Groups id = own \/
  (LdapAuth.GroupFilter lcfg <> "" /\ exists es,
     has_entries (LdapAuth.GroupBaseDN lcfg) (LdapAuth.group_filter lcfg (LdapAuth.DN id) (LdapAuth.Username id)) es /\
     LdapAuth.Groups id = flat_map group_names es).

(** What the directory vouches for: a name and its password, and groups that
    admit; and whether they make an administrator. *)
Record vouched (username password : string) (id : LdapAuth.Identity) : Prop := {
  v_given : username <> "" /\ password <> "";
  v_password : has_password (LdapAuth.DN id) password;
  v_person : exists own, person username id own /\ in_groups id own;
  v_admitted : LdapAuth.AllowedGroups lcfg <> [] -> member (LdapAuth.DN id :: LdapAuth.Groups id) (LdapAuth.AllowedGroups lcfg);
  v_admin : LdapAuth.IsAdmin id = true <-> member (LdapAuth.DN id :: LdapAuth.Groups id) (LdapAuth.AdminGroups lcfg) }.

Lemma member_or (id : LdapAuth.Identity) want :
  LdapAuth.matchesAny (LdapAuth.Groups id) want || LdapAuth.matchesAny [LdapAuth.DN id] want = true <->
  member (LdapAuth.DN id :: LdapAuth.Groups id) want.
Proof.
  rewrite orb_true_iff, !matchesAny_iff. unfold member. split.
  - intros [(h & w & Hh & Hw) | (h & w & ->%list_elem_of_singleton & Hw)]; [exists h, w | exists (LdapAuth.DN id), w]; (split; [| done]); [by right | by left].
  - intros (h & w & [-> | Hh]%elem_of_cons & Hw); [right; exists (LdapAuth.DN id), w | left; by exists h, w]. split; [by apply list_elem_of_singleton | done].
Qed.

Lemma returns_with_conn I {A} (Q : result error A -> Prop) (body : LdapAuth.Conn -> M A) :
  (forall e, Q (Err e)) -> (forall conn, returns I Q (body conn)) -> returns I Q (LdapAuth.with_conn lcfg body).
Proof.
  intros He Hbody. unfold LdapAuth.with_conn. apply returns_skip. intros [conn | e]; [| apply He].
  eapply returns_bind; [apply Hbody |]. intros r Hr. by apply returns_skip.
Qed.

Lemma returns_resolve_user conn username :
  search_finds -> Str.TrimSpace username <> "" ->
  returns (fun _ => True) (fun r => match r with Ok id => exists own, person username id own /\ LdapAuth.Groups id = own | Err _ => True end)
    (LdapAuth.resolve_user lcfg conn username).
Proof.
  intros Hfind Hne. unfold LdapAuth.resolve_user, person. cbv zeta. unfold nonempty. destruct (str_is _ "") eqn:Ht.
  - unfold str_is in Ht. rewrite Ht. apply returns_skip. intros [[] | e]; [| done]. unfold LdapAuth.searchUser.
    eapply returns_bind; [apply Hfind |]. intros [[| e [| e' es]] | er] Hes; [done | | done ..]. cbn.
    exists (LdapAuth.GetAttributeValues e "memberOf"). split; [| done]. exists e.
    split; [eexists; split_and!; [| | | exact Hes]; reflexivity |]. split; [done |]. split; [done |].
    unfold LdapAuth.firstNonEmpty, CaService.firstNonEmpty. cbn [List.find]. unfold nonempty, str_is in *. cbv zeta.
    destruct (String.eqb (Str.TrimSpace (LdapAuth.GetAttributeValue e (LdapAuth.AttrUsername lcfg))) ""); cbn [negb]; [| done].
    apply String.eqb_neq in Hne. by rewrite Hne.
  - unfold str_is in Ht. rewrite Ht. cbn. by exists [].
Qed.

Lemma returns_searchGroups conn dn username :
  search_finds ->
  returns (fun _ => True) (fun r => match r with
    | Ok gs => exists es, has_entries (LdapAuth.GroupBaseDN lcfg) (LdapAuth.group_filter lcfg dn username) es /\ gs = flat_map group_names es
    | Err _ => True end) (LdapAuth.searchGroups lcfg conn dn username).
Proof.
  intros Hfind. unfold LdapAuth.searchGroups. eapply returns_bind; [apply Hfind |]. intros [es | e] Hes; [| done].
  exists es. split; [eexists; split_and!; [| | | exact Hes]; reflexivity |]. apply flat_map_ext. intros e. unfold group_names, nonempty. cbv zeta.
  unfold str_is. by destruct (String.eqb (LdapAuth.GetAttributeValue _ _) "").
Qed.

Lemma returns_with_groups conn id own :
  search_finds -> LdapAuth.Groups id = own ->
  returns (fun _ => True) (fun id' => LdapAuth.DN id' = LdapAuth.DN id /\ LdapAuth.Username id' = LdapAuth.Username id /\ in_groups id' own)
    (LdapAuth.with_groups lcfg conn id).
Proof.
  intros Hfind Hown. unfold LdapAuth.with_groups. destruct (_ && _) eqn:Hg; [| by split_and!; [| | left]].
  apply andb_true_iff in Hg as [_ Hf]. apply returns_skip. intros _.
  eapply returns_bind; [by apply returns_searchGroups |]. intros [gs | e] Hgs; [| by split_and!; [| | left]]. split_and!; [done.. |]. right.
  split; [intros E; by rewrite E in Hf | exact Hgs].
Qed.

Lemma returns_Authenticate username password :
  bind_checks -> search_finds ->
  returns (fun _ : world => True) (fun r => match r with Ok id => vouched username password id | Err _ => True end)
    (LdapAuth.Authenticate lcfg username password).
Proof.
  intros Hbind Hfind. unfold LdapAuth.Authenticate. destruct (str_is _ "") eqn:Hu; [done |]. cbn [orb].
  destruct (str_is password "") eqn:Hp; [done |]. apply str_is_ne in Hu, Hp.
  apply returns_with_conn; [done |]. intros conn. eapply returns_bind_err; [by apply returns_resolve_user | done |].
  intros id (own & Hperson & Hown). eapply returns_bind; [by apply Hbind |]. intros [[] | e]; [| done]. intros Hpw.
  eapply returns_bind; [by apply returns_with_groups |]. intros id' (Hdn & Hname & Hgroups). unfold LdapAuth.authorise.
  destruct (LdapAuth.admitted lcfg id') eqn:Ha; [| done]. simpl. split; cbn [LdapAuth.DN LdapAuth.Groups LdapAuth.IsAdmin].
  - split; [intros -> | done]. done.
  - by rewrite Hdn.
  - exists own. unfold person, in_groups in *. cbn [LdapAuth.DN LdapAuth.Groups LdapAuth.Username]. rewrite Hdn, Hname in *. done.
  - intros Hne. apply (member_or id'). unfold LdapAuth.admitted in Ha. rewrite <- orb_assoc in Ha.
    apply orb_true_iff in Ha as [Hz%Nat.eqb_eq%length_zero_iff_nil | Ha]; [done | exact Ha].
  - apply (member_or id').
Qed.

Lemma guar_client username password : apart -> guar (on_db eq) (LdapAuth.client lcfg username password).
Proof. intros [Hr Hd Ht Htls Hc Hb Hs]. guar_walk idtac. Qed.

(** *** Through the portal's form *)

Context `{Std : Pki.Std} `{Ciphers} `{Auth.Passwords} `{RowOrder}.
Context (cfg : Auth.Config).
Context (sink : string -> string -> string -> string -> string -> prog world unit).
Hypothesis quiet_sink : forall a b c d e, guar (on_db (keeps [Users; Schema.Sessions])) (sink a b c d e).

(** Whose session it may be: somebody's whose password was checked. *)
Definition checked (w : world) (username password : string) (uid : Z) (name source role : string) : Prop :=
  (exists u, u ∈ rows (w_db w Users) /\ same_name (User.Username u) (Str.TrimSpace username) /\ User.Source u = SourceLocal /\
     User.Disabled u = false /\ Auth.bcrypt_Compare (User.PassHash u) password = true /\
     uid = User.ID u /\ name = User.Username u /\ source = SourceLocal /\ role = User.Role u) \/
  (exists id, vouched (Str.TrimSpace username) password id /\
     account_of (w_db w) SourceLDAP (LdapAuth.Username id) (LdapAuth.IsAdmin id) name source role).

(** One slash, and no second one after it. *)
Definition one_slash (dest : string) : Prop :=
  Str.HasPrefix dest "/" = true /\ Str.HasPrefix dest "//" = false.

Lemma login_dest_slash next : one_slash (Gate.login_dest next).
Proof.
  unfold Gate.login_dest, one_slash. destruct (nonempty next && _ && _) eqn:E; [| done].
  by apply andb_true_iff in E as [[_ ->]%andb_true_iff ->%negb_true_iff].
Qed.

Definition right_account (w : world) (username password : string) (r : result error User.t) (w' : world) : Prop :=
  match r with
  | Ok u => exists name source role, has_account (User.ID u) name source role (w_db w') /\ checked w username password (User.ID u) name source role
  | Err _ => True
  end.

Lemma wp_client username password w :
  bind_checks -> search_finds -> apart ->
  wp (LdapAuth.client lcfg username password) (fun r w' => w_db w' = w_db w /\ match r with
    | Ok i => exists id, vouched username password id /\ Auth.id_Username i = LdapAuth.Username id /\ Auth.id_IsAdmin i = LdapAuth.IsAdmin id
    | Err _ => True end) w.
Proof.
  intros Hbind Hfind Hapart. apply wp_and.
  - eapply wp_mono; [apply (wp_guar eq); [apply _ | apply _ | by apply guar_client] | by intros].
  - apply wp_returns. eapply returns_bind_err; [by apply returns_Authenticate | done |]. intros id Hid. by exists id.
Qed.

Lemma wp_authenticate_directory w0 w username password :
  bind_checks -> search_finds -> apart -> w_db w = w_db w0 ->
  wp (Auth.authenticate_directory (Some (LdapAuth.client lcfg)) (Str.TrimSpace username) password) (right_account w0 username password) w.
Proof.
  intros Hbind Hfind Hapart Hd. apply wp_bind. eapply wp_mono; [by apply wp_client |]. intros [i | e] w1 [Hd1 Hi]; [| by apply wp_Ret].
  destruct Hi as (id & Hid & Hname & Hadmin). eapply wp_mono; [by apply wp_syncDirectoryUser |]. intros [u | e] w2; [| done].
  intros (name & source & role & Hacc & Hof). exists name, source, role. split; [exact Hacc |]. right. exists id. split; [exact Hid |].
  by rewrite <- Hname, <- Hadmin, <- Hd, <- Hd1.
Qed.

Lemma wp_Authenticate w username password :
  bind_checks -> search_finds -> apart ->
  wp (Auth.Authenticate cfg (Some (LdapAuth.client lcfg)) username password) (right_account w username password) w.
Proof.
  intros Hbind Hfind Hapart. unfold Auth.Authenticate. cbv zeta. destruct (_ || _); [by apply wp_Ret |].
  assert (forall w', w_db w' = w_db w ->
    wp (Auth.authenticate_directory (Some (LdapAuth.client lcfg)) (Str.TrimSpace username) password) (right_account w username password) w') as Hdir
    by (intros; by apply wp_authenticate_directory).
  destruct (Auth.LocalEnabled cfg); [| by apply Hdir]. apply wp_bind, wp_user_named; [intros; by apply Hdir |].
  intros u fs Hu Hname. destruct (str_is (User.Source u) SourceLocal && _) eqn:Hl; [| by apply Hdir].
  destruct (User.Disabled u) eqn:Hd; [by apply wp_Ret |]. destruct (Auth.bcrypt_Compare _ _) eqn:Hb; [| by apply wp_Ret].
  apply wp_bind. eapply wp_mono; [apply wp_touched |]. intros t w' Hsame. apply wp_Ret. apply andb_true_iff in Hl as [Hs%str_is_eq _].
  exists (User.Username u), SourceLocal, (User.Role u). split; [apply Hsame; exists u; by rewrite <- Hs |]. left. exists u. done.
Qed.

Lemma guar_loginThrottle username ip : guar (on_db eq) (Throttle.loginThrottle username ip).
Proof. guar_walk idtac. Qed.

End ldap.

(** *** A directory of two people *)

Section office.
(** Who has which password, and the answer to each search filter. *)
Context (people : list (string * string)).
Context (answers : list (string * list (string * list (string * list string)))).

Definition values (e : string * list (string * list string)) (a : string) : list string :=
  match List.find (fun kv => str_is (fst kv) a) (snd e) with Some kv => snd kv | None => [] end.

Definition office_bind (dn password : string) : result error unit :=
  if str_is password "" || existsb (fun p => str_is (fst p) dn && str_is (snd p) password) people
  then Ok tt else Err (Driver "LDAP Result Code 49").

Definition office : LdapAuth.Directory := {|
  LdapAuth.Pool := unit; LdapAuth.Conn := unit; LdapAuth.Entry := string * list (string * list string);
  LdapAuth.os_ReadFile path := Ret (Err (Driver "no such file"));
  LdapAuth.AppendCertsFromPEM pem := None;
  LdapAuth.DialURL url tc timeout := Ret (Ok tt);
  LdapAuth.SetTimeout conn timeout := Ret tt;
  LdapAuth.conn_StartTLS conn tc := Ret (Ok tt);
  LdapAuth.Close conn := Ret tt;
  LdapAuth.Bind conn dn password := Ret (office_bind dn password);
  LdapAuth.Search conn rq := Ret (Ok (match List.find (fun a => str_is (fst a) (LdapAuth.Filter rq)) answers with
                                      | Some a => snd a | None => [] end));
  LdapAuth.is_invalid_credentials e := str_is (Error e) "LDAP Result Code 49";
  LdapAuth.EscapeDN s := s; LdapAuth.EscapeFilter s := s;
  LdapAuth.entry_DN := fst;
  LdapAuth.GetAttributeValues := values;
  LdapAuth.GetAttributeValue e a := match values e a with v :: _ => v | [] => EmptyString end |}.

Definition keeps_password (dn password : string) : Prop := (dn, password) ∈ people.

Definition office_answer (rq : LdapAuth.SearchRequest) : list (string * list (string * list string)) :=
  match List.find (fun a => str_is (fst a) (LdapAuth.Filter rq)) answers with Some a => snd a | None => [] end.
Lemma office_finds : search_finds (H := office) (fun rq es => es = office_answer rq).
Proof. by intros conn rq. Qed.
Lemma office_apart : apart (H := office).
Proof. by split. Qed.

Lemma office_checks : bind_checks (H := office) keeps_password.
Proof.
  intros conn dn password Hp. simpl. unfold office_bind. destruct (str_is password "") eqn:E; [by apply str_is_eq in E |].
  cbn [orb]. destruct (existsb _ people) eqn:Hex; [| done].
  apply List.existsb_exists in Hex as ([d p] & Hin & [Hd Hpw]%andb_true_iff). apply str_is_eq in Hd as <-, Hpw as <-.
  by apply list_elem_of_In.
Qed.
End office.

Definition people : list (string * string) :=
  [("cn=jo,ou=people,dc=example,dc=com", "opensesame"); ("cn=ca-admins,ou=people,dc=example,dc=com", "hunter2")]%string.
Definition jo_groups : list (string * list (string * list string)) :=
  [("cn=ca-admins,ou=mailing-lists,dc=example,dc=com", [("cn", ["ca-admins"])])]%string.
Definition directory : LdapAuth.Directory :=
  office people [("(member=cn=jo,ou=people,dc=example,dc=com)"%string, jo_groups)].

(** The configuration of docs/setup.md, people found by a template. *)
Definition lcfg : LdapAuth.Config :=
  LdapAuth.mkConfig true "ldaps://ldap.example.com" false false "" "" "" "" "" "cn=%s,ou=people,dc=example,dc=com"
    "uid" "cn" "mail" "ou=groups,dc=example,dc=com" "(member=%s)" "cn"
    ["cn=ca-admins,ou=groups,dc=example,dc=com"%string] [] 0.
Definition auth_cfg : Auth.Config := Auth.mkConfig Auth.AuthModeBoth "admin" "" "" (12 * Hour) 0 0.
Definition nobody : world := mkWorld empty_db 1000 [] [] 0.
Definition browser : Gate.Request := Gate.mkRequest "POST" "/login" "" "" "t" None (Some "t"%string) "" "" "".

Definition jo_signs_in : Gate.login_result * world :=
  run (Gate.handleLoginSubmit auth_cfg (Some (LdapAuth.client (H := directory) lcfg)) Sample.no_sink browser "10.0.0.1" "jo" "opensesame" "/cas") nobody.
Definition jo_session : string := match fst jo_signs_in with Gate.SignedIn s _ => s | _ => EmptyString end.


(** The role the store has for a name. *)
Definition role_of (name : string) (w : world) : option string :=
  match fst (run (Store.GetUserByName name) w) with Ok u => Some (User.Role u) | Err _ => None end.

(** A group that makes administrators is configured by its distinguished
    name, and matched by its common name alone: a member of a mailing list of
    the same common name signs in as an administrator, and so does the person
    whose own entry has that common name. *)
Theorem admin_group_is_matched_by_common_name :
  let signs_in name password :=
    run (Auth.Authenticate auth_cfg (Some (LdapAuth.client (H := directory) lcfg)) name password) nobody in
  LdapAuth.AdminGroups lcfg = ["cn=ca-admins,ou=groups,dc=example,dc=com"%string] /\
  "cn=ca-admins,ou=groups,dc=example,dc=com"%string ∉ map fst jo_groups /\
  role_of "jo" (snd (signs_in "jo" "opensesame")) = Some RoleAdmin /\
  role_of "ca-admins" (snd (signs_in "ca-admins" "hunter2")) = Some RoleAdmin.
Proof. split; [done |]. split; [set_solver |]. split; vm_compute; reflexivity. Qed.

(** The name a TLS certificate is checked against is not the host of the URL
    when that is an IPv6 address or is followed by a path. *)
Example server_name_ex :
  map LdapAuth.server_name ["ldaps://ldap.example.com:636"; "ldaps://[2001:db8::1]:636"; "ldaps://ldap.example.com/dc=example"]%string =
  ["ldap.example.com"; "[2001"; "ldap.example.com/dc=example"]%string.
Proof. reflexivity. Qed.

(** ** Who an ID token signs in *)

Section oidc.
Context `{Std : Pki.Std} `{Ciphers} `{Auth.Passwords} `{RowOrder} `{OidcAuth.Provider} `{Sso.StateCookie}.
(** The ID tokens a provider signed for a client: what Verify checks. *)
Context (issued : OidcAuth.Prov -> string -> string -> OidcAuth.IDToken -> Prop).

Definition verify_checks : Prop :=
  forall p client raw,
    returns (fun _ : world => True) (fun r => match r with Ok t => issued p client raw t | Err _ => True end)
      (OidcAuth.Verify p client raw).

Section client.
Context (ocfg : OidcAuth.Config).

(** The claims a user is made of. *)
Definition name_claim : string := OidcAuth.firstNonEmpty [OidcAuth.ClaimUsername ocfg; "preferred_username"%string].
Definition groups_claim : string := OidcAuth.firstNonEmpty [OidcAuth.ClaimGroups ocfg; "groups"%string].

(** Two of these are the same group, but for case and surrounding space. *)
Definition common (have want : list string) : Prop := exists h w, h ∈ have /\ w ∈ want /\ LdapAuth.norm h = LdapAuth.norm w.

(** The user the claims describe: their name, not empty, is in the first of
    three claims that has one, their groups are those of one claim, one of them
    is permitted if any is, and makes an administrator or not. *)
Record describes (cs : OidcAuth.claims) (id : Auth.Identity) : Prop := {
  d_named : Auth.id_Username id <> "";
  d_name : exists before key after, [name_claim; "email"%string; "sub"%string] = before ++ key :: after /\
    cs !! key = Some (OidcAuth.CString (Auth.id_Username id)) /\
    forall k v, k ∈ before -> cs !! k = Some (OidcAuth.CString v) -> v = "";
  d_groups g : g ∈ Auth.id_Groups id <-> cs !! groups_claim = Some (OidcAuth.CString g) \/
    exists l, cs !! groups_claim = Some (OidcAuth.CArray l) /\ OidcAuth.CString g ∈ l;
  d_permitted : OidcAuth.AllowedGroups ocfg <> [] -> common (Auth.id_Groups id) (OidcAuth.AllowedGroups ocfg);
  d_admin : Auth.id_IsAdmin id = true <-> common (Auth.id_Groups id) (OidcAuth.AdminGroups ocfg) }.

(** A token of the provider for this attempt, and the user its claims describe
    together with what userinfo adds where the token says nothing. *)
Definition attested (nonce : string) (id : Auth.Identity) : Prop :=
  exists p raw t cs extra, issued p (OidcAuth.ClientID ocfg) raw t /\ OidcAuth.Nonce t = nonce /\
    OidcAuth.IDToken_Claims t = Ok cs /\ describes (cs ∪ extra) id.

Lemma claim_named (v d : string) : d <> "" -> str_is (OidcAuth.firstNonEmpty [v; d]) "" = false.
Proof.
  intros Hd%str_is_ne. simpl. unfold nonempty, str_is in *. destruct (String.eqb v "") eqn:Hv; simpl; [by rewrite Hd |]. exact Hv.
Qed.

(** What the ID token claims, userinfo cannot change: a user name and the
    groups the token holds are the identity's, and so is the role that comes
    of the groups; no identity is without a name or, where groups are
    required, without one of them. *)
Theorem id_token_claims_prevail cs extra id :
  OidcAuth.identity_of ocfg (cs ∪ extra) = Ok id ->
  (forall name, cs !! name_claim = Some (OidcAuth.CString name) -> name <> "" -> Auth.id_Username id = name) /\
  (forall v, cs !! groups_claim = Some v ->
     Auth.id_Groups id = OidcAuth.stringSliceClaim cs groups_claim /\
     Auth.id_IsAdmin id = OidcAuth.matchesAny (OidcAuth.stringSliceClaim cs groups_claim) (OidcAuth.AdminGroups ocfg)) /\
  Auth.id_Username id <> "" /\
  (OidcAuth.AllowedGroups ocfg <> [] -> OidcAuth.matchesAny (Auth.id_Groups id) (OidcAuth.AllowedGroups ocfg) = true).
Proof.
  unfold OidcAuth.identity_of. fold name_claim groups_claim.
  set (username := OidcAuth.firstNonEmptyClaim _ _). set (groups := OidcAuth.stringSliceClaim (cs ∪ extra) _).
  destruct (str_is username "") eqn:Hu; [done |]. destruct (negb _ && negb _) eqn:Ha; [done |]. intros [= <-]. simpl.
  apply str_is_ne in Hu. split; [| split; [| split; [done |]]].
  - intros name Hname Hne. unfold username. cbn [OidcAuth.firstNonEmptyClaim]. unfold OidcAuth.stringClaim at 1 2.
    unfold name_claim in *. rewrite claim_named by done. rewrite (lookup_union_Some_l _ _ _ _ Hname).
    unfold nonempty. apply str_is_ne in Hne. unfold str_is in Hne. by rewrite Hne.
  - intros v Hv. assert (groups = OidcAuth.stringSliceClaim cs groups_claim) as ->; [| done].
    unfold groups, OidcAuth.stringSliceClaim. by rewrite (lookup_union_Some_l _ _ _ _ Hv), Hv.
  - intros Hne. apply andb_false_iff in Ha as [Ha%negb_false_iff%Nat.eqb_eq | Ha%negb_false_iff]; [| done].
    by apply length_zero_iff_nil in Ha.
Qed.

Lemma common_iff have want : OidcAuth.matchesAny have want = true <-> common have want.
Proof.
  unfold OidcAuth.matchesAny, common. destruct (Nat.eqb_spec (length have) 0) as [Hz | _].
  { apply length_zero_iff_nil in Hz as ->. split; [done |]. intros (h & w & Hh & _). by apply not_elem_of_nil in Hh. }
  destruct (Nat.eqb_spec (length want) 0) as [Hz | _].
  { apply length_zero_iff_nil in Hz as ->. split; [done |]. intros (h & w & _ & Hw & _). by apply not_elem_of_nil in Hw. }
  cbn [orb]. rewrite List.existsb_exists. setoid_rewrite List.existsb_exists. setoid_rewrite <- list_elem_of_In. setoid_rewrite str_is_eq. naive_solver.
Qed.

Lemma first_claim cs keys :
  OidcAuth.firstNonEmptyClaim cs keys <> "" -> (forall k, k ∈ keys -> k <> "") ->
  exists before key after, keys = before ++ key :: after /\ cs !! key = Some (OidcAuth.CString (OidcAuth.firstNonEmptyClaim cs keys)) /\
    forall k v, k ∈ before -> cs !! k = Some (OidcAuth.CString v) -> v = "".
Proof.
  induction keys as [| k keys IH]; intros Hne Hkeys; [done |]. cbn [OidcAuth.firstNonEmptyClaim] in *. cbv zeta in *.
  assert (forall v, cs !! k = Some (OidcAuth.CString v) -> OidcAuth.stringClaim cs k = v) as Hk.
  { intros v Hv. unfold OidcAuth.stringClaim. rewrite (proj2 (str_is_ne k "")) by (apply Hkeys; left). by rewrite Hv. }
  destruct (nonempty (OidcAuth.stringClaim cs k)) eqn:Hs.
  - exists [], k, keys. split; [done |]. split; [| by intros ? ? Hn%not_elem_of_nil]. revert Hs. unfold OidcAuth.stringClaim.
    destruct (str_is k ""); [done |]. by destruct (cs !! k) as [[] |].
  - destruct IH as (before & key & after & -> & Hkey & Hb); [done | intros; by apply Hkeys; right |].
    exists (k :: before), key, after. split; [done |]. split; [done |]. intros k' v [-> | Hin]%elem_of_cons Hv; [| by apply (Hb k')].
    rewrite (Hk v Hv) in Hs. by destruct v.
Qed.

Lemma identity_describes cs id : OidcAuth.identity_of ocfg cs = Ok id -> describes cs id.
Proof.
  unfold OidcAuth.identity_of. fold name_claim groups_claim.
  set (username := OidcAuth.firstNonEmptyClaim _ _). set (groups := OidcAuth.stringSliceClaim _ _).
  destruct (str_is username "") eqn:Hu; [done |]. destruct (negb _ && negb _) eqn:Ha; [done |]. intros [= <-]. apply str_is_ne in Hu.
  split; cbn [Auth.id_Username Auth.id_Groups Auth.id_IsAdmin].
  - done.
  - apply first_claim; [done |]. intros k Hk. apply str_is_ne. revert k Hk. apply Forall_forall. repeat constructor. unfold name_claim. by rewrite claim_named.
  - intros g. unfold groups, OidcAuth.stringSliceClaim. unfold groups_claim. rewrite claim_named by done.
    destruct (cs !! _) as [[] |]; rewrite ?list_elem_of_omap, ?list_elem_of_singleton; split; try (intros Hn%not_elem_of_nil; done);
      try (intros [[=] | (? & [=] & _)]; fail).
    + intros ->. by left.
    + intros [[= ->] | (? & [=] & _)]. done.
    + intros (e & He & Hg). right. exists l. split; [done |]. by destruct e; simplify_eq.
    + intros [[=] | (l' & [= <-] & Hg)]. by exists (OidcAuth.CString g).
  - intros Hne. apply common_iff. apply andb_false_iff in Ha as [Ha%negb_false_iff%Nat.eqb_eq%length_zero_iff_nil | Ha%negb_false_iff]; done.
  - apply common_iff.
Qed.

Lemma returns_verified_claims I p token nonce :
  (forall client raw, returns I (fun r => match r with Ok t => issued p client raw t | Err _ => True end) (OidcAuth.Verify p client raw)) ->
  returns I (fun r => match r with Ok cs => exists raw t, issued p (OidcAuth.ClientID ocfg) raw t /\ OidcAuth.Nonce t = nonce /\
                        OidcAuth.IDToken_Claims t = Ok cs | Err _ => True end)
    (OidcAuth.verified_claims ocfg p token nonce).
Proof.
  intros Hv. unfold OidcAuth.verified_claims. destruct (OidcAuth.Extra_id_token token) as [raw |]; [| done].
  eapply returns_bind; [apply Hv |]. intros [t | e]; [| done]. intros Ht. simpl.
  destruct (str_is (OidcAuth.Nonce t) nonce) eqn:Hn; [| done]. apply str_is_eq in Hn. cbn [negb].
  destruct (OidcAuth.IDToken_Claims t) as [cs | e] eqn:Hcs; [| done]. by exists raw, t.
Qed.

Lemma returns_exchange_with p code nonce :
  verify_checks ->
  returns (fun _ => True) (fun r => match r with Ok id => attested nonce id | Err _ => True end)
    (OidcAuth.exchange_with ocfg p code nonce).
Proof.
  intros Hv. unfold OidcAuth.exchange_with. apply returns_skip. intros [token | e]; [| done].
  eapply returns_bind_err; [apply returns_verified_claims; intros; apply Hv | done |].
  intros cs (raw & t & Ht & Hn & Hcs). apply returns_skip. intros extra. simpl.
  destruct (OidcAuth.identity_of ocfg _) as [id | e] eqn:Hid; [| done]. apply identity_describes in Hid.
  exists p, raw, t, cs. destruct extra as [extra | e]; [by exists extra |]. exists ∅. by rewrite map_union_empty.
Qed.

Lemma returns_Exchange known code nonce :
  verify_checks ->
  returns (fun _ => True) (fun r => match snd r with Ok id => attested nonce id | Err _ => True end)
    (OidcAuth.Exchange ocfg known code nonce).
Proof.
  intros Hv. unfold OidcAuth.Exchange. apply returns_skip. intros [known' [p | e]]; [| done].
  eapply returns_bind; [by apply returns_exchange_with |]. intros [id | e] Hid; exact Hid.
Qed.
End client.

Context (cfg : Auth.Config) (oidc : option OidcAuth.Config).
Context (sink : string -> string -> string -> string -> string -> prog world unit).
Hypothesis quiet_sink : forall a b c d e, guar (on_db (keeps [Users; Schema.Sessions])) (sink a b c d e).

(** Asking the provider touches nothing of the store. *)
Record aside : Prop := {
  as_discovery url : guar (on_db eq) (OidcAuth.NewProvider url);
  as_exchange p c scopes code : guar (on_db eq) (OidcAuth.oauth_Exchange p c scopes code);
  as_verify p client raw : guar (on_db eq) (OidcAuth.Verify p client raw);
  as_userinfo p token : guar (on_db eq) (OidcAuth.UserInfo p token) }.
Lemma guar_Exchange ocfg known code nonce : aside -> guar (on_db eq) (OidcAuth.Exchange ocfg known code nonce).
Proof. intros [Hd He Hv Hu]. guar_walk idtac. Qed.

End oidc.

(** *** A provider that vouches for one person *)

Definition token_claims : OidcAuth.claims :=
  <["sub" := OidcAuth.CString "jo"]> (<["groups" := OidcAuth.CArray [OidcAuth.CString "staff"; OidcAuth.CNull]]> ∅).

Definition dex (userinfo : OidcAuth.claims) : OidcAuth.Provider := {|
  OidcAuth.Prov := unit; OidcAuth.Token := string; OidcAuth.IDToken := string;
  OidcAuth.NewProvider issuer := Ret (Ok tt);
  OidcAuth.oauth_AuthCodeURL p cfg scopes state nonce := ("https://dex/auth?state=" +:+ state +:+ "&nonce=" +:+ nonce)%go;
  OidcAuth.oauth_Exchange p cfg scopes code := Ret (Ok code);
  OidcAuth.Extra_id_token token := Some token;
  OidcAuth.Verify p client raw := Ret (if Str.HasPrefix raw "jwt:" then Ok (drop_s 4 raw) else Err (Driver "oidc: malformed jwt"));
  OidcAuth.Nonce t := t;
  OidcAuth.IDToken_Claims t := Ok token_claims;
  OidcAuth.UserInfo p token := Ret (Ok userinfo) |}.

Definition plain_cookie : Sso.StateCookie := {|
  Sso.seal_state s := Str.Join [Sso.State s; Sso.Nonce s; Sso.Next s] "|";
  Sso.open_state c := match Str.Split c "|" with [s; n; x] => Some (Sso.mkState s n x) | _ => None end |}.

Definition ocfg (admins allowed : list string) : OidcAuth.Config :=
  OidcAuth.mkConfig true "https://dex" "goca" "secret" "https://ca/auth/oidc/callback" [] false "" "" "" "" admins allowed.

Definition back : Sso.Callback := Sso.mkCallback "" "" "st" "jwt:no".
Definition jo_comes_back : (option unit * option Gate.login_result) * world :=
  run (Sso.handleOIDCCallback (H2 := dex ∅) (H3 := plain_cookie) auth_cfg (Some (ocfg [] ["Staff"%string])) Sample.no_sink None
         (Some "st|no|/certificates"%string) back "10.0.0.1" "") nobody.

Definition jo_sso_session : string := match snd (fst jo_comes_back) with Some (Gate.SignedIn s _) => s | _ => EmptyString end.


Lemma id_token_claims_prevail_witness :
  exists id, OidcAuth.identity_of (ocfg ["admins"%string] []) (token_claims ∪ <["groups" := OidcAuth.CString "admins"]> ∅) = Ok id /\
    Auth.id_IsAdmin id = false.
Proof.
  destruct (OidcAuth.identity_of (ocfg ["admins"%string] []) (token_claims ∪ <["groups" := OidcAuth.CString "admins"]> ∅)) as [id | e] eqn:Hid;
    [| vm_compute in Hid; discriminate Hid].
  exists id. split; [done |].
  destruct (id_token_claims_prevail (ocfg ["admins"%string] []) token_claims _ id Hid) as (_ & Hg & _).
  destruct (Hg (OidcAuth.CArray [OidcAuth.CString "staff"; OidcAuth.CNull])) as [_ ->]; vm_compute; reflexivity.
Defined.

(** The subject userinfo describes is not compared with the token's: an answer
    about somebody else names the user. *)
Example another_subjects_userinfo :
  (Auth.id_Username <$> match OidcAuth.identity_of (ocfg [] [])
     (token_claims ∪ <["sub" := OidcAuth.CString "root"]> (<["preferred_username" := OidcAuth.CString "root"]> ∅)) with
   | Ok id => Some id | Err _ => None end) = Some "root"%string.
Proof. vm_compute. reflexivity. Qed.
End DirectoryFacts.
