(* ===== verification/ConfigFacts.v ===== *)
(** * What a configuration that was accepted promises

    What [Validate] leaves holds for the rest of the program, and a second
    [Validate] changes nothing unless the base URL ends in a space; what [Save]
    wrote [Load] reads; a base URL that was accepted can be continued
    with a path, unless it ends in a bare question mark or hash. *)

From S2P Require Import Prelude GoStrings Effects Models Schema Pki Sealing CaService K8s CsiProvider Directory AcmePolicy Config ConfigYaml ConfigYamlFacts.

Module ConfigFacts.
Import NetUrl Config.
Open Scope string_scope.

(** ** Reading URLs *)

Lemma Cut_none s c : no_char c s = true -> Cut s c = (s, None).
Proof.
  unfold no_char. induction s as [| d s IH]; simpl; [done |]. intros [Hd%negb_true_iff Hs]%andb_true_iff. by rewrite Hd, IH.
Qed.
Lemma Cut_app a c b : no_char c a = true -> Cut (a +:+ String c b)%go c = (a, Some b).
Proof.
  unfold no_char. induction a as [| d a IH]; simpl; [by rewrite Ascii.eqb_refl |].
  intros [Hd%negb_true_iff Ha]%andb_true_iff. by rewrite Hd, IH.
Qed.
Lemma Cut_spec s c :
  match Cut s c with
  | (a, Some b) => s = (a +:+ String c b)%go /\ no_char c a = true
  | (a, None) => s = a /\ no_char c a = true
  end.
Proof.
  unfold no_char. induction s as [| d s IH]; simpl; [done |]. destruct (Ascii.eqb_spec d c) as [-> | Hd]; [done |].
  destruct (Cut s c) as [a [b |]]; simpl in *; destruct IH as [-> Ha]; (split; [done |]);
    by rewrite (proj2 (Ascii.eqb_neq _ _) Hd).
Qed.

Lemma exists_char_app q a b : exists_char q (a +:+ b)%go = exists_char q a || exists_char q b.
Proof. induction a as [| c a IH]; simpl; [done |]. by rewrite IH, orb_assoc. Qed.

Lemma getScheme_app f s scheme rest t :
  getScheme f s = Ok (Some (scheme, rest)) -> getScheme f (s +:+ t)%go = Ok (Some (scheme, (rest +:+ t)%go)).
Proof.
  revert f scheme. induction s as [| c s IH]; intros f scheme; cbn [getScheme String.append]; [done |].
  destruct (_ || _).
  - destruct (getScheme false s) as [[[sc r] |] |] eqn:E; [| done | done]. intros [= <- <-]. by rewrite (IH false sc E).
  - destruct (_ || _); [done |]. destruct (Ascii.eqb c ":"); [| done]. destruct f; [done |]. by intros [= <- <-].
Qed.

Lemma getScheme_text f s scheme rest : getScheme f s = Ok (Some (scheme, rest)) -> s = (scheme +:+ String ":" rest)%go.
Proof.
  revert f scheme. induction s as [| c s IH]; intros f scheme; cbn [getScheme]; [done |].
  destruct (_ || _).
  - destruct (getScheme false s) as [[[sc r] |] |] eqn:E; [| done | done]. intros [= <- <-]. by rewrite (IH false sc E) at 1.
  - destruct (_ || _); [done |]. destruct (Ascii.eqb_spec c ":") as [-> |]; [| done]. destruct f; [done |]. by intros [= <- <-].
Qed.

Lemma unescape_app h a b x y :
  unescape h a = Ok x -> unescape h b = Ok y -> unescape h (a +:+ b)%go = Ok (x +:+ y)%go.
Proof.
  intros Ha Hb. revert x Ha.
  induction (String.length a) as [n IH] eqn:En using (well_founded_induction lt_wf) in a |- *. intros x.
  destruct a as [| c a]; cbn [unescape String.append]; [by intros [= <-] |].
  destruct (Ascii.eqb c "%").
  - destruct a as [| d a]; [done |]. destruct a as [| e a]; [done |]. cbn [String.append].
    destruct (Pki.hex_value d) as [u |]; [| done]. destruct (Pki.hex_value e) as [v |]; [| done].
    destruct (h && _ && _); [done |]. destruct (unescape h a) as [t |] eqn:Et; [| done]. intros [= <-].
    rewrite (IH (String.length a) ltac:(subst n; simpl; lia) a eq_refl t Et). done.
  - destruct (h && _); [done |]. destruct (unescape h a) as [t |] eqn:Et; [| done]. intros [= <-].
    rewrite (IH (String.length a) ltac:(subst n; simpl; lia) a eq_refl t Et). done.
Qed.

(** Paths as the program appends them: nothing to escape. *)
Definition plain_char (c : ascii) : bool := unreserved c || Ascii.eqb c "/".
Definition plain (p : string) : bool := negb (exists_char (fun c => negb (plain_char c)) p).

Lemma plain_spec p (q : ascii -> bool) :
  forallb (fun n => implb (plain_char (ascii_of_nat n)) (negb (q (ascii_of_nat n)))) (List.seq 0 256) = true ->
  plain p = true -> exists_char q p = false.
Proof.
  intros Hall. assert (forall c, plain_char c = true -> q c = false) as Hq.
  { intros c Hc. rewrite forallb_forall in Hall. specialize (Hall (nat_of_ascii c)).
    rewrite ascii_nat_embedding, Hc in Hall. cbn [implb] in Hall. apply negb_true_iff, Hall, in_seq.
    pose proof (nat_ascii_bounded c). lia. }
  unfold plain. induction p as [| c p IH]; simpl; [done |]. rewrite negb_orb, negb_involutive. intros [Hc Hp]%andb_true_iff.
  by rewrite (Hq c Hc), IH.
Qed.

Lemma no_char_exists c s : no_char c s = negb (exists_char (fun d => Ascii.eqb d c) s).
Proof. unfold no_char. induction s as [| d s IH]; simpl; [done |]. by rewrite IH, negb_orb. Qed.

Lemma plain_no_char c p :
  plain_char c = false -> plain p = true -> no_char c p = true.
Proof.
  intros Hc. unfold plain. induction p as [| d p IH]; [done |]. simpl. rewrite negb_orb, negb_involutive. intros [Hd Hp]%andb_true_iff.
  unfold no_char in *. simpl. rewrite IH by done. destruct (Ascii.eqb_spec d c) as [-> |]; [congruence | done].
Qed.

Lemma unescape_plain p : plain p = true -> unescape false p = Ok p.
Proof.
  intros Hp. pose proof (plain_no_char "%" p eq_refl Hp) as Hn. clear Hp. unfold no_char in Hn.
  induction p as [| c p IH]; [done |]. simpl in Hn. apply andb_true_iff in Hn as [Hc%negb_true_iff Hn].
  cbn [unescape]. rewrite Hc. cbn [andb]. by rewrite IH.
Qed.

Section facts.
Context `{IpLiterals} `{Addresses} `{Ciphers}.

Lemma HasPrefix_longer a b q : Str.HasPrefix a q = true -> Str.HasPrefix (a +:+ b)%go q = true.
Proof.
  revert a. induction q as [| c q IH]; intros a; [by destruct a; destruct b |]. destruct a as [| d a]; simpl; [done |].
  intros [Hc Ha]%andb_true_iff. by rewrite Hc, IH.
Qed.

Lemma HasPrefix_text s q : Str.HasPrefix s q = true -> exists r, s = (q +:+ r)%go.
Proof.
  revert s. induction q as [| c q IH]; intros s; [by exists s |]. destruct s as [| d s]; simpl; [done |].
  intros [->%Ascii.eqb_eq Hs]%andb_true_iff. destruct (IH s Hs) as [r ->]. by exists r.
Qed.

(** The authority ends at the slash of the path that is appended. *)
Lemma Cut_continued r a o p :
  Cut r "/" = (a, o) ->
  Cut (r +:+ String "/" p)%go "/" = (a, Some (match o with Some q => q +:+ String "/" p | None => p end)%go).
Proof.
  intros Hc. pose proof (Cut_spec r "/") as Hs. rewrite Hc in Hs. destruct o as [q |]; destruct Hs as [-> Ha].
  - rewrite append_assoc. simpl. by rewrite Cut_app.
  - by rewrite Cut_app.
Qed.

(** Every way through the rest of [parse]. *)
Ltac unpack H :=
  repeat match type of H with
  | (if ?b then _ else _) = _ => destruct b
  | (let (_, _) := ?x in _) = _ => destruct x
  | Err _ = _ => discriminate H
  | _ => apply result_bind_Ok in H as (? & _ & H)
  end.

Lemma parse_continues t u p :
  parse t = Ok u -> Scheme u <> "" -> Host u <> "" -> no_char "?" t = true -> plain p = true ->
  parse (t +:+ String "/" p)%go = Ok (mkURL (Scheme u) "" (Host u) (Path u +:+ String "/" p)%go "" "").
Proof.
  intros Ht Hs Hh Hq Hp. unfold parse in *.
  assert (plain (String "/" p) = true) as Hsp by exact Hp.
  rewrite exists_char_app, (plain_spec (String "/" p) is_ctl eq_refl Hsp), orb_false_r.
  destruct (exists_char is_ctl t); [done |].
  assert (str_is (t +:+ String "/" p)%go "*" = false) as ->.
  { apply str_is_ne. intros E. destruct t as [| c [| d t]]; simpl in E; simplify_eq. }
  destruct (str_is t "*"); [by injection Ht as <- |].
  destruct (getScheme true t) as [[[sc rest] |] | e] eqn:Eg; [| | done].
  2: { exfalso. cbn [result_bind str_is negb] in Ht. rewrite andb_false_r in Ht. unpack Ht; injection Ht as <-; simpl in *; congruence. }
  rewrite (getScheme_app _ _ _ _ _ Eg). cbn [result_bind] in *.
  rewrite (getScheme_text _ _ _ _ Eg), no_char_app in Hq. apply andb_true_iff in Hq as [_ Hq].
  assert (no_char "?" rest = true) as Hr by exact Hq.
  assert (no_char "?" (rest +:+ String "/" p)%go = true) as Hr'.
  { rewrite no_char_app, Hr. exact (plain_no_char "?" _ eq_refl Hsp). }
  rewrite (Cut_none _ _ Hr') in *. rewrite (Cut_none _ _ Hr) in Ht. cbn [fst snd default] in *.
  destruct (Str.HasPrefix rest "/") eqn:E1; cbn [negb andb] in Ht.
  2: { exfalso. destruct (str_is (Str.ToLower sc) "") eqn:E2; cbn [negb andb] in Ht; [apply str_is_eq in E2 |];
         unpack Ht; injection Ht as <-; simpl in *; congruence. }
  rewrite (HasPrefix_longer _ _ _ E1). cbn [negb andb].
  destruct (negb (str_is (Str.ToLower sc) "") || negb (Str.HasPrefix rest "///")) eqn:E3; cbn [andb] in Ht.
  2: { exfalso. unpack Ht; injection Ht as <-; simpl in *; congruence. }
  destruct (Str.HasPrefix rest "//") eqn:E4.
  2: { exfalso. unpack Ht; injection Ht as <-; simpl in *; congruence. }
  rewrite (HasPrefix_longer _ _ _ E4). destruct (HasPrefix_text _ _ E4) as [r ->].
  cbn [String.append drop_s] in *. destruct (Cut r "/") as [authority o] eqn:Ec. rewrite (Cut_continued _ _ _ p Ec).
  destruct (str_is (Str.ToLower sc) "") eqn:E2.
  { exfalso. apply str_is_eq in E2. unpack Ht; injection Ht as <-; simpl in *; congruence. }
  cbn [negb orb andb].
  apply result_bind_Ok in Ht as (host & Ha & Ht). apply result_bind_Ok in Ht as (path & Hpath & [= <-]). cbn [Scheme Host Path] in *.
  rewrite Ha. cbn [result_bind].
  assert (unescape false (String "/" (match o with Some q => q +:+ String "/" p | None => p end))%go = Ok (path +:+ String "/" p)%go) as ->.
  { destruct o as [q |].
    - change (String "/" (q +:+ String "/" p))%go with (String "/" q +:+ String "/" p)%go.
      apply unescape_app; [done | by apply unescape_plain].
    - cbn in Hpath. injection Hpath as <-. by apply unescape_plain. }
  done.
Qed.

(** ** The base URL *)

Lemma NormalizeBaseURL_spec s t :
  NormalizeBaseURL s = Ok t ->
  t = Str.TrimRight (Str.TrimSpace s) "/" /\
  exists u, Parse t = Ok u /\ (Scheme u = "http" \/ Scheme u = "https") /\ Host u <> "" /\ RawQuery u = "" /\ Fragment u = "".
Proof.
  unfold NormalizeBaseURL. cbv zeta. set (trimmed := Str.TrimRight _ _). destruct (str_is trimmed ""); [done |].
  destruct (Parse trimmed) as [u |] eqn:Ep; [| done].
  destruct (str_is (Scheme u) "http" || str_is (Scheme u) "https") eqn:Es; [| intros Hn; unpack Hn].
  destruct (str_is (Host u) "") eqn:Eh; [done |]. destruct (nonempty (RawQuery u) || _) eqn:Eq; [done |]. intros [= <-].
  apply orb_false_iff in Eq as [Hq Hf]. apply str_is_ne in Eh. split; [done |]. exists u. split_and!; try done.
  - apply orb_true_iff in Es as [E%str_is_eq | E%str_is_eq]; auto.
  - by destruct (RawQuery u).
  - by destruct (Fragment u).
Qed.

(** What was accepted is accepted again, unless a space had hidden under its slashes. *)
Lemma NormalizeBaseURL_again s t : NormalizeBaseURL s = Ok t -> Str.TrimSpace t = t -> NormalizeBaseURL t = Ok t.
Proof.
  intros Hs Ht. destruct (NormalizeBaseURL_spec _ _ Hs) as [Ht' _].
  assert (Str.TrimRight (Str.TrimSpace t) "/" = t) as Hd.
  { rewrite Ht, Ht' at 1. unfold Str.TrimRight. rewrite trim_right_idem. done. }
  unfold NormalizeBaseURL in *. cbv zeta in *. by rewrite Hd, <- Ht' in *.
Qed.

(** The program appends paths to the base URL as text: for the ACME
    directory, the CRL of an authority, the single sign-on callback.  When
    [NormalizeBaseURL] accepts a base URL in which no question mark and no hash
    is left, every such text is a URL with the base URL's scheme, which is http
    or https, its host, which is not empty, and its path continued by that
    path, and without query and fragment. *)
Theorem base_url_carries_paths s t p :
  NormalizeBaseURL s = Ok t -> no_char "?" t = true -> no_char "#" t = true -> plain p = true ->
  exists u, Parse t = Ok u /\ (Scheme u = "http" \/ Scheme u = "https") /\ Host u <> "" /\
    Parse (t +:+ String "/" p)%go = Ok (mkURL (Scheme u) "" (Host u) (Path u +:+ String "/" p)%go "" "").
Proof.
  intros (_ & u & Hu & Hs & Hh & _)%NormalizeBaseURL_spec Hq Hf Hp. exists u. split_and!; [done .. |].
  unfold Parse in *. rewrite (Cut_none _ _ Hf) in Hu.
  rewrite (Cut_none (t +:+ String "/" p)%go) by (rewrite no_char_app, Hf; exact (plain_no_char "#" _ eq_refl Hp)).
  destruct (parse t) as [u' |] eqn:Et; [| done]. injection Hu as ->.
  rewrite (parse_continues t u p Et) by (try done; by intros E; rewrite E in Hs; destruct Hs). done.
Qed.

(** ** What is left of a configuration *)

Definition ready_database (c : Config) : Prop :=
  let d := Database c in
  (Driver_ d = DBDriverSQLite /\ DBPath c <> "") \/
  (Driver_ d = DBDriverPostgres /\ db_Host d <> "" /\ db_Name d <> "" /\ db_User d <> "" /\ db_Port d <> 0%Z /\ SSLMode d <> "").

Definition ready_base (base : string) : Prop :=
  base = "" \/ exists u, Parse base = Ok u /\ (Scheme u = "http" \/ Scheme u = "https") /\ Host u <> "" /\ RawQuery u = "" /\ Fragment u = "".

(** What the rest of the program takes for granted. *)
Record ready (c : Config) : Prop := {
  r_dir : DataDir c <> "";
  r_database : ready_database c;
  r_keys : exists k, MasterKeyBytes (Security c) = Some k /\ MasterKey (Security c) <> "" /\ SessionKey (Security c) <> "";
  r_port : Port (Server c) <> 0%Z;
  r_base : ready_base (BaseURL (Server c));
  r_proxies : Forall (fun p => parseCIDROrIP p <> None) (TrustedProxies (Server c));
  r_ttls : SessionTTL (Security c) <> 0%Z /\ APILoginTokenTTL (Security c) <> 0%Z /\ APILoginTokenMaxDays (Security c) <> 0%Z;
  r_mode : known_mode (Mode (Auth c)) = true;
  r_directory : Mode (Auth c) <> AuthModeLocal -> LdapAuth.Enabled (LDAP (Auth c)) = true \/ OidcAuth.Enabled (OIDC (Auth c)) = true;
  r_callback : OidcAuth.Enabled (OIDC (Auth c)) = true -> OidcAuth.RedirectURL (OIDC (Auth c)) <> "";
  r_days : (0 < DefaultCertDays (CA c) /\ 0 < DefaultCADays (CA c) /\ 0 < CRLDays (CA c))%Z }.

Lemma Join_nonempty dir name : Join dir name <> "".
Proof. unfold Join, CsiProvider.Path.Clean. cbv zeta. case_match; [done |]. destruct (str_is _ "") eqn:E; [done |]. by apply str_is_ne. Qed.

(** Each section of [Validate]: what it leaves, and that it leaves that alone. *)
Lemma validate_database_spec c c' :
  validate_database c = Ok c' ->
  ready_database c' /\ exists path d, c' = mkConfig (cfg_Path c) (DataDir c) path d (Server c) (Security c) (Auth c) (CA c) (CSI c) /\
    forall p s sec a ca csi, let again := mkConfig p (DataDir c) path d s sec a ca csi in validate_database again = Ok again.
Proof.
  unfold validate_database. cbv zeta. destruct (_ || _) eqn:Ed.
  - intros [= <-]. split; [left; cbn; split; [done |] | do 2 eexists; split; [reflexivity |]].
    + destruct (str_is (DBPath c) "") eqn:E; [apply Join_nonempty | by apply str_is_ne].
    + intros. cbn -[str_is]. destruct (str_is (DBPath c) "") eqn:E; by rewrite ?E, ?(proj2 (str_is_ne _ _) (Join_nonempty _ _)).
  - destruct (str_is (Driver_ _) DBDriverPostgres) eqn:Ep; [| done].
    destruct (str_is (db_Host _) "") eqn:E1; [done |]. destruct (str_is (db_Name _) "") eqn:E2; [done |].
    destruct (str_is (db_User _) "") eqn:E3; [done |]. intros [= <-]. split; [right | do 2 eexists; split; [reflexivity |]].
    + apply str_is_eq in Ep. apply str_is_ne in E1, E2, E3. cbn.
      split_and!; try done; [by destruct (Z.eqb_spec (db_Port (Database c)) 0) |].
      destruct (str_is (SSLMode _) "") eqn:E; [done | by apply str_is_ne].
    + intros. cbn -[str_is]. rewrite Ed, Ep, E1, E2, E3. do 3 f_equal.
      * destruct (Z.eqb_spec (db_Port (Database c)) 0) as [| Hp]; [done | by rewrite (proj2 (Z.eqb_neq _ _) Hp)].
      * destruct (str_is (SSLMode _) "") eqn:E; rewrite ?E; done.
Qed.

Lemma check_keys_spec s :
  check_keys s = Ok tt -> exists k, MasterKeyBytes s = Some k /\ MasterKey s <> "" /\ SessionKey s <> "".
Proof.
  unfold check_keys, MasterKeyBytes. destruct (str_is (MasterKey s) "") eqn:E1; [done |]. destruct (base64_Decode _) as [k |]; [| done].
  destruct (str_is (SessionKey s) "") eqn:E2; [done |]. apply str_is_ne in E1, E2. eauto.
Qed.

Lemma check_proxies_spec l : check_proxies l = Ok tt -> Forall (fun p => parseCIDROrIP p <> None) l.
Proof. induction l as [| p l IH]; simpl; [constructor |]. destruct (parseCIDROrIP p) eqn:E; [| done]. constructor; [congruence | auto]. Qed.

Lemma validate_server_spec s s' :
  validate_server s = Ok s' ->
  Port s' <> 0%Z /\ ready_base (BaseURL s') /\ Forall (fun p => parseCIDROrIP p <> None) (TrustedProxies s') /\
  (Str.TrimSpace (BaseURL s') = BaseURL s' -> validate_server s' = Ok s').
Proof.
  unfold validate_server. cbv zeta. intros Hs. apply result_bind_Ok in Hs as (base & Hb & Hs). apply result_bind_Ok in Hs as ([] & Hp & Hs).
  injection Hs as <-. cbn -[str_is]. split_and!.
  - destruct (Z.eqb_spec (Port s) 0); [done | assumption].
  - destruct (str_is (BaseURL s) ""); [by injection Hb as <-; left |]. destruct (NormalizeBaseURL _) as [b |] eqn:En; [| done].
    injection Hb as ->. right. apply (NormalizeBaseURL_spec _ _ En).
  - by apply check_proxies_spec.
  - intros Ht.
    assert ((if (if (Port s =? 0)%Z then 8080%Z else Port s) =? 0 then 8080 else (if (Port s =? 0)%Z then 8080%Z else Port s))%Z
      = (if (Port s =? 0)%Z then 8080%Z else Port s)) as ->.
    { destruct (Z.eqb_spec (Port s) 0) as [| Hp0]; [done |]. by rewrite (proj2 (Z.eqb_neq _ _) Hp0). }
    destruct (str_is (BaseURL s) ""); [injection Hb as <-; cbn; by rewrite Hp |].
    destruct (NormalizeBaseURL (BaseURL s)) as [b |] eqn:En; [| done]. injection Hb as ->.
    destruct (str_is base "") eqn:Eb; [apply str_is_eq in Eb as ->; cbn; by rewrite Hp |].
    rewrite (NormalizeBaseURL_again _ _ En Ht). cbn. by rewrite Hp.
Qed.

Lemma validate_auth_spec base a a' :
  validate_auth base a = Ok a' ->
  known_mode (Mode a') = true /\
  (Mode a' <> AuthModeLocal -> LdapAuth.Enabled (LDAP a') = true \/ OidcAuth.Enabled (OIDC a') = true) /\
  (OidcAuth.Enabled (OIDC a') = true -> OidcAuth.RedirectURL (OIDC a') <> "") /\
  validate_auth base a' = Ok a'.
Proof.
  unfold validate_auth. intros Ha. apply result_bind_Ok in Ha as (mode & Hm & Ha).
  assert (known_mode mode = true) as Hk.
  { destruct (known_mode (Mode a)) eqn:E; [by injection Hm as <- |]. destruct (str_is (Mode a) ""); [by injection Hm as <- | done]. }
  destruct (negb (str_is mode AuthModeLocal) && _ && _) eqn:Ed; [done |]. injection Ha as <-. cbn -[str_is]. rewrite Hk. cbn -[str_is]. rewrite Ed.
  split_and!; [done | | |].
  - intros Hl%str_is_ne. rewrite Hl in Ed. cbn in Ed. destruct (LdapAuth.Enabled _); [by left |]. destruct (OidcAuth.Enabled _); [by right | done].
  - intros ->. cbn [andb]. destruct (str_is (OidcAuth.RedirectURL _) "") eqn:E; [| by apply str_is_ne]. by destruct (Str.TrimRight base "/").
  - do 3 f_equal. destruct (OidcAuth.Enabled _); cbn [andb]; [| done]. destruct (str_is (OidcAuth.RedirectURL (OIDC a)) "") eqn:E; [| by rewrite E].
    by destruct (Str.TrimRight base "/").
Qed.

Lemma or_default_spec n d : d <> 0%Z -> or_default n d <> 0%Z /\ or_default (or_default n d) d = or_default n d.
Proof. unfold or_default. intros Hd. destruct (Z.eqb_spec n 0) as [| Hn]; [| rewrite (proj2 (Z.eqb_neq _ _) Hn)]; [| done]. by rewrite (proj2 (Z.eqb_neq _ _) Hd). Qed.
Lemma positive_or_spec n d : (0 < d)%Z -> (0 < positive_or n d)%Z /\ positive_or (positive_or n d) d = positive_or n d.
Proof. unfold positive_or. intros Hd. destruct (Z.leb_spec n 0) as [| Hn]; [rewrite (proj2 (Z.leb_gt _ _) Hd) | rewrite (proj2 (Z.leb_gt _ _) Hn)]; done. Qed.

Lemma Validate_spec c c' :
  Validate c = Ok c' ->
  ready c' /\ (Str.TrimSpace (BaseURL (Server c')) = BaseURL (Server c') -> Validate c' = Ok c').
Proof.
  unfold Validate. destruct (str_is (DataDir c) "") eqn:Ed; [done |]. intros Hv.
  apply result_bind_Ok in Hv as (c1 & Hdb & Hv). apply result_bind_Ok in Hv as ([] & Hk & Hv).
  apply result_bind_Ok in Hv as (s & Hs & Hv). apply result_bind_Ok in Hv as (a & Ha & Hv). injection Hv as <-.
  destruct (validate_database_spec _ _ Hdb) as (Hr & path & d & -> & Hdb'). cbn -[str_is] in Hk, Hs, Ha |- *.
  destruct (validate_server_spec _ _ Hs) as (Hp & Hb & Hps & Hs'). destruct (validate_auth_spec _ _ _ Ha) as (Hm & Hd & Hc & Ha').
  destruct (check_keys_spec _ Hk) as (k & Hk1 & Hk2 & Hk3).
  destruct (or_default_spec (SessionTTL (Security c)) (8 * Hour) ltac:(done)) as [T1 T1'].
  destruct (or_default_spec (APILoginTokenTTL (Security c)) (30 * 24 * Hour) ltac:(done)) as [T2 T2'].
  destruct (or_default_spec (APILoginTokenMaxDays (Security c)) 90 ltac:(done)) as [T3 T3'].
  destruct (positive_or_spec (DefaultCertDays (CA c)) 397 ltac:(done)) as [D1 D1'].
  destruct (positive_or_spec (DefaultCADays (CA c)) 3650 ltac:(done)) as [D2 D2'].
  destruct (positive_or_spec (CRLDays (CA c)) 7 ltac:(done)) as [D3 D3'].
  split.
  - apply str_is_ne in Ed. split; cbn; eauto.
  - intros Ht. cbn [DataDir]. rewrite Ed, Hdb'. cbn. unfold check_keys in *. cbn -[str_is]. rewrite Hk. cbn. cbn in Ht.
    rewrite (Hs' Ht). cbn. rewrite Ha'. cbn. unfold security_defaults, ca_defaults. cbn. by rewrite T1', T2', T3', D1', D2', D3'.
Qed.

(** Where the file lies, and where SQLite keeps its data, [Validate] does not mind. *)
Lemma Validate_moved c path db :
  Validate c = Ok c -> db <> "" ->
  let moved := mkConfig path (DataDir c) db (Database c) (Server c) (Security c) (Auth c) (CA c) (CSI c) in Validate moved = Ok moved.
Proof.
  intros Hv Hdb%str_is_ne. unfold Validate in *. cbn [DataDir]. destruct (str_is (DataDir c) "") eqn:Ed; [done |].
  apply result_bind_Ok in Hv as (c1 & Hc & Hv). destruct (validate_database_spec _ _ Hc) as (_ & path1 & d & -> & _).
  cbn -[str_is] in Hv. apply result_bind_Ok in Hv as ([] & Hk & Hv). apply result_bind_Ok in Hv as (s & Hs & Hv).
  apply result_bind_Ok in Hv as (a & Ha & Hv). injection Hv as Hv.
  pose proof (f_equal Database Hv) as E2. pose proof (f_equal Server Hv) as E3. pose proof (f_equal Security Hv) as E4.
  pose proof (f_equal Auth Hv) as E5. pose proof (f_equal CA Hv) as E6. cbn -[str_is] in E2, E3, E4, E5, E6. clear Hv.
  assert (validate_database (mkConfig path (DataDir c) db (Database c) (Server c) (Security c) (Auth c) (CA c) (CSI c))
    = Ok (mkConfig path (DataDir c) db (Database c) (Server c) (Security c) (Auth c) (CA c) (CSI c))) as ->.
  { unfold validate_database in Hc |- *. cbn -[str_is] in Hc |- *. rewrite Hdb. destruct (_ || _).
    - injection Hc as _ Hd. by rewrite Hd, E2.
    - destruct (str_is (Driver_ _) _); [| done]. destruct (str_is (db_Host _) ""); [done |].
      destruct (str_is (db_Name _) ""); [done |]. destruct (str_is (db_User _) ""); [done |]. injection Hc as _ Hd. by rewrite Hd, E2. }
  cbn -[str_is]. rewrite Hk, Hs. cbn -[str_is]. by rewrite Ha, E3, E5, E4, E6.
Qed.

Definition is_file (fs : files) (path : string) : bool := bool_decide (is_Some (fs !! path)).
Definition ReadFile (fs : files) (path : string) : result error string :=
  match fs !! path with Some f => Ok (Text f) | None => Err (Driver "no such file or directory") end.

(** C25. What [Validate] accepts it leaves [ready]: a database that can be
    opened, keys that are there and a master key that decodes, a port, a base
    URL that is empty or an http or https URL with a host, trusted proxies that
    are networks, lifetimes and numbers of days that are set, a known mode of
    authentication with a directory behind it where it needs one, and a
    callback for single sign-on.  And it is done in one go: validating its
    result again changes nothing, provided the base URL it left does not end
    in a space. *)
Theorem validate_establishes c c' :
  Validate c = Ok c' ->
  ready c' /\ (Str.TrimSpace (BaseURL (Server c')) = BaseURL (Server c') -> Validate c' = Ok c').
Proof. apply Validate_spec. Qed.

Lemma WriteFile_there fs path text perm :
  WriteFile fs path text perm !! path = Some (mkOsFile (match fs !! path with Some f => Perm f | None => perm end) text).
Proof. apply (lookup_insert_eq (M := gmap string)). Qed.

(** C26. A configuration that [Validate] accepted, whose base URL does not end
    in a space, and that [Save] wrote is the one [Load] reads back from that
    path over the defaults of any machine, in every field of every section,
    written or left out; with PostgreSQL but for the file of SQLite, which
    comes back as the default of the machine that reads it.  The file is made
    readable by its owner alone; one that was there keeps the permissions it
    had.  The YAML library is taken to read back the scalars and the documents
    it wrote. *)
Theorem saved_configuration_loads `{ConfigYaml.Documents} mkdir write home env fs c0 c path fs' c1 :
  ConfigYamlFacts.yaml_laws ->
  Validate c0 = Ok c -> Str.TrimSpace (BaseURL (Server c)) = BaseURL (Server c) -> path <> "" ->
  Save mkdir write ConfigYaml.Marshal fs c path = Ok (fs', c1) ->
  let db := if str_is (DBPath c) "" then Join home "goca.db" else DBPath c in
  Load (is_file fs') (ReadFile fs') ConfigYaml.Unmarshal path env home =
    Ok (mkConfig path (DataDir c) db (Database c) (Server c) (Security c) (Auth c) (CA c) (CSI c)) /\
  c1 = mkConfig path (DataDir c) (DBPath c) (Database c) (Server c) (Security c) (Auth c) (CA c) (CSI c) /\
  (Driver_ (Database c) = DBDriverSQLite -> db = DBPath c) /\
  (exists f, fs' !! path = Some f /\ Perm f = match fs !! path with Some g => Perm g | None => 384%Z end).
Proof.
  intros Hyaml Hv Ht Hp Hsave. destruct (Validate_spec _ _ Hv) as [Hr Hv']. specialize (Hv' Ht).
  apply str_is_ne in Hp as Hp'. unfold Save in Hsave. cbv zeta in Hsave. rewrite Hp', Hp' in Hsave. destruct (mkdir _); [done |].
  apply result_bind_Ok in Hsave as (b & Hb & Hsave). destruct (write path); [done |]. injection Hsave as <- <-.
  split; [| split; [done | split; [| rewrite WriteFile_there; eexists; split; [done |]; by destruct (fs !! path)]]].
  - pose proof (WriteFile_there fs path (header +:+ b)%go 384%Z) as Hf. set (fs' := WriteFile _ _ _ _) in *.
    assert (Discover (is_file fs') path env home = Ok path) as Hd.
    { unfold Discover, candidates. cbn [List.filter]. assert (nonempty path = true) as -> by by destruct path.
      cbn [app List.find]. unfold is_file. by rewrite Hf. }
    unfold Load. rewrite Hd. cbn [result_bind]. unfold ReadFile. rewrite Hf. cbn [Text]. rewrite (ConfigYamlFacts.Unmarshal_Marshal Hyaml _ _ _ Hb).
    unfold with_path, ConfigYamlFacts.reread. cbn [DataDir DBPath Database Server Security Auth CA CSI].
    rewrite (Validate_moved c) by first [done | destruct (str_is (DBPath c) "") eqn:E; [apply Join_nonempty | by apply str_is_ne]]. done.
  - intros Hsq. destruct (r_database _ Hr) as [[_ Hne] | (Hpg & _)]; [| rewrite Hsq in Hpg; discriminate Hpg].
    apply str_is_ne in Hne. by rewrite Hne.
Qed.

(** What GenerateSecrets draws is a key of 32 bytes, and no key that is there is replaced. *)
Lemma GenerateSecrets_spec draw s s' :
  GenerateSecrets draw s = Some s' ->
  (MasterKey s <> "" -> MasterKey s' = MasterKey s) /\ (SessionKey s <> "" -> SessionKey s' = SessionKey s) /\
  (MasterKey s = "" -> exists k, MasterKeyBytes s' = Some k /\ String.length k = 32) /\
  (SessionKey s = "" -> exists k, SessionKeyBytes s' = Some k /\ String.length k = 32).
Proof.
  unfold GenerateSecrets, MasterKeyBytes, SessionKeyBytes, randomKey. cbv zeta. intros Hg.
  apply bind_Some in Hg as (m & Hm & Hg). apply bind_Some in Hg as (k & Hk & [= <-]). cbn.
  assert (forall d n key, base64_Encode <$> rand_Read d n = Some key -> exists b, base64_Decode key = Some b /\ String.length b = n) as Hr.
  { intros d n key (b & Hb & ->)%fmap_Some. exists b. split; [apply base64_law | by eapply rand_length]. }
  split_and!.
  - intros Hn%str_is_ne. rewrite Hn in Hm. by injection Hm.
  - intros Hn%str_is_ne. rewrite Hn in Hk. by injection Hk.
  - intros E. rewrite E in Hm. by apply Hr in Hm.
  - intros E. rewrite E in Hk. by apply Hr in Hk.
Qed.
End facts.

(** ** Concrete configurations *)

#[export] Instance sample_literals : IpLiterals := {| ip_literal := Ok |}.
#[export] Instance sample_addresses : Addresses := {|
  IPNet := string;
  ParseCIDR s := if Str.Contains s "/" then Some s else None;
  is_ip s := str_is s "192.0.2.1" || str_is s "::1";
  is_ip4 s := str_is s "192.0.2.1" |}.

(** [Default] with keys, another base URL and a proxy. *)
Definition sample_config (base master : string) : Config :=
  let c := Default "/var/lib/goca" in
  mkConfig "" (DataDir c) "" (mkDatabase "" "" 0 "" "" "" "")
    (mkServer "0.0.0.0" 0 base (mkTLSFiles false "" "") ["192.0.2.1"; "10.0.0.0/8"])
    (mkSecurity master "session" 0 false 0 0) (Auth c) (mkCA 0 (-3) "rsa-2048" 7 true [] []) (CSI c).
Definition thirty_two : string := "0123456789abcdef0123456789abcdef".

Lemma base_url_carries_paths_witness :
  exists u, Parse "https://ca.example.com/goca" = Ok u /\ (Scheme u = "http" \/ Scheme u = "https") /\ Host u <> "" /\
    Parse "https://ca.example.com/goca/acme/directory" = Ok (mkURL (Scheme u) "" (Host u) (Path u +:+ "/acme/directory")%go "" "").
Proof.
  apply (base_url_carries_paths " https://ca.example.com/goca/ " "https://ca.example.com/goca" "acme/directory"); vm_compute; reflexivity.
Defined.

Lemma validate_establishes_witness :
  match Validate (sample_config "https://ca.example.com/" thirty_two) with
  | Ok c' => ready c' /\ (Str.TrimSpace (BaseURL (Server c')) = BaseURL (Server c') -> Validate c' = Ok c')
  | Err _ => False
  end.
Proof.
  destruct (Validate (sample_config "https://ca.example.com/" thirty_two)) as [c' | e] eqn:E;
    [exact (validate_establishes _ c' E) | vm_compute in E; discriminate E].
Defined.

(** A configuration that was accepted. *)
Definition sample_valid : Config :=
  match Validate (sample_config "https://ca.example.com/" thirty_two) with Ok c => c | Err _ => Default "" end.

Definition old : gmap string os_file := {["/etc/goca/config.yaml" := mkOsFile 420 "old"]}.
Import ConfigYamlFacts.

Lemma saved_configuration_loads_witness :
  exists fs' c1, Save (fun _ => None) (fun _ => None) ConfigYaml.Marshal old sample_valid "/etc/goca/config.yaml" = Ok (fs', c1) /\
    Load (is_file fs') (ReadFile fs') ConfigYaml.Unmarshal "/etc/goca/config.yaml" "" "/home" =
      Ok (mkConfig "/etc/goca/config.yaml" (DataDir sample_valid) (DBPath sample_valid) (Database sample_valid) (Server sample_valid)
            (Security sample_valid) (Auth sample_valid) (CA sample_valid) (CSI sample_valid)) /\
    (exists f, (fs' : gmap string os_file) !! "/etc/goca/config.yaml" = Some f /\
       Perm f = match old !! "/etc/goca/config.yaml" with Some g => Perm g | None => 384%Z end).
Proof.
  assert (exists fs' c1, Save (fun _ => None) (fun _ => None) ConfigYaml.Marshal old sample_valid "/etc/goca/config.yaml" = Ok (fs', c1)) as (fs' & c1 & Hsave)
    by (do 2 eexists; reflexivity).
  exists fs', c1. split; [exact Hsave |].
  destruct (saved_configuration_loads (fun _ => None) (fun _ => None) "/home" "" old (sample_config "https://ca.example.com/" thirty_two) sample_valid
    "/etc/goca/config.yaml" fs' c1 ConfigYamlFacts.sample_laws) as (Hload & _ & Hdb & Hfile).
  - vm_compute. reflexivity.
  - vm_compute. reflexivity.
  - discriminate.
  - exact Hsave.
  - rewrite Hdb in Hload by (vm_compute; reflexivity). split; [exact Hload | exact Hfile].
Defined.

(** The scheme and the path a client reads. *)
Definition seen (t : string) : option (string * string) := match Parse t with Ok u => Some (Scheme u, Path u) | Err _ => None end.

(** Accepted, and of no use: a base URL that ends in a bare question mark
    or hash, behind which every appended path disappears from the path of the
    URL; one in capitals, for which `goca setup` leaves the cookies without the
    Secure attribute although it is served with https; one with a port and no
    name; one whose path ends in a space once its slash is gone, so that a
    second [Validate] changes it again; and a master key that is not 32 bytes
    long, with which the vault cannot be derived. *)
Theorem accepted_but_unusable :
  let base := "https://ca.example.com" in
  NormalizeBaseURL (base +:+ "?")%go = Ok (base +:+ "?")%go /\
  seen (base +:+ "?" +:+ "/acme/directory")%go = Some ("https", "") /\
  NormalizeBaseURL (base +:+ "#")%go = Ok (base +:+ "#")%go /\
  seen (base +:+ "#" +:+ "/acme/directory")%go = Some ("https", "") /\
  NormalizeBaseURL "HTTPS://ca.example.com" = Ok "HTTPS://ca.example.com" /\
  seen "HTTPS://ca.example.com" = Some ("https", "") /\ Str.HasPrefix "HTTPS://ca.example.com" "https://" = false /\
  NormalizeBaseURL "http://:8080" = Ok "http://:8080" /\
  NormalizeBaseURL "https://ca.example.com/x /" = Ok "https://ca.example.com/x " /\
  NormalizeBaseURL "https://ca.example.com/x " = Ok "https://ca.example.com/x" /\
  match Validate (sample_config base "short") with
  | Ok c => exists e, Pqcrypt.DeriveVault <$> MasterKeyBytes (Security c) = Some (Err e)
  | Err _ => False
  end.
Proof. vm_compute. split_and!; try reflexivity. eexists. reflexivity. Qed.
End ConfigFacts.
