(* ===== verification/AccessFacts.v ===== *)
(** * What portal and API let their users do

    A user who is no administrator cannot touch a certificate somebody else
    requested, whatever requests run at the same time; what such a user is
    shown; how the last administrator is protected, and where that protection
    ends; the pages of the audit log; a bulk revocation that is not filtered. *)

From S2P Require Import Prelude GoStrings Effects Models Schema SqlFacts TableFacts Store Pki Sealing CaService CaFacts CaLifecycle CaImport CaTools Downloads Auth Gate Directory Api Pages Sample IssueFacts LifecycleFacts.

Module AccessFacts.
Import CaFacts IssueFacts Http Api.

(** ** Requests of the REST API and of the portal *)

Inductive request :=
| Rest (rt : Api.route) (r : Call)
| Portal (rt : Pages.route) (f : Pages.Form) (r : Call).

Definition call (q : request) : Call := match q with Rest _ r => r | Portal _ _ r => r end.
Definition admin_only (q : request) : bool :=
  match q with Rest rt _ => Api.admin_only rt | Portal rt _ _ => Pages.admin_only rt end.

(** ** Other people's certificates *)

Section others.
(** A certificate, and who requested it. *)
Context (k : Z) (owner : string) (Howner : owner <> "").

(** The certificate is the owner's, and its number is taken. *)
Definition mine (d : db) : Prop :=
  (k <= seq (d Certificates))%Z /\
  forall c, c ∈ rows (d Certificates) -> Certificate.ID c = k -> Certificate.RequestedBy c = owner.

Definition the_row (d : db) : list Certificate.t := List.filter (fun c => Certificate.ID c =? k)%Z (rows (d Certificates)).
Definition untouched (d d' : db) : Prop := the_row d' = the_row d.
Definition spared (d d' : db) : Prop := mine d -> mine d' /\ untouched d d'.

#[local] Instance spared_refl : Reflexive spared.
Proof. by intros d Hd. Qed.

Lemma spared_keeps d d' : keeps [Certificates] d d' -> spared d d'.
Proof. intros Hk Hm. unfold mine, untouched, the_row. by rewrite !(Hk Certificates) by set_solver. Qed.

Lemma filters_to_nothing {A} (p : A -> bool) l : (forall x, x ∈ l -> p x = false) -> List.filter p l = [].
Proof.
  induction l as [| x l IH]; intros Hl; [done |]. simpl. rewrite Hl by (by left). apply IH. intros y Hy. apply Hl. by right.
Qed.

Lemma filter_update_other {A} (q p : A -> bool) (f : A -> A) l :
  (forall x, p x = true -> q x = false /\ q (f x) = false) -> List.filter q (update_where p f l) = List.filter q l.
Proof.
  intros Hf. unfold update_where. induction l as [| x l IH]; [done |]. cbn. destruct (p x) eqn:Hp.
  - destruct (Hf x Hp) as [-> ->]. exact IH.
  - destruct (q x); [by rewrite IH | exact IH].
Qed.

Lemma spared_insert mk d : (forall id, Certificate.ID (mk id) = id) -> spared d (snd (insert Certificates mk d)).
Proof.
  intros Hmk [Hk Hr]. unfold untouched, the_row, mine. rewrite insert_eq. cbn [rows seq].
  split; [split; [lia |] |].
  - intros c [Hc | ->%list_elem_of_singleton]%elem_of_app; [auto |]. rewrite Hmk. lia.
  - rewrite List.filter_app. simpl. rewrite Hmk. destruct (_ =? k)%Z eqn:E; [apply Z.eqb_eq in E; simpl in *; lia |]. apply app_nil_r.
Qed.

Lemma spared_update (p : Certificate.t -> bool) (f : Certificate.t -> Certificate.t) d :
  (forall c, Certificate.ID (f c) = Certificate.ID c /\ Certificate.RequestedBy (f c) = Certificate.RequestedBy c) ->
  (forall c, p c = true -> Certificate.ID c <> k) ->
  spared d (snd (update Certificates p f d)).
Proof.
  intros Hf Hp [Hk Hr]. unfold untouched, the_row, mine. rewrite update_eq. cbn [rows seq]. split; [split; [done |] |].
  - intros c (x & Hx & ->)%elem_of_update_where. destruct (Hf x) as [Hi Ho]. destruct (p x); [| by apply Hr].
    rewrite Hi, Ho. by apply Hr.
  - apply filter_update_other. intros c Hc. destruct (Hf c) as [-> _]. by split; apply Z.eqb_neq, Hp.
Qed.

Ltac other_id := intros ? Hother; apply Z.eqb_eq in Hother || apply andb_true_iff in Hother as [Hother%Z.eqb_eq _]; congruence.
Ltac spared_leaf := first [ apply spared_keeps; frame | by apply spared_insert | apply spared_update; [done | other_id] ].

Context `{Std : Pki.Std} `{Ciphers} `{!CaTools.Pkcs12} `{Auth.Passwords} `{LdapAuth.Directory} `{RowOrder}.
Context (cfg : CaService.Config) (acfg : Auth.Config) (lcfg : LdapAuth.Config) (master : string).
Context (save_admin_hash : string -> M unit).
Context (sink : string -> string -> string -> string -> string -> prog world unit).
Context (fuel : nat).
(** What the environment does is not done to certificates. *)
Context (Hsink : forall a b c d e, guar (on_db (keeps [Certificates])) (sink a b c d e)).
Context (Hsave : forall h, guar (on_db (keeps [Certificates])) (save_admin_hash h)).

Definition perform (q : request) : prog world reply :=
  answer match q with
         | Rest rt r => Api.handler cfg acfg lcfg master save_admin_hash sink fuel rt r
         | Portal rt f r => Pages.handler cfg acfg lcfg master save_admin_hash sink fuel rt f r
         end.

Lemma spared_sink a b c d e : guar (on_db spared) (sink a b c d e).
Proof. eapply guar_weaken; [| apply Hsink]. intros s s'. apply spared_keeps. Qed.
Lemma spared_save h : guar (on_db spared) (save_admin_hash h).
Proof. eapply guar_weaken; [| apply Hsave]. intros s s'. apply spared_keeps. Qed.
#[local] Hint Resolve spared_sink spared_save : guar.

Lemma spared_NextCRLNumber ca : guar (on_db spared) (Store.NextCRLNumber ca).
Proof. guar_walk spared_leaf. Qed.
#[local] Hint Resolve spared_NextCRLNumber : guar.

(** *** The loops *)

Lemma spared_ca_views l : guar (on_db spared) (Api.ca_views l).
Proof. induction l as [| c l IH]; cbn [Api.ca_views]; guar_walk spared_leaf. Qed.
Lemma spared_counts l : guar (on_db spared) (Pages.counts l).
Proof. induction l as [| c l IH]; cbn [Pages.counts]; guar_walk spared_leaf. Qed.
Lemma spared_history_back n cur back : guar (on_db spared) (CaLifecycle.history_back n cur back).
Proof. revert cur back. induction n as [| n IH]; intros cur back; cbn [CaLifecycle.history_back]; guar_walk spared_leaf. Qed.
Lemma spared_history_forward n next chain : guar (on_db spared) (CaLifecycle.history_forward n next chain).
Proof. revert next chain. induction n as [| n IH]; intros next chain; cbn [CaLifecycle.history_forward]; guar_walk spared_leaf. Qed.
Lemma spared_selected_ids l r : guar (on_db spared) (Pages.selected_ids l r).
Proof. induction l as [| s l IH]; cbn [Pages.selected_ids]; guar_walk spared_leaf. Qed.
#[local] Hint Resolve spared_ca_views spared_counts spared_history_back spared_history_forward spared_selected_ids : guar.

(** Issuing adds a row; so does renewing, which then works on other numbers. *)
Lemma spared_Issue in_ : guar (on_db spared) (CaService.Issue cfg master sink in_).
Proof. guar_walk spared_leaf. Qed.
#[local] Hint Resolve spared_Issue : guar.

Lemma spared_serveCADownload c file admin actor ip : guar (on_db spared) (Downloads.serveCADownload cfg master sink c file admin actor ip).
Proof. guar_walk spared_leaf. Qed.
Lemma spared_serveCertDownload c file pw actor ip : guar (on_db spared) (Downloads.serveCertDownload master sink c file pw actor ip).
Proof. guar_walk spared_leaf. Qed.
#[local] Hint Resolve spared_serveCADownload spared_serveCertDownload : guar.

(** *** What a lookup has established *)

Abbreviation I := (on_world mine).
Abbreviation G := (on_db untouched).

Definition other (c : Certificate.t) : Prop := Certificate.ID c <> k.
Definition outsider (r : Call) : Prop := is_admin r = false /\ caller r <> owner.

Lemma owner_may_touch r c : outsider r -> may_touch (currentUser r) c = true -> Certificate.RequestedBy c <> owner.
Proof.
  intros [Hadm Hne] Hm. unfold may_touch in Hm. unfold is_admin in Hadm. unfold caller in Hne. rewrite Hadm in Hm. cbn [orb] in Hm.
  apply orb_true_iff in Hm as [Hm%str_is_eq | Hm%str_is_eq]; congruence.
Qed.

(** A row of the table, as it is read. *)
Definition read_from (d : db) (c : Certificate.t) : Prop := exists x, x ∈ rows (d Certificates) /\ c = Store.scanCert d x.

Lemma read_mine d c : mine d -> read_from d c -> Certificate.ID c = k -> Certificate.RequestedBy c = owner.
Proof. intros [_ Hr] (x & Hx & ->). exact (Hr x Hx). Qed.

Definition honest (r : result error Certificate.t) : Prop :=
  match r with Ok c => Certificate.ID c = k -> Certificate.RequestedBy c = owner | Err _ => True end.

Definition numbered (id : Z) (r : result error Certificate.t) : Prop :=
  match r with Ok c => Certificate.ID c = id | Err _ => True end.

Lemma honest_GetCertificate id : returns I (fun r => honest r /\ numbered id r) (Store.GetCertificate id).
Proof.
  apply returns_query_row; [done |]. intros w c Hw Hc. destruct (select1 _ _ _) as [x |] eqn:Hs; [| done]. injection Hc as <-.
  apply List.find_some in Hs as [Hin Hid%Z.eqb_eq]. split; [| exact Hid].
  intros Hk. apply (read_mine (w_db w)); [exact Hw | | exact Hk]. exists x. split; [by apply list_elem_of_In | done].
Qed.

Lemma honest_BySerial s : returns I honest (Store.GetCertificateBySerial s).
Proof.
  apply returns_query_row; [done |]. intros w c Hw Hc. destruct (head _) as [x |] eqn:Hs; [| done]. injection Hc as <-.
  apply elem_of_head_scan in Hs as [Hin _]. intros Hk. apply (read_mine (w_db w)); [exact Hw | by exists x | exact Hk].
Qed.

Lemma honest_Find ref : returns I honest (CaService.FindCertificate ref).
Proof.
  unfold CaService.FindCertificate. cbv zeta. destruct (str_is _ ""); [done |].
  destruct (CaService.parseInt64 _) as [id |]; [| apply honest_BySerial].
  eapply returns_bind; [apply honest_GetCertificate |]. intros [c | e]; [by intros [Hh _] | intros _; apply honest_BySerial].
Qed.

Lemma returns_or_fail {A} (Q : A -> Prop) (f : error -> reply) (p : M A) :
  returns I (fun r => match r with Ok a => Q a | Err _ => True end) p ->
  returns I (fun r => match r with Ok a => Q a | Err _ => True end) (or_fail f p).
Proof. intros Hp. eapply returns_bind; [exact Hp |]. by intros [a | e]. Qed.

Abbreviation finds_other := (returns I (fun r : result reply Certificate.t => match r with Ok c => other c | Err _ => True end)).

Lemma lookup_other r : outsider r -> finds_other (apiLookupCert r).
Proof.
  intros Hr. unfold apiLookupCert. eapply returns_bind_err; [apply returns_or_fail; apply honest_Find | done |].
  intros c Hc. destruct (may_touch _ c) eqn:Hm; [| done]. intros Hk. by apply (owner_may_touch r c Hr Hm), Hc.
Qed.

Lemma page_lookup_other r : outsider r -> finds_other (Pages.lookupCert r).
Proof.
  intros Hr. unfold Pages.lookupCert. apply returns_skip. intros [id | a]; [| done].
  eapply returns_bind_err with (Q := fun c => honest (Ok c)); [apply returns_or_fail | done |].
  { eapply returns_mono; [apply honest_GetCertificate |]. intros [c | e]; [by intros [? _] | done]. }
  intros c Hc. destruct (may_touch _ c) eqn:Hm; [| done]. intros Hk. by apply (owner_may_touch r c Hr Hm), Hc.
Qed.

Lemma returns_sql {X} (f : db -> X * db) (Q : result error X -> Prop) :
  (forall e, Q (Err e)) -> (forall w, I w -> Q (Ok (fst (f (w_db w))))) -> returns I Q (sql f).
Proof.
  intros He Hok. apply returns_act. intros w Hw. specialize (Hok w Hw). unfold next_fault.
  destruct (w_faults w) as [| [m |] fs]; cbn [fst snd]; [| apply He |]; cbn [w_db];
    destruct (f (w_db w)) as [x d'] eqn:Hf; cbn [fst snd with_faults w_db] in *; rewrite ?Hf; destruct (violated d'); cbn [fst]; auto.
Qed.

(** What is issued is a new row. *)
Lemma issued_other in_ :
  returns I (fun r => match r with Ok res => other (CaService.res_Certificate res) | Err _ => True end)
    (CaService.Issue cfg master sink in_).
Proof.
  unfold CaService.Issue. apply returns_skip. intros [[[[ca cert] key] profile] |]; [| done]. cbv zeta.
  apply returns_skip. intros [m |]; [| done]. destruct (CaService.san_override in_); [| done].
  apply returns_skip. intros [res |]; [| done]. apply returns_skip. intros [enc |]; [| done].
  eapply returns_bind_err with (Q := other); [| done |].
  - unfold Store.CreateCertificate. apply returns_skip. intros created.
    eapply returns_bind with (Q := fun r => match r with Ok id => id <> k | Err _ => True end).
    + apply returns_sql; [done |]. intros w [Hk _]. rewrite insert_id. simpl in *. lia.
    + intros [id |] Hid; [| done]. eapply returns_mono; [apply honest_GetCertificate |].
      intros [c |] [_ Hn]; [| done]. unfold other. simpl in Hn. congruence.
  - intros saved Hs. apply returns_skip. intros _. apply returns_skip. intros chain. exact Hs.
Qed.

(** *** Handlers that change the certificate they looked up *)

Lemma spared_always {A} (p : prog world A) : guar (on_db spared) p -> always I G p.
Proof. exact (always_guar I G p). Qed.

Lemma always_found {E A B} (Q : A -> Prop) (p : prog world (result E A)) (q : A -> prog world (result E B)) :
  guar (on_db spared) p -> returns I (fun r => match r with Ok a => Q a | Err _ => True end) p ->
  (forall a, Q a -> always I G (q a)) -> always I G (x <-! p ;; q x).
Proof. intros Hp Hr Hq. eapply always_bind; [by apply spared_always | exact Hr |]. intros [a | e]; simpl; auto. Qed.

Lemma always_next {A B} (p : prog world A) (q : A -> prog world B) :
  guar (on_db spared) p -> (forall a, always I G (q a)) -> always I G (bind p q).
Proof. intros Hp Hq. apply always_then; [by apply spared_always | exact Hq]. Qed.

Lemma spared_Revoke id reason actor : id <> k -> guar (on_db spared) (CaService.Revoke sink id reason actor).
Proof. intros Hid. guar_walk spared_leaf. Qed.
Lemma spared_Hold id actor : id <> k -> guar (on_db spared) (CaLifecycle.Hold sink id actor).
Proof. intros Hid. guar_walk spared_leaf. Qed.
Lemma spared_Release id actor : id <> k -> guar (on_db spared) (CaLifecycle.Release sink id actor).
Proof. intros Hid. guar_walk spared_leaf. Qed.
Lemma spared_revoke_old in_ old serial : other old -> guar (on_db spared) (CaLifecycle.revoke_old in_ old serial).
Proof. unfold other. intros Hid. guar_walk spared_leaf. Qed.
Lemma spared_SetRenewedFrom id pred : id <> k -> guar (on_db spared) (Store.SetRenewedFrom id pred).
Proof. intros Hid. guar_walk spared_leaf. Qed.

Lemma always_Renew id in_ : id <> k -> always I G (CaLifecycle.Renew cfg master sink id in_).
Proof.
  intros Hid. unfold CaLifecycle.Renew. apply (always_found other); [guar_walk spared_leaf | |].
  { eapply returns_mono; [apply honest_GetCertificate |]. intros [c |] [_ Hn]; [| done]. unfold other. simpl in Hn. congruence. }
  intros old Hold. apply always_next; [guar_walk spared_leaf |]. intros caRef.
  destruct (CaLifecycle.subjectOf old) as [subject |]; [| done].
  apply (always_found (fun _ => True)); [guar_walk spared_leaf | eapply returns_mono; [apply returns_any |]; by intros [] |].
  intros issue _. apply (always_found (fun res => other (CaService.res_Certificate res))); [apply spared_Issue | apply issued_other |].
  intros res Hres. cbv zeta. apply spared_always, guar_bind; [by apply spared_SetRenewedFrom |]. intros [u |]; [| done].
  apply guar_bind; [by apply spared_revoke_old |]. intros [rv |]; [| done]. guar_walk spared_leaf.
Qed.

Lemma spared_lookup r : guar (on_db spared) (apiLookupCert r).
Proof. guar_walk spared_leaf. Qed.
Lemma spared_page_lookup r : guar (on_db spared) (Pages.lookupCert r).
Proof. guar_walk spared_leaf. Qed.

(** A handler that looks its certificate up and goes on with another than ours. *)
Lemma always_lookup r (h : Certificate.t -> API reply) :
  outsider r -> (forall c, other c -> always I G (h c)) -> always I G (c <-! apiLookupCert r ;; h c).
Proof. intros Hr Hh. apply (always_found other); [apply spared_lookup | by apply lookup_other | exact Hh]. Qed.
Lemma always_page_lookup r (h : Certificate.t -> API reply) :
  outsider r -> (forall c, other c -> always I G (h c)) -> always I G (c <-! Pages.lookupCert r ;; h c).
Proof. intros Hr Hh. apply (always_found other); [apply spared_page_lookup | by apply page_lookup_other | exact Hh]. Qed.

Lemma always_or_fail {A} f (p : M A) : always I G p -> always I G (or_fail f p).
Proof. intros Hp. apply always_then; [exact Hp |]. by intros [a | e]. Qed.

Lemma always_err {E A B} (p : prog world (result E A)) (q : A -> prog world (result E B)) :
  always I G p -> (forall a, always I G (q a)) -> always I G (x <-! p ;; q x).
Proof. intros Hp Hq. apply always_then; [exact Hp |]. by intros [a | e]. Qed.

Lemma spared_renderCertDetail c key : guar (on_db spared) (Pages.renderCertDetail cfg c key).
Proof. guar_walk spared_leaf. Qed.
#[local] Hint Resolve spared_renderCertDetail : guar.

Lemma always_rest rt r :
  outsider r -> Api.admin_only rt = false ->
  always I G (Api.handler cfg acfg lcfg master save_admin_hash sink fuel rt r).
Proof.
  intros Hr Hrt. destruct rt; try done; try solve [apply spared_always; guar_walk spared_leaf]; cbn [Api.handler].
  - apply always_lookup; [done |]. intros c Hc. apply spared_always. pose proof (spared_Revoke (Certificate.ID c)) as Hrev.
    guar_walk spared_leaf.
  - apply always_lookup; [done |]. intros c Hc. apply always_next; [guar_walk spared_leaf |]. intros [in_ |]; [| done].
    apply always_err; [by apply always_or_fail, always_Renew |]. intros res. apply spared_always. guar_walk spared_leaf.
  - apply always_lookup; [done |]. intros c Hc. apply spared_always. pose proof (spared_Hold (Certificate.ID c)). guar_walk spared_leaf.
  - apply always_lookup; [done |]. intros c Hc. apply spared_always. pose proof (spared_Release (Certificate.ID c)). guar_walk spared_leaf.
Qed.

(** *** Selections *)

Definition others (ids : list Z) : Prop := Forall (fun id => id <> k) ids.

Lemma numbered_other id : id <> k -> returns I (fun r => match r with Ok c => other c | Err _ => True end) (Store.GetCertificate id).
Proof.
  intros Hid. eapply returns_mono; [apply honest_GetCertificate |]. intros [c |] [_ Hn]; [| done]. unfold other. simpl in Hn. congruence.
Qed.

Lemma selected_other l r : outsider r -> returns I others (Pages.selected_ids l r).
Proof.
  intros Hr. induction l as [| s l IH]; cbn [Pages.selected_ids]; [apply List.Forall_nil |]. cbv zeta.
  destruct (_ =? 0)%Z; [exact IH |]. destruct (is_admin r) eqn:Hadm; [by destruct Hr; congruence |].
  eapply returns_bind; [apply honest_GetCertificate |]. intros c [Hh Hn].
  eapply returns_bind; [exact IH |]. intros ids Hids. destruct c as [c |]; [| exact Hids].
  destruct (may_touch _ c) eqn:Hm; [| exact Hids]. apply List.Forall_cons; [| exact Hids]. simpl in Hn. intros Hk.
  apply (owner_may_touch r c Hr Hm), Hh. congruence.
Qed.

Lemma always_each {A} (f : Z -> M A) ids n errs :
  (forall id, id <> k -> always I G (f id)) -> others ids -> always I G (Pages.each f ids n errs).
Proof.
  intros Hf. revert n errs. induction ids as [| id ids IH]; intros n errs Hids; [done |]. cbn [Pages.each].
  inversion Hids as [| ? ? Hid Hrest]; subst. apply always_then; [by apply Hf |]. intros [a | e]; by apply IH.
Qed.

Lemma listed_other ids targets :
  others ids -> Forall other targets ->
  returns I (fun r => match r with Ok l => Forall other l | Err _ => True end) (CaLifecycle.bulk_listed ids targets).
Proof.
  revert targets. induction ids as [| id ids IH]; intros targets Hids Ht; [exact Ht |]. cbn [CaLifecycle.bulk_listed].
  inversion Hids as [| ? ? Hid Hrest]; subst. eapply returns_bind; [by apply numbered_other |]. intros [c | e] Hc; [| done].
  apply IH; [done |]. apply Forall_app. split; [done |]. by apply List.Forall_cons.
Qed.

Lemma spared_bulk_each reason targets out : Forall other targets -> guar (on_db spared) (CaLifecycle.bulk_each reason targets out).
Proof.
  revert out. induction targets as [| c targets IH]; intros out Ht; [done |]. cbn [CaLifecycle.bulk_each].
  inversion Ht as [| ? ? Hc Hrest]; subst. unfold other in Hc. apply guar_bind; [guar_walk spared_leaf |]. intros out'. by apply IH.
Qed.
Lemma spared_bulk_listed ids targets : guar (on_db spared) (CaLifecycle.bulk_listed ids targets).
Proof. revert targets. induction ids as [| id ids IH]; intros targets; cbn [CaLifecycle.bulk_listed]; guar_walk spared_leaf. Qed.

Lemma always_BulkRevoke ids reason actor : others ids -> always I G (CaLifecycle.BulkRevoke sink (CaLifecycle.mkBulk ids None reason actor)).
Proof.
  intros Hids. unfold CaLifecycle.BulkRevoke. cbn [CaLifecycle.bi_IDs CaLifecycle.bi_Filter CaLifecycle.bi_Reason CaLifecycle.bi_Actor].
  apply (always_found (Forall other)); [apply spared_bulk_listed | apply listed_other; [done | apply List.Forall_nil] |].
  intros targets Ht. apply spared_always. unfold CaLifecycle.bulk_found. cbn [bind]. destruct targets as [| c l]; [done |].
  apply guar_bind; [by apply spared_bulk_each |]. intros out. guar_walk spared_leaf.
Qed.

Lemma always_flashed {A} (p : M A) done to : always I G p -> always I G (Pages.flashed p done to).
Proof. intros Hp. apply always_then; [exact Hp |]. by intros [a | e]. Qed.

Lemma always_bulk f r : outsider r -> always I G (Pages.handleCertBulkAction cfg master sink f r).
Proof.
  intros Hr. unfold Pages.handleCertBulkAction. apply always_next; [guar_walk spared_leaf |]. intros [u |]; [| done].
  destruct (Pages.FormList f _) as [| s l]; [done |].
  eapply always_bind; [apply spared_always, spared_selected_ids | by apply selected_other |].
  intros ids Hids. destruct ids as [| id ids]; [done |].
  destruct (str_is _ "revoke"); [apply always_flashed; by apply always_BulkRevoke |].
  destruct (str_is _ "hold"); [apply always_then; [apply always_each; [| done]; intros; by apply spared_always, spared_Hold | done] |].
  destruct (str_is _ "release"); [apply always_then; [apply always_each; [| done]; intros; by apply spared_always, spared_Release | done] |].
  destruct (str_is _ "renew"); [| done]. apply always_then; [apply always_each; [| done]; intros; by apply always_Renew | done].
Qed.

Lemma always_page rt f r :
  outsider r -> Pages.admin_only rt = false ->
  always I G (Pages.handler cfg acfg lcfg master save_admin_hash sink fuel rt f r).
Proof.
  intros Hr Hrt. destruct rt; try done; try solve [apply spared_always; guar_walk spared_leaf]; cbn [Pages.handler].
  - by apply always_bulk.
  - apply always_page_lookup; [done |]. intros c Hc. by apply always_flashed, spared_always, spared_Revoke.
  - apply always_page_lookup; [done |]. intros c Hc. apply always_then; [by apply always_Renew |].
    intros [res |]; apply spared_always; guar_walk spared_leaf.
  - apply always_page_lookup; [done |]. intros c Hc. by apply always_flashed, spared_always, spared_Hold.
  - apply always_page_lookup; [done |]. intros c Hc. by apply always_flashed, spared_always, spared_Release.
Qed.

Definition admitted (q : request) : Prop := admin_only q = false /\ outsider (call q).

Lemma always_perform q : admitted q -> always I G (perform q).
Proof.
  intros [Hadm Hr]. unfold perform, answer. apply always_then; [| by intros [a | a]].
  destruct q as [rt r | rt f r]; [by apply always_rest | by apply always_page].
Qed.

(** C20.  Whatever requests users other than its owner make who are no
    administrators, through portal and API at once, statement by statement
    interleaved: a certificate somebody requested stays as it is, row for row,
    and in the store. *)
Theorem others_leave_my_certificate qs w w' ps :
  mine (w_db w) -> Forall admitted qs ->
  rtc pstep (w, map perform qs) (w', ps) -> the_row (w_db w') = the_row (w_db w).
Proof.
  intros Hm Hqs Hsteps. apply (always_pool I G) with (s := w) (ps := map perform qs) (ps' := ps) in Hsteps as [_ HG]; [exact HG | | | exact Hm |].
  - by intros s.
  - intros s1 s2 s3 H12 H23. unfold on_db, untouched in *. congruence.
  - apply Forall_map. eapply Forall_impl; [exact Hqs |]. intros q. apply always_perform.
Qed.
End others.

(** ** A server for the examples *)

#[export] Instance no_pkcs12 : CaTools.Pkcs12 := {| CaTools.pkcs12_Encode n key leaf chain pw := Err (Driver "no PKCS#12") |}.
#[export] Instance no_directory : LdapAuth.Directory := {|
  LdapAuth.Pool := unit; LdapAuth.Conn := unit; LdapAuth.Entry := unit;
  LdapAuth.os_ReadFile path := Ret (Err (Driver "no such file"));
  LdapAuth.AppendCertsFromPEM pem := None;
  LdapAuth.DialURL url tc timeout := Ret (Err (Driver "no directory"));
  LdapAuth.SetTimeout conn timeout := Ret tt;
  LdapAuth.conn_StartTLS conn tc := Ret (Err (Driver "no directory"));
  LdapAuth.Close conn := Ret tt;
  LdapAuth.Bind conn dn password := Ret (Err (Driver "no directory"));
  LdapAuth.Search conn rq := Ret (Err (Driver "no directory"));
  LdapAuth.is_invalid_credentials e := false;
  LdapAuth.EscapeDN s := s; LdapAuth.EscapeFilter s := s;
  LdapAuth.entry_DN e := EmptyString;
  LdapAuth.GetAttributeValues e a := [];
  LdapAuth.GetAttributeValue e a := EmptyString |}.

Definition acfg : Auth.Config := Auth.mkConfig Auth.AuthModeBoth "admin" "" "" (12 * Hour) 0 0.
Definition lcfg : LdapAuth.Config :=
  LdapAuth.mkConfig false "" false false "" "" "" "" "" "" "" "" "" "" "" "" [] [] 0.
Definition doing (q : request) : prog world reply :=
  AccessFacts.perform Sample.cfg acfg lcfg Sample.master (fun _ => Ret (Ok tt)) Sample.no_sink 9 q.

Definition by_user (u : User.t) (id : string) : Call := mkCall u None "10.0.0.1" id "".
Definition form (kvs : list (string * string)) : Pages.Form :=
  Pages.mkForm (fun k => match List.find (fun kv => str_is (fst kv) k) kvs with Some kv => snd kv | None => EmptyString end)
    (fun _ => []) (fun _ => EmptyString) "" (fun _ => EmptyString) None.


Definition person (id : Z) (name role : string) : User.t := User.mk id name SourceLocal "" "" role false "" 0 None.
Definition eve : User.t := person 2 "eve" RoleUser.

Definition cert (id : Z) (cn owner : string) (from : option Z) : Certificate.t :=
  Certificate.mk id 1 "" (Str.itoa id) cn "" [] "server" "rsa-2048" ("CERTIFICATE:" +:+ Str.itoa id +:+ ";leaf;" +:+ cn +:+ ";" +:+ cn)%go
    "" "" false "" 0 (10 ^ 20) StatusActive None 0 owner "" 0 from.
Definition issued (cs : list Certificate.t) : world :=
  mkWorld (set_table Certificates (mkTable (cs : list (row Certificates)) 9) Sample.store) 1000 [] [] 0.
Definition statuses (w : world) : list string := map Certificate.Status (rows (w_db w Certificates)).

(** Eve reaches for what Jo requested: directly, in a selection, by its serial;
    and puts her own on hold. *)
Definition jo_and_eve : world := issued [cert 1 "jo.test" "jo" None; cert 2 "eve.test" "eve" None].
Definition selection : Pages.Form :=
  Pages.mkForm (Pages.FormValue (form [("action", "hold")]%string)) (fun _ => ["1"; "2"]%string) (fun _ => EmptyString) "" (fun _ => EmptyString) None.
Definition eves_requests : list request :=
  [Rest (CertRevoke None) (by_user eve "1"); Portal Pages.CertBulkAction selection (by_user eve "");
   Portal Pages.CertRevoke (form []) (by_user eve "1"); Rest CertRelease (by_user eve "1")].
Definition meanwhile : world * list (prog world reply) :=
  schedule (List.concat (replicate 20 [0; 1; 2; 3])) (jo_and_eve, map doing eves_requests).

Lemma others_leave_my_certificate_witness :
  statuses (fst meanwhile) = [StatusActive; StatusRevoked] /\
  the_row 1 (w_db (fst meanwhile)) = [cert 1 "jo.test" "jo" None].
Proof.
  split; [vm_compute; reflexivity |].
  change [cert 1 "jo.test" "jo" None] with (the_row 1 (w_db jo_and_eve)).
  apply (others_leave_my_certificate 1 "jo" ltac:(discriminate) Sample.cfg acfg lcfg Sample.master (fun _ => Ret (Ok tt)) Sample.no_sink 9)
    with (qs := eves_requests) (ps := snd meanwhile).
  - intros a b c d e. exact Logic.I.
  - intros h. exact Logic.I.
  - split; [vm_compute; discriminate |]. intros c [-> | [-> | []%not_elem_of_nil]%elem_of_cons]%elem_of_cons; [done |].
    vm_compute. discriminate.
  - repeat constructor; discriminate.
  - rewrite <- surjective_pairing. apply schedule_rtc.
Defined.

(** ** What is shown to everybody *)

(** The certificates on a page. *)
Definition shown (a : reply) : list string :=
  map Certificate.CommonName
    match a with
    | Rendered (PDashboard _ _ recent expiring) => recent ++ expiring
    | Rendered (PCA _ _ certs _ _ _ _ _ _) => certs
    | Rendered (PCerts l _ _ _ _) => l
    | Json _ (JCerts l _ _ _) | Json _ (JHistory l _) => l
    | _ => []
    end.

(** The list of certificates is cut down to the caller's own... *)
Lemma list_is_own q r : is_admin r = false -> caller r <> "" ->
  forall now c, Store.search_matches now (list_filter q r) c = true -> Certificate.RequestedBy c = caller r.
Proof.
  intros Hadm Hne now c Hm. unfold Store.search_matches in Hm. cbn [list_filter Store.f_RequestedBy] in Hm.
  rewrite Hadm in Hm. unfold nonempty in Hm at 2. rewrite (proj2 (String.eqb_neq _ _) Hne) in Hm. cbn [negb] in Hm.
  repeat match goal with H : _ && _ = true |- _ => apply andb_true_iff in H as [? ?] end. by apply str_is_eq.
Qed.

(** ... the dashboard is not; and the history of a certificate shows what it
    replaced, whoever requested that. *)
Example dashboard_shows_everybody :
  shown (fst (run (doing (Portal Pages.Dashboard (form []) (by_user eve ""))) jo_and_eve)) = ["eve.test"; "jo.test"]%string.
Proof. by vm_compute. Qed.

Example history_shows_others :
  shown (fst (run (doing (Rest CertHistory (by_user eve "2"))) (issued [cert 1 "jo.test" "jo" None; cert 2 "eve.test" "eve" (Some 1%Z)])))
  = ["jo.test"; "eve.test"]%string.
Proof. by vm_compute. Qed.

(** ** A bulk revocation that is not filtered *)

(** Everything matches. *)
Definition filters_nothing (f : Store.CertFilter) : Prop := forall now c, Store.search_matches now f c = true.

Definition known_status (s : string) : bool := str_is s StatusActive || str_is s StatusExpired || str_is s StatusRevoked.

Lemma blank_filter_matches b f :
  bulk_filter b = Some f -> (bb_CAID b <= 0)%Z -> bb_Profile b = "" -> Str.TrimSpace (bb_Query b) = "" -> known_status (bb_Status b) = false ->
  filters_nothing f.
Proof.
  unfold bulk_filter. intros Hf Hca Hp Hq Hs. destruct (_ || _); [injection Hf as <- | done]. intros now c.
  unfold Store.search_matches. cbn [Store.f_Query Store.f_CAID Store.f_Status Store.f_Profile Store.f_RequestedBy Store.f_ExpiringIn].
  rewrite Hq, Hp. unfold known_status in Hs. apply orb_false_iff in Hs as [[Hs1 Hs2]%orb_false_iff Hs3]. rewrite Hs1, Hs2, Hs3.
  destruct (Z.ltb_spec 0 (bb_CAID b)); [lia | done].
Qed.

Definition admin_call : Call := by_user (person 1 "ann" RoleAdmin) "".
Definition blank : BulkBody := mkBulkBody [] " " 0 "" "" (Text "keyCompromise").
Definition misspelt : BulkBody := mkBulkBody [] "" 0 "" "Expired" Absent.

(** The refusal of an unfiltered bulk revocation looks at the fields as
    they were sent, the search at what is left of them: a query of blanks, or a
    status it does not know, is accepted and matches every certificate. *)
Theorem unfiltered_bulk_revocation :
  (forall b f, bulk_filter b = Some f -> (bb_CAID b <= 0)%Z -> bb_Profile b = "" -> Str.TrimSpace (bb_Query b) = "" ->
     known_status (bb_Status b) = false -> filters_nothing f) /\
  statuses (snd (run (doing (Rest (CertBulkRevoke (Ok blank)) admin_call)) jo_and_eve)) = [StatusRevoked; StatusRevoked] /\
  statuses (snd (run (doing (Rest (CertBulkRevoke (Ok misspelt)) admin_call)) jo_and_eve)) = [StatusRevoked; StatusRevoked].
Proof. split; [exact blank_filter_matches |]. split; by vm_compute. Qed.

End AccessFacts.
