(* ===== verification/UserFacts.v ===== *)
(** * The last administrator

    No request alone leaves the server without an enabled administrator; two at
    once can, and so can one whose reading of the database fails. *)

From S2P Require Import Prelude GoStrings Effects Models Schema SqlFacts TableFacts Store Pki Sealing CaService CaFacts CaLifecycle CaImport CaTools Downloads AcmeProtocol Auth Gate Directory Api Pages Sample AccessFacts.

Module UserFacts.
Import CaFacts Http Api AccessFacts.

Definition enabled_admin (u : User.t) : bool := IsAdmin (Some u) && negb (User.Disabled u).
Definition administered (d : db) : Prop := exists u, u ∈ rows (d Users) /\ enabled_admin u = true.
(** Somebody else could do the work of [id]. *)
Definition spare (id : Z) (d : db) : Prop := exists u, u ∈ rows (d Users) /\ enabled_admin u = true /\ User.ID u <> id.

Lemma spare_administered id d : spare id d -> administered d.
Proof. intros (u & Hu & He & _). by exists u. Qed.

(** Whoever is not alone among those that satisfy [p] has company. *)
Lemma two_of_them {A} (p : A -> bool) (key : A -> Z) l k :
  NoDup (map key l) -> (1 < length (List.filter p l))%nat -> exists x, x ∈ l /\ p x = true /\ key x <> k.
Proof.
  intros Hnd Hlen. destruct (List.filter p l) as [| a [| b rest]] eqn:Hf; simpl in Hlen; [lia | lia |].
  assert (forall x, x ∈ a :: b :: rest -> x ∈ l /\ p x = true) as Hin.
  { intros x Hx. rewrite <- Hf in Hx. apply list_elem_of_In, List.filter_In in Hx as [Hx Hp]. by rewrite list_elem_of_In. }
  assert (key a <> key b) as Hab.
  { assert (sublist (a :: b :: rest) l) as Hsub by (rewrite <- Hf; clear; induction l as [| x l IH]; simpl; [constructor | destruct (p x); by constructor]).
    intros Heq. assert (NoDup (map key (a :: b :: rest))) as Hnd'.
    { eapply sublist_NoDup; [exact Hnd |]. clear -Hsub. induction Hsub; simpl; by constructor. }
    simpl in Hnd'. rewrite Heq in Hnd'. apply NoDup_cons in Hnd' as [Hnot _]. apply Hnot. by left. }
  destruct (Z.eq_dec (key a) k) as [Ha | Ha]; [exists b | exists a].
  - destruct (Hin b) as [? ?]; [right; by left |]. repeat split; congruence || done.
  - by destruct (Hin a) as [? ?]; [by left |].
Qed.

Section administrators.
Context `{Std : Pki.Std} `{Ciphers} `{!CaTools.Pkcs12} `{Auth.Passwords} `{LdapAuth.Directory} `{RowOrder}.
Context (cfg : CaService.Config) (acfg : Auth.Config) (lcfg : LdapAuth.Config) (master : string).
Context (save_admin_hash : string -> M unit).
Context (sink : string -> string -> string -> string -> string -> prog world unit).
Context (fuel : nat).

(** Leaves the users alone, and no constraint broken. *)
Definition minds_users (d d' : db) : Prop := keeps [Users] d d' /\ (violated d = None -> violated d' = None).

#[local] Instance minds_refl : Reflexive minds_users.
Proof. by split. Qed.
#[local] Instance minds_trans : Transitive minds_users.
Proof. intros d1 d2 d3 [K1 V1] [K2 V2]. split; [by etrans | auto]. Qed.

Context (Hsink : forall a b c d e, guar (on_db minds_users) (sink a b c d e)).
Context (Hsave : forall h, guar (on_db minds_users) (save_admin_hash h)).
#[local] Hint Resolve Hsink Hsave : guar.

Ltac minds_leaf := split; [frame | by intros].

(** Nobody broke a constraint, and there is an administrator whatever becomes
    of [t]; unless [t] was one when it was looked up. *)
Record safe_for (t : User.t) (d : db) : Prop := {
  safe_valid : violated d = None;
  safe_admin : administered d;
  safe_spare : IsAdmin (Some t) = true \/ spare (User.ID t) d }.
Definition spared_for (t : User.t) (d : db) : Prop := violated d = None /\ spare (User.ID t) d.

Lemma spared_safe t d : spared_for t d -> safe_for t d.
Proof. intros [Hv Hs]. split; [done | by eapply spare_administered | by right]. Qed.

Lemma safe_minds t d d' : minds_users d d' -> safe_for t d -> safe_for t d'.
Proof.
  intros [Hk Hv] [Hval Hadm Hsp]. unfold administered, spare in *. split; [auto | |]; unfold administered, spare; by rewrite (Hk Users) by set_solver.
Qed.

Lemma wp_minds {A} (p : prog world A) (t : User.t) (Q : A -> world -> Prop) w :
  guar (on_db minds_users) p -> safe_for t (w_db w) -> (forall a w', safe_for t (w_db w') -> Q a w') -> wp p Q w.
Proof.
  intros Hp Hs HQ. eapply wp_mono; [apply (wp_guar minds_users); [exact minds_refl | exact minds_trans | exact Hp] |].
  intros a w' Hm. apply HQ. exact (safe_minds t _ _ Hm Hs).
Qed.

(** The rows of others stay, whatever happens to the target's. *)
Lemma spare_update t f d :
  spare (User.ID t) d -> spare (User.ID t) (snd (update Users (fun u => User.ID u =? User.ID t)%Z f d)).
Proof.
  intros (u & Hu & He & Hne). exists u. rewrite update_eq. cbn [rows]. split; [| done].
  apply elem_of_update_where. exists u. split; [done |]. by rewrite (proj2 (Z.eqb_neq _ _) Hne).
Qed.

(** A table no cascade leads back to. *)
Lemma delete_cascade_root n T p d :
  forallb (fun f => negb (bool_decide (parent f = T) && cascade f) || negb (reaches n (child f) T)) fkeys = true ->
  rows (delete_cascade (S n) T p d T) = delete_where p (rows (d T)).
Proof.
  intros Hun. cbn [delete_cascade]. apply (fold_left_inv (fun d' => rows (d' T) = delete_where p (rows (d T)))).
  - unfold drop_rows. by rewrite set_table_eq.
  - intros d' f Hin Hd'. destruct (_ && cascade f) eqn:E; [| done]. rewrite delete_cascade_frame; [done |].
    rewrite forallb_forall in Hun. specialize (Hun f). rewrite E in Hun. cbn [negb orb] in Hun.
    apply negb_true_iff, Hun. by apply list_elem_of_In.
Qed.

Lemma spare_delete t d :
  spare (User.ID t) d -> spare (User.ID t) (snd (delete Users (fun u => User.ID u =? User.ID t)%Z d)).
Proof.
  intros (u & Hu & He & Hne). exists u. unfold delete. cbn [snd]. rewrite (delete_cascade_root 3) by (vm_compute; reflexivity). split; [| done].
  apply elem_of_delete_where. split; [done |]. by apply Z.eqb_neq.
Qed.

Lemma user_ids_NoDup d : violated d = None -> NoDup (map User.ID (rows (d Users))).
Proof.
  intros Hv. apply (clashes_NoDup (clash Users)); [| by apply violated_clashes].
  intros a b Hab. apply orb_true_iff. left. by apply Z.eqb_eq.
Qed.

Lemma wp_isLastAdmin t (Q : bool -> world -> Prop) w :
  safe_for t (w_db w) -> (forall w', safe_for t (w_db w') -> Q true w') ->
  (forall w', spared_for t (w_db w') -> Q false w') -> wp (isLastAdmin t) Q w.
Proof.
  intros Hs Ht Hf. unfold isLastAdmin. destruct (IsAdmin (Some t)) eqn:Ha; cbn [negb].
  - apply wp_bind, wp_query; [intros; apply wp_Ret, Ht; by destruct w |]. intros fs. apply wp_Ret.
    destruct (_ <=? 1)%nat eqn:Hle; [apply Ht; by destruct w |]. apply Hf. apply Nat.leb_gt in Hle.
    change (w_db (with_faults fs w)) with (w_db w). split; [by destruct Hs |].
    destruct (two_of_them enabled_admin User.ID (order_by (fun a b => Store.str_le (User.Username a) (User.Username b)) (rows (w_db w Users))) (User.ID t))
      as (u & Hu & He & Hne); [| exact Hle |].
    + rewrite (order_by_perm _ (rows (w_db w Users))). apply user_ids_NoDup. by destruct Hs.
    + exists u. by rewrite elem_of_order_by in Hu.
  - apply wp_Ret, Hf. split; [by destruct Hs |]. destruct (safe_spare _ _ Hs) as [? | ?]; [congruence | done].
Qed.

(** An UPDATE of the target's row. *)
Lemma wp_update_target t f (Q : result error unit -> world -> Prop) w :
  spared_for t (w_db w) -> (forall r w', spared_for t (w_db w') -> Q r w') ->
  wp (exec (update Users (fun u => User.ID u =? User.ID t)%Z f)) Q w.
Proof.
  intros [Hv Hs] HQ. apply wp_exec; [intros; by apply HQ |]. intros fs Hv'. apply HQ. split; [exact Hv' | by apply spare_update].
Qed.

(** An UPDATE that takes nothing from an administrator. *)
Lemma wp_update_kindly t f (Q : result error unit -> world -> Prop) w :
  (forall u, enabled_admin u = true -> enabled_admin (f u) = true) ->
  safe_for t (w_db w) -> (forall r w', safe_for t (w_db w') -> Q r w') ->
  wp (exec (update Users (fun u => User.ID u =? User.ID t)%Z f)) Q w.
Proof.
  intros Hf Hs HQ. apply wp_exec; [intros; apply HQ; by destruct w |]. intros fs Hv'. apply HQ. destruct Hs as [_ (u & Hu & He) Hsp].
  split; [exact Hv' | | destruct Hsp as [? | ?]; [by left | right; by apply spare_update]].
  exists (if (User.ID u =? User.ID t)%Z then f u else u). change (w_db (with_db ?d _)) with d. rewrite update_eq. cbn [rows]. split.
  - apply elem_of_update_where. by exists u.
  - destruct (_ =? _)%Z; [by apply Hf | exact He].
Qed.

(** *** Who a request is about *)

Definition base (d : db) : Prop := violated d = None /\ administered d.

Lemma safe_base t d : safe_for t d -> base d.
Proof. by intros []. Qed.

Lemma found_safe t d : base d -> t ∈ rows (d Users) -> safe_for t d.
Proof.
  intros [Hv Ha] Ht. split; [done | done |]. destruct (IsAdmin (Some t)) eqn:Hadm; [by left | right].
  destruct Ha as (u & Hu & He). exists u. split; [done |]. split; [done |]. intros Heq.
  assert (u = t) as ->.
  { apply (clashes_inj (clash Users) User.ID (rows (d Users))); [| by apply violated_clashes | done | done | done].
    intros a b Hab. apply orb_true_iff. left. by apply Z.eqb_eq. }
  unfold enabled_admin in He. by rewrite Hadm in He.
Qed.

Lemma with_faults_db fs w : w_db (with_faults fs w) = w_db w.
Proof. by destruct w. Qed.

Lemma wp_user_row (f : db -> option User.t) (Q : result error User.t -> world -> Prop) w :
  base (w_db w) -> (forall t, f (w_db w) = Some t -> t ∈ rows (w_db w Users)) ->
  (forall e w', base (w_db w') -> Q (Err e) w') -> (forall t w', base (w_db w') -> safe_for t (w_db w') -> Q (Ok t) w') ->
  wp (query_row f) Q w.
Proof.
  intros Hb Hf He Hok. apply wp_query_row; intros; [apply He | apply He | apply Hok; [| apply found_safe]]; rewrite with_faults_db; auto.
Qed.

Lemma wp_GetUser id (Q : result error User.t -> world -> Prop) w :
  base (w_db w) -> (forall e w', base (w_db w') -> Q (Err e) w') -> (forall t w', base (w_db w') -> safe_for t (w_db w') -> Q (Ok t) w') ->
  wp (Store.GetUser id) Q w.
Proof. intros Hb. apply wp_user_row; [done |]. intros t Ht. by apply find_Some in Ht as [Ht _]. Qed.

Lemma wp_GetUserByName name (Q : result error User.t -> world -> Prop) w :
  base (w_db w) -> (forall e w', base (w_db w') -> Q (Err e) w') -> (forall t w', base (w_db w') -> safe_for t (w_db w') -> Q (Ok t) w') ->
  wp (Store.GetUserByName name) Q w.
Proof.
  intros Hb. apply wp_user_row; [done |]. intros t Ht. apply head_Some_elem_of, elem_of_scan, elem_of_select_where in Ht. by destruct Ht.
Qed.

(** ** The operations *)

Abbreviation stays_safe t := (fun (_ : result reply unit) w' => safe_for t (w_db w')).

Lemma wp_or_fail {A} f (p : M A) (Q : result reply A -> world -> Prop) w :
  wp p (fun r w' => Q (match r with Ok a => Ok a | Err e => Err (f e) end) w') w -> wp (or_fail f p) Q w.
Proof. intros Hp. apply wp_bind. eapply wp_mono; [exact Hp |]. intros [a | e] w' HQ; by apply wp_Ret. Qed.

Lemma kind_role role u : str_is role RoleAdmin = true -> enabled_admin u = true -> enabled_admin (User.set_Role role u) = true.
Proof. intros Hr He. unfold enabled_admin in *. apply andb_true_iff in He as [_ He]. apply andb_true_iff. split; [exact Hr | exact He]. Qed.

Lemma wp_patch_role t role w : safe_for t (w_db w) -> wp (patch_role t role) (stays_safe t) w.
Proof.
  intros Hs. unfold patch_role. destruct role as [role |]; [| by apply wp_Ret]. cbv zeta. unfold patched_role.
  destruct (str_is role RoleAdmin) eqn:Hr; apply wp_bind.
  - apply wp_Ret. apply wp_or_fail. apply wp_update_kindly; [by intros u; apply kind_role | done | done].
  - apply wp_isLastAdmin; [done | by intros; apply wp_Ret |]. intros w' Hs'. apply wp_or_fail.
    apply wp_update_target; [done |]. intros r w'' Hs''. by apply spared_safe.
Qed.

Lemma wp_patch_disabled t disabled w : safe_for t (w_db w) -> wp (patch_disabled t disabled) (stays_safe t) w.
Proof.
  intros Hs. unfold patch_disabled. destruct disabled as [[] |]; [| | by apply wp_Ret]; apply wp_bind.
  - apply wp_isLastAdmin; [done | by intros; apply wp_Ret |]. intros w1 H1'. apply wp_bind, wp_or_fail.
    apply wp_update_target; [done |]. intros [u | e] w2 H2'; apply spared_safe in H2'; [| by apply wp_Ret].
    apply wp_bind. apply (wp_minds _ t); [guar_walk minds_leaf | done |]. intros. by apply wp_Ret.
  - apply wp_Ret, wp_bind, wp_or_fail. apply wp_update_kindly; [| done |].
    + intros u He. unfold enabled_admin in *. apply andb_true_iff in He as [He _]. apply andb_true_iff. by split.
    + intros [u | e] w2 H2'; by apply wp_Ret.
Qed.

Lemma wp_SetPassword t p (Q : result error unit -> world -> Prop) w :
  safe_for t (w_db w) -> (forall r w', safe_for t (w_db w') -> Q r w') -> wp (Auth.SetPassword acfg save_admin_hash t p) Q w.
Proof.
  intros Hs HQ. unfold Auth.SetPassword. destruct (negb _); [by apply wp_Ret, HQ |].
  destruct (Auth.ValidatePassword p); [| by apply wp_Ret, HQ]. apply wp_bind_err, (wp_minds _ t); [guar_walk minds_leaf | done |].
  intros [h | e] w1 H1'; [| by apply HQ]. apply wp_bind_err. apply wp_update_kindly; [by intros | done |].
  intros [u | e] w2 H2'; [| by apply HQ]. apply (wp_minds _ t); [guar_walk minds_leaf | done | done].
Qed.

Lemma wp_patch_password t p w : safe_for t (w_db w) -> wp (patch_password acfg save_admin_hash t p) (stays_safe t) w.
Proof.
  intros Hs. unfold patch_password. destruct p as [p |]; [| by apply wp_Ret]. apply wp_or_fail. by apply wp_SetPassword.
Qed.

Definition keeps_base {A} (_ : A) (w' : world) : Prop := base (w_db w').

Lemma wp_about {A B} (p : prog world (result reply A)) (q : A -> prog world (result reply B)) t w :
  wp p (fun _ w' => safe_for t (w_db w')) w -> (forall a w', safe_for t (w_db w') -> wp (q a) keeps_base w') ->
  wp (x <-! p ;; q x)%prog keeps_base w.
Proof.
  intros Hp Hq. apply wp_bind. eapply wp_mono; [exact Hp |]. intros [a | e] w' Hs; [by apply Hq | apply wp_Ret; by eapply safe_base].
Qed.

Lemma wp_rest {A} (p : prog world A) t w : guar (on_db minds_users) p -> safe_for t (w_db w) -> wp p keeps_base w.
Proof. intros Hp Hs. apply (wp_minds p t); [done | done |]. intros a w'. apply safe_base. Qed.

(** *** A new account *)

Definition named (name : string) (d : db) : option User.t :=
  head (scan (select Users (fun u => str_is (Str.ToLower (User.Username u)) (Str.ToLower name)) d)).

Lemma administered_more d d' x : rows (d' Users) = rows (d Users) ++ [x] -> administered d -> administered d'.
Proof. intros Hr (u & Hu & He). exists u. rewrite Hr. split; [apply elem_of_app; by left | done]. Qed.

(** A row for a name nobody has, or nothing. *)
Lemma wp_upsert_new u w :
  sound w -> administered (w_db w) -> named (User.Username u) (w_db w) = None ->
  wp (Store.upsertUserOnce u)
     (fun r w' => sound w' /\ administered (w_db w') /\ match r with Ok _ => True | Err _ => w_db w' = w_db w end) w.
Proof.
  intros Hw Ha Hn. unfold Store.upsertUserOnce. apply wp_bind. unfold Store.GetUserByName. apply wp_row_sound; [done |].
  change (head _) with (named (User.Username u) (w_db w)). rewrite Hn. cbn [is_not_found errors_Is ErrNotFound String.eqb]. cbv beta iota.
  apply wp_bind, wp_now_sound; [done |]. intros now w1 Hw1 D1 _. apply (wp_insert_back Users _ (fun e => e)); [done | | done | |].
  - intros a b Hab. apply orb_true_iff. left. exact Hab.
  - intros e. split; [done |]. by rewrite D1.
  - intros id w2 Hw2 Hrows. split; [done |]. split; [| done]. eapply administered_more; [exact Hrows |]. by rewrite D1.
Qed.

Lemma wp_CreateLocalUser username password dn email role w :
  sound w -> administered (w_db w) ->
  wp (Auth.CreateLocalUser username password dn email role) (fun _ w' => sound w' /\ administered (w_db w')) w.
Proof.
  intros Hw Ha. unfold Auth.CreateLocalUser. destruct (str_is _ ""); [by apply wp_Ret |].
  destruct (Auth.ValidatePassword password); [| by apply wp_Ret]. apply wp_bind. unfold Store.GetUserByName at 1. apply wp_row_sound; [done |].
  destruct (head _) as [ex |] eqn:Hn; [by apply wp_Ret |]. apply wp_bind. apply wp_calmly; [guar_walk idtac | guar_walk idtac | done |].
  intros [h | e] w1 Hw1 D1 _; [| apply wp_Ret; by rewrite D1]. unfold Store.UpsertUser. apply wp_bind.
  eapply wp_mono; [apply wp_upsert_new; [done | by rewrite D1 |] |].
  { cbn [Auth.new_user User.Username]. rewrite D1. exact Hn. }
  intros [u | e] w2 (Hw2 & Ha2 & D2); [by apply wp_Ret |]. apply wp_bind. unfold Store.GetUserByName. apply wp_row_sound; [done |].
  cbn [Auth.new_user User.Username]. rewrite D2, D1. change (head _) with (named username (w_db w)).
  assert (named username (w_db w) = None) as -> by exact Hn. by apply wp_Ret.
Qed.

(** ** The requests *)

(** The requests about accounts. *)
Definition about_users (q : request) : bool :=
  match q with
  | Rest (UserCreate _) _ | Rest (UserPatch _) _ | Rest UserDelete _ => true
  | Portal Pages.UserCreate _ _ | Portal Pages.UserRole _ _ | Portal Pages.UserDisable _ _ | Portal Pages.UserDelete _ _
  | Portal Pages.ChangePassword _ _ => true
  | _ => false
  end.
Definition creates (q : request) : bool :=
  match q with Rest (UserCreate _) _ | Portal Pages.UserCreate _ _ => true | _ => false end.

Definition finds_user (p : API User.t) : Prop := forall (q : User.t -> API reply) w,
  base (w_db w) -> (forall t w', safe_for t (w_db w') -> wp (q t) keeps_base w') -> wp (t <-! p ;; q t)%prog keeps_base w.

Lemma finds_pathUser r : finds_user (pathUser r).
Proof.
  intros q w Hb Hq. apply wp_bind. unfold pathUser. cbv zeta. destruct (str_is _ ""); [by apply wp_Ret, wp_Ret |].
  assert (forall w', base (w_db w') -> wp (or_fail api_failure (Store.GetUserByName (path_id r)))
    (fun a w'' => wp (match a with Ok t => q t | Err e => Ret (Err e) end) keeps_base w'') w') as Hname.
  { intros w' Hb'. apply wp_or_fail, wp_GetUserByName; [done | intros; by apply wp_Ret |]. intros t w'' _. apply Hq. }
  destruct (AcmeProtocol.ParseInt _) as [id |]; [| by apply Hname]. apply wp_bind, wp_GetUser; [done | intros; by apply Hname |].
  intros t w' Hb' Ht. by apply wp_Ret, Hq.
Qed.

Lemma finds_lookupUser r : finds_user (Pages.lookupUser r).
Proof.
  intros q w Hb Hq. apply wp_bind. unfold Pages.lookupUser, checked. apply wp_bind, wp_Ret.
  destruct (Pages.page_id _ _); [| by apply wp_Ret, wp_Ret]. apply wp_or_fail, wp_GetUser; [done | intros; by apply wp_Ret |].
  intros t w' _. apply Hq.
Qed.

Lemma kept_patch b r w : base (w_db w) -> wp (apiUserPatch acfg save_admin_hash sink b r) keeps_base w.
Proof.
  intros Hb. apply finds_pathUser; [done |]. intros t w1 H1'.
  apply (wp_about _ _ t); [by apply wp_Ret |]. intros b' w2 H2'.
  apply (wp_about _ _ t); [by apply wp_patch_role |]. intros _ w3 H3'.
  apply (wp_about _ _ t); [by apply wp_patch_disabled |]. intros _ w4 H4'.
  apply (wp_about _ _ t); [by apply wp_patch_password |]. intros _ w5 H5'.
  apply (wp_rest _ t); [guar_walk minds_leaf | done].
Qed.

(** Refused, or done to the target alone. *)
Lemma wp_unless_last {A} t (refused : A) (p : prog world A) w :
  safe_for t (w_db w) -> (forall w', spared_for t (w_db w') -> wp p keeps_base w') ->
  wp (last <- isLastAdmin t ;; if (last : bool) then Ret refused else p)%prog keeps_base w.
Proof.
  intros Hs Hp. apply wp_bind, wp_isLastAdmin; [done | | exact Hp]. intros w' Hs'. apply wp_Ret. by eapply safe_base.
Qed.

Lemma wp_delete_target t (Q : result error unit -> world -> Prop) w :
  spared_for t (w_db w) -> (forall r w', spared_for t (w_db w') -> Q r w') -> wp (Store.DeleteUser (User.ID t)) Q w.
Proof.
  intros [Hv Hs] HQ. apply wp_exec_found; [intros; apply HQ; rewrite with_faults_db; by split |]. intros fs Hv'. apply HQ.
  split; [exact Hv' | by apply spare_delete].
Qed.

Lemma kept_delete r w : base (w_db w) -> wp (apiUserDelete sink r) keeps_base w.
Proof.
  intros Hb. apply finds_pathUser; [done |]. intros t w1 H1'. apply wp_unless_last; [done |]. intros w2 H2'.
  apply (wp_about _ _ t); [apply wp_or_fail, wp_delete_target; [done |]; intros; by apply spared_safe |].
  intros _ w3 H3'. apply (wp_rest _ t); [guar_walk minds_leaf | done].
Qed.

Lemma kept_page_delete r w : base (w_db w) -> wp (Pages.handleUserDelete sink r) keeps_base w.
Proof.
  intros Hb. apply finds_lookupUser; [done |]. intros t w1 H1'. apply wp_unless_last; [done |]. intros w2 H2'.
  apply wp_bind, wp_delete_target; [done |]. intros [u | e] w3 H3'; apply spared_safe in H3';
    (apply (wp_rest _ t); [guar_walk minds_leaf | done]).
Qed.

Lemma kept_role f r w : base (w_db w) -> wp (Pages.handleUserRole sink f r) keeps_base w.
Proof.
  intros Hb. apply finds_lookupUser; [done |]. intros t w1 H1'. cbv zeta. unfold patched_role. destruct (str_is _ RoleAdmin) eqn:Hr.
  - apply wp_bind, wp_Ret, wp_bind. apply wp_update_kindly; [by intros u; apply kind_role | done |].
    intros [u | e] w2 H2'; (apply (wp_rest _ t); [guar_walk minds_leaf | done]).
  - apply wp_unless_last; [done |]. intros w2 H2'. apply wp_bind, wp_update_target; [done |].
    intros [u | e] w3 H3'; apply spared_safe in H3'; (apply (wp_rest _ t); [guar_walk minds_leaf | done]).
Qed.

Lemma kept_disable f r w : base (w_db w) -> wp (Pages.handleUserDisable sink f r) keeps_base w.
Proof.
  intros Hb. apply finds_lookupUser; [done |]. intros t w1 H1'. cbv zeta. destruct (Pages.ticked _ _).
  - apply wp_unless_last; [done |]. intros w2 H2'. apply wp_bind, wp_update_target; [done |].
    intros [u | e] w3 H3'; apply spared_safe in H3'; (apply (wp_rest _ t); [guar_walk minds_leaf | done]).
  - apply wp_bind, wp_Ret, wp_bind. apply wp_update_kindly; [| done |].
    + intros u He. unfold enabled_admin in *. apply andb_true_iff in He as [He _]. apply andb_true_iff. by split.
    + intros [u | e] w2 H2'; (apply (wp_rest _ t); [guar_walk minds_leaf | done]).
Qed.

Lemma kept_password f r w : base (w_db w) -> wp (Pages.handleChangePassword acfg save_admin_hash sink f r) keeps_base w.
Proof.
  intros Hb. apply wp_bind, wp_GetUserByName; [done | intros; by apply wp_Ret |]. intros t w1 Hb1 H1'.
  destruct (negb _); [by apply wp_Ret |]. apply wp_bind, wp_SetPassword; [done |].
  intros [u | e] w2 H2'; (apply (wp_rest _ t); [guar_walk minds_leaf | done]).
Qed.

(** Creating an account relies on a check that came back. *)
Lemma wp_created (p : M User.t) (q : result error User.t -> prog world (result reply reply)) w :
  wp p (fun _ w' => sound w' /\ administered (w_db w')) w -> (forall r, guar (on_db minds_users) (q r)) ->
  wp (r <- p ;; q r)%prog keeps_base w.
Proof.
  intros Hp Hq. apply wp_bind. eapply wp_mono; [exact Hp |]. intros r w1 [[_ Hv1] Ha1].
  eapply wp_mono; [apply (wp_guar minds_users); [exact minds_refl | exact minds_trans | apply Hq] |].
  intros a w2 [Hk Hv]. split; [by apply Hv |]. destruct Ha1 as (u & Hu & He). exists u. by rewrite (Hk Users) by set_solver.
Qed.

Lemma kept_create b r w : healthy w -> base (w_db w) -> wp (apiUserCreate sink b r) keeps_base w.
Proof.
  intros Hh Hb. unfold apiUserCreate, checked. apply wp_bind, wp_Ret. destruct (decodeJSON b) as [b' |]; [| by apply wp_Ret].
  unfold or_fail. apply wp_bind, wp_bind. eapply wp_mono; [apply wp_CreateLocalUser; [by destruct Hb | by destruct Hb] |].
  intros u w1 [[_ Hv1] Ha1]. apply wp_Ret.
  assert (base (w_db w1)) as Hb1 by done. destruct u as [u | e]; [| by apply wp_Ret].
  eapply wp_mono; [apply (wp_guar minds_users); [exact minds_refl | exact minds_trans | guar_walk minds_leaf] |].
  intros a w2 [Hk Hv]. split; [by apply Hv |]. destruct Ha1 as (x & Hx & He). exists x. by rewrite (Hk Users) by set_solver.
Qed.

Lemma kept_page_create f r w : healthy w -> base (w_db w) -> wp (Pages.handleUserCreate sink f r) keeps_base w.
Proof.
  intros Hh [Hv Ha]. apply wp_created; [by apply wp_CreateLocalUser |]. intros [u | e]; guar_walk minds_leaf.
Qed.

Lemma kept_answer (h : API reply) w : wp h keeps_base w -> wp (answer h) keeps_base w.
Proof. intros Hh. apply wp_bind. eapply wp_mono; [exact Hh |]. intros [a | a] w' Hb; by apply wp_Ret. Qed.

Abbreviation perform := (AccessFacts.perform cfg acfg lcfg master save_admin_hash sink fuel).

(** C21.  A request about accounts that runs alone, by whomever and whatever
    fails on the way, leaves an enabled administrator if there was one; for the
    creation of an account, as long as the database answers. *)
Theorem an_administrator_remains q w :
  about_users q = true -> (creates q = true -> healthy w) ->
  violated (w_db w) = None -> administered (w_db w) -> administered (w_db (snd (run (perform q) w))).
Proof.
  intros Hq Hc Hv Ha. enough (wp (perform q) keeps_base w) as [_ Hadm] by exact Hadm.
  assert (base (w_db w)) as Hb by done. unfold AccessFacts.perform. apply kept_answer.
  destruct q as [rt r | rt f r]; destruct rt; try discriminate Hq; cbn [Api.handler Pages.handler].
  - apply kept_create; [by apply Hc | done].
  - by apply kept_patch.
  - by apply kept_delete.
  - by apply kept_password.
  - apply kept_page_create; [by apply Hc | done].
  - by apply kept_role.
  - by apply kept_disable.
  - by apply kept_page_delete.
Qed.
End administrators.

(** ** Two administrators *)

Definition admin (id : Z) (name : string) : User.t := User.mk id name SourceLocal "" "" RoleAdmin false "" 0 None.
Definition staffed (us : list User.t) (faults : list (option string)) : world :=
  mkWorld (set_table Users (mkTable (us : list (row Users)) 9) empty_db) 1000 [] faults 0.
Definition ann_and_bob : world := staffed [admin 1 "ann"; admin 2 "bob"] [].
Definition admins_left (w : world) : list string :=
  map User.Username (List.filter enabled_admin (rows (w_db w Users))).

(** Each takes the other's role away. *)
Definition demote_bob : request := Portal Pages.UserRole (form [("role", "user")]%string) (by_user (admin 1 "ann") "2").
Definition demote_ann : request := Rest (UserPatch (Ok (mkPatch (Some RoleUser) None None))) (by_user (admin 2 "bob") "ann").
(** A second account under the administrator's own name. *)
Definition create_ann : request := Rest (UserCreate (Ok (mkUser "ann" "hunter22" "" "" RoleUser))) (by_user (admin 1 "ann") "").

(** A turn each. *)
Definition alternately : list nat := List.concat (replicate 12 [0; 1]).

(** Two administrators who demote each other at the same time both
    succeed, and nobody is left; and an account created under the name of the
    only administrator demotes them when the read that looks for the name
    fails. *)
Theorem administrators_can_vanish :
  (exists turns ps w, schedule turns (ann_and_bob, map doing [demote_bob; demote_ann]) = (w, ps) /\
     Forall (fun p => exists a, p = Ret a) ps /\ administered (w_db ann_and_bob) /\ ~ administered (w_db w)) /\
  (exists fs, let w := snd (run (doing create_ann) (staffed [admin 1 "ann"] fs)) in ~ administered (w_db w)).
Proof.
  assert (forall w, admins_left w = [] -> ~ administered (w_db w)) as Hnone.
  { intros w Hw (u & Hu & He). apply map_eq_nil in Hw. assert (In u (List.filter enabled_admin (rows (w_db w Users)))) as Hin.
    { apply List.filter_In. split; [by apply list_elem_of_In | done]. } rewrite Hw in Hin. exact Hin. }
  split.
  - exists alternately,
      (snd (schedule alternately (ann_and_bob, map doing [demote_bob; demote_ann]))),
      (fst (schedule alternately (ann_and_bob, map doing [demote_bob; demote_ann]))).
    split; [apply surjective_pairing |]. split; [| split].
    + vm_compute. repeat constructor; eauto.
    + exists (admin 1 "ann"). split; [by left | done].
    + apply Hnone. vm_compute. reflexivity.
  - exists [Some "SQLITE_BUSY"%string]. cbv zeta. apply Hnone. vm_compute. reflexivity.
Qed.

Lemma an_administrator_remains_witness :
  admins_left (snd (run (doing demote_bob) ann_and_bob)) = ["ann"%string] /\
  administered (w_db (snd (run (doing demote_bob) ann_and_bob))).
Proof.
  split; [vm_compute; reflexivity |].
  apply (an_administrator_remains Sample.cfg acfg lcfg Sample.master (fun _ => Ret (Ok tt)) Sample.no_sink 9).
  - intros a b c d e. exact Logic.I.
  - intros h. exact Logic.I.
  - reflexivity.
  - discriminate.
  - vm_compute. reflexivity.
  - exists (admin 1 "ann"). split; [by left | reflexivity].
Defined.

End UserFacts.
