(* ===== verification/AuditFacts.v ===== *)
(** * Reading the audit log page by page

    Following [next_cursor] gives every entry, newest first and once, when the
    page size is one the store honours; and stops short when it is not. *)

From S2P Require Import Prelude GoStrings Effects Models Schema SqlFacts TableFacts Store Pki Sealing CaService CaTools Downloads AcmePolicy AcmeService AcmeProtocol Auth Gate Directory Api Sample.

Module AuditFacts.
Import Http Api.

(** ** Printed and parsed back *)

Lemma digits_value_go x s : (0 < x)%N ->
  CaService.digits_value (pretty_N_go x s) 0 = CaService.digits_value s (Z.of_N x).
Proof.
  revert s. induction (N.lt_wf_0 x) as [x _ IH]; intros s Hx. rewrite pretty_N_go_step by done.
  assert (forall y t acc, (y < 10)%N -> CaService.digits_value (String (pretty_N_char y) t) acc = CaService.digits_value t (acc * 10 + Z.of_N y)) as Hd.
  { intros y t acc Hy. assert (y = 0 \/ y = 1 \/ y = 2 \/ y = 3 \/ y = 4 \/ y = 5 \/ y = 6 \/ y = 7 \/ y = 8 \/ y = 9)%N as Hc by lia.
    destruct_or! Hc; subst y; cbn; f_equal; lia. }
  pose proof (N.div_mod x 10 ltac:(done)) as Hdm. pose proof (N.mod_lt x 10 ltac:(done)) as Hm.
  destruct (N.eq_dec (x / 10) 0)%N as [H0 | Hne].
  - rewrite H0, pretty_N_go_0, Hd by done. f_equal. rewrite H0 in Hdm. lia.
  - rewrite IH; [| apply N.div_lt; lia | lia]. rewrite Hd by done. f_equal. rewrite Hdm at 3. lia.
Qed.

Lemma pretty_go_digits x s : AcmeService.all_digits s = true -> AcmeService.all_digits (pretty_N_go x s) = true.
Proof.
  revert s. induction (N.lt_wf_0 x) as [x _ IH]; intros s Hs.
  destruct (N.eq_dec x 0)%N as [-> | Hx]; [by rewrite pretty_N_go_0 |]. rewrite pretty_N_go_step by lia. apply IH; [apply N.div_lt; lia |].
  simpl. rewrite Hs, andb_true_r. unfold pretty_N_char. by repeat case_match.
Qed.

Lemma digit_no_space c : Str.is_digit c = true -> Str.is_space c = false.
Proof.
  unfold Str.is_digit, Str.is_space. intros [Hlo%Nat.leb_le Hhi%Nat.leb_le]%andb_true_iff. apply not_true_iff_false.
  intros [[_ E%Nat.leb_le]%andb_true_iff | E%Nat.eqb_eq]%orb_true_iff; lia.
Qed.

Lemma trim_digits s : AcmeService.all_digits s = true -> Str.TrimSpace s = s.
Proof.
  intros Hs. assert (Str.trim_left Str.is_space s = s) as Hl.
  { destruct s as [| c s]; [done |]. simpl in Hs. apply andb_true_iff in Hs as [Hc _]. simpl.
    by rewrite digit_no_space. }
  unfold Str.TrimSpace, Str.trim_func. rewrite Hl. clear Hl. induction s as [| c s IH]; [done |]. simpl in Hs |- *.
  apply andb_true_iff in Hs as [Hc Hs]. rewrite IH by done. destruct s; [| done].
  by rewrite digit_no_space.
Qed.

(** A positive number of an int64 reads back as itself. *)
Lemma atoi_itoa n def : (0 < n < 2 ^ 63)%Z -> Str.itoa n <> EmptyString /\ atoiDefault (Str.itoa n) def = n.
Proof.
  intros Hn. destruct n as [| p |]; [lia | | lia]. change (Str.itoa (Z.pos p)) with (pretty_N_go (N.pos p) "").
  set (s := pretty_N_go (N.pos p) ""). assert (AcmeService.all_digits s = true) as Hd by by apply pretty_go_digits.
  assert (CaService.digits_value s 0 = Some (Z.pos p)) as Hv by (unfold s; by rewrite digits_value_go).
  clearbody s. assert (s <> EmptyString) as Hne by (intros ->; simpl in Hv; congruence). split; [done |].
  unfold atoiDefault. rewrite (proj2 (str_is_ne _ _) Hne), trim_digits by done. unfold AcmeProtocol.ParseInt.
  assert (match s with String "-" r => (true, r) | String "+" r => (false, r) | _ => (false, s) end = (false, s)) as ->.
  { destruct s as [| c s]; [done |]. simpl in Hd. destruct c as [[] [] [] [] [] [] [] []]; try reflexivity; cbn in Hd; discriminate Hd. }
  rewrite (proj2 (str_is_ne _ _) Hne), Hv. assert ((- 2 ^ 63 <=? Z.pos p)%Z && (Z.pos p <? 2 ^ 63)%Z = true) as ->; [| done].
  apply andb_true_iff. split; [apply Z.leb_le | apply Z.ltb_lt]; lia.
Qed.

(** ** The order of a page *)

Definition newer (a b : AuditEntry.t) : bool := (AuditEntry.ID b <=? AuditEntry.ID a)%Z.
Definition newest (l : list AuditEntry.t) : list AuditEntry.t := order_by newer l.
Definition older (c : Z) (l : list AuditEntry.t) : list AuditEntry.t := List.filter (fun a => AuditEntry.ID a <? c)%Z l.
Abbreviation descending := (StronglySorted (fun a b => newer a b = true)).

Lemma newest_descending l : descending (newest l).
Proof.
  apply order_by_Sorted; unfold newer.
  - intros a b. rewrite !Z.leb_le. lia.
  - intros a b c. rewrite !Z.leb_le. lia.
Qed.

Lemma filter_descending p l : descending l -> descending (List.filter p l).
Proof.
  induction 1 as [| x l Hl IH Hx]; simpl; [constructor |]. destruct (p x); [| done]. constructor; [done |].
  apply Forall_forall. intros y Hy. rewrite Forall_forall in Hx. apply Hx. by apply list_elem_of_In, List.filter_In, proj1, list_elem_of_In in Hy.
Qed.

Lemma filter_nil_of {A} (p : A -> bool) l : (forall x, x ∈ l -> p x = false) -> List.filter p l = [].
Proof. induction l as [| x l IH]; intros Hl; [done |]. simpl. rewrite Hl by (by left). apply IH. intros y Hy. apply Hl. by right. Qed.
Lemma filter_all_of {A} (p : A -> bool) l : (forall x, x ∈ l -> p x = true) -> List.filter p l = l.
Proof. induction l as [| x l IH]; intros Hl; [done |]. simpl. rewrite Hl by (by left). f_equal. apply IH. intros y Hy. apply Hl. by right. Qed.

Lemma filter_Permutation {A} (p : A -> bool) l l' : l ≡ₚ l' -> List.filter p l ≡ₚ List.filter p l'.
Proof.
  induction 1 as [| x l l' _ IH | x y l | l1 l2 l3 _ IH1 _ IH2]; simpl; [done | | | by etrans].
  - destruct (p x); by rewrite IH.
  - destruct (p x), (p y); try done. apply Permutation_swap.
Qed.

Lemma ids_distinct l a b : NoDup (map AuditEntry.ID l) -> a ∈ l -> b ∈ l -> AuditEntry.ID a = AuditEntry.ID b -> a = b.
Proof.
  intros Hnd Ha Hb Heq. apply list_elem_of_lookup in Ha as [i Hi], Hb as [j Hj].
  assert (i = j) as ->; [| congruence]. eapply NoDup_lookup; [exact Hnd | |].
  - rewrite list_lookup_fmap, Hi. reflexivity.
  - rewrite list_lookup_fmap, Hj. simpl. congruence.
Qed.

Lemma newest_older c l : NoDup (map AuditEntry.ID l) -> newest (older c l) = older c (newest l).
Proof.
  intros Hnd. assert (newest (older c l) ≡ₚ older c (newest l)) as Hp.
  { etrans; [apply order_by_perm |]. symmetry. apply filter_Permutation, order_by_perm. }
  apply (StronglySorted_unique_strong (fun a b => newer a b = true)); [| apply newest_descending | apply filter_descending, newest_descending | exact Hp].
  intros a b Ha Hb Hab Hba. unfold newer in *. apply Z.leb_le in Hab, Hba. apply (ids_distinct l); [done | | | lia].
  - apply elem_of_order_by in Ha. by apply list_elem_of_In, List.filter_In, proj1, list_elem_of_In in Ha.
  - rewrite <- Hp in Hb. apply elem_of_order_by in Hb. by apply list_elem_of_In, List.filter_In, proj1, list_elem_of_In in Hb.
Qed.

(** What comes after a row are the rows with smaller numbers. *)
Lemma older_rest l r e rest : NoDup (map AuditEntry.ID l) -> newest l = (r ++ [e]) ++ rest -> older (AuditEntry.ID e) (newest l) = rest.
Proof.
  intros Hnd Hs. pose proof (newest_descending l) as Hd.
  assert (NoDup (map AuditEntry.ID (newest l))) as Hnd' by (unfold newest; by rewrite (order_by_perm newer l)).
  rewrite Hs in *. unfold older. rewrite List.filter_app.
  assert (forall x, x ∈ r ++ [e] -> (AuditEntry.ID e <= AuditEntry.ID x)%Z) as Hbefore.
  { clear -Hd. rewrite <- app_assoc in Hd. induction r as [| y r IH]; simpl in Hd.
    - intros x ->%list_elem_of_singleton. lia.
    - apply StronglySorted_inv in Hd as [Hd Hy]. intros x [-> | Hx]%elem_of_cons; [| by apply IH].
      rewrite Forall_forall in Hy. specialize (Hy e). unfold newer in Hy. apply Z.leb_le, Hy. set_solver. }
  assert (forall x, x ∈ rest -> (AuditEntry.ID x < AuditEntry.ID e)%Z) as Hafter.
  { intros x Hx. rewrite <- app_assoc in Hd, Hnd'. clear -Hd Hnd' Hx. induction r as [| y r IH]; simpl in *.
    - apply StronglySorted_inv in Hd as [_ He]. rewrite Forall_forall in He. specialize (He x Hx). unfold newer in He. apply Z.leb_le in He.
      apply NoDup_cons in Hnd' as [Hnot _]. assert (AuditEntry.ID x <> AuditEntry.ID e); [| lia]. intros Heq. apply Hnot.
      apply list_elem_of_In, in_map_iff. exists x. split; [exact Heq | by apply list_elem_of_In].
    - apply IH; [by apply StronglySorted_inv in Hd as [] | by apply NoDup_cons in Hnd' as []]. }
  assert (List.filter (fun a => AuditEntry.ID a <? AuditEntry.ID e)%Z (r ++ [e]) = []) as ->.
  { apply filter_nil_of. intros x Hx. apply Z.ltb_ge. auto. }
  simpl. apply filter_all_of. intros x Hx. apply Z.ltb_lt. auto.
Qed.

(** ** Following the cursor *)

Section follow.
Context `{RowOrder} (r : Call).

(** The query string of a page. *)
Definition page_query (limit cursor : string) (key : string) : string :=
  if str_is key "limit" then limit else if str_is key "cursor" then cursor else EmptyString.

(** Ask for a page until no cursor comes back: what was read, and whether it
    came to that. *)
Fixpoint follow (fuel : nat) (limit cursor : string) (w : world) : list AuditEntry.t * bool :=
  match fuel with
  | 0 => ([], false)
  | S fuel' =>
      match run (answer (apiAudit (page_query limit cursor) r)) w with
      | (Json _ (JAudit entries next), w') =>
          if str_is next "" then (entries, true)
          else let '(rest, ended) := follow fuel' limit next w' in (entries ++ rest, ended)
      | _ => ([], false)
      end
  end.

(** What the store makes of a page size. *)
Definition honoured (n : Z) : Z := if (n <=? 0)%Z then 100 else Z.min n 1000.

Definition page_from (cursor : Z) (n : Z) (l : list AuditEntry.t) : list AuditEntry.t :=
  take (Z.to_nat (honoured n)) (newest (if (0 <? cursor)%Z then older cursor l else l)).

Definition stored_page (c n : Z) (d : db) : list AuditEntry.t :=
  let limit := if (n <=? 0)%Z then 100%Z else n in
  let limit := if (1000 <? limit)%Z then 1000%Z else limit in
  take (Z.to_nat limit)
    (order_by newer (select AuditLog (fun a => if (0 <? c)%Z then (AuditEntry.ID a <? c)%Z else true) d)).

Lemma stored_page_from c n d : stored_page c n d = page_from c n (rows (d AuditLog)).
Proof.
  unfold stored_page, page_from, honoured. cbv zeta. f_equal.
  - f_equal. destruct (n <=? 0)%Z; [done |]. destruct (Z.ltb_spec 1000 n); lia.
  - unfold newest. f_equal. unfold select, select_where, older. destruct (0 <? c)%Z; [done | by apply filter_all_of].
Qed.

Lemma run_apiAudit limit cursor w n c :
  healthy w -> atoiDefault limit 100 = n -> atoiDefault cursor 0 = c ->
  let entries := page_from c n (rows (w_db w AuditLog)) in
  run (answer (apiAudit (page_query limit cursor) r)) w = (Json 200 (JAudit entries (next_cursor entries n)), w).
Proof.
  intros Hw Hn Hc. cbv zeta. unfold apiAudit. change (page_query limit cursor "limit") with limit.
  change (page_query limit cursor "cursor") with cursor. rewrite Hn, Hc. rewrite <- stored_page_from.
  change (Store.ListAuditPage c n) with (query (stored_page c n)). unfold answer, or_fail, ok.
  rewrite !run_bind. rewrite run_query by done. reflexivity.
Qed.

(** A cursor comes back exactly after a full page. *)
Lemma next_after_full entries e n : (1 <= n)%Z -> Z.of_nat (length (entries ++ [e])) = n ->
  next_cursor (entries ++ [e]) n = Str.itoa (AuditEntry.ID e).
Proof. intros Hn Hl. unfold next_cursor. rewrite last_snoc, Hl, Z.eqb_refl. done. Qed.

Lemma next_after_short entries n : Z.of_nat (length entries) <> n -> next_cursor entries n = EmptyString.
Proof. intros Hl. unfold next_cursor. destruct (last entries); [| done]. by rewrite (proj2 (Z.eqb_neq _ _) Hl). Qed.

(** Where a reader is: what was read, the cursor for it, and what is left. *)
Definition reading (l read : list AuditEntry.t) (cursor : string) (rest : list AuditEntry.t) : Prop :=
  newest l = read ++ rest /\
  match last read with None => cursor = EmptyString | Some e => cursor = Str.itoa (AuditEntry.ID e) end.

Definition numbered (l : list AuditEntry.t) : Prop :=
  NoDup (map AuditEntry.ID l) /\ Forall (fun a => 0 < AuditEntry.ID a < 2 ^ 63)%Z l.

Lemma page_is_next l read cursor rest n :
  numbered l -> reading l read cursor rest -> (1 <= n <= 1000)%Z ->
  page_from (atoiDefault cursor 0) n l = take (Z.to_nat n) rest.
Proof.
  intros [Hnd Hids] [Hs Hc] Hn. unfold page_from. f_equal; [unfold honoured; destruct (Z.leb_spec n 0); lia |].
  destruct (last read) as [e |] eqn:Hl.
  - apply last_Some in Hl as [read' ->]. assert (e ∈ l) as He.
    { apply (elem_of_order_by newer). unfold newest in Hs. rewrite Hs. set_solver. }
    rewrite Forall_forall in Hids. destruct (atoi_itoa (AuditEntry.ID e) 0 (Hids e He)) as [_ Ha]. rewrite Hc, Ha.
    rewrite (proj2 (Z.ltb_lt _ _)) by (by apply Hids). rewrite newest_older by done. by eapply older_rest.
  - apply last_None in Hl as ->. subst cursor. exact Hs.
Qed.

Lemma follow_reads limit n : (1 <= n <= 1000)%Z -> atoiDefault limit 100 = n ->
  forall fuel w read cursor rest,
    healthy w -> numbered (rows (w_db w AuditLog)) -> reading (rows (w_db w AuditLog)) read cursor rest ->
    length rest < fuel -> follow fuel limit cursor w = (rest, true).
Proof.
  intros Hn Hlim fuel. induction fuel as [| fuel IH]; intros w read cursor rest Hw Hnum Hr Hf; [lia |]. cbn [follow].
  rewrite (run_apiAudit limit cursor w n (atoiDefault cursor 0)) by done. rewrite (page_is_next _ _ _ _ _ Hnum Hr Hn).
  destruct (decide (Z.of_nat (length (take (Z.to_nat n) rest)) = n)) as [Hfull | Hshort].
  - destruct (@exists_last _ (take (Z.to_nat n) rest)) as (l0 & a & Hp); [intros E; rewrite E in Hfull; simpl in Hfull; lia |].
    rewrite Hp in Hfull |- *.
    rewrite (next_after_full l0 a n) by (lia || done).
    assert (newest (rows (w_db w AuditLog)) = (read ++ l0 ++ [a]) ++ drop (Z.to_nat n) rest) as Hs.
    { destruct Hr as [-> _]. rewrite <- (take_drop (Z.to_nat n) rest) at 1. rewrite Hp. by rewrite !app_assoc. }
    assert (0 < AuditEntry.ID a < 2 ^ 63)%Z as Hid.
    { destruct Hnum as [_ Hids]. rewrite Forall_forall in Hids. apply Hids, (elem_of_order_by newer). unfold newest in Hs. rewrite Hs. set_solver. }
    destruct (atoi_itoa _ 0 Hid) as [Hne _]. rewrite (proj2 (str_is_ne _ _) Hne).
    rewrite (IH w (read ++ l0 ++ [a]) (Str.itoa (AuditEntry.ID a)) (drop (Z.to_nat n) rest)); [| done | done | | ].
    + f_equal. rewrite <- Hp. apply take_drop.
    + split; [exact Hs |]. by rewrite app_assoc, last_snoc.
    + apply (f_equal length) in Hp. rewrite length_take, length_app in Hp. simpl in Hp. rewrite length_drop. lia.
  - rewrite next_after_short by done. rewrite str_is_refl. f_equal. rewrite length_take in Hshort. apply take_ge. lia.
Qed.

(** With a page size from 1 to 1000, asking for page after page with the
    cursor of the last one ends, and reads every entry of the audit log once,
    the newest first. *)
Theorem audit_pages_are_complete limit w fuel :
  healthy w -> numbered (rows (w_db w AuditLog)) -> (1 <= atoiDefault limit 100 <= 1000)%Z ->
  length (rows (w_db w AuditLog)) < fuel ->
  follow fuel limit "" w = (newest (rows (w_db w AuditLog)), true).
Proof.
  intros Hw Hnum Hn Hf. eapply (follow_reads limit _ Hn eq_refl fuel w []); [done | done | by split |].
  unfold newest. by rewrite (order_by_perm newer).
Qed.

(** With any other page size the first page is all there is. *)
Lemma audit_stops_after_one_page limit w fuel :
  healthy w -> (atoiDefault limit 100 <= 0 \/ 1000 < atoiDefault limit 100)%Z -> 0 < fuel ->
  follow fuel limit "" w = (page_from 0 (atoiDefault limit 100) (rows (w_db w AuditLog)), true).
Proof.
  intros Hw Hn Hf. destruct fuel as [| fuel]; [lia |]. cbn [follow]. rewrite (run_apiAudit limit "" w _ 0) by done.
  assert (next_cursor (page_from 0 (atoiDefault limit 100) (rows (w_db w AuditLog))) (atoiDefault limit 100) = EmptyString) as ->;
    [| by rewrite str_is_refl].
  set (z := atoiDefault limit 100) in *. set (p := page_from 0 z _). assert (length p <= Z.to_nat (honoured z)) as Hl.
  { unfold p, page_from. rewrite length_take. lia. }
  clearbody p. destruct p as [| a p']; [done |]. apply next_after_short. unfold honoured in Hl. destruct (Z.leb_spec z 0); simpl in *; lia.
Qed.
End follow.

(** Three entries, two at a time, and a thousand and one all at once. *)
Definition entry (id : Z) : AuditEntry.t := AuditEntry.mk id 1000 "ann" "cert.issue" "x" "" "".
Definition logged (n : nat) : world :=
  mkWorld (set_table AuditLog (mkTable (map (fun i => entry (Z.of_nat i)) (List.seq 1 n) : list (row AuditLog)) (Z.of_nat n)) empty_db) 1000 [] [] 0.
Definition reader : Call := mkCall (User.mk 1 "ann" SourceLocal "" "" RoleAdmin false "" 0 None) None "10.0.0.1" "" "".

Lemma audit_pages_are_complete_witness :
  map AuditEntry.ID (fst (follow reader 4 "2" "" (logged 3))) = [3; 2; 1]%Z /\
  follow reader 4 "2" "" (logged 3) = (newest (rows (w_db (logged 3) AuditLog)), true).
Proof.
  split; [vm_compute; reflexivity |]. apply (audit_pages_are_complete reader "2" (logged 3) 4).
  - reflexivity.
  - split; [vm_compute; repeat constructor; set_solver |]. repeat constructor.
  - vm_compute. split; discriminate.
  - vm_compute. lia.
Defined.

Example short_of_one : length (fst (follow reader 9 "2000" "" (logged 1001))) = 1000.
Proof. by vm_compute. Qed.

End AuditFacts.
