(* ===== verification/VaultFacts.v ===== *)
(** * The secret manager implements a map of versioned values

    [VaultSpec] is what the secret manager promises: a map from names to lists
    of values, of which the newest that was not destroyed is current.
    [VaultFacts] relates the tables and envelopes to it and shows that every
    request answers as the map does. *)

From S2P Require Import Prelude GoStrings Glob Effects Models Schema SqlFacts TableFacts Store Pki Sealing CaService SecretStore Vault CaFacts Sample.

(** ** The abstract secret manager *)

Module VaultSpec.

(** Versions oldest first; a destroyed one keeps its number. *)
Record entry := mkEntry { e_certificate : bool; e_disabled : bool; e_versions : list (option string) }.
Abbreviation state := (gmap string entry).

Inductive request :=
| Create (name typ description : string) (labels : gmap string string) (days : Z) (actor : string)
| Put (name value contentType actor : string)
| Latest (name : string)
| Version (name : string) (n : Z)
| Destroy (name : string) (n : Z) (actor : string)
| SetDisabled (name : string) (disabled : bool) (actor : string)
| Delete (name actor : string).

Inductive answer := Done | Number (n : Z) | Payload (value : string) | NotFound | Refused.

Definition version (e : entry) (n : Z) : option (option string) :=
  if (1 <=? n)%Z then e_versions e !! Z.to_nat (n - 1) else None.
Definition latest (e : entry) : option string := head (omap id (rev (e_versions e))).
Definition with_versions (vs : list (option string)) (e : entry) : entry := mkEntry (e_certificate e) (e_disabled e) vs.

(** On an entry of the map. *)
Definition on (m : state) (name : string) (f : string -> entry -> answer * state) : answer * state :=
  let k := Str.TrimSpace name in
  match m !! k with None => (NotFound, m) | Some e => f k e end.

Definition spec (r : request) (m : state) : answer * state :=
  match r with
  | Create name typ _ _ _ _ =>
      let k := Str.TrimSpace name in
      if str_is k "" then (Refused, m)
      else if str_is typ "" || str_is typ SecretTypeKV || str_is typ SecretTypeFile then
        match m !! k with
        | Some _ => (Refused, m)
        | None => (Done, <[k := mkEntry false false []]> m)
        end
      else (Refused, m)
  | Put name value _ _ =>
      on m name (fun k e =>
        if e_certificate e || e_disabled e then (Refused, m)
        else (Number (Z.of_nat (length (e_versions e)) + 1), <[k := with_versions (e_versions e ++ [Some value]) e]> m))
  | Latest name =>
      on m name (fun k e =>
        if e_certificate e || e_disabled e then (Refused, m)
        else (match latest e with Some v => Payload v | None => NotFound end, m))
  | Version name n =>
      on m name (fun k e =>
        if e_certificate e || e_disabled e then (Refused, m)
        else (match version e n with Some (Some v) => Payload v | Some None => Refused | None => NotFound end, m))
  | Destroy name n _ =>
      on m name (fun k e =>
        match version e n with
        | Some _ => (Done, <[k := with_versions (<[Z.to_nat (n - 1) := None]> (e_versions e)) e]> m)
        | None => (NotFound, m)
        end)
  | SetDisabled name b _ => on m name (fun k e => (Done, <[k := mkEntry (e_certificate e) b (e_versions e)]> m))
  | Delete name _ => on m name (fun k e => (Done, base.delete k m))
  end.

(** A request answers as the map says; a [Put] may also be refused, without
    effect, when sealing fails. *)
Definition allowed (m : state) (r : request) (a : answer) (m' : state) : Prop :=
  (a, m') = spec r m \/ (match r with Put _ _ _ _ => True | _ => False end /\ a = Refused /\ m' = m).

(** Sequences of requests and their answers. *)
Inductive behaves : state -> list (request * answer) -> state -> Prop :=
| behaves_nil m : behaves m [] m
| behaves_cons m r a m' l m'' : allowed m r a m' -> behaves m' l m'' -> behaves m ((r, a) :: l) m''.

End VaultSpec.

Module VaultFacts.
Import SecretStore VaultSpec.

Section refinement.
Context `{Std : Pki.Std} `{Ciphers} `{RowOrder}.
Context (vault : Pqcrypt.Vault) (master : string) (has_ca : bool).

(** ** Requests of the service *)

Definition answer_of {A} (f : A -> answer) (r : result error A) : answer :=
  match r with Ok a => f a | Err e => if is_not_found e then NotFound else Refused end.

Definition run_request (r : request) : prog world answer :=
  (match r with
   | Create name typ description labels days actor =>
       x <- Vault.Create has_ca (Vault.mkCreate name typ description labels days None actor) ;; Ret (answer_of (fun _ => Done) x)
   | Put name value contentType actor =>
       x <- Vault.Put vault name value contentType actor ;; Ret (answer_of (fun v => Number (SecretVersion.Version v)) x)
   | Latest name => x <- Vault.GetLatest vault name ;; Ret (answer_of (fun p => Payload (snd p)) x)
   | Version name n => x <- Vault.GetVersion vault name n ;; Ret (answer_of (fun p => Payload (snd p)) x)
   | Destroy name n actor => x <- Vault.DestroyVersion name n actor ;; Ret (answer_of (fun _ => Done) x)
   | SetDisabled name b actor => x <- Vault.SetDisabled name b actor ;; Ret (answer_of (fun _ => Done) x)
   | Delete name actor => x <- Vault.Delete name actor ;; Ret (answer_of (fun _ => Done) x)
   end)%prog.

Fixpoint run_requests (l : list request) (w : world) : list (request * answer) * world :=
  match l with
  | [] => ([], w)
  | r :: l' =>
      let '(a, w1) := run (run_request r) w in
      let '(os, w2) := run_requests l' w1 in ((r, a) :: os, w2)
  end.

(** ** The map a database stands for *)

Definition find_secret (d : db) (k : string) : option Secret.t :=
  List.find (fun s => str_is (Secret.Name s) k) (rows (d Secrets)).
Definition find_version (d : db) (id n : Z) : option SecretVersion.t :=
  List.find (version_of id n) (rows (d SecretVersions)).

Definition payload (id : Z) (v : SecretVersion.t) : option string :=
  if SecretVersion.Destroyed v then None
  else match Pqcrypt.Open vault (SecretVersion.PayloadEnc v) (Vault.aad id (SecretVersion.Version v)) with
       | Pqcrypt.Returns p => Some p
       | _ => None
       end.
Definition payload_of (d : db) (id n : Z) : option string :=
  match find_version d id n with Some v => payload id v | None => None end.

Definition versions (d : db) (s : Secret.t) : list (option string) :=
  map (payload_of d (Secret.ID s)) (seqZ 1 (Secret.CurrentVersion s)).
Definition entry_of (d : db) (s : Secret.t) : entry :=
  mkEntry (str_is (Secret.Type_ s) SecretTypeCertificate) (Secret.Disabled s) (versions d s).
Definition abs (d : db) : state :=
  list_to_map (map (fun s => (Secret.Name s, entry_of d s)) (rows (d Secrets))).

(** The versions of a secret are numbered from 1 to its current one, and one
    that is not destroyed can be opened. *)
Record in_order (d : db) : Prop := mkInOrder {
  secret_ids : forall s, s ∈ rows (d Secrets) -> (Secret.ID s <= seq (d Secrets))%Z /\ (0 <= Secret.CurrentVersion s)%Z;
  version_ids : forall v, v ∈ rows (d SecretVersions) -> (SecretVersion.ID v <= seq (d SecretVersions))%Z;
  version_numbers : forall s v, s ∈ rows (d Secrets) -> v ∈ rows (d SecretVersions) ->
    SecretVersion.SecretID v = Secret.ID s -> (1 <= SecretVersion.Version v <= Secret.CurrentVersion s)%Z;
  version_exists : forall s n, s ∈ rows (d Secrets) -> (1 <= n <= Secret.CurrentVersion s)%Z ->
    exists v, find_version d (Secret.ID s) n = Some v;
  version_opens : forall v, v ∈ rows (d SecretVersions) -> SecretVersion.Destroyed v = false ->
    exists p, Pqcrypt.Open vault (SecretVersion.PayloadEnc v) (Vault.aad (SecretVersion.SecretID v) (SecretVersion.Version v)) = Pqcrypt.Returns p }.

Lemma find_secret_Some d k s : find_secret d k = Some s -> s ∈ rows (d Secrets) /\ Secret.Name s = k.
Proof. intros [Hs Hn]%find_Some. split; [done | by apply str_is_eq]. Qed.

Lemma find_version_Some d id n v :
  find_version d id n = Some v -> v ∈ rows (d SecretVersions) /\ SecretVersion.SecretID v = id /\ SecretVersion.Version v = n.
Proof. intros [Hv [Hi%Z.eqb_eq Hn%Z.eqb_eq]%andb_true_iff]%find_Some. done. Qed.

Lemma abs_lookup d k : abs d !! k = option_map (entry_of d) (find_secret d k).
Proof.
  unfold abs, find_secret. generalize (entry_of d). intros g. induction (rows (d Secrets)) as [| s l IH]; [done |].
  cbn [map List.find]. rewrite list_to_map_cons. destruct (str_is (Secret.Name s) k) eqn:E.
  - apply str_is_eq in E as ->. by rewrite lookup_insert_eq.
  - apply str_is_ne in E. by rewrite lookup_insert_ne.
Qed.

(** In a sound database a secret is known by its id as by its name. *)
Lemma secret_unique d s s' :
  violated d = None -> s ∈ rows (d Secrets) -> s' ∈ rows (d Secrets) ->
  Secret.ID s = Secret.ID s' \/ Secret.Name s = Secret.Name s' -> s = s'.
Proof.
  intros Hv%(fun Hv => violated_clashes d Secrets Hv) Hs Hs' Heq.
  destruct Heq as [Heq | Heq]; [eapply (clashes_inj _ Secret.ID) | eapply (clashes_inj _ Secret.Name)];
    try exact Hv; try done; intros a b Hab; apply orb_true_iff.
  - left. by apply Z.eqb_eq.
  - right. by apply str_is_eq.
Qed.

Lemma version_unique d v v' :
  violated d = None -> v ∈ rows (d SecretVersions) -> v' ∈ rows (d SecretVersions) ->
  SecretVersion.ID v = SecretVersion.ID v' \/
  (SecretVersion.SecretID v, SecretVersion.Version v) = (SecretVersion.SecretID v', SecretVersion.Version v') -> v = v'.
Proof.
  intros Hv%(fun Hv => violated_clashes d SecretVersions Hv) Hs Hs' Heq.
  destruct Heq as [Heq | Heq];
    [eapply (clashes_inj _ SecretVersion.ID) | eapply (clashes_inj _ (fun v => (SecretVersion.SecretID v, SecretVersion.Version v)))];
    try exact Hv; try done; intros a b Hab; apply orb_true_iff.
  - left. by apply Z.eqb_eq.
  - right. injection Hab as Ha Hb. apply andb_true_iff. split; by apply Z.eqb_eq.
Qed.

(** One entry changes. *)
Lemma abs_update d d' s f k :
  violated d = None -> find_secret d k = Some s -> Secret.Name (f s) = k ->
  (forall k', find_secret d' k' = option_map (fun x => if secret_id (Secret.ID s) x then f x else x) (find_secret d k')) ->
  (forall s', s' ∈ rows (d Secrets) -> Secret.ID s' <> Secret.ID s -> entry_of d' s' = entry_of d s') ->
  abs d' = <[k := entry_of d' (f s)]> (abs d).
Proof.
  intros Hv Hs Hf Hfind Hother. apply map_eq. intros k'. rewrite abs_lookup, Hfind.
  destruct (decide (k = k')) as [<- | Hne].
  - rewrite lookup_insert_eq, Hs. simpl. unfold secret_id. by rewrite Z.eqb_refl.
  - rewrite lookup_insert_ne, abs_lookup by done. destruct (find_secret d k') as [s' |] eqn:Hs'; [| done]. simpl.
    apply find_secret_Some in Hs as [Hin Hname], Hs' as [Hin' Hname'].
    assert (Secret.ID s' <> Secret.ID s) as Hid by (intros Hid; apply Hne; rewrite <- Hname, <- Hname'; f_equal; by apply (secret_unique d); auto).
    unfold secret_id. rewrite (proj2 (Z.eqb_neq _ _) Hid). f_equal. by apply Hother.
Qed.

Lemma entry_ext d d' s :
  (forall n, (1 <= n <= Secret.CurrentVersion s)%Z -> payload_of d' (Secret.ID s) n = payload_of d (Secret.ID s) n) ->
  entry_of d' s = entry_of d s.
Proof.
  intros Hn. unfold entry_of, versions. f_equal. apply map_ext_in. intros n Hin%list_elem_of_In%elem_of_seqZ. apply Hn. lia.
Qed.

(** What a request reads of the versions. *)
Lemma versions_length d s : (0 <= Secret.CurrentVersion s)%Z -> Z.of_nat (length (versions d s)) = Secret.CurrentVersion s.
Proof. intros Hs. unfold versions. rewrite List.length_map, length_seqZ. lia. Qed.

Lemma version_entry d s n :
  in_order d -> s ∈ rows (d Secrets) ->
  version (entry_of d s) n = option_map (payload (Secret.ID s)) (find_version d (Secret.ID s) n).
Proof.
  intros Hd Hs. unfold version, entry_of, versions. cbn [e_versions]. destruct (secret_ids _ Hd s Hs) as [_ Hcv].
  rewrite list_lookup_fmap. destruct (Z.leb_spec 1 n) as [H1 | H1].
  - destruct (decide (n <= Secret.CurrentVersion s)%Z) as [Hle | Hgt].
    + rewrite lookup_seqZ_lt by lia. simpl. rewrite Z2Nat.id by lia. replace (1 + (n - 1))%Z with n by lia.
      destruct (version_exists _ Hd s n Hs ltac:(lia)) as [v Hv]. unfold payload_of. by rewrite Hv.
    + rewrite lookup_seqZ_ge by lia. simpl. destruct (find_version d (Secret.ID s) n) as [v |] eqn:Hv; [| done].
      apply find_version_Some in Hv as (Hin & Hid & <-). specialize (version_numbers _ Hd s v Hs Hin Hid). lia.
  - destruct (find_version d (Secret.ID s) n) as [v |] eqn:Hv; [| done].
    apply find_version_Some in Hv as (Hin & Hid & <-). specialize (version_numbers _ Hd s v Hs Hin Hid). lia.
Qed.
(** ** Requests one by one *)

Definition kept (w : world) (r : request) (a : answer) (w' : world) : Prop :=
  sound w' /\ in_order (w_db w') /\ allowed (abs (w_db w)) r a (abs (w_db w')).

Lemma keeps_in_order d d' : keeps [Secrets; SecretVersions] d d' -> abs d' = abs d /\ (in_order d -> in_order d').
Proof.
  intros Hk. assert (d' Secrets = d Secrets) as Hs by (apply Hk; by left).
  assert (d' SecretVersions = d SecretVersions) as Hv by (apply Hk; right; by left).
  unfold abs, entry_of, versions, payload_of, find_version. rewrite Hs, Hv. split; [done |].
  intros [K1 K2 K3 K4 K5]. constructor; unfold find_version in *; rewrite ?Hs, ?Hv; assumption.
Qed.

Lemma beside_audit a b c d : beside [Secrets; SecretVersions] (Vault.audit a b c d).
Proof. split; guar_walk ltac:(frame). Qed.

(** A request that writes its audit record last. *)
Lemma wp_audited {A} (x : A) (g : A -> answer) w w1 r actor action target detail :
  sound w1 -> in_order (w_db w1) -> allowed (abs (w_db w)) r (g x) (abs (w_db w1)) ->
  wp (Vault.audit actor action target detail ;;; Ret x)%prog (fun x w2 => wp (Ret (g x)) (kept w r) w2) w1.
Proof.
  intros Hw Hd Ha. apply wp_bind. eapply wp_beside; [apply beside_audit | done |]. intros _ w2 Hw2 _ Hk.
  apply wp_Ret, wp_Ret. destruct (keeps_in_order _ _ Hk) as [Habs Hin].
  split; [done |]. split; [by apply Hin |]. by rewrite Habs.
Qed.

Lemma kept_still w r a : sound w -> in_order (w_db w) -> spec r (abs (w_db w)) = (a, abs (w_db w)) -> kept w r a w.
Proof. intros Hw Hd Hs. split; [done |]. split; [done |]. left. by rewrite Hs. Qed.

Lemma wp_by_name {A} (k : string) (next : Secret.t -> M A) (Q : result error A -> world -> Prop) w :
  sound w -> (find_secret (w_db w) k = None -> Q (Err ErrNotFound) w) ->
  (forall s, find_secret (w_db w) k = Some s -> wp (next s) Q w) ->
  wp (s <-! GetSecretByName k ;; next s)%prog Q w.
Proof.
  intros Hw Hn Hs. apply wp_bind. apply wp_row_sound; [done |].
  change (select1 Secrets (fun s => str_is (Secret.Name s) k) (w_db w)) with (find_secret (w_db w) k).
  destruct (find_secret (w_db w) k) as [s |]; [by apply Hs | by apply wp_Ret, Hn].
Qed.

(** The map's answer for a name, given what the table has. *)
Lemma on_find d name f :
  on (abs d) name f =
  match find_secret d (Str.TrimSpace name) with Some s => f (Str.TrimSpace name) (entry_of d s) | None => (NotFound, abs d) end.
Proof. unfold on. rewrite abs_lookup. by destruct (find_secret d _). Qed.

(** The two requests that read one version. *)
Lemma wp_openable {A} name (next : Secret.t -> M A) (Q : result error A -> world -> Prop) w :
  sound w ->
  (find_secret (w_db w) (Str.TrimSpace name) = None -> Q (Err ErrNotFound) w) ->
  (forall s m, find_secret (w_db w) (Str.TrimSpace name) = Some s ->
     e_certificate (entry_of (w_db w) s) || e_disabled (entry_of (w_db w) s) = true -> Q (Err (Errorf m)) w) ->
  (forall s, find_secret (w_db w) (Str.TrimSpace name) = Some s ->
     e_certificate (entry_of (w_db w) s) || e_disabled (entry_of (w_db w) s) = false -> wp (next s) Q w) ->
  wp (s <-! Vault.resolveOpenable name ;; next s)%prog Q w.
Proof.
  intros Hw Hn Hr Hs. apply wp_bind. apply wp_by_name; [done | intros Hf; by apply wp_Ret, Hn |].
  intros s Hf. apply wp_Ret. specialize (Hr s). specialize (Hs s). cbn [e_certificate e_disabled entry_of] in *.
  destruct (str_is (Secret.Type_ s) SecretTypeCertificate); [by apply wp_Ret, Hr |]. unfold Vault.disabled_error.
  destruct (Secret.Disabled s); [by apply wp_Ret, Hr | by apply Hs].
Qed.

Lemma open_payload s v d :
  in_order d -> v ∈ rows (d SecretVersions) -> SecretVersion.SecretID v = Secret.ID s ->
  answer_of (fun p : Secret.t * string => Payload (snd p))
    (match Vault.open_ vault s v with Ok pt => Ok (s, pt) | Err e => Err e end) =
  match payload (Secret.ID s) v with Some p => Payload p | None => Refused end.
Proof.
  intros Hd Hv Hid. unfold Vault.open_, payload. destruct (SecretVersion.Destroyed v) eqn:E; [done |].
  destruct (version_opens _ Hd v Hv E) as [p Hp]. by rewrite <- Hid, Hp.
Qed.

Lemma wp_Version name n w :
  sound w -> in_order (w_db w) -> wp (run_request (Version name n)) (kept w (Version name n)) w.
Proof.
  intros Hw Hd. apply wp_bind. apply wp_openable; [done | | |].
  - intros Hf. apply wp_Ret, kept_still; [done | done |]. simpl. by rewrite on_find, Hf.
  - intros s m Hf Hr. apply wp_Ret, kept_still; [done | done |]. simpl. by rewrite on_find, Hf, Hr.
  - intros s Hf Hr. pose proof (find_secret_Some _ _ _ Hf) as [Hin _]. apply wp_bind. apply wp_row_sound; [done |].
    change (select1 SecretVersions (version_of (Secret.ID s) n) (w_db w)) with (find_version (w_db w) (Secret.ID s) n).
    pose proof (version_entry _ s n Hd Hin) as Hspec. destruct (find_version (w_db w) (Secret.ID s) n) as [v |] eqn:Hv.
    + apply find_version_Some in Hv as (Hv & Hid & _). apply wp_Ret, wp_Ret. rewrite (open_payload s v _ Hd Hv Hid).
      apply kept_still; [done | done |]. simpl. rewrite on_find, Hf, Hr, Hspec. simpl. by destruct (payload _ v).
    + apply wp_Ret, wp_Ret, kept_still; [done | done |]. simpl. by rewrite on_find, Hf, Hr, Hspec.
Qed.
(** *** The newest version *)

Lemma omap_None {A} (l : list (option A)) : Forall (fun x => x = None) l -> omap id l = [].
Proof. induction 1 as [| x l -> _ IH]; [done | exact IH]. Qed.

Lemma head_omap_skip {A} (l1 l2 : list (option A)) x :
  Forall (fun y => y = None) l2 -> head (omap id (rev (l1 ++ Some x :: l2))) = Some x.
Proof.
  intros Hl. rewrite rev_app_distr. cbn [rev]. rewrite <- app_assoc, omap_app, omap_None by by apply Forall_rev. done.
Qed.

Lemma newest_total a b : newest a b = true \/ newest b a = true.
Proof. unfold newest. rewrite !Z.leb_le. lia. Qed.
Lemma newest_trans a b c : newest a b = true -> newest b c = true -> newest a c = true.
Proof. unfold newest. rewrite !Z.leb_le. lia. Qed.

Definition live (id : Z) (v : SecretVersion.t) : bool := (SecretVersion.SecretID v =? id)%Z && negb (SecretVersion.Destroyed v).

Lemma payload_of_live d id n :
  (forall v, v ∈ select SecretVersions (live id) d -> SecretVersion.Version v <> n) -> payload_of d id n = None.
Proof.
  intros Hn. unfold payload_of. destruct (find_version d id n) as [v |] eqn:Hv; [| done].
  apply find_version_Some in Hv as (Hv & Hid & Hver). unfold payload. destruct (SecretVersion.Destroyed v) eqn:E; [done |].
  destruct (Hn v); [| done]. apply elem_of_select_where. split; [done |]. unfold live. by rewrite E, Hid, Z.eqb_refl.
Qed.

Lemma latest_entry d s :
  violated d = None -> in_order d -> s ∈ rows (d Secrets) ->
  latest (entry_of d s) =
  match head (order_by newest (select SecretVersions (live (Secret.ID s)) d)) with
  | Some v => payload (Secret.ID s) v
  | None => None
  end.
Proof.
  intros Hv Hd Hs. unfold latest, entry_of, versions. cbn [e_versions].
  destruct (head (order_by newest (select SecretVersions (live (Secret.ID s)) d))) as [v |] eqn:Hh.
  - apply (head_order_by _ newest_total newest_trans) in Hh as [[Hin [Hid%Z.eqb_eq Hlive%negb_true_iff]%andb_true_iff]%elem_of_select_where Hmax].
    destruct (version_opens _ Hd v Hin Hlive) as [p Hp]. rewrite Hid in Hp.
    assert (payload (Secret.ID s) v = Some p) as Hpay by (unfold payload; by rewrite Hlive, Hp).
    pose proof (version_numbers _ Hd s v Hs Hin Hid) as Hn. set (n := SecretVersion.Version v) in *.
    replace (Secret.CurrentVersion s) with ((n - 1) + (1 + (Secret.CurrentVersion s - n)))%Z by lia.
    rewrite seqZ_app, (seqZ_app (1 + (n - 1))) by lia. change (seqZ (1 + (n - 1)) 1) with [(1 + (n - 1))%Z].
    replace (1 + (n - 1))%Z with n by lia. rewrite !map_app. cbn [map app].
    replace (payload_of d (Secret.ID s) n) with (Some p).
    + rewrite Hpay. apply head_omap_skip, List.Forall_map, Forall_forall. intros m Hm%elem_of_seqZ. apply payload_of_live.
      intros v' Hv'. specialize (Hmax v' Hv'). unfold newest in Hmax. apply Z.leb_le in Hmax. fold n in Hmax. lia.
    + unfold payload_of. destruct (version_exists _ Hd s n Hs Hn) as [v' Hv']. rewrite Hv'.
      apply find_version_Some in Hv' as (Hin' & Hid' & Hver'). rewrite <- Hpay. f_equal.
      apply (version_unique d); [done .. |]. right. unfold n in Hver'. congruence.
  - apply head_order_by_None in Hh. rewrite omap_None; [done |]. apply Forall_rev, List.Forall_map, Forall_forall.
    intros n _. apply payload_of_live. intros v. rewrite Hh. intros Hv'. by apply not_elem_of_nil in Hv'.
Qed.

Lemma wp_Latest name w : sound w -> in_order (w_db w) -> wp (run_request (Latest name)) (kept w (Latest name)) w.
Proof.
  intros Hw Hd. pose proof (proj2 Hw) as Hv. apply wp_bind. apply wp_openable; [done | | |].
  - intros Hf. apply wp_Ret, kept_still; [done | done |]. simpl. by rewrite on_find, Hf.
  - intros s m Hf Hr. apply wp_Ret, kept_still; [done | done |]. simpl. by rewrite on_find, Hf, Hr.
  - intros s Hf Hr. pose proof (find_secret_Some _ _ _ Hf) as [Hin _]. apply wp_bind. apply wp_row_sound; [done |].
    pose proof (latest_entry _ s Hv Hd Hin) as Hl.
    change (select SecretVersions (fun v => (SecretVersion.SecretID v =? Secret.ID s)%Z && negb (SecretVersion.Destroyed v)) (w_db w))
      with (select SecretVersions (live (Secret.ID s)) (w_db w)).
    destruct (head (order_by newest (select SecretVersions (live (Secret.ID s)) (w_db w)))) as [v |] eqn:Hh.
    + apply (head_order_by _ newest_total newest_trans) in Hh as [[Hvin [Hid%Z.eqb_eq Hlive%negb_true_iff]%andb_true_iff]%elem_of_select_where _].
      apply wp_Ret, wp_Ret. rewrite (open_payload s v _ Hd Hvin Hid). apply kept_still; [done | done |].
      simpl. rewrite on_find, Hf, Hr, Hl. unfold payload. rewrite Hlive.
      destruct (version_opens _ Hd v Hvin Hlive) as [p Hp]. by rewrite <- Hid, Hp.
    + apply wp_Ret, wp_Ret, kept_still; [done | done |]. simpl. by rewrite on_find, Hf, Hr, Hl.
Qed.

(** *** Requests that change a secret *)

(** An update that leaves the ids and current versions. *)
Lemma in_order_meta (d d' : db) p f :
  d' Secrets = mkTable (update_where p f (rows (d Secrets))) (seq (d Secrets)) -> d' SecretVersions = d SecretVersions ->
  (forall s, Secret.ID (f s) = Secret.ID s /\ Secret.CurrentVersion (f s) = Secret.CurrentVersion s) -> in_order d -> in_order d'.
Proof.
  intros Hs Hv Hf [K1 K2 K3 K4 K5].
  assert (forall s, s ∈ rows (d' Secrets) -> exists s0, s0 ∈ rows (d Secrets) /\ Secret.ID s = Secret.ID s0 /\
            Secret.CurrentVersion s = Secret.CurrentVersion s0) as Hback.
  { intros s. rewrite Hs. cbn [rows]. intros (s0 & Hin & ->)%elem_of_update_where. exists s0.
    destruct (p s0); [by destruct (Hf s0) | done]. }
  constructor; unfold find_version in *; rewrite ?Hv; [| done | | | done].
  - intros s (s0 & Hin & -> & ->)%Hback. rewrite Hs. by apply K1.
  - intros s v (s0 & Hin & -> & ->)%Hback. by apply K3.
  - intros s n (s0 & Hin & -> & ->)%Hback. by apply K4.
Qed.

Lemma wp_SetDisabled name b actor w :
  sound w -> in_order (w_db w) -> wp (run_request (SetDisabled name b actor)) (kept w (SetDisabled name b actor)) w.
Proof.
  intros Hw Hd. pose proof (proj2 Hw) as Hv. apply wp_bind. apply (wp_by_name (Str.TrimSpace name)); [done | |].
  { intros Hf. apply wp_Ret, kept_still; [done | done |]. simpl. by rewrite on_find, Hf. }
  intros s Hf. pose proof (find_secret_Some _ _ _ Hf) as [Hin Hname]. apply wp_bind.
  apply (wp_update_hit Secrets _ _ s); [done | done | apply Z.eqb_refl | by rewrite violated_update |]. intros Hw1.
  set (w1 := with_db _ w) in *.
  assert (forall k', find_secret (w_db w1) k' = option_map (fun x => if secret_id (Secret.ID s) x then Secret.set_Disabled b x else x)
                                                   (find_secret (w_db w) k')) as Hfind.
  { intros k'. unfold find_secret, w1. cbn [with_db w_db]. rewrite update_eq. by apply find_update_where. }
  assert (forall s', entry_of (w_db w1) s' = entry_of (w_db w) s') as Hent.
  { intros s'. apply entry_ext. intros n _. unfold payload_of, find_version, w1. cbn [with_db w_db]. by rewrite update_ne. }
  assert (in_order (w_db w1)) as Hd1.
  { eapply in_order_meta; [| | | exact Hd]; [unfold w1; cbn [with_db w_db]; by rewrite update_eq | | done].
    unfold w1. cbn [with_db w_db]. by rewrite update_ne. }
  apply (wp_audited (Ok tt)); [done | done |]. left. cbn [spec answer_of]. rewrite on_find, Hf.
  rewrite (abs_update (w_db w) (w_db w1) s (Secret.set_Disabled b) (Str.TrimSpace name)); [by rewrite Hent | done .. |].
  intros s' _ _. apply Hent.
Qed.
(** A version is scrubbed. *)
Definition scrub (v : SecretVersion.t) : SecretVersion.t := SecretVersion.set_PayloadEnc "" (SecretVersion.set_Destroyed true v).
Definition scrubbed (v : SecretVersion.t) (d : db) : db :=
  snd (update SecretVersions (fun x => SecretVersion.ID x =? SecretVersion.ID v)%Z scrub d).

Section scrubbing.
Context (d : db) (v : SecretVersion.t) (Hd : in_order d) (Hv : violated d = None) (Hin : v ∈ rows (d SecretVersions)).

Lemma find_version_scrubbed id n :
  find_version (scrubbed v d) id n =
  option_map (fun x => if (SecretVersion.ID x =? SecretVersion.ID v)%Z then scrub x else x) (find_version d id n).
Proof. unfold find_version, scrubbed. rewrite update_eq. by apply find_update_where. Qed.

Lemma payload_of_scrubbed id n :
  payload_of (scrubbed v d) id n =
  if decide (id = SecretVersion.SecretID v /\ n = SecretVersion.Version v) then None else payload_of d id n.
Proof.
  unfold payload_of. rewrite find_version_scrubbed. destruct (find_version d id n) as [x |] eqn:Hx; simpl.
  - apply find_version_Some in Hx as (Hx & Hid & Hn). destruct (Z.eqb_spec (SecretVersion.ID x) (SecretVersion.ID v)) as [He | He].
    + assert (x = v) as -> by (apply (version_unique d); auto). rewrite decide_True by done. done.
    + rewrite decide_False; [done |]. intros [Hid' Hn']. apply He. f_equal. apply (version_unique d); [done .. |]. right. congruence.
  - by destruct (decide _).
Qed.

Lemma in_order_scrubbed : in_order (scrubbed v d).
Proof.
  destruct Hd as [K1 K2 K3 K4 K5].
  assert (scrubbed v d Secrets = d Secrets) as Hs by (unfold scrubbed; by rewrite update_ne).
  assert (forall x, x ∈ rows (scrubbed v d SecretVersions) -> exists x0, x0 ∈ rows (d SecretVersions) /\
            SecretVersion.ID x = SecretVersion.ID x0 /\ SecretVersion.SecretID x = SecretVersion.SecretID x0 /\
            SecretVersion.Version x = SecretVersion.Version x0 /\ (SecretVersion.Destroyed x = false -> x = x0)) as Hback.
  { intros x. unfold scrubbed. rewrite update_eq. cbn [rows]. intros (x0 & Hx & ->)%elem_of_update_where. exists x0.
    split; [done |]. by destruct (_ =? _)%Z. }
  constructor; rewrite ?Hs; [done | | | |].
  - intros x (x0 & Hx & -> & _)%Hback. unfold scrubbed. rewrite update_eq. by apply K2.
  - intros s x Hin' (x0 & Hx & _ & -> & -> & _)%Hback. by apply K3.
  - intros s n Hin' Hn. destruct (K4 s n Hin' Hn) as [x Hx]. rewrite find_version_scrubbed, Hx. simpl. eauto.
  - intros x (x0 & Hx & _ & _ & _ & Heq)%Hback Hlive. specialize (Heq Hlive) as ->. by apply K5.
Qed.

Lemma entry_of_scrubbed s :
  s ∈ rows (d Secrets) -> Secret.ID s = SecretVersion.SecretID v ->
  entry_of (scrubbed v d) s = with_versions (<[Z.to_nat (SecretVersion.Version v - 1) := None]> (e_versions (entry_of d s))) (entry_of d s).
Proof.
  intros Hs Hid. unfold with_versions, entry_of. cbn [e_certificate e_disabled e_versions]. f_equal.
  pose proof (version_numbers _ Hd s v Hs Hin (eq_sym Hid)) as Hn. set (n := SecretVersion.Version v) in *.
  unfold versions. apply list_eq. intros i. rewrite list_lookup_fmap.
  destruct (decide (i = Z.to_nat (n - 1))) as [-> | Hne].
  - rewrite list_lookup_insert_eq by (rewrite List.length_map, length_seqZ; lia). rewrite lookup_seqZ_lt by lia. simpl.
    rewrite payload_of_scrubbed, decide_True; [done |]. split; [done |]. fold n. lia.
  - rewrite list_lookup_insert_ne, list_lookup_fmap by done. destruct (seqZ 1 (Secret.CurrentVersion s) !! i) as [m |] eqn:Hm; [| done].
    simpl. rewrite payload_of_scrubbed, decide_False; [done |]. intros [_ ->]. apply lookup_seqZ in Hm as [Hm _]. apply Hne. fold n in Hm. lia.
Qed.
End scrubbing.

Lemma wp_Destroy name n actor w :
  sound w -> in_order (w_db w) -> wp (run_request (Destroy name n actor)) (kept w (Destroy name n actor)) w.
Proof.
  intros Hw Hd. pose proof (proj2 Hw) as Hv. apply wp_bind. apply (wp_by_name (Str.TrimSpace name)); [done | |].
  { intros Hf. apply wp_Ret, kept_still; [done | done |]. simpl. by rewrite on_find, Hf. }
  intros s Hf. pose proof (find_secret_Some _ _ _ Hf) as [Hin Hname]. apply wp_bind. apply wp_row_sound; [done |].
  change (select1 SecretVersions (version_of (Secret.ID s) n) (w_db w)) with (find_version (w_db w) (Secret.ID s) n).
  pose proof (version_entry _ s n Hd Hin) as Hspec. destruct (find_version (w_db w) (Secret.ID s) n) as [v |] eqn:Hver.
  2: { apply wp_Ret, kept_still; [done | done |]. simpl. by rewrite on_find, Hf, Hspec. }
  apply find_version_Some in Hver as (Hvin & Hid & Hn). apply wp_bind.
  apply (wp_update_hit SecretVersions _ _ v); [done | done | apply Z.eqb_refl | by rewrite violated_update |]. intros Hw1.
  change (with_db _ w) with (with_db (scrubbed v (w_db w)) w) in *. set (w1 := with_db _ w) in *.
  assert (find_secret (w_db w1) = find_secret (w_db w)) as Hfind
    by (unfold w1, find_secret, scrubbed; cbn [with_db w_db]; by rewrite update_ne).
  apply (wp_audited (Ok tt)); [done | by apply in_order_scrubbed |]. left. cbn [spec answer_of]. rewrite on_find, Hf, Hspec. simpl option_map.
  cbv iota. rewrite (abs_update (w_db w) (w_db w1) s id (Str.TrimSpace name)); [| done | done | done | |].
  - unfold w1. cbn [with_db w_db id]. rewrite (entry_of_scrubbed _ _ Hd Hv Hvin) by done. by rewrite Hn.
  - intros k'. rewrite Hfind. destruct (find_secret (w_db w) k'); [| done]. simpl. by destruct (secret_id _ _).
  - intros s' Hin' Hne. apply entry_ext. intros m _. unfold w1. cbn [with_db w_db]. rewrite (payload_of_scrubbed _ _ Hv Hvin).
    apply decide_False. intros [He _]. congruence.
Qed.
(** A secret goes, with its versions and bindings. *)
Definition secret_deleted (s : Secret.t) (d : db) : db := snd (delete Secrets (secret_id (Secret.ID s)) d).
Definition ids_of (s : Secret.t) (d : db) : list Z := map Secret.ID (select_where (secret_id (Secret.ID s)) (rows (d Secrets))).

Lemma secret_deleted_eq s d :
  secret_deleted s d =
  drop_rows SecretBindings (fun b => existsb (Z.eqb (SecretBinding.SecretID b)) (ids_of s d))
    (drop_rows SecretVersions (fun v => existsb (Z.eqb (SecretVersion.SecretID v)) (ids_of s d))
      (drop_rows Secrets (secret_id (Secret.ID s)) d)).
Proof. reflexivity. Qed.

Lemma ids_of_spec s d i : s ∈ rows (d Secrets) -> existsb (Z.eqb i) (ids_of s d) = (i =? Secret.ID s)%Z.
Proof.
  intros Hs. apply eq_bool_prop_intro. rewrite !Is_true_true, existsb_exists. unfold ids_of. split.
  - intros (j & Hj%list_elem_of_In & ->%Z.eqb_eq). apply list_elem_of_fmap in Hj as (x & -> & Hx).
    by apply elem_of_select_where in Hx as [_ Hx].
  - intros ->%Z.eqb_eq. exists (Secret.ID s). split; [| apply Z.eqb_refl]. apply list_elem_of_In, list_elem_of_fmap.
    exists s. split; [done |]. apply elem_of_select_where. split; [done | apply Z.eqb_refl].
Qed.

(** Versions and bindings refer to secrets, and nothing refers to them. *)
Lemma secret_keys :
  Forall (fun k => parent k <> SecretVersions /\ parent k <> SecretBindings /\
    (parent k = Secrets -> k = FKey SecretVersions (fun v => Some (SecretVersion.SecretID v)) Secrets true \/
                           k = FKey SecretBindings (fun b => Some (SecretBinding.SecretID b)) Secrets true)) fkeys.
Proof. unfold fkeys. repeat (apply List.Forall_cons; [simpl; auto with congruence; try (repeat split; [discriminate | discriminate |]; intros; try discriminate; auto) |]). constructor. Qed.

Section deletion.
Context (d : db) (s : Secret.t) (Hv : violated d = None) (Hs : s ∈ rows (d Secrets)).

Lemma deleted_secrets : secret_deleted s d Secrets = mkTable (delete_where (secret_id (Secret.ID s)) (rows (d Secrets))) (seq (d Secrets)).
Proof. rewrite secret_deleted_eq. unfold drop_rows. rewrite !set_table_ne by done. apply set_table_eq. Qed.

Lemma deleted_versions :
  secret_deleted s d SecretVersions =
  mkTable (delete_where (fun v => (SecretVersion.SecretID v =? Secret.ID s)%Z) (rows (d SecretVersions))) (seq (d SecretVersions)).
Proof.
  rewrite secret_deleted_eq. unfold drop_rows. rewrite set_table_ne by done. rewrite set_table_eq. rewrite set_table_ne by done.
  f_equal. apply List.filter_ext. intros v. f_equal. by apply ids_of_spec.
Qed.

Lemma deleted_bindings :
  secret_deleted s d SecretBindings =
  mkTable (delete_where (fun b => (SecretBinding.SecretID b =? Secret.ID s)%Z) (rows (d SecretBindings))) (seq (d SecretBindings)).
Proof.
  rewrite secret_deleted_eq. unfold drop_rows. rewrite set_table_eq. rewrite !set_table_ne by done.
  f_equal. apply List.filter_ext. intros v. f_equal. by apply ids_of_spec.
Qed.

Lemma deleted_other t : t <> Secrets -> t <> SecretVersions -> t <> SecretBindings -> secret_deleted s d t = d t.
Proof. intros. rewrite secret_deleted_eq. unfold drop_rows. by rewrite !set_table_ne by done. Qed.

Lemma deleted_sub t r : r ∈ rows (secret_deleted s d t) -> r ∈ rows (d t).
Proof. apply (proj1 (delete_cascade_sub 4 Secrets (secret_id (Secret.ID s)) d t)). Qed.

Lemma violated_deleted : violated (secret_deleted s d) = None.
Proof.
  apply (violated_drops d); [| | done].
  - intros t. destruct (decide (t = Secrets)) as [-> |]; [rewrite deleted_secrets; eauto |].
    destruct (decide (t = SecretVersions)) as [-> |]; [rewrite deleted_versions; eauto |].
    destruct (decide (t = SecretBindings)) as [-> |]; [rewrite deleted_bindings; eauto |].
    rewrite deleted_other by done. exists (fun _ => false). unfold delete_where. by rewrite filter_true.
  - intros k Hk r i Hin Hi. pose proof (proj1 (Forall_forall _ _) secret_keys k Hk) as (Hp1 & Hp2 & Hp3).
    destruct (proj2 (proj1 (violated_None d) Hv) k Hk r i) as (y & Hy & Hid); [| done |].
    { apply deleted_sub, Hin. }
    exists y. split; [| done]. destruct (decide (parent k = Secrets)) as [Hp | Hp]; [| by rewrite deleted_other].
    destruct (Hp3 Hp) as [-> | ->]; cbn [child column parent] in *; rewrite deleted_secrets; cbn [rows];
      apply elem_of_delete_where; (split; [done |]); injection Hi as Hi; apply Z.eqb_neq; intros Heq;
      (assert (i = Secret.ID s) as -> by (rewrite <- Hid; exact Heq)); revert Hi.
    + rewrite deleted_versions in Hin. cbn [rows] in Hin. by apply elem_of_delete_where in Hin as [_ Hin%Z.eqb_neq].
    + rewrite deleted_bindings in Hin. cbn [rows] in Hin. by apply elem_of_delete_where in Hin as [_ Hin%Z.eqb_neq].
Qed.
End deletion.
Section deletion_refines.
Context (d : db) (s : Secret.t) (Hd : in_order d) (Hv : violated d = None) (Hs : s ∈ rows (d Secrets)).

Lemma find_secret_deleted k :
  find_secret (secret_deleted s d) k =
  match find_secret d k with Some x => if secret_id (Secret.ID s) x then None else Some x | None => None end.
Proof.
  unfold find_secret. rewrite deleted_secrets. cbn [rows]. apply find_delete_where.
  intros x y Hx Hy Hnx%str_is_eq Hny%str_is_eq. apply (secret_unique d); [done .. |]. right. congruence.
Qed.

Lemma find_version_deleted id n :
  id <> Secret.ID s -> find_version (secret_deleted s d) id n = find_version d id n.
Proof.
  intros Hid. unfold find_version. rewrite deleted_versions by done. cbn [rows]. apply find_delete_other.
  intros x [Hx%Z.eqb_eq _]%andb_true_iff. apply Z.eqb_neq. congruence.
Qed.

Lemma remaining s' : s' ∈ rows (secret_deleted s d Secrets) -> s' ∈ rows (d Secrets) /\ Secret.ID s' <> Secret.ID s.
Proof. rewrite deleted_secrets. intros [Hin Hid%Z.eqb_neq]%elem_of_delete_where. done. Qed.

Lemma in_order_deleted : in_order (secret_deleted s d).
Proof.
  destruct Hd as [K1 K2 K3 K4 K5].
  assert (forall v, v ∈ rows (secret_deleted s d SecretVersions) -> v ∈ rows (d SecretVersions)) as Hsub by (intros v; apply deleted_sub).
  constructor.
  - intros x [Hx _]%remaining. rewrite deleted_secrets. by apply K1.
  - intros v Hv'%Hsub. rewrite deleted_versions by done. by apply K2.
  - intros x v [Hx _]%remaining Hv'%Hsub. by apply K3.
  - intros x n [Hx Hne]%remaining Hn. rewrite find_version_deleted by done. by apply K4.
  - intros v Hv'%Hsub. by apply K5.
Qed.

Lemma abs_deleted k : find_secret d k = Some s -> abs (secret_deleted s d) = base.delete k (abs d).
Proof.
  intros Hf. pose proof (find_secret_Some _ _ _ Hf) as [_ Hname]. apply map_eq. intros k'.
  rewrite abs_lookup, find_secret_deleted. destruct (decide (k = k')) as [<- | Hne].
  - rewrite lookup_delete_eq, Hf. unfold secret_id. by rewrite Z.eqb_refl.
  - rewrite lookup_delete_ne, abs_lookup by done. destruct (find_secret d k') as [s' |] eqn:Hf'; [| done].
    apply find_secret_Some in Hf' as [Hin' Hname']. unfold secret_id. destruct (Z.eqb_spec (Secret.ID s') (Secret.ID s)) as [Hid | Hid].
    + destruct Hne. rewrite <- Hname, <- Hname'. f_equal. apply (secret_unique d); [done .. | by left].
    + simpl. f_equal. apply entry_ext. intros n _. unfold payload_of. by rewrite find_version_deleted.
Qed.
End deletion_refines.

Lemma wp_Delete name actor w :
  sound w -> in_order (w_db w) -> wp (run_request (Delete name actor)) (kept w (Delete name actor)) w.
Proof.
  intros Hw Hd. pose proof (proj2 Hw) as Hv. apply wp_bind. apply (wp_by_name (Str.TrimSpace name)); [done | |].
  { intros Hf. apply wp_Ret, kept_still; [done | done |]. simpl. by rewrite on_find, Hf. }
  intros s Hf. pose proof (find_secret_Some _ _ _ Hf) as [Hin Hname]. apply wp_bind.
  assert (snd (delete Secrets (secret_id (Secret.ID s)) (w_db w)) = secret_deleted s (w_db w)) as Hdel
    by (unfold secret_deleted; reflexivity).
  apply (wp_delete_hit Secrets _ s); [done | done | apply Z.eqb_refl | rewrite Hdel; by apply violated_deleted |]. intros Hw1.
  rewrite Hdel in *. apply (wp_audited (Ok tt)); [exact Hw1 | exact (in_order_deleted _ _ Hd Hin) |].
  left. cbn [spec answer_of with_db w_db]. by rewrite on_find, Hf, (abs_deleted _ _ Hv Hin _ Hf).
Qed.
(** *** A new version *)

Definition bump (now : Z) (s : Secret.t) : Secret.t :=
  Secret.set_UpdatedAt now (Secret.set_CurrentVersion (Secret.CurrentVersion s + 1) s).
Definition bumped (now : Z) (s : Secret.t) (d : db) : db := snd (update Secrets (secret_id (Secret.ID s)) (bump now) d).
Definition appended (now : Z) (s : Secret.t) (v : SealedVersion) (ct by_ : string) (d : db) : db :=
  snd (insert SecretVersions (version_row (Secret.ID s) (Secret.CurrentVersion s + 1) v ct by_ now) (bumped now s d)).

Section appending.
Context (d : db) (s : Secret.t) (now : Z) (v : SealedVersion) (ct by_ : string) (value : string).
Context (Hd : in_order d) (Hv : violated d = None) (Hs : s ∈ rows (d Secrets)).
Context (Hopen : Pqcrypt.Open vault (PayloadEnc v) (Vault.aad (Secret.ID s) (Secret.CurrentVersion s + 1)) = Pqcrypt.Returns value).

Let next := (Secret.CurrentVersion s + 1)%Z.
Let row := version_row (Secret.ID s) next v ct by_ now (seq (d SecretVersions) + 1).

Lemma appended_versions :
  appended now s v ct by_ d SecretVersions = mkTable (rows (d SecretVersions) ++ [row]) (seq (d SecretVersions) + 1).
Proof. unfold appended, bumped. rewrite insert_eq, update_ne by done. done. Qed.

Lemma appended_secrets :
  appended now s v ct by_ d Secrets = mkTable (update_where (secret_id (Secret.ID s)) (bump now) (rows (d Secrets))) (seq (d Secrets)).
Proof. unfold appended, bumped. by rewrite insert_ne, update_eq by done. Qed.

Lemma find_secret_appended k :
  find_secret (appended now s v ct by_ d) k = option_map (fun x => if secret_id (Secret.ID s) x then bump now x else x) (find_secret d k).
Proof. unfold find_secret. rewrite appended_secrets. cbn [rows]. by apply find_update_where. Qed.

Lemma find_version_appended id n :
  find_version (appended now s v ct by_ d) id n =
  match find_version d id n with
  | Some x => Some x
  | None => if version_of id n row then Some row else None
  end.
Proof. unfold find_version. rewrite appended_versions. apply find_snoc. Qed.

Lemma no_next : find_version d (Secret.ID s) next = None.
Proof.
  destruct (find_version d (Secret.ID s) next) as [x |] eqn:Hx; [| done].
  apply find_version_Some in Hx as (Hx & Hid & Hn). pose proof (version_numbers _ Hd s x Hs Hx Hid). unfold next in Hn. lia.
Qed.

Lemma row_version id n : version_of id n row = bool_decide (id = Secret.ID s /\ n = next).
Proof.
  unfold version_of, row, version_row. cbn [SecretVersion.SecretID SecretVersion.Version].
  destruct (Z.eqb_spec (Secret.ID s) id), (Z.eqb_spec next n); cbn [andb]; symmetry;
    [apply bool_decide_eq_true | apply bool_decide_eq_false ..]; intuition congruence.
Qed.

Lemma violated_appended : violated (appended now s v ct by_ d) = None.
Proof.
  assert (violated (bumped now s d) = None) as Hb by (unfold bumped; by rewrite violated_update).
  unfold appended. apply violated_insert_linked; [done | |].
  - intros x. unfold bumped. rewrite update_ne by done. intros Hx. apply orb_false_iff. split.
    + apply Z.eqb_neq, Z.lt_neq. eapply Z.le_lt_trans; [exact (version_ids _ Hd x Hx) | apply Z.lt_succ_diag_r].
    + apply andb_false_iff. cbn [version_row SecretVersion.SecretID SecretVersion.Version].
      destruct (Z.eqb_spec (SecretVersion.SecretID x) (Secret.ID s)) as [Hid | Hid]; [right | by left].
      pose proof (version_numbers _ Hd s x Hs Hx Hid). apply Z.eqb_neq. lia.
  - change (has_id Secrets (Secret.ID s) (bumped now s d) && true = true). rewrite andb_true_r. apply has_id_spec.
    exists (bump now s). unfold bumped. rewrite update_eq. cbn [rows]. split; [| done].
    apply elem_of_update_where. exists s. split; [done |]. unfold secret_id. by rewrite Z.eqb_refl.
Qed.
Lemma payload_of_appended id n :
  id <> Secret.ID s \/ (n <= Secret.CurrentVersion s)%Z -> (1 <= n)%Z -> 
  payload_of (appended now s v ct by_ d) id n = payload_of d id n.
Proof.
  intros Hne H1. unfold payload_of. rewrite find_version_appended, row_version.
  destruct (find_version d id n); [done |]. rewrite bool_decide_eq_false_2; [done |]. unfold next. intros [-> ->]. lia.
Qed.

Lemma entry_of_appended :
  entry_of (appended now s v ct by_ d) (bump now s) = with_versions (e_versions (entry_of d s) ++ [Some value]) (entry_of d s).
Proof.
  unfold with_versions, entry_of, versions. cbn [e_certificate e_disabled e_versions bump Secret.set_UpdatedAt Secret.set_CurrentVersion
    Secret.Type_ Secret.Disabled Secret.ID Secret.CurrentVersion]. f_equal.
  destruct (secret_ids _ Hd s Hs) as [_ Hcv]. rewrite seqZ_app by lia. change (seqZ (1 + Secret.CurrentVersion s) 1) with [(1 + Secret.CurrentVersion s)%Z].
  rewrite map_app. cbn [map]. f_equal.
  - apply map_ext_in. intros n Hn%list_elem_of_In%elem_of_seqZ. apply payload_of_appended; lia.
  - f_equal. unfold payload_of. rewrite find_version_appended. replace (1 + Secret.CurrentVersion s)%Z with next by (unfold next; lia).
    rewrite no_next, row_version, bool_decide_eq_true_2 by done. unfold payload, row, version_row.
    cbn [SecretVersion.Destroyed SecretVersion.PayloadEnc SecretVersion.Version]. unfold next. by rewrite Hopen.
Qed.

Lemma in_order_appended : in_order (appended now s v ct by_ d).
Proof.
  assert (forall x, x ∈ rows (appended now s v ct by_ d Secrets) ->
    (x = bump now s) \/ (x ∈ rows (d Secrets) /\ Secret.ID x <> Secret.ID s)) as Hback.
  { intros x. rewrite appended_secrets. intros (x0 & Hx & ->)%elem_of_update_where. unfold secret_id.
    destruct (Z.eqb_spec (Secret.ID x0) (Secret.ID s)) as [He | He]; [left | by right].
    f_equal. apply (secret_unique d); [done .. | by left]. }
  assert (forall x, x ∈ rows (appended now s v ct by_ d SecretVersions) -> x ∈ rows (d SecretVersions) \/ x = row) as Hvback.
  { intros x. rewrite appended_versions. intros [Hx | Hx%list_elem_of_singleton]%elem_of_app; auto. }
  destruct (secret_ids _ Hd s Hs) as [Hid Hcv]. constructor.
  - intros x [-> | [Hx _]]%Hback; rewrite appended_secrets; cbn [seq]; [| by apply (secret_ids _ Hd)].
    split; [exact Hid | cbn [bump Secret.set_UpdatedAt Secret.set_CurrentVersion Secret.CurrentVersion]; lia].
  - intros x [Hx | ->]%Hvback; rewrite appended_versions; cbn [seq]; [| reflexivity].
    etrans; [exact (version_ids _ Hd x Hx) | apply Z.le_succ_diag_r].
  - intros x y [-> | [Hx Hne]]%Hback [Hy | ->]%Hvback Hxy.
    + pose proof (version_numbers _ Hd s y Hs Hy Hxy). cbn [bump Secret.set_UpdatedAt Secret.set_CurrentVersion Secret.CurrentVersion]. lia.
    + cbn [row version_row SecretVersion.Version bump Secret.set_UpdatedAt Secret.set_CurrentVersion Secret.CurrentVersion]. unfold next. lia.
    + by apply (version_numbers _ Hd x y).
    + cbn [row version_row SecretVersion.SecretID] in Hxy. congruence.
  - intros x n [-> | [Hx Hne]]%Hback Hn; rewrite find_version_appended, row_version.
    + cbn [bump Secret.set_UpdatedAt Secret.set_CurrentVersion Secret.CurrentVersion Secret.ID] in *.
      destruct (decide (n = next)) as [-> | Hne]; [rewrite no_next, bool_decide_eq_true_2 by done; eauto |].
      destruct (version_exists _ Hd s n Hs) as [y ->]; [unfold next in Hne; lia | eauto].
    + destruct (version_exists _ Hd x n Hx Hn) as [y ->]. eauto.
  - intros x [Hx | ->]%Hvback Hlive; [by apply (version_opens _ Hd) |]. exists value. exact Hopen.
Qed.

Lemma abs_appended k :
  find_secret d k = Some s ->
  abs (appended now s v ct by_ d) = <[k := with_versions (e_versions (entry_of d s) ++ [Some value]) (entry_of d s)]> (abs d).
Proof.
  intros Hf. pose proof (find_secret_Some _ _ _ Hf) as [_ Hname]. rewrite <- entry_of_appended.
  apply abs_update; [done | done | done | apply find_secret_appended |].
  intros s' Hin Hne. apply entry_ext. intros n Hn. apply payload_of_appended; [by left | lia].
Qed.
End appending.

Lemma find_by_id d s :
  violated d = None -> s ∈ rows (d Secrets) -> List.find (secret_id (Secret.ID s)) (rows (d Secrets)) = Some s.
Proof.
  intros Hv Hs. destruct (find_elem (secret_id (Secret.ID s)) _ s Hs (Z.eqb_refl _)) as [x Hx]. rewrite Hx. f_equal.
  apply find_Some in Hx as [Hx Hid%Z.eqb_eq]. apply (secret_unique d); [done .. | by left].
Qed.

Lemma seal_refuses draw value aad e : Pqcrypt.Seal vault draw value aad = Err e -> is_not_found e = false.
Proof. unfold Pqcrypt.Seal. destruct (mlkem_Encapsulate _ _). repeat (case_match; [| by intros [= <-]]). done. Qed.

Lemma reserve_eq now s d :
  violated d = None -> s ∈ rows (d Secrets) -> reserve now (Secret.ID s) d = (Some (Secret.CurrentVersion s + 1)%Z, bumped now s d).
Proof.
  intros Hv Hs. assert (select1 Secrets (secret_id (Secret.ID s)) (bumped now s d) = Some (bump now s)) as Hf.
  { unfold select1, bumped. rewrite update_eq. cbn [rows].
    etrans; [exact (find_update_where (secret_id (Secret.ID s)) (secret_id (Secret.ID s)) (bump now) _ (fun _ _ => eq_refl)) |].
    rewrite find_by_id by done. simpl. unfold secret_id. by rewrite Z.eqb_refl. }
  unfold reserve. fold (bump now). change (snd (update Secrets (secret_id (Secret.ID s)) _ d)) with (bumped now s d). by rewrite Hf.
Qed.

Lemma write_version_eq now s ct by_ seal w :
  violated (w_db w) = None -> s ∈ rows (w_db w Secrets) ->
  fst (write_version now (Secret.ID s) ct by_ seal w) =
  match fst (seal (w_draws w) (Secret.ID s) (Secret.CurrentVersion s + 1)%Z) with
  | Err e => Err e
  | Ok v => Ok ((Secret.CurrentVersion s + 1)%Z, appended now s v ct by_ (w_db w))
  end.
Proof. intros Hv Hs. unfold write_version. rewrite reserve_eq by done. by destruct (seal _ _ _) as [[v | e] n]. Qed.

Lemma wp_Put name value ct actor w :
  sound w -> in_order (w_db w) -> wp (run_request (Put name value ct actor)) (kept w (Put name value ct actor)) w.
Proof.
  intros Hw Hd. pose proof (proj2 Hw) as Hv. apply wp_bind. apply (wp_by_name (Str.TrimSpace name)); [done | |].
  { intros Hf. apply wp_Ret, kept_still; [done | done |]. simpl. by rewrite on_find, Hf. }
  intros s Hf. pose proof (find_secret_Some _ _ _ Hf) as [Hin Hname].
  assert (forall m, e_certificate (entry_of (w_db w) s) || e_disabled (entry_of (w_db w) s) = true ->
    wp (Ret (Err (Errorf m))) (fun x w' => wp (Ret (answer_of (fun v => Number (SecretVersion.Version v)) x)) (kept w (Put name value ct actor)) w') w) as Hrefuse.
  { intros m Hr. apply wp_Ret, wp_Ret, kept_still; [done | done |]. cbn [spec]. by rewrite on_find, Hf, Hr. }
  destruct (str_is (Secret.Type_ s) SecretTypeCertificate) eqn:Ht; [apply Hrefuse; cbn [entry_of e_certificate]; by rewrite Ht |].
  unfold Vault.disabled_error. destruct (Secret.Disabled s) eqn:Hdis; [apply Hrefuse; cbn [entry_of e_certificate e_disabled]; by rewrite Ht, Hdis |].
  clear Hrefuse. assert (spec (Put name value ct actor) (abs (w_db w)) =
    (Number (Secret.CurrentVersion s + 1), <[Str.TrimSpace name := with_versions (e_versions (entry_of (w_db w) s) ++ [Some value]) (entry_of (w_db w) s)]> (abs (w_db w)))) as Hspec.
  { cbn [spec]. rewrite on_find, Hf. cbn [entry_of e_certificate e_disabled e_versions]. rewrite Ht, Hdis. cbn [orb].
    by rewrite versions_length by apply (secret_ids _ Hd s Hin). }
  apply wp_bind. unfold CreateSecretVersion. apply wp_bind, wp_now. intros now ts Hnow.
  set (w1 := mkWorld (w_db w) now ts (w_faults w) (w_draws w)). assert (sound w1) as Hw1 by exact Hw.
  apply wp_bind. pose proof (write_version_eq now s ct actor (Vault.seal_value vault value) w1 Hv Hin) as Heq.
  cbn [w_db w_draws w1] in Heq. cbn [Vault.seal_value fst] in Heq.
  destruct (Pqcrypt.Seal vault (w_draws w) value (Vault.aad (Secret.ID s) (Secret.CurrentVersion s + 1))) as [env | e] eqn:Hseal.
  - set (sv := mkSealed env _ _) in Heq.
    assert (Pqcrypt.Open vault (PayloadEnc sv) (Vault.aad (Secret.ID s) (Secret.CurrentVersion s + 1)) = Pqcrypt.Returns value) as Hopen
      by exact (seal_opens _ _ _ _ _ Hseal).
    pose proof (violated_appended (w_db w) s now sv ct actor Hd Hv Hin) as Hv2.
    apply wp_tx_any; [done | | |]; [intros e n Hr | intros x d' n Hr Hvd | intros x d' c n Hr Hvd]; rewrite Heq in Hr; [done | |].
    2: { injection Hr as _ <-. congruence. }
    injection Hr as <- <-. set (w2 := mkWorld (appended now s sv ct actor (w_db w)) _ _ _ _).
    assert (sound w2) as Hw2 by (split; [apply Hw | exact Hv2]). apply wp_row_sound; [done |].
    change (select1 SecretVersions (version_of (Secret.ID s) (Secret.CurrentVersion s + 1)) (w_db w2))
      with (find_version (appended now s sv ct actor (w_db w)) (Secret.ID s) (Secret.CurrentVersion s + 1)).
    rewrite find_version_appended, (no_next _ s Hd Hin), row_version, bool_decide_eq_true_2 by done.
    apply (wp_audited (Ok _)); [done | exact (in_order_appended (w_db w) s now sv ct actor value Hd Hv Hin Hopen) |].
    left. rewrite Hspec. cbn [answer_of version_row SecretVersion.Version w2 w_db].
    by rewrite (abs_appended (w_db w) s now sv ct actor value Hd Hv Hin Hopen _ Hf).
  - apply wp_tx_any; [done | | |]; [intros e' n Hr | intros x d' n Hr Hvd | intros x d' c n Hr Hvd]; rewrite Heq in Hr; [| done | done].
    injection Hr as <-. apply wp_Ret, wp_Ret, wp_Ret. split; [exact Hw |]. split; [exact Hd |]. right.
    split; [done |]. split; [| done]. cbn [answer_of]. change (is_not_found (Wrapf "seal secret" e)) with (is_not_found e). by rewrite (seal_refuses _ _ _ _ Hseal).
Qed.
(** *** A new secret *)

Lemma added_secrets (mk : Z -> Secret.t) d :
  snd (insert Secrets mk d) Secrets = mkTable (rows (d Secrets) ++ [mk (seq (d Secrets) + 1)%Z]) (seq (d Secrets) + 1).
Proof. apply insert_eq. Qed.

Section creation.
Context (d : db) (mk : Z -> Secret.t) (Hd : in_order d) (Hv : violated d = None).
Context (Hid : forall i, Secret.ID (mk i) = i) (Hcv : forall i, Secret.CurrentVersion (mk i) = 0%Z) (Hcert : forall i, Secret.CertID (mk i) = None).

Let d' : db := snd (insert Secrets mk d).
Let s : Secret.t := mk (seq (d Secrets) + 1)%Z.

Lemma find_version_added id n : find_version d' id n = find_version d id n.
Proof. unfold find_version, d'. by rewrite insert_ne. Qed.

Lemma in_order_added : in_order d'.
Proof.
  assert (forall x, x ∈ rows (d' Secrets) -> x ∈ rows (d Secrets) \/ x = s) as Hback.
  { intros x. unfold d'. rewrite added_secrets. intros [Hx | Hx%list_elem_of_singleton]%elem_of_app; auto. }
  assert (d' SecretVersions = d SecretVersions) as Hvs by (unfold d'; by rewrite insert_ne).
  constructor; rewrite ?Hvs; [| exact (version_ids _ Hd) | | | exact (version_opens _ Hd)].
  - intros x [Hx | ->]%Hback; unfold d'; rewrite added_secrets; cbn [seq].
    + destruct (secret_ids _ Hd x Hx). split; [| done]. etrans; [done | apply Z.le_succ_diag_r].
    + unfold s. rewrite Hid, Hcv. split; reflexivity.
  - intros x v [Hx | ->]%Hback Hvin Hxv; [by apply (version_numbers _ Hd) |].
    destruct (proj2 (proj1 (violated_None d) Hv) (FKey SecretVersions (fun v => Some (SecretVersion.SecretID v)) Secrets true)
                ltac:(unfold fkeys; set_solver) v _ Hvin eq_refl) as (y & Hy & Hyid).
    destruct (secret_ids _ Hd y Hy) as [Hle _]. unfold s in Hxv. rewrite Hid in Hxv. exfalso.
    apply (Z.lt_irrefl (seq (d Secrets))). apply Z.lt_le_trans with (seq (d Secrets) + 1)%Z; [apply Z.lt_succ_diag_r |].
    rewrite <- Hxv, <- Hyid. exact Hle.
  - intros x n [Hx | ->]%Hback Hn; [rewrite find_version_added; by apply (version_exists _ Hd) |].
    unfold s in Hn. rewrite Hcv in Hn. lia.
Qed.

Lemma abs_added : find_secret d (Secret.Name s) = None -> abs d' = <[Secret.Name s := mkEntry (str_is (Secret.Type_ s) SecretTypeCertificate) (Secret.Disabled s) []]> (abs d).
Proof.
  intros Hf. apply map_eq. intros k. rewrite abs_lookup. unfold find_secret, d'. rewrite added_secrets. cbn [rows].
  etrans; [apply f_equal, find_snoc |]. fold s (find_secret d k). destruct (decide (Secret.Name s = k)) as [<- | Hne].
  - rewrite Hf, lookup_insert_eq, str_is_refl. simpl. unfold entry_of, versions.
    assert (Secret.CurrentVersion s = 0%Z) as -> by apply Hcv. done.
  - rewrite lookup_insert_ne, abs_lookup by done. rewrite (proj2 (str_is_ne _ _) Hne).
    destruct (find_secret d k) as [x |]; [| done]. simpl. by f_equal.
Qed.
End creation.
Lemma violated_added d mk :
  in_order d -> violated d = None -> (forall i, Secret.ID (mk i) = i) -> (forall i, Secret.CertID (mk i) = None) ->
  find_secret d (Secret.Name (mk (seq (d Secrets) + 1)%Z)) = None <-> violated (snd (insert Secrets mk d)) = None.
Proof.
  intros Hd Hv Hid Hcert. split.
  - intros Hf. apply violated_insert_linked; [done | |].
    + intros y Hy. apply orb_false_iff. split.
      * apply Z.eqb_neq, Z.lt_neq. rewrite Hid. eapply Z.le_lt_trans; [exact (proj1 (secret_ids _ Hd y Hy)) | apply Z.lt_succ_diag_r].
      * exact (find_None _ _ Hf y Hy).
    + change (match Secret.CertID (mk (seq (d Secrets) + 1)%Z) with Some i => has_id Certificates i d | None => true end && true = true).
      by rewrite Hcert.
  - intros Hnone. destruct (find_secret d _) as [y |] eqn:Hf; [| done]. exfalso.
    apply find_secret_Some in Hf as [Hy Hname]. eapply violated_insert_clash; [exact Hy | | exact Hnone].
    apply orb_true_iff. right. by apply str_is_eq.
Qed.

Lemma wp_Create name typ description labels days actor w :
  sound w -> in_order (w_db w) ->
  wp (run_request (Create name typ description labels days actor)) (kept w (Create name typ description labels days actor)) w.
Proof.
  intros Hw Hd. pose proof (proj2 Hw) as Hv. set (r := Create name typ description labels days actor).
  assert (forall m, spec r (abs (w_db w)) = (Refused, abs (w_db w)) ->
    wp (Ret (Err (Errorf m))) (fun x w' => wp (Ret (answer_of (fun _ : Secret.t => Done) x)) (kept w r) w') w) as Hrefuse.
  { intros m Hr. by apply wp_Ret, wp_Ret, kept_still. }
  apply wp_bind. unfold Vault.Create, Vault.normalizeName. cbn [Vault.in_Name Vault.in_Type Vault.in_CertID Vault.in_Actor].
  destruct (str_is (Str.TrimSpace name) "") eqn:Hname; [apply Hrefuse; simpl; by rewrite Hname |].
  set (typ' := if str_is typ "" then SecretTypeKV else typ).
  destruct (str_is typ "" || str_is typ SecretTypeKV || str_is typ SecretTypeFile) eqn:Htyp.
  2: { apply wp_bind. unfold Vault.check_type.
       apply orb_false_iff in Htyp as [[H1 H2]%orb_false_iff H3]. subst typ'. rewrite H1, H2, H3. cbn [orb].
       destruct (str_is typ SecretTypeCertificate); apply wp_Ret, Hrefuse; simpl; by rewrite Hname, H1, H2, H3. }
  assert (str_is typ' SecretTypeKV || str_is typ' SecretTypeFile = true) as Htyp'
    by (subst typ'; destruct (str_is typ ""); [reflexivity | exact Htyp]).
  assert (spec r (abs (w_db w)) = match find_secret (w_db w) (Str.TrimSpace name) with
    | Some _ => (Refused, abs (w_db w)) | None => (Done, <[Str.TrimSpace name := mkEntry false false []]> (abs (w_db w))) end) as Hspec.
  { cbn [spec r]. rewrite Hname, Htyp, abs_lookup. by destruct (find_secret _ _). }
  apply wp_bind. unfold Vault.check_type. rewrite Htyp'. apply wp_Ret.
  apply wp_bind. unfold CreateSecret. apply wp_bind. cbn [Vault.new_secret Secret.CreatedAt Secret.UpdatedAt].
  apply wp_now. intros created ts Hc. set (w1 := mkWorld (w_db w) created ts (w_faults w) (w_draws w)).
  assert (sound w1) as Hw1 by exact Hw. cbn [Z.eqb]. set (mk := secret_row _ created created).
  pose proof (violated_added (w_db w) mk Hd Hv (fun i => eq_refl) (fun i => eq_refl)) as Hiff.
  change (Secret.Name (mk (seq (w_db w Secrets) + 1)%Z)) with (Str.TrimSpace name) in Hiff.
  apply wp_bind, wp_sql_any; [done | |].
  - intros Hvn Hs2. cbn [w1 w_db] in *. pose proof (proj2 Hiff Hvn) as Hf. rewrite Hf in Hspec.
    set (w2 := with_db _ w1) in *. apply wp_row_sound; [done |]. rewrite insert_id.
    destruct (find_elem (secret_id (seq (w_db w Secrets) + 1)%Z) (rows (w_db w2 Secrets)) (mk (seq (w_db w Secrets) + 1)%Z)) as [y Hy].
    { unfold w2. cbn [with_db w_db]. rewrite added_secrets. cbn [rows]. apply elem_of_app. right. by apply list_elem_of_singleton. }
    { apply Z.eqb_refl. }
    change (select1 Secrets (secret_id (seq (w_db w Secrets) + 1)%Z) (w_db w2))
      with (List.find (secret_id (seq (w_db w Secrets) + 1)%Z) (rows (w_db w2 Secrets))). rewrite Hy.
    apply (wp_audited (Ok y)); [done | by apply (in_order_added (w_db w) mk Hd Hv) |]. left. rewrite Hspec. cbn [answer_of].
    unfold w2. cbn [with_db w_db]. rewrite (abs_added (w_db w) mk (fun i => eq_refl)) by exact Hf.
    do 3 f_equal. unfold mk, secret_row. cbn [Secret.Type_ Vault.new_secret]. subst typ'. clear -Htyp.
    destruct (str_is typ "") eqn:E; [reflexivity |]. apply orb_true_iff in Htyp as [Ht%str_is_eq | Ht%str_is_eq]; by subst.
  - intros c Hc2. cbn [w1 w_db] in *. destruct (find_secret (w_db w) (Str.TrimSpace name)) as [y |] eqn:Hf.
    + apply wp_Ret, wp_Ret, wp_Ret. split; [exact Hw |]. split; [exact Hd |]. left. by rewrite Hspec.
    + pose proof (proj1 Hiff eq_refl). congruence.
Qed.
Lemma wp_request r w : sound w -> in_order (w_db w) -> wp (run_request r) (kept w r) w.
Proof.
  intros Hw Hd. destruct r;
    [by apply wp_Create | by apply wp_Put | by apply wp_Latest | by apply wp_Version | by apply wp_Destroy | by apply wp_SetDisabled | by apply wp_Delete].
Qed.

Lemma in_order_empty : in_order empty_db.
Proof.
  constructor.
  - intros s Hs. destruct (not_elem_of_nil _ Hs).
  - intros v Hv. destruct (not_elem_of_nil _ Hv).
  - intros s v Hs. destruct (not_elem_of_nil _ Hs).
  - intros s n Hs. destruct (not_elem_of_nil _ Hs).
  - intros v Hv. destruct (not_elem_of_nil _ Hv).
Qed.

(** C22.  The secret manager, over its tables and sealed envelopes, answers any
    sequence of requests as a map from names to numbered values would: what was
    put is what is read, numbers count up from one, the newest value that was
    not destroyed is the current one, a destroyed one keeps its number, a
    disabled or unknown secret is not read.  Only a [Put] can also be refused,
    without effect, when the random source or a cipher fails. *)
Theorem secrets_behave_as_a_map l w os w' :
  sound w -> in_order (w_db w) -> run_requests l w = (os, w') ->
  behaves (abs (w_db w)) os (abs (w_db w')).
Proof.
  revert w os. induction l as [| r l IH]; intros w os Hw Hd; cbn [run_requests]; [intros [= <- <-]; constructor |].
  pose proof (wp_request r w Hw Hd) as Hr. unfold wp in Hr. destruct (run (run_request r) w) as [a w1].
  destruct (run_requests l w1) as [os' w2] eqn:Hl. intros [= <- <-]. destruct Hr as (Hw1 & Hd1 & Ha).
  econstructor; [exact Ha | by apply IH].
Qed.
End refinement.

(** ** A secret's life *)

Definition life : list request :=
  [Create "db" "" "" ∅ 0 "ada"; Put " db " "one" "" "ada"; Put "db" "two" "" "ada"; Latest "db"; Destroy "db" 2 "ada";
   Latest "db"; Version "db" 2; SetDisabled "db" true "ada"; Latest "db"; Delete "db" "ada"; Latest "db"]%string.
Definition nowhere : world := mkWorld empty_db 1000 [] [] 0.
Definition run_life : list (request * answer) * world := run_requests sample_vault false life nowhere.

Lemma secrets_behave_as_a_map_witness :
  map snd (fst run_life) =
    [Done; Number 1; Number 2; Payload "two"; Done; Payload "one"; Refused; Done; Refused; Done; NotFound] /\
  behaves (abs sample_vault (w_db nowhere)) (fst run_life) (abs sample_vault (w_db (snd run_life))).
Proof.
  split; [vm_compute; reflexivity |].
  apply (secrets_behave_as_a_map sample_vault false life nowhere).
  - split; [reflexivity | vm_compute; reflexivity].
  - apply in_order_empty.
  - unfold run_life. destruct (run_requests _ _ _ _). reflexivity.
Defined.
End VaultFacts.
