(* ===== verification/K8sFacts.v ===== *)
(** * What a Kubernetes workload can fetch

    A cached verifier is never out of date with the shared database, and a
    secret is handed out only to a workload it is bound to, under the trust
    domain its token was verified in. *)

From S2P Require Import Prelude GoStrings Glob Effects Models Schema SqlFacts TableFacts Store Pki Sealing CaService SecretStore Vault K8s Sample CaFacts VaultFacts.

Module K8sFacts.
Import SecretStore K8sAuth Csi CaFacts.

(** ** Fingerprints *)

Lemma nibble_inj a b :
  (0 <= a < 16)%Z -> (0 <= b < 16)%Z -> Str.lower_char (Pki.hex_upper a) = Str.lower_char (Pki.hex_upper b) -> a = b.
Proof.
  intros Ha Hb Heq.
  assert (forallb (fun x => forallb (fun y => negb (Ascii.eqb (Str.lower_char (Pki.hex_upper x)) (Str.lower_char (Pki.hex_upper y))) || (x =? y)%Z)
            (seqZ 0 16)) (seqZ 0 16) = true) as Hall by (vm_compute; reflexivity).
  rewrite forallb_forall in Hall. specialize (Hall a ltac:(apply list_elem_of_In, elem_of_seqZ; lia)).
  rewrite forallb_forall in Hall. specialize (Hall b ltac:(apply list_elem_of_In, elem_of_seqZ; lia)).
  rewrite Heq, Ascii.eqb_refl in Hall. by apply Z.eqb_eq.
Qed.

Lemma hex_bytes_inj s t : Str.ToLower (Pki.hex_bytes s) = Str.ToLower (Pki.hex_bytes t) -> s = t.
Proof.
  revert t. induction s as [| c s IH]; intros [| d t]; [done | done | done |]. unfold Str.ToLower. cbn [Pki.hex_bytes Str.map_string].
  intros [= H1 H2 H3]. f_equal; [| by apply IH].
  assert (forall c, 0 <= Z.of_nat (Str.code c) < 256)%Z as Hcode by (intros x; pose proof (nat_ascii_bounded x); unfold Str.code; lia).
  apply nibble_inj in H1; [| pose proof (Hcode c); split; [apply Z.div_pos; lia | apply Z.div_lt_upper_bound; lia]
                           | pose proof (Hcode d); split; [apply Z.div_pos; lia | apply Z.div_lt_upper_bound; lia]].
  apply nibble_inj in H2; [| apply Z.mod_pos_bound; lia ..].
  rewrite <- (ascii_nat_embedding c), <- (ascii_nat_embedding d). f_equal. apply Nat2Z.inj. fold (Str.code c) (Str.code d).
  rewrite (Z.div_mod (Z.of_nat (Str.code c)) 16), (Z.div_mod (Z.of_nat (Str.code d)) 16) by lia. congruence.
Qed.

(** Text without a zero byte, as PostgreSQL stores it. *)
Fixpoint no_nul (s : string) : Prop :=
  match s with EmptyString => True | String c s' => c <> ascii_of_nat 0 /\ no_nul s' end.

Lemma until_nul a b r r' : no_nul a -> no_nul b -> (a +:+ nul +:+ r = b +:+ nul +:+ r')%go -> a = b /\ r = r'.
Proof.
  revert b. induction a as [| c a IH]; intros [| d b] Ha Hb; unfold nul; simpl.
  - intros [= ->]. done.
  - intros [= He _]. destruct Hb as [Hd _]. by destruct Hd.
  - intros [= He _]. destruct Ha as [Hc _]. by destruct Hc.
  - intros [= -> He]. destruct (IH b (proj2 Ha) (proj2 Hb) He) as [-> ->]. done.
Qed.

Lemma fields_inj l l' : Forall no_nul l -> Forall no_nul l' -> length l = length l' -> fields l = fields l' -> l = l'.
Proof.
  intros Hl. revert l'. induction Hl as [| a l Ha Hl IH]; intros [| b l'] Hl' Hlen; [done | done | done |]. cbn [fields].
  apply List.Forall_cons_iff in Hl' as [Hb Hl']. intros [-> Hf]%until_nul; [| done | done]. f_equal. apply IH; [done | simpl in Hlen; lia | done].
Qed.

(** ** The cache *)

Section cache.
Context `{Std : Pki.Std} `{Ciphers} `{RowOrder} `{Cluster}.
Context (master : string) (c : CSIConfig).
(** SHA-256 is taken to be free of collisions. *)
Hypothesis sha_inj : forall s t, Pki.sha256 s = Pki.sha256 t -> s = t.

Definition clean_row (m : K8sAuthMethod.t) : Prop := Forall no_nul (row_fields m).
Definition clean (d : db) : Prop := forall m, m ∈ rows (d K8sAuthMethods) -> clean_row m.

(** What a row configures: nothing when it is disabled or cannot be built. *)
Definition configured (m : K8sAuthMethod.t) : option Config :=
  if K8sAuthMethod.Disabled m then None
  else match verifierFromRow master m with Ok v => Some (cfg v) | Err _ => None end.

Definition domain_row (name : string) (d : db) : option K8sAuthMethod.t :=
  select1 K8sAuthMethods (fun m => str_is (K8sAuthMethod.Name m) name) d.

(** What a domain is verified under: its row, or the legacy configuration
    this process started with when there is no row. *)
Definition effective (name : string) (d : db) (reg : Registry) : option Config :=
  match domain_row name d with
  | Some m => configured m
  | None => match reg !! name with Some (v, fp) => if str_is fp legacyConfigFingerprint then Some (cfg v) else None | None => None end
  end.

(** An entry is the legacy verifier under its name, or what a row with its
    fingerprint configures. *)
Definition is_legacy (name : string) (v : Verifier) : Prop :=
  name = "default"%string /\ exists v0, legacyCSIVerifier master c = Ok (Some v0) /\ cfg v = cfg v0.
Definition coherent_entry (name : string) (e : Verifier * string) : Prop :=
  (snd e = legacyConfigFingerprint /\ is_legacy name (fst e)) \/
  exists m v, clean_row m /\ snd e = k8sRowFingerprint m /\ verifierFromRow master m = Ok v /\ cfg (fst e) = cfg v.
Definition coherent (reg : Registry) : Prop := map_Forall coherent_entry reg.

Lemma fingerprint_not_legacy m : k8sRowFingerprint m <> legacyConfigFingerprint.
Proof.
  unfold k8sRowFingerprint, Str.ToLower. destruct (Pki.sha256 _) as [| a s]; [done |]. cbn [Pki.hex_bytes Str.map_string].
  intros [= Hc _]. revert Hc. unfold legacyConfigFingerprint.
  assert (forallb (fun x => negb (Ascii.eqb (Str.lower_char (Pki.hex_upper x)) "l")) (seqZ 0 16) = true) as Hall by (vm_compute; reflexivity).
  rewrite forallb_forall in Hall. specialize (Hall (Z.of_nat (Str.code a) / 16)%Z).
  intros Hc. rewrite Hc, Ascii.eqb_refl in Hall. discriminate Hall. apply list_elem_of_In, elem_of_seqZ.
  pose proof (nat_ascii_bounded a). unfold Str.code. split; [apply Z.div_pos; lia | apply Z.div_lt_upper_bound; lia].
Qed.

Lemma verifierFromRow_fields m m' v :
  row_fields m = row_fields m' -> verifierFromRow master m = Ok v -> verifierFromRow master m' = Ok v.
Proof.
  unfold row_fields, verifierFromRow. intros [= -> -> -> -> -> Hb].
  assert (K8sAuthMethod.InsecureSkipVerify m = K8sAuthMethod.InsecureSkipVerify m') as -> by (by destruct (K8sAuthMethod.InsecureSkipVerify m), (K8sAuthMethod.InsecureSkipVerify m')).
  destruct (if IsEncrypted _ then _ else _); [| done]. do 2 (destruct (_ && _); [done |]). done.
Qed.

Lemma fingerprint_inj m m' : clean_row m -> clean_row m' -> k8sRowFingerprint m = k8sRowFingerprint m' -> row_fields m = row_fields m'.
Proof. intros Hm Hm' Hf. apply fields_inj; [done | done | done |]. by apply sha_inj, hex_bytes_inj. Qed.

(** A cached verifier with the fingerprint of a row is that row's. *)
Lemma hit_is_current name e m : coherent_entry name e -> clean_row m -> snd e = k8sRowFingerprint m -> exists v, verifierFromRow master m = Ok v /\ cfg (fst e) = cfg v.
Proof.
  intros [[Hl _] | (m0 & v & Hm0 & Hf & Hv & Hc)] Hm Hfp.
  - destruct (fingerprint_not_legacy m). congruence.
  - exists v. split; [| done]. eapply verifierFromRow_fields; [| exact Hv]. apply fingerprint_inj; congruence.
Qed.

Lemma coherent_insert name e reg : coherent_entry name e -> coherent reg -> coherent (<[name := e]> reg).
Proof. intros He Hr. by apply map_Forall_insert_2. Qed.
Lemma coherent_remove name reg : coherent reg -> coherent (Remove name reg).
Proof. intros Hr. by apply map_Forall_delete. Qed.
Lemma coherent_keep name v reg :
  (forall e, reg !! name = Some e -> cfg (fst e) = cfg v) -> coherent reg -> coherent (keep name v reg).
Proof.
  intros Hv Hr n e. unfold keep. destruct (decide (name = n)) as [<- | Hne]; [| rewrite lookup_alter_ne by done; apply Hr].
  rewrite lookup_alter_eq. destruct (reg !! name) as [e' |] eqn:He; [| done]. simpl. intros [= <-].
  pose proof (Hv e' eq_refl) as Hcfg. destruct (Hr name e' He) as [(Hl & Hn & v0 & Hv0 & Hc) | (m & v' & Hm & Hf & Hb & Hc)].
  - left. split; [done |]. split; [done |]. exists v0. split; [done |]. simpl. congruence.
  - right. exists m, v'. repeat (split; [done |]). simpl. congruence.
Qed.

Lemma run_domain_row name w :
  (exists e w', run (K8sStore.GetK8sAuthMethodByName name) w = (Err e, w') /\ is_not_found e = false) \/
  exists w', run (K8sStore.GetK8sAuthMethodByName name) w =
    (match domain_row name (w_db w) with Some m => Ok m | None => Err ErrNotFound end, w').
Proof.
  unfold K8sStore.GetK8sAuthMethodByName, query_row, query. destruct w as [d cl ts [| [x |] fs] n]; simpl; [right | left | right].
  - eexists. unfold domain_row. by destruct (select1 _ _ _).
  - by eauto.
  - eexists. unfold domain_row. by destruct (select1 _ _ _).
Qed.

Lemma domain_row_elem name d m : domain_row name d = Some m -> m ∈ rows (d K8sAuthMethods).
Proof. intros Hm. by apply find_Some in Hm as [? _]. Qed.

(** An answer that says what it should and leaves a coherent cache, in which
    the answer is the entry. *)
Definition answers (name : string) (want : option Config) (reg : Registry) (p : result error (option Verifier) * Registry) : Prop :=
  coherent (snd p) /\
  match fst p with
  | Err _ => snd p = reg
  | Ok o => option_map cfg o = want /\ (forall v, o = Some v -> exists fp, snd p !! name = Some (v, fp))
  end.

Lemma answers_removed name reg : coherent reg -> answers name None reg (Ok None, Remove name reg).
Proof. intros Hr. split; [by apply coherent_remove | done]. Qed.

Lemma answers_cached name v fp reg : coherent reg -> reg !! name = Some (v, fp) -> answers name (Some (cfg v)) reg (Ok (Some v), reg).
Proof. intros Hr Hl. split; [done |]. split; [done |]. intros ? [= <-]. by exists fp. Qed.

Lemma answers_rebuilt name m reg :
  clean_row m -> coherent reg ->
  answers name (match verifierFromRow master m with Ok v => Some (cfg v) | Err _ => None end) reg
    (match verifierFromRow master m with
     | Err _ => (Ok None, Remove name reg)
     | Ok built => (Ok (Some built), SetWithFingerprint name built (k8sRowFingerprint m) reg)
     end).
Proof.
  intros Hm Hr. destruct (verifierFromRow master m) as [v | e] eqn:Hv; [| by apply answers_removed]. split; simpl.
  - apply coherent_insert; [| done]. right. by exists m, v.
  - split; [done |]. intros v' [= ->]. eexists. apply lookup_insert_eq.
Qed.

(** One lookup through the cache. *)
Lemma verifierFor_spec name reg w :
  clean (w_db w) -> coherent reg ->
  answers name (effective name (w_db w) reg) reg (fst (run (verifierFor master name reg) w)).
Proof.
  intros Hd Hr. unfold verifierFor. rewrite run_bind.
  destruct (run_domain_row name w) as [(e & w' & -> & He) | [w' ->]]; cbn [fst snd run]; [by rewrite He |].
  unfold effective. destruct (domain_row name (w_db w)) as [m |] eqn:Hm.
  - pose proof (Hd m (domain_row_elem _ _ _ Hm)) as Hc. unfold configured.
    destruct (K8sAuthMethod.Disabled m); [by apply answers_removed |]. unfold GetWithFingerprint.
    destruct (reg !! name) as [[v fp] |] eqn:Hl; [| by apply answers_rebuilt].
    destruct (str_is fp (k8sRowFingerprint m)) eqn:Hfp; [| by apply answers_rebuilt]. apply str_is_eq in Hfp as ->.
    destruct (hit_is_current name (v, k8sRowFingerprint m) m (Hr _ _ Hl) Hc eq_refl) as (v' & -> & <-). by eapply answers_cached.
  - change (is_not_found ErrNotFound) with true. cbn iota. unfold GetWithFingerprint.
    destruct (reg !! name) as [[v fp] |] eqn:Hl; [| by apply answers_removed].
    destruct (str_is fp legacyConfigFingerprint); [by eapply answers_cached | by apply answers_removed].
Qed.

Lemma ready_keeps_cfg v w : cfg (snd (fst (run (ready v) w))) = cfg v.
Proof.
  unfold ready. destruct (str_is (IssuerURL (cfg v)) ""); [done |]. destruct (discovered v); [done |].
  rewrite run_bind. by destruct (fst (run (oidc_discover _ _) w)).
Qed.

Lemma Verify_keeps_cfg v token w : cfg (snd (fst (run (Verify v token) w))) = cfg v.
Proof.
  unfold Verify. destruct (str_is _ ""); [done |]. rewrite run_bind. rewrite <- (ready_keeps_cfg v w).
  destruct (fst (run (ready v) w)) as [e v']. by rewrite run_bind.
Qed.

(** A request under a trust domain leaves a coherent cache. *)
Lemma apiAuthK8s_coherent {A} header authz (h : Identity -> prog world (answer A)) reg w :
  clean (w_db w) -> coherent reg -> coherent (snd (fst (run (apiAuthK8s master header authz h reg) w))).
Proof.
  intros Hd Hr. unfold apiAuthK8s. rewrite run_bind. pose proof (verifierFor_spec (domain_name header) reg w Hd Hr) as Hv.
  destruct (run (verifierFor master (domain_name header) reg) w) as [[o reg'] w']. cbn [fst snd] in *. destruct Hv as [Hr' Ho].
  destruct o as [[v |] | e]; [| done | done]. destruct Ho as [_ Hl]. destruct (Hl v eq_refl) as [fp Hfp]. simpl in Hr', Hfp.
  destruct (negb _); [done |]. rewrite run_bind. pose proof (Verify_keeps_cfg v (Str.TrimSpace (drop_s 7 authz)) w') as Hc.
  destruct (run (Verify v _) w') as [[id v'] w'']. cbn [fst snd] in *.
  assert (coherent (keep (domain_name header) v' reg')) as Hk by (apply coherent_keep; [intros e; rewrite Hfp; by intros [= <-] | done]).
  destruct id as [id | e]; [| done]. by rewrite run_bind.
Qed.

Lemma coherent_empty : coherent ∅.
Proof. apply map_Forall_empty. Qed.

Lemma register_rows_coherent l reg reg' :
  (forall m, m ∈ l -> clean_row m) -> coherent reg -> register_rows master l reg = Ok reg' -> coherent reg'.
Proof.
  revert reg. induction l as [| m l IH]; intros reg Hl Hr; simpl; [by intros [= <-] |].
  destruct (K8sAuthMethod.Disabled m); [apply IH; [set_solver | done] |].
  destruct (verifierFromRow master m) as [v | e] eqn:Hv; [| done]. apply IH; [set_solver |].
  apply coherent_insert; [| done]. right. exists m, v. split; [apply Hl; set_solver | done].
Qed.

Lemma buildK8sRegistry_coherent reg w w' :
  clean (w_db w) -> run (buildK8sRegistry master c) w = (Ok reg, w') -> coherent reg.
Proof.
  intros Hd. unfold buildK8sRegistry. rewrite run_bind. unfold K8sStore.ListK8sAuthMethodsWithToken, query.
  assert (forall m, m ∈ order_by K8sStore.oldest_method (rows (w_db w K8sAuthMethods)) -> clean_row m) as Hl
    by (intros m Hm%elem_of_order_by; by apply Hd).
  destruct w as [d cl ts [| [x |] fs] n]; simpl; [| done |]; intros [= Hb _]; simpl in Hl; revert Hb;
    (destruct (register_rows master _ ∅) as [reg0 | e] eqn:Hreg; [| done]);
    pose proof (register_rows_coherent _ _ _ Hl coherent_empty Hreg) as Hr0;
    (destruct (Nat.eqb (Len reg0) 0); [| by intros [= <-]]);
    (destruct (legacyCSIVerifier master c) as [[v |] | e] eqn:Hl0; [| by intros [= <-] | done]); intros [= <-];
    (apply coherent_insert; [left; split; [done |]; split; [done |]; by exists v | done]).
Qed.


(** The caches a process can come to have: built at start-up, then changed by
    requests and by refreshes after a row was written, while other processes
    change the database in any way in between. *)
Inductive cache : Registry -> Prop :=
| Started reg w w' : clean (w_db w) -> run (buildK8sRegistry master c) w = (Ok reg, w') -> cache reg
| Refreshed name reg w : clean (w_db w) -> cache reg -> cache (fst (run (refreshK8sRegistry master name reg) w))
| Asked {A} header authz (h : Identity -> prog world (answer A)) reg w :
    clean (w_db w) -> cache reg -> cache (snd (fst (run (apiAuthK8s master header authz h reg) w))).
Lemma cache_coherent reg : cache reg -> coherent reg.
Proof.
  induction 1 as [reg w w' Hd Hb | name reg w Hd _ Hr | A header authz h reg w Hd _ Hr].
  - by eapply buildK8sRegistry_coherent.
  - unfold refreshK8sRegistry. rewrite run_bind. by apply verifierFor_spec.
  - by apply apiAuthK8s_coherent.
Qed.

Lemma verifierFor_current name reg w o reg' w' :
  cache reg -> clean (w_db w) -> run (verifierFor master name reg) w = (Ok o, reg', w') ->
  match domain_row name (w_db w) with
  | Some m => option_map cfg o = configured m
  | None => match o with None => True | Some v => is_legacy name v end
  end.
Proof.
  intros Hr%cache_coherent Hd Hrun. pose proof (verifierFor_spec name reg w Hd Hr) as [_ Hv]. rewrite Hrun in Hv. destruct Hv as [Hv _].
  unfold effective in Hv. destruct (domain_row name (w_db w)) as [m |] eqn:Hm; [done |].
  destruct (reg !! name) as [[v fp] |] eqn:Hl; [| by destruct o].
  destruct (str_is fp legacyConfigFingerprint) eqn:Hfp; [| by destruct o]. apply str_is_eq in Hfp as ->.
  destruct o as [v' |]; [| done]. injection Hv as Hc.
  destruct (Hr name _ Hl) as [(_ & Hn & v0 & Hv0 & Hcv) | (m & v0 & _ & Hf & _)]; [| by destruct (fingerprint_not_legacy m)].
  split; [done |]. exists v0. split; [done |]. simpl in Hcv. congruence.
Qed.

(** Whatever this process has cached and whatever other replicas have
    since written, the verifier a request gets is the one a reading of the
    database would build: none for a disabled or unusable domain, the current
    row's otherwise.  Only a domain with no row can be answered from the
    configuration file, and only the one named default. *)
Theorem verifierFor_is_current name reg w o reg' w' :
  cache reg -> clean (w_db w) -> run (verifierFor master name reg) w = (Ok o, reg', w') ->
  match domain_row name (w_db w) with
  | Some m => option_map cfg o = configured m
  | None => match o with None => True | Some v => is_legacy name v end
  end.
Proof.
  by apply verifierFor_current.
Qed.

(** ** A domain that cannot be built *)

Definition unusable (m : K8sAuthMethod.t) : Prop :=
  K8sAuthMethod.Disabled m = false /\ K8sAuthMethod.IssuerURL m = ""%string /\ K8sAuthMethod.APIServerURL m = ""%string.

Lemma unusable_row m : unusable m -> exists e, verifierFromRow master m = Err e.
Proof.
  intros (_ & Hi & Ha). unfold verifierFromRow. rewrite Hi, Ha. destruct (if IsEncrypted _ then _ else _); by eexists.
Qed.

Lemma register_rows_fails m l reg : m ∈ l -> unusable m -> exists e, register_rows master l reg = Err e.
Proof.
  intros Hm Hu. revert reg. induction l as [| m' l IH]; intros reg; [by apply not_elem_of_nil in Hm |]. simpl.
  apply elem_of_cons in Hm as [<- | Hm].
  - destruct (unusable_row m Hu) as [e ->]. destruct Hu as [-> _]. by exists e.
  - destruct (K8sAuthMethod.Disabled m'); [by apply IH |]. destruct (verifierFromRow master m'); [by apply IH | by eexists].
Qed.

Lemma start_fails m w : sound w -> m ∈ rows (w_db w K8sAuthMethods) -> unusable m -> exists e, fst (run (start_csi master c) w) = Err e.
Proof.
  intros Hw Hm Hu.
  assert (wp (start_csi master c) (fun r _ => exists e, r = Err e) w) as H'; [| exact H'].
  assert (m ∈ order_by K8sStore.oldest_method (rows (w_db w K8sAuthMethods))) as Hl by by apply elem_of_order_by.
  assert (wp (migrateLegacyCSIToRow master c) (fun r w' => r = Ok tt /\ w' = w) w) as Hmig.
  { unfold migrateLegacyCSIToRow. destruct (Enabled c); [| by apply wp_Ret]. apply wp_bind. apply wp_query_sound; [done |].
    destruct (order_by _ _) as [| m' l]; [by apply not_elem_of_nil in Hl |]. by apply wp_Ret. }
  apply wp_bind. eapply wp_mono; [exact Hmig |]. intros r w' [-> ->]. apply wp_bind, wp_bind. apply wp_query_sound; [done |].
  destruct (register_rows_fails m _ ∅ Hl Hu) as [e ->]. apply wp_Ret, wp_Ret. by eexists.
Qed.

Lemma wp_stored (x : K8sAuthMethod.t) w :
  sound w -> unusable x ->
  wp (K8sStore.CreateK8sAuthMethod x) (fun r w' => sound w' /\ forall m, r = Ok m -> exists m, m ∈ rows (w_db w' K8sAuthMethods) /\ unusable m) w.
Proof.
  intros Hw Hu. apply wp_bind. apply wp_now. intros now ts Hnow. set (w1 := mkWorld (w_db w) now ts (w_faults w) (w_draws w)).
  assert (sound w1) as Hw1 by exact Hw. cbv zeta. set (created := if (K8sAuthMethod.CreatedAt x =? 0)%Z then now else K8sAuthMethod.CreatedAt x). apply wp_bind. apply wp_sql_any; [done | |].
  - intros _ Hs. unfold K8sStore.GetK8sAuthMethod. apply wp_row_sound; [done |]. split; [done |]. intros m _.
    exists (K8sStore.method_row x created now (seq (w_db w1 K8sAuthMethods) + 1)%Z). split; [| exact Hu].
    cbn [with_db w_db]. rewrite insert_eq. cbn [rows]. apply elem_of_app. right. by apply list_elem_of_singleton.
  - intros cst _. by apply wp_Ret.
Qed.

Lemma beside_verifierFor name reg : beside [K8sAuthMethods] (verifierFor master name reg).
Proof. split; guar_walk ltac:(frame). Qed.
Lemma beside_encrypt token : beside [K8sAuthMethods] (encryptReviewerToken master token).
Proof. split; guar_walk ltac:(frame). Qed.

(** The administration stores a trust domain with neither an issuer nor
    an API server and answers with it; from then on, while the row is there and
    enabled, no server starts on this database. *)
Theorem incomplete_domain_stops_the_server in_ actor reg row reg' w w' :
  sound w -> run (apiCsiAuthMethodCreate master in_ actor reg) w = (Answer row, reg', w') ->
  m_IssuerURL in_ = ""%string -> m_APIServerURL in_ = ""%string -> m_Disabled in_ = false ->
  exists m, m ∈ rows (w_db w' K8sAuthMethods) /\
    forall w2, sound w2 -> m ∈ rows (w_db w2 K8sAuthMethods) -> exists e, fst (run (start_csi master c) w2) = Err e.
Proof.
  intros Hw Hrun Hi Ha Hdis.
  assert (wp (apiCsiAuthMethodCreate master in_ actor reg)
    (fun a w' => forall row, fst a = Answer row -> exists m, m ∈ rows (w_db w' K8sAuthMethods) /\ unusable m) w) as Hwp.
  { unfold apiCsiAuthMethodCreate. destruct (str_is (m_Name in_) ""); [by apply wp_Ret |]. apply wp_bind.
    eapply wp_beside; [apply beside_encrypt | done |]. intros [token | e] w1 Hw1 _ _; [| by apply wp_Ret]. apply wp_bind.
    eapply wp_mono; [apply wp_stored; [done |]; split; [exact Hdis | by split] |].
    intros [m | e] w2 [Hw2 Hm]; [| by apply wp_Ret]. destruct (Hm m eq_refl) as (x & Hx & Hu). apply wp_bind, wp_bind.
    eapply wp_beside; [apply beside_verifierFor | done |]. intros r w3 _ _ Hk. apply wp_Ret, wp_Ret. intros _ _. exists x.
    by rewrite (Hk K8sAuthMethods) by left. }
  unfold wp in Hwp. rewrite Hrun in Hwp. destruct (Hwp row eq_refl) as (m & Hm & Hu). exists m. split; [done |].
  intros w2 Hw2 Hm2. by eapply start_fails.
Qed.
End cache.

(** ** Who can read what *)

Section entitled.
Context `{Std : Pki.Std} `{Ciphers} `{RowOrder} `{Cluster}.
Context (vault : Pqcrypt.Vault) (master : string) (has_ca : bool).

(** A binding of the secret that is in force and matches the identity: both
    patterns, and the trust domain's unless it is for any. *)
Definition matching (now : Z) (id : Identity) (b : SecretBinding.t) : Prop :=
  (forall t, SecretBinding.ExpiresAt b = Some t -> (now < t)%Z) /\
  Glob.Match (SecretBinding.K8sNamespace b) (Namespace id) = Some true /\
  Glob.Match (SecretBinding.K8sServiceAccount b) (ServiceAccount id) = Some true /\
  (SecretBinding.K8sAuthMethod_ b = "*"%string \/ Glob.Match (SecretBinding.K8sAuthMethod_ b) (AuthMethod id) = Some true).
Definition bound (now : Z) (id : Identity) (s : Secret.t) (d : db) : Prop :=
  exists b, b ∈ rows (d SecretBindings) /\ SecretBinding.SecretID b = Secret.ID s /\ matching now id b.

Lemma path_matches_true p n : Vault.path_matches p n = true -> Glob.Match p n = Some true.
Proof. unfold Vault.path_matches. by destruct (Glob.Match p n) as [[] |]. Qed.

Lemma MatchesBinding_matching now id b :
  Vault.MatchesBinding now b (Namespace id) (ServiceAccount id) (AuthMethod id) = true -> matching now id b.
Proof.
  intros [[[Hu Hn]%andb_true_iff Hs]%andb_true_iff Hm]%andb_true_iff. split; [| split; [| split]]; [| by apply path_matches_true ..|].
  - intros t Ht. unfold SecretBinding_Usable in Hu. rewrite Ht in Hu. simpl in Hu. lia.
  - apply orb_true_iff in Hm as [Hm%str_is_eq | Hm]; [by left | right; by apply path_matches_true].
Qed.

(** The files of a secret: its linked certificate's, or the one of a live
    version that opens. *)
Definition content (s : Secret.t) (files : list (string * string)) (d : db) : Prop :=
  if str_is (Secret.Type_ s) SecretTypeCertificate then map fst files = ["tls.crt"; "tls.key"; "ca.crt"]%string
  else exists v pt f, v ∈ rows (d SecretVersions) /\ SecretVersion.SecretID v = Secret.ID s /\ SecretVersion.Destroyed v = false /\
    Vault.open_ vault s v = Ok pt /\ files = [(f, base64_Encode pt)].

(** What the identity may be handed for a name, at a time not before [since]. *)
Definition entitled (since : Z) (id : Identity) (name : string) (files : list (string * string)) (d : db) : Prop :=
  exists s now, s ∈ rows (d Secrets) /\ Secret.Name s = Str.TrimSpace name /\ Secret.Disabled s = false /\
    (since <= now)%Z /\ bound now id s d /\ content s files d.

Definition vault_tables : list table_name := [Secrets; SecretVersions; SecretBindings].

Lemma entitled_keeps since since' id name files d d' :
  keeps vault_tables d d' -> (since <= since')%Z -> entitled since' id name files d' -> entitled since id name files d.
Proof.
  intros Hk Hs (s & now & Hin & Hn & Hd & Hnow & (b & Hb & Hid & Hm) & Hc). unfold vault_tables, keeps in Hk.
  rewrite (Hk Secrets) in Hin by set_solver. rewrite (Hk SecretBindings) in Hb by set_solver.
  exists s, now. repeat (split; [first [done | lia] |]). split; [by exists b |]. unfold content in *.
  by rewrite <- (Hk SecretVersions) by set_solver.
Qed.

(** Time passes and nothing else happens to the store. *)
Definition later (w w' : world) : Prop := sound w' /\ w_db w' = w_db w /\ (w_clock w <= w_clock w')%Z.

Lemma later_refl w : sound w -> later w w.
Proof. intros Hw. split; [done | split; [done | lia]]. Qed.
Lemma later_trans w1 w2 w3 : later w1 w2 -> later w2 w3 -> later w1 w3.
Proof. intros (_ & E1 & L1) (Hs & E2 & L2). split; [done |]. split; [congruence | lia]. Qed.

Lemma wp_any_binding id l w :
  sound w -> wp (any_binding id l) (fun ok w' => later w w' /\ (ok = true -> exists b now, b ∈ l /\ (w_clock w <= now)%Z /\
    Vault.MatchesBinding now b (Namespace id) (ServiceAccount id) (AuthMethod id) = true)) w.
Proof.
  revert w. induction l as [| b l IH]; intros w Hw; cbn [any_binding]; [apply wp_Ret; by split; [apply later_refl |] |].
  apply wp_bind, wp_now. intros now ts Hnow. set (w1 := mkWorld (w_db w) now ts (w_faults w) (w_draws w)).
  assert (later w w1) as Hl by (split; [exact Hw | split; [done | exact Hnow]]).
  destruct (Vault.MatchesBinding now b _ _ _) eqn:Hm.
  - apply wp_Ret. split; [exact Hl |]. intros _. exists b, now. split; [by left | done].
  - eapply wp_mono; [apply IH; exact Hw |]. intros ok w' [Hl' Hok]. split; [by eapply later_trans |].
    intros Ht. destruct (Hok Ht) as (b' & now' & Hb & Hn & Hm'). exists b', now'. simpl in Hn. split; [by right | split; [lia | done]].
Qed.

(** The row a name stands for. *)
Definition named (name : string) (d : db) : option Secret.t :=
  select1 Secrets (fun s => str_is (Secret.Name s) (Str.TrimSpace name)) d.

Lemma named_Some name d s : named name d = Some s -> s ∈ rows (d Secrets) /\ Secret.Name s = Str.TrimSpace name /\ named (Secret.Name s) d = Some s.
Proof.
  intros Hs. pose proof (find_Some _ _ _ Hs) as [Hin Hn%str_is_eq]. repeat (split; [done |]). unfold named. by rewrite Hn, TrimSpace_idem.
Qed.

Lemma wp_Get name (Q : result error Secret.t -> world -> Prop) w :
  sound w -> Q (match named name (w_db w) with Some s => Ok s | None => Err ErrNotFound end) w -> wp (Vault.Get name) Q w.
Proof. intros Hw HQ. by apply wp_row_sound. Qed.

Lemma wp_Bindings s (Q : result error (list SecretBinding.t) -> world -> Prop) w :
  sound w -> named (Secret.Name s) (w_db w) = Some s ->
  (forall l, (forall b, b ∈ l -> exists b0, b0 ∈ rows (w_db w SecretBindings) /\ SecretBinding.SecretID b0 = Secret.ID s /\
                forall now ns sa m, Vault.MatchesBinding now b ns sa m = Vault.MatchesBinding now b0 ns sa m) -> Q (Ok l) w) ->
  wp (Vault.Bindings (Secret.Name s)) Q w.
Proof.
  intros Hw Hs HQ. apply wp_bind. apply wp_row_sound; [done |]. unfold named in Hs. unfold Vault.normalizeName. rewrite Hs.
  apply wp_query_sound; [done |]. apply HQ. intros b (b0 & -> & Hb)%list_elem_of_fmap. apply elem_of_order_by, list_elem_of_In in Hb.
  apply filter_In in Hb as [Hb Hid%Z.eqb_eq]. exists b0. split; [by apply list_elem_of_In | done].
Qed.

Lemma wp_later {A} (p : prog world A) (Q : A -> Prop) w :
  guar (on_db eq) p -> guar stays_sound p -> returns (fun _ => True) Q p -> sound w -> wp p (fun a w' => Q a /\ later w w') w.
Proof.
  intros Hp Hs HQ Hw. eapply wp_mono; [apply wp_and; [by apply wp_returns | apply wp_and; [apply wp_and; [by apply wp_sound | by apply wp_clock]
    | apply (wp_guar eq); [apply _ | apply _ | exact Hp]]] |].
  intros a w' (HQa & [Hw' Hc] & Hd). split; [done |]. by split.
Qed.

Lemma wp_certificate_files s w :
  sound w ->
  wp (Vault.materializeCertificate master has_ca s) (fun r w' => match r with Ok (fs, _) => map Vault.file_Name fs = ["tls.crt"; "tls.key"; "ca.crt"]%string | Err _ => True end /\ later w w') w.
Proof.
  intros Hw. apply wp_later; [guar_walk idtac | guar_walk idtac | | done]. unfold Vault.materializeCertificate.
  destruct (negb has_ca); [done |]. destruct (Secret.CertID s); [| done].
  do 5 (apply returns_skip; intros [? | ?]; [| done]). done.
Qed.

Definition encoded (fs : list Vault.File) : list (string * string) := map (fun f => (Vault.file_Name f, base64_Encode (Vault.Data f))) fs.

Lemma wp_latest_file s w :
  sound w -> str_is (Secret.Type_ s) SecretTypeCertificate = false ->
  wp (Vault.materializeVersion vault s) (fun r w' => match r with Ok (fs, _) => content s (encoded fs) (w_db w) | Err _ => True end /\ later w w') w.
Proof.
  intros Hw Ht. apply wp_bind. apply wp_row_sound; [done |].
  destruct (head (order_by newest (select SecretVersions _ (w_db w)))) as [v |] eqn:Hv; [| apply wp_Ret; by split; [| apply later_refl]].
  apply head_order_by in Hv as [Hv _]; [| exact VaultFacts.newest_total | exact VaultFacts.newest_trans].
  apply list_elem_of_In, filter_In in Hv as [Hv [Hid%Z.eqb_eq Hdes%negb_true_iff]%andb_true_iff]. apply list_elem_of_In in Hv.
  apply wp_Ret. split; [| by apply later_refl]. destruct (Vault.open_ vault s v) as [pt | e] eqn:Ho; [| done]. unfold content. rewrite Ht.
  exists v, pt. eexists. repeat (split; [done |]). reflexivity.
Qed.

Lemma wp_Materialize s w :
  sound w -> named (Secret.Name s) (w_db w) = Some s ->
  wp (Vault.Materialize vault master has_ca (Secret.Name s)) (fun r w' => match r with
      | Ok (s', fs, _) => s' = s /\ Secret.Disabled s = false /\ content s (encoded fs) (w_db w) | Err _ => True end /\ later w w') w.
Proof.
  intros Hw Hs. apply wp_bind. apply wp_row_sound; [done |]. unfold named in Hs. unfold Vault.normalizeName. rewrite Hs.
  destruct (Secret.Disabled s); [apply wp_Ret; by split; [| apply later_refl] |]. apply wp_bind.
  destruct (str_is (Secret.Type_ s) SecretTypeCertificate) eqn:Ht.
  - eapply wp_mono; [by apply wp_certificate_files |]. intros [[fs v] | e] w' [Hfs Hl]; apply wp_Ret; [| done].
    split; [| done]. repeat (split; [done |]). unfold content. rewrite Ht. unfold encoded. by rewrite map_map.
  - eapply wp_mono; [by apply wp_latest_file |]. intros [[fs v] | e] w' [Hfs Hl]; by apply wp_Ret.
Qed.

(** What a secret's reader gets, from the row and a matching binding. *)
Lemma entitled_intro id name s (l : list SecretBinding.t) fs now b w :
  named name (w_db w) = Some s -> Secret.Disabled s = false ->
  (forall b, b ∈ l -> exists b0, b0 ∈ rows (w_db w SecretBindings) /\ SecretBinding.SecretID b0 = Secret.ID s /\
     forall now ns sa m, Vault.MatchesBinding now b ns sa m = Vault.MatchesBinding now b0 ns sa m) ->
  b ∈ l -> (w_clock w <= now)%Z -> Vault.MatchesBinding now b (Namespace id) (ServiceAccount id) (AuthMethod id) = true ->
  content s fs (w_db w) -> entitled (w_clock w) id name fs (w_db w).
Proof.
  intros Hs Hd Hl Hb Hnow Hm Hc. apply named_Some in Hs as (Hin & Hn & _). destruct (Hl b Hb) as (b0 & Hb0 & Hid & Heq).
  exists s, now. repeat (split; [done |]). split; [| done]. exists b0. repeat (split; [done |]). apply MatchesBinding_matching. by rewrite <- Heq.
Qed.

Definition audited (w w' : world) : Prop := sound w' /\ (w_clock w <= w_clock w')%Z /\ keeps vault_tables (w_db w) (w_db w').

Lemma audited_later w w' : later w w' -> audited w w'.
Proof. intros (Hs & Hd & Hc). split; [done |]. split; [done |]. by rewrite Hd. Qed.
Lemma audited_trans w1 w2 w3 : audited w1 w2 -> audited w2 w3 -> audited w1 w3.
Proof. intros (_ & L1 & K1) (Hs & L2 & K2). split; [done |]. split; [lia |]. by etrans. Qed.

Lemma wp_audit {A} actor action target detail ip (x : A) (Q : A -> world -> Prop) w :
  sound w -> (forall w', audited w w' -> Q x w') -> wp (Vault.AuditWithIP actor action target detail ip ;;; Ret x)%prog Q w.
Proof.
  intros Hw HQ. apply wp_bind. eapply (wp_beside vault_tables); [split; guar_walk ltac:(frame) | done |].
  intros _ w' Hw' Hc Hk. apply wp_Ret, HQ. by split.
Qed.

Lemma wp_fetchOne ip id name w :
  sound w ->
  wp (fetchOneVaultSecret vault master has_ca ip id name) (fun r w' => audited w w' /\ SecretName r = name /\
    (Files r <> [] -> entitled (w_clock w) id name (Files r) (w_db w))) w.
Proof.
  intros Hw. apply wp_bind. apply wp_Get; [done |].
  destruct (named name (w_db w)) as [s |] eqn:Hs; [| apply wp_Ret; by split; [apply audited_later, later_refl |]].
  pose proof (named_Some _ _ _ Hs) as (_ & _ & Hs'). apply wp_bind. apply (wp_Bindings s); [done | done |]. intros l Hl.
  apply wp_bind. eapply wp_mono; [by apply wp_any_binding |]. intros ok w1 [Hl1 Hok]. pose proof Hl1 as (Hw1 & Hd1 & _).
  destruct ok; cbn [negb]; [| apply wp_Ret; by split; [apply audited_later |]]. destruct (Hok eq_refl) as (b & now & Hb & Hnow & Hm).
  apply wp_bind. eapply wp_mono; [apply wp_Materialize; [done | by rewrite Hd1] |]. rewrite Hd1.
  intros [[[s' fs] v] | e] w2 [Hfs Hl2]; [| apply wp_Ret; split; [apply audited_later; by eapply later_trans | done]].
  destruct Hfs as (-> & Hdis & Hc). apply wp_audit; [apply Hl2 |]. intros w3 Hw3. split; [| split; [done |]].
  - eapply audited_trans; [| exact Hw3]. apply audited_later. by eapply later_trans.
  - intros _. by eapply entitled_intro.
Qed.

Lemma audited_refl w : sound w -> audited w w.
Proof. intros Hw. by apply audited_later, later_refl. Qed.

Lemma wp_fetch_each ip id names w :
  sound w ->
  wp (fetch_each vault master has_ca ip id names) (fun rs w' => audited w w' /\
    Forall2 (fun name r => SecretName r = name /\ (Files r <> [] -> entitled (w_clock w) id name (Files r) (w_db w))) names rs) w.
Proof.
  revert w. induction names as [| n names IH]; intros w Hw; cbn [fetch_each]; [apply wp_Ret; by split; [apply audited_refl |] |].
  apply wp_bind. eapply wp_mono; [by apply wp_fetchOne |]. intros r w1 (Ha & Hr). apply wp_bind.
  eapply wp_mono; [apply IH, Ha |]. intros rs w2 (Ha2 & Hrs). apply wp_Ret. split; [by eapply audited_trans |].
  constructor; [done |]. eapply Forall2_impl; [exact Hrs |]. intros name r' (Hn & He). split; [done |]. intros Hf.
  destruct Ha as (_ & Hc & Hk). eapply entitled_keeps; [exact Hk | exact Hc | by apply He].
Qed.

(** What an answer for External Secrets says it hands out. *)
Definition eso_handed (name : string) (a : eso_answer) (P : list (string * string) -> Prop) : Prop :=
  match a with EsoAll _ _ files => P files | EsoOne _ part _ value => exists files, (part, value) ∈ files /\ P files end.

Lemma eso_select_elem key property fs f : eso_select key property fs = Ok f -> (Vault.file_Name f, base64_Encode (Vault.Data f)) ∈ encoded fs.
Proof.
  intros Hf. unfold encoded. change (f) with (id f). apply (list_elem_of_fmap_2 (fun f => (Vault.file_Name f, base64_Encode (Vault.Data f)))).
  unfold id. unfold eso_select in Hf. destruct (nonempty property).
  - destruct (List.find _ fs) as [f' |] eqn:E; [| done]. injection Hf as <-. by apply find_some in E as [?%list_elem_of_In _].
  - destruct fs as [| f' [| ]]; try done. injection Hf as <-. by left.
Qed.

Lemma wp_eso ip key property all id w :
  sound w ->
  wp (apiESOFetchSecret vault master has_ca ip key property all id) (fun a w' =>
    forall x, a = Answer x -> eso_handed key x (fun files => entitled (w_clock w) id key files (w_db w))) w.
Proof.
  intros Hw. unfold apiESOFetchSecret. destruct (str_is key ""); [by apply wp_Ret |]. apply wp_bind. apply wp_Get; [done |].
  destruct (named key (w_db w)) as [s |] eqn:Hs; [| by apply wp_Ret].
  pose proof (named_Some _ _ _ Hs) as (_ & _ & Hs'). apply wp_bind. apply (wp_Bindings s); [done | done |]. intros l Hl.
  apply wp_bind. eapply wp_mono; [by apply wp_any_binding |]. intros ok w1 [Hl1 Hok]. pose proof Hl1 as (Hw1 & Hd1 & _).
  destruct ok; cbn [negb]; [| by apply wp_Ret]. destruct (Hok eq_refl) as (b & now & Hb & Hnow & Hm).
  apply wp_bind. eapply wp_mono; [apply wp_Materialize; [done | by rewrite Hd1] |]. rewrite Hd1.
  intros [[[s' fs] v] | e] w2 [Hfs Hl2]; [| by apply wp_Ret]. destruct Hfs as (-> & Hdis & Hc).
  assert (entitled (w_clock w) id key (encoded fs) (w_db w)) as He by (by eapply entitled_intro).
  destruct all; [apply wp_audit; [apply Hl2 |]; by intros w3 _ x [= <-] |].
  destruct (eso_select key property fs) as [f | m] eqn:Hf; [| by apply wp_Ret].
  apply wp_audit; [apply Hl2 |]. intros w3 _ x [= <-]. exists (encoded fs). split; [by eapply eso_select_elem | done].
Qed.

(** *** Behind the trust domain *)

Context (c : CSIConfig).
Hypothesis sha_inj : forall s t, Pki.sha256 s = Pki.sha256 t -> s = t.
(** Asking an issuer or a cluster does not write to the vault. *)
Hypothesis quiet_discover : forall i skip, beside vault_tables (oidc_discover i skip).
Hypothesis quiet_verify : forall i a t, beside vault_tables (oidc_Verify i a t).
Hypothesis quiet_review : forall cf t, beside vault_tables (token_review cf t).

Definition accepted_by (v : Verifier) (authz : string) (id : Identity) : Prop :=
  exists w, fst (fst (run (Verify v (Str.TrimSpace (drop_s 7 authz))) w)) = Ok id.

(** The verifier a domain has now. *)
Definition in_charge (name : string) (v : Verifier) (d : db) : Prop :=
  match domain_row name d with Some m => configured master m = Some (cfg v) | None => is_legacy master c name v end.

Lemma beside_bind ts {A B} (p : prog world A) (q : A -> prog world B) :
  beside ts p -> (forall a, beside ts (q a)) -> beside ts (p' <- p ;; q p')%prog.
Proof. intros [K1 S1] Hq. split; (apply guar_bind; [done | intros a; apply Hq]). Qed.

Lemma beside_Verify v token : beside vault_tables (Verify v token).
Proof.
  unfold Verify. destruct (str_is _ ""); [by split |]. apply beside_bind.
  { unfold ready. destruct (str_is _ ""); [by split |]. destruct (discovered v); [by split |]. apply beside_bind; [apply quiet_discover |].
    by intros [x | e]. }
  intros [e v']. apply beside_bind; [| by split]. destruct e as [e |].
  - destruct (tokenReviewConfigured (cfg v')); [| by split]. apply beside_bind; [apply quiet_review |]. by intros [r | r].
  - apply beside_bind; [apply quiet_verify |]. by intros [r | r].
Qed.

(** A handler behind the trust domains runs for an identity that the domain's
    current verifier accepted. *)
Lemma wp_apiAuthK8s {A} header authz (h : Identity -> prog world (answer A)) reg (Q : A -> Prop) w :
  sound w -> clean (w_db w) -> cache master c reg ->
  (forall v id w1, in_charge (domain_name header) v (w_db w) -> accepted_by v authz id -> audited w w1 ->
     wp (h (with_method (domain_name header) id)) (fun a _ => forall x, a = Answer x -> Q x) w1) ->
  wp (apiAuthK8s master header authz h reg) (fun p _ => forall x, fst p = Answer x -> Q x) w.
Proof.
  intros Hw Hd Hr Hh. apply wp_bind.
  assert (wp (verifierFor master (domain_name header) reg) (fun p w' => audited w w' /\ forall v, fst p = Ok (Some v) -> in_charge (domain_name header) v (w_db w)) w) as Hv.
  { apply wp_and.
    - eapply (wp_beside vault_tables); [split; guar_walk ltac:(frame) | done |]. intros p w' Hw' Hc Hk. by split.
    - unfold wp. destruct (run (verifierFor master (domain_name header) reg) w) as [[o reg'] w'] eqn:Hrun. cbn [fst snd]. intros v ->.
      pose proof (verifierFor_current master c sha_inj (domain_name header) reg w _ _ _ Hr Hd Hrun) as Hcur. unfold in_charge.
      destruct (domain_row (domain_name header) (w_db w)); [by symmetry | done]. }
  eapply wp_mono; [exact Hv |]. intros [o reg'] w1 [Ha Hi]. cbn [fst] in Hi.
  destruct o as [[v |] | e]; [| by apply wp_Ret | by apply wp_Ret]. destruct (negb _); [by apply wp_Ret |]. apply wp_bind.
  assert (wp (Verify v (Str.TrimSpace (drop_s 7 authz))) (fun p w' => audited w1 w' /\ forall id, fst p = Ok id -> accepted_by v authz id) w1) as Hver.
  { apply wp_and.
    - eapply (wp_beside vault_tables); [apply beside_Verify | apply Ha |]. intros p w' Hw' Hc Hk. by split.
    - unfold wp. intros id Hid. by exists w1. }
  eapply wp_mono; [exact Hver |]. intros [id v'] w2 [Ha2 Hacc]. cbn [fst] in Hacc. destruct id as [id | e]; [| by apply wp_Ret].
  apply wp_bind. eapply wp_mono; [apply (Hh v id w2); [by apply Hi | by apply Hacc | by eapply audited_trans] |].
  intros a w3 HQ. by apply wp_Ret.
Qed.

(** The identity a request acts as: what the named domain's current verifier
    made of its token, under that domain's name. *)
Definition identified (header authz : string) (id : Identity) (d : db) : Prop :=
  exists v id0, in_charge (domain_name header) v d /\ accepted_by v authz id0 /\ id = with_method (domain_name header) id0.

Lemma wp_vault_fetch header authz ip names reg w :
  sound w -> clean (w_db w) -> cache master c reg ->
  wp (apiAuthK8s master header authz (apiVaultFetch vault master has_ca ip names) reg)
    (fun p _ => forall rs, fst p = Answer rs -> exists id, identified header authz id (w_db w) /\
       Forall2 (fun name r => SecretName r = name /\ (Files r <> [] -> entitled (w_clock w) id name (Files r) (w_db w))) names rs) w.
Proof.
  intros Hw Hd Hr. apply wp_apiAuthK8s; [done .. |].
  intros v id w1 Hi Ha (Hw1 & Hc1 & Hk1). unfold apiVaultFetch. destruct names as [| n names]; [by apply wp_Ret |].
  apply wp_bind. eapply wp_mono; [by apply wp_fetch_each |]. intros rs' w2 (_ & Hrs). apply wp_Ret. intros x [= <-].
  eexists. split; [by exists v, id |]. eapply Forall2_impl; [exact Hrs |]. intros name r [Hn He]. split; [done |]. intros Hf.
  eapply entitled_keeps; [exact Hk1 | exact Hc1 | by apply He].
Qed.

End entitled.

(** ** A domain in use *)

Definition corp (issuer : string) : MethodInput := mkMethod "corp" "" issuer "" "" "" false false.
Definition no_csi : CSIConfig := mkCSI false (mkConfig "" "" false "" "" "").

(** A secret bound to one service account of one domain. *)
Definition prepared : prog world unit :=
  (apiCsiAuthMethodCreate Sample.master (corp "https://up1") "ada" ∅ ;;;
   Vault.Create false (Vault.mkCreate "db" "" "" ∅ 0 None "ada") ;;;
   Vault.Put sample_vault "db" "hunter2" "password" "ada" ;;;
   Vault.Bind "db" "prod" "web-*" "corp" None "ada" ;;;
   Ret tt)%prog.
Definition before : world := snd (run prepared VaultFacts.nowhere).
Definition stale : Registry := match fst (run (buildK8sRegistry Sample.master no_csi) before) with Ok r => r | Err _ => ∅ end.

(** Another replica then moves the domain to another issuer. *)
Definition after : world := snd (run (apiCsiAuthMethodUpdate Sample.master 1 (corp "https://up2") ∅) before).

Lemma before_rows : rows (w_db before K8sAuthMethods) = [K8sAuthMethod.mk 1 "corp" "goca-csi" "https://up1" "" "" "" false false "ada" 1000 1000].
Proof. vm_compute. reflexivity. Qed.
Lemma after_rows : rows (w_db after K8sAuthMethods) = [K8sAuthMethod.mk 1 "corp" "goca-csi" "https://up2" "" "" "" false false "ada" 1000 1000].
Proof. vm_compute. reflexivity. Qed.
Lemma before_clean : clean (w_db before).
Proof. intros m. rewrite before_rows. intros ->%list_elem_of_singleton. vm_compute. repeat constructor; discriminate. Qed.
Lemma after_clean : clean (w_db after).
Proof. intros m. rewrite after_rows. intros ->%list_elem_of_singleton. vm_compute. repeat constructor; discriminate. Qed.
Lemma stale_cache : cache Sample.master no_csi stale.
Proof.
  destruct (run (buildK8sRegistry Sample.master no_csi) before) as [r w'] eqn:E.
  assert (exists reg, r = Ok reg) as [reg ->].
  { assert (match fst (run (buildK8sRegistry Sample.master no_csi) before) with Ok _ => true | Err _ => false end = true) as Hok by (vm_compute; reflexivity).
    rewrite E in Hok. destruct r; [by eexists | done]. }
  unfold stale. rewrite E. exact (Started _ _ _ _ _ before_clean E).
Qed.

Definition moved : Config := mkConfig "https://up2" "goca-csi" false "" "" "".

Lemma verifierFor_is_current_witness :
  option_map cfg (Get "corp" stale) <> Some moved /\
  exists o reg' w', run (verifierFor Sample.master "corp" stale) after = (Ok o, reg', w') /\ option_map cfg o = Some moved /\
    match domain_row "corp" (w_db after) with
    | Some m => option_map cfg o = configured Sample.master m
    | None => match o with None => True | Some v => is_legacy Sample.master no_csi "corp" v end
    end.
Proof.
  split; [vm_compute; discriminate |].
  assert (fst (fst (run (verifierFor Sample.master "corp" stale) after)) = Ok (Some (mkVerifier moved false))) as Ho by (vm_compute; reflexivity).
  destruct (run (verifierFor Sample.master "corp" stale) after) as [[o reg'] w'] eqn:E. cbn [fst] in Ho. subst o.
  exists (Some (mkVerifier moved false)), reg', w'. split; [reflexivity |]. split; [reflexivity |].
  exact (verifierFor_is_current Sample.master no_csi (fun s t e => e) "corp" stale after _ reg' w' stale_cache after_clean E).
Defined.

Lemma incomplete_domain_stops_the_server_witness :
  exists row reg' w', run (apiCsiAuthMethodCreate Sample.master (corp "") "ada" ∅) VaultFacts.nowhere = (Answer row, reg', w') /\
  exists m, m ∈ rows (w_db w' K8sAuthMethods) /\
    forall w2, sound w2 -> m ∈ rows (w_db w2 K8sAuthMethods) -> exists e, fst (run (start_csi Sample.master no_csi) w2) = Err e.
Proof.
  assert (match fst (fst (run (apiCsiAuthMethodCreate Sample.master (corp "") "ada" ∅) VaultFacts.nowhere)) with Answer _ => true | Status _ _ => false end = true) as Hok
    by (vm_compute; reflexivity).
  destruct (run (apiCsiAuthMethodCreate Sample.master (corp "") "ada" ∅) VaultFacts.nowhere) as [[a reg'] w'] eqn:E. cbn [fst] in Hok.
  destruct a as [code msg | row]; [discriminate |]. exists row, reg', w'. split; [reflexivity |].
  refine (incomplete_domain_stops_the_server Sample.master no_csi (corp "") "ada" ∅ row reg' VaultFacts.nowhere w' _ E eq_refl eq_refl eq_refl).
  split; [reflexivity | vm_compute; reflexivity].
Defined.

Definition token : string := "Bearer https://up2|goca-csi|prod|web-1".

End K8sFacts.
