(* ===== verification/SecretFacts.v ===== *)
(** * The secret manager's pages: labels, and disclosure on record
    (over Secrets) *)

From S2P Require Import Prelude GoStrings Utf8Facts Effects Models Schema SqlFacts TableFacts Store Pki Sealing CaService CaLifecycle CaImport SecretStore Vault CaTools Downloads AcmePolicy AcmeProtocol Auth Gate Directory Api Pages Secrets Sample VaultFacts K8sFacts AuthFacts.

Module SecretFacts.
Import Http.

(** ** Maps as lists of their entries *)

Definition insert_all (l : list (string * string)) (m : gmap string string) : gmap string string :=
  fold_left (fun m kv => <[fst kv := snd kv]> m) l m.

Lemma insert_all_entries l m : l ≡ₚ map_to_list m -> insert_all l ∅ = m.
Proof.
  intros Hl. unfold insert_all. rewrite <- (fold_left_rev_right (fun kv m => <[fst kv := snd kv]> m)).
  change (list_to_map (rev l) = m). rewrite <- (list_to_map_to_list m). apply list_to_map_proper.
  - rewrite map_rev, <- Permutation_rev, Hl. apply NoDup_fst_map_to_list.
  - by rewrite <- Permutation_rev.
Qed.

(** ** The stored form *)


Lemma read_char c s : Labels.read_string (Store.json_char c +:+ s)%go = Labels.before (String c "") (Labels.read_string s).
Proof. destruct c as [[] [] [] [] [] [] [] []]; reflexivity. Qed.

Lemma read_high a s : (128 <= Str.code a) -> Labels.read_string (String a s) = Labels.before (String a "") (Labels.read_string s).
Proof. intros Ha. destruct a as [[] [] [] [] [] [] [] []]; try reflexivity; exfalso; revert Ha; unfold Str.code; cbv; lia. Qed.

Lemma before_app p q r : Labels.before p (Labels.before q r) = Labels.before (p +:+ q)%go r.
Proof. destruct r as [[v rest] |]; [| done]. simpl. by rewrite append_assoc. Qed.

Lemma json_rune_long p : Utf8.sequence p -> 2 <= String.length p ->
  Store.json_rune (Some p) = p \/ (exists e, p = String "226" (String "128" (String e EmptyString)) /\
    Store.json_rune (Some p) = String "\" (String "u" (String "2" (String "0" (String "2" (String (ascii_of_nat (Str.code e - 112)) EmptyString))))) /\
    (e = "168" \/ e = "169")%char).
Proof.
  intros _ Hlen. destruct p as [| a [| b s]]; [simpl in Hlen; lia.. |]. cbn [Store.json_rune].
  destruct (str_is _ (String "226" (String "128" (String "168" EmptyString)))) eqn:E8; [apply str_is_eq in E8; right; exists "168"%char; rewrite E8; auto |].
  destruct (str_is _ (String "226" (String "128" (String "169" EmptyString)))) eqn:E9; [apply str_is_eq in E9; right; exists "169"%char; rewrite E9; auto |].
  by left.
Qed.

Lemma read_rune r s :
  match r with Some p => Utf8.sequence p | None => True end ->
  Labels.read_string (Store.json_rune r +:+ s)%go = Labels.before (default Str.replacement r) (Labels.read_string s).
Proof.
  destruct r as [p |]; [| reflexivity]. intros Hp. destruct (decide (2 <= String.length p)) as [Hlen |].
  - destruct (json_rune_long p Hp Hlen) as [-> | (e & -> & -> & [-> | ->])]; [| reflexivity..].
    destruct Hp as [a Ha | a b Ha | a b c Ha | a b c d Ha]; [simpl in Hlen; lia | ..]; cbn [String.append default];
      repeat rewrite read_high by (Utf8.bytes; lia); by rewrite !before_app.
  - destruct Hp as [a Ha | a b Ha | a b c Ha | a b c d Ha]; [apply read_char | simpl in *; lia..].
Qed.

Lemma read_body s rest : Labels.read_string (Store.json_body s +:+ String Str.dquote rest)%go = Some (Str.coerce s, rest).
Proof.
  unfold Store.json_body, Str.coerce. pose proof (Utf8.runes_sequences s) as Hs. induction Hs as [| r l Hr _ IH]; [done |].
  cbn [map Str.concat_all]. by rewrite append_assoc, read_rune, IH.
Qed.

Lemma literal_body s rest : Labels.literal (Store.json_body s +:+ String Str.dquote rest)%go = Some (Str.coerce s, rest).
Proof. unfold Labels.literal. rewrite read_body. by rewrite (Utf8.coerce_valid _ (Utf8.valid_coerce s)). Qed.

Definition member (kv : string * string) : string := (Store.json_string (fst kv) +:+ ":" +:+ Store.json_string (snd kv))%go.
Definition members (l : list (string * string)) : string := Str.Join (map member l) ",".

Lemma json_string_app s rest :
  (Store.json_string s +:+ rest = String Str.dquote (Store.json_body s +:+ String Str.dquote rest))%go.
Proof. unfold Store.json_string. simpl. f_equal. by rewrite append_assoc. Qed.

Definition coerced (kv : string * string) : string * string := (Str.coerce (fst kv), Str.coerce (snd kv)).

Lemma read_member k v rest fuel m :
  Labels.read_members (S fuel) (member (k, v) +:+ rest)%go m =
  match Labels.skip_space rest with
  | String "," s => Labels.read_members fuel s (<[Str.coerce k := Str.coerce v]> m)
  | String "}" s => Some (<[Str.coerce k := Str.coerce v]> m, s)
  | _ => None
  end.
Proof.
  unfold member. cbn [fst snd]. rewrite append_assoc, json_string_app. cbn [Labels.read_members].
  change (Labels.expect Str.dquote (String Str.dquote ?x)) with (Some x). cbn [mbind option_bind].
  rewrite literal_body. cbn [mbind option_bind fst snd]. rewrite append_assoc.
  change (Labels.expect ":" (":" +:+ ?x)%go) with (Some x). cbn [mbind option_bind].
  rewrite json_string_app. change (Labels.skip_space (String Str.dquote ?x)) with (String Str.dquote x).
  cbn [Labels.read_value]. rewrite Ascii.eqb_refl, literal_body. reflexivity.
Qed.

Lemma read_all l : forall fuel m rest, l <> [] -> length l <= fuel ->
  Labels.read_members fuel (members l +:+ String "}" rest)%go m = Some (insert_all (map coerced l) m, rest).
Proof.
  induction l as [| [k v] l IH]; intros fuel m rest Hne Hf; [done |]. destruct fuel as [| fuel]; [simpl in Hf; lia |].
  destruct l as [| kv' l].
  - change (members [(k, v)]) with (member (k, v)). by rewrite read_member.
  - change (members ((k, v) :: kv' :: l)) with (member (k, v) +:+ "," +:+ members (kv' :: l))%go.
    rewrite !append_assoc, read_member. change (Labels.skip_space ("," +:+ ?x)%go) with (String "," x). cbn beta iota.
    rewrite IH; [done | done | simpl in *; lia].
Qed.

Lemma members_length l : length l <= String.length (members l).
Proof.
  unfold members. induction l as [| kv l IH]; [simpl; lia |]. destruct l as [| kv' l]; [simpl; lia |].
  change (Str.Join (map member (kv :: kv' :: l)) ",") with (member kv +:+ "," +:+ Str.Join (map member (kv' :: l)) ",")%go.
  rewrite !length_append. simpl in *. lia.
Qed.

Lemma Unmarshal_members l : l <> [] -> Labels.Unmarshal ("{" +:+ members l +:+ "}")%go = Some (insert_all (map coerced l) ∅).
Proof.
  intros Hne. unfold Labels.Unmarshal. change (Labels.skip_space ("{" +:+ ?x)%go) with (String "{" x). cbn beta iota.
  assert (Labels.expect "}" (members l +:+ "}")%go = None) as -> by (destruct l as [| [k v] [| kv l]]; done).
  rewrite read_all; [reflexivity | done |]. rewrite length_append. pose proof (members_length l). lia.
Qed.

Lemma coerced_text l : Forall Utf8.text l -> map coerced l = l.
Proof.
  induction 1 as [| [k v] l [Hk Hv] _ IH]; [done |]. simpl. unfold coerced at 1. cbn [fst snd] in *.
  by rewrite IH, !Utf8.coerce_valid.
Qed.

Lemma literal_text s v rest : Labels.literal s = Some (v, rest) -> Str.ValidString v = true.
Proof. unfold Labels.literal. destruct (Labels.read_string s) as [[x r] |]; [| done]. intros [= <- _]. apply Utf8.valid_coerce. Qed.

Lemma value_text s v rest : Labels.read_value s = Some (v, rest) -> Str.ValidString v = true.
Proof.
  unfold Labels.read_value. destruct s as [| c s]; [done |]. destruct (Ascii.eqb c _); [apply literal_text |].
  destruct (Str.CutPrefix _ _) as [r []]; [by intros [= <- _] | done].
Qed.

Lemma members_text fuel : forall s m m' rest, Utf8.text_map m -> Labels.read_members fuel s m = Some (m', rest) -> Utf8.text_map m'.
Proof.
  induction fuel as [| fuel IH]; intros s m m' rest Hm; [done |]. cbn [Labels.read_members].
  destruct (Labels.expect _ s) as [s1 |]; [| done]. cbn [mbind option_bind].
  destruct (Labels.literal s1) as [[k s2] |] eqn:Hk; [| done]. cbn [mbind option_bind fst snd].
  destruct (Labels.expect _ s2) as [s3 |]; [| done]. cbn [mbind option_bind].
  destruct (Labels.read_value _) as [[v s4] |] eqn:Hv; [| done]. cbn [mbind option_bind fst snd].
  assert (Utf8.text_map (<[k := v]> m)) as Hm' by (apply Utf8.text_insert; [split; [by eapply literal_text | by eapply value_text] | done]).
  destruct (Labels.skip_space s4) as [| [[] [] [] [] [] [] [] []] s5]; try done; intros Hs.
  all: first [by injection Hs as <- _ | by eapply IH].
Qed.

(** Labels are UTF-8 however they were stored. *)
Lemma Labels_text s : Utf8.text_map (Labels.Labels s).
Proof.
  unfold Labels.Labels. destruct (String.eqb _ ""); [apply Utf8.text_empty |].
  destruct (Labels.Unmarshal _) as [m |] eqn:E; [| apply Utf8.text_empty]. cbn [default]. revert E. unfold Labels.Unmarshal.
  set (r := match Labels.skip_space _ with String "{" s' => _ | _ => _ end). intros E.
  assert (forall m' rest, r = Some (m', rest) -> Utf8.text_map m') as Hr.
  { intros m' rest. unfold r. destruct (Labels.skip_space _) as [| c s']; [destruct (Str.CutPrefix _ _) as [? []]; [intros [= <- _]; apply Utf8.text_empty | done] |].
    assert (forall o : option (gmap string string * string), o = Some (m', rest) ->
      o = match Str.CutPrefix (String c s') "null" with (rest, true) => Some (∅, rest) | _ => None end -> Utf8.text_map m') as Hnull.
    { intros o -> Ho. destruct (Str.CutPrefix _ _) as [? []]; [| done]. injection Ho as -> _. apply Utf8.text_empty. }
    destruct c as [[] [] [] [] [] [] [] []]; try (intros Hs; by eapply Hnull).
    destruct (Labels.expect _ s'); [intros [= <- _]; apply Utf8.text_empty | apply members_text, Utf8.text_empty]. }
  destruct r as [[m' rest] |]; [| done]. cbn [mbind option_bind fst snd] in E. destruct (String.eqb _ _); [| done].
  injection E as <-. by eapply Hr.
Qed.

(** What is stored reads back. *)
Lemma labels_roundtrip m s : Utf8.text_map m -> Secret.LabelsJSON s = Vault.EncodeLabels m -> Labels.Labels s = m.
Proof.
  intros Ht Hs. unfold Labels.Labels. rewrite Hs. unfold Vault.EncodeLabels. case_bool_decide as Hm; [by subst |].
  set (l := order_by _ _). assert (l ≡ₚ map_to_list m) as Hl by apply order_by_perm.
  assert (l <> []) as Hne. { intros E. rewrite E in Hl. apply Permutation_nil in Hl. by apply map_to_list_empty_iff in Hl. }
  assert (map (fun '(k, v) => (Store.json_string k +:+ ":" +:+ Store.json_string v)%go) l = map member l) as ->
    by (apply map_ext; by intros [k v]).
  change (Str.Join (map member l) ",") with (members l).
  rewrite (Unmarshal_members l Hne), (coerced_text l), (insert_all_entries l m Hl) by (unfold Utf8.text_map in Ht; by rewrite Hl).
  replace (String.eqb _ "") with false; [done |]. symmetry. apply String.eqb_neq.
  unfold Str.TrimSpace, Str.trim_func. change (Str.trim_left Str.is_space ("{" +:+ ?x)%go) with (String "{" x).
  destruct (trim_right_head Str.is_space "{" (members l +:+ "}")%go eq_refl) as [t' ->]. done.
Qed.

(** ** The edited form *)

Definition tight (s : string) : Prop := Str.TrimSpace s = s.

Lemma trim_left_length p s : String.length (Str.trim_left p s) <= String.length s.
Proof. induction s as [| c s IH]; [done |]. simpl. destruct (p c); simpl; lia. Qed.
Lemma trim_right_length p s : String.length (Str.trim_right p s) <= String.length s.
Proof. induction s as [| c s IH]; [done |]. simpl. destruct (Str.trim_right p s); [destruct (p c) |]; simpl in *; lia. Qed.

Lemma tight_head c s : tight (String c s) -> Str.is_space c = false.
Proof.
  unfold tight, Str.TrimSpace, Str.trim_func. simpl. intros Ht. destruct (Str.is_space c); [| done].
  apply (f_equal String.length) in Ht. pose proof (trim_right_length Str.is_space (Str.trim_left Str.is_space s)).
  pose proof (trim_left_length Str.is_space s). simpl in Ht. lia.
Qed.

Lemma tight_right s : tight s -> Str.trim_right Str.is_space s = s.
Proof.
  destruct s as [| c s]; [done |]. intros Ht. pose proof (tight_head _ _ Ht) as Hc.
  unfold tight, Str.TrimSpace, Str.trim_func in Ht. cbn [Str.trim_left] in Ht. by rewrite Hc in Ht.
Qed.

Lemma trim_right_keep p a b : Str.trim_right p b <> "" -> Str.trim_right p (a +:+ b)%go = (a +:+ Str.trim_right p b)%go.
Proof.
  intros Hb. induction a as [| c a IH]; [done |]. simpl. rewrite IH.
  destruct a as [| d a]; [simpl; by destruct (Str.trim_right p b) | done].
Qed.

Lemma tight_between a x b : a <> "" -> tight a -> b <> "" -> tight b -> tight (a +:+ x +:+ b)%go.
Proof.
  intros Ha Hta Hb Htb. destruct a as [| c a]; [done |]. pose proof (tight_head _ _ Hta) as Hc.
  unfold tight, Str.TrimSpace, Str.trim_func. change ((String c a +:+ x +:+ b)%go) with (String c (a +:+ x +:+ b)%go).
  cbn [Str.trim_left]. rewrite Hc. change (String c (a +:+ x +:+ b)%go) with ((String c a +:+ x +:+ b)%go).
  assert (Str.trim_right Str.is_space (x +:+ b)%go = (x +:+ b)%go) as Hx by (by rewrite trim_right_keep; rewrite tight_right).
  rewrite trim_right_keep; rewrite Hx; [done |]. by destruct x, b.
Qed.

(** Labels the form can tell apart. *)
(** White space beyond ASCII, which strings.TrimSpace also takes away (the
    model's takes the ASCII spaces): U+0085, U+00A0, U+1680, U+2000 to U+200A,
    U+2028, U+2029, U+202F, U+205F, U+3000. *)
Definition of_bytes (l : list nat) : string := Str.concat_all (map (fun n => String (ascii_of_nat n) EmptyString) l).
Definition wide_spaces : list string :=
  map of_bytes ([[194; 133]; [194; 160]; [225; 154; 128]] ++ map (fun n => [226; 128; n]) ([168; 169; 175] ++ List.seq 128 11)
    ++ [[226; 129; 159]; [227; 128; 128]]).
Definition no_wide (s : string) : bool := forallb (fun p => negb (Str.HasPrefix s p) && negb (Str.HasSuffix s p)) wide_spaces.

(** Labels the form can tell apart. *)
Record clean (kv : string * string) : Prop := {
  clean_key : fst kv <> ""; clean_key_tight : tight (fst kv); clean_value_tight : tight (snd kv);
  clean_key_wide : no_wide (fst kv) = true; clean_value_wide : no_wide (snd kv) = true;
  clean_text : Utf8.text kv;
  clean_key_comma : no_char "," (fst kv) = true; clean_value_comma : no_char "," (snd kv) = true;
  clean_key_equals : no_char "=" (fst kv) = true }.

Definition pair (kv : string * string) : string := (fst kv +:+ "=" +:+ snd kv)%go.

Lemma pair_tight kv : clean kv -> tight (pair kv).
Proof.
  intros [Hk Htk Htv _ _ _ _ _ _]. unfold pair. destruct (snd kv) as [| c v] eqn:E.
  - by apply (tight_between (fst kv) "" "=").
  - apply tight_between; done.
Qed.
Lemma pair_nonempty kv : pair kv <> "".
Proof. unfold pair. by destruct (fst kv). Qed.
Lemma pair_comma kv : clean kv -> no_char "," (pair kv) = true.
Proof. intros [_ _ _ _ _ _ Hk Hv _]. unfold pair. by rewrite !no_char_app, Hk, Hv. Qed.

Lemma cut_at c k v : no_char c k = true -> Labels.cut c (k +:+ String c v)%go = Some (k, v).
Proof.
  induction k as [| d k IH]; intros Hk; simpl in *; [by rewrite Ascii.eqb_refl |].
  apply andb_true_iff in Hk as [Hd Hk]. apply negb_true_iff in Hd. by rewrite Hd, IH.
Qed.

Lemma add_pair_clean m kv : clean kv -> Labels.add_pair m (pair kv) = <[fst kv := snd kv]> m.
Proof.
  intros Hkv. unfold Labels.add_pair. rewrite (pair_tight kv Hkv). destruct Hkv as [Hk Htk Htv _ _ _ _ _ Heq].
  unfold pair. change ("=" +:+ snd kv)%go with (String "=" (snd kv)). rewrite cut_at by done.
  red in Htk, Htv. rewrite !Htk, Htv. by rewrite (proj2 (String.eqb_neq _ _) Hk).
Qed.
Lemma add_pair_space m p : Labels.add_pair m (String " " p) = Labels.add_pair m p.
Proof. done. Qed.

Lemma Join_spaced p l : Str.Join (p :: l) ", " = Str.Join (p :: map (String " ") l) ",".
Proof.
  revert p. induction l as [| q l IH]; intros p; [done |].
  change (Str.Join (p :: q :: l) ", ") with (p +:+ ", " +:+ Str.Join (q :: l) ", ")%go. rewrite IH. by destruct l.
Qed.

Lemma Join_tight l : l <> [] -> Forall clean l -> tight (Str.Join (map pair l) ", ") /\ Str.Join (map pair l) ", " <> "".
Proof.
  intros Hne Hl. induction Hl as [| kv l Hkv Hl IH]; [done |]. destruct l as [| kv' l].
  - split; [by apply pair_tight | apply pair_nonempty].
  - destruct IH as [Ht He]; [done |]. change (map pair (kv :: kv' :: l)) with (pair kv :: map pair (kv' :: l)).
    change (Str.Join (pair kv :: map pair (kv' :: l)) ", ") with (pair kv +:+ ", " +:+ Str.Join (map pair (kv' :: l)) ", ")%go.
    split; [apply tight_between; [apply pair_nonempty | by apply pair_tight | done | done] |].
    pose proof (pair_nonempty kv). by destruct (pair kv).
Qed.

Lemma form_reads_back l : Forall clean l -> Labels.parseLabelsForm (Labels.labelsToForm l) = insert_all l ∅.
Proof.
  intros Hl. unfold Labels.labelsToForm. change (map _ l) with (map pair l). destruct l as [| kv l]; [done |].
  destruct (Join_tight (kv :: l) ltac:(done) Hl) as [Ht He]. unfold Labels.parseLabelsForm. red in Ht. rewrite !Ht.
  rewrite (proj2 (String.eqb_neq _ _) He). cbn [map]. rewrite Join_spaced, Split_Join; [| done |].
  - inversion Hl as [| ? ? Hkv Hrest]; subst. cbn [fold_left]. rewrite add_pair_clean by done.
    change (insert_all (kv :: l) ∅) with (insert_all l (<[fst kv := snd kv]> ∅)). clear He Ht Hl Hkv. revert Hrest.
    generalize (<[fst kv := snd kv]> (∅ : gmap string string)). induction l as [| kv' l IH]; intros m Hrest; [done |].
    inversion Hrest; subst. cbn [map fold_left]. rewrite add_pair_space, add_pair_clean by done. by apply IH.
  - inversion Hl as [| ? ? Hkv Hrest]; subst. apply List.Forall_cons; [by apply pair_comma |].
    rewrite map_map. apply Forall_map. eapply Forall_impl; [exact Hrest |]. intros kv' Hkv'. change (no_char "," (pair kv') = true). by apply pair_comma.
Qed.

(** ** What a request discloses, and the record of it *)

(** A request to the REST API or to the portal. *)
Inductive request :=
| Rest (rt : SecretsApi.route)
| Portal (rt : SecretsPages.route) (f : Pages.Form) (file : string).

(** The contents an answer discloses. *)
Definition disclosed (a : reply) : list string :=
  match a with
  | Json _ (JMaterialized _ _ files) => map snd files
  | Json _ (JVersionValue _ _ v) => [v]
  | File _ _ data => [data]
  | _ => []
  end.

Section disclosure.
Context `{Std : Pki.Std} `{Ciphers} `{Auth.Passwords} `{RowOrder}.
Context (vault : Pqcrypt.Vault) (master : string) (has_ca csi_enabled : bool).
Context (ranged : gmap string string -> list (string * string)).

Definition serve (q : request) (g : Gate.Request) (ip id : string) : prog world reply :=
  match q with
  | Rest rt => SecretsApi.serve vault master has_ca rt g ip id
  | Portal rt f file => SecretsPages.serve vault master has_ca csi_enabled ranged rt f g ip id file
  end.
Definition handler (q : request) : Api.Call -> Api.API reply :=
  match q with
  | Rest rt => SecretsApi.handler vault master has_ca rt
  | Portal rt f _ => SecretsPages.handler vault master has_ca csi_enabled ranged rt f
  end.

(** Nothing disclosed, or a record added for the caller, and nothing else. *)
Definition on_record (r : Api.Call) (d : db) (a : reply) (d' : db) : Prop :=
  disclosed a <> [] ->
  keeps [Users; Sessions; ApiTokens; Secrets; SecretVersions; SecretBindings; Certificates; Cas] d d' /\
  exists e, rows (d' AuditLog) = rows (d AuditLog) ++ [e] /\ AuditEntry.Actor e = Api.caller r /\ AuditEntry.IP e = Api.client_ip r /\
    AuditEntry.Action e ∈ ["secret.materialize"; "secret.version_read"; "secret.download"]%string /\
    exists sec, sec ∈ rows (d Secrets) /\ Secret.Name sec = AuditEntry.Target e.

Definition plain (a : reply) : Prop := disclosed a = [].

(** Handlers that disclose nothing. *)
Definition discreet {A} (P : A -> Prop) (h : Api.API A) : Prop :=
  returns (fun _ => True) (fun r => match r with Ok a => P a | Err a => plain a end) h.

Lemma discreet_or_fail {A} f (p : M A) : (forall e, plain (f e)) -> discreet (fun _ => True) (Api.or_fail f p).
Proof. intros Hf. unfold Api.or_fail. apply returns_skip. intros [a | e]; simpl; [done | apply Hf]. Qed.
Lemma discreet_bind {A B} (p : Api.API A) (k : A -> Api.API B) P :
  discreet (fun _ => True) p -> (forall a, discreet P (k a)) -> discreet P (x <-! p ;; k x)%prog.
Proof. intros Hp Hk. eapply returns_bind; [exact Hp |]. intros [a | a]; [intros _; apply Hk | done]. Qed.
Lemma discreet_skip {A B} (p : prog world A) (k : A -> Api.API B) P : (forall a, discreet P (k a)) -> discreet P (bind p k).
Proof. apply returns_skip. Qed.
Lemma discreet_Ret {A} P (r : result reply A) : match r with Ok a => P a | Err a => plain a end -> discreet P (Ret r).
Proof. done. Qed.
Lemma plain_api_failure e : plain (api_failure e).
Proof. unfold api_failure. by destruct (is_not_found e). Qed.
Lemma plain_missing t d e : plain (Pages.missing t d e).
Proof. unfold Pages.missing. by destruct (is_not_found e). Qed.

(** Unfolds what is matched on before it is taken apart. *)
Ltac settle :=
  repeat first [ done
               | match goal with |- context [match ?x with _ => _ end] => let h := head_of x in progress unfold h end
               | match goal with |- context [match match ?x with _ => _ end with _ => _ end] => destruct x end
               | match goal with |- context [match ?x with _ => _ end] => destruct x end ].
Ltac discreet_step :=
  cbv zeta;
  lazymatch goal with
  | |- plain (api_failure _) => apply plain_api_failure
  | |- plain (Pages.missing _ _ _) => apply plain_missing
  | |- discreet _ (Ret ?x) => apply discreet_Ret; settle
  | |- discreet _ (Api.or_fail _ _) => apply discreet_or_fail; intro
  | |- discreet _ (match ?x with _ => _ end) => destruct x
  | |- discreet _ (@bind _ (result reply _) _ _ _) => apply discreet_bind; [| intro]
  | |- discreet _ (bind _ _) => apply discreet_skip; intro
  | |- discreet _ ?p => let h := head_of p in unfold h
  | |- plain _ => done
  end.
Ltac discreet_walk := repeat discreet_step.

Definition discloses (q : request) : bool :=
  match q with
  | Rest (SecretsApi.Materialize | SecretsApi.VersionGet _) | Portal SecretsPages.Download _ _ => true
  | _ => false
  end.

Lemma discreet_handler q r : discloses q = false -> discreet plain (handler q r).
Proof.
  destruct q as [rt | rt f file]; destruct rt; try discriminate; intros _; cbn [handler SecretsApi.handler SecretsPages.handler];
    discreet_walk.
Qed.

Definition answered (r : result reply reply) : reply := match r with Ok a | Err a => a end.
Definition recorded (r : Api.Call) (w : world) (x : result reply reply) (w' : world) : Prop :=
  on_record r (w_db w) (answered x) (w_db w').

Lemma plain_recorded r d a d' : plain a -> on_record r d a d'.
Proof. intros Ha Hd. by destruct Hd. Qed.

(** What a handler reads before it discloses anything. *)
Lemma wp_reading {A} r (p : Api.API A) (k : A -> Api.API reply) (P : A -> Prop) w :
  sound w -> guar (on_db eq) p -> guar stays_sound p ->
  returns (fun w' => w_db w' = w_db w) (fun x => match x with Ok a => P a | Err a => plain a end) p ->
  (forall a w', P a -> sound w' -> w_db w' = w_db w -> wp (k a) (recorded r w') w') ->
  wp (x <-! p ;; k x)%prog (recorded r w) w.
Proof.
  intros Hw Hp Hs Hr Hk. apply wp_bind. eapply wp_mono.
  - apply wp_and; [apply (wp_returns_inv (fun w' => w_db w' = w_db w)); [| exact Hr | done] |].
    + eapply guar_weaken; [| exact Hp]. intros s1 s2 H12 <-. by symmetry.
    + apply K8sFacts.wp_later; [exact Hp | exact Hs | apply returns_any | exact Hw].
  - intros [a | a] w' [Ha (_ & Hw' & Hd & _)]; [| by apply wp_Ret, plain_recorded].
    eapply wp_mono; [by apply Hk |]. intros x w2. unfold recorded. by rewrite Hd.
Qed.

Lemma wp_recording r sec action detail (k : Api.API reply) w :
  sound w -> drawn AuditLog (w_db w) -> sec ∈ rows (w_db w Secrets) ->
  action ∈ ["secret.materialize"; "secret.version_read"; "secret.download"]%string ->
  guar (on_db eq) k ->
  wp (Vault.AuditWithIP (Api.caller r) action (Secret.Name sec) detail (Api.client_ip r) ;;; k)%prog (recorded r w) w.
Proof.
  intros Hw Hn Hsec Ha Hk. apply wp_bind. unfold Vault.AuditWithIP, Store.Audit. apply wp_bind, wp_bind, wp_now_sound; [done |].
  intros now w1 Hw1 Hd _. apply wp_bind_err, wp_sql_sound; [done | |].
  - apply violated_insert; [vm_compute; reflexivity | exact (proj2 Hw1) |]. rewrite Hd. intros e He.
    apply Z.eqb_neq. specialize (Hn e He). simpl in *. lia.
  - intros w2 Hw2. apply wp_Ret, wp_Ret. eapply wp_mono; [apply (wp_guar eq); [apply _ | apply _ | exact Hk] |].
    intros x w3 Hd3 _. rewrite <- Hd3. cbn [w2 w_db with_db]. rewrite Hd. split; [apply keeps_insert; vm_compute; reflexivity |].
    eexists. split; [by rewrite insert_eq |]. split; [done |]. split; [done |]. split; [exact Ha |]. by exists sec.
Qed.

(** The reading parts write nothing. *)
Lemma reads_lookup r : guar (on_db eq) (SecretsApi.secretByPathID r) /\ guar stays_sound (SecretsApi.secretByPathID r).
Proof. split; guar_walk idtac. Qed.
Lemma reads_page_lookup r : guar (on_db eq) (SecretsPages.lookupSecret r) /\ guar stays_sound (SecretsPages.lookupSecret r).
Proof. split; guar_walk idtac. Qed.
Lemma reads_Materialize name :
  guar (on_db eq) (Vault.Materialize vault master has_ca name) /\ guar stays_sound (Vault.Materialize vault master has_ca name).
Proof. split; guar_walk idtac. Qed.
Lemma reads_GetVersion name v : guar (on_db eq) (Vault.GetVersion vault name v) /\ guar stays_sound (Vault.GetVersion vault name v).
Proof. split; guar_walk idtac. Qed.

Lemma lookup_in_store r d :
  returns (fun w' => w_db w' = d) (fun x => match x with Ok s => s ∈ rows (d Secrets) | Err a => plain a end) (SecretsApi.secretByPathID r).
Proof.
  assert (forall p, returns (fun w' => w_db w' = d) (fun x => match x with Ok s => s ∈ rows (d Secrets) | Err _ => True end)
    (query_row (select1 Secrets p))) as Hrow.
  { intros p. apply returns_query_row; [done |]. intros w s <- Hs. by apply find_some in Hs as [Hs%list_elem_of_In _]. }
  assert (returns (fun w' => w_db w' = d) (fun x => match x with Ok s => s ∈ rows (d Secrets) | Err a => plain a end)
    (Api.or_fail api_failure (Vault.Get (Api.path_id r)))) as Hname.
  { eapply returns_bind; [apply Hrow |]. intros [s | e] Hs; [exact Hs | apply plain_api_failure]. }
  unfold SecretsApi.secretByPathID. cbv zeta. destruct (str_is _ ""); [done |]. destruct (AcmeProtocol.ParseInt _); [| exact Hname].
  eapply returns_bind; [apply Hrow |]. intros [s | e] Hs; [exact Hs | exact Hname].
Qed.

Lemma page_lookup_in_store r d :
  returns (fun w' => w_db w' = d) (fun x => match x with Ok s => s ∈ rows (d Secrets) | Err a => plain a end) (SecretsPages.lookupSecret r).
Proof.
  unfold SecretsPages.lookupSecret. apply returns_bind with (Q := fun x => match x with Ok _ => True | Err a => plain a end).
  { simpl. unfold Pages.page_id. by destruct (AcmeProtocol.ParseInt _). }
  intros [id | a] Ha; [| exact Ha]. unfold Api.or_fail.
  apply returns_bind with (Q := fun x => match x with Ok s => s ∈ rows (d Secrets) | Err _ => True end).
  - apply returns_query_row; [done |]. intros w s <- Hs. by apply find_some in Hs as [Hs%list_elem_of_In _].
  - intros [s | e] Hs; [exact Hs | apply plain_missing].
Qed.

Lemma or_fail_plain {A} I f (p : M A) : (forall e, plain (f e)) ->
  returns I (fun x => match x with Ok _ => True | Err a => plain a end) (Api.or_fail f p).
Proof. intros Hf. unfold Api.or_fail. apply returns_skip. intros [a | e]; simpl; [done | apply Hf]. Qed.
Lemma reads_or_fail {A} f (p : M A) : guar (on_db eq) p /\ guar stays_sound p ->
  guar (on_db eq) (Api.or_fail f p) /\ guar stays_sound (Api.or_fail f p).
Proof. intros [Hp Hs]. split; (apply guar_bind; [done |]; by intros [a | e]). Qed.

Lemma wp_disclosing q r w :
  discloses q = true -> sound w -> drawn AuditLog (w_db w) -> wp (handler q r) (recorded r w) w.
Proof.
  intros Hq Hw Hn. destruct q as [rt | rt f file]; destruct rt; try discriminate Hq; cbn [handler SecretsApi.handler SecretsPages.handler].
  - eapply wp_reading; [exact Hw | apply reads_lookup | apply reads_lookup | apply lookup_in_store |]. intros sec w1 Hs Hw1 Hd.
    eapply wp_reading with (P := fun _ => True); [done | apply reads_or_fail, reads_Materialize | apply reads_or_fail, reads_Materialize |
      by apply or_fail_plain |]. intros [[sec' files] version] w2 _ Hw2 Hd2.
    apply wp_recording; [done | by rewrite Hd2, Hd | by rewrite Hd2, Hd | set_solver | guar_walk idtac].
  - eapply wp_reading; [exact Hw | apply reads_lookup | apply reads_lookup | apply lookup_in_store |]. intros sec w1 Hs Hw1 Hd.
    eapply wp_reading with (P := fun _ => True); [done | done | done | |].
    { simpl. unfold SecretsApi.pathIntParam. by destruct (AcmeProtocol.ParseInt version). }
    intros v w2 _ Hw2 Hd2.
    eapply wp_reading with (P := fun _ => True); [done | apply reads_or_fail, reads_GetVersion | apply reads_or_fail, reads_GetVersion |
      by apply or_fail_plain |]. intros got w3 _ Hw3 Hd3.
    apply wp_recording; [done | by rewrite Hd3, Hd2, Hd | by rewrite Hd3, Hd2, Hd | set_solver | guar_walk idtac].
  - eapply wp_reading; [exact Hw | apply reads_page_lookup | apply reads_page_lookup | apply page_lookup_in_store |]. intros sec w1 Hs Hw1 Hd.
    eapply wp_reading with (P := fun _ => True); [done | apply reads_or_fail, reads_Materialize | apply reads_or_fail, reads_Materialize |
      by apply or_fail_plain |]. intros [[sec' files] version] w2 _ Hw2 Hd2.
    destruct (List.find _ files) as [f0 |]; [| by apply wp_Ret, plain_recorded].
    apply wp_recording; [done | by rewrite Hd2, Hd | by rewrite Hd2, Hd | set_solver | guar_walk idtac].
Qed.

Lemma wp_recorded q r w : sound w -> drawn AuditLog (w_db w) -> wp (handler q r) (recorded r w) w.
Proof.
  intros Hw Hn. destruct (discloses q) eqn:Hq; [by apply wp_disclosing |].
  eapply wp_mono; [apply wp_returns, (discreet_handler q r Hq) |]. intros [a | a] w' Ha; by apply plain_recorded.
Qed.

Definition gate (q : request) : AuthFacts.gate := match q with Rest _ => AuthFacts.AdminApi | Portal _ _ _ => AuthFacts.AdminPage end.

Lemma serve_gated q g ip id (Q : reply -> world -> Prop) w :
  wp (AuthFacts.run_gate (gate q) g) (fun v w1 => match v with
    | Gate.Pass u t => forall file, wp (handler q (Api.mkCall u t ip id file)) (fun x w' => Q (answered x) w') w1
    | _ => forall a, plain a -> Q a w1 end) w ->
  wp (serve q g ip id) Q w.
Proof.
  intros Hg. destruct q as [rt | rt f file]; cbn [serve gate AuthFacts.run_gate] in *; apply wp_bind.
  - eapply wp_mono; [exact Hg |]. intros v w1. destruct v as [next | | | st msg | u t]; [intros HQ; apply wp_Ret; by apply HQ .. |].
    intros Hh. apply wp_bind. eapply wp_mono; [exact (Hh EmptyString) |]. intros [a | a] w' Ha; by apply wp_Ret.
  - eapply wp_mono; [exact Hg |]. intros v w1. destruct v as [next | | | st msg | u t]; [intros HQ; apply wp_Ret; by apply HQ .. |].
    intros Hh. apply wp_bind. eapply wp_mono; [exact (Hh file) |]. intros [a | a] w' Ha; by apply wp_Ret.
Qed.

End disclosure.

(** An administrator downloads a secret's one file in the portal. *)
Definition vault_world : world :=
  with_db (set_table Users (mkTable [AuthFacts.admin : row Users] 1)
          (set_table Sessions (mkTable [AuthFacts.session : row Sessions] 1) (w_db K8sFacts.before))) K8sFacts.before.
Definition by_name (a b : string * string) : bool := Store.str_le (fst a) (fst b).
Definition in_order (m : gmap string string) : list (string * string) := order_by by_name (map_to_list m).
Definition no_form : Pages.Form := Pages.mkForm (fun _ => EmptyString) (fun _ => []) (fun _ => EmptyString) "" (fun _ => EmptyString) None.
Definition download : prog world reply :=
  serve Sealing.sample_vault Sample.master false false in_order (Portal SecretsPages.Download no_form "password") AuthFacts.with_cookie "10.0.0.9" "1".

Lemma vault_world_drawn : drawn AuditLog (w_db vault_world).
Proof.
  intros e He. assert (forallb (fun e => AuditEntry.ID e <=? seq (w_db vault_world AuditLog))%Z (rows (w_db vault_world AuditLog)) = true) as Hall
    by (vm_compute; reflexivity).
  rewrite forallb_forall in Hall. apply Z.leb_le, Hall. by apply list_elem_of_In.
Qed.


(** ** Editing labels *)

(** C30.  Labels are stored so that they read back, and the edit form shows
    them as a text that reads back to labels stored as the same text, in
    whatever order the map was ranged over, as long as keys and values are
    UTF-8 without a comma or white space around them, and keys are not empty
    and hold no equals sign. *)
Theorem labels_survive_editing ranged s m :
  (forall m, ranged m ≡ₚ map_to_list m) -> Secret.LabelsJSON s = Vault.EncodeLabels m -> Forall clean (map_to_list m) ->
  Labels.Labels s = m /\
  Vault.EncodeLabels (Labels.parseLabelsForm (Labels.labelsToForm (ranged (Labels.Labels s)))) = Secret.LabelsJSON s.
Proof.
  intros Hr Hs Hc. assert (Utf8.text_map m) as Ht by (eapply Forall_impl; [exact Hc |]; by intros kv []).
  pose proof (labels_roundtrip m s Ht Hs) as Hm. split; [exact Hm |]. rewrite Hm, Hs. f_equal.
  rewrite form_reads_back by (by rewrite Hr). by apply insert_all_entries.
Qed.

Definition labelled (m : gmap string string) : Secret.t :=
  Secret.mk 1 "db" SecretTypeKV "" (Vault.EncodeLabels m) None 0 0 false "ada" 0 0.
Definition team : gmap string string := {[ "team" := "a=b"; "tier" := "gold plate" ]}%string.

Lemma in_order_entries m : in_order m ≡ₚ map_to_list m.
Proof. apply order_by_perm. Qed.

Lemma labels_survive_editing_witness :
  Labels.labelsToForm (in_order team) = "team=a=b, tier=gold plate"%string /\ Labels.Labels (labelled team) = team /\
  Vault.EncodeLabels (Labels.parseLabelsForm (Labels.labelsToForm (in_order (Labels.Labels (labelled team))))) = Secret.LabelsJSON (labelled team).
Proof.
  split; [vm_compute; reflexivity |]. apply (labels_survive_editing in_order (labelled team) team in_order_entries eq_refl).
  assert (map_to_list team = [("team", "a=b"); ("tier", "gold plate")]%string \/ map_to_list team = [("tier", "gold plate"); ("team", "a=b")]%string) as [-> | ->]
    by (vm_compute; tauto).
  - repeat (apply List.Forall_cons; [by repeat split; vm_compute |]). apply List.Forall_nil.
  - repeat (apply List.Forall_cons; [by repeat split; vm_compute |]). apply List.Forall_nil.
Defined.

(** A comma makes two labels of one. *)
Example comma_splits_a_label :
  Vault.EncodeLabels (Labels.parseLabelsForm (Labels.labelsToForm (in_order (Labels.Labels (labelled {[ "team" := "a,b=c" ]}%string)))))
  = Vault.EncodeLabels {[ "team" := "a"; "b" := "c" ]}%string.
Proof. vm_compute. reflexivity. Qed.
End SecretFacts.
