(* ===== verification/ApplyFacts.v ===== *)
(** * gocactl apply converges

    [ApplySpec] is what the commands need of a server, a class over a view of
    its state: secrets by name with their metadata and their bindings by id.
    [ApplyFacts] proves the commands against it and shows that the goca server
    keeps it. *)

From S2P Require Import Prelude GoStrings Utf8Facts Effects Models Schema SqlFacts TableFacts Store Pki Sealing CaService SecretStore Auth Gate Vault Downloads AcmeProtocol Api Secrets Apply AuthFacts VaultFacts K8sFacts SecretFacts.

Module ApplySpec.
Import Apply.

Record entry := mkEntry {
  e_type : string; e_description : string; e_labels : gmap string string; e_days : Z; e_bindings : gmap Z triple }.
Abbreviation state := (gmap string entry).

(** A name the server finds a secret by: as it stores it, and not a number. *)
Definition tidy (name : string) : Prop := Str.TrimSpace name = name /\ name <> EmptyString /\ AcmeProtocol.ParseInt name = None.

Definition describes (s : secret) (e : entry) : Prop :=
  s_Type s = e_type e /\ s_Description s = e_description e /\ s_Labels s = e_labels e /\ s_RotationDays s = e_days e.
Definition new_entry (d : ManifestSecret) : entry :=
  mkEntry (orKV (Type_ d)) (Description d) (default ∅ (Labels d)) (RotationDays d) ∅.
(** A label map of null is one that is not there. *)
Definition revised (c : changes) (e e' : entry) : Prop :=
  e' = mkEntry (e_type e) (default (e_description e) (set_description c)) (default (e_labels e) (mjoin (set_labels c)))
         (default (e_days e) (set_rotation_days c)) (e_bindings e).
Definition with_bindings (b : gmap Z triple) (e : entry) : entry := mkEntry (e_type e) (e_description e) (e_labels e) (e_days e) b.
Definition glob_of (b : ManifestBinding) : triple :=
  (Vault.nzGlob (Namespace b), Vault.nzGlob (ServiceAccount b), Vault.nzGlob (AuthMethod b)).
Definition bound (b : ManifestBinding) (e e' : entry) : Prop :=
  exists id, e_bindings e !! id = None /\ e' = with_bindings (<[id := glob_of b]> (e_bindings e)) e.
Definition unbound (id : Z) (e e' : entry) : Prop := e' = with_bindings (base.delete id (e_bindings e)) e.

(** A call on one secret did its work, or nothing and reports an error. *)
Definition moved {A} (name : string) (work : entry -> entry -> Prop) (m : state) (x : result error A) (m' : state) : Prop :=
  (exists e e', m !! name = Some e /\ work e e' /\ m' = <[name := e']> m) \/ (m' = m /\ is_ok x = false).

(** What a manifest declares of a secret is UTF-8, as JSON carries it. *)
Definition binding_texts (b : ManifestBinding) : list string := [Namespace b; ServiceAccount b; AuthMethod b].
Definition text (d : ManifestSecret) : Prop :=
  Forall (fun s => Str.ValidString s = true) (Name d :: Type_ d :: Description d :: flat_map binding_texts (Bindings d)) /\
  Utf8.text_map (default ∅ (Labels d)).

Class Keeper (r : Remote) (good : world -> Prop) (view : world -> state) : Prop := {
  keeper_list w : good w ->
    wp (ListSecrets r) (fun x w' => good w' /\ view w' = view w /\ forall l, x = Ok l ->
      (forall s, s ∈ l -> exists e, view w !! s_Name s = Some e /\ describes s e) /\
      (forall n e, view w !! n = Some e -> exists s, s ∈ l /\ s_Name s = n)) w;
  keeper_bindings name w : good w -> tidy name ->
    wp (SecretBindings r name) (fun x w' => good w' /\ view w' = view w /\ forall l, x = Ok l ->
      exists e, view w !! name = Some e /\ map (fun b => (b_ID b, b_Triple b)) l ≡ₚ map_to_list (e_bindings e)) w;
  keeper_create d w : good w -> tidy (Name d) -> Utf8.text_map (default ∅ (Labels d)) ->
    wp (CreateSecret r d) (fun x w' => good w' /\
      ((view w !! Name d = None /\ view w' = <[Name d := new_entry d]> (view w)) \/ (view w' = view w /\ is_ok x = false))) w;
  keeper_update name c w : good w -> tidy name -> Utf8.text_map (default ∅ (mjoin (set_labels c))) ->
    wp (UpdateSecret r name c) (fun x w' => good w' /\ moved name (revised c) (view w) x (view w')) w;
  keeper_bind name b w : good w -> tidy name ->
    wp (BindSecret r name b) (fun x w' => good w' /\ moved name (bound b) (view w) x (view w')) w;
  keeper_unbind name id t e w : good w -> view w !! name = Some e -> e_bindings e !! id = Some t ->
    wp (UnbindSecret r id) (fun x w' => good w' /\ moved name (unbound id) (view w) x (view w')) w }.
End ApplySpec.

Module ApplyFacts.
Import Apply ApplySpec.

(** ** The client, against any such server *)

Section client.
Context (r : Remote) (good : world -> Prop) (view : world -> state) `{Keeper r good view}.
Context (m : Manifest) (prune : bool).

(** The manifest as parseManifest and validateManifest leave it, its names
    tidy. *)
Record proper : Prop := {
  p_names : NoDup (map Name (Secrets m));
  p_tidy : forall d, d ∈ Secrets m -> tidy (Name d);
  p_text : forall d, d ∈ Secrets m -> text d;
  p_keys : forall d, d ∈ Secrets m -> NoDup (map bindingKey (Bindings d));
  p_canonical : forall d b, d ∈ Secrets m -> b ∈ Bindings d -> canonical_binding b = b }.
Context (Hm : proper).

Definition present (t : triple) (e : entry) : Prop := exists id, e_bindings e !! id = Some t.

(** What an entry agrees with: metadata, but for labels the manifest leaves
    out, the declared bindings, and with [prune] no other. *)
Record in_step (d : ManifestSecret) (e : entry) : Prop := {
  i_description : e_description e = Description d;
  i_labels : Labels d <> None -> e_labels e = default ∅ (Labels d);
  i_days : e_days e = RotationDays d;
  i_bound : forall b, b ∈ Bindings d -> present (triple_of b) e;
  i_pruned : prune = true -> forall t, present t e -> join t ∈ map bindingKey (Bindings d) }.
Definition settled (d : ManifestSecret) (s : state) : Prop :=
  exists e, s !! Name d = Some e /\ (e_type e = orKV (Type_ d) -> in_step d e).

(** *** Rules *)

Lemma wp_wrapped {A} what (p : M A) (Q : result error A -> world -> Prop) w :
  wp p (fun x w' => Q (match x with Ok a => Ok a | Err e => Err (Wrapf what e) end) w') w -> wp (wrapped what p) Q w.
Proof. intros Hp. apply wp_bind. eapply wp_mono; [exact Hp |]. intros x w' Hx. by apply wp_Ret. Qed.

Lemma declared_found d : d ∈ Secrets m -> declared m (Name d) = d.
Proof.
  intros Hd. unfold declared. generalize (mkSecret "" "" "" None 0 []). pose proof (p_names Hm) as Hn. revert Hn Hd.
  induction (Secrets m) as [| d0 l IH]; intros Hn Hd z; [by apply not_elem_of_nil in Hd |]. cbn [fold_left map] in *.
  apply NoDup_cons in Hn as [Hnot Hn]. apply elem_of_cons in Hd as [<- | Hd]; [| by apply IH].
  rewrite (proj2 (str_is_eq _ _) eq_refl). clear IH. revert Hnot. induction l as [| d1 l IH]; [done |]. cbn [fold_left map].
  rewrite not_elem_of_cons. intros [Hne Hnot]. rewrite (proj2 (str_is_ne _ _)) by congruence. by apply IH; [apply NoDup_cons in Hn as [_ Hn] |].
Qed.

Lemma binding_found (bs : list ManifestBinding) b : NoDup (map bindingKey bs) -> b ∈ bs -> bindingByTriple bs (bindingKey b) = Some b.
Proof.
  unfold bindingByTriple. induction bs as [| b0 bs IH]; intros Hn Hb; [by apply not_elem_of_nil in Hb |]. cbn [List.find map] in *.
  apply NoDup_cons in Hn as [Hnot Hn]. apply elem_of_cons in Hb as [<- | Hb]; [by rewrite (proj2 (str_is_eq _ _) eq_refl) |].
  rewrite (proj2 (str_is_ne _ _)); [by apply IH |]. intros E. apply Hnot. rewrite E. by apply list_elem_of_fmap_2.
Qed.

Lemma canonical_glob b : canonical_binding b = b -> glob_of b = triple_of b.
Proof.
  destruct b as [ns sa am n]. unfold canonical_binding, glob_of, triple_of. cbn. intros E. injection E as E1 E2 E3.
  assert (forall s, orStar (Str.TrimSpace s) = s -> Vault.nzGlob s = orStar s) as Hg.
  { intros s Hs. unfold Vault.nzGlob, orStar in *. rewrite Hs. destruct (str_is s "") eqn:Es; [| done].
    apply str_is_eq in Es as ->. discriminate Hs. }
  by rewrite !Hg.
Qed.

(** What holds when a program ends well. *)
Definition ok_wp {A} (p : M A) (Q : A -> world -> Prop) (w : world) : Prop := wp p (fun x w' => forall a, x = Ok a -> Q a w') w.

Lemma ok_Ret {A} (a : A) (Q : A -> world -> Prop) w : Q a w -> ok_wp (Ret (Ok a)) Q w.
Proof. intros Hq. apply wp_Ret. by intros _ [= <-]. Qed.
Lemma ok_Err {A} e (Q : A -> world -> Prop) w : ok_wp (Ret (Err e)) Q w.
Proof. by apply wp_Ret. Qed.
Lemma ok_bind {A B} (p : M A) (k : A -> M B) (Q : B -> world -> Prop) w :
  ok_wp p (fun a w' => ok_wp (k a) Q w') w -> ok_wp (x <-! p ;; k x)%prog Q w.
Proof.
  unfold ok_wp, wp. rewrite run_bind. destruct (run p w) as [[a | e] w1]; cbn [fst snd]; intros Hp; [by apply Hp | done].
Qed.
Lemma ok_mono {A} (p : M A) (Q R : A -> world -> Prop) w : ok_wp p Q w -> (forall a w', Q a w' -> R a w') -> ok_wp p R w.
Proof. unfold ok_wp, wp. eauto. Qed.
Lemma ok_wrapped {A} what (p : M A) (Q : A -> world -> Prop) w : ok_wp p Q w -> ok_wp (wrapped what p) Q w.
Proof. intros Hp. apply wp_wrapped. unfold ok_wp, wp in *. destruct (fst (run p w)); [done | discriminate]. Qed.

Lemma ok_moved {A} (p : M A) name work (Q : A -> world -> Prop) w :
  wp p (fun x w' => good w' /\ moved name work (view w) x (view w')) w ->
  (forall a e e' w', good w' -> view w !! name = Some e -> work e e' -> view w' = <[name := e']> (view w) -> Q a w') -> ok_wp p Q w.
Proof.
  unfold ok_wp, wp. intros [Hg [(e & e' & He & Hw & Hv) | [_ Hx]]] HQ a Ha; [by eapply HQ | by rewrite Ha in Hx].
Qed.

Lemma ok_execute_app p q (Q : unit -> world -> Prop) w :
  ok_wp (execute r m p) (fun _ w' => ok_wp (execute r m q) Q w') w -> ok_wp (execute r m (p ++ q)) Q w.
Proof.
  revert w. induction p as [| a p IH]; intros w Hp; cbn [execute app] in *; [by apply (Hp tt) |].
  apply ok_bind. unfold ok_wp at 1, wp. unfold ok_wp at 1, wp in Hp. rewrite run_bind in Hp.
  destruct (run (execute_action r m a) w) as [[[] | e] w1]; cbn [fst snd] in *; [| done]. intros [] _. apply IH. exact Hp.
Qed.

(** *** One secret *)

Section one.
Context (d : ManifestSecret) (Hd : d ∈ Secrets m).

(** The same secret, with these bindings. *)
Definition rebound (s : state) (e : entry) (b : gmap Z triple) : state := <[Name d := with_bindings b e]> s.

Lemma rebound_same s e : s !! Name d = Some e -> s = rebound s e (e_bindings e).
Proof. intros He. unfold rebound, with_bindings. destruct e. by rewrite fin_maps.insert_id. Qed.
Lemma rebound_twice s e b b' : rebound (rebound s e b) (with_bindings b e) b' = rebound s e b'.
Proof. unfold rebound. by rewrite insert_insert_eq. Qed.
Lemma rebound_there s e b : rebound s e b !! Name d = Some (with_bindings b e).
Proof. apply lookup_insert_eq. Qed.

(** Declared bindings are added, and nothing else changes. *)
Lemma ok_binds bs w e :
  good w -> view w !! Name d = Some e -> (forall b, b ∈ bs -> b ∈ Bindings d) ->
  ok_wp (execute r m (map (bind_action d) bs)) (fun _ w' => good w' /\ exists B, view w' = rebound (view w) e B /\ e_bindings e ⊆ B /\
    (forall b, b ∈ bs -> exists id, B !! id = Some (triple_of b)) /\
    (forall id t, B !! id = Some t -> e_bindings e !! id = Some t \/ t ∈ map triple_of bs)) w.
Proof.
  intros Hw He Hbs. revert w e Hw He. induction bs as [| b bs IH]; intros w e Hw He; cbn [map execute].
  - apply ok_Ret. split; [done |]. exists (e_bindings e). split; [by apply rebound_same |]. split; [done |].
    split; [intros b Hb; by apply not_elem_of_nil in Hb | by left].
  - assert (b ∈ Bindings d) as Hb by (apply Hbs; by left). apply ok_bind. unfold execute_action. cbn [Secret bind_action Kind Triple].
    rewrite (declared_found d Hd), binding_found by (done || by apply (p_keys Hm)).
    apply ok_wrapped. eapply ok_moved; [apply keeper_bind; [done | by apply (p_tidy Hm)] |].
    intros [] e0 e1 w1 Hw1 He0 (id & Hid & ->) Hv1. rewrite He in He0. injection He0 as <-.
    rewrite (canonical_glob b) in Hv1 by by eapply (p_canonical Hm).
    eapply ok_mono; [apply (IH (fun b Hb => Hbs b (list_elem_of_further _ _ _ Hb)) w1 (with_bindings (<[id := triple_of b]> (e_bindings e)) e) Hw1); rewrite Hv1; apply lookup_insert_eq |].
    intros [] w2 (Hw2 & B & Hv2 & Hsub & Hin & Hback). split; [done |]. exists B. cbn [with_bindings e_bindings] in *. split_and!.
    + rewrite Hv2, Hv1. apply rebound_twice.
    + etrans; [by apply fin_maps.insert_subseteq |]. exact Hsub.
    + intros b' [-> | Hb']%elem_of_cons; [| by apply Hin]. exists id. eapply lookup_weaken; [| exact Hsub]. apply lookup_insert_eq.
    + intros id' t Ht. cbn [map]. rewrite elem_of_cons. destruct (Hback id' t Ht) as [Hold | Hnew]; [| auto].
      apply lookup_insert_Some in Hold as [[_ <-] | [_ Hold]]; auto.
Qed.

(** Bindings whose key is not declared go one by one: as many are planned as
    there are of each key. *)
Definition keys : list string := map bindingKey (Bindings d).
Definition held (k : string) (B : gmap Z triple) : nat := length (filter (fun p => join (snd p) = k) (map_to_list B)).
Definition planned (k : string) (sbs : list binding) : nat := length (filter (fun sb => join (b_Triple sb) = k) sbs).

Lemma held_delete k B id t : B !! id = Some t -> held k B = (if decide (join t = k) then 1 else 0) + held k (base.delete id B).
Proof.
  intros Ht. unfold held. rewrite <- (map_to_list_delete B id t Ht) at 1. rewrite filter_cons. cbn [snd]. by destruct (decide (join t = k)).
Qed.
Lemma held_there k B id t : B !! id = Some t -> join t = k -> 0 < held k B.
Proof. intros Ht Hk. rewrite (held_delete k B id t Ht). rewrite decide_True by done. lia. Qed.

Lemma ok_unbinds sbs w e :
  good w -> view w !! Name d = Some e -> (forall sb, sb ∈ sbs -> join (b_Triple sb) ∉ keys) ->
  (forall k, k ∉ keys -> held k (e_bindings e) <= planned k sbs) ->
  ok_wp (execute r m (map (unbind_action d) sbs)) (fun _ w' => good w' /\ exists B, view w' = rebound (view w) e B /\ B ⊆ e_bindings e /\
    (forall id t, e_bindings e !! id = Some t -> join t ∈ keys -> B !! id = Some t) /\
    (forall id t, B !! id = Some t -> join t ∈ keys)) w.
Proof.
  revert w e. induction sbs as [| a sbs IH]; intros w e Hw He Hout Hcount; cbn [map execute].
  - apply ok_Ret. split; [done |]. exists (e_bindings e). split; [by apply rebound_same |]. split_and!; [done | done |].
    intros id t Ht. destruct (decide (join t ∈ keys)) as [| Hk]; [done |]. specialize (Hcount _ Hk).
    pose proof (held_there _ _ _ _ Ht eq_refl). unfold planned in Hcount. simpl in Hcount. lia.
  - assert (join (b_Triple a) ∉ keys) as Ha by (apply Hout; by left).
    assert (forall sb, sb ∈ sbs -> join (b_Triple sb) ∉ keys) as Hout' by (intros sb Hsb; apply Hout; by right).
    apply ok_bind. unfold execute_action. cbn [Secret unbind_action Kind Triple]. rewrite (declared_found d Hd).
    apply ok_bind, ok_wrapped. eapply wp_mono; [apply keeper_bindings; [done | by apply (p_tidy Hm)] |].
    intros x w1 (Hw1 & Hv1 & Hl) l ->. destruct (Hl l eq_refl) as (e0 & He0 & Hp). rewrite He in He0. injection He0 as <-.
    destruct (List.find _ l) as [sb |] eqn:Ef.
    + apply find_some in Ef as [Hin%list_elem_of_In Hk%str_is_eq].
      assert (e_bindings e !! b_ID sb = Some (b_Triple sb)) as Hid.
      { apply elem_of_map_to_list. rewrite <- Hp. by apply (list_elem_of_fmap_2 (fun b => (b_ID b, b_Triple b))). }
      apply ok_wrapped. eapply ok_moved; [eapply keeper_unbind; [done | by rewrite Hv1 | exact Hid] |].
      intros [] e0 e1 w2 Hw2 He0 -> Hv2. rewrite Hv1, He in He0. injection He0 as <-. rewrite Hv1 in Hv2.
      eapply ok_mono; [apply (IH w2 (with_bindings (base.delete (b_ID sb) (e_bindings e)) e) Hw2); [rewrite Hv2; apply lookup_insert_eq | done |] |].
      * intros k Hnk. specialize (Hcount k Hnk). rewrite (held_delete k _ _ _ Hid) in Hcount. unfold planned in *. rewrite filter_cons in Hcount.
        rewrite Hk in Hcount. cbn [with_bindings e_bindings]. destruct (decide (join (b_Triple a) = k)); simpl in Hcount; lia.
      * intros [] w3 (Hw3 & B & Hv3 & Hsub & Hkeep & Hall). split; [done |]. exists B. cbn [with_bindings e_bindings] in *. split_and!.
        -- rewrite Hv3, Hv2. apply rebound_twice.
        -- etrans; [exact Hsub |]. apply delete_subseteq.
        -- intros id t Ht Hkt. apply Hkeep; [| done]. rewrite lookup_delete_ne; [done |]. intros <-. rewrite Hid in Ht. injection Ht as <-.
           by rewrite Hk in Hkt.
        -- done.
    + apply ok_Ret. eapply ok_mono; [apply (IH w1 e Hw1); [by rewrite Hv1 | done |] |].
      * intros k Hnk. specialize (Hcount k Hnk). unfold planned in *. rewrite filter_cons in Hcount.
        destruct (decide (join (b_Triple a) = k)) as [<- | Hne]; [| exact Hcount].
        enough (held (join (b_Triple a)) (e_bindings e) = 0) by lia. unfold held. rewrite <- Hp.
        apply length_zero_iff_nil. match goal with |- ?x = [] => destruct x as [| q qs] eqn:E end; [done |]. exfalso.
        assert (q ∈ q :: qs) as Hq by by left. rewrite <- E in Hq. apply list_elem_of_filter in Hq as [Hk Hq].
        apply list_elem_of_fmap in Hq as (sb & -> & Hsb). cbn [snd] in Hk.
        apply list_elem_of_In in Hsb. apply (List.find_none _ _ Ef) in Hsb. apply str_is_ne in Hsb. exact (Hsb Hk).
      * intros [] w2 (Hw2 & B & Hv2 & Hrest). split; [done |]. exists B. by rewrite Hv2, Hv1.
Qed.

Lemma planned_map k (have : list binding) :
  length (filter (fun p => join (snd p) = k) (map (fun b => (b_ID b, b_Triple b)) have)) = planned k have.
Proof. unfold planned. induction have as [| b l IH]; [done |]. cbn [map]. rewrite !filter_cons. cbn [snd]. destruct (decide _); simpl; by rewrite IH. Qed.

Lemma planned_undeclared k have :
  k ∉ keys -> planned k (List.filter (fun sb => negb (existsb (str_is (join (b_Triple sb))) keys)) have) = planned k have.
Proof.
  intros Hk. unfold planned. induction have as [| b l IH]; [done |]. cbn [List.filter]. rewrite filter_cons.
  destruct (decide (join (b_Triple b) = k)) as [Hb | Hb].
  - assert (existsb (str_is (join (b_Triple b))) keys = false) as ->.
    { apply not_true_iff_false. intros (x & Hx%list_elem_of_In & <-%str_is_eq)%existsb_exists. by rewrite Hb in Hx. }
    cbn [negb]. rewrite filter_cons, decide_True by done. simpl. by rewrite IH.
  - destruct (negb _); [rewrite filter_cons, decide_False by done |]; exact IH.
Qed.

(** Metadata is brought in step, but for labels the manifest leaves out. *)
Lemma update_body srv :
  fold_left (set_field d) (metaChanges d srv) no_changes =
  mkChanges (if str_is (Description d) (s_Description srv) then None else Some (Description d))
            (if labelsEqual (Labels d) (s_Labels srv) then None else Some (Labels d))
            (if (RotationDays d =? s_RotationDays srv)%Z then None else Some (RotationDays d)).
Proof. unfold metaChanges. destruct (str_is _ _), (labelsEqual _ _), (_ =? _)%Z; reflexivity. Qed.

Lemma no_meta_changes srv :
  metaChanges d srv = [] <-> Description d = s_Description srv /\ default ∅ (Labels d) = s_Labels srv /\ RotationDays d = s_RotationDays srv.
Proof.
  unfold metaChanges, labelsEqual. destruct (str_is (Description d) _) eqn:E1; [apply str_is_eq in E1 | apply str_is_ne in E1; naive_solver].
  case_bool_decide as E2; [| naive_solver]. destruct (Z.eqb_spec (RotationDays d) (s_RotationDays srv)); naive_solver.
Qed.

Definition meta_step (e e' : entry) : Prop :=
  e_type e' = e_type e /\ e_bindings e' = e_bindings e /\ e_description e' = Description d /\
  (Labels d <> None -> e_labels e' = default ∅ (Labels d)) /\ e_days e' = RotationDays d.

Lemma ok_update srv w e :
  good w -> view w !! Name d = Some e -> describes srv e ->
  ok_wp (execute r m (match metaChanges d srv with [] => [] | fields => [update_action d fields] end))
    (fun _ w' => good w' /\ exists e', view w' = <[Name d := e']> (view w) /\ meta_step e e') w.
Proof.
  intros Hw He (_ & Hdesc & Hlab & Hdays). destruct (metaChanges d srv) as [| f fs] eqn:Em.
  - apply no_meta_changes in Em as (E1 & E2 & E3). apply ok_Ret. split; [done |]. exists e. split; [by rewrite fin_maps.insert_id |].
    unfold meta_step. split_and!; congruence.
  - rewrite <- Em. cbn [execute]. apply ok_bind. unfold execute_action. cbn [Secret update_action Kind MetaFields]. rewrite (declared_found d Hd).
    pose proof (update_body srv) as Hb. revert Hb. generalize (fold_left (set_field d) (metaChanges d srv) no_changes). intros body Hb.
    assert (forall e', revised body e e' -> meta_step e e') as Hs.
    { intros e' ->. rewrite Hb. unfold meta_step. cbn [e_type e_bindings e_description e_labels e_days set_description set_labels set_rotation_days].
      split_and!; [done | done | | |].
      - destruct (str_is (Description d) _) eqn:E; [apply str_is_eq in E; simpl; congruence | done].
      - unfold labelsEqual. intros Hl. case_bool_decide as E; simpl; [congruence |]. by destruct (Labels d).
      - destruct (Z.eqb_spec (RotationDays d) (s_RotationDays srv)); simpl; congruence. }
    assert (body <> no_changes) as Hne.
    { rewrite Hb. intros E. injection E as E1 E2 E3. revert Em. unfold metaChanges.
      destruct (str_is _ _); [| discriminate]. destruct (labelsEqual _ _); [| discriminate]. by destruct (_ =? _)%Z. }
    assert (ok_wp (wrapped ("update " +:+ Name d)%go (UpdateSecret r (Name d) body))
      (fun _ w' => ok_wp (execute r m []) (fun _ w'' => good w'' /\ exists e', view w'' = <[Name d := e']> (view w) /\ meta_step e e') w') w) as Hgo.
    { apply ok_wrapped. eapply ok_moved; [apply keeper_update; [done | by apply (p_tidy Hm) | rewrite Hb; cbn [set_labels]; destruct (labelsEqual _ _); [apply Utf8.text_empty | by apply (p_text Hm)]] |].
      intros [] e0 e1 w1 Hw1 He0 Hr Hv. rewrite He in He0. injection He0 as <-. apply ok_Ret. eauto. }
    clear Hb Hs. destruct body as [[b1 |] [b2 |] [b3 |]]; first [exact Hgo | by destruct Hne].
Qed.

(** A secret's part of the plan settles it and leaves the others alone. *)
Record fetched (s : state) (st : serverState) : Prop := {
  f_secrets n : match secrets st !! n with Some x => exists e, s !! n = Some e /\ describes x e | None => s !! n = None end;
  f_bindings d' e : d' ∈ Secrets m -> s !! Name d' = Some e ->
    map (fun b => (b_ID b, b_Triple b)) (default [] (bindings st !! Name d')) ≡ₚ map_to_list (e_bindings e) }.

Lemma held_grown k B B' bs :
  k ∉ keys -> (forall b, b ∈ bs -> b ∈ Bindings d) -> (forall id t, B' !! id = Some t -> B !! id = Some t \/ t ∈ map triple_of bs) ->
  held k B' <= held k B.
Proof.
  intros Hk Hbs Hback. unfold held. apply submseteq_length, NoDup_submseteq; [apply NoDup_filter, NoDup_map_to_list |].
  intros [id t] [Ht Hin]%list_elem_of_filter. apply list_elem_of_filter. split; [done |]. cbn [snd] in Ht.
  apply elem_of_map_to_list in Hin. apply elem_of_map_to_list. destruct (Hback _ _ Hin) as [| Hnew]; [done |]. exfalso. apply Hk.
  apply list_elem_of_fmap in Hnew as (b & -> & Hb). rewrite <- Ht. apply (list_elem_of_fmap_2 bindingKey). by apply Hbs.
Qed.

(** With the bindings [have] of the plan's reading and those there after the
    declared ones were added. *)
Lemma all_bound have e B bs :
  map (fun b => (b_ID b, b_Triple b)) have ≡ₚ map_to_list (e_bindings e) -> e_bindings e ⊆ B ->
  bs = List.filter (fun b => negb (bindingPresent have b)) (Bindings d) -> (forall b, b ∈ bs -> exists id, B !! id = Some (triple_of b)) ->
  forall b, b ∈ Bindings d -> exists id, B !! id = Some (triple_of b).
Proof.
  intros Hbind Hsub -> Hin b Hb. destruct (bindingPresent have b) eqn:Ep.
  - apply existsb_exists in Ep as (sb & Hsb%list_elem_of_In & Htr%bool_decide_eq_true_1). exists (b_ID sb). eapply lookup_weaken; [| exact Hsub].
    apply elem_of_map_to_list. rewrite <- Hbind, <- Htr. by apply (list_elem_of_fmap_2 (fun b => (b_ID b, b_Triple b))).
  - apply Hin, list_elem_of_In, filter_In. split; [by apply list_elem_of_In |]. by rewrite Ep.
Qed.

Lemma ok_settle_known srv have e w :
  good w -> view w !! Name d = Some e -> describes srv e -> map (fun b => (b_ID b, b_Triple b)) have ≡ₚ map_to_list (e_bindings e) ->
  ok_wp (execute r m
    ((match metaChanges d srv with [] => [] | fields => [update_action d fields] end) ++
     map (bind_action d) (List.filter (fun b => negb (bindingPresent have b)) (Bindings d)) ++
     (if prune then map (unbind_action d) (List.filter (fun sb => negb (existsb (str_is (join (b_Triple sb))) keys)) have) else [])))
    (fun _ w' => good w' /\ exists e', view w' = <[Name d := e']> (view w) /\ in_step d e') w.
Proof.
  intros Hw Hv Hdesc Hbind.
  apply ok_execute_app. eapply ok_mono; [by apply ok_update |]. intros [] w1 (Hw1 & e1 & Hv1 & Ht1 & Hb1 & M1 & M2 & M3).
  assert (view w1 !! Name d = Some e1) as He1 by (rewrite Hv1; apply lookup_insert_eq). rewrite <- Hb1 in Hbind.
  set (bs := List.filter _ (Bindings d)).
  assert (forall b, b ∈ bs -> b ∈ Bindings d) as Hbs by (intros b; unfold bs; rewrite !list_elem_of_In; by intros [Hb _]%filter_In).
  apply ok_execute_app. eapply ok_mono; [by apply (ok_binds bs w1 e1) |]. intros [] w2 (Hw2 & B & Hv2 & Hsub & Hin & Hback).
  assert (view w2 !! Name d = Some (with_bindings B e1)) as He2 by (rewrite Hv2; apply rebound_there).
  pose proof (all_bound have e1 B bs Hbind Hsub eq_refl Hin) as Hall.
  assert (forall B', rebound (view w2) (with_bindings B e1) B' = <[Name d := with_bindings B' e1]> (view w)) as Hfin
    by (intros B'; rewrite Hv2, Hv1; unfold rebound; by rewrite !insert_insert_eq).
  destruct prune eqn:Epr.
  - eapply ok_mono; [apply (ok_unbinds _ w2 _ Hw2 He2) |].
    + intros sb [_ Hsb]%list_elem_of_In%filter_In Hk. apply negb_true_iff, not_true_iff_false in Hsb. apply Hsb, existsb_exists.
      exists (join (b_Triple sb)). split; [by apply list_elem_of_In | by apply str_is_eq].
    + intros k Hk. rewrite (planned_undeclared k have Hk), <- planned_map. cbn [with_bindings e_bindings].
      etrans; [by apply (held_grown k (e_bindings e1) B bs) |]. unfold held. by rewrite Hbind.
    + intros [] w3 (Hw3 & B3 & Hv3 & Hsub3 & Hkeep & Hdecl). split; [done |]. exists (with_bindings B3 e1). split; [by rewrite Hv3 |].
      split; [done | done | done | |].
      * intros b Hb. destruct (Hall b Hb) as [id Hid]. exists id. apply Hkeep; [done |]. by apply (list_elem_of_fmap_2 bindingKey).
      * intros _ t [id Hid]. by eapply Hdecl.
  - apply ok_Ret. split; [done |]. exists (with_bindings B e1). split; [by rewrite <- Hfin, (rebound_same _ _ He2) at 1 |].
    split; [done | done | done | | congruence]. intros b Hb. by apply Hall.
Qed.

Lemma ok_settle_new w a :
  Kind a = actCreateSecret -> Secret a = Name d -> good w ->
  ok_wp (execute r m (a :: map (bind_action d) (Bindings d))) (fun _ w' => good w' /\ exists e', view w' = <[Name d := e']> (view w) /\ in_step d e') w.
Proof.
  intros Ha Hn Hw. cbn [execute]. apply ok_bind. unfold execute_action. rewrite Ha, Hn, (declared_found d Hd). apply ok_wrapped.
  eapply wp_mono; [apply keeper_create; [done | by apply (p_tidy Hm) | by apply (p_text Hm)] |].
  intros x w1 [Hw1 Hx] [] ->. destruct Hx as [[_ Hv1] | [_ ?]]; [| done].
  assert (view w1 !! Name d = Some (new_entry d)) as He1 by (rewrite Hv1; apply lookup_insert_eq).
  eapply ok_mono; [by apply (ok_binds (Bindings d) w1 _ Hw1 He1) |]. intros [] w2 (Hw2 & B & Hv2 & _ & Hin & Hback).
  split; [done |]. exists (with_bindings B (new_entry d)). split; [rewrite Hv2, Hv1; unfold rebound; by rewrite insert_insert_eq |].
  split; [done | done | done | |].
  - intros b Hb. destruct (Hin b Hb) as [id Hid]. by exists id.
  - intros _ t [id Hid]. cbn in Hid. destruct (Hback id t Hid) as [Hold | Hnew]; [cbn in Hold; by rewrite lookup_empty in Hold |].
    apply list_elem_of_fmap in Hnew as (b & -> & Hb). by apply (list_elem_of_fmap_2 bindingKey).
Qed.

Lemma ok_settle s st w :
  fetched s st -> good w -> view w !! Name d = s !! Name d ->
  ok_wp (execute r m (plan_secret st prune d)) (fun _ w' => good w' /\ settled d (view w') /\ exists e', view w' = <[Name d := e']> (view w)) w.
Proof.
  intros Hst Hw Hv. unfold plan_secret. cbv zeta. pose proof (f_secrets _ _ Hst (Name d)) as Hsec.
  assert (forall w', (exists e', view w' = <[Name d := e']> (view w) /\ in_step d e') ->
    settled d (view w') /\ exists e', view w' = <[Name d := e']> (view w)) as Hfin.
  { intros w' (e' & Hv' & Hi). split; [exists e'; split; [rewrite Hv'; apply lookup_insert_eq | done] | eauto]. }
  destruct (secrets st !! Name d) as [srv |]; [| eapply ok_mono; [by apply ok_settle_new |]; intros [] w' [Hw' Hx]; split; [done | by apply Hfin]].
  destruct Hsec as (e & He & Hdesc). rewrite He in Hv. destruct (str_is (s_Type srv) (orKV (Type_ d))) eqn:Et; cbn [negb].
  - eapply ok_mono; [apply (ok_settle_known srv _ e); [done | done | done | by apply (f_bindings _ _ Hst)] |].
    intros [] w' [Hw' Hx]. split; [done | by apply Hfin].
  - cbn [execute]. apply ok_bind, ok_Ret, ok_Ret. split; [done |]. split; [| exists e; by rewrite fin_maps.insert_id].
    exists e. split; [done |]. intros Htype. destruct Hdesc as [Ht _]. apply str_is_ne in Et. congruence.
Qed.
End one.

(** *** The whole manifest *)

Lemma settled_other d d' e (s : state) : Name d <> Name d' -> settled d s -> settled d (<[Name d' := e]> s).
Proof. intros Hne (e' & He' & Hi). exists e'. split; [by rewrite lookup_insert_ne | done]. Qed.

Lemma ok_execute_all s st ds w :
  NoDup (map Name ds) -> (forall d, d ∈ ds -> d ∈ Secrets m) -> fetched s st -> good w -> (forall d, d ∈ ds -> view w !! Name d = s !! Name d) ->
  ok_wp (execute r m (flat_map (plan_secret st prune) ds)) (fun _ w' => good w' /\ (forall d, d ∈ ds -> settled d (view w')) /\
    forall n, n ∉ map Name ds -> view w' !! n = view w !! n) w.
Proof.
  intros Hn Hin Hst. revert w. induction ds as [| d ds IH]; intros w Hw Hv; cbn [flat_map map] in *.
  { apply ok_Ret. split; [done |]. split; [intros d Hd; by apply not_elem_of_nil in Hd | done]. }
  apply NoDup_cons in Hn as [Hd Hn]. apply ok_execute_app.
  eapply ok_mono; [apply (ok_settle d (Hin d (list_elem_of_here _ _)) s st w Hst Hw), Hv; by left |].
  intros [] w1 (Hw1 & Hset & e' & Hv1).
  eapply ok_mono; [apply (IH Hn (fun d' Hd' => Hin d' (list_elem_of_further _ _ _ Hd')) w1 Hw1) |].
  - intros d' Hd'. rewrite Hv1, lookup_insert_ne; [apply Hv; by right |]. intros E. apply Hd. rewrite E. by apply list_elem_of_fmap_2.
  - intros [] w2 (Hw2 & Hall & Hrest). split; [done |]. split.
    + intros d' [-> | Hd']%elem_of_cons; [| by apply Hall]. destruct Hset as (e & He & Hi). exists e. split; [by rewrite Hrest | done].
    + intros n [Hne Hnin]%not_elem_of_cons. rewrite Hrest by done. rewrite Hv1. by rewrite lookup_insert_ne.
Qed.

Lemma fold_secrets (l : list secret) n : forall st : gmap string secret,
  match fold_left (fun st s => <[s_Name s := s]> st) l st !! n with
  | Some x => (x ∈ l /\ s_Name x = n) \/ st !! n = Some x
  | None => st !! n = None /\ forall x, x ∈ l -> s_Name x <> n
  end.
Proof.
  induction l as [| x l IH]; intros st; cbn [fold_left].
  - destruct (st !! n); [by right |]. split; [done |]. intros y Hy. by apply not_elem_of_nil in Hy.
  - specialize (IH (<[s_Name x := x]> st)). destruct (fold_left _ l _ !! n) as [y |].
    + destruct IH as [[Hy Hn] | Hy]; [left; split; [by right | done] |].
      apply lookup_insert_Some in Hy as [[<- <-] | [_ Hy]]; [left; split; [by left | done] | by right].
    + destruct IH as [Hnone Hall]. apply lookup_insert_None in Hnone as [Hnone Hne]. split; [done |].
      intros y [-> | Hy]%elem_of_cons; [done | by apply Hall].
Qed.

(** What [fetch_bindings] holds of some secrets. *)
Definition bindings_right (s : state) (b : gmap string (list binding)) : Prop :=
  forall n l, b !! n = Some l -> exists e, s !! n = Some e /\ map (fun b => (b_ID b, b_Triple b)) l ≡ₚ map_to_list (e_bindings e).

Lemma ok_fetch_bindings s known ds : forall b w,
  (forall d, d ∈ ds -> tidy (Name d)) -> good w -> view w = s -> bindings_right s b ->
  ok_wp (fetch_bindings r known ds b) (fun b' w' => good w' /\ view w' = s /\ bindings_right s b' /\
    (forall n, is_Some (b !! n) -> is_Some (b' !! n)) /\
    forall d, d ∈ ds -> is_Some (known !! Name d) -> is_Some (b' !! Name d)) w.
Proof.
  induction ds as [| d ds IH]; intros b w Ht Hw Hv Hb; cbn [fetch_bindings].
  { apply ok_Ret. split_and!; [done .. |]. intros d Hd. by apply not_elem_of_nil in Hd. }
  assert (forall d, d ∈ ds -> tidy (Name d)) as Ht' by (intros d' Hd'; apply Ht; by right).
  destruct (known !! Name d) as [x |] eqn:Ek.
  - apply ok_bind. eapply wp_mono; [apply keeper_bindings; [done | apply Ht; by left] |]. intros y w1 (Hw1 & Hv1 & Hl) l ->.
    destruct (Hl l eq_refl) as (e & He & Hp). rewrite Hv in He, Hv1.
    eapply ok_mono; [apply (IH _ w1 Ht' Hw1 Hv1) |].
    + intros n l' [[<- <-] | [_ Hn]]%lookup_insert_Some; [by exists e | by apply Hb].
    + intros b' w2 (Hw2 & Hv2 & Hb' & Hkeep & Hall). split_and!; [done .. | |].
      * intros n Hn. apply Hkeep. destruct (decide (n = Name d)) as [-> |]; [rewrite lookup_insert_eq; eauto | by rewrite lookup_insert_ne].
      * intros d' [-> | Hd']%elem_of_cons Hk; [apply Hkeep; rewrite lookup_insert_eq; eauto | by apply Hall].
  - eapply ok_mono; [apply (IH b w Ht' Hw Hv Hb) |]. intros b' w2 (Hw2 & Hv2 & Hb' & Hkeep & Hall). split_and!; [done .. |].
    intros d' [-> | Hd']%elem_of_cons Hk; [rewrite Ek in Hk; by destruct Hk | by apply Hall].
Qed.

Lemma ok_fetch w : good w -> ok_wp (fetchServerState r m) (fun st w' => good w' /\ view w' = view w /\ fetched (view w) st) w.
Proof.
  intros Hw. apply ok_bind. eapply wp_mono; [by apply keeper_list |]. intros y w1 (Hw1 & Hv1 & Hl) l ->.
  destruct (Hl l eq_refl) as [Hfrom Hto]. set (known := fold_left (fun st s => <[s_Name s := s]> st) l (∅ : gmap string secret)). apply ok_bind.
  assert (forall n, match known !! n with Some x => exists e, view w !! n = Some e /\ describes x e | None => view w !! n = None end) as Hk.
  { intros n. pose proof (fold_secrets l n ∅) as Hf. fold known in Hf. destruct (known !! n) as [x |].
    - destruct Hf as [[Hx <-] | Hx]; [by apply Hfrom | by rewrite lookup_empty in Hx].
    - destruct Hf as [_ Hx]. destruct (view w !! n) as [e |] eqn:He; [| done]. destruct (Hto n e He) as (x & Hin & Hn). by destruct (Hx x Hin). }
  eapply ok_mono; [apply (ok_fetch_bindings (view w) known (Secrets m) ∅ w1 (p_tidy Hm) Hw1 Hv1); intros n l' Hn; by rewrite lookup_empty in Hn |].
  intros b w2 (Hw2 & Hv2 & Hb & _ & Hall). apply ok_Ret. split_and!; [done .. |]. split; [exact Hk |]. intros d e Hd He. cbn [bindings].
  specialize (Hk (Name d)). destruct (known !! Name d) as [x |] eqn:Ex; [| congruence]. destruct (Hall d Hd) as [l' Hl']; [rewrite Ex; eauto |].
  destruct (Hb _ _ Hl') as (e' & He' & Hp). rewrite Hl'. cbn [default]. rewrite He in He'. by injection He' as <-.
Qed.

(** *** What a second plan still holds *)

Lemma filter_none_kept {A} (p : A -> bool) l : (forall x, x ∈ l -> p x = false) -> List.filter p l = [].
Proof.
  induction l as [| x l IH]; intros Hl; [done |]. cbn. rewrite (Hl x (list_elem_of_here _ _)). apply IH. intros y Hy. apply Hl. by right.
Qed.

(** A conflict of types, or labels that are there and not declared. *)
Definition leftover (s : state) (a : Action) : Prop :=
  exists d e, d ∈ Secrets m /\ Secret a = Name d /\ s !! Name d = Some e /\ Kind a = actUpdateSecret /\
    (e_type e <> orKV (Type_ d) \/ (Labels d = None /\ e_labels e <> ∅ /\ MetaFields a = ["labels"%string])).

Lemma settled_plan s st d :
  d ∈ Secrets m -> fetched s st -> settled d s -> Forall (leftover s) (plan_secret st prune d).
Proof.
  intros Hd Hst (e & He & Hi). unfold plan_secret. cbv zeta. pose proof (f_secrets _ _ Hst (Name d)) as Hsec.
  destruct (secrets st !! Name d) as [srv |]; [| congruence]. destruct Hsec as (e' & He' & Ht & Hdesc & Hlab & Hdays).
  rewrite He in He'. injection He' as <-. pose proof (f_bindings _ _ Hst d e Hd He) as Hbind. set (have := default [] _) in *.
  destruct (str_is (s_Type srv) (orKV (Type_ d))) eqn:Et; cbn [negb].
  2: { apply Forall_singleton. exists d, e. apply str_is_ne in Et. split_and!; try done. left. congruence. }
  apply str_is_eq in Et. destruct (Hi ltac:(congruence)) as [I1 I2 I3 I4 I5].
  rewrite (filter_none_kept _ (Bindings d)).
  2: { intros b Hb. apply negb_false_iff, existsb_exists. destruct (I4 b Hb) as [id Hid]. apply elem_of_map_to_list in Hid. rewrite <- Hbind in Hid.
       apply list_elem_of_fmap in Hid as (sb & E & Hsb). injection E as _ E. exists sb. split; [by apply list_elem_of_In | by apply bool_decide_eq_true_2]. }
  assert ((if prune then map (unbind_action d) (List.filter (fun sb => negb (existsb (str_is (join (b_Triple sb))) (map bindingKey (Bindings d)))) have) else []) = []) as ->.
  { destruct prune; [| done]. rewrite filter_none_kept; [done |]. intros sb Hsb. apply negb_false_iff, existsb_exists. exists (join (b_Triple sb)).
    split; [| by apply str_is_eq]. apply list_elem_of_In, (I5 eq_refl). exists (b_ID sb). apply elem_of_map_to_list. rewrite <- Hbind.
    by apply (list_elem_of_fmap_2 (fun b => (b_ID b, b_Triple b))). }
  cbn [map]. rewrite app_nil_r. unfold metaChanges.
  rewrite (proj2 (str_is_eq _ _)), (proj2 (Z.eqb_eq _ _)) by congruence. unfold labelsEqual. case_bool_decide as E; [constructor |].
  apply Forall_singleton. exists d, e. split_and!; try done. right. split_and!; [| | done].
  - destruct (Labels d) eqn:El; [| done]. destruct E. rewrite Hlab, I2; done.
  - destruct (Labels d) eqn:El; [destruct E; rewrite Hlab, I2; done |]. cbn in E. congruence.
Qed.

Lemma ok_converges w :
  good w ->
  ok_wp (apply r (Ok m) prune false false) (fun _ w' => good w' /\ (forall d, d ∈ Secrets m -> settled d (view w')) /\
    (forall n, n ∉ map Name (Secrets m) -> view w' !! n = view w !! n) /\
    ok_wp (plan r m prune) (fun p _ => Forall (leftover (view w')) p) w') w.
Proof.
  intros Hw.
  assert (forall w', good w' -> (forall d, d ∈ Secrets m -> settled d (view w')) -> ok_wp (plan r m prune) (fun p _ => Forall (leftover (view w')) p) w') as Hplan.
  { intros w' Hw' Hset. apply ok_bind. eapply ok_mono; [by apply ok_fetch |]. intros st w2 (_ & _ & Hst). apply ok_Ret. unfold planFromState.
    apply Forall_forall. intros a Ha%list_elem_of_In%in_flat_map. destruct Ha as (d & Hd%list_elem_of_In & Ha%list_elem_of_In).
    pose proof (settled_plan _ st d Hd Hst (Hset d Hd)) as Hall. rewrite Forall_forall in Hall. by apply Hall. }
  unfold apply, plan. apply ok_bind, ok_Ret, ok_bind, ok_bind. eapply ok_mono; [by apply ok_fetch |]. intros st w1 (Hw1 & Hv1 & Hst). apply ok_Ret.
  pose proof (ok_execute_all (view w) st (Secrets m) w1 (p_names Hm) (fun d Hd => Hd) Hst Hw1 (fun d _ => f_equal (fun s => s !! Name d) Hv1)) as Hex.
  rewrite Hv1 in Hex. fold (planFromState m st prune) in Hex. destruct (planFromState m st prune) as [| a p].
  - apply ok_Ret. destruct (Hex tt eq_refl) as (Hw2 & Hset & Hrest). cbn [run fst snd execute] in *. auto.
  - apply ok_bind. eapply ok_mono; [exact Hex |]. intros [] w2 (Hw2 & Hset & Hrest). apply ok_Ret. auto.
Qed.

(** *** What the command never touches *)

(** Undeclared secrets are what they were, and a secret that was there is
    there with its type, and without [prune] with its bindings. *)
Record confined (s s' : state) : Prop := {
  c_others n : n ∉ map Name (Secrets m) -> s' !! n = s !! n;
  c_kept n e : s !! n = Some e -> exists e', s' !! n = Some e' /\ e_type e' = e_type e /\ (prune = false -> e_bindings e ⊆ e_bindings e') }.

Lemma confined_refl s : confined s s.
Proof. split; [done |]. intros n e He. by exists e. Qed.
Lemma confined_trans s1 s2 s3 : confined s1 s2 -> confined s2 s3 -> confined s1 s3.
Proof.
  intros [O1 K1] [O2 K2]. split.
  - intros n Hn. by rewrite O2, O1.
  - intros n e (e2 & He2 & T2 & B2)%K1. destruct (K2 n e2 He2) as (e3 & He3 & T3 & B3). exists e3. split; [done |]. split; [congruence |].
    intros Hp. etrans; [by apply B2 | by apply B3].
Qed.

Lemma confined_insert d s e e' :
  d ∈ Secrets m -> s !! Name d = Some e -> e_type e' = e_type e -> (prune = false -> e_bindings e ⊆ e_bindings e') -> confined s (<[Name d := e']> s).
Proof.
  intros Hd He Ht Hb. split.
  - intros n Hn. apply lookup_insert_ne. intros <-. apply Hn. by apply list_elem_of_fmap_2.
  - intros n e0 He0. destruct (decide (n = Name d)) as [-> | Hne]; [| rewrite lookup_insert_ne by done; by exists e0].
    rewrite lookup_insert_eq. rewrite He in He0. injection He0 as <-. eauto.
Qed.

Lemma wp_moved {A} d (p : M A) (what : string) work w :
  d ∈ Secrets m -> (forall e e', work e e' -> e_type e' = e_type e /\ (prune = false -> e_bindings e ⊆ e_bindings e')) ->
  wp p (fun x w' => good w' /\ moved (Name d) work (view w) x (view w')) w ->
  wp (wrapped what p) (fun _ w' => good w' /\ confined (view w) (view w')) w.
Proof.
  intros Hd Hwork Hp. apply wp_wrapped. eapply wp_mono; [exact Hp |]. intros x w' [Hw' [(e & e' & He & Hw & ->) | [-> _]]]; (split; [done |]).
  - destruct (Hwork e e' Hw). by eapply confined_insert.
  - apply confined_refl.
Qed.

Lemma fields_text d fs c :
  Utf8.text_map (default ∅ (Labels d)) -> Utf8.text_map (default ∅ (mjoin (set_labels c))) ->
  Utf8.text_map (default ∅ (mjoin (set_labels (fold_left (set_field d) fs c)))).
Proof.
  intros Hd. revert c. induction fs as [| f fs IH]; intros c Hc; [done |]. apply IH. unfold set_field.
  destruct (str_is f "description"); [done |]. destruct (str_is f "labels"); [exact Hd |]. by destruct (str_is f "rotationDays").
Qed.

Lemma wp_confined a d w :
  good w -> d ∈ Secrets m -> Secret a = Name d -> (Kind a = actUnbind -> prune = true) ->
  wp (execute_action r m a) (fun _ w' => good w' /\ confined (view w) (view w')) w.
Proof.
  intros Hw Hd Ha Hp. pose proof (p_tidy Hm d Hd) as Ht. pose proof (p_text Hm d Hd) as [_ Hu]. unfold execute_action. rewrite Ha, (declared_found d Hd). destruct (Kind a).
  - apply wp_wrapped. eapply wp_mono; [apply keeper_create; [done | done | by apply (p_text Hm)] |]. intros x w' [Hw' [[Hnone ->] | [-> _]]]; (split; [done |]); [| apply confined_refl].
    split; [intros n Hn; apply lookup_insert_ne; intros <-; apply Hn; by apply list_elem_of_fmap_2 |].
    intros n e He. exists e. split; [| done]. rewrite lookup_insert_ne; [done |]. intros <-. congruence.
  - pose proof (fields_text d (MetaFields a) no_changes Hu Utf8.text_empty) as Hb. revert Hb.
    destruct (fold_left _ _ _) as [[b1 |] [b2 |] [b3 |]]; intros Hb;
      first [by apply wp_Ret; split; [| apply confined_refl] | eapply wp_moved; [exact Hd | | by apply keeper_update]]; by intros e e' ->.
  - destruct (bindingByTriple _ _) as [b |]; [| apply wp_Ret; split; [done | apply confined_refl]].
    eapply wp_moved; [exact Hd | | by apply keeper_bind]. intros e e' (id & Hid & ->). split; [done |]. intros _. by apply fin_maps.insert_subseteq.
  - specialize (Hp eq_refl). apply wp_bind_err, wp_wrapped. eapply wp_mono; [by apply keeper_bindings |].
    intros [l | e] w1 (Hw1 & Hv1 & Hl); [| split; [done | rewrite Hv1; apply confined_refl]].
    destruct (List.find _ l) as [sb |] eqn:Ef; [| apply wp_Ret; split; [done | rewrite Hv1; apply confined_refl]].
    destruct (Hl l eq_refl) as (e & He & Hperm). apply find_some in Ef as [Hin%list_elem_of_In _].
    assert (e_bindings e !! b_ID sb = Some (b_Triple sb)) as Hid.
    { apply elem_of_map_to_list. rewrite <- Hperm. by apply (list_elem_of_fmap_2 (fun b => (b_ID b, b_Triple b))). }
    eapply wp_mono; [eapply (wp_moved d); [exact Hd | | eapply keeper_unbind; [done | by rewrite Hv1 | exact Hid]] |].
    + intros e0 e' ->. split; [done | congruence].
    + intros x w' [Hw' Hc]. by rewrite Hv1 in Hc.
Qed.

Lemma wp_execute_confined p w :
  good w -> (forall a, a ∈ p -> exists d, d ∈ Secrets m /\ Secret a = Name d /\ (Kind a = actUnbind -> prune = true)) ->
  wp (execute r m p) (fun _ w' => good w' /\ confined (view w) (view w')) w.
Proof.
  revert w. induction p as [| a p IH]; intros w Hw Hp; cbn [execute]; [apply wp_Ret; split; [done | apply confined_refl] |].
  destruct (Hp a (list_elem_of_here _ _)) as (d & Hd & Ha & Hu). apply wp_bind_err. eapply wp_mono; [by apply (wp_confined a d) |].
  intros [[] | e] w1 [Hw1 Hc]; [| done]. eapply wp_mono; [apply IH; [done |]; intros b Hb; apply Hp; by right |].
  intros x w2 [Hw2 Hc2]. split; [done |]. by eapply confined_trans.
Qed.

Lemma planned_actions st a : a ∈ planFromState m st prune -> exists d, d ∈ Secrets m /\ Secret a = Name d /\ (Kind a = actUnbind -> prune = true).
Proof.
  intros Ha%list_elem_of_In%in_flat_map. destruct Ha as (d & Hd%list_elem_of_In & Ha). exists d. split; [done |]. revert Ha.
  unfold plan_secret. cbv zeta. destruct (secrets st !! Name d) as [srv |].
  - destruct (negb _); [by intros [<- | []] |]. rewrite !in_app_iff. intros [Ha | [Ha | Ha]].
    + destruct (metaChanges d srv); [done | by destruct Ha as [<- | []]].
    + by apply in_map_iff in Ha as (b & <- & _).
    + destruct prune; [| done]. by apply in_map_iff in Ha as (b & <- & _).
  - intros [<- | (b & <- & _)%in_map_iff]; done.
Qed.

Lemma wp_fetch_bindings known ds b w :
  (forall d, d ∈ ds -> tidy (Name d)) -> good w -> wp (fetch_bindings r known ds b) (fun _ w' => good w' /\ view w' = view w) w.
Proof.
  revert b w. induction ds as [| d ds IH]; intros b w Ht Hw; cbn [fetch_bindings]; [by apply wp_Ret |].
  assert (forall d, d ∈ ds -> tidy (Name d)) as Ht' by (intros d' Hd'; apply Ht; by right).
  destruct (known !! Name d); [| by apply IH]. apply wp_bind_err. eapply wp_mono; [apply keeper_bindings; [done | apply Ht; by left] |].
  intros [bs | e] w1 (Hw1 & Hv1 & _); [| done]. eapply wp_mono; [by apply IH |]. intros x w2 [Hw2 Hv2]. split; [done | congruence].
Qed.

Lemma wp_fetch w : good w -> wp (fetchServerState r m) (fun _ w' => good w' /\ view w' = view w) w.
Proof.
  intros Hw. apply wp_bind_err. eapply wp_mono; [by apply keeper_list |]. intros [l | e] w1 (Hw1 & Hv1 & _); [| done].
  apply wp_bind_err. eapply wp_mono; [apply wp_fetch_bindings; [exact (p_tidy Hm) | exact Hw1] |].
  intros [b | e] w2 [Hw2 Hv2]; [apply wp_Ret |]; (split; [done | congruence]).
Qed.

Lemma wp_apply_confined dryRun json w :
  good w ->
  wp (apply r (Ok m) prune dryRun json) (fun _ w' => good w' /\ confined (view w) (view w') /\ (dryRun || json = true -> view w' = view w)) w.
Proof.
  intros Hw. apply wp_bind_err, wp_Ret, wp_bind_err, wp_bind_err. eapply wp_mono; [by apply wp_fetch |].
  intros [st | e] w1 [Hw1 Hv1]; [apply wp_Ret | split_and!; [done | rewrite Hv1; apply confined_refl | done]].
  assert (good w1 /\ confined (view w) (view w1) /\ (dryRun || json = true -> view w1 = view w)) as Hstill
    by (split_and!; [done | rewrite Hv1; apply confined_refl | done]).
  pose proof (planned_actions st) as Hin. destruct json; [by apply wp_Ret |]. destruct (planFromState m st prune) as [| a p]; [by apply wp_Ret |].
  destruct dryRun; [by apply wp_Ret |]. apply wp_bind_err. eapply wp_mono; [by apply wp_execute_confined |].
  intros [[] | e] w2 [Hw2 Hc]; rewrite Hv1 in Hc; [apply wp_Ret |]; done.
Qed.
End client.

(** ** Manifests that load *)

Lemma NoDup_snoc_swap {A} (x : A) seen l : NoDup (l ++ x :: seen) <-> NoDup (x :: l ++ seen).
Proof. apply NoDup_Permutation_proper. symmetry. apply Permutation_middle. Qed.

Lemma check_bindings_None i name seen bs : NoDup seen -> check_bindings i name seen bs = None -> NoDup (map bindingKey bs ++ seen).
Proof.
  revert seen. induction bs as [| b bs IH]; intros seen Hs; cbn [check_bindings map app]; [done |].
  destruct (existsb _ seen) eqn:E; [done |]. intros Hc. apply NoDup_snoc_swap, IH; [| done]. apply NoDup_cons. split; [| done].
  intros Hin%list_elem_of_In. apply not_true_iff_false in E. apply E, existsb_exists. exists (bindingKey b). split; [done | apply str_is_refl].
Qed.

Lemma check_secrets_None i seen l : NoDup seen -> check_secrets i seen l = None ->
  NoDup (map Name l ++ seen) /\ forall d, d ∈ l -> NoDup (map bindingKey (Bindings d)).
Proof.
  revert i seen. induction l as [| d l IH]; intros i seen Hs; cbn [check_secrets map app].
  - intros _. split; [done |]. intros d Hd. by apply not_elem_of_nil in Hd.
  - destruct (str_is _ ""); [done |]. destruct (existsb _ seen) eqn:E; [done |]. destruct (check_type i d); [done |].
    destruct (check_bindings i (Name d) [] (Bindings d)) eqn:Eb; [done |]. intros Hc. apply IH in Hc as [Hn Hk].
    + split; [by apply NoDup_snoc_swap |]. intros d' [-> | Hd']%elem_of_cons; [| by apply Hk].
      apply check_bindings_None in Eb; [| apply NoDup_nil_2]. by rewrite app_nil_r in Eb.
    + apply NoDup_cons. split; [| done]. intros Hin%list_elem_of_In. apply not_true_iff_false in E. apply E, existsb_exists.
      exists (Name d). split; [done | apply str_is_refl].
Qed.

Lemma orStar_canonical s : orStar (Str.TrimSpace (orStar (Str.TrimSpace s))) = orStar (Str.TrimSpace s).
Proof. unfold orStar. destruct (str_is (Str.TrimSpace s) "") eqn:E; [vm_compute; reflexivity |]. by rewrite TrimSpace_idem, E. Qed.
Lemma canonical_idem b : canonical_binding (canonical_binding b) = canonical_binding b.
Proof. unfold canonical_binding. cbn [Namespace ServiceAccount AuthMethod ExpiresInDays]. by rewrite !orStar_canonical. Qed.

Definition canonical (d : ManifestSecret) : Prop := forall b, b ∈ Bindings d -> canonical_binding b = b.

Section files.
Context (read : string -> result error string) (yaml_manifest : string -> result error Manifest)
        (yaml_list : string -> result error (list ManifestSecret)).

Lemma parsed_canonical path mf d : parseManifest read yaml_manifest yaml_list path = Ok mf -> d ∈ Secrets mf -> canonical d.
Proof.
  unfold parseManifest. destruct (read path) as [data |]; [| done]. set (parsed := match yaml_manifest data with Ok _ => _ | Err _ => _ end).
  destruct parsed as [m0 |]; [| done]. cbn [result_bind]. destruct (nonempty (APIVersion m0) && _); [done |]. cbv zeta.
  destruct (validateManifest _); [done |]. intros [= <-]. cbn [Secrets].
  intros (d0 & -> & _)%list_elem_of_fmap b (b0 & -> & _)%list_elem_of_fmap. apply canonical_idem.
Qed.

Lemma all_canonical files l : all_secrets read yaml_manifest yaml_list files = Ok l -> forall d, d ∈ l -> canonical d.
Proof.
  revert l. induction files as [| f files IH]; intros l El; cbn [all_secrets] in El.
  - injection El as <-. intros d Hd. by apply not_elem_of_nil in Hd.
  - destruct (parseManifest _ _ _ f) as [mf |] eqn:Ef; [| done]. cbn [result_bind] in El. destruct (all_secrets _ _ _ files) as [l' |]; [| done].
    injection El as <-. intros d [Hd | Hd]%elem_of_app; [by eapply parsed_canonical | by eapply IH].
Qed.

Lemma loaded_proper files m :
  manifests read yaml_manifest yaml_list files = Ok m -> (forall d, d ∈ Secrets m -> tidy (Name d)) -> (forall d, d ∈ Secrets m -> text d) -> proper m.
Proof.
  intros Hm. assert (loadManifests read yaml_manifest yaml_list files = Ok m) as Hload by (by destruct files). clear Hm. revert Hload.
  unfold loadManifests. destruct (all_secrets read yaml_manifest yaml_list files) as [l |] eqn:El; [| done]. cbn [result_bind]. cbv zeta.
  destruct (validateManifest _) eqn:Ev; [done |]. intros [= <-] Ht Hu. cbn [Secrets] in *.
  pose proof (all_canonical files l El) as Hc.
  destruct l as [| d0 l0]; [done |]. set (l := d0 :: l0) in *.
  destruct (check_secrets_None 0 [] l (NoDup_nil_2) Ev) as [Hn Hk]. rewrite app_nil_r in Hn. split; try done.
  intros d b Hd Hb. by apply (Hc d).
Qed.
End files.
End ApplyFacts.
