(* ===== verification/ApplyServer.v ===== *)
(** * The goca server under gocactl apply

    [goca_keeps]: through its REST handlers, gate included, the server does for
    the commands what [ApplySpec.Keeper] asks; and the commands against it,
    end to end. *)

From S2P Require Import Prelude GoStrings Utf8Facts Glob Effects Models Schema SqlFacts TableFacts Store Pki Sealing CaService SecretStore Auth Gate Vault Downloads AcmeService AcmeProtocol Api Secrets Apply AuthFacts VaultFacts AuditFacts K8sFacts SecretFacts ApplyFacts Sample.

Module ApplyServer.
Import SecretStore Http Api Apply ApplySpec.

#[local] Arguments String.append : simpl never.

(** ** The view of a database *)

Definition binding_entry (b : SecretBinding.t) : Z * triple :=
  (SecretBinding.ID b, (SecretBinding.K8sNamespace b, SecretBinding.K8sServiceAccount b, SecretBinding.K8sAuthMethod_ b)).
Definition bindings_of (d : db) (id : Z) : list SecretBinding.t :=
  select_where (fun b => (SecretBinding.SecretID b =? id)%Z) (rows (d Schema.SecretBindings)).
Definition entry_of (d : db) (s : Secret.t) : entry :=
  mkEntry (Secret.Type_ s) (Secret.Description s) (Labels.Labels s) (Secret.RotationDays s)
    (list_to_map (map binding_entry (bindings_of d (Secret.ID s)))).
Definition server_view (w : world) : state :=
  list_to_map (map (fun s => (Secret.Name s, entry_of (w_db w) s)) (rows (w_db w Schema.Secrets))).

Definition vault_tables : list table_name := [Schema.Secrets; Schema.SecretBindings].

Lemma view_lookup w k : server_view w !! k = option_map (entry_of (w_db w)) (VaultFacts.find_secret (w_db w) k).
Proof.
  unfold server_view, VaultFacts.find_secret. generalize (entry_of (w_db w)). intros g. induction (rows (w_db w Schema.Secrets)) as [| s l IH]; [done |].
  cbn [map List.find]. rewrite list_to_map_cons. destruct (str_is (Secret.Name s) k) eqn:E.
  - apply str_is_eq in E as ->. by rewrite lookup_insert_eq.
  - apply str_is_ne in E. by rewrite lookup_insert_ne.
Qed.

Lemma view_keeps w w' : keeps vault_tables (w_db w) (w_db w') -> server_view w' = server_view w.
Proof.
  intros Hk. assert (w_db w' Schema.Secrets = w_db w Schema.Secrets) as Hs by (apply Hk; by left).
  assert (w_db w' Schema.SecretBindings = w_db w Schema.SecretBindings) as Hb by (apply Hk; right; by left).
  unfold server_view, entry_of, bindings_of. by rewrite Hs, Hb.
Qed.

Lemma find_row w s : sound w -> s ∈ rows (w_db w Schema.Secrets) -> VaultFacts.find_secret (w_db w) (Secret.Name s) = Some s.
Proof.
  intros [_ Hv] Hs. destruct (find_elem (fun x => str_is (Secret.Name x) (Secret.Name s)) _ s Hs (str_is_refl _)) as [y Hy].
  unfold VaultFacts.find_secret. rewrite Hy. f_equal. apply find_some in Hy as [Hin%list_elem_of_In Hn%str_is_eq].
  apply (VaultFacts.secret_unique (w_db w)); auto.
Qed.

Lemma binding_ids w id : sound w -> NoDup (map fst (map binding_entry (bindings_of (w_db w) id))).
Proof.
  intros [_ Hv]. rewrite map_map. cbn [binding_entry fst]. apply (violated_clashes _ Schema.SecretBindings) in Hv.
  unfold bindings_of. revert Hv. induction (rows (w_db w Schema.SecretBindings)) as [| b l IH]; [constructor |].
  cbn [clashes]. intros [Hb Hl]%orb_false_iff. unfold select_where in *. cbn [List.filter]. destruct (_ =? id)%Z; [| by apply IH].
  cbn [map]. apply NoDup_cons. split; [| by apply IH]. intros (y & Hy & Hin)%list_elem_of_fmap.
  apply not_true_iff_false in Hb. apply Hb, existsb_exists. exists y. split; [apply list_elem_of_In in Hin; by apply filter_In in Hin as [Hin _] |].
  cbn. rewrite Hy. apply Z.eqb_refl.
Qed.

Lemma bindings_list w id : sound w -> map_to_list (list_to_map (M := gmap Z triple) (map binding_entry (bindings_of (w_db w) id))) ≡ₚ map binding_entry (bindings_of (w_db w) id).
Proof. intros Hw. by apply map_to_list_to_map, binding_ids. Qed.

(** One secret changes. *)
Lemma view_one w w' name s' :
  (forall k, k <> name -> VaultFacts.find_secret (w_db w') k = VaultFacts.find_secret (w_db w) k) ->
  (forall x, x ∈ rows (w_db w Schema.Secrets) -> Secret.Name x <> name -> bindings_of (w_db w') (Secret.ID x) = bindings_of (w_db w) (Secret.ID x)) ->
  VaultFacts.find_secret (w_db w') name = Some s' ->
  server_view w' = <[name := entry_of (w_db w') s']> (server_view w).
Proof.
  intros Hfind Hb Hs. apply map_eq. intros k. rewrite view_lookup. destruct (decide (k = name)) as [-> | Hne].
  - by rewrite lookup_insert_eq, Hs.
  - rewrite lookup_insert_ne, view_lookup, Hfind by done. destruct (VaultFacts.find_secret (w_db w) k) as [x |] eqn:Ex; [| done].
    apply VaultFacts.find_secret_Some in Ex as [Hx Hn]. simpl. unfold entry_of. rewrite Hb; [done | done | congruence].
Qed.

Section server.
Context `{Std : Pki.Std} `{Ciphers} `{Auth.Passwords} `{RowOrder} `{Gate.Net}.
Context (vault : Pqcrypt.Vault) (master : string) (has_ca : bool) (g : Gate.Request) (ip : string).

(** ** A call *)

Lemma beside_gate : beside vault_tables (Gate.apiAuth true g).
Proof. split; guar_walk ltac:(frame). Qed.
Lemma beside_vault_audit actor action target detail : beside vault_tables (Vault.audit actor action target detail).
Proof. split; guar_walk ltac:(frame). Qed.

Lemma wp_call {A} (f : json -> option A) id rt (Q : result error A -> world -> Prop) w :
  sound w -> (forall e w', sound w' -> server_view w' = server_view w -> Q (Err e) w') ->
  (forall u tok w1, sound w1 -> server_view w1 = server_view w ->
     wp (SecretsApi.handler vault master has_ca rt (mkCall u tok ip id "")) (fun x w' => Q (response f (SecretFacts.answered x)) w') w1) ->
  wp (received f (call vault master has_ca g ip id rt)) Q w.
Proof.
  intros Hw He Hh. apply wp_bind, wp_bind. eapply wp_beside; [apply beside_gate | done |]. intros v w1 Hw1 _ Hk.
  apply view_keeps in Hk. destruct v as [next | | | st msg | u t]; try (apply wp_Ret, wp_Ret; by apply He).
  apply wp_bind. eapply wp_mono; [by apply (Hh u t) |]. intros [a | a] w' Ha; by apply wp_Ret, wp_Ret.
Qed.

Lemma wp_lookup name r (k : Secret.t -> API reply) (Q : result reply reply -> world -> Prop) w :
  sound w -> tidy name -> path_id r = name ->
  (forall st msg, Q (Err (Failed st msg)) w) ->
  (forall s, VaultFacts.find_secret (w_db w) name = Some s -> wp (k s) Q w) ->
  wp (sec <-! SecretsApi.secretByPathID r ;; k sec)%prog Q w.
Proof.
  intros Hw (Ht & Hne & Hp) Hr Hnone Hsome. apply wp_bind. unfold SecretsApi.secretByPathID. rewrite Hr, (proj2 (str_is_ne _ _) Hne), Hp.
  apply wp_bind. unfold Vault.Get, Vault.normalizeName. rewrite Ht. apply wp_row_sound; [done |].
  change (select1 Schema.Secrets (fun s => str_is (Secret.Name s) name) (w_db w)) with (VaultFacts.find_secret (w_db w) name).
  destruct (VaultFacts.find_secret (w_db w) name) as [s |]; apply wp_Ret; [by apply Hsome | apply wp_Ret, Hnone].
Qed.

Lemma wp_respond st sec (Q : result reply reply -> world -> Prop) w :
  sound w -> (forall v w', sound w' -> w_db w' = w_db w -> Q (Ok (Json st (JSecret v))) w') -> wp (SecretsApi.respond st sec) Q w.
Proof. intros Hw HQ. apply wp_bind, wp_bind, wp_now_sound; [done |]. intros t w' Hw' Hd _. apply wp_Ret, wp_Ret. by apply HQ. Qed.

Lemma view_db w w' : w_db w' = w_db w -> server_view w' = server_view w.
Proof. unfold server_view. by intros ->. Qed.
Lemma view_entry w name s : VaultFacts.find_secret (w_db w) name = Some s -> server_view w !! name = Some (entry_of (w_db w) s).
Proof. intros Hs. by rewrite view_lookup, Hs. Qed.

(** ** Reading *)

Lemma wp_views secs (Q : list secret_view -> world -> Prop) w :
  sound w -> (forall vs w', sound w' -> w_db w' = w_db w -> map remote_secret vs = map (fun s => mkRemoteSecret (Secret.Name s) (Secret.Type_ s)
    (Secret.Description s) (Labels.Labels s) (Secret.RotationDays s)) secs -> Q vs w') -> wp (SecretsApi.newSecretResponses secs) Q w.
Proof.
  revert Q w. induction secs as [| s secs IH]; intros Q w Hw HQ; cbn [SecretsApi.newSecretResponses]; [by apply wp_Ret, HQ |].
  apply wp_bind, wp_bind, wp_now_sound; [done |]. intros t w1 Hw1 Hd1 _. apply wp_Ret, wp_bind, IH; [done |].
  intros vs w2 Hw2 Hd2 Hvs. apply wp_Ret, HQ; [done | congruence |]. cbn [map]. by rewrite Hvs.
Qed.

Lemma goca_lists w : sound w ->
  wp (ListSecrets (goca_remote vault master has_ca g ip)) (fun x w' => sound w' /\ server_view w' = server_view w /\ forall l, x = Ok l ->
    (forall s, s ∈ l -> exists e, server_view w !! s_Name s = Some e /\ describes s e) /\
    (forall n e, server_view w !! n = Some e -> exists s, s ∈ l /\ s_Name s = n)) w.
Proof.
  intros Hw. apply wp_call; [done | done |]. intros u tok w1 Hw1 Hv1. apply wp_bind, wp_bind, wp_query_sound; [done |]. apply wp_Ret, wp_bind, wp_views; [done |].
  intros vs w2 Hw2 Hd2 Hvs. apply wp_Ret. cbn [SecretFacts.answered response]. split; [done |]. split; [rewrite <- Hv1; by apply view_db |].
  intros l [= <-]. rewrite Hvs, <- Hv1. clear Hvs vs. unfold select. cbn [str_is String.eqb orb].
  assert (forall s, s ∈ order_by (fun a b => Store.str_le (Secret.Name a) (Secret.Name b)) (select_where (fun _ : row Schema.Secrets => true) (rows (w_db w1 Schema.Secrets)))
    <-> s ∈ rows (w_db w1 Schema.Secrets)) as Hin by (intros s; rewrite order_by_perm, elem_of_select_where; tauto).
  split.
  - intros x (s & -> & Hs%Hin)%list_elem_of_fmap. exists (entry_of (w_db w1) s). split; [by apply view_entry, find_row | done].
  - intros n e. rewrite view_lookup. destruct (VaultFacts.find_secret (w_db w1) n) as [s |] eqn:Es; [| done]. intros _.
    apply VaultFacts.find_secret_Some in Es as [Hs <-]. eexists. split; [by apply list_elem_of_fmap_2, Hin | done].
Qed.

Lemma goca_lists_bindings name w : sound w -> tidy name ->
  wp (SecretBindings (goca_remote vault master has_ca g ip) name) (fun x w' => sound w' /\ server_view w' = server_view w /\ forall l, x = Ok l ->
    exists e, server_view w !! name = Some e /\ map (fun b => (b_ID b, b_Triple b)) l ≡ₚ map_to_list (e_bindings e)) w.
Proof.
  intros Hw Ht. apply wp_call; [done | done |]. intros u tok w1 Hw1 Hv1. eapply wp_lookup; [done | exact Ht | done | by intros |].
  intros s Hs. pose proof (VaultFacts.find_secret_Some _ _ _ Hs) as [_ Hn]. apply wp_bind, wp_bind. unfold Vault.Bindings, Vault.normalizeName.
  rewrite Hn, (proj1 Ht). apply VaultFacts.wp_by_name; [done | congruence |]. intros s' Hs'. rewrite Hs in Hs'. injection Hs' as <-.
  apply wp_query_sound; [done |]. apply wp_Ret, wp_Ret. cbn [SecretFacts.answered response]. split_and!; [done | done |]. intros l [= <-].
  exists (entry_of (w_db w1) s). split; [rewrite <- Hv1; by apply view_entry |]. cbn [e_bindings entry_of]. rewrite bindings_list by done.
  unfold bindings_of, select. rewrite !map_map. rewrite (map_ext _ binding_entry) by done. by rewrite order_by_perm.
Qed.

(** ** Writing *)

(** Labels read back from what is stored. *)
Lemma stored_labels s m : Utf8.text_map m -> Secret.LabelsJSON s = nz (Vault.EncodeLabels m) "{}" -> Labels.Labels s = m.
Proof.
  intros Hm Hs. apply SecretFacts.labels_roundtrip; [done |]. rewrite Hs. unfold nz. destruct (nonempty _) eqn:E; [done |]. exfalso.
  unfold Vault.EncodeLabels in E. case_bool_decide; [by vm_compute in E |]. revert E. generalize (Str.Join (map (fun '(k, v) => (Store.json_string k +:+ ":" +:+ Store.json_string v)%go)
    (order_by (fun a b => Store.str_le (fst a) (fst b)) (map_to_list m))) ","). intros t.
  unfold Str.TrimSpace, Str.trim_func. change (Str.trim_left Str.is_space ("{" +:+ ?x)%go) with (String "{" x).
  by destruct (trim_right_head Str.is_space "{" (t +:+ "}")%go eq_refl) as [t' ->].
Qed.

(** What an audited change leaves is in view, whatever is read back. *)
Lemma wp_records (actor action target detail : string) {A} (k : M A) (Q : result error A -> world -> Prop) w :
  sound w -> (forall w', sound w' -> keeps vault_tables (w_db w) (w_db w') -> server_view w' = server_view w -> wp k Q w') ->
  wp (Vault.audit actor action target detail ;;; k)%prog Q w.
Proof.
  intros Hw Hk. apply wp_bind. eapply wp_beside; [apply beside_vault_audit | done |]. intros _ w' Hw' _ Hkeep.
  apply Hk; [done | done | by apply view_keeps].
Qed.

Lemma goca_updates name c w : sound w -> tidy name -> Utf8.text_map (default ∅ (mjoin (set_labels c))) ->
  wp (UpdateSecret (goca_remote vault master has_ca g ip) name c)
    (fun x w' => sound w' /\ moved name (revised c) (server_view w) x (server_view w')) w.
Proof.
  intros Hw Ht Hu. apply wp_call; [done | intros e w' Hw' ->; split; [done | by right] |].
  intros u tok w1 Hw1 <-. eapply wp_lookup; [done | exact Ht | done | by intros; split; [| right] |].
  intros s Hs. pose proof (VaultFacts.find_secret_Some _ _ _ Hs) as [Hin Hn]. apply wp_bind, wp_Ret. cbn [decodeJSON].
  set (b := SecretsApi.mkUpdate _ _ _). set (labels := default (Labels.Labels s) (SecretsApi.ub_Labels b)).
  assert (Utf8.text_map labels) as Hl.
  { unfold labels, b. cbn [SecretsApi.ub_Labels]. destruct (mjoin _) as [l |]; [exact Hu | apply SecretFacts.Labels_text]. }
  apply wp_bind, wp_bind. unfold Vault.UpdateMeta, Vault.normalizeName. rewrite Hn, (proj1 Ht).
  apply VaultFacts.wp_by_name; [done | congruence |]. intros s' Hs'. rewrite Hs in Hs'. injection Hs' as <-.
  apply wp_bind, wp_bind, wp_now_sound; [done |]. intros now w2 Hw2 Hd2 _. rewrite <- (view_db w1 w2 Hd2). rewrite <- Hd2 in Hs, Hin. clear Hd2 Hw1 w1.
  eapply (wp_update_hit Schema.Secrets); [done | exact Hin | apply Z.eqb_refl | rewrite violated_update by done; apply Hw2 |]. intros Hw3.
  set (f := Secret.set_Meta _ _ _ _). set (w3 := with_db _ w2) in *.
  assert (moved (A := unit) name (revised c) (server_view w2) (Ok tt) (server_view w3)) as Hmove.
  { left. exists (entry_of (w_db w2) s), (entry_of (w_db w3) (f s)). split; [by apply view_entry |]. split.
    - unfold revised, entry_of. cbn [e_type e_description e_labels e_days e_bindings]. rewrite (stored_labels (f s) labels Hl eq_refl).
      unfold bindings_of, w3. cbn [with_db w_db]. by rewrite update_ne.
    - assert (forall k, VaultFacts.find_secret (w_db w3) k = option_map (fun x => if secret_id (Secret.ID s) x then f x else x) (VaultFacts.find_secret (w_db w2) k)) as Hfind.
      { intros k. unfold VaultFacts.find_secret, w3. cbn [with_db w_db]. rewrite update_eq. by apply find_update_where. }
      apply view_one.
      + intros k Hk. rewrite Hfind. destruct (VaultFacts.find_secret (w_db w2) k) as [x |] eqn:Ex; [| done]. simpl. unfold secret_id.
        destruct (Z.eqb_spec (Secret.ID x) (Secret.ID s)) as [E |]; [| done]. apply VaultFacts.find_secret_Some in Ex as [Hx Hnx].
        assert (x = s) as -> by (apply (VaultFacts.secret_unique (w_db w2)); [apply Hw2 | done | done | by left]). congruence.
      + intros x _ _. unfold bindings_of, w3. cbn [with_db w_db]. by rewrite update_ne.
      + rewrite Hfind, Hs. simpl. unfold secret_id. by rewrite Z.eqb_refl. }
  clearbody w3. apply wp_records; [done |]. intros w4 Hw4 _ Hv4. rewrite <- Hv4 in Hmove. apply wp_row_sound; [done |]. apply wp_Ret.
  assert (forall x : result error unit, moved name (revised c) (server_view w2) x (server_view w4)) as Hany
    by (intros x; destruct Hmove as [Hm | [_ Hm]]; [by left | done]).
  destruct (select1 _ _ _) as [s' |]; [| apply wp_Ret; split; [done | apply Hany]].
  apply wp_respond; [done |]. intros v w5 Hw5 Hd5. split; [done |]. rewrite (view_db w4 w5 Hd5). apply Hany.
Qed.

(** A new row is the one its name finds, and nothing is bound to it yet. *)
Lemma view_created w row name (w' := with_db (snd (insert Schema.Secrets row (w_db w))) w) :
  sound w -> violated (w_db w') = None -> (forall id, Secret.ID (row id) = id /\ Secret.Name (row id) = name) ->
  server_view w !! name = None /\ exists id, server_view w' = <[name := entry_of (w_db w') (row id)]> (server_view w) /\ bindings_of (w_db w') id = [].
Proof.
  intros Hw Hv' Hrow. set (id := (seq (w_db w Schema.Secrets) + 1)%Z). destruct (Hrow id) as [Hid Hname].
  assert (forall x, x ∈ rows (w_db w Schema.Secrets) -> Secret.ID x <> id /\ Secret.Name x <> name) as Hnew.
  { intros x Hx. apply Decidable.not_or. intros Hc. eapply (violated_insert_clash Schema.Secrets row (w_db w) x Hx); [| exact Hv'].
    fold id. cbn [clash]. rewrite Hid, Hname. apply orb_true_iff. destruct Hc as [-> | ->]; [left; apply Z.eqb_refl | right; apply str_is_refl]. }
  assert (VaultFacts.find_secret (w_db w) name = None) as Hnone.
  { destruct (VaultFacts.find_secret (w_db w) name) as [x |] eqn:Ex; [| done]. apply VaultFacts.find_secret_Some in Ex as [Hx Hn]. by destruct (Hnew x Hx). }
  split; [by rewrite view_lookup, Hnone |]. exists id. split.
  - apply view_one.
    + intros k Hk. unfold VaultFacts.find_secret, w'. cbn [with_db w_db]. rewrite insert_eq. cbn [rows]. fold id.
      induction (rows (w_db w Schema.Secrets)) as [| x l IH]; cbn [List.find app].
      * rewrite Hname. by rewrite (proj2 (str_is_ne name k)) by congruence.
      * destruct (str_is (Secret.Name x) k); [done |]. apply IH. intros y Hy. apply Hnew. by right.
    + intros x _ _. unfold bindings_of, w'. cbn [with_db w_db]. by rewrite insert_ne.
    + unfold VaultFacts.find_secret, w' in *. cbn [with_db w_db]. rewrite insert_eq. cbn [rows]. fold id. revert Hnone.
      induction (rows (w_db w Schema.Secrets)) as [| x l IH]; cbn [List.find app]; [by rewrite Hname, str_is_refl |].
      destruct (str_is (Secret.Name x) name); [done |]. apply IH. intros y Hy. apply Hnew. by right.
  - unfold bindings_of, w'. cbn [with_db w_db]. rewrite insert_ne by done. apply ApplyFacts.filter_none_kept. intros b Hb.
    destruct (Z.eqb_spec (SecretBinding.SecretID b) id) as [Hb' |]; [| done]. exfalso.
    destruct (proj2 (proj1 (violated_None (w_db w)) (proj2 Hw)) (FKey Schema.SecretBindings (fun b => Some (SecretBinding.SecretID b)) Schema.Secrets true)
      ltac:(unfold fkeys; repeat (first [left; reflexivity | right])) b id Hb ltac:(cbn; by rewrite Hb')) as (x & Hx & Hxi).
    by destruct (Hnew x Hx).
Qed.

Lemma goca_creates d w : sound w -> tidy (Name d) -> Utf8.text_map (default ∅ (Labels d)) ->
  wp (CreateSecret (goca_remote vault master has_ca g ip) d) (fun x w' => sound w' /\
    ((server_view w !! Name d = None /\ server_view w' = <[Name d := new_entry d]> (server_view w)) \/ (server_view w' = server_view w /\ is_ok x = false))) w.
Proof.
  intros Hw (Ht & Hne & _) Hu. apply wp_call; [done | intros e w' Hw' ->; split; [done | by right] |].
  intros u tok w1 Hw1 <-. apply wp_bind, wp_Ret. cbn [decodeJSON]. apply wp_bind, wp_bind. unfold Vault.Create, Vault.normalizeName.
  cbn [Vault.in_Name SecretsApi.create_as]. rewrite Ht, (proj2 (str_is_ne _ _) Hne). cbv zeta. cbn [Vault.in_Type SecretsApi.create_as Vault.in_CertID].
  assert (str_is (orKV (Type_ d)) "" = false) as -> by (unfold orKV; by destruct (str_is (Type_ d) "") eqn:E).
  assert (forall e, sound w1 /\ ((server_view w1 !! Name d = None /\ server_view w1 = <[Name d := new_entry d]> (server_view w1)) \/
    (server_view w1 = server_view w1 /\ is_ok (response done (SecretFacts.answered (Err (SecretsApi.refused e)))) = false))) as Hrefused by (intros e; split; [done | by right]).
  apply wp_bind. unfold Vault.check_type. destruct (str_is (orKV (Type_ d)) SecretTypeKV || str_is (orKV (Type_ d)) SecretTypeFile) eqn:Ety.
  2: { destruct (str_is (orKV (Type_ d)) SecretTypeCertificate); apply wp_Ret, wp_Ret, wp_Ret, wp_Ret, Hrefused. }
  assert (nz (orKV (Type_ d)) SecretTypeKV = orKV (Type_ d)) as Hnz by (apply orb_true_iff in Ety as [E%str_is_eq | E%str_is_eq]; by rewrite E).
  apply wp_Ret, wp_bind, wp_bind, wp_now_sound; [done |]. intros now w2 Hw2 Hd2 _. rewrite <- (view_db w1 w2 Hd2). clear Hrefused Hd2 Hw1 w1. cbv zeta.
  apply wp_bind, wp_sql_any; [done | | intros c _; apply wp_Ret, wp_Ret, wp_Ret, wp_Ret; split; [done | by right]]. intros Hv3 Hw3.
  match goal with |- context [insert Schema.Secrets ?f] => set (row := f) in * end.
  destruct (view_created w2 row (Name d) Hw2 Hv3 ltac:(by intros id)) as (Hnone & id & Hview & Hbound). set (w3 := with_db _ w2) in *.
  assert (entry_of (w_db w3) (row id) = new_entry d) as Hentry.
  { unfold entry_of, new_entry. rewrite (stored_labels (row id) (default ∅ (Labels d)) Hu eq_refl).
    change (Secret.ID (row id)) with id. rewrite Hbound. cbn [map list_to_map]. f_equal. exact Hnz. }
  rewrite Hentry in Hview. clearbody w3. clear Hentry Hbound.
  apply wp_row_sound; [done |]. destruct (select1 _ _ _) as [s' |]; [| apply wp_Ret, wp_Ret, wp_Ret; split; [done | by left]].
  apply wp_records; [done |]. intros w4 Hw4 _ Hv4. rewrite <- Hv4 in Hview. apply wp_Ret, wp_Ret.
  apply wp_respond; [done |]. intros v w5 Hw5 Hd5. split; [done |]. left. by rewrite (view_db w4 w5 Hd5).
Qed.

(** The bindings of one secret change. *)
Lemma view_rebound w w' name s b :
  w_db w' Schema.Secrets = w_db w Schema.Secrets -> sound w -> VaultFacts.find_secret (w_db w) name = Some s ->
  (forall i, i <> Secret.ID s -> bindings_of (w_db w') i = bindings_of (w_db w) i) ->
  list_to_map (map binding_entry (bindings_of (w_db w') (Secret.ID s))) = b ->
  server_view w' = <[name := with_bindings b (entry_of (w_db w) s)]> (server_view w).
Proof.
  intros Hs Hw Hf Hother <-. assert (VaultFacts.find_secret (w_db w') = VaultFacts.find_secret (w_db w)) as Hfind
    by (unfold VaultFacts.find_secret; by rewrite Hs).
  rewrite (view_one w w' name s); [done | by intros; rewrite Hfind | | by rewrite Hfind]. intros x Hx Hn. apply Hother. intros Hid.
  apply VaultFacts.find_secret_Some in Hf as [Hin Hname]. apply Hn. rewrite <- Hname. f_equal.
  apply (VaultFacts.secret_unique (w_db w)); [apply Hw | done | done | by left].
Qed.

Lemma nzGlob_kept v : nz (Vault.nzGlob v) "*" = Vault.nzGlob v.
Proof.
  unfold nz. destruct (nonempty (Str.TrimSpace (Vault.nzGlob v))) eqn:E; [done |]. revert E. unfold Vault.nzGlob.
  destruct (str_is (Str.TrimSpace v) "") eqn:Ev; [done |]. rewrite TrimSpace_idem. apply str_is_ne in Ev. by destruct (Str.TrimSpace v).
Qed.

Lemma view_bound w row name s b (w' := with_db (snd (insert Schema.SecretBindings row (w_db w))) w) :
  sound w -> violated (w_db w') = None -> VaultFacts.find_secret (w_db w) name = Some s ->
  (forall id, binding_entry (row id) = (id, glob_of b) /\ SecretBinding.SecretID (row id) = Secret.ID s) ->
  exists e e', server_view w !! name = Some e /\ bound b e e' /\ server_view w' = <[name := e']> (server_view w).
Proof.
  intros Hw Hv' Hs Hrow. set (id := (seq (w_db w Schema.SecretBindings) + 1)%Z). destruct (Hrow id) as [Hb Hsid].
  set (l := map binding_entry (bindings_of (w_db w) (Secret.ID s))).
  assert (id ∉ l.*1) as Hfresh.
  { intros (p & E & Hp)%list_elem_of_fmap. apply list_elem_of_fmap in Hp as (x & -> & Hx). apply elem_of_select_where in Hx as [Hx _].
    eapply (violated_insert_clash Schema.SecretBindings row (w_db w) x Hx); [| exact Hv']. fold id. cbn [clash].
    apply (f_equal fst) in Hb. cbn in Hb. rewrite Hb. apply Z.eqb_eq. by rewrite E. }
  exists (entry_of (w_db w) s), (with_bindings (<[id := glob_of b]> (e_bindings (entry_of (w_db w) s))) (entry_of (w_db w) s)).
  split; [by apply view_entry |]. split; [exists id; split; [by apply not_elem_of_list_to_map_1 | done] |].
  apply (view_rebound _ _ _ s); [unfold w'; cbn [with_db w_db]; by rewrite insert_ne | done | done | |].
  - intros i Hi. unfold bindings_of, w', select_where. cbn [with_db w_db]. rewrite insert_eq. cbn [rows]. rewrite List.filter_app. cbn [List.filter].
    fold id. rewrite Hsid, (proj2 (Z.eqb_neq _ _)) by congruence. apply app_nil_r.
  - unfold bindings_of, w', select_where. cbn [with_db w_db]. rewrite insert_eq. cbn [rows]. rewrite List.filter_app. cbn [List.filter].
    fold id. rewrite Hsid, Z.eqb_refl, map_app. cbn [map]. rewrite Hb. by apply list_to_map_snoc.
Qed.

Lemma goca_binds name b w : sound w -> tidy name ->
  wp (BindSecret (goca_remote vault master has_ca g ip) name b)
    (fun x w' => sound w' /\ moved name (bound b) (server_view w) x (server_view w')) w.
Proof.
  intros Hw Ht. apply wp_call; [done | intros e w' Hw' ->; split; [done | by right] |].
  intros u tok w1 Hw1 <-. eapply wp_lookup; [done | exact Ht | done | by intros; split; [| right] |].
  intros s Hs. pose proof (VaultFacts.find_secret_Some _ _ _ Hs) as [Hin Hn]. apply wp_bind, wp_Ret. cbn [decodeJSON].
  cbn [SecretsApi.bi_ExpiresInDays SecretsApi.bi_K8sNamespace SecretsApi.bi_K8sServiceAccount SecretsApi.bi_K8sAuthMethod].
  assert (beside vault_tables (SecretsApi.expiry (ExpiresInDays b))) as Hexp by (split; guar_walk ltac:(frame)).
  apply wp_bind. eapply wp_beside; [exact Hexp | done |]. intros expires w2 Hw2 _ Hk2. rewrite <- (view_keeps w1 w2 Hk2).
  assert (VaultFacts.find_secret (w_db w2) name = Some s) as Hs2 by (unfold VaultFacts.find_secret; rewrite (Hk2 Schema.Secrets) by (by left); exact Hs).
  clear Hs Hk2 Hw1 Hin w1. apply wp_bind, wp_bind. unfold Vault.Bind, Vault.normalizeName. rewrite Hn, (proj1 Ht).
  apply VaultFacts.wp_by_name; [done | congruence |]. intros s' Hs'. rewrite Hs2 in Hs'. injection Hs' as <-. cbv zeta.
  destruct (Vault.bad_pattern "namespace" _); [apply wp_Ret, wp_Ret, wp_Ret; split; [done | by right] |].
  destruct (Vault.bad_pattern "service account" _); [apply wp_Ret, wp_Ret, wp_Ret; split; [done | by right] |].
  destruct (Vault.bad_pattern "auth method" _); [apply wp_Ret, wp_Ret, wp_Ret; split; [done | by right] |].
  apply wp_bind, wp_bind, wp_now_sound; [done |]. intros now w3 Hw3 Hd3 _. rewrite <- (view_db w2 w3 Hd3). rewrite <- Hd3 in Hs2. clear Hd3 Hw2 w2.
  apply wp_bind, wp_sql_any; [done | | intros c _; apply wp_Ret, wp_Ret, wp_Ret, wp_Ret; split; [done | by right]]. intros Hv4 Hw4.
  match goal with |- context [insert Schema.SecretBindings ?f] => set (row := f) in * end.
  destruct (view_bound w3 row name s b Hw3 Hv4 Hs2) as (e & e' & He & Hbd & Hv').
  { intros id. split; [| done]. unfold binding_entry, row, binding_row, glob_of. cbn. by rewrite !nzGlob_kept. }
  set (w4 := with_db _ w3) in *. clearbody w4. assert (forall A (x : result error A), moved name (bound b) (server_view w3) x (server_view w4)) as Hmove by (left; eauto).
  clear Hv'. apply wp_bind, wp_query_sound; [done |].
  destruct (option_map _ _) as [x |]; apply wp_Ret; [| apply wp_Ret, wp_Ret; split; [done | apply Hmove]].
  apply wp_records; [done |]. intros w5 Hw5 _ Hv5. apply wp_Ret, wp_Ret, wp_Ret. split; [done |]. rewrite Hv5. apply Hmove.
Qed.

(** The number in the path is the one that was printed. *)
Lemma ParseInt_itoa id k : AcmeProtocol.ParseInt (Str.itoa id) = Some k -> k = id.
Proof.
  assert (forall p, let s := pretty_N_go (N.pos p) "" in
    AcmeService.all_digits s = true /\ CaService.digits_value s 0 = Some (Z.pos p) /\ str_is s "" = false) as Hpos.
  { intros p s. assert (CaService.digits_value s 0 = Some (Z.pos p)) as Hv by (unfold s; by rewrite AuditFacts.digits_value_go).
    split_and!; [by apply AuditFacts.pretty_go_digits | done |]. apply str_is_ne. intros E. rewrite E in Hv. cbn in Hv. congruence. }
  destruct id as [| p | p].
  - vm_compute. by intros [= <-].
  - change (Str.itoa (Z.pos p)) with (pretty_N_go (N.pos p) ""). destruct (Hpos p) as (Hd & Hv & Hne). clear Hpos.
    set (s := pretty_N_go (N.pos p) "") in *. clearbody s. unfold AcmeProtocol.ParseInt.
    assert (match s with String "-" r => (true, r) | String "+" r => (false, r) | _ => (false, s) end = (false, s)) as ->.
    { destruct s as [| c s]; [done |]. simpl in Hd. destruct c as [[] [] [] [] [] [] [] []]; try reflexivity; cbn in Hd; discriminate Hd. }
    rewrite Hne, Hv. destruct (_ && _); congruence.
  - change (Str.itoa (Z.neg p)) with (String "-" (pretty_N_go (N.pos p) "")). destruct (Hpos p) as (_ & Hv & Hne).
    unfold AcmeProtocol.ParseInt. rewrite Hne, Hv. destruct (_ && _); [| done]. intros [= <-]. done.
Qed.

Lemma delete_list_to_map id l :
  base.delete id (list_to_map (M := gmap Z triple) (map binding_entry l)) =
  list_to_map (map binding_entry (List.filter (fun x => negb (SecretBinding.ID x =? id)%Z) l)).
Proof.
  induction l as [| x l IH]; [apply delete_empty |]. cbn [map List.filter].
  assert (forall l, list_to_map (M := gmap Z triple) (binding_entry x :: l) = <[SecretBinding.ID x := snd (binding_entry x)]> (list_to_map l)) as Hcons by done.
  rewrite Hcons. destruct (Z.eqb_spec (SecretBinding.ID x) id) as [<- | Hne]; cbn [negb map].
  - by rewrite delete_insert_eq, IH.
  - by rewrite Hcons, delete_insert_ne, IH.
Qed.

Lemma filter_all {A} (p : A -> bool) l : (forall x, x ∈ l -> p x = true) -> List.filter p l = l.
Proof.
  induction l as [| x l IH]; intros Hl; [done |]. cbn. rewrite (Hl x (list_elem_of_here _ _)). f_equal. apply IH. intros y Hy. apply Hl. by right.
Qed.
Lemma filter_filter_comm {A} (p q : A -> bool) l : List.filter p (List.filter q l) = List.filter q (List.filter p l).
Proof. induction l as [| x l IH]; [done |]. cbn [List.filter]. destruct (p x) eqn:Hp, (q x) eqn:Hq; cbn [List.filter]; rewrite ?Hp, ?Hq, ?IH; done. Qed.

Lemma goca_unbinds name id t e w : sound w -> server_view w !! name = Some e -> e_bindings e !! id = Some t ->
  wp (UnbindSecret (goca_remote vault master has_ca g ip) id)
    (fun x w' => sound w' /\ moved name (unbound id) (server_view w) x (server_view w')) w.
Proof.
  intros Hw He Hid. apply wp_call; [done | intros e' w' Hw' ->; split; [done | by right] |].
  intros u tok w1 Hw1 Hv1. rewrite <- Hv1 in *. clear Hv1 Hw w. apply wp_bind, wp_Ret. unfold pathID. cbn [path_id].
  destruct (AcmeProtocol.ParseInt (Str.itoa id)) as [k |] eqn:Ek; [apply ParseInt_itoa in Ek as -> | by split; [| right]].
  pose proof He as He'. rewrite view_lookup in He'. destruct (VaultFacts.find_secret (w_db w1) name) as [s |] eqn:Es; [| done]. injection He' as <-.
  cbn [entry_of e_bindings] in Hid. apply elem_of_list_to_map in Hid; [| by apply binding_ids].
  apply list_elem_of_fmap in Hid as (b & Hb & [Hin Hsid%Z.eqb_eq]%elem_of_select_where). injection Hb as Hb _.
  apply wp_bind, wp_bind, wp_bind. eapply (wp_delete_hit Schema.SecretBindings _ b);
    [done | exact Hin | by apply Z.eqb_eq | |]. 
  { apply violated_delete_childless; [vm_compute; reflexivity | apply Hw1]. }
  intros Hw2. set (w2 := with_db _ w1) in *.
  assert (forall i, bindings_of (w_db w2) i = List.filter (fun x => negb (SecretBinding.ID x =? id)%Z) (bindings_of (w_db w1) i)) as Hdel.
  { intros i. unfold bindings_of, w2. cbn [with_db w_db]. rewrite delete_leaf by (vm_compute; reflexivity). cbn [rows].
    apply filter_filter_comm. }
  assert (server_view w2 = <[name := with_bindings (base.delete id (e_bindings (entry_of (w_db w1) s))) (entry_of (w_db w1) s)]> (server_view w1)) as Hv2.
  { apply (view_rebound _ _ _ s); [unfold w2; cbn [with_db w_db]; by rewrite delete_ne | done | done | |].
    - intros i Hi. rewrite Hdel. apply filter_all. intros x [Hx Hxi%Z.eqb_eq]%elem_of_select_where. apply negb_true_iff, Z.eqb_neq. intros Hxid.
      apply Hi. rewrite <- Hxi, <- Hsid. f_equal.
      apply (clashes_inj (clash Schema.SecretBindings) SecretBinding.ID (rows (w_db w1 Schema.SecretBindings))); [intros a c Hac; by apply Z.eqb_eq |
        apply violated_clashes, Hw1 | done | done | congruence].
    - rewrite Hdel. symmetry. apply delete_list_to_map. }
  clearbody w2. apply wp_records; [done |]. intros w3 Hw3 _ Hv3. apply wp_Ret, wp_Ret, wp_Ret. split; [done |]. left. rewrite Hv3.
  exists (entry_of (w_db w1) s), (with_bindings (base.delete id (e_bindings (entry_of (w_db w1) s))) (entry_of (w_db w1) s)). by split_and!.
Qed.

#[export] Instance goca_keeps : Keeper (goca_remote vault master has_ca g ip) sound server_view.
Proof.
  split; [apply goca_lists | apply goca_lists_bindings | apply goca_creates | apply goca_updates | apply goca_binds | apply goca_unbinds].
Qed.

(** ** The commands *)

Section commands.
Context (read : string -> result error string) (yaml_manifest : string -> result error Manifest)
        (yaml_list : string -> result error (list ManifestSecret)) (files : list string) (prune : bool).

Definition gocactl_apply (dryRun json : bool) : M outcome :=
  apply (goca_remote vault master has_ca g ip) (manifests read yaml_manifest yaml_list files) prune dryRun json.
Definition next_plan (m : Manifest) : M Plan := plan (goca_remote vault master has_ca g ip) m prune.

(** C34. Once [gocactl apply], run alone against a server whose database
    fails nothing, reports success on manifests of UTF-8 text whose secret
    names are trimmed, not empty and not numbers: every secret of the manifests
    is on the server with the description, labels, rotation interval and
    bindings they declare, and with [--prune] no other bindings, unless the
    server holds it under another type; every other secret is what it was.
    Planning again finds nothing, but for those type conflicts and for labels
    that the manifest leaves out. *)
Theorem apply_converges m w a w' :
  sound w -> manifests read yaml_manifest yaml_list files = Ok m ->
  (forall d, d ∈ Secrets m -> tidy (Name d)) -> (forall d, d ∈ Secrets m -> text d) ->
  run (gocactl_apply false false) w = (Ok a, w') ->
  (forall d, d ∈ Secrets m -> ApplyFacts.settled prune d (server_view w')) /\
  (forall n, n ∉ map Name (Secrets m) -> server_view w' !! n = server_view w !! n) /\
  (forall p w2, run (next_plan m) w' = (Ok p, w2) -> Forall (ApplyFacts.leftover m (server_view w')) p).
Proof.
  intros Hw Hm Ht Hu Hrun. unfold gocactl_apply in Hrun. rewrite Hm in Hrun.
  pose proof (ApplyFacts.ok_converges _ _ _ m prune (ApplyFacts.loaded_proper _ _ _ _ _ Hm Ht Hu) w Hw) as Hok.
  unfold ApplyFacts.ok_wp at 1, wp at 1 in Hok. rewrite Hrun in Hok. destruct (Hok a eq_refl) as (_ & Hset & Hrest & Hplan).
  split_and!; [done | done |]. intros p w2 Hp. exact (Hplan p (f_equal fst Hp)).
Qed.

(** C35. Whatever [gocactl apply] ends with and wherever it stops, run alone
    against a server whose database fails nothing - a refusal by the server
    included - on manifests of UTF-8 text whose secret names are trimmed, not
    empty and not numbers: no secret is deleted or changes its type, those the
    manifests do not declare are what they were, without [--prune] no binding
    is removed, and with [--dry-run] or [--json] nothing changes at all. *)
Theorem apply_is_confined dryRun json w x w' m :
  sound w -> run (gocactl_apply dryRun json) w = (x, w') ->
  manifests read yaml_manifest yaml_list files = Ok m ->
  (forall d, d ∈ Secrets m -> tidy (Name d)) -> (forall d, d ∈ Secrets m -> text d) ->
  ApplyFacts.confined m prune (server_view w) (server_view w') /\ (dryRun || json = true -> server_view w' = server_view w).
Proof.
  intros Hw Hrun Hm Ht Hu. unfold gocactl_apply in Hrun. rewrite Hm in Hrun.
  pose proof (ApplyFacts.wp_apply_confined _ _ _ m prune (ApplyFacts.loaded_proper _ _ _ _ _ Hm Ht Hu) dryRun json w Hw) as Hwp.
  unfold wp in Hwp. rewrite Hrun in Hwp. apply Hwp.
Qed.
End commands.
End server.

(** ** On a server with one secret *)

(** An administrator's token, and the secret [db] of K8sFacts, bound to one
    service account. *)
Definition api_token : APIToken.t := APIToken.mk 1 1 "admin" "gocactl" "goca" (Auth.HashToken "goca_t") RoleAdmin None 0 None false.
Definition one_secret : world :=
  with_db (set_table Users (mkTable [AuthFacts.admin : row Users] 1)
          (set_table ApiTokens (mkTable [api_token : row ApiTokens] 1) (w_db K8sFacts.before))) K8sFacts.before.
Definition with_token : Gate.Request := Gate.mkRequest "" "" "Bearer goca_t" "" "" None None "" "" "".

(** db.yaml revises [db] and binds it elsewhere; api.yaml, a bare list, adds a
    secret. *)
Definition db_yaml : Manifest :=
  mkManifest "goca.dev/v1" "" [mkSecret "db" "" "orders" (Some {[ "team" := "pay" ]}%string) 30 [mkBinding "prod" "web-1" "" 7]].
Definition api_yaml : list ManifestSecret := [mkSecret "api" "file" "" None 0 [mkBinding " prod " "" "corp" 0]].
Definition read_file (path : string) : result error string := Ok path.
Definition yaml_of (data : string) : result error Manifest := if str_is data "db.yaml" then Ok db_yaml else Err (Driver "yaml").
Definition yaml_list_of (data : string) : result error (list ManifestSecret) := if str_is data "api.yaml" then Ok api_yaml else Err (Driver "yaml").
Definition two_files : list string := ["db.yaml"; "api.yaml"]%string.
Definition loaded : Manifest := mkManifest "" "" (map canonical_secret (Secrets db_yaml ++ api_yaml)).

Definition apply_both (prune dryRun json : bool) : M outcome :=
  gocactl_apply Sealing.sample_vault Sample.master false with_token "10.0.0.9" read_file yaml_of yaml_list_of two_files prune dryRun json.
Definition applied : world := snd (run (apply_both true false false) one_secret).

Lemma one_secret_sound : sound one_secret.
Proof. split; vm_compute; reflexivity. Qed.
Lemma loaded_tidy d : d ∈ Secrets loaded -> tidy (Name d).
Proof.
  intros Hd. apply list_elem_of_In in Hd. cbn in Hd. destruct Hd as [<- | [<- | []]]; (split; [vm_compute; reflexivity |]; split; [vm_compute; discriminate | vm_compute; reflexivity]).
Qed.

Lemma loaded_text d : d ∈ Secrets loaded -> text d.
Proof.
  intros Hd. apply list_elem_of_In in Hd. cbn in Hd. destruct Hd as [<- | [<- | []]]; (split; [repeat constructor |]).
  - change (Utf8.text_map {[ "team" := "pay" ]}%string). unfold Utf8.text_map. rewrite map_to_list_singleton. by repeat constructor.
  - apply Utf8.text_empty.
Qed.

Lemma apply_converges_witness :
  fst (run (apply_both true false false) one_secret) = Ok (Applied 5) /\
  (forall d, d ∈ Secrets loaded -> ApplyFacts.settled true d (server_view applied)) /\
  (forall n, n ∉ map Name (Secrets loaded) -> server_view applied !! n = server_view one_secret !! n) /\
  (forall p w2, run (next_plan Sealing.sample_vault Sample.master false with_token "10.0.0.9" true loaded) applied = (Ok p, w2) ->
    Forall (ApplyFacts.leftover loaded (server_view applied)) p).
Proof.
  assert (fst (run (apply_both true false false) one_secret) = Ok (Applied 5)) as Ha by (vm_compute; reflexivity). split; [exact Ha |].
  apply (apply_converges Sealing.sample_vault Sample.master false with_token "10.0.0.9" read_file yaml_of yaml_list_of two_files true
    loaded one_secret (Applied 5) applied one_secret_sound).
  - vm_compute. reflexivity.
  - exact loaded_tidy.
  - exact loaded_text.
  - unfold applied, apply_both in *. rewrite <- Ha. apply surjective_pairing.
Defined.

(** [--json] prints the plan of five steps, and that is all: nothing is applied. *)
Lemma apply_is_confined_witness :
  (match fst (run (apply_both true false true) one_secret) with Ok (PlanJSON p) => length p | _ => 0 end) = 5 /\
  ApplyFacts.confined loaded true (server_view one_secret) (server_view (snd (run (apply_both true false true) one_secret))) /\
  (false || true = true -> server_view (snd (run (apply_both true false true) one_secret)) = server_view one_secret).
Proof.
  split; [vm_compute; reflexivity |].
  apply (apply_is_confined Sealing.sample_vault Sample.master false with_token "10.0.0.9" read_file yaml_of yaml_list_of two_files true
    false true one_secret (fst (run (apply_both true false true) one_secret)) _ loaded one_secret_sound).
  - apply surjective_pairing.
  - vm_compute. reflexivity.
  - exact loaded_tidy.
  - exact loaded_text.
Defined.

(** ** What apply does not bring about *)

(** Labels left out of a manifest: the update sends null, which the server
    takes for labels left as they are, and each plan asks for it again. *)
Definition unlabelled : Manifest := mkManifest "" "" [mkSecret "db" "" "orders" None 30 [mkBinding "prod" "web-1" "*" 7]].
Definition apply_to (m : Manifest) (w : world) : result error outcome * world :=
  run (apply (goca_remote Sealing.sample_vault Sample.master false with_token "10.0.0.9") (Ok m) false false false) w.

Theorem labels_are_never_removed :
  let once := apply_to unlabelled applied in let twice := apply_to unlabelled (snd once) in
  fst once = Ok (Applied 1) /\ fst twice = Ok (Applied 1) /\
  option_map e_labels (server_view (snd twice) !! "db"%string) = Some {[ "team" := "pay" ]}%string.
Proof. vm_compute. tauto. Qed.

(** A binding that has run out is still there: eight days later the one that
    was declared for seven is past its term, and nothing is planned. *)
Definition eight_days_on : world := mkWorld (w_db applied) (w_clock applied + 8 * 24 * Hour) [] [] (w_draws applied).

Theorem expired_bindings_stay_expired :
  fst (apply_to loaded eight_days_on) = Ok NoDrift /\
  exists b e, b ∈ rows (w_db eight_days_on Schema.SecretBindings) /\ SecretBinding.K8sServiceAccount b = "web-1"%string /\
    SecretBinding.ExpiresAt b = Some e /\ (e < w_clock eight_days_on)%Z.
Proof.
  split; [vm_compute; reflexivity |].
  destruct (List.find (fun b => str_is (SecretBinding.K8sServiceAccount b) "web-1") (rows (w_db eight_days_on Schema.SecretBindings))) as [b |] eqn:Hb;
    [| vm_compute in Hb; discriminate].
  pose proof Hb as [Hin%list_elem_of_In Hs%str_is_eq]%find_some. exists b. vm_compute in Hb. injection Hb as <-.
  eexists. split; [exact Hin |]. split; [exact Hs |]. split; [reflexivity | vm_compute; reflexivity].
Qed.

(** The same secret of another type is a conflict, which counts as applied:
    the bindings declared with it are not made. *)
Theorem conflicts_count_as_applied :
  let retyped := mkManifest "" "" [mkSecret "db" "file" "" None 0 [mkBinding "prod" "batch" "*" 0]] in
  fst (apply_to retyped applied) = Ok (Applied 1) /\ server_view (snd (apply_to retyped applied)) = server_view applied.
Proof. vm_compute. tauto. Qed.
End ApplyServer.
