(* ===== verification/SslFacts.v ===== *)
(** * What the SSL utility shows of its input
    (over SslTool)

    Keys of the kinds it knows leave no trace on the page beyond what is
    derived from their public half; other kinds of key, and keys whose PEM text
    is damaged, are shown as they came. *)

From S2P Require Import Prelude GoStrings Effects Models Schema Pki Sealing CaService CaLifecycle CaImport SslTool Sample.

Module SslFacts.
Import SslTool.

Section shown.
Context `{Std : Pki.Std} (marshal_public : Pki.PublicKey -> result error string).

(** What there is to say of a key without giving it away: its type and its
    public half, or what is wrong with it. *)
Definition key_facts (typ bytes : string) : result string (string * Pki.PublicKey) :=
  match Pki.ParsePrivateKeyPEM (Pki.pem_EncodeToMemory typ bytes) with
  | Err e => Err (Error e)
  | Ok key => match Pki.public_key key with Err e => Err (Error e) | Ok pub => Ok (PkiImport.private_key_type key, pub) end
  end.

(** Two inputs of the same blocks but for the private part of their keys, and
    for all of those that are encrypted. *)
Definition same_but_keys (a b : Pki.PEMBlock) : Prop :=
  let typ := Pki.pem_Type a in
  typ = Pki.pem_Type b /\
  (Pki.pem_Bytes a = Pki.pem_Bytes b \/ Pki.one_of typ encrypted_types = true \/
   (Pki.one_of typ key_types = true /\ key_facts typ (Pki.pem_Bytes a) = key_facts typ (Pki.pem_Bytes b))).

(** A block without the text of a key: all that the page is made of. *)
Definition mask (b : sslBlock) : sslBlock :=
  mkBlock (Label b) (Kind b) (if str_is (Kind b) kind_key then EmptyString else PEM b) (Error_ b) (Cert b) (CSR b) (Key b).
Definition masked (bf : sslBlock * string) : sslBlock * string := (mask (fst bf), snd bf).

Lemma shown_mask b : block_shown (mask b) = block_shown b.
Proof. unfold block_shown, raw_shown, detail_shown. simpl. by destruct (str_is (Kind b) kind_key). Qed.

Lemma cards_mask bs : map block_shown (map mask bs) = map block_shown bs.
Proof. rewrite map_map. apply map_ext. apply shown_mask. Qed.

Lemma echo_mask bs : echoInput (map mask bs) = echoInput bs.
Proof.
  unfold echoInput. rewrite map_map. do 2 f_equal. apply map_ext. intros b. simpl. by destruct (str_is (Kind b) kind_key).
Qed.

Lemma matching_mask l i fp : matching (map masked l) i fp = matching l i fp.
Proof.
  unfold matching. rewrite length_map. generalize (List.seq 0 (length l)) as k.
  induction l as [| b l IH]; intros [| n k]; try done. cbn [map combine List.filter fst snd masked].
  destruct (negb _ && str_is (snd b) fp); cbn [map]; by rewrite IH.
Qed.

Lemma crossed_mask all l n :
  map mask (imap (fun i b => cross_reference all (n + i) (fst b) (snd b)) l) =
  imap (fun i b => cross_reference (map masked all) (n + i) (fst b) (snd b)) (map masked l).
Proof.
  revert n. induction l as [| b l IH]; intros n; [done |]. cbn [map]. rewrite !imap_cons. cbn [map]. f_equal.
  - unfold cross_reference. rewrite matching_mask. cbn [masked mask fst snd Key]. destruct (Key (fst b)); [| done]. by destruct (str_is (snd b) "").
  - specialize (IH (S n)). etrans; [etrans; [| exact IH] |]; [f_equal |]; apply imap_ext; intros i x _; cbn; by rewrite Nat.add_succ_r.
Qed.

(** *** One block, then all of them *)

Lemma key_block_facts s typ bytes :
  let b := key_block marshal_public s (Pki.pem_EncodeToMemory typ bytes) in
  masked b = match key_facts typ bytes with
             | Err e => (mkBlock (key_label s) kind_key "" e None None None, EmptyString)
             | Ok (kt, pub) => (mkBlock (key_label s) kind_key "" "" None None (Some (mkKeyInfo kt (fingerprint marshal_public pub) [])), fingerprint marshal_public pub)
             end.
Proof.
  cbv zeta. unfold key_block, key_facts. cbv zeta. destruct (Pki.ParsePrivateKeyPEM _) as [key |]; [| done].
  by destruct (Pki.public_key key).
Qed.

Lemma block_masked a b s w : same_but_keys a b ->
  let ra := run (inspect_block marshal_public a s) w in let rb := run (inspect_block marshal_public b s) w in
  masked (fst (fst ra)) = masked (fst (fst rb)) /\ snd (fst ra) = snd (fst rb) /\ snd ra = snd rb.
Proof.
  intros [Ht Hb]. cbv zeta. unfold inspect_block. rewrite <- Ht. set (typ := Pki.pem_Type a) in *. clearbody typ. clear Ht.
  destruct Hb as [-> | [He | [Hk Hf]]]; [done | |].
  - apply existsb_exists in He as (t & Ht%list_elem_of_In & <-%str_is_eq). apply list_elem_of_singleton in Ht as ->. done.
  - assert (Pki.one_of typ certificate_types = false /\ Pki.one_of typ csr_types = false) as [-> ->].
    { apply existsb_exists in Hk as (t & Ht & <-%str_is_eq). cbn in Ht. by destruct Ht as [<- | [<- | [<- | []]]]. }
    rewrite Hk. cbn [run fst snd]. split; [| done]. by rewrite !key_block_facts, Hf.
Qed.

Lemma blocks_masked l l' : Forall2 same_but_keys l l' -> forall s w,
  let r := run (inspect_blocks marshal_public l s) w in let r' := run (inspect_blocks marshal_public l' s) w in
  map masked (fst r) = map masked (fst r') /\ snd r = snd r'.
Proof.
  induction 1 as [| a b l l' Hab Hl IH]; intros s w; [done |]. cbv zeta. cbn [inspect_blocks].
  destruct (block_masked a b s w Hab) as (Ht & Hs & Hw). rewrite !run_bind.
  destruct (run (inspect_block marshal_public a s) w) as [[ba sa] wa], (run (inspect_block marshal_public b s) w) as [[bb sb] wb].
  cbn [fst snd] in *. subst sb wb. rewrite !run_bind. destruct (IH sa wa) as [IHt IHw].
  destruct (run (inspect_blocks marshal_public l sa) wa) as [ra w1], (run (inspect_blocks marshal_public l' sa) wa) as [rb w2].
  cbn [fst snd run map] in *. subst w2. split; [by rewrite Ht, IHt | done].
Qed.

Definition submitted (text : string) : prog world (string * option sslInspectResult) := handleSSLToolSubmit marshal_public (Ok (EmptyString, text)).

(** The page of an input with PEM blocks in it is made of the masked blocks. *)
Definition crossed (found : list (sslBlock * string)) : list sslBlock := imap (fun i b => cross_reference found i (fst b) (snd b)) found.

Lemma page_of text w :
  let r := run (inspect_blocks marshal_public (Pki.blocks text) (mkSeen 0 0 false)) w in
  fst r <> [] -> render (fst (run (submitted text) w)) = mkPage (echoInput (crossed (fst r))) "" (map block_shown (crossed (fst r))).
Proof.
  cbv zeta. intros Hne. unfold submitted, handleSSLToolSubmit, inspectSSLInput. change (str_is "" "") with true. cbn beta iota.
  rewrite !run_bind. destruct (run (inspect_blocks _ _ _) w) as [found w1]. cbn [fst] in Hne |- *. destruct found as [| b found]; [done |]. done.
Qed.

Lemma page_masked found :
  mkPage (echoInput (crossed found)) "" (map block_shown (crossed found)) =
  mkPage (echoInput (crossed (map masked found))) "" (map block_shown (crossed (map masked found))).
Proof.
  assert (map mask (crossed found) = crossed (map masked found)) as E by exact (crossed_mask found found 0).
  by rewrite <- E, echo_mask, cards_mask.
Qed.

Lemma found_length l s w : length (fst (run (inspect_blocks marshal_public l s) w)) = length l.
Proof.
  revert s w. induction l as [| a l IH]; intros s w; [done |]. cbn [inspect_blocks]. rewrite run_bind.
  destruct (run (inspect_block marshal_public a s) w) as [[ba sa] wa]. cbn [fst snd]. rewrite run_bind. specialize (IH sa wa).
  destruct (run (inspect_blocks marshal_public l sa) wa) as [r w1]. cbn [fst run length] in *. by rewrite IH.
Qed.


(** *** What the tool takes for no key *)

Definition known_type (typ : string) : bool := Pki.one_of typ (certificate_types ++ csr_types ++ key_types ++ encrypted_types).

Lemma unknown_found b l : known_type (Pki.pem_Type b) = false -> b ∈ l -> forall s w,
  (unknown_block (Pki.pem_Type b) (Pki.pem_EncodeToMemory (Pki.pem_Type b) (Pki.pem_Bytes b)), EmptyString)
  ∈ fst (run (inspect_blocks marshal_public l s) w).
Proof.
  intros Hb Hin. unfold known_type, Pki.one_of in Hb. rewrite !existsb_app in Hb.
  apply orb_false_iff in Hb as [H1 [H2 [H3 H4]%orb_false_iff]%orb_false_iff].
  induction l as [| a l IH]; intros s w; [by apply not_elem_of_nil in Hin |]. cbn [inspect_blocks]. rewrite run_bind.
  apply elem_of_cons in Hin as [<- | Hin].
  - unfold inspect_block. cbv zeta. unfold Pki.one_of. rewrite H1, H2, H3, H4. cbn [run fst snd]. rewrite run_bind.
    destruct (run (inspect_blocks marshal_public l s) w) as [r w1]. cbn [run fst snd]. by left.
  - destruct (run (inspect_block marshal_public a s) w) as [[ba sa] wa]. cbn [fst snd]. rewrite run_bind. specialize (IH Hin sa wa).
    destruct (run (inspect_blocks marshal_public l sa) wa) as [r w1]. cbn [run fst snd] in *. by right.
Qed.

Lemma crossed_keyless found b : Key (fst b) = None -> b ∈ found -> fst b ∈ crossed found.
Proof.
  intros Hk (i & Hi)%list_elem_of_lookup. apply list_elem_of_lookup. exists i. unfold crossed. rewrite list_lookup_imap, Hi. simpl. f_equal.
  unfold cross_reference. by rewrite Hk.
Qed.

(** A key of any other PEM type, as OpenSSH and DSA keys are, is shown on
    the page in full; and so is an input in which no block decodes, such as a
    private key that was cut short. *)
Theorem unknown_keys_are_shown :
  known_type "OPENSSH PRIVATE KEY" = false /\ known_type "DSA PRIVATE KEY" = false /\
  (forall text w b, b ∈ Pki.blocks text -> known_type (Pki.pem_Type b) = false ->
     Some (Pki.pem_EncodeToMemory (Pki.pem_Type b) (Pki.pem_Bytes b)) ∈ map snd (Cards (render (fst (run (submitted text) w))))) /\
  (forall text w, Pki.blocks text = [] -> Textarea (render (fst (run (submitted text) w))) = text).
Proof.
  split; [reflexivity |]. split; [reflexivity |]. split.
  - intros text w b Hb Hk. pose proof (unknown_found b _ Hk Hb (mkSeen 0 0 false) w) as Hfound. rewrite page_of.
    2: { intros E. rewrite E in Hfound. by apply not_elem_of_nil in Hfound. }
    apply crossed_keyless in Hfound; [| done]. cbn [Cards]. rewrite map_map. by apply (list_elem_of_fmap_2 (fun x => snd (block_shown x))) in Hfound.
  - intros text w E. unfold submitted, handleSSLToolSubmit, inspectSSLInput. change (str_is "" "") with true. cbn beta iota.
    by rewrite !run_bind, E.
Qed.
End shown.

End SslFacts.
