(* ===== verification/HookFacts.v ===== *)
(** * Webhook deliveries: claimed once, and ending

    What the claim of a delivery excludes, what every delivery row looks like
    whatever runs, that a dispatcher brings every delivery to an end, and two
    ways in which one is sent twice or never. *)

From S2P Require Import Prelude GoStrings Effects Models Schema SqlFacts TableFacts Store Pki Sealing CaService K8s Webhooks Sample CaFacts.

Module HookFacts.
Import WebhookStore Dispatcher CaFacts.

#[local] Hint Resolve guar_draw : guar.

Abbreviation deliveries d := (rows (d WebhookDeliveries)).

Lemma delivery_unique d x y :
  violated d = None -> x ∈ deliveries d -> y ∈ deliveries d -> WebhookDelivery.ID x = WebhookDelivery.ID y -> x = y.
Proof.
  intros Hv%(fun Hv => violated_clashes d WebhookDeliveries Hv) Hx Hy Heq.
  eapply (clashes_inj _ WebhookDelivery.ID); try exact Hv; try done. intros a b Hab. by apply Z.eqb_eq.
Qed.

(** ** Claims *)

Section claims.
Context `{RowOrder}.

Lemma elem_of_claim now stale limit d x :
  x ∈ fst (claim now stale limit d) <->
  exists y, y ∈ deliveries d /\ claimable now stale limit d y = true /\ x = scanWebhookDelivery y.
Proof.
  unfold claim. cbn [fst]. rewrite elem_of_scan, list_elem_of_fmap. unfold select. split.
  - intros (y & -> & Hy%elem_of_select_where). exists y. tauto.
  - intros (y & Hy & Hc & ->). exists y. split; [done |]. by apply elem_of_select_where.
Qed.

Lemma claimable_due now stale limit d y : claimable now stale limit d y = true -> is_due now stale y = true.
Proof. by intros [_ Hd]%andb_true_iff. Qed.

(** The delivery is claimed, and has been since [t] or later. *)
Definition held (id t : Z) (d : db) : Prop :=
  forall x, x ∈ deliveries d -> WebhookDelivery.ID x = id -> exists c, WebhookDelivery.ClaimedAt x = Some c /\ (t <= c)%Z.

Lemma held_not_claimed id t now stale limit d x :
  held id t d -> (stale < t)%Z -> x ∈ fst (claim now stale limit d) -> WebhookDelivery.ID x <> id.
Proof.
  intros Hh Hs (y & Hy & Hc%claimable_due & ->)%elem_of_claim Hid. destruct (Hh y Hy Hid) as (c & Hcl & Ht).
  apply andb_true_iff in Hc as [_ Hc]. rewrite Hcl in Hc. lia.
Qed.

Lemma claim_holds now stale limit d x :
  violated d = None -> x ∈ fst (claim now stale limit d) -> held (WebhookDelivery.ID x) now (snd (claim now stale limit d)).
Proof.
  intros Hv (y & Hy & Hc & ->)%elem_of_claim. intros z Hz Hid. unfold claim in Hz. cbn [snd] in Hz. rewrite update_eq in Hz. cbn [rows] in Hz.
  apply elem_of_update_where in Hz as (z0 & Hz0 & ->).
  assert (z0 = y) as -> by (eapply delivery_unique; [done | done | done |]; by destruct (claimable now stale limit d z0)).
  rewrite Hc. exists now. split; [done | lia].
Qed.

(** What else may happen to the table while one dispatcher has [id]: other
    claims, not earlier than [t], results of other deliveries, new deliveries
    (no id is given twice),
    deletions, and anything in other tables. *)
Inductive meanwhile (id t : Z) (d : db) : db -> Prop :=
| Claimed now stale limit : (t <= now)%Z -> meanwhile id t d (snd (claim now stale limit d))
| Recorded i ok code msg next now : i <> id ->
    meanwhile id t d (snd (update WebhookDeliveries (delivery_id i) (if ok : bool then delivered_row code now else failed_row code msg next now) d))
| Enqueued hook event payload now : (seq (d WebhookDeliveries) + 1)%Z <> id ->
    meanwhile id t d (snd (insert WebhookDeliveries (new_delivery hook event payload now) d))
| Dropped d' : (forall x, x ∈ deliveries d' -> x ∈ deliveries d) -> meanwhile id t d d'.

Lemma meanwhile_held id t d d' : meanwhile id t d d' -> held id t d -> held id t d'.
Proof.
  intros Hm Hh. destruct Hm as [now stale limit Hnow | i ok code msg next now Hi | hook event payload now Hid | d' Hsub]; intros x Hx Hxid.
  - unfold claim in Hx. cbn [snd] in Hx. rewrite update_eq in Hx. apply elem_of_update_where in Hx as (y & Hy & ->).
    destruct (claimable now stale limit d y); [by exists now | by apply Hh].
  - rewrite update_eq in Hx. apply elem_of_update_where in Hx as (y & Hy & ->). unfold delivery_id in *.
    destruct (Z.eqb_spec (WebhookDelivery.ID y) i) as [<- | Hne]; [by destruct ok | by apply Hh].
  - rewrite insert_eq in Hx. apply elem_of_app in Hx as [Hx | ->%list_elem_of_singleton]; [by apply Hh |].
    by destruct Hid.
  - apply Hh; [by apply Hsub | done].
Qed.

(** Two dispatchers never have one delivery at the same time: from the
    claim that returned it until its result is recorded, no other claim returns
    it, whatever happens in between, unless the first claim has become stale. *)
Theorem claims_are_exclusive now stale limit d x d' now' stale' limit' y :
  violated d = None -> x ∈ fst (claim now stale limit d) ->
  rtc (meanwhile (WebhookDelivery.ID x) now) (snd (claim now stale limit d)) d' ->
  (stale' < now)%Z -> y ∈ fst (claim now' stale' limit' d') -> WebhookDelivery.ID y <> WebhookDelivery.ID x.
Proof.
  intros Hv Hx Hsteps Hs Hy. eapply held_not_claimed; [| exact Hs | exact Hy].
  pose proof (claim_holds _ _ _ _ _ Hv Hx) as Hh. clear -Hsteps Hh.
  induction Hsteps as [d0 | d0 d1 d2 Hm _ IH]; [done |]. apply IH. by eapply meanwhile_held.
Qed.
End claims.

(** ** What a delivery row looks like *)

Inductive well_formed (x : WebhookDelivery.t) : Prop :=
| Pending_row : WebhookDelivery.Status x = WebhookStatusPending -> WebhookDelivery.Attempts x = 0%Z ->
    is_Some (WebhookDelivery.NextAttempt x) -> WebhookDelivery.LastError x = ""%string -> well_formed x
| Failed_row : WebhookDelivery.Status x = WebhookStatusFailed -> (0 < WebhookDelivery.Attempts x)%Z ->
    is_Some (WebhookDelivery.NextAttempt x) -> well_formed x
| Dead_row : WebhookDelivery.Status x = WebhookStatusDead -> (0 < WebhookDelivery.Attempts x)%Z ->
    WebhookDelivery.NextAttempt x = None -> well_formed x
| Delivered_row : WebhookDelivery.Status x = WebhookStatusDelivered -> (0 <= WebhookDelivery.Attempts x)%Z ->
    (200 <= WebhookDelivery.LastStatus x < 300)%Z -> WebhookDelivery.LastError x = ""%string -> well_formed x.

Lemma attempts_nonneg x : well_formed x -> (0 <= WebhookDelivery.Attempts x)%Z.
Proof. destruct 1; lia. Qed.

Definition table_formed (d : db) : Prop := forall x, x ∈ deliveries d -> well_formed x.
Definition forms (d d' : db) : Prop := table_formed d -> table_formed d'.

#[export] Instance forms_refl : Reflexive forms.
Proof. exact (fun d Hd => Hd). Qed.
#[export] Instance forms_trans : Transitive forms.
Proof. intros d1 d2 d3 H1 H2 H. auto. Qed.

Lemma forms_keeps d d' : keeps [WebhookDeliveries] d d' -> forms d d'.
Proof. intros Hk Hd x. rewrite (Hk WebhookDeliveries) by (by left). apply Hd. Qed.

Lemma forms_update p f d : (forall x, well_formed x -> p x = true -> well_formed (f x)) -> forms d (snd (update WebhookDeliveries p f d)).
Proof.
  intros Hf Hd x. rewrite update_eq. intros (y & Hy & ->)%elem_of_update_where. destruct (p y) eqn:Hp; [| by apply Hd].
  apply Hf; [by apply Hd | done].
Qed.

Lemma forms_enqueue hook event payload now d : forms d (snd (insert WebhookDeliveries (new_delivery hook event payload now) d)).
Proof.
  intros Hd x. rewrite insert_eq. intros [Hx | ->%list_elem_of_singleton]%elem_of_app; [by apply Hd |].
  by apply Pending_row.
Qed.

Lemma forms_failed i code msg next now d : forms d (snd (update WebhookDeliveries (delivery_id i) (failed_row code msg next now) d)).
Proof.
  apply forms_update. intros x Hx%attempts_nonneg _. destruct next; [apply Failed_row | apply Dead_row]; simpl; done || lia.
Qed.

Lemma forms_delivered i code now d :
  (200 <= code < 300)%Z -> forms d (snd (update WebhookDeliveries (delivery_id i) (delivered_row code now) d)).
Proof. intros Hc. apply forms_update. intros x Hx%attempts_nonneg _. by apply Delivered_row. Qed.

Lemma forms_delete p d : forms d (snd (delete Webhooks p d)).
Proof. intros Hd x Hx. exact (Hd x (delete_sub Webhooks p d WebhookDeliveries x Hx)). Qed.

Lemma forms_claim `{RowOrder} now stale limit d : forms d (snd (claim now stale limit d)).
Proof. apply forms_update. intros x Hx _. destruct Hx; [by apply Pending_row | by apply Failed_row | by apply Dead_row | by apply Delivered_row]. Qed.

Ltac forms_leaf :=
  first [ apply forms_keeps; frame | apply forms_enqueue | apply forms_failed | apply forms_claim | apply forms_delete ].

Section programs.
Context `{Std : Pki.Std} `{Ciphers} `{RowOrder} `{Network}.
Context (master : string).

(** Posting to a receiver writes neither of the two tables. *)
Hypothesis quiet_http : forall r, beside [Webhooks; WebhookDeliveries] (http_Do r).

Lemma forms_http r : guar (on_db forms) (http_Do r).
Proof.
  eapply guar_weaken; [| apply (proj1 (quiet_http r))]. intros w w' Hk. apply forms_keeps. intros t ->%list_elem_of_singleton.
  apply Hk. right. by left.
Qed.

Lemma forms_recordFailure opts del code msg : guar (on_db forms) (recordFailure opts del code msg).
Proof. guar_walk forms_leaf. Qed.
#[local] Hint Resolve forms_http forms_recordFailure : guar.

Lemma forms_deliver opts del : guar (on_db forms) (deliver master opts del).
Proof.
  unfold deliver. apply guar_bind; [guar_walk forms_leaf |]. intros [h | e]; [| done].
  destruct (if nonempty _ then _ else _) as [key | e]; [| done]. destruct (request_error _); [guar_walk forms_leaf |].
  apply guar_bind; [apply forms_http |]. intros [code | e]; [| guar_walk forms_leaf]. destruct (_ && _) eqn:Hc; [| guar_walk forms_leaf].
  guar_walk ltac:(apply forms_delivered; lia).
Qed.

Lemma forms_tick opts : guar (on_db forms) (tick master opts).
Proof.
  unfold tick. apply guar_bind; [apply guar_now; apply _ |]. intros now. apply guar_bind; [guar_walk forms_leaf |].
  intros [due | e]; [| done]. induction due as [| del due IH]; cbn [deliver_each]; [done |].
  apply guar_bind; [apply forms_deliver |]. intros r. apply guar_bind; [exact IH |]. done.
Qed.

Lemma forms_Emit a b c d e : guar (on_db forms) (Emit a b c d e).
Proof.
  unfold Emit. apply guar_bind; [guar_walk forms_leaf |]. intros [hooks | err]; [| done].
  induction hooks as [| h hooks IH]; cbn [emit_each]; [done |]. destruct (_ || _); [exact IH |]. guar_walk forms_leaf; exact IH.
Qed.

(** What runs in the server, on any number of replicas: the dispatchers' ticks,
    audited operations with their events, the administration of webhooks, and
    whatever leaves the deliveries alone. *)
Inductive activity : prog world unit -> Prop :=
| Ticks opts : activity (tick master opts ;;; Ret tt)%prog
| Audits actor action target detail ip : activity (CaService.recordAudit (Emit) actor action target detail ip)
| Creates in_ actor : activity (Hooks.apiWebhookCreate master in_ actor ;;; Ret tt)%prog
| Updates id in_ : activity (Hooks.apiWebhookUpdate master id in_ ;;; Ret tt)%prog
| Disables id disabled : activity (Hooks.apiWebhookDisable id disabled ;;; Ret tt)%prog
| Deletes id : activity (Hooks.apiWebhookDelete id ;;; Ret tt)%prog
| Elsewhere p : guar (on_db (keeps [WebhookDeliveries])) p -> activity p.

Lemma forms_activity p : activity p -> guar (on_db forms) p.
Proof.
  destruct 1 as [opts | actor action target detail ip | in_ actor | id in_ | id disabled | id | p Hp].
  - apply guar_bind; [apply forms_tick | done].
  - unfold CaService.recordAudit. apply guar_bind; [guar_walk forms_leaf |]. intros _. apply forms_Emit.
  - guar_walk forms_leaf.
  - guar_walk forms_leaf.
  - guar_walk forms_leaf.
  - guar_walk forms_leaf.
  - eapply guar_weaken; [| exact Hp]. intros w w'. apply forms_keeps.
Qed.

(** However the statements of any number of dispatchers, audited
    operations and administrators interleave, every delivery is pending and
    untried, failed with a time for the next attempt, dead after at least one
    attempt and with none to come, or delivered with a status of success. *)
Theorem deliveries_well_formed w ps w' ps' :
  Forall activity ps -> table_formed (w_db w) -> rtc pstep (w, ps) (w', ps') -> table_formed (w_db w').
Proof.
  intros Hps Hw Hsteps. refine (proj1 (guar_pool (on_db forms) w w' ps ps' _ _ _ Hsteps) Hw).
  eapply Forall_impl; [exact Hps | apply forms_activity].
Qed.

(** ** Every delivery comes to an end *)

Section dispatching.
Context (opts : Options).

Definition is_open (x : WebhookDelivery.t) : bool :=
  str_is (WebhookDelivery.Status x) WebhookStatusPending || str_is (WebhookDelivery.Status x) WebhookStatusFailed.

(** The attempts a delivery has left. *)
Definition weight (x : WebhookDelivery.t) : nat :=
  if is_open x then Z.to_nat (Z.max 1 (MaxAttempts opts - WebhookDelivery.Attempts x)) else 0.
Definition remaining (d : db) : nat := sum_list_with weight (deliveries d).

(** No open delivery is claimed or waits for longer than the longest delay. *)
Definition rests (c : Z) (x : WebhookDelivery.t) : Prop :=
  is_open x = true -> WebhookDelivery.ClaimedAt x = None /\
    (WebhookDelivery.Status x = WebhookStatusFailed -> exists t, WebhookDelivery.NextAttempt x = Some t /\ (t <= c + 15 * Minute)%Z).
Definition settled (c : Z) (d : db) : Prop := forall x, x ∈ deliveries d -> rests c x.

(** Every key can be read. *)
Definition deliverable (d : db) : Prop :=
  forall h, h ∈ rows (d Webhooks) -> Webhook.SecretEnc h <> ""%string -> exists key, Box.Decrypt master (Webhook.SecretEnc h) = Ok key.

(** One attempt, made before [c]: closed, or failed with attempts to go. *)
Definition advanced (c : Z) (x y : WebhookDelivery.t) : Prop :=
  is_open y = false \/
  (WebhookDelivery.Status y = WebhookStatusFailed /\ WebhookDelivery.Attempts y = (WebhookDelivery.Attempts x + 1)%Z /\
   (WebhookDelivery.Attempts y < MaxAttempts opts)%Z /\ WebhookDelivery.ClaimedAt y = None /\
   exists t, WebhookDelivery.NextAttempt y = Some t /\ (t <= c + 15 * Minute)%Z).

Lemma advanced_mono c c' x y : (c <= c')%Z -> advanced c x y -> advanced c' x y.
Proof.
  intros Hc [Ho | (Hs & Ha & Hm & Hcl & t & Hn & Ht)]; [by left |]. right. repeat (split; [done |]). exists t. split; [done | lia].
Qed.

Lemma advanced_lighter c x y : is_open x = true -> advanced c x y -> weight y < weight x.
Proof.
  intros Hx [Hy | (Hs & Ha & Hm & _)]; unfold weight; rewrite Hx.
  - rewrite Hy. lia.
  - destruct (is_open y); lia.
Qed.

Lemma advanced_rests c x y : advanced c x y -> rests c y.
Proof. intros [Hy | (_ & _ & _ & Hc & Hn)] Ho; [congruence | done]. Qed.

Lemma delay_bound n : (delay opts n <= 15 * Minute)%Z.
Proof. unfold delay. cbv zeta. destruct (Z.ltb_spec (15 * Minute) (int64 (Z.shiftl (Backoff opts) (n - 1)))); lia. Qed.

(** Every statement leaves the ids and references of the rows alone. *)
Lemma record_keys (x : WebhookDelivery.t) ok code msg next now :
  let y := (if ok : bool then delivered_row code now else failed_row code msg next now) x in
  WebhookDelivery.ID y = WebhookDelivery.ID x /\ WebhookDelivery.WebhookID y = WebhookDelivery.WebhookID x.
Proof. by destruct ok. Qed.

(** *** Row by row *)

(** The rows with these ids are advanced and keep their keys, the others are
    as they were. *)
Definition moves (ids : list Z) (c : Z) (x y : WebhookDelivery.t) : Prop :=
  WebhookDelivery.ID y = WebhookDelivery.ID x /\ WebhookDelivery.WebhookID y = WebhookDelivery.WebhookID x /\
  (WebhookDelivery.ID x ∈ ids -> advanced c x y) /\ (WebhookDelivery.ID x ∉ ids -> y = x).

Lemma moves_nil c l : Forall2 (moves [] c) l l.
Proof. induction l; constructor; [| done]. split; [done |]. split; [done |]. split; [by intros ?%not_elem_of_nil | done]. Qed.

Lemma moves_one i c f l :
  (forall x, x ∈ l -> WebhookDelivery.ID x = i -> WebhookDelivery.ID (f x) = i /\ WebhookDelivery.WebhookID (f x) = WebhookDelivery.WebhookID x /\ advanced c x (f x)) ->
  Forall2 (moves [i] c) l (update_where (delivery_id i) f l).
Proof.
  intros Hf. unfold update_where. induction l as [| x l IH]; simpl; constructor; [| apply IH; intros y Hy; apply Hf; by right].
  unfold delivery_id at 1. destruct (Z.eqb_spec (WebhookDelivery.ID x) i) as [Hi | Hi].
  - destruct (Hf x ltac:(by left) Hi) as (Hid & Hhook & Ha). split; [congruence |]. split; [done |]. split; [done |].
    intros Hn. destruct Hn. rewrite Hi. by left.
  - split; [done |]. split; [done |]. split; [by intros [? | ?%not_elem_of_nil]%elem_of_cons | done].
Qed.

Lemma moves_trans i ids c c' l1 l2 l3 :
  i ∉ ids -> (c <= c')%Z -> Forall2 (moves [i] c) l1 l2 -> Forall2 (moves ids c') l2 l3 -> Forall2 (moves (i :: ids) c') l1 l3.
Proof.
  intros Hi Hc H12. revert l3. induction H12 as [| x y l1 l2 (Hid & Hhook & Hin & Hout) _ IH]; intros l3 H23; inversion H23 as [| y' z l2' l3' (Hid' & Hhook' & Hin' & Hout') Hl]; subst; [constructor |].
  constructor; [| by apply IH]. split; [congruence |]. split; [congruence |]. rewrite Hid in Hin', Hout'.
  destruct (decide (WebhookDelivery.ID x = i)) as [Hx | Hx].
  - rewrite Hx in *. rewrite (Hout' Hi). split; [intros _; eapply advanced_mono; [exact Hc | by apply Hin; left] | set_solver].
  - assert (y = x) as -> by (apply Hout; set_solver). split; [intros Hm; apply Hin'; set_solver | intros Hm; apply Hout'; set_solver].
Qed.

(** *** One delivery *)

Lemma wp_record id ok code msg next w (Q : result error unit -> world -> Prop) :
  sound w ->
  (forall now w', sound w' -> (w_clock w <= w_clock w')%Z ->
     w_db w' = snd (update WebhookDeliveries (delivery_id id) (if ok : bool then delivered_row code now else failed_row code msg next now) (w_db w)) ->
     Q (Ok tt) w') ->
  wp (RecordWebhookDeliveryResult id ok code msg next) Q w.
Proof.
  intros Hw HQ. apply wp_bind, wp_now. intros now ts Hnow. apply wp_bind. apply wp_sql_sound; [exact Hw | |].
  - cbn [w_db]. rewrite violated_update; [apply Hw |]. intros x. destruct (record_keys x ok code msg next now) as [Hk1 Hk2]. by split.
  - intros w' Hw'. apply wp_Ret. by eapply HQ.
Qed.

Lemma hook_exists d x : violated d = None -> x ∈ deliveries d ->
  exists h, select1 Webhooks (hook_id (WebhookDelivery.WebhookID x)) d = Some h /\ h ∈ rows (d Webhooks).
Proof.
  intros [_ Hr]%violated_None Hx.
  destruct (Hr (FKey WebhookDeliveries (fun w => Some (WebhookDelivery.WebhookID w)) Webhooks true) ltac:(unfold fkeys; repeat (first [by left | right]))
              x _ Hx eq_refl) as (h & Hh & Hid).
  destruct (find_elem (hook_id (WebhookDelivery.WebhookID x)) _ h Hh) as [h' Hh']; [by apply Z.eqb_eq |].
  exists h'. split; [exact Hh' |]. by apply find_Some in Hh' as [? _].
Qed.

(** What one attempt at the delivery [i] leaves. *)
Definition attempted (ids : list Z) (w w' : world) : Prop :=
  sound w' /\ (w_clock w <= w_clock w')%Z /\ keeps [Webhooks] (w_db w) (w_db w') /\
  Forall2 (moves ids (w_clock w')) (deliveries (w_db w)) (deliveries (w_db w')).

Lemma keeps_record id f d : keeps [Webhooks] d (snd (update WebhookDeliveries (delivery_id id) f d)).
Proof. frame. Qed.

(** Recording a result as [recordFailure] does, after other statements left
    both tables alone. *)
Lemma wp_failure del x code msg w0 w (Q : unit -> world -> Prop) :
  sound w -> violated (w_db w0) = None -> (w_clock w0 <= w_clock w)%Z -> keeps [Webhooks; WebhookDeliveries] (w_db w0) (w_db w) ->
  x ∈ deliveries (w_db w0) -> WebhookDelivery.ID x = WebhookDelivery.ID del -> WebhookDelivery.Attempts x = WebhookDelivery.Attempts del ->
  (forall w', attempted [WebhookDelivery.ID del] w0 w' -> Q tt w') ->
  wp (recordFailure opts del code msg) Q w.
Proof.
  intros Hw Hv0 Hc0 Hk Hx Hid Hat HQ. unfold recordFailure. cbv zeta. apply wp_bind.
  assert (wp (if (WebhookDelivery.Attempts del + 1 <? MaxAttempts opts)%Z
              then now <- time_Now ;; Ret (Some (now + delay opts (WebhookDelivery.Attempts del + 1))%Z) else Ret None)%prog
    (fun next w1 => sound w1 /\ w_db w1 = w_db w /\ (w_clock w <= w_clock w1)%Z /\
       match next with Some t => (WebhookDelivery.Attempts del + 1 < MaxAttempts opts)%Z /\ (t <= w_clock w1 + 15 * Minute)%Z | None => True end) w) as Hnext.
  { destruct (Z.ltb_spec (WebhookDelivery.Attempts del + 1) (MaxAttempts opts)).
    - apply wp_bind, wp_now. intros now ts Hnow. apply wp_Ret. split; [exact Hw |]. cbn [w_db w_clock]. repeat (split; [done |]).
      pose proof (delay_bound (WebhookDelivery.Attempts del + 1)). lia.
    - apply wp_Ret. split; [done |]. split; [done |]. split; [lia | done]. }
  eapply wp_mono; [exact Hnext |]. intros next w1 (Hw1 & Hd1 & Hc1 & Hn). apply wp_bind. apply wp_record; [done |].
  intros now w2 Hw2 Hc2 Hd2. apply wp_Ret, HQ. rewrite Hd1 in Hd2. split; [done |]. split; [lia |].
  assert (deliveries (w_db w) = deliveries (w_db w0)) as Hrows by (by rewrite (Hk WebhookDeliveries) by (right; by left)). split.
  - rewrite Hd2. etrans; [| apply keeps_record]. intros t Ht. apply Hk. set_solver.
  - rewrite Hd2, update_eq. cbn [rows]. rewrite Hrows. apply moves_one. intros y Hy Hyid.
    assert (y = x) as -> by (eapply delivery_unique; [done | done | done | congruence]).
    split; [done |]. split; [done |]. destruct next as [t |]; [| by left]. destruct Hn as [Hmax Ht]. right.
    cbn [failed_row WebhookDelivery.Status WebhookDelivery.Attempts WebhookDelivery.ClaimedAt WebhookDelivery.NextAttempt]. rewrite Hat.
    repeat (split; [done |]). exists t. split; [done | lia].
Qed.

Lemma wp_deliver del x w (Q : option Request -> world -> Prop) :
  sound w -> deliverable (w_db w) -> x ∈ deliveries (w_db w) ->
  WebhookDelivery.ID x = WebhookDelivery.ID del -> WebhookDelivery.WebhookID x = WebhookDelivery.WebhookID del ->
  WebhookDelivery.Attempts x = WebhookDelivery.Attempts del ->
  (forall r w', attempted [WebhookDelivery.ID del] w w' -> Q r w') -> wp (deliver master opts del) Q w.
Proof.
  intros Hw Hkeys Hx Hid Hhook Hat HQ. unfold deliver. destruct (hook_exists _ _ (proj2 Hw) Hx) as (h & Hh & Hin). rewrite Hhook in Hh.
  apply wp_bind. apply wp_row_sound; [done |]. rewrite Hh.
  assert (exists key, (if nonempty (Webhook.SecretEnc h) then Box.Decrypt master (Webhook.SecretEnc h) else Ok ""%string) = Ok key) as [key ->].
  { unfold nonempty. destruct (String.eqb_spec (Webhook.SecretEnc h) ""); [by eexists | by apply Hkeys]. }
  destruct (request_error (Webhook.URL h)) as [m |].
  { apply wp_bind. eapply wp_failure; [done | apply Hw | lia | by intros t Ht | done | done | done |]. intros w' Ha. by apply wp_Ret, HQ. }
  apply wp_bind. eapply wp_beside; [apply quiet_http | done |]. intros resp w1 Hw1 Hc1 Hk1.
  assert (forall w', attempted [WebhookDelivery.ID del] w w' -> Q (Some (request h key del)) w') as HQ' by eauto.
  apply wp_bind. destruct resp as [code | e].
  2: { eapply wp_failure; [done | apply Hw | exact Hc1 | exact Hk1 | done | done | done |]. intros w' Ha. by apply wp_Ret, HQ'. }
  destruct (_ && _) eqn:Hcode.
  2: { eapply wp_failure; [done | apply Hw | exact Hc1 | exact Hk1 | done | done | done |]. intros w' Ha. by apply wp_Ret, HQ'. }
  apply wp_bind. apply wp_record; [done |]. intros now w2 Hw2 Hc2 Hd2. apply wp_Ret, wp_Ret, HQ'. split; [done |]. split; [lia |]. split.
  - rewrite Hd2. etrans; [| apply keeps_record]. intros t Ht. apply Hk1. set_solver.
  - rewrite Hd2, update_eq. cbn [rows]. rewrite (Hk1 WebhookDeliveries) by (right; by left). apply moves_one. intros y Hy Hyid.
    split; [done |]. split; [done |]. by left.
Qed.

(** *** A batch *)

(** What a claimed row is, in the table. *)
Definition claimed_from (l : list WebhookDelivery.t) (del : WebhookDelivery.t) : Prop :=
  exists x, x ∈ l /\ WebhookDelivery.ID x = WebhookDelivery.ID del /\ WebhookDelivery.WebhookID x = WebhookDelivery.WebhookID del /\
    WebhookDelivery.Attempts x = WebhookDelivery.Attempts del.

Lemma claimed_from_moves i c l l' del :
  WebhookDelivery.ID del <> i -> Forall2 (moves [i] c) l l' -> claimed_from l del -> claimed_from l' del.
Proof.
  intros Hne Hm (x & Hx & Hid & Hrest). exists x. split; [| done].
  apply list_elem_of_lookup in Hx as [k Hk]. destruct (Forall2_lookup_l _ _ _ _ _ Hm Hk) as (y & Hy & _ & _ & _ & Hout).
  rewrite <- (Hout ltac:(set_solver)). by eapply list_elem_of_lookup_2.
Qed.

Lemma wp_deliver_each due w (Q : list Request -> world -> Prop) :
  sound w -> deliverable (w_db w) -> NoDup (map WebhookDelivery.ID due) -> Forall (claimed_from (deliveries (w_db w))) due ->
  (forall rs w', attempted (map WebhookDelivery.ID due) w w' -> Q rs w') -> wp (deliver_each master opts due) Q w.
Proof.
  revert w Q. induction due as [| del due IH]; intros w Q Hw Hkeys Hnd Hdue HQ; cbn [deliver_each map] in *.
  { apply wp_Ret, HQ. split; [done |]. split; [lia |]. split; [by intros t | apply moves_nil]. }
  apply NoDup_cons in Hnd as [Hdel Hnd]. apply List.Forall_cons_iff in Hdue as [(x & Hx & Hid & Hhook & Hat) Hdue].
  apply wp_bind. eapply wp_deliver; [done | done | done | done | done | done |]. intros r w1 (Hw1 & Hc1 & Hk1 & Hm1). apply wp_bind.
  apply IH; [done | | done | |].
  - intros h. rewrite (Hk1 Webhooks) by (by left). apply Hkeys.
  - apply Forall_forall. intros d Hd. apply (claimed_from_moves (WebhookDelivery.ID del) (w_clock w1) (deliveries (w_db w))).
    + intros Heq. apply Hdel, list_elem_of_fmap. exists d. by split.
    + exact Hm1.
    + rewrite Forall_forall in Hdue. by apply Hdue.
  - intros rs w2 (Hw2 & Hc2 & Hk2 & Hm2). apply wp_Ret, HQ. split; [done |]. split; [lia |]. split; [by etrans |].
    eapply moves_trans; [exact Hdel | exact Hc2 | exact Hm1 | exact Hm2].
Qed.

(** *** A tick *)

Definition waiting (c : Z) (x : WebhookDelivery.t) : Prop :=
  is_open x = true -> WebhookDelivery.ClaimedAt x = None /\
    (WebhookDelivery.Status x = WebhookStatusFailed -> exists t, WebhookDelivery.NextAttempt x = Some t /\ (t <= c)%Z).

Lemma waiting_due now stale x : waiting now x -> is_due now stale x = is_open x.
Proof.
  unfold waiting, is_due, is_open. destruct (str_is (WebhookDelivery.Status x) WebhookStatusPending) eqn:Hp; cbn [orb].
  - intros Hx. destruct (Hx eq_refl) as [-> _]. done.
  - destruct (str_is (WebhookDelivery.Status x) WebhookStatusFailed) eqn:Hf; [| done]. intros Hx. destruct (Hx eq_refl) as [-> Hn].
    apply str_is_eq in Hf. destruct (Hn Hf) as (t & -> & Ht). destruct (Z.leb_spec t now); [done | lia].
Qed.

Lemma order_by_nil {A} (le : A -> A -> bool) (l : list A) : order_by le l = [] -> l = [].
Proof.
  intros Hl. destruct l as [| x l]; [done |]. assert (x ∈ order_by le (x :: l)) as Hx by (apply elem_of_order_by; by left).
  rewrite Hl in Hx. by apply not_elem_of_nil in Hx.
Qed.

(** Some open delivery is among the rows claimed. *)
Lemma claim_some now stale limit d x :
  0 < limit -> x ∈ deliveries d -> is_due now stale x = true -> exists y, y ∈ deliveries d /\ claimable now stale limit d y = true.
Proof.
  intros Hl Hx Hd. unfold claimable, picked.
  destruct (order_by oldest_delivery (select WebhookDeliveries (is_due now stale) d)) as [| y l] eqn:Ho.
  - apply order_by_nil in Ho. assert (x ∈ select WebhookDeliveries (is_due now stale) d) as Hin by (by apply elem_of_select_where).
    rewrite Ho in Hin. by apply not_elem_of_nil in Hin.
  - assert (y ∈ select WebhookDeliveries (is_due now stale) d) as Hy by (apply (elem_of_order_by oldest_delivery); rewrite Ho; by left).
    apply elem_of_select_where in Hy as [Hy Hdue]. exists y. split; [done |]. rewrite Hdue, andb_true_r. destruct limit; [lia |].
    cbn [take map existsb]. by rewrite Z.eqb_refl.
Qed.

Lemma violated_claim now stale limit d : violated d = None -> violated (snd (claim now stale limit d)) = None.
Proof. intros Hv. unfold claim. cbn [snd]. by rewrite violated_update. Qed.

Lemma sum_list_with_le {A} (f : A -> nat) l l' (R : A -> A -> Prop) :
  Forall2 R l l' -> (forall x y, x ∈ l -> R x y -> f y <= f x) -> sum_list_with f l' <= sum_list_with f l.
Proof.
  induction 1 as [| x y l l' Hxy _ IH]; intros Hf; simpl; [lia |].
  pose proof (Hf x y ltac:(by left) Hxy). specialize (IH (fun a b Ha => Hf a b ltac:(by right))). lia.
Qed.

Lemma sum_list_with_lt {A} (f : A -> nat) l l' (R : A -> A -> Prop) x :
  Forall2 R l l' -> (forall x y, x ∈ l -> R x y -> f y <= f x) -> x ∈ l -> (forall y, R x y -> f y < f x) ->
  sum_list_with f l' < sum_list_with f l.
Proof.
  induction 1 as [| a b l l' Hab Hl IH]; intros Hf Hx Hlt; simpl; [by apply not_elem_of_nil in Hx |].
  pose proof (Hf a b ltac:(by left) Hab). apply elem_of_cons in Hx as [-> | Hx].
  - pose proof (Hlt b Hab). pose proof (sum_list_with_le f l l' R Hl (fun x y Hx => Hf x y ltac:(by right))). lia.
  - pose proof (IH (fun x y Hx => Hf x y ltac:(by right)) Hx Hlt). lia.
Qed.

(** A tick advances some open delivery, if there is one, and leaves the rest as
    they were. *)
Definition ticked (w w' : world) : Prop :=
  sound w' /\ deliverable (w_db w') /\ settled (w_clock w') (w_db w') /\
  (remaining (w_db w') < remaining (w_db w) \/ forall x, x ∈ deliveries (w_db w') -> is_open x = false).

Lemma due_open now stale x : is_due now stale x = true -> is_open x = true.
Proof. unfold is_due, is_open. destruct (str_is (WebhookDelivery.Status x) WebhookStatusPending); [done |]. by destruct (str_is (WebhookDelivery.Status x) WebhookStatusFailed). Qed.

Lemma NoDup_map_select {A B} (g : A -> B) p (l : list A) : NoDup (map g l) -> NoDup (map g (select_where p l)).
Proof.
  unfold select_where. induction l as [| x l IH]; simpl; [done |]. intros [Hx Hl]%NoDup_cons.
  destruct (p x); simpl; [| by apply IH]. apply NoDup_cons. split; [| by apply IH]. intros (y & Hy & Hin)%list_elem_of_fmap.
  apply Hx, list_elem_of_fmap. exists y. split; [done |]. by apply (elem_of_select_where p l y) in Hin as [? _].
Qed.

Lemma claim_NoDup now stale limit d : violated d = None -> NoDup (map WebhookDelivery.ID (fst (claim now stale limit d))).
Proof.
  intros Hv. unfold claim. cbn [fst]. rewrite (fmap_Permutation _ _ _ (scan_perm _)). rewrite map_map. cbn [scanWebhookDelivery WebhookDelivery.set_ClaimedAt WebhookDelivery.ID].
  apply NoDup_map_select. apply (clashes_NoDup (clash WebhookDeliveries)); [| by apply violated_clashes]. intros a b Hab. by apply Z.eqb_eq.
Qed.

Lemma claim_from now stale limit d : Forall (claimed_from (deliveries (snd (claim now stale limit d)))) (fst (claim now stale limit d)).
Proof.
  apply Forall_forall. intros del (y & Hy & Hc & ->)%elem_of_claim. exists (WebhookDelivery.set_ClaimedAt (Some now) y).
  split; [| done]. unfold claim. cbn [snd]. rewrite update_eq. cbn [rows]. apply elem_of_update_where. exists y. by rewrite Hc.
Qed.

Lemma Forall2_impl_elem {A B} (P Q : A -> B -> Prop) l k :
  Forall2 P l k -> (forall x y, x ∈ l -> P x y -> Q x y) -> Forall2 Q l k.
Proof.
  induction 1 as [| x y l k Hxy _ IH]; intros HQ; constructor; [apply HQ; [by left | done] |].
  apply IH. intros a b Ha. apply HQ. by right.
Qed.

(** The rows before a claim and after its batch. *)
Lemma claim_moves now stale limit d c l :
  violated d = None ->
  Forall2 (moves (map WebhookDelivery.ID (fst (claim now stale limit d))) c) (deliveries (snd (claim now stale limit d))) l ->
  Forall2 (fun x y => if claimable now stale limit d x then advanced c x y else y = x) (deliveries d) l.
Proof.
  intros Hv. assert (deliveries (snd (claim now stale limit d)) = update_where (claimable now stale limit d) (WebhookDelivery.set_ClaimedAt (Some now)) (deliveries d)) as ->
    by (unfold claim; cbn [snd]; by rewrite update_eq).
  unfold update_where. intros Hm.
  apply (Forall2_fmap_l (fun x => if claimable now stale limit d x then WebhookDelivery.set_ClaimedAt (Some now) x else x)) in Hm.
  eapply Forall2_impl_elem; [exact Hm |]. intros x y Hx (_ & _ & Hin & Hout).
  destruct (claimable now stale limit d x) eqn:Hc; cbv beta iota in Hin, Hout.
  - apply Hin. apply list_elem_of_fmap. exists (scanWebhookDelivery x). split; [done |]. apply elem_of_claim. by exists x.
  - apply Hout. intros (z & Hz & (z0 & Hz0 & Hc0 & ->)%elem_of_claim)%list_elem_of_fmap.
    assert (x = z0) as -> by (by eapply delivery_unique). congruence.
Qed.

Lemma wp_tick w (Q : list Request -> world -> Prop) :
  sound w -> deliverable (w_db w) -> (forall x, x ∈ deliveries (w_db w) -> waiting (w_clock w) x) ->
  (forall rs w', ticked w w' -> Q rs w') -> wp (tick master opts) Q w.
Proof.
  intros Hw Hkeys Hwait HQ. apply wp_bind, wp_now. intros now ts Hnow. apply wp_bind. unfold ClaimDueWebhookDeliveries. cbn [Z.leb Z.compare].
  set (stale := (now - ClaimStale opts)%Z). change (Z.to_nat 100) with 100. set (d := w_db w) in *.
  apply wp_sql_sound; [exact Hw | by apply violated_claim, Hw |]. intros w2 Hw2. cbn [w_db]. fold d.
  assert (w_db w2 = snd (claim now stale 100 d)) as Hd2 by done.
  apply wp_deliver_each; [done | | apply claim_NoDup, Hw | rewrite Hd2; apply claim_from |].
  { intros h. rewrite Hd2. unfold claim. cbn [snd]. rewrite update_ne by done. apply Hkeys. }
  intros rs w' (Hw' & Hc' & Hk' & Hm). apply HQ. rewrite Hd2 in Hm. apply claim_moves in Hm; [| apply Hw].
  set (c := w_clock w') in *. split; [done |]. split; [| split].
  - intros h. rewrite (Hk' Webhooks) by (by left). rewrite Hd2. unfold claim. cbn [snd]. rewrite update_ne by done. apply Hkeys.
  - intros y Hy. apply list_elem_of_lookup in Hy as [k Hk]. destruct (Forall2_lookup_r _ _ _ _ _ Hm Hk) as (x & Hx & HR).
    apply list_elem_of_lookup_2 in Hx. destruct (claimable now stale 100 d x); [by eapply advanced_rests |]. subst y.
    intros Ho. destruct (Hwait x Hx Ho) as [Hcl Hn]. split; [done |]. intros Hf. destruct (Hn Hf) as (t & Ht & Hle). exists t. split; [done |].
    assert (w_clock w2 = now) as Hcw by done. subst c. unfold Minute, Second. lia.
  - assert (forall x y, x ∈ deliveries d -> (if claimable now stale 100 d x then advanced c x y else y = x) -> weight y <= weight x) as Hle.
    { intros x y _. destruct (claimable now stale 100 d x) eqn:Hcl; [| by intros ->].
      intros Ha. apply Nat.lt_le_incl. eapply advanced_lighter; [| exact Ha]. by eapply due_open, claimable_due. }
    destruct (existsb is_open (deliveries d)) eqn:Ho.
    + left. apply existsb_exists in Ho as (x & Hx%list_elem_of_In & Hox).
      assert (is_due now stale x = true) as Hdue.
      { rewrite waiting_due; [done |]. intros _. destruct (Hwait x Hx Hox) as [Hcl Hn]. split; [done |]. intros Hf.
        destruct (Hn Hf) as (t & Ht & Hlt). exists t. split; [done | lia]. }
      destruct (claim_some now stale 100 d x ltac:(lia) Hx Hdue) as (y & Hy & Hcl).
      apply (sum_list_with_lt weight _ _ _ y Hm Hle Hy). intros z. rewrite Hcl. apply advanced_lighter. by eapply due_open, claimable_due.
    + right. intros y Hy. apply list_elem_of_lookup in Hy as [k Hk]. destruct (Forall2_lookup_r _ _ _ _ _ Hm Hk) as (x & Hx & HR).
      apply list_elem_of_lookup_2 in Hx. assert (is_open x = false) as Hox.
      { apply not_true_iff_false. intros Hox. apply not_true_iff_false in Ho. apply Ho, existsb_exists. exists x. by rewrite <- list_elem_of_In. }
      destruct (claimable now stale 100 d x) eqn:Hcl; [| by subst]. apply claimable_due, due_open in Hcl. congruence.
Qed.

(** *** Ticks a quarter of an hour apart *)

Definition wait (t : Z) (w : world) : world := mkWorld (w_db w) (w_clock w + t) (w_ticks w) (w_faults w) (w_draws w).

Fixpoint rounds (n : nat) (w : world) : world :=
  match n with 0 => w | S n' => rounds n' (snd (run (tick master opts) (wait (15 * Minute) w))) end.

Lemma tick_ticks w :
  sound w -> deliverable (w_db w) -> settled (w_clock w) (w_db w) -> ticked w (snd (run (tick master opts) (wait (15 * Minute) w))).
Proof.
  intros Hw Hkeys Hs. refine (wp_tick (wait (15 * Minute) w) (fun _ w' => ticked w w') Hw Hkeys _ (fun _ w' Ht => Ht)).
  intros x Hx Ho. exact (Hs x Hx Ho).
Qed.

Lemma open_remaining d x : x ∈ deliveries d -> is_open x = true -> 0 < remaining d.
Proof.
  intros Hx Ho. unfold remaining. induction (deliveries d) as [| y l IH]; [by apply not_elem_of_nil in Hx |]. simpl.
  apply elem_of_cons in Hx as [<- | Hx]; [unfold weight at 1; rewrite Ho; lia | specialize (IH Hx); lia].
Qed.

Lemma closed_remaining d : (forall x, x ∈ deliveries d -> is_open x = false) -> remaining d = 0.
Proof.
  unfold remaining. induction (deliveries d) as [| y l IH]; intros Hc; [done |]. simpl. unfold weight at 1.
  rewrite (Hc y) by (by left). rewrite IH; [done |]. intros x Hx. apply Hc. by right.
Qed.

Lemma rounds_close n w :
  sound w -> deliverable (w_db w) -> settled (w_clock w) (w_db w) -> remaining (w_db w) <= n ->
  forall x, x ∈ deliveries (w_db (rounds n w)) -> is_open x = false.
Proof.
  revert w. induction n as [| n IH]; intros w Hw Hkeys Hs Hn x; cbn [rounds].
  - intros Hx. apply not_true_iff_false. intros Ho. pose proof (open_remaining _ _ Hx Ho). lia.
  - destruct (tick_ticks w Hw Hkeys Hs) as (Hw' & Hkeys' & Hs' & Hr). apply IH; [done | done | done |].
    destruct Hr as [Hr | Hr]; [lia |]. rewrite (closed_remaining _ Hr). lia.
Qed.

Lemma rounds_formed n w : table_formed (w_db w) -> table_formed (w_db (rounds n w)).
Proof.
  revert w. induction n as [| n IH]; intros w Hw; cbn [rounds]; [done |]. apply IH.
  exact (wp_guar forms (tick master opts) (wait (15 * Minute) w) _ _ (forms_tick opts) Hw).
Qed.

(** C36.  A dispatcher that keeps ticking, alone and with a database that fails
    nothing, brings every delivery to an end as long as the signing keys of the
    webhooks decrypt, no delivery is claimed at the start and none that failed
    is due more than a quarter of an hour later: with ticks a quarter of an hour apart, after as many as
    there are attempts left in all, each delivery is delivered or dead,
    whatever the receivers answer and however long they take, and whatever
    back-off was configured. *)
Theorem every_delivery_ends n w :
  sound w -> table_formed (w_db w) -> deliverable (w_db w) -> settled (w_clock w) (w_db w) -> remaining (w_db w) <= n ->
  forall x, x ∈ deliveries (w_db (rounds n w)) ->
    WebhookDelivery.Status x = WebhookStatusDelivered \/ WebhookDelivery.Status x = WebhookStatusDead.
Proof.
  intros Hw Hform Hkeys Hs Hn x Hx. pose proof (rounds_close n w Hw Hkeys Hs Hn x Hx) as Ho. unfold is_open in Ho.
  destruct (rounds_formed n w Hform x Hx) as [Hst | Hst | Hst | Hst]; rewrite Hst in *; [done | done | by right | by left].
Qed.
End dispatching.

(** ** A key that cannot be read *)

Section unreadable.
Context (opts : Options) (x : WebhookDelivery.t) (h : Webhook.t) (e : error).
Hypothesis has_key : Webhook.SecretEnc h <> ""%string.
Hypothesis no_key : Box.Decrypt master (Webhook.SecretEnc h) = Err e.

(** The delivery is as far as it was. *)
Definition as_before (y : WebhookDelivery.t) : Prop :=
  WebhookDelivery.ID y = WebhookDelivery.ID x /\ WebhookDelivery.WebhookID y = WebhookDelivery.WebhookID x /\
  WebhookDelivery.Status y = WebhookDelivery.Status x /\ WebhookDelivery.Attempts y = WebhookDelivery.Attempts x.
Definition stuck (d : db) : Prop :=
  select1 Webhooks (hook_id (WebhookDelivery.WebhookID x)) d = Some h /\ exists y, y ∈ deliveries d /\ as_before y.
Definition sticks (d d' : db) : Prop := stuck d -> stuck d'.

#[local] Instance sticks_refl : Reflexive sticks.
Proof. exact (fun d Hd => Hd). Qed.
#[local] Instance sticks_trans : Transitive sticks.
Proof. intros d1 d2 d3 K1 K2 K. auto. Qed.

Lemma sticks_keeps d d' : keeps [Webhooks; WebhookDeliveries] d d' -> sticks d d'.
Proof. intros Hk [Hh Hy]. unfold stuck, select1 in *. rewrite (Hk Webhooks), (Hk WebhookDeliveries) by set_solver. done. Qed.

Lemma sticks_update p f d : (forall y, as_before y -> p y = true -> as_before (f y)) -> sticks d (snd (update WebhookDeliveries p f d)).
Proof.
  intros Hf [Hh (y & Hy & Hb)]. split; [unfold select1 in *; by rewrite update_ne |]. exists (if p y then f y else y).
  rewrite update_eq. split; [apply elem_of_update_where; by exists y |]. destruct (p y) eqn:Hp; [by apply Hf | done].
Qed.

Lemma sticks_deliver del :
  (WebhookDelivery.ID del = WebhookDelivery.ID x -> WebhookDelivery.WebhookID del = WebhookDelivery.WebhookID x) ->
  preserves (fun w => sound w /\ stuck (w_db w)) (deliver master opts del).
Proof.
  intros Hdel. destruct (decide (WebhookDelivery.ID del = WebhookDelivery.ID x)) as [Hid | Hid].
  - intros w [Hw Hst]. pose proof (proj1 Hst) as Hh. rewrite <- (Hdel Hid) in Hh. apply wp_bind. apply wp_row_sound; [done |]. rewrite Hh.
    unfold nonempty. destruct (String.eqb_spec (Webhook.SecretEnc h) ""); [done |]. cbn [negb]. rewrite no_key. by apply wp_Ret.
  - intros w [Hw Hst].
    assert (forall code msg next now d, sticks d (snd (update WebhookDeliveries (delivery_id (WebhookDelivery.ID del)) (failed_row code msg next now) d))) as Hfail.
    { intros. apply sticks_update. intros y (Hy & _) Hp%Z.eqb_eq. congruence. }
    assert (forall code now d, sticks d (snd (update WebhookDeliveries (delivery_id (WebhookDelivery.ID del)) (delivered_row code now) d))) as Hdone.
    { intros. apply sticks_update. intros y (Hy & _) Hp%Z.eqb_eq. congruence. }
    assert (forall r, guar (on_db sticks) (http_Do r)) as Hhttp
      by (intros r; eapply guar_weaken; [| apply (proj1 (quiet_http r))]; intros w1 w2; apply sticks_keeps).
    assert (forall r, guar stays_sound (http_Do r)) as Hsound by (intros r; apply quiet_http).
    eapply wp_mono; [apply wp_and; [apply wp_sound; [| exact Hw] | apply (wp_guar sticks); [apply _ | apply _ |]] |].
    + guar_walk idtac.
    + guar_walk ltac:(first [apply Hfail | apply Hdone]).
    + intros r w' [Hw' Hs]. split; [done | by apply Hs].
Qed.

Lemma sticks_tick : preserves (fun w => sound w /\ stuck (w_db w)) (tick master opts).
Proof.
  intros w [Hw Hst]. apply wp_bind, wp_now. intros now ts _. apply wp_bind. unfold ClaimDueWebhookDeliveries. cbn [Z.leb Z.compare].
  set (stale := (now - ClaimStale opts)%Z). change (Z.to_nat 100) with 100. apply wp_sql_sound; [exact Hw | by apply violated_claim, Hw |].
  intros w2 Hw2. assert (stuck (w_db w2)) as Hst2 by (exact (sticks_update (claimable now stale 100 (w_db w)) (WebhookDelivery.set_ClaimedAt (Some now)) (w_db w) (fun y Hy _ => Hy) Hst)).
  assert (Forall (fun del => WebhookDelivery.ID del = WebhookDelivery.ID x -> WebhookDelivery.WebhookID del = WebhookDelivery.WebhookID x)
            (fst (claim now stale 100 (w_db w)))) as Hdue.
  { apply Forall_forall. intros del (y & Hy & _ & ->)%elem_of_claim Hid. destruct Hst as [_ (z & Hz & Hidz & Hhook & _)].
    assert (y = z) as -> by (eapply delivery_unique; [apply Hw | done | done | by rewrite Hidz]). done. }
  cbn [w_db]. revert Hdue. generalize (fst (claim now stale 100 (w_db w))). intros due Hdue.
  assert (preserves (fun w => sound w /\ stuck (w_db w)) (deliver_each master opts due)) as Hall; [| by apply Hall].
  clear -Hdue has_key no_key quiet_http. induction Hdue as [| del due Hdel _ IH]; cbn [deliver_each]; [apply preserves_Ret |].
  apply preserves_bind; [by apply sticks_deliver |]. intros r. apply preserves_bind; [exact IH |]. intros rs. apply preserves_Ret.
Qed.
End unreadable.

(** A delivery whose webhook's signing key cannot be decrypted is neither
    attempted nor given up: however long the dispatcher keeps ticking, it has
    the status and the attempts it had. *)
Theorem unreadable_key_keeps_its_deliveries opts n x h e w :
  sound w -> x ∈ deliveries (w_db w) -> select1 Webhooks (hook_id (WebhookDelivery.WebhookID x)) (w_db w) = Some h ->
  Webhook.SecretEnc h <> ""%string -> Box.Decrypt master (Webhook.SecretEnc h) = Err e ->
  exists y, y ∈ deliveries (w_db (rounds opts n w)) /\ WebhookDelivery.ID y = WebhookDelivery.ID x /\
    WebhookDelivery.Status y = WebhookDelivery.Status x /\ WebhookDelivery.Attempts y = WebhookDelivery.Attempts x.
Proof.
  intros Hw Hx Hh Hkey Hno. assert (sound w /\ stuck x h (w_db w)) as Hj by (split; [done |]; split; [done |]; by exists x).
  assert (stuck x h (w_db (rounds opts n w))) as (_ & y & Hy & Hid & _ & Hst & Hat); [| by exists y].
  clear Hw Hx Hh. revert w Hj. induction n as [| n IH]; intros w Hj; cbn [rounds]; [apply Hj |].
  apply IH. exact (sticks_tick opts x h e Hkey Hno (wait (15 * Minute) w) Hj).
Qed.
End programs.

(** ** Receivers that are slow, but within the timeout *)

(** Every receiver answers 200 after nine seconds. *)
#[local] Instance slow : Network := {|
  url_parts s := Ok ("https", s)%string; ip_bytes s := None; ip_String ip := ""%string; split_host := Ok;
  request_error s := None;
  http_Do r := act (fun w => (Ok 200%Z, wait (9 * Second) w));
  hmac_sha256 k s := k; json_time := Str.itoa |}.

Definition receiver : Webhook.t := Webhook.mk 1 "siem" "https://siem.test/hook" "*" "" false "ada" 0 0.
Definition event (i : nat) : WebhookDelivery.t := new_delivery 1 "cert.issue" "{}" 0 (Z.of_nat i).
Definition backlog (n : nat) : world :=
  mkWorld (set_table Webhooks (mkTable [receiver : row Webhooks] 1)
          (set_table WebhookDeliveries (mkTable (map (fun i => event i : row WebhookDeliveries) (List.seq 1 n)) (Z.of_nat n)) empty_db))
    (1000 * Second) [] [] 0.

Definition defaults : Options := withDefaults (mkOptions 0 0 0 0 0).

Definition sent_by (p : prog world (list Request)) : list string :=
  match p with Ret rs => map X_Goca_Delivery rs | Act _ _ => [] end.

(** With the default options and receivers that answer 200 well within
    the timeout, a batch can outlast its claims: while one dispatcher works
    through fifteen deliveries another claims the last and posts it, and the
    first posts it again. *)
Theorem slow_batch_is_sent_twice :
  exists turns a b,
    map sent_by (snd (schedule turns (backlog 15, [tick Sample.master defaults; tick Sample.master defaults]))) = [a; b] /\
    "15"%string ∈ a /\ "15"%string ∈ b /\ (9 * Second < Timeout defaults)%Z.
Proof.
  exists (repeat 0 58 ++ repeat 1 6 ++ repeat 0 4), (map (fun i => Str.itoa (Z.of_nat i)) (List.seq 1 15)), ["15"%string].
  split; [vm_compute; reflexivity |]. split; [| split; [by left | reflexivity]].
  vm_compute. repeat (first [by left | right]).
Qed.

(** ** The theorems at work on a backlog *)

Lemma quiet_slow r : beside [Webhooks; WebhookDeliveries] (http_Do r).
Proof. split; apply guar_act; intros w; [by intros t |]. split; [exact (fun Hw => Hw) |]. unfold wait, Second. simpl. lia. Qed.

Lemma backlog_row n x : x ∈ deliveries (w_db (backlog n)) -> exists i, x = event i.
Proof. intros (i & -> & _)%list_elem_of_fmap. by exists i. Qed.

Lemma backlog_formed n : table_formed (w_db (backlog n)).
Proof. intros x [i ->]%backlog_row. by apply Pending_row. Qed.

Definition first_claim : list WebhookDelivery.t * db := claim (1000 * Second) (880 * Second) 1 (w_db (backlog 2)).
Definition one_more : db := snd (insert WebhookDeliveries (new_delivery 1 "cert.revoke" "{}" (1010 * Second)) (snd first_claim)).

Lemma claims_are_exclusive_witness :
  event 1 ∈ fst first_claim /\ event 2 ∈ fst (claim (1060 * Second) (940 * Second) 1 one_more) /\
  WebhookDelivery.ID (event 2) <> WebhookDelivery.ID (event 1).
Proof.
  assert (fst first_claim = [event 1]) as Hx by (vm_compute; reflexivity).
  assert (fst (claim (1060 * Second) (940 * Second) 1 one_more) = [event 2]) as Hy by (vm_compute; reflexivity).
  assert (event 1 ∈ fst first_claim) as Hx' by (rewrite Hx; by left).
  assert (event 2 ∈ fst (claim (1060 * Second) (940 * Second) 1 one_more)) as Hy' by (rewrite Hy; by left).
  split; [exact Hx' |]. split; [exact Hy' |].
  refine (claims_are_exclusive (1000 * Second) (880 * Second) 1 (w_db (backlog 2)) (event 1) one_more (1060 * Second) (940 * Second) 1 (event 2) _ Hx' _ _ Hy').
  - vm_compute. reflexivity.
  - apply rtc_once, Enqueued. vm_compute. discriminate.
  - reflexivity.
Defined.

Definition two_dispatchers : list (prog world unit) :=
  [(tick Sample.master defaults ;;; Ret tt)%prog; (tick Sample.master defaults ;;; Ret tt)%prog;
   CaService.recordAudit Emit "ada" "cert.issue" "1" "" ""].

Lemma deliveries_well_formed_witness :
  length (deliveries (w_db (fst (schedule (repeat 0 20 ++ repeat 2 9 ++ repeat 1 9) (backlog 3, two_dispatchers))))) = 4 /\
  table_formed (w_db (fst (schedule (repeat 0 20 ++ repeat 2 9 ++ repeat 1 9) (backlog 3, two_dispatchers)))).
Proof.
  split; [vm_compute; reflexivity |].
  pose proof (schedule_rtc (repeat 0 20 ++ repeat 2 9 ++ repeat 1 9) (backlog 3, two_dispatchers)) as Hs.
  destruct (schedule (repeat 0 20 ++ repeat 2 9 ++ repeat 1 9) (backlog 3, two_dispatchers)) as [w' ps'] eqn:E.
  refine (deliveries_well_formed Sample.master quiet_slow (backlog 3) two_dispatchers w' ps' _ (backlog_formed 3) Hs).
  repeat (apply List.Forall_cons; [first [apply Ticks | apply Audits] |]). constructor.
Defined.

Lemma every_delivery_ends_witness :
  remaining defaults (w_db (backlog 3)) = 15 /\
  forall x, x ∈ deliveries (w_db (rounds Sample.master defaults 15 (backlog 3))) ->
    WebhookDelivery.Status x = WebhookStatusDelivered \/ WebhookDelivery.Status x = WebhookStatusDead.
Proof.
  split; [vm_compute; reflexivity |].
  apply (every_delivery_ends Sample.master quiet_slow defaults 15 (backlog 3)).
  - split; [reflexivity | vm_compute; reflexivity].
  - apply backlog_formed.
  - intros h [= ->]%list_elem_of_singleton Hk. by destruct Hk.
  - intros x [i ->]%backlog_row _. by split.
  - assert (remaining defaults (w_db (backlog 3)) = 15) as -> by (vm_compute; reflexivity). constructor.
Defined.

(** The administration takes any text that starts like an encrypted one. *)
Definition mistyped : Hooks.webhookInput := Hooks.mkHook "siem" "https://siem.test/hook" "" "enc:v1:oops" false.
Definition misconfigured : world :=
  snd (run (Hooks.apiWebhookCreate Sample.master mistyped "ada" ;;; Emit "ada" "cert.issue" "1" "" "")%prog (mkWorld empty_db 0 [] [] 0)).
Definition unsent : WebhookDelivery.t := match deliveries (w_db misconfigured) with x :: _ => x | [] => event 0 end.

Lemma unreadable_key_keeps_its_deliveries_witness :
  WebhookDelivery.Status unsent = WebhookStatusPending /\
  exists y, y ∈ deliveries (w_db (rounds Sample.master defaults 1000 misconfigured)) /\ WebhookDelivery.ID y = WebhookDelivery.ID unsent /\
    WebhookDelivery.Status y = WebhookDelivery.Status unsent /\ WebhookDelivery.Attempts y = WebhookDelivery.Attempts unsent.
Proof.
  split; [vm_compute; reflexivity |].
  assert (exists l, deliveries (w_db misconfigured) = unsent :: l) as [l Hl] by (eexists; vm_compute; reflexivity).
  eassert (select1 Webhooks (hook_id (WebhookDelivery.WebhookID unsent)) (w_db misconfigured) = Some _) as Hh by (vm_compute; reflexivity).
  eassert (Box.Decrypt Sample.master "enc:v1:oops" = Err _) as Hno by (vm_compute; reflexivity).
  refine (unreadable_key_keeps_its_deliveries Sample.master quiet_slow defaults 1000 unsent _ _ misconfigured _ _ Hh _ Hno).
  - split; vm_compute; reflexivity.
  - rewrite Hl. by left.
  - discriminate.
Defined.
End HookFacts.
